(* ===== verification/_CoqProject ===== *)
-Q . S2P
Prelude.v
Rounding.v
PyNum.v
Money.v
Models.v
Slots.v
Config.v
PyString.v
RateLimit.v
Billing.v
TelemetryStore.v
World.v
Hoare.v
PyJson.v
Auth.v
Wallet.v
Commands.v
Caps.v
Pricing.v
Reservations.v
Lifecycle.v
Ownership.v
Accounts.v
AccountClosure.v
AccountSafety.v
SignIn.v
SessionStart.v
Invoices.v
Payouts.v
CpoTopups.v
Tariffs.v
Groups.v
Plugs.v
Versioning.v
CsvSafe.v
Fleet.v
Admin.v
PushGuard.v
LocalIp.v
Workspace.v
RateRules.v
Http.v
Sockets.v
SocketSafety.v
Notifications.v
Reliability.v
Analytics.v
Disputes.v
Console.v
Export.v
Payments.v
PyFormat.v
InvoicePage.v
Mail.v
P110.v
Klap.v
Sessions.v
Schemas.v
Reaper.v
Alarms.v
Persistence.v
Telemetry.v
GatewayStatus.v
Mqtt.v
Agent.v
Providers.v
Simulator.v
Witnesses.v
MoneyWitnesses.v
SessionWitnesses.v
MqttWitnesses.v
RouterWitnesses.v
AgentWitnesses.v
AccountWitnesses.v
FleetWitnesses.v
OperatorWitnesses.v
EdgeWitnesses.v
