(* ===== verification/Prelude.v ===== *)
(** * AmpHive: verification of the charging backend and of its gateways in software

    ** The program

    AmpHive rents out smart plugs.  Operators (tenants) put gateways on their
    sites, with plugs behind them; drivers hold a wallet of coins, start a plug,
    and are billed for the energy at the rate of the time of day.  The backend
    (src/backend, FastAPI over PostgreSQL) answers drivers, operators and
    platform administrators, and talks to the gateways over MQTT; the agent
    (src/agent) is a gateway in software.  The parts meet in the database, in an
    in-memory store of live telemetry, and in the messages of
    services/mqtt; a browser is also told over sockets
    (services/socketio_manager.py).  A session goes: start (routers/sessions.py,
    services/session_start.py) reserves a hold on the wallet and publishes ON;
    telemetry (services/mqtt/telemetry.py) moves its energy and cost, and stops
    it at a limit; a stop, an alarm, an offline gateway or a sweep
    (services/session_reaper.py) finalizes it (services/session_lifecycle.py),
    which bills it, once, within the hold; then come invoice, dispute, payout.

    ** How it is modelled

    World.v: a [world] is the database as the running transaction sees it
    ([cur]), as it is committed ([com]), the live store, the process memory and
    the effects sent out ([evs]).  A handler is [M A], from a world to a result
    or an exception and a world; [commit], [rollback], [catch] are the code's,
    and [run_request] is a request, which drops what was not committed.  Tables
    are finite maps by primary key, rows the records of Models.v.  Hoare.v has
    the proof rules: [wp] for what one run does, [preserves] and [keeps] for
    invariants and frames, [safe] for code that swallows every exception.

    - Numbers.  Money is Z, in hundredths of a coin, in the bounds of
      NUMERIC(12,2).  Python floats are binary64 values as exact rationals with
      correct rounding (Rounding.v, PyNum.v), without negative zero, infinities
      and NaN, which the code's inputs exclude or which a parser turns away
      (PyJson.v); [Decimal] has its 28 digits.  Datetimes are Z microseconds of
      UTC, wall clocks likewise in local time.
    - Concurrency.  One event loop and row locks: between two commits a handler
      runs as one step, and [now] is read once in a handler.  Handlers that
      release a lock on the way are split there (session start, the queued
      start, token redemption), and the interleavings are in SessionWitnesses.v.
      Some handlers take no lock between check and write: discovery, tariff
      slots, link requests, group joins, gateway claims, the first link with
      Google.  Their theorems are about requests one at a time, and what goes
      wrong otherwise is a theorem of a witness file ([joined_twice],
      [claimed_twice], [concurrent_slots_overlap], [mutual_demotion],
      [closure_race], [link_revives_token]).
    - Order.  A query without ORDER BY gives the rows in the order of the map;
      where the code's result depends on the order, a theorem says so or is
      about every order.  Primary keys come from one sequence.
    - Loops.  Recursion is structural, or on fuel: 3 days in
      [Pricing.window_rates] (enough below 24 hours, [window_rates_fuel]), 7 in
      [Slots.next_day_bound] (a week), 20 digits in [PyNum.repr_search] (17
      suffice, and the result reads back whatever the fuel), 20 tries in
      [Admin.unique_claim_code] (the code's own bound).  The code's unbounded
      retry, [Groups.generate_unique_access_code], runs on the list of its draws
      and ends in [Unfinished] only when all of them were taken ([wp_generate]).
    - Outside code is a parameter: [Config] has the environment, the zone
      database and the broker's answers; [Crypto] bcrypt, SHA-256 and JOSE, with
      [CryptoLaws] for their documentation; [EmailValidator] and [WriterLaws]
      the check of an address and the writing of text; [KlapCrypto] with
      [KlapLaws] AES and SHA-256; [CharData] with [CharLaws] the tables of
      Unicode.  Google's answer, the ILIKE
      match, the storage bucket, the JSON parser, push services, CORS, the socket
      library's rooms and random draws are arguments.
    - Notifications are rows of the database; a handler emits them as effects,
      without their words, and [Notifications.deliver] stores and sends them.
    - Not kept: ledger descriptions, event details and responses, audit rows, log
      lines, timestamps nothing reads.  [Schemas.loose_texts] has those texts of
      them that a body goes into.
    - Text.  Strings are their UTF-8 bytes; a length or a slice the code counts in
      characters is [PyString.str_len] and [str_take].  A handler starts from a
      request that its schema let through; the schemas, and what they keep out,
      are in Schemas.v.  Tables have the UNIQUE and foreign keys the code relies
      on, as checks that raise [IntegrityError] or as invariants; a number out of
      its column's range is a [DataError].

    ** The files

    Money, Slots, Billing, Pricing: services/money.py, billing.py, pricing.py.
    TelemetryStore: services/telemetry.py.  RateLimit, RateRules, Http:
    services/rate_limit.py, and main.py's layers around a request.
    Auth, Accounts, AccountClosure, AccountSafety, SignIn: services/auth.py,
    rbac.py, account_closure.py, routers/auth.py, and what they promise.
    Wallet, Commands, Caps, Reservations, Lifecycle, SessionStart, Sessions,
    Reaper: the services of those names, with routers/reservations.py and
    routers/sessions.py.  Invoices, Payouts, CpoTopups, Disputes, Payments:
    services and routers of those names.  Tariffs, Groups, Plugs, Versioning,
    CsvSafe, Fleet: routers/cpo/_tariffs.py, _groups.py, _plugs.py, _gateways.py,
    _plug_reports.py, routers/groups.py, plugs.py, services/versioning.py,
    csv_safe.py.  Admin, Console: routers/admin.py.  Workspace:
    routers/cpo/_profile.py, _events.py, _reservations.py and the push
    subscriptions of routers/notifications.py, behind PushGuard, the check of
    services/notifications.py.  Notifications: the rest of those two, with
    delivery.  Sockets, SocketSafety: services/socketio_manager.py, and what its
    rooms keep apart.  LocalIp, Schemas: schemas.py.  Reliability: services/reliability.py.
    Analytics: routers/cpo/_analytics.py, _invoices.py.  Export:
    services/data_export.py.  Alarms, Persistence, Telemetry,
    GatewayStatus, Mqtt: services/mqtt and services/telemetry_persistence.py.
    Ownership: what a gateway's message may touch, the interface between the
    handlers of messages and [Mqtt].  Agent, Providers: agent/amphive_agent, its
    devices and its configuration.  Simulator: tools/fake_plug.py.  P110, Klap:
    tools/p110_sim and tools/klap_probe.py, a smart plug and what asks for it.
    PyFormat, InvoicePage: the page of services/invoices.py, and how Python
    writes numbers.  Mail: services/email.py, billing_emails.py.  The files
    ending in Witnesses apply the theorems to concrete inputs and show the
    races.  A definition has the name of the code's function; a helper cut out
    of one stands next to it.

    ** What the theorems show

    - Money.  [db_ok] (Lifecycle.v): every wallet is the sum of its ledger,
      running sessions are covered by holds, holds by the wallet, a plug runs at
      most one session; start, limits, stop, sweeps, telemetry and alarms keep
      it.  A session is billed once, min(cost, hold); its cost is that of its
      rate segments.  Top-ups and refunds count once per payment id, payouts
      settle each session once and never above what it earned, disputes refund
      within the session's cost, invoices are unique and their tax adds up, an
      adjustment books what it moves.
    - Prices.  The rate and its validity, the bound behind a hold, slots that do
      not overlap, edits that bill forward only.
    - Messages.  Any bytes on any topic: the handler returns, invariants hold,
      and only the sending gateway's plugs are touched.  The agent's watchdog
      cuts at a limit (a duration beyond the floats stops its polling instead),
      its energy does not go back, and the backend reads its frames as meant.  The simulated gateway keeps within the firmware's table,
      keeps a session through everything that should not end it, and converges to
      the roster the backend retains.
    - Requests.  Which layer answers, and what it costs; attempts are counted
      against the limits as if none were forgotten; a request its schema accepts
      fits the columns it is written to, but for the gaps of [narrow].
    - Paper.  The markup of an invoice's page is the same whatever is printed on it,
      and its printed figures foot; a mail with a link leaves no token in the log,
      and what an operator writes stays one line of a mail.
    - Devices.  A plug's relay moves only for a signed request of an open session,
      granted to who knows the account; meters go forward, over restarts too; an
      agent's provider says of a device what the device answered.
    - Browsers.  A notification goes to connections of its user alone, what comes
      into a session's room to connections of its driver (it is the plug's
      telemetry, even after the session: [watches_next_driver]); a feed is the
      user's own, in order.
    - Access.  Sign-in, tokens, links, Google, closure, and what every sequence of
      account requests keeps; groups refine a relation
      of grants; lists, public map and single plug agree; tenants do not reach
      each other's fleet; a claim is final; an administrator remains; a firmware
      update comes from the catalogue or an administrator, over https.
    - Figures.  Pages tile a list; charts, totals and exports agree; the console's
      overview is the sum of its tenants; a copy of one's data is one's own rows,
      complete or marked, without credentials; a reachability badge is a
      percentage, 0 and 100 at its ends; no internal address in its usual form
      passes the guard on push endpoints.

    ** Not modelled, and why

    services/mqtt/connection.py, firmware publishing, the start and stop of
    main, seed, logging: I/O and wiring.  The audit log and its lists: written
    after the commit, best effort.  Migrations.  The agent's calls to the
    libraries of its devices.  The command lines of the tools, the flasher and
    the provisioning of gateways, firmware, frontend, deploy: other programs. *)

From stdpp Require Export base tactics list gmap strings.
From Stdlib Require Export ZArith Lia.

Global Open Scope Z_scope.
#[export] Set Default Proof Using "Type".

(** ** Automation *)

(** Euclidean division facts of [n / d] and [n mod d], for [lia]. *)
Ltac div_facts n d :=
  pose proof (Z.div_mod n d ltac:(lia));
  pose proof (Z.mod_pos_bound n d ltac:(lia)).

(** What the guards a handler got past say. *)
Ltac passed :=
  repeat match goal with
  | H : negb _ = false |- _ => apply negb_false_iff in H
  | H : negb _ = true |- _ => apply negb_true_iff in H
  | H : bool_decide _ = true |- _ => apply bool_decide_eq_true_1 in H
  | H : bool_decide _ = false |- _ => apply bool_decide_eq_false_1 in H
  | H : (_ <=? _) = true |- _ => apply Z.leb_le in H
  | H : (_ <=? _) = false |- _ => apply Z.leb_gt in H
  | H : (_ <? _) = true |- _ => apply Z.ltb_lt in H
  | H : (_ <? _) = false |- _ => apply Z.ltb_ge in H
  | H : (_ =? _) = true |- _ => apply Z.eqb_eq in H
  | H : (_ =? _) = false |- _ => apply Z.eqb_neq in H
  | H : _ && _ = true |- _ => apply andb_true_iff in H as [? ?]
  | H : _ || _ = false |- _ => apply orb_false_iff in H as [? ?]
  end.

(** [a if a is not None else b]. *)
Definition coalesce {A} (a b : option A) : option A := match a with Some _ => a | None => b end.

(** Facts about Python numbers ([PyNum]) and about the money of one wallet. *)
Create HintDb pynum.
Create HintDb wallet.

(** ** Functional update of one record field

    The Python code assigns one attribute of a row at a time
    ([session.status = ...]).  A record type registers its eta-expansion
    ([Eta]); the setter of a projection is then found by instance search. *)

Class Eta (R : Type) := eta : R → R.
Class Setter {R T : Type} (proj : R → T) := set_with : (T → T) → R → R.
Arguments set_with {R T} proj {_} _ !_ / : assert.

Ltac derive_setter :=
  lazymatch goal with
  | |- @Setter ?R ?T ?p =>
      let inst := constr:(eta : R → R) in
      let e := eval cbv beta delta [eta] in inst in
      let e := eval hnf in e in
      lazymatch eval pattern p in e with
      | ?h _ => let s := constr:(fun g : T → T => h (fun r => g (p r))) in
                let s := eval cbv beta in s in exact s
      end
  end.

#[export] Hint Extern 1 (Setter _) => derive_setter : typeclass_instances.

Declare Scope record_scope.
Delimit Scope record_scope with rec.
Notation "r <| p := v |>" := (set_with p (fun _ => v) r)
  (at level 1, left associativity, format "r  <| p  :=  v |>") : record_scope.
Notation "r <| p ::= f |>" := (set_with p f r)
  (at level 1, left associativity, format "r  <| p  ::=  f |>") : record_scope.
Open Scope record_scope.

(** ** Sums over the rows of a table *)

Section MapSum.
Context {A : Type}.
Implicit Types (m : gmap Z A).

(** [SELECT SUM(f(row)) FROM m]. *)
Definition msum (f : A → Z) m : Z := map_fold (λ _ r acc, f r + acc) 0 m.

Lemma msum_empty f : msum f ∅ = 0.
Proof. apply map_fold_empty. Qed.

Lemma msum_insert_None f m i x :
  m !! i = None → msum f (<[i:=x]> m) = f x + msum f m.
Proof.
  intros Hi. unfold msum. rewrite map_fold_insert_L; [done | | done].
  intros; lia.
Qed.

Lemma msum_delete f m i x :
  m !! i = Some x → msum f m = f x + msum f (delete i m).
Proof.
  intros Hi. rewrite <- (insert_delete_id _ _ _ Hi) at 1.
  rewrite msum_insert_None; [done | apply lookup_delete_eq].
Qed.

Lemma msum_update f m i x y :
  m !! i = Some x → msum f (<[i:=y]> m) = msum f m - f x + f y.
Proof.
  intros Hi. rewrite (msum_delete f m i x Hi), <- insert_delete_eq.
  rewrite msum_insert_None by apply lookup_delete_eq. lia.
Qed.

Lemma msum_ext f g m :
  (∀ i x, m !! i = Some x → f x = g x) → msum f m = msum g m.
Proof.
  induction m as [|i x m Hi Hfold IH] using map_first_key_ind; intros Hfg.
  - by rewrite !msum_empty.
  - rewrite !msum_insert_None by done. rewrite IH.
    + rewrite (Hfg i x); [done | apply lookup_insert_eq].
    + intros j y Hj. apply (Hfg j). rewrite lookup_insert_ne; congruence.
Qed.

Lemma msum_zero f m : (∀ i x, m !! i = Some x → f x = 0) → msum f m = 0.
Proof.
  induction m as [|i x m Hi Hfold IH] using map_first_key_ind; intros Hf.
  - apply msum_empty.
  - rewrite msum_insert_None, (Hf i x), IH; [done | | apply lookup_insert_eq | done].
    intros j y Hj. apply (Hf j). rewrite lookup_insert_ne; congruence.
Qed.

Lemma msum_nonneg f m :
  (∀ i x, m !! i = Some x → 0 <= f x) → 0 <= msum f m.
Proof.
  induction m as [|i x m Hi Hfold IH] using map_first_key_ind; intros Hf.
  - by rewrite msum_empty.
  - rewrite msum_insert_None by done.
    assert (0 <= f x) by (apply (Hf i); apply lookup_insert_eq).
    assert (0 <= msum f m); [| lia]. apply IH.
    intros j y Hj. apply (Hf j). rewrite lookup_insert_ne; congruence.
Qed.

Lemma msum_le f g m :
  (∀ i x, m !! i = Some x → f x <= g x) → msum f m <= msum g m.
Proof.
  induction m as [|i x m Hi Hfold IH] using map_first_key_ind; intros Hfg.
  - by rewrite !msum_empty.
  - rewrite !msum_insert_None by done.
    assert (f x <= g x) by (apply (Hfg i); apply lookup_insert_eq).
    assert (msum f m <= msum g m); [|lia]. apply IH.
    intros j y Hj. apply (Hfg j). rewrite lookup_insert_ne; congruence.
Qed.

Lemma msum_elem_le f m i x :
  (∀ j y, m !! j = Some y → 0 <= f y) → m !! i = Some x → f x <= msum f m.
Proof.
  intros Hf Hi. rewrite (msum_delete f m i x Hi).
  assert (0 <= msum f (delete i m)); [| lia]. apply msum_nonneg.
  intros j y [_ Hj]%lookup_delete_Some. eauto.
Qed.

Lemma msum_fmap f (h : A → A) m : msum f (h <$> m) = msum (λ x, f (h x)) m.
Proof.
  induction m as [|i x m Hi Hfold IH] using map_first_key_ind.
  - by rewrite fmap_empty.
  - rewrite fmap_insert, !msum_insert_None, IH; [done.. |].
    by rewrite lookup_fmap, Hi.
Qed.

Lemma msum_add f g m : msum (λ x, f x + g x) m = msum f m + msum g m.
Proof.
  induction m as [|i x m Hi Hfold IH] using map_first_key_ind.
  - by rewrite !msum_empty.
  - rewrite !msum_insert_None, IH by done. lia.
Qed.

(** The sum with the rows' keys. *)
Definition isum (f : Z → A → Z) m : Z := map_fold (λ i r acc, f i r + acc) 0 m.

Lemma isum_empty f : isum f ∅ = 0.
Proof. apply map_fold_empty. Qed.

Lemma isum_insert_None f m i x :
  m !! i = None → isum f (<[i:=x]> m) = f i x + isum f m.
Proof.
  intros Hi. unfold isum. rewrite map_fold_insert_L; [done | | done]. intros; lia.
Qed.

Lemma isum_le f g m :
  (∀ i x, m !! i = Some x → f i x <= g i x) → isum f m <= isum g m.
Proof.
  induction m as [|i x m Hi Hfold IH] using map_first_key_ind; intros Hfg.
  - by rewrite !isum_empty.
  - rewrite !isum_insert_None by done.
    assert (f i x <= g i x) by (apply (Hfg i); apply lookup_insert_eq).
    assert (isum f m <= isum g m); [|lia]. apply IH.
    intros j y Hj. apply (Hfg j). rewrite lookup_insert_ne; congruence.
Qed.

(** The sum, row by row. *)
Definition lsum (l : list Z) : Z := foldr Z.add 0 l.

Lemma msum_list (p : A → bool) f m :
  msum (λ x, if p x then f x else 0) m =
  lsum (map (λ r, f r.2) (List.filter (λ r, p r.2) (map_to_list m))).
Proof.
  unfold msum. rewrite map_fold_foldr. unfold lsum.
  induction (map_to_list m) as [|[i x] l IH]; simpl; [done|].
  rewrite IH. by destruct (p x).
Qed.
End MapSum.

Lemma filter_perm {A} (p : A → bool) (l k : list A) : l ≡ₚ k → List.filter p l ≡ₚ List.filter p k.
Proof.
  induction 1 as [|x l k _ IH|x y l|l k m _ IH1 _ IH2]; simpl; [done| | |by rewrite IH1].
  - destruct (p x); [by constructor | done].
  - destruct (p x), (p y); [constructor|done..].
Qed.

Lemma lsum_divide u l : Forall (λ x, (u | x)) l → (u | lsum l).
Proof. induction 1; simpl; [apply Z.divide_0_r | by apply Z.divide_add_r]. Qed.

Lemma foldl_max_ge l acc : acc <= foldl Z.max acc l ∧ ∀ x, x ∈ l → x <= foldl Z.max acc l.
Proof.
  revert acc. induction l as [|y l IH]; intros acc; simpl.
  - split; [lia | intros x Hx; by apply not_elem_of_nil in Hx].
  - destruct (IH (Z.max acc y)) as [H1 H2]. split; [lia|].
    intros x [->|Hx]%elem_of_cons; [lia | auto].
Qed.
