(* ===== verification/Rounding.v ===== *)
(** * Correct rounding, for any radix and precision

    Python's [float] (binary64) and [decimal.Decimal] (28 digits, radix 10)
    are both "the exact rational result, rounded to a fixed number of radix
    digits, ties to even".  This file defines that rounding once, on integers,
    and proves it monotone, sign-symmetric and idempotent.  [PyNum] instantiates
    it twice. *)

From S2P Require Import Prelude.

(** Nearest integer to [n / d], ties to even ([d > 0]). *)
Definition rne (n d : Z) : Z :=
  let q := n / d in
  let r := n mod d in
  if 2 * r <? d then q
  else if d <? 2 * r then q + 1
  else if Z.even q then q else q + 1.

(** Nearest integer to [n / d], ties away from zero (Python's [ROUND_HALF_UP]). *)
Definition rhu (n d : Z) : Z := Z.sgn n * ((2 * Z.abs n + d) / (2 * d)).

Lemma rne_exact k d : 0 < d → rne (k * d) d = k.
Proof.
  intros Hd. unfold rne. rewrite Z.div_mul, Z.mod_mul by lia.
  destruct (Z.ltb_spec (2 * 0) d); lia.
Qed.

Lemma rne_bounds n d : 0 < d → n / d <= rne n d <= n / d + 1.
Proof.
  intros Hd. unfold rne.
  repeat match goal with |- context [if ?b then _ else _] => destruct b end; lia.
Qed.

Lemma rne_mono n1 n2 d : 0 < d → n1 <= n2 → rne n1 d <= rne n2 d.
Proof.
  intros Hd Hn.
  pose proof (Z.div_le_mono n1 n2 d Hd Hn) as Hq.
  destruct (Z.eq_dec (n1 / d) (n2 / d)) as [Heq|Hne].
  - assert (n1 mod d <= n2 mod d) by (rewrite !Z.mod_eq by lia; lia).
    unfold rne. rewrite Heq.
    repeat case_match; try lia;
      repeat match goal with
      | H : (_ <? _) = true |- _ => apply Z.ltb_lt in H
      | H : (_ <? _) = false |- _ => apply Z.ltb_ge in H
      end; lia.
  - pose proof (rne_bounds n1 d Hd). pose proof (rne_bounds n2 d Hd). lia.
Qed.

Lemma rne_ge k n d : 0 < d → k * d <= n → k <= rne n d.
Proof. intros Hd Hk. rewrite <- (rne_exact k d Hd). by apply rne_mono. Qed.

Lemma rne_le k n d : 0 < d → n <= k * d → rne n d <= k.
Proof. intros Hd Hk. rewrite <- (rne_exact k d Hd) at 1. by apply rne_mono. Qed.

Lemma rne_scale n d k : 0 < d → 0 < k → rne (n * k) (d * k) = rne n d.
Proof.
  intros Hd Hk. unfold rne.
  rewrite Z.div_mul_cancel_r, Z.mul_mod_distr_r by lia.
  replace (2 * (n mod d * k) <? d * k) with (2 * (n mod d) <? d)
    by (apply eq_true_iff_eq; rewrite !Z.ltb_lt; nia).
  replace (d * k <? 2 * (n mod d * k)) with (d <? 2 * (n mod d))
    by (apply eq_true_iff_eq; rewrite !Z.ltb_lt; nia).
  done.
Qed.

Lemma rhu_nonneg n d : 0 < d → 0 <= n → 0 <= rhu n d.
Proof.
  intros Hd Hn. unfold rhu. apply Z.mul_nonneg_nonneg; [lia|].
  apply Z.div_pos; lia.
Qed.

Lemma rhu_opp n d : rhu (- n) d = - rhu n d.
Proof. unfold rhu. rewrite Z.sgn_opp, Z.abs_opp. lia. Qed.

Lemma rhu_mono n1 n2 d : 0 < d → n1 <= n2 → rhu n1 d <= rhu n2 d.
Proof.
  intros Hd Hn. unfold rhu.
  assert (Hpos : ∀ n, 0 <= (2 * Z.abs n + d) / (2 * d)) by
    (intros; apply Z.div_pos; lia).
  pose proof (Hpos n1). pose proof (Hpos n2).
  destruct (Z.sgn_spec n1) as [[? ->]|[[? ->]|[? ->]]];
  destruct (Z.sgn_spec n2) as [[? ->]|[[? ->]|[? ->]]]; try lia.
  - rewrite !Z.mul_1_l. apply Z.div_le_mono; lia.
  - enough ((2 * Z.abs n2 + d) / (2 * d) <= (2 * Z.abs n1 + d) / (2 * d)) by lia.
    apply Z.div_le_mono; lia.
Qed.

Lemma rhu_exact k d : 0 < d → rhu (k * d) d = k.
Proof.
  intros Hd. unfold rhu. rewrite Z.abs_mul, (Z.abs_eq d) by lia.
  replace (2 * (Z.abs k * d) + d) with (d + Z.abs k * (2 * d)) by lia.
  rewrite Z.div_add, Z.div_small by lia.
  rewrite Z.sgn_mul, (Z.sgn_pos d Hd). lia.
Qed.

Lemma rhu_scale n d k : 0 < d → 0 < k → rhu (n * k) (d * k) = rhu n d.
Proof.
  intros Hd Hk. unfold rhu. rewrite Z.sgn_mul, (Z.sgn_pos k Hk), Z.mul_1_r.
  rewrite Z.abs_mul, (Z.abs_eq k) by lia. f_equal.
  replace (2 * (Z.abs n * k) + d * k) with ((2 * Z.abs n + d) * k) by lia.
  replace (2 * (d * k)) with (2 * d * k) by lia.
  apply Z.div_mul_cancel_r; lia.
Qed.

(** Cancelling common factors of two before dividing keeps the numbers of the
    binary64 operations short. *)
Fixpoint strip2 (a b : positive) : positive * positive :=
  match a, b with
  | xO a', xO b' => strip2 a' b'
  | _, _ => (a, b)
  end.

Definition reduce (n d : Z) : Z * Z :=
  match n, d with
  | Zpos a, Zpos b => let '(a, b) := strip2 a b in (Zpos a, Zpos b)
  | Zneg a, Zpos b => let '(a, b) := strip2 a b in (Zneg a, Zpos b)
  | _, _ => (n, d)
  end.

Lemma strip2_spec a b :
  ∃ k, 0 < k ∧ Zpos a = Zpos (strip2 a b).1 * k ∧ Zpos b = Zpos (strip2 a b).2 * k.
Proof.
  revert b. induction a as [a|a IH|]; intros [b|b|]; simpl strip2; try (exists 1; simpl; lia).
  destruct (IH b) as (k & Hk & Ha & Hb). exists (2 * k). lia.
Qed.

Lemma reduce_spec n d n' d' :
  0 < d → reduce n d = (n', d') → ∃ k, 0 < k ∧ n = n' * k ∧ d = d' * k.
Proof.
  intros Hd. unfold reduce. destruct n as [|a|a], d as [|b|b]; try lia;
    try (intros [= <- <-]; exists 1; lia).
  all: destruct (strip2_spec a b) as (k & Hk & Ha & Hb).
  all: destruct (strip2 a b) as [a' b']; simpl in *; intros [= <- <-]; exists k; lia.
Qed.

(** [rne] on the reduced fraction. *)
Definition rne_red (n d : Z) : Z := let '(n, d) := reduce n d in rne n d.

Lemma rne_red_eq n d : 0 < d → rne_red n d = rne n d.
Proof.
  intros Hd. unfold rne_red. destruct (reduce n d) as [n' d'] eqn:Hr.
  destruct (reduce_spec _ _ _ _ Hd Hr) as (k & Hk & -> & ->).
  symmetry. apply rne_scale; nia.
Qed.

(** ** Digits of a number in radix [β] *)

(** [digits] counts radix-[β] digits: [β ^ (digits q - 1) <= q < β ^ digits q]. *)
Record digit_count (β : Z) (digits : Z → Z) : Prop := {
  digits_spec q : 0 < q → 1 <= digits q ∧ β ^ (digits q - 1) <= q < β ^ digits q;
  digits_nonpos q : q <= 0 → digits q = 0;
}.

Definition bits (q : Z) : Z := if q <=? 0 then 0 else Z.log2 q + 1.

Lemma bits_count : digit_count 2 bits.
Proof.
  split; intros q Hq; unfold bits; destruct (Z.leb_spec q 0); try lia.
  pose proof (Z.log2_spec q Hq). pose proof (Z.log2_nonneg q).
  rewrite Z.add_simpl_r, Z.add_1_r. lia.
Qed.

Fixpoint dec_digits_fuel (fuel : nat) (q : Z) : Z :=
  match fuel with
  | O => 0
  | S fuel => if q <=? 0 then 0 else 1 + dec_digits_fuel fuel (q / 10)
  end.

(** Number of decimal digits of [q]; [log2 q + 1] divisions are enough. *)
Definition dec_digits (q : Z) : Z := dec_digits_fuel (Z.to_nat (Z.log2 q + 1)) q.

Lemma dec_digits_fuel_spec fuel q :
  0 < q → q < 2 ^ Z.of_nat fuel →
  1 <= dec_digits_fuel fuel q ∧
  10 ^ (dec_digits_fuel fuel q - 1) <= q < 10 ^ dec_digits_fuel fuel q.
Proof.
  revert q. induction fuel as [|fuel IH]; intros q Hq Hlt.
  { simpl in Hlt. lia. }
  simpl dec_digits_fuel. destruct (Z.leb_spec q 0) as [?|_]; [lia|].
  destruct (Z.le_gt_cases (q / 10) 0) as [Hz|Hz].
  - assert (dec_digits_fuel fuel (q / 10) = 0) as ->.
    { destruct fuel; simpl; [done|]. destruct (Z.leb_spec (q / 10) 0); lia. }
    change (10 ^ (1 + 0 - 1)) with 1. change (10 ^ (1 + 0)) with 10.
    div_facts q 10. lia.
  - destruct (IH (q / 10)) as (H1 & Hlo & Hhi); [done | |].
    { rewrite Nat2Z.inj_succ, Z.pow_succ_r in Hlt by lia. div_facts q 10. lia. }
    set (k := dec_digits_fuel fuel (q / 10)) in *.
    replace (1 + k - 1) with (1 + (k - 1)) by lia.
    rewrite !(Z.pow_add_r 10 1) by lia. change (10 ^ 1) with 10.
    div_facts q 10. lia.
Qed.

Lemma dec_digits_count : digit_count 10 dec_digits.
Proof.
  split; intros q Hq; unfold dec_digits.
  - apply dec_digits_fuel_spec; [done|].
    pose proof (Z.log2_spec q Hq). pose proof (Z.log2_nonneg q).
    rewrite Z2Nat.id by lia. rewrite Z.add_1_r. tauto.
  - destruct (Z.to_nat _); simpl; [done|]. destruct (Z.leb_spec q 0); lia.
Qed.

Section Rounding.
Context (β p : Z) (digits : Z → Z).

(** The exponent of the last digit kept when [q]'s leading [p] digits are kept. *)
Definition rnd_exp (q : Z) : Z := Z.max 0 (digits q - p).

Definition rnd_pos (n d : Z) : Z :=
  let e := rnd_exp (n / d) in rne_red n (d * β ^ e) * β ^ e.

(** [n / d] rounded to [p] digits of radix [β] (and never finer than 1). *)
Definition rnd (n d : Z) : Z :=
  if n <? 0 then - rnd_pos (- n) d else rnd_pos n d.

Hypothesis Hβ : 2 <= β.
Hypothesis Hp : 1 <= p.
Hypothesis Hdig : digit_count β digits.

Lemma rnd_exp_nonneg q : 0 <= rnd_exp q.
Proof using Type. unfold rnd_exp. lia. Qed.

(** The two facts about the kept exponent that every proof below uses. *)
Lemma rnd_exp_upper q : 0 <= q → q < β ^ (p + rnd_exp q).
Proof using Hβ Hp Hdig.
  intros Hq. destruct (Z.eq_dec q 0) as [->|Hne].
  { apply Z.pow_pos_nonneg; [lia|]. pose proof (rnd_exp_nonneg 0). lia. }
  destruct (digits_spec _ _ Hdig q ltac:(lia)) as (? & _ & Hhi).
  eapply Z.lt_le_trans; [exact Hhi|]. apply Z.pow_le_mono_r; [lia|].
  unfold rnd_exp. lia.
Qed.

Lemma rnd_exp_lower q : 0 <= q → 0 < rnd_exp q → β ^ (p - 1 + rnd_exp q) <= q.
Proof using Hβ Hp Hdig.
  intros Hq He. destruct (Z.eq_dec q 0) as [->|Hne].
  { unfold rnd_exp in He. rewrite (digits_nonpos _ _ Hdig) in He by lia. lia. }
  destruct (digits_spec _ _ Hdig q ltac:(lia)) as (? & Hlo & _).
  etrans; [|exact Hlo]. apply Z.pow_le_mono_r; [lia|].
  unfold rnd_exp in *. lia.
Qed.

Lemma rnd_exp_mono q1 q2 : 0 <= q1 → q1 <= q2 → rnd_exp q1 <= rnd_exp q2.
Proof using Hβ Hp Hdig.
  intros H1 H12. destruct (Z.le_gt_cases (rnd_exp q1) (rnd_exp q2)) as [|Hgt]; [done|].
  exfalso. pose proof (rnd_exp_nonneg q2).
  pose proof (rnd_exp_lower q1 H1 ltac:(lia)).
  pose proof (rnd_exp_upper q2 ltac:(lia)).
  assert (β ^ (p + rnd_exp q2) <= β ^ (p - 1 + rnd_exp q1)) by
    (apply Z.pow_le_mono_r; lia).
  lia.
Qed.

Lemma pow_pos e : 0 <= e → 0 < β ^ e.
Proof using Hβ. intros. apply Z.pow_pos_nonneg; lia. Qed.

Lemma rnd_pos_unfold n d :
  0 < d → rnd_pos n d = rne n (d * β ^ rnd_exp (n / d)) * β ^ rnd_exp (n / d).
Proof using Hβ.
  intros Hd. unfold rnd_pos. cbv zeta.
  pose proof (pow_pos (rnd_exp (n / d)) (rnd_exp_nonneg _)).
  by rewrite rne_red_eq by nia.
Qed.

Lemma rnd_pos_scale n d k :
  0 < d → 0 < k → rnd_pos (n * k) (d * k) = rnd_pos n d.
Proof using Hβ.
  intros Hd Hk. rewrite !rnd_pos_unfold by nia. rewrite Z.div_mul_cancel_r by lia.
  pose proof (pow_pos (rnd_exp (n / d)) (rnd_exp_nonneg _)).
  replace (d * k * β ^ rnd_exp (n / d)) with (d * β ^ rnd_exp (n / d) * k) by lia.
  rewrite rne_scale by nia. done.
Qed.

Lemma rnd_pos_nonneg n d : 0 < d → 0 <= n → 0 <= rnd_pos n d.
Proof using Hβ.
  intros Hd Hn. rewrite rnd_pos_unfold by lia.
  pose proof (pow_pos (rnd_exp (n / d)) (rnd_exp_nonneg _)).
  apply Z.mul_nonneg_nonneg; [|lia]. apply rne_ge; nia.
Qed.

(** Multiples of the last kept digit are left alone. *)
Lemma rnd_pos_fixed n d m e :
  0 < d → 0 <= e → 0 <= m <= β ^ p → e = 0 ∨ β ^ (p - 1) <= m →
  n = m * β ^ e * d → rnd_pos n d = m * β ^ e.
Proof using Hβ Hp Hdig.
  intros Hd He Hm Hlow ->. rewrite rnd_pos_unfold by lia. rewrite Z.div_mul by lia.
  pose proof (pow_pos e He) as Hpe.
  set (q := m * β ^ e). set (e' := rnd_exp q).
  pose proof (rnd_exp_nonneg q). pose proof (pow_pos e' ltac:(lia)) as Hpe'.
  assert (Hq : 0 <= q) by (unfold q; nia).
  enough (∃ c, q = c * β ^ e') as [c Hc].
  { rewrite Hc. replace (c * β ^ e' * d) with (c * (d * β ^ e')) by lia.
    rewrite rne_exact by nia. lia. }
  destruct (Z.le_gt_cases e' e) as [Hle|Hgt].
  - exists (m * β ^ (e - e')). unfold q.
    replace e with (e - e' + e') at 1 by lia.
    rewrite Z.pow_add_r by lia. lia.
  - (* a carry: m = β^p, one digit more than p *)
    pose proof (rnd_exp_lower q Hq ltac:(lia)) as Hlo. fold e' in Hlo.
    assert (β ^ (p + e) <= β ^ (p - 1 + e')) by (apply Z.pow_le_mono_r; lia).
    rewrite Z.pow_add_r in H0 by lia.
    assert (Hmp : m = β ^ p) by (unfold q in Hlo; nia).
    assert (β ^ (p + e) = β ^ (p - 1 + e')) as Heq.
    { rewrite Z.pow_add_r by lia. unfold q in Hlo. rewrite Hmp in Hlo. lia. }
    apply Z.pow_inj_r in Heq; [|lia..].
    exists (β ^ (p - 1)). unfold q. rewrite Hmp, <- !Z.pow_add_r by lia.
    f_equal. lia.
Qed.

(** A rounded value has at most [p] significant digits. *)
Lemma rnd_pos_form n d :
  0 < d → 0 <= n → ∃ m e, rnd_pos n d = m * β ^ e ∧ 0 <= e ∧
    0 <= m <= β ^ p ∧ (e = 0 ∨ β ^ (p - 1) <= m).
Proof using Hβ Hp Hdig.
  intros Hd Hn. rewrite rnd_pos_unfold by lia. set (q := n / d). set (e := rnd_exp q).
  assert (0 <= q) by (apply Z.div_pos; lia).
  pose proof (rnd_exp_nonneg q). pose proof (pow_pos e ltac:(lia)).
  div_facts n d.
  pose proof (rnd_exp_upper q ltac:(lia)) as Hup. fold e in Hup.
  rewrite Z.pow_add_r in Hup by lia. fold q in H1.
  exists (rne n (d * β ^ e)), e. repeat split; [lia | | |].
  - apply rne_ge; nia.
  - apply rne_le; [nia|]. transitivity (d * (q + 1)); [nia|].
    replace (β ^ p * (d * β ^ e)) with (d * (β ^ p * β ^ e)) by lia.
    apply Z.mul_le_mono_nonneg_l; lia.
  - destruct (Z.eq_dec e 0) as [|Hne]; [by left|right].
    pose proof (rnd_exp_lower q ltac:(lia) ltac:(lia)) as Hlo. fold e in Hlo.
    rewrite Z.pow_add_r in Hlo by lia. apply rne_ge; [nia|]. nia.
Qed.

Lemma rnd_pos_mono_same n1 n2 d :
  0 < d → 0 <= n1 → n1 <= n2 → rnd_pos n1 d <= rnd_pos n2 d.
Proof using Hβ Hp Hdig.
  intros Hd H1 H12.
  assert (Hq : n1 / d <= n2 / d) by (apply Z.div_le_mono; lia).
  assert (Hq1 : 0 <= n1 / d) by (apply Z.div_pos; lia).
  pose proof (rnd_exp_mono _ _ Hq1 Hq) as Hee.
  pose proof (rnd_exp_nonneg (n1 / d)) as He1.
  rewrite !rnd_pos_unfold by lia. set (e1 := rnd_exp (n1 / d)) in *. set (e2 := rnd_exp (n2 / d)) in *.
  pose proof (pow_pos e1 ltac:(lia)). pose proof (pow_pos e2 ltac:(lia)).
  destruct (Z.eq_dec e1 e2) as [->|Hne].
  { apply Z.mul_le_mono_nonneg_r; [lia|]. apply rne_mono; nia. }
  (* different binades: β^(p-1+e2) separates the results *)
  pose proof (rnd_exp_upper (n1 / d) ltac:(lia)) as Hup. fold e1 in Hup.
  pose proof (rnd_exp_lower (n2 / d) ltac:(lia)) as Hlo. fold e2 in Hlo.
  specialize (Hlo ltac:(lia)).
  div_facts n1 d.
  div_facts n2 d.
  transitivity (β ^ (p + e1)).
  - rewrite Z.pow_add_r in * by lia. apply Z.mul_le_mono_nonneg_r; [lia|].
    apply rne_le; [nia|].
    replace (β ^ p * (d * β ^ e1)) with (d * (β ^ p * β ^ e1)) by lia.
    transitivity (d * (n1 / d + 1)); [lia|].
    apply Z.mul_le_mono_nonneg_l; lia.
  - transitivity (β ^ (p - 1 + e2)); [apply Z.pow_le_mono_r; lia|].
    rewrite (Z.pow_add_r _ (p - 1)) in * by lia.
    apply Z.mul_le_mono_nonneg_r; [lia|]. apply rne_ge; nia.
Qed.

Lemma rnd_pos_mono n1 d1 n2 d2 :
  0 < d1 → 0 < d2 → 0 <= n1 → n1 * d2 <= n2 * d1 →
  rnd_pos n1 d1 <= rnd_pos n2 d2.
Proof using Hβ Hp Hdig.
  intros Hd1 Hd2 H1 H12.
  rewrite <- (rnd_pos_scale n1 d1 d2), <- (rnd_pos_scale n2 d2 d1) by lia.
  rewrite (Z.mul_comm d2 d1). apply rnd_pos_mono_same; nia.
Qed.

(** Scaling by a power of the radix commutes with rounding to [p] digits. *)
Lemma rnd_pos_shift c k :
  0 <= c → 0 <= k → rnd_pos (c * β ^ k) 1 = rnd_pos c 1 * β ^ k.
Proof using Hβ Hp Hdig.
  intros Hc Hk. pose proof (pow_pos k Hk).
  destruct (rnd_pos_form c 1 ltac:(lia) Hc) as (m & e & Hr & He & Hm & Hl).
  pose proof (pow_pos e He).
  destruct (Z.le_gt_cases c (β ^ p)) as [Hsmall|Hbig].
  - (* few digits: nothing is rounded *)
    assert (rnd_pos c 1 = c) as ->.
    { rewrite (rnd_pos_fixed c 1 c 0); [lia|lia|lia|lia|by left|lia]. }
    destruct (Z.le_gt_cases (β ^ (p - 1)) c) as [Hlow|Hlow].
    { apply (rnd_pos_fixed _ 1 c k); [lia|lia|lia|by right|lia]. }
    destruct (Z.eq_dec c 0) as [->|Hc0].
    { rewrite Z.mul_0_l. apply (rnd_pos_fixed _ 1 0 0); [lia..|by left|lia]. }
    destruct (digits_spec _ _ Hdig c ltac:(lia)) as (Hd1 & Hdlo & Hdhi).
    assert (digits c <= p).
    { destruct (Z.le_gt_cases (digits c) p) as [|Hgt]; [done|exfalso].
      assert (β ^ (p - 1) <= β ^ (digits c - 1)) by (apply Z.pow_le_mono_r; lia). lia. }
    destruct (Z.le_gt_cases k (p - digits c)) as [Hkk|Hkk].
    + assert (c * β ^ k <= β ^ p).
      { transitivity (β ^ (digits c + k)); [|apply Z.pow_le_mono_r; lia].
        rewrite Z.pow_add_r by lia. nia. }
      rewrite (rnd_pos_fixed _ 1 (c * β ^ k) 0); [lia|lia|lia|nia|by left|lia].
    + set (j := p - digits c) in *.
      assert (Hsplit : β ^ k = β ^ j * β ^ (k - j)).
      { rewrite <- Z.pow_add_r by lia. f_equal; lia. }
      assert (Hj : β ^ p = β ^ digits c * β ^ j).
      { rewrite <- Z.pow_add_r by lia. f_equal; lia. }
      assert (Hj' : β ^ (p - 1) = β ^ (digits c - 1) * β ^ j).
      { rewrite <- Z.pow_add_r by lia. f_equal; lia. }
      pose proof (pow_pos j ltac:(lia)).
      rewrite (rnd_pos_fixed _ 1 (c * β ^ j) (k - j)); [|lia|lia|nia|right; nia|].
      * rewrite Hsplit; lia.
      * rewrite Hsplit; lia.
  - (* many digits: the same digits are dropped *)
    rewrite !rnd_pos_unfold in * by lia. rewrite !Z.div_1_r in *.
    assert (rnd_exp (c * β ^ k) = rnd_exp c + k) as ->.
    { destruct (digits_spec _ _ Hdig c ltac:(lia)) as (Hd1 & Hdlo & Hdhi).
      destruct (digits_spec _ _ Hdig (c * β ^ k) ltac:(nia)) as (Hd1' & Hdlo' & Hdhi').
      assert (p < digits c).
      { apply (Z.pow_lt_mono_r_iff β); lia. }
      assert (digits (c * β ^ k) = digits c + k); [|unfold rnd_exp; lia].
      assert (digits (c * β ^ k) - 1 < digits c + k).
      { apply (Z.pow_lt_mono_r_iff β); [lia|lia|]. rewrite Z.pow_add_r by lia. nia. }
      assert (digits c - 1 + k < digits (c * β ^ k)); [|lia].
      apply (Z.pow_lt_mono_r_iff β); [lia|lia|]. rewrite Z.pow_add_r by lia. nia. }
    pose proof (rnd_exp_nonneg c). rewrite Z.pow_add_r by lia.
    pose proof (pow_pos (rnd_exp c) ltac:(lia)).
    rewrite !Z.mul_1_l. rewrite rne_scale by nia. lia.
Qed.

(** ** The signed rounding *)

Lemma rnd_nonneg n d : 0 < d → 0 <= n → 0 <= rnd n d.
Proof using Hβ.
  intros Hd Hn. unfold rnd. destruct (Z.ltb_spec n 0); [lia|].
  by apply rnd_pos_nonneg.
Qed.

Lemma rnd_mono n1 d1 n2 d2 :
  0 < d1 → 0 < d2 → n1 * d2 <= n2 * d1 → rnd n1 d1 <= rnd n2 d2.
Proof using Hβ Hp Hdig.
  intros Hd1 Hd2 H12. unfold rnd.
  destruct (Z.ltb_spec n1 0), (Z.ltb_spec n2 0); try nia.
  - apply (proj1 (Z.opp_le_mono _ _)). apply rnd_pos_mono; nia.
  - pose proof (rnd_pos_nonneg (- n1) d1). pose proof (rnd_pos_nonneg n2 d2). lia.
  - apply rnd_pos_mono; lia.
Qed.

Lemma rnd_exact m e d :
  0 < d → 0 <= e → Z.abs m <= β ^ p → e = 0 ∨ β ^ (p - 1) <= Z.abs m →
  rnd (m * β ^ e * d) d = m * β ^ e.
Proof using Hβ Hp Hdig.
  intros Hd He Hm Hlow. pose proof (pow_pos e He).
  unfold rnd. destruct (Z.ltb_spec (m * β ^ e * d) 0).
  - rewrite (rnd_pos_fixed _ d (- m) e); [lia|lia|lia|nia| |lia].
    destruct Hlow; [by left|right; nia].
  - rewrite (rnd_pos_fixed _ d m e); [lia|lia|lia|nia| |lia].
    destruct Hlow; [by left|right; nia].
Qed.

Lemma rnd_small m d : 0 < d → Z.abs m <= β ^ p → rnd (m * d) d = m.
Proof using Hβ Hp Hdig.
  intros Hd Hm. pose proof (rnd_exact m 0 d Hd ltac:(lia) Hm (or_introl eq_refl)) as H.
  by rewrite Z.pow_0_r, Z.mul_1_r in H.
Qed.

Lemma rnd_0 d : 0 < d → rnd 0 d = 0.
Proof using Hβ Hp Hdig.
  intros Hd. apply (rnd_small 0 d Hd). pose proof (pow_pos p). lia.
Qed.

Lemma rnd_opp n d : 0 < d → rnd (- n) d = - rnd n d.
Proof using Hβ Hp Hdig.
  intros Hd. destruct (Z.eq_dec n 0) as [->|Hn].
  { by rewrite Z.opp_0, (rnd_0 d Hd). }
  unfold rnd. destruct (Z.ltb_spec (- n) 0), (Z.ltb_spec n 0); rewrite ?Z.opp_involutive; lia.
Qed.

Lemma rnd_nonpos n d : 0 < d → n <= 0 → rnd n d <= 0.
Proof using Hβ Hp Hdig.
  intros Hd Hn. rewrite <- (Z.opp_involutive n), rnd_opp by done.
  pose proof (rnd_nonneg (- n) d Hd). lia.
Qed.

Lemma rnd_shift c k : 0 <= k → rnd (c * β ^ k) 1 = rnd c 1 * β ^ k.
Proof using Hβ Hp Hdig.
  intros Hk. pose proof (pow_pos k Hk). unfold rnd.
  destruct (Z.ltb_spec c 0), (Z.ltb_spec (c * β ^ k) 0); try nia.
  - replace (- (c * β ^ k)) with (- c * β ^ k) by lia. rewrite rnd_pos_shift; lia.
  - by apply rnd_pos_shift.
Qed.

(** Numbers that need no rounding. *)
Definition representable (z : Z) : Prop := rnd z 1 = z.

#[export] Instance representable_dec z : Decision (representable z) :=
  decide_rel eq (rnd z 1) z.

Lemma rnd_pos_representable n d : 0 < d → 0 <= n → representable (rnd_pos n d).
Proof using Hβ Hp Hdig.
  intros Hd Hn. destruct (rnd_pos_form n d Hd Hn) as (m & e & -> & He & Hm & Hl).
  unfold representable. rewrite <- (Z.mul_1_r (m * β ^ e)) at 1.
  apply rnd_exact; try lia.
Qed.

Lemma rnd_representable n d : 0 < d → representable (rnd n d).
Proof using Hβ Hp Hdig.
  intros Hd. unfold rnd. destruct (Z.ltb_spec n 0).
  - pose proof (rnd_pos_representable (- n) d Hd ltac:(lia)) as H1.
    unfold representable in *. by rewrite rnd_opp, H1.
  - by apply rnd_pos_representable.
Qed.
End Rounding.
