(* ===== verification/PyNum.v ===== *)
(** * Python numbers: binary64 floats and 28-digit decimals

    - [float]: a finite IEEE-754 binary64 number, as the integer [v] that
      stands for [v * 2^-1074] (every finite binary64 is a multiple of the
      smallest subnormal).  Order and equality are those of [Z]; an operation is
      the exact result rounded to 53 bits ([frnd]).  Signed zero is not
      distinguished, and overflow to infinity is not modelled: non-finite values
      exist only where the code receives untrusted input ([pynum]).
    - [dec]: a finite [decimal.Decimal], coefficient and exponent; arithmetic
      rounds to the default context's 28 digits, ties to even.
    - [repr_float] is Python's [repr]/[str] of a float: the shortest decimal that
      reads back as that float.
    - [money]: a NUMERIC(12,2) column or a 2-dp Decimal, as an integer number of
      hundredths of a coin. *)

From S2P Require Import Prelude Rounding.

(** ** binary64 *)

Definition FU : Z := 2 ^ 1074.

Lemma FU_pos : 0 < FU.
Proof. apply Z.pow_pos_nonneg; lia. Qed.
#[global] Opaque FU.

Definition float := Z.

(** The binary64 nearest to the rational [n / d] (given in units of [2^-1074]). *)
Definition frnd (n d : Z) : float := rnd 2 53 bits n d.

(** A decimal literal [n / d] of the source, or [float(n / d)]. *)
Definition flit (n d : Z) : float := frnd (n * FU) d.
Definition fint (n : Z) : float := flit n 1.

Definition fadd (a b : float) : float := frnd (a + b) 1.
Definition fsub (a b : float) : float := frnd (a - b) 1.
Definition fmul (a b : float) : float := frnd (a * b) FU.
(** [a / b] for [b > 0]; the source divides floats by positive numbers only. *)
Definition fdiv (a b : float) : float := frnd (a * FU) b.
(** [int(x)]: truncation toward zero. *)
Definition ftrunc (x : float) : Z := Z.quot x FU.
(** [round(x, k)]: nearest multiple of [10^-k], ties to even, as a float again. *)
Definition fround (k : Z) (x : float) : float :=
  flit (rne_red (x * 10 ^ k) FU) (10 ^ k).

Definition is_float (x : float) : Prop := representable 2 53 bits x.

Section Frnd.
Local Lemma H53 : 1 <= 53. Proof. lia. Qed.
Local Lemma H2 : 2 <= 2. Proof. lia. Qed.

Lemma frnd_mono n1 d1 n2 d2 :
  0 < d1 → 0 < d2 → n1 * d2 <= n2 * d1 → frnd n1 d1 <= frnd n2 d2.
Proof. apply (rnd_mono 2 53 bits H2 H53 bits_count). Qed.

Lemma frnd_nonneg n d : 0 < d → 0 <= n → 0 <= frnd n d.
Proof. apply (rnd_nonneg 2 53 bits H2). Qed.

Lemma frnd_nonpos n d : 0 < d → n <= 0 → frnd n d <= 0.
Proof. apply (rnd_nonpos 2 53 bits H2 H53 bits_count). Qed.

Lemma frnd_0 d : 0 < d → frnd 0 d = 0.
Proof. apply (rnd_0 2 53 bits H2 H53 bits_count). Qed.

Lemma frnd_is_float n d : 0 < d → is_float (frnd n d).
Proof. apply (rnd_representable 2 53 bits H2 H53 bits_count). Qed.

Lemma frnd_float x : is_float x → frnd x 1 = x.
Proof. done. Qed.
End Frnd.

Lemma fadd_nonneg a b : 0 <= a → 0 <= b → 0 <= fadd a b.
Proof. intros. apply frnd_nonneg; lia. Qed.

Lemma fsub_nonneg a b : b <= a → 0 <= fsub a b.
Proof. intros. apply frnd_nonneg; lia. Qed.

Lemma fadd_mono a a' b b' : a <= a' → b <= b' → fadd a b <= fadd a' b'.
Proof. intros. apply frnd_mono; lia. Qed.

Lemma fsub_mono a a' b b' : a <= a' → b' <= b → fsub a b <= fsub a' b'.
Proof. intros. apply frnd_mono; lia. Qed.

Lemma fadd_0_r a : is_float a → fadd a 0 = a.
Proof. intros Ha. unfold fadd. by rewrite Z.add_0_r, frnd_float. Qed.

Lemma fadd_0_l a : is_float a → fadd 0 a = a.
Proof. intros Ha. unfold fadd. by rewrite Z.add_0_l, frnd_float. Qed.

Lemma fsub_0_r a : is_float a → fsub a 0 = a.
Proof. intros Ha. unfold fsub. by rewrite Z.sub_0_r, frnd_float. Qed.

Lemma fsub_diag a : fsub a a = 0.
Proof. unfold fsub. by rewrite Z.sub_diag, frnd_0. Qed.

(** Adding a non-negative float never goes below the other operand. *)
Lemma fadd_ge_l a b : is_float a → 0 <= b → a <= fadd a b.
Proof. intros Ha Hb. rewrite <- (fadd_0_r a Ha) at 1. apply fadd_mono; lia. Qed.

Lemma is_float_0 : is_float 0.
Proof. unfold is_float, representable. by vm_compute. Qed.

#[export] Hint Resolve FU_pos fadd_nonneg fsub_nonneg frnd_is_float is_float_0 : pynum.

Lemma fadd_is_float a b : is_float (fadd a b).
Proof. by apply frnd_is_float. Qed.
Lemma fsub_is_float a b : is_float (fsub a b).
Proof. by apply frnd_is_float. Qed.
Lemma flit_is_float n d : 0 < d → is_float (flit n d).
Proof. intros; by apply frnd_is_float. Qed.
Lemma fmax_is_float a b : is_float a → is_float b → is_float (Z.max a b).
Proof. intros. by destruct (Z.max_spec a b) as [[_ ->]|[_ ->]]. Qed.
#[export] Hint Resolve fadd_is_float fsub_is_float flit_is_float fmax_is_float : pynum.

Lemma flit_nonneg n d : 0 < d → 0 <= n → 0 <= flit n d.
Proof. intros. apply frnd_nonneg; [done|]. pose proof FU_pos. nia. Qed.

Lemma flit_mono n1 d1 n2 d2 :
  0 < d1 → 0 < d2 → n1 * d2 <= n2 * d1 → flit n1 d1 <= flit n2 d2.
Proof. intros. pose proof FU_pos. apply frnd_mono; nia. Qed.

(** ** Decimals *)

Record dec := mkdec { dcoef : Z; dexp : Z }.

(** The value of [d] in units of [10^-k] (an integer when [k >= - dexp d]). *)
Definition dval (k : Z) (d : dec) : Z := dcoef d * 10 ^ (dexp d + k).

(** The default decimal context: 28 significant digits, ROUND_HALF_EVEN. *)
Definition ctx (d : dec) : dec := mkdec (rnd 10 28 dec_digits (dcoef d) 1) (dexp d).

Definition dmul (a b : dec) : dec := ctx (mkdec (dcoef a * dcoef b) (dexp a + dexp b)).

Definition dadd (a b : dec) : dec :=
  let e := Z.min (dexp a) (dexp b) in
  ctx (mkdec (dcoef a * 10 ^ (dexp a - e) + dcoef b * 10 ^ (dexp b - e)) e).

(** [a / b] for [b > 0]: the quotient to 28 digits (the shift leaves at least
    that many; an exact quotient is found with trailing zeros). *)
Definition ddiv (a b : dec) : dec :=
  let k := dec_digits (dcoef b) + 28 in
  mkdec (rnd 10 28 dec_digits (dcoef a * 10 ^ k) (dcoef b)) (dexp a - dexp b - k).

(** [float(d)]. *)
Definition float_of_dec (d : dec) : float :=
  if 0 <=? dexp d then flit (dcoef d * 10 ^ dexp d) 1 else flit (dcoef d) (10 ^ (- dexp d)).

(** Python's shortest round-trip digits of a positive float: try decimal
    exponents from [p] downwards; at each, the nearest candidate and then the one
    on the other side.  The exact value is the (never needed) last resort. *)
Fixpoint repr_search (fuel : nat) (p : Z) (x : float) : dec :=
  match fuel with
  | O => mkdec (x * 5 ^ 1074) (-1074)
  | S fuel =>
      let '(n, d) := if 0 <=? p then reduce x (FU * 10 ^ p)
                     else reduce (x * 10 ^ (- p)) FU in
      let near := rne n d in
      let far := if near =? n / d then near + 1 else n / d in
      if float_of_dec (mkdec near p) =? x then mkdec near p
      else if float_of_dec (mkdec far p) =? x then mkdec far p
      else repr_search fuel (p - 1) x
  end.

(** An exponent at least as large as that of [x]'s leading decimal digit;
    [log10 2 < 0.30103]. *)
Definition repr_exp0 (x : float) : Z := (Z.log2 x - 1074 + 1) * 30103 / 100000 + 1.

(** [Decimal(str(x))]; a binary64 needs at most 17 digits, so 20 exponents are
    enough. *)
Definition repr_float (x : float) : dec :=
  if x =? 0 then mkdec 0 0
  else if x <? 0 then
    let d := repr_search 20 (repr_exp0 (- x)) (- x) in mkdec (- dcoef d) (dexp d)
  else repr_search 20 (repr_exp0 x) x.

Example repr_float_ex1 : repr_float (flit 45 100) = mkdec 45 (-2).
Proof. vm_compute. reflexivity. Qed.
Example repr_float_ex2 : repr_float (fadd (flit 1 10) (flit 2 10)) = mkdec 30000000000000004 (-17).
Proof. vm_compute. reflexivity. Qed.

Lemma pow10_pos k : 0 <= k → 0 < 10 ^ k.
Proof. intros. apply Z.pow_pos_nonneg; lia. Qed.

Lemma float_of_dec_scaled k d :
  0 <= k → - dexp d <= k → float_of_dec d = frnd (dval k d * FU) (10 ^ k).
Proof.
  intros Hk0 Hk. unfold float_of_dec, flit, dval. pose proof FU_pos.
  destruct (Z.leb_spec 0 (dexp d)) as [He|He].
  - apply Z.le_antisymm; apply frnd_mono; try apply pow10_pos; try lia;
    rewrite Z.pow_add_r by lia; lia.
  - assert (10 ^ k = 10 ^ (dexp d + k) * 10 ^ (- dexp d)) as Hpow.
    { rewrite <- Z.pow_add_r by lia. f_equal; lia. }
    apply Z.le_antisymm; apply frnd_mono; try apply pow10_pos; try lia;
    rewrite Hpow; lia.
Qed.

Lemma repr_search_roundtrip fuel p x :
  is_float x → float_of_dec (repr_search fuel p x) = x.
Proof.
  intros Hx. revert p. induction fuel as [|fuel IH]; intros p; cbn [repr_search].
  - rewrite (float_of_dec_scaled 1074) by (cbn [dexp]; lia).
    unfold dval. cbn [dcoef dexp].
    change (-1074 + 1074) with 0. rewrite Z.pow_0_r, Z.mul_1_r.
    replace FU with (2 ^ 1074) by done.
    transitivity (frnd x 1); [|by apply frnd_float].
    rewrite (Z.pow_mul_l 5 2 1074 : 10 ^ 1074 = _).
    assert (H5 : 0 < 5 ^ 1074) by (apply pow_pos; lia).
    assert (H2 : 0 < 2 ^ 1074) by (apply pow_pos; lia).
    revert H5 H2. generalize (5 ^ 1074) (2 ^ 1074). intros u v Hu Hv.
    apply Z.le_antisymm; apply frnd_mono; nia.
  - destruct (if 0 <=? p then _ else _) as [n d]. cbv zeta.
    destruct (Z.eqb_spec (float_of_dec (mkdec (rne n d) p)) x) as [|_]; [done|].
    match goal with |- context [if ?b then _ else _] =>
      destruct b eqn:Hfar end; [by apply Z.eqb_eq in Hfar|apply IH].
Qed.

Lemma repr_float_roundtrip x : is_float x → float_of_dec (repr_float x) = x.
Proof.
  intros Hx. unfold repr_float.
  destruct (Z.eqb_spec x 0) as [->|Hne]; [by apply frnd_0|].
  destruct (Z.ltb_spec x 0); [|by apply repr_search_roundtrip].
  assert (Hx' : is_float (- x)).
  { unfold is_float, representable in *.
    by rewrite (rnd_opp 2 53 bits ltac:(lia) ltac:(lia) bits_count), Hx by lia. }
  pose proof (repr_search_roundtrip 20 (repr_exp0 (- x)) (- x) Hx') as Hr.
  set (d := repr_search 20 _ _) in *.
  assert (∀ n m, 0 < m → flit (- n) m = - flit n m) as Hopp.
  { intros n m Hm. unfold flit, frnd. rewrite Z.mul_opp_l.
    by apply (rnd_opp 2 53 bits ltac:(lia) ltac:(lia) bits_count). }
  unfold float_of_dec in *. simpl dcoef. simpl dexp.
  destruct (0 <=? dexp d) eqn:He; rewrite ?Z.mul_opp_l, Hopp, Hr; lia.
Qed.

(** Larger floats print as larger decimals: a consequence of the round trip. *)
Lemma repr_float_mono k x y :
  is_float x → is_float y → x <= y →
  0 <= k → - dexp (repr_float x) <= k → - dexp (repr_float y) <= k →
  dval k (repr_float x) <= dval k (repr_float y).
Proof.
  intros Hx Hy Hxy Hk0 Hkx Hky.
  destruct (Z.le_gt_cases (dval k (repr_float x)) (dval k (repr_float y))) as [|Hgt]; [done|].
  assert (x = y) as ->; [|lia].
  apply Z.le_antisymm; [done|].
  rewrite <- (repr_float_roundtrip x Hx), <- (repr_float_roundtrip y Hy).
  rewrite !(float_of_dec_scaled k) by done.
  pose proof (pow10_pos k Hk0). pose proof FU_pos. apply frnd_mono; [lia..|].
  do 2 (apply Z.mul_le_mono_nonneg_r; [lia|]). lia.
Qed.

Lemma repr_float_0 : repr_float 0 = mkdec 0 0.
Proof. done. Qed.

Lemma repr_float_nonneg x : is_float x → 0 <= x → 0 <= dcoef (repr_float x).
Proof.
  intros Hx H0. set (k := Z.max 0 (- dexp (repr_float x))).
  pose proof (repr_float_mono k 0 x is_float_0 Hx H0 ltac:(lia) ltac:(cbn; lia) ltac:(lia)) as H.
  unfold dval in H. rewrite repr_float_0 in H. simpl in H.
  pose proof (pow10_pos (dexp (repr_float x) + k) ltac:(lia)). nia.
Qed.

(** ** Decimal division, then rounding to hundredths *)

Lemma drnd_eq n1 d1 n2 d2 :
  0 < d1 → 0 < d2 → n1 * d2 = n2 * d1 → rnd 10 28 dec_digits n1 d1 = rnd 10 28 dec_digits n2 d2.
Proof.
  intros H1 H2 H. apply Z.le_antisymm;
    apply (rnd_mono 10 28 dec_digits ltac:(lia) ltac:(lia) dec_digits_count); lia.
Qed.

(** A number of at most 28 digits, shifted left, is kept as it is. *)
Lemma drnd_shifted c k d :
  0 < d → 0 <= k → Z.abs c <= 10 ^ 28 → rnd 10 28 dec_digits (c * 10 ^ k * d) d = c * 10 ^ k.
Proof.
  intros Hd Hk Hc. rewrite (drnd_eq _ d (c * 10 ^ k) 1) by lia.
  rewrite (rnd_shift 10 28 dec_digits ltac:(lia) ltac:(lia) dec_digits_count) by done.
  rewrite <- (Z.mul_1_r c) at 1.
  by rewrite (rnd_small 10 28 dec_digits ltac:(lia) ltac:(lia) dec_digits_count).
Qed.

(** Rounding a quotient to 28 digits first does not change which hundredth is
    nearest: a quotient of amounts is either a tie or far from one. *)
Lemma rhu_drnd n d i :
  0 <= n → 0 < d → 14 <= i → 2 * d <= 10 ^ 14 → n <= 10 ^ 12 * d →
  rhu (rnd 10 28 dec_digits (n * 10 ^ i) d) (10 ^ i) = rhu n d.
Proof.
  intros Hn Hd Hi Hd2 Hnd. set (r := rhu n d).
  pose proof (pow10_pos i ltac:(lia)) as Hp.
  assert (Hr : 2 * d * r <= 2 * n + d < 2 * d * r + 2 * d ∧ 0 <= r <= 10 ^ 12 + 1).
  { unfold r, rhu. destruct (Z.eq_dec n 0) as [->|]; [simpl; lia|].
    rewrite Z.sgn_pos, Z.abs_eq by lia. div_facts (2 * n + d) (2 * d). nia. }
  set (v := rnd 10 28 dec_digits (n * 10 ^ i) d).
  assert (Hsplit : 10 ^ i = 10 ^ 14 * 10 ^ (i - 14)) by (rewrite <- Z.pow_add_r by lia; f_equal; lia).
  pose proof (pow10_pos (i - 14) ltac:(lia)) as Hq.
  assert (Hlow : (2 * r - 1) * (10 ^ 14 / 2) * 10 ^ (i - 14) <= v).
  { change (10 ^ 14 / 2) with 50000000000000.
    rewrite <- (drnd_shifted ((2 * r - 1) * 50000000000000) (i - 14) d) by lia.
    apply (rnd_mono 10 28 dec_digits ltac:(lia) ltac:(lia) dec_digits_count); [done..|].
    rewrite Hsplit. change (10 ^ 14) with 100000000000000. nia. }
  assert (Hup : v <= ((2 * r + 1) * (10 ^ 14 / 2) - 1) * 10 ^ (i - 14)).
  { change (10 ^ 14 / 2) with 50000000000000.
    rewrite <- (drnd_shifted ((2 * r + 1) * 50000000000000 - 1) (i - 14) d) by lia.
    apply (rnd_mono 10 28 dec_digits ltac:(lia) ltac:(lia) dec_digits_count); [done..|].
    rewrite Hsplit. change (10 ^ 14) with 100000000000000 in *. nia. }
  change (10 ^ 14 / 2) with 50000000000000 in *. change (10 ^ 14) with 100000000000000 in *.
  assert (0 <= v).
  { apply (rnd_nonneg 10 28 dec_digits ltac:(lia)); nia. }
  unfold rhu at 1. rewrite Hsplit. destruct (Z.eq_dec v 0) as [Hv|Hv].
  - rewrite Hv. simpl. nia.
  - rewrite Z.sgn_pos, Z.abs_eq, Z.mul_1_l by lia.
    symmetry. apply (Z.div_unique _ _ _ (2 * v + 10 ^ i - 2 * 10 ^ i * r));
      rewrite Hsplit; [left; nia | nia].
Qed.

(** ** Hundredths as floats

    Up to ten billion, a float nearest to [n / 100] is nearer to [n] hundredths
    than to any other multiple: multiples of 1/1024 separate them. *)

Lemma fint_exact n : Z.abs n <= 2 ^ 53 → fint n = n * FU.
Proof.
  intros Hn. unfold fint, flit, frnd. Transparent FU. unfold FU. Opaque FU.
  rewrite (rnd_shift 2 53 bits ltac:(lia) ltac:(lia) bits_count) by lia. f_equal.
  rewrite <- (Z.mul_1_r n) at 1. by apply (rnd_small 2 53 bits ltac:(lia) ltac:(lia) bits_count).
Qed.

Lemma frnd_eq n1 d1 n2 d2 : 0 < d1 → 0 < d2 → n1 * d2 = n2 * d1 → frnd n1 d1 = frnd n2 d2.
Proof. intros H1 H2 H. apply Z.le_antisymm; apply frnd_mono; lia. Qed.

(** The unit in which the separating multiples are exact. *)
Definition KU : Z := 2 ^ 1064.
Lemma KU_pos : 0 < KU.
Proof. apply Z.pow_pos_nonneg; lia. Qed.
Lemma FU_KU : FU = 1024 * KU.
Proof. Transparent FU. unfold FU, KU. Opaque FU. change 1024 with (2 ^ 10). by rewrite <- Z.pow_add_r by lia. Qed.

Lemma flit_1024 m : Z.abs m <= 2 ^ 53 → flit m 1024 = m * KU.
Proof.
  intros Hm. unfold flit. rewrite (frnd_eq _ 1024 (m * KU) 1) by (lia || (rewrite FU_KU; ring)).
  unfold frnd, KU. rewrite (rnd_shift 2 53 bits ltac:(lia) ltac:(lia) bits_count) by lia. f_equal.
  rewrite <- (Z.mul_1_r m) at 1. by apply (rnd_small 2 53 bits ltac:(lia) ltac:(lia) bits_count).
Qed.
#[global] Opaque KU.

Lemma flit_hundredths_bounds n :
  0 <= n <= 10 ^ 12 →
  (n * 1024 / 100) * KU <= flit n 100 <= (n * 1024 / 100 + 1) * KU.
Proof.
  intros Hn. div_facts (n * 1024) 100.
  rewrite <- !flit_1024 by lia. split; apply flit_mono; lia.
Qed.

Lemma flit_midpoint_up n : 0 <= n <= 10 ^ 12 → flit n 100 < flit (2 * n + 1) 200.
Proof.
  intros Hn. pose proof (flit_hundredths_bounds n Hn) as [_ Hb]. pose proof KU_pos.
  div_facts (n * 1024) 100.
  assert (flit (n * 1024 / 100 + 2) 1024 <= flit (2 * n + 1) 200) by (apply flit_mono; lia).
  rewrite flit_1024 in * by lia. lia.
Qed.

Lemma flit_midpoint_down n : 1 <= n <= 10 ^ 12 → flit (2 * n - 1) 200 < flit n 100.
Proof.
  intros Hn. pose proof (flit_hundredths_bounds n ltac:(lia)) as [Hb _]. pose proof KU_pos.
  div_facts (n * 1024) 100.
  assert (flit (2 * n - 1) 200 <= flit (n * 1024 / 100 - 1) 1024) by (apply flit_mono; lia).
  rewrite flit_1024 in * by lia. lia.
Qed.

Lemma rne_near n d k : 0 < d → 2 * Z.abs (n - k * d) < d → rne n d = k.
Proof.
  intros Hd Hn. unfold rne. div_facts n d.
  destruct (Z.le_gt_cases (k * d) n).
  - assert (Hq : n / d = k) by nia. rewrite Hq in *.
    destruct (Z.ltb_spec (2 * (n mod d)) d); [done | exfalso; lia].
  - assert (Hq : n / d = k - 1) by nia. rewrite Hq in *.
    destruct (Z.ltb_spec (2 * (n mod d)) d); [exfalso; lia|].
    destruct (Z.ltb_spec d (2 * (n mod d))); [lia | exfalso; lia].
Qed.

(** [round(x, 2)] keeps it. *)
Lemma fround_hundredths n : 0 <= n <= 10 ^ 12 → fround 2 (flit n 100) = flit n 100.
Proof.
  intros Hn. unfold fround. pose proof FU_pos. rewrite rne_red_eq by done.
  pose proof (flit_hundredths_bounds n Hn) as Hb. pose proof KU_pos. div_facts (n * 1024) 100.
  change (10 ^ 2) with 100. rewrite (rne_near _ _ n); [done | done |]. rewrite FU_KU.
  assert (Z.abs (flit n 100 * 100 - n * (1024 * KU)) <= 200 * KU) by nia. lia.
Qed.

(** [Decimal(str(x))] rounds back to it. *)
Lemma repr_hundredths n :
  0 <= n <= 10 ^ 12 →
  let d := repr_float (flit n 100) in
  ∀ k, 2 <= k → - dexp d <= k → rhu (dval k d) (10 ^ (k - 2)) = n.
Proof.
  intros Hn d k Hk2 Hk. set (x := flit n 100) in *.
  assert (Hx : is_float x) by (apply flit_is_float; lia).
  pose proof (repr_float_roundtrip x Hx) as Hr. fold d in Hr.
  rewrite (float_of_dec_scaled k) in Hr by lia. set (v := dval k d) in *.
  pose proof (pow10_pos (k - 2) ltac:(lia)) as Hp. pose proof FU_pos as HF.
  assert (Hpow : 10 ^ k = 100 * 10 ^ (k - 2)).
  { change 100 with (10 ^ 2). rewrite <- Z.pow_add_r by lia. f_equal. lia. }
  assert (0 <= v).
  { pose proof (repr_float_nonneg x Hx ltac:(apply flit_nonneg; lia)) as Hd0. fold d in Hd0.
    unfold v, dval. pose proof (pow10_pos (dexp d + k) ltac:(lia)). nia. }
  assert (Hup : 2 * v < (2 * n + 1) * 10 ^ (k - 2)).
  { apply Z.nle_gt. intros Hge. pose proof (flit_midpoint_up n Hn) as Hlt. fold x in Hlt.
    rewrite <- Hr in Hlt. apply Z.lt_nge in Hlt. apply Hlt. unfold flit. apply frnd_mono; [lia..|].
    rewrite Hpow. nia. }
  assert (Hlo : (2 * n - 1) * 10 ^ (k - 2) <= 2 * v).
  { destruct (Z.eq_dec n 0) as [->|]; [lia|]. apply Z.nlt_ge. intros Hlt'.
    pose proof (flit_midpoint_down n ltac:(lia)) as Hlt. fold x in Hlt.
    rewrite <- Hr in Hlt. apply Z.lt_nge in Hlt. apply Hlt. unfold flit. apply frnd_mono; [lia..|].
    rewrite Hpow. nia. }
  unfold rhu. destruct (Z.eq_dec v 0) as [Hv|Hv]; [rewrite Hv in *; simpl; nia|].
  rewrite Z.sgn_pos, Z.abs_eq, Z.mul_1_l by lia.
  symmetry. apply (Z.div_unique _ _ _ (2 * v + 10 ^ (k - 2) - 2 * 10 ^ (k - 2) * n)); [left|]; nia.
Qed.
