(* ===== verification/Money.v ===== *)
(** * services/money.py: coins as exact hundredths

    [to_money] coerces any number to a 2-dp amount (ROUND_HALF_UP, clamped to
    the NUMERIC(12,2) range, never raising); [energy_cost] prices energy.  An
    amount is a [money]: an integer number of hundredths. *)

From S2P Require Import Prelude Rounding PyNum.

Definition money := Z.

(** A 2-dp amount as a Decimal ([Decimal("0.01")] is [dec_of_money 1]). *)
Definition dec_of_money (c : money) : dec := mkdec c (-2).

Definition ZERO_MONEY : money := 0.
(** [Decimal("9999999999.99")]. *)
Definition MAX_MONEY : money := 999999999999.

(** The values [to_money] is called on: int, float (finite or not), Decimal. *)
Inductive pynum :=
  | PInt (n : Z)
  | PFloat (x : float)
  | PInf (negative : bool)
  | PNaN
  | PDec (d : dec).

(** [value.quantize(Decimal("0.01"), ROUND_HALF_UP)]; [None] is
    [InvalidOperation]: the result needs more than the context's 28 digits. *)
Definition quantize (d : dec) : option money :=
  let r := if -2 <=? dexp d then dcoef d * 10 ^ (dexp d + 2)
           else rhu (dcoef d) (10 ^ (-2 - dexp d)) in
  if 10 ^ 28 <=? Z.abs r then None else Some r.

Definition to_money_dec (d : dec) : money :=
  match quantize d with
  | None => if 0 <? dcoef d then MAX_MONEY else - MAX_MONEY
  | Some r => if MAX_MONEY <? r then MAX_MONEY
              else if r <? - MAX_MONEY then - MAX_MONEY else r
  end.

Definition to_money (v : pynum) : money :=
  match v with
  | PNaN => ZERO_MONEY
  | PInf negative => if negative then - MAX_MONEY else MAX_MONEY
  | PInt n => to_money_dec (mkdec n 0)
  | PFloat x => to_money_dec (repr_float x)
  | PDec d => to_money_dec d
  end.

(** [to_money] of a value that is already a 2-dp amount. *)
Definition to_money_amount (c : money) : money := to_money (PDec (dec_of_money c)).

(** Coins owed for [energy_kwh] at [rate_coins_per_kwh]: only the product is
    rounded. *)
Definition energy_cost (energy_kwh : float) (rate_coins_per_kwh : pynum) : money :=
  let rate := to_money rate_coins_per_kwh in
  let energy := repr_float energy_kwh in
  to_money (PDec (dmul energy (dec_of_money rate))).

(** The docstring's example: 0.333 kWh x 5.00 = 1.665 -> 1.67. *)
Example energy_cost_doc : energy_cost (flit 333 1000) (PInt 5) = 167.
Proof. vm_compute. reflexivity. Qed.

(** ** Facts used by every client *)

Definition money_ok (c : money) : Prop := - MAX_MONEY <= c <= MAX_MONEY.

#[export] Instance money_ok_dec c : Decision (money_ok c).
Proof. unfold money_ok. apply _. Defined.

Lemma to_money_dec_range d : money_ok (to_money_dec d).
Proof.
  unfold money_ok, to_money_dec, MAX_MONEY. destruct (quantize d); repeat case_match; lia.
Qed.

Lemma to_money_range v : money_ok (to_money v).
Proof.
  destruct v; try apply to_money_dec_range;
    unfold money_ok, to_money, ZERO_MONEY, MAX_MONEY; repeat case_match; lia.
Qed.

Definition clamp (r : Z) : Z := Z.max (- MAX_MONEY) (Z.min MAX_MONEY r).

Lemma clamp_mono r s : r <= s → clamp r <= clamp s.
Proof. unfold clamp. lia. Qed.

(** [to_money] on a decimal, through its value at any fine enough scale. *)
Lemma to_money_dec_scaled k d :
  2 <= k → - dexp d <= k → to_money_dec d = clamp (rhu (dval k d) (10 ^ (k - 2))).
Proof.
  intros Hk2 Hk. pose proof (pow10_pos (k - 2) ltac:(lia)) as Hp2.
  assert (Hq : (if -2 <=? dexp d then dcoef d * 10 ^ (dexp d + 2)
           else rhu (dcoef d) (10 ^ (-2 - dexp d))) = rhu (dval k d) (10 ^ (k - 2))).
  { unfold dval. destruct (Z.leb_spec (-2) (dexp d)).
    - replace (dexp d + k) with (dexp d + 2 + (k - 2)) by lia.
      rewrite (Z.pow_add_r 10 (dexp d + 2)) by lia. rewrite Z.mul_assoc, rhu_exact; lia.
    - replace (k - 2) with (-2 - dexp d + (dexp d + k)) by lia.
      pose proof (pow10_pos (-2 - dexp d) ltac:(lia)).
      pose proof (pow10_pos (dexp d + k) ltac:(lia)).
      rewrite (Z.pow_add_r 10 (-2 - dexp d)) by lia. by rewrite rhu_scale by lia. }
  unfold to_money_dec, quantize. rewrite Hq. clear Hq.
  set (r := rhu _ _).
  assert (Hsgn : 0 < r → 0 < dcoef d).
  { intros Hr. destruct (Z.le_gt_cases (dcoef d) 0) as [Hle|]; [exfalso|done].
    assert (r <= rhu 0 (10 ^ (k - 2))); [|by unfold rhu in *; simpl in *; lia].
    apply rhu_mono; [lia|]. unfold dval. pose proof (pow10_pos (dexp d + k) ltac:(lia)). nia. }
  assert (Hsgn' : r < 0 → dcoef d < 0).
  { intros Hr. destruct (Z.le_gt_cases 0 (dcoef d)) as [Hle|]; [exfalso|lia].
    assert (0 <= r); [|lia]. apply rhu_nonneg; [lia|]. unfold dval.
    pose proof (pow10_pos (dexp d + k) ltac:(lia)). nia. }
  unfold clamp, MAX_MONEY in *.
  destruct (Z.leb_spec (10 ^ 28) (Z.abs r)); simpl.
  - destruct (Z.ltb_spec 0 (dcoef d)); lia.
  - repeat case_match; lia.
Qed.

Lemma to_money_float_nonneg x : is_float x → 0 <= x → 0 <= to_money (PFloat x).
Proof.
  intros Hf H0. pose proof (repr_float_nonneg x Hf H0) as Hd. unfold to_money.
  set (k := Z.max 2 (- dexp (repr_float x))).
  rewrite (to_money_dec_scaled k) by lia.
  enough (0 <= rhu (dval k (repr_float x)) (10 ^ (k - 2))) by (unfold clamp, MAX_MONEY; lia).
  apply rhu_nonneg; [apply pow10_pos; lia|]. unfold dval.
  pose proof (pow10_pos (dexp (repr_float x) + k) ltac:(lia)). nia.
Qed.

Lemma to_money_amount_clamp c : to_money_amount c = clamp c.
Proof.
  unfold to_money_amount, to_money. rewrite (to_money_dec_scaled 2) by (simpl; lia).
  unfold dval, dec_of_money. simpl dexp. simpl dcoef.
  change (10 ^ (-2 + 2)) with 1. change (10 ^ (2 - 2)) with 1.
  by rewrite (rhu_exact c 1).
Qed.

Lemma clamp_ok c : money_ok c → clamp c = c.
Proof. unfold clamp, money_ok, MAX_MONEY. lia. Qed.

Lemma to_money_amount_ok c : money_ok c → to_money_amount c = c.
Proof. intros. by rewrite to_money_amount_clamp, clamp_ok. Qed.

(** The product of a decimal and an amount, at a scale. *)
Lemma dval_dmul k d c :
  2 <= k → - dexp d + 2 <= k →
  dval k (dmul d (dec_of_money c)) =
  rnd 10 28 dec_digits (dcoef d * c * 10 ^ (dexp d - 2 + k)) 1.
Proof.
  intros. unfold dval, dmul, ctx. simpl.
  rewrite <- (rnd_shift 10 28 dec_digits ltac:(lia) ltac:(lia) dec_digits_count) by lia.
  do 2 f_equal; lia.
Qed.

Lemma energy_cost_scaled k e v :
  2 <= k → - dexp (repr_float e) + 2 <= k →
  energy_cost e v =
  clamp (rhu (rnd 10 28 dec_digits (dval (k - 2) (repr_float e) * to_money v) 1)
             (10 ^ (k - 2))).
Proof.
  intros Hk2 Hk. unfold energy_cost, to_money at 1.
  rewrite (to_money_dec_scaled k) by (simpl; lia).
  rewrite dval_dmul by lia. unfold dval.
  replace (dexp (repr_float e) - 2 + k) with (dexp (repr_float e) + (k - 2)) by lia.
  do 3 f_equal. lia.
Qed.

Lemma energy_cost_nonneg e v :
  is_float e → 0 <= e → 0 <= to_money v → 0 <= energy_cost e v.
Proof.
  intros He H0 Hv. set (k := Z.max 2 (- dexp (repr_float e) + 2)).
  rewrite (energy_cost_scaled k) by lia. pose proof (repr_float_nonneg e He H0).
  pose proof (pow10_pos (k - 2) ltac:(lia)).
  pose proof (pow10_pos (dexp (repr_float e) + (k - 2)) ltac:(lia)).
  enough (0 <= rhu (rnd 10 28 dec_digits (dval (k - 2) (repr_float e) * to_money v) 1)
                   (10 ^ (k - 2))) by (unfold clamp, MAX_MONEY; lia).
  apply rhu_nonneg; [lia|]. apply rnd_nonneg; [lia..|]. unfold dval. nia.
Qed.

(** More energy never costs less. *)
Lemma energy_cost_mono e1 e2 v :
  is_float e1 → is_float e2 → e1 <= e2 → 0 <= to_money v →
  energy_cost e1 v <= energy_cost e2 v.
Proof.
  intros H1 H2 H12 Hv.
  set (k := 2 + Z.max 0 (Z.max (- dexp (repr_float e1)) (- dexp (repr_float e2)))).
  rewrite !(energy_cost_scaled k) by lia. apply clamp_mono, rhu_mono.
  { apply pow10_pos; lia. }
  apply (rnd_mono 10 28 dec_digits ltac:(lia) ltac:(lia) dec_digits_count); [lia..|].
  pose proof (repr_float_mono (k - 2) e1 e2 H1 H2 H12 ltac:(lia) ltac:(lia) ltac:(lia)).
  nia.
Qed.

Lemma energy_cost_0 v : energy_cost 0 v = 0.
Proof.
  rewrite (energy_cost_scaled 2) by (rewrite ?repr_float_0; simpl; lia).
  rewrite repr_float_0. unfold dval. simpl dcoef. rewrite !Z.mul_0_l.
  rewrite (rnd_0 10 28 dec_digits ltac:(lia) ltac:(lia) dec_digits_count) by lia. done.
Qed.

#[export] Hint Resolve to_money_range energy_cost_nonneg : pynum.
