(* ===== verification/Models.v ===== *)
(** * database/models.py: the tables

    One Module per SQLAlchemy model; [t] is a row, without its primary key
    (the key of the table's map).  A row holds the columns the modelled
    operations read or write and the plain descriptive ones; columns that only
    presentation code uses (coordinates, [created_at] server defaults that
    nothing reads) and [relationship()] back-references are left out.
    Instants are microseconds since the epoch in UTC, money is [money]
    (hundredths), Float columns are binary64 ([float]). *)

From S2P Require Import Prelude Rounding PyNum Money.

(** [DateTime(timezone=True)]; a legacy naive value is read as UTC by every
    reader in the code, hence the same number. *)
Abbreviation datetime := Z (only parsing).
Definition seconds (k : Z) : Z := k * 1000000.
Definition minutes (k : Z) : Z := seconds (60 * k).
Definition days (k : Z) : Z := minutes (1440 * k).

(** [(a - b).total_seconds()] as a float. *)
Definition total_seconds (us : Z) : float := flit us 1000000.

Inductive UserRole := ADMIN | CPO | DRIVER.
#[export] Instance UserRole_eq_dec : EqDecision UserRole. Proof. solve_decision. Defined.

Inductive GatewayStatus := ONLINE | GW_OFFLINE.
#[export] Instance GatewayStatus_eq_dec : EqDecision GatewayStatus. Proof. solve_decision. Defined.

Inductive PlugStatus := AVAILABLE | OCCUPIED | OFFLINE | MAINTENANCE.
#[export] Instance PlugStatus_eq_dec : EqDecision PlugStatus. Proof. solve_decision. Defined.

Inductive SessionStatus := ACTIVE | COMPLETED | PAID | CANCELLED.
#[export] Instance SessionStatus_eq_dec : EqDecision SessionStatus. Proof. solve_decision. Defined.

Inductive TransactionType := TOPUP | SESSION_DEBIT | REFUND | CPO_TOPUP | ACCOUNT_CLOSURE.
#[export] Instance TransactionType_eq_dec : EqDecision TransactionType. Proof. solve_decision. Defined.

Inductive ReservationStatus := BOOKED | RES_CANCELLED | FULFILLED | EXPIRED.
#[export] Instance ReservationStatus_eq_dec : EqDecision ReservationStatus. Proof. solve_decision. Defined.

Inductive QueuedChargeStatus := Q_WAITING | Q_STARTED | Q_CANCELLED | Q_EXPIRED | Q_FAILED.
#[export] Instance QueuedChargeStatus_eq_dec : EqDecision QueuedChargeStatus. Proof. solve_decision. Defined.

Inductive PayoutStatus := P_REQUESTED | P_PAID | P_CANCELLED.
#[export] Instance PayoutStatus_eq_dec : EqDecision PayoutStatus. Proof. solve_decision. Defined.

Inductive PlugReportStatus := PR_OPEN | PR_ACKNOWLEDGED | PR_RESOLVED.
#[export] Instance PlugReportStatus_eq_dec : EqDecision PlugReportStatus. Proof. solve_decision. Defined.

Inductive DisputeStatus := D_OPEN | D_APPROVED | D_REJECTED.
#[export] Instance DisputeStatus_eq_dec : EqDecision DisputeStatus. Proof. solve_decision. Defined.

Module Tenant.
Record t := mk {
  name : string;
  default_tariff_id : option Z;
  gstin : option string;
  legal_name : option string;
  invoice_prefix : option string;
  next_invoice_seq : Z;
  timezone : string;
  queued_charging_enabled : bool;
  auto_start_delay_min : Z;
  queue_ttl_min : Z }.
#[global] Instance eta_t : Eta t := fun r =>
  mk (name r) (default_tariff_id r) (gstin r) (legal_name r) (invoice_prefix r)
     (next_invoice_seq r) (timezone r) (queued_charging_enabled r)
     (auto_start_delay_min r) (queue_ttl_min r).
End Tenant.

Module User.
Record t := mk {
  tenant_id : option Z;
  email : string;
  hashed_password : string;
  full_name : string;
  role : UserRole;
  coin_balance : money;
  token_version : Z;
  is_disabled : bool;
  email_verified : bool;
  auth_provider : string;
  google_sub : option string;
  deleted_at : option datetime }.
#[global] Instance eta_t : Eta t := fun r =>
  mk (tenant_id r) (email r) (hashed_password r) (full_name r) (role r)
     (coin_balance r) (token_version r) (is_disabled r) (email_verified r) (auth_provider r)
     (google_sub r) (deleted_at r).
End User.

Module Gateway.
Record t := mk {
  tenant_id : option Z;
  name : string;
  vpn_ip : string;
  status : GatewayStatus;
  firmware_version : option string;
  latitude : option float;
  longitude : option float;
  claim_code : option string;
  claimed_at : option datetime;
  last_seen_at : option datetime }.
#[global] Instance eta_t : Eta t := fun r =>
  mk (tenant_id r) (name r) (vpn_ip r) (status r) (firmware_version r) (latitude r) (longitude r)
     (claim_code r) (claimed_at r) (last_seen_at r).
End Gateway.

Module Plug.
Record t := mk {
  gateway_id : string;
  name : string;
  local_ip : string;
  plug_model : string;
  unique_id : option string;
  status : PlugStatus;
  current_power_w : float;
  latitude : option float;
  longitude : option float;
  last_telemetry_at : option datetime;
  powered_since : option datetime;
  group_id : option Z;
  tariff_id : option Z;
  max_current_a : option float;
  queued_charging_enabled : option bool;
  auto_start_delay_min : option Z;
  rated_power_w : option Z;
  connector_type : option string;
  last_today_energy_kwh : option float;
  last_month_energy_kwh : option float }.
#[global] Instance eta_t : Eta t := fun r =>
  mk (gateway_id r) (name r) (local_ip r) (plug_model r) (unique_id r) (status r)
     (current_power_w r) (latitude r) (longitude r) (last_telemetry_at r) (powered_since r)
     (group_id r) (tariff_id r) (max_current_a r) (queued_charging_enabled r)
     (auto_start_delay_min r) (rated_power_w r) (connector_type r)
     (last_today_energy_kwh r) (last_month_energy_kwh r).
End Plug.

Module ChargingSession.
Record t := mk {
  tenant_id : Z;
  user_id : Z;
  plug_id : Z;
  started_at : datetime;
  ended_at : option datetime;
  energy_kwh : float;
  peak_power_w : float;
  last_telemetry_at : option datetime;
  coins_spent : money;
  rate_coins_per_kwh : option money;
  hold_coins : option money;
  status : SessionStatus;
  max_kwh : option float;
  max_duration_seconds : option Z;
  settled_cost_coins : option money;
  rate_segment_start_kwh : option float;
  rate_valid_until : option datetime;
  settled_payout_id : option Z;
  energy_counter_last_raw_kwh : option float;
  energy_reset_offset_kwh : float }.
#[global] Instance eta_t : Eta t := fun r =>
  mk (tenant_id r) (user_id r) (plug_id r) (started_at r) (ended_at r) (energy_kwh r)
     (peak_power_w r) (last_telemetry_at r) (coins_spent r) (rate_coins_per_kwh r)
     (hold_coins r) (status r) (max_kwh r) (max_duration_seconds r)
     (settled_cost_coins r) (rate_segment_start_kwh r) (rate_valid_until r)
     (settled_payout_id r) (energy_counter_last_raw_kwh r) (energy_reset_offset_kwh r).
End ChargingSession.

Module LedgerTransaction.
Record t := mk {
  user_id : Z;
  session_id : option Z;
  amount : money;
  transaction_type : TransactionType;
  razorpay_payment_id : option string;
  balance_after : money }.
End LedgerTransaction.

Module ChargerGroup.
Record t := mk {
  tenant_id : Z;
  name : string;
  is_public : bool;
  access_code : option string;
  tariff_id : option Z;
  max_current_a : option float }.
#[global] Instance eta_t : Eta t := fun r =>
  mk (tenant_id r) (name r) (is_public r) (access_code r) (tariff_id r) (max_current_a r).
End ChargerGroup.

Module GroupMembership.
Record t := mk { user_id : Z; group_id : Z; joined_at : datetime }.
End GroupMembership.

Module Tariff.
Record t := mk { tenant_id : Z; name : string; price_per_kwh : money }.
#[global] Instance eta_t : Eta t := fun r => mk (tenant_id r) (name r) (price_per_kwh r).
End Tariff.

Module TariffSlot.
Record t := mk {
  tariff_id : Z;
  start_min : Z;
  end_min : Z;
  price_per_kwh : money;
  days_mask : Z }.
End TariffSlot.

Module Reservation.
Record t := mk {
  plug_id : Z;
  user_id : Z;
  tenant_id : Z;
  start_at : datetime;
  end_at : datetime;
  status : ReservationStatus;
  session_id : option Z;
  started_notified_at : option datetime }.
#[global] Instance eta_t : Eta t := fun r =>
  mk (plug_id r) (user_id r) (tenant_id r) (start_at r) (end_at r) (status r)
     (session_id r) (started_notified_at r).
End Reservation.

Module QueuedCharge.
Record t := mk {
  tenant_id : Z;
  user_id : Z;
  plug_id : Z;
  max_kwh : option float;
  max_duration_seconds : option Z;
  status : QueuedChargeStatus;
  created_at : datetime;
  expires_at : datetime;
  started_session_id : option Z }.
#[global] Instance eta_t : Eta t := fun r =>
  mk (tenant_id r) (user_id r) (plug_id r) (max_kwh r) (max_duration_seconds r) (status r)
     (created_at r) (expires_at r) (started_session_id r).
End QueuedCharge.

Module PlugWatch.
Record t := mk { user_id : Z; plug_id : Z }.
End PlugWatch.

Module CapacityRequest.
Record t := mk { user_id : Z; plug_id : Z; group_id : Z }.
End CapacityRequest.

Module PlugReport.
Record t := mk {
  plug_id : Z;
  tenant_id : Z;
  driver_user_id : Z;
  category : string;
  description : string;
  status : PlugReportStatus;
  resolution_note : option string;
  created_at : datetime;
  resolved_at : option datetime;
  resolved_by_user_id : option Z }.
#[global] Instance eta_t : Eta t := fun r =>
  mk (plug_id r) (tenant_id r) (driver_user_id r) (category r) (description r) (status r)
     (resolution_note r) (created_at r) (resolved_at r) (resolved_by_user_id r).
End PlugReport.

Module FirmwareRelease.
Record t := mk { version : string; url : string; notes : option string; is_active : bool }.
#[global] Instance eta_t : Eta t := fun r => mk (version r) (url r) (notes r) (is_active r).
End FirmwareRelease.

Module UserFavorite.
Record t := mk { user_id : Z; plug_id : Z }.
End UserFavorite.

Module PushSubscription.
Record t := mk { user_id : Z; endpoint : string; p256dh : string; auth : string }.
#[global] Instance eta_t : Eta t := fun r => mk (user_id r) (endpoint r) (p256dh r) (auth r).
End PushSubscription.

(** [used_at]: [None] while the token can still be consumed. *)
Module PasswordResetToken.
Record t := mk {
  user_id : Z;
  token_hash : string;
  expires_at : datetime;
  used_at : option datetime }.
#[global] Instance eta_t : Eta t := fun r =>
  mk (user_id r) (token_hash r) (expires_at r) (used_at r).
End PasswordResetToken.

(** The columns of [PasswordResetToken]. *)
Module EmailVerificationToken.
Definition t := PasswordResetToken.t.
End EmailVerificationToken.

Module Notification.
Record t := mk {
  user_id : Z;
  type : string;
  severity : string;
  title : string;
  body : string;
  plug_id : option Z;
  session_id : option Z;
  read : bool;
  created_at : datetime }.
#[global] Instance eta_t : Eta t := fun r =>
  mk (user_id r) (type r) (severity r) (title r) (body r) (plug_id r) (session_id r) (read r)
    (created_at r).
End Notification.

Module SessionDispute.
Record t := mk {
  session_id : Z;
  tenant_id : Z;
  driver_user_id : Z;
  reason : string;
  status : DisputeStatus;
  resolution_note : option string;
  refund_coins : option money;
  created_at : datetime;
  resolved_at : option datetime;
  resolved_by_user_id : option Z }.
#[global] Instance eta_t : Eta t := fun r =>
  mk (session_id r) (tenant_id r) (driver_user_id r) (reason r) (status r)
     (resolution_note r) (refund_coins r) (created_at r) (resolved_at r) (resolved_by_user_id r).
End SessionDispute.

Module Payout.
Record t := mk {
  tenant_id : Z;
  period_start : datetime;
  period_end : datetime;
  gross_coins : money;
  platform_fee_coins : money;
  net_coins : money;
  status : PayoutStatus;
  requested_by_user_id : Z;
  requested_at : datetime;
  paid_at : option datetime;
  note : option string }.
#[global] Instance eta_t : Eta t := fun r =>
  mk (tenant_id r) (period_start r) (period_end r) (gross_coins r) (platform_fee_coins r)
     (net_coins r) (status r) (requested_by_user_id r) (requested_at r) (paid_at r) (note r).
End Payout.

Module OfflineTopup.
Record t := mk {
  tenant_id : Z;
  actor_user_id : option Z;
  driver_user_id : option Z;
  amount_coins : money;
  note : option string;
  created_at : datetime }.
End OfflineTopup.

Module Invoice.
Record t := mk {
  tenant_id : Z;
  session_id : Z;
  driver_user_id : Z;
  invoice_number : string;
  issued_at : datetime;
  amount_coins : money;
  taxable_value_inr : money;
  gst_rate_pct : money;
  gst_amount_inr : money;
  total_inr : money;
  seller_legal_name : option string;
  seller_gstin : option string;
  energy_kwh : float;
  rate_coins_per_kwh : money }.
#[global] Instance eta_t : Eta t := fun r =>
  mk (tenant_id r) (session_id r) (driver_user_id r) (invoice_number r) (issued_at r)
     (amount_coins r) (taxable_value_inr r) (gst_rate_pct r) (gst_amount_inr r) (total_inr r)
     (seller_legal_name r) (seller_gstin r) (energy_kwh r) (rate_coins_per_kwh r).
End Invoice.

Module GatewayEvent.
Record t := mk {
  tenant_id : Z;
  gateway_id : string;
  plug_id : option Z;
  event_type : string;
  severity : string;
  acknowledged : bool }.
End GatewayEvent.

Module GatewayLog.
Record t := mk {
  tenant_id : Z;
  gateway_id : string;
  level : string;
  message : string;
  created_at : datetime }.
End GatewayLog.

(** A raw sample as the MQTT handler builds it; [status] is whatever the gateway
    sent. *)
Module Sample.
Inductive raw_status := SNull | SText (s : string) | SOther.
Record t := mk {
  plug_id : Z;
  recorded_at : datetime;
  power_w : float;
  energy_kwh : float;
  voltage_v : float;
  current_a : float;
  status : raw_status }.
End Sample.

Module TelemetryReading.
Record t := mk {
  tenant_id : Z;
  session_id : option Z;
  sample : Sample.t }.
End TelemetryReading.
