(* ===== verification/Slots.v ===== *)
(** * services/pricing.py, the pure core: time-of-day slots

    A wall clock is the number of microseconds since 1970-01-01 00:00 on a
    tenant's local calendar.  [slot_rate_and_bound] gives the price of the slot
    in force and the next wall clock at which the price could change. *)

From S2P Require Import Prelude Rounding PyNum Money Models.

Abbreviation wall := Z (only parsing).
Definition DAY : Z := days 1.
Definition MINUTE : Z := minutes 1.

Definition day_start (t : wall) : wall := t - t mod DAY.
Definition minute_of_day (t : wall) : Z := (t mod DAY) / MINUTE.
(** [date.weekday()]: Monday is 0; 1970-01-01 was a Thursday. *)
Definition weekday (t : wall) : Z := (t / DAY + 3) mod 7.

Implicit Types (s : TariffSlot.t) (slots : list TariffSlot.t) (t : wall).

Definition active_on (wd : Z) s : bool := Z.testbit (TariffSlot.days_mask s) wd.

Definition covers t s : bool :=
  active_on (weekday t) s &&
  ((TariffSlot.start_min s <=? minute_of_day t) && (minute_of_day t <? TariffSlot.end_min s)).

(** [key(a) < key(b)] for [key = (start_min, end_min)]. *)
Definition slot_lt (a b : TariffSlot.t) : bool :=
  (TariffSlot.start_min a <? TariffSlot.start_min b) ||
  ((TariffSlot.start_min a =? TariffSlot.start_min b) &&
   (TariffSlot.end_min a <? TariffSlot.end_min b)).

(** [min(l, key=...)]: the first of the smallest elements. *)
Fixpoint min_by {A} (lt : A → A → bool) (best : A) (l : list A) : A :=
  match l with
  | [] => best
  | x :: l => min_by lt (if lt x best then x else best) l
  end.

Definition min_start (s0 : TariffSlot.t) (l : list TariffSlot.t) : Z :=
  foldl Z.min (TariffSlot.start_min s0) (map TariffSlot.start_min l).

(** The earliest start on one of the next [n] weekdays that has a slot. *)
Fixpoint next_day_bound (n : nat) slots (d : wall) : option wall :=
  match n with
  | O => None
  | S n =>
      match List.filter (active_on (weekday d)) slots with
      | s0 :: l => Some (d + min_start s0 l * MINUTE)
      | [] => next_day_bound n slots (d + DAY)
      end
  end.

Definition slot_rate_and_bound slots (at_local : wall) : option money * option wall :=
  let bound_at m := day_start at_local + m * MINUTE in
  let todays := List.filter (active_on (weekday at_local)) slots in
  match List.filter (λ s, (TariffSlot.start_min s <=? minute_of_day at_local) &&
                          (minute_of_day at_local <? TariffSlot.end_min s)) todays with
  | s0 :: l =>
      let slot := min_by slot_lt s0 l in
      (Some (to_money_amount (TariffSlot.price_per_kwh slot)), Some (bound_at (TariffSlot.end_min slot)))
  | [] =>
      match List.filter (λ s, minute_of_day at_local <? TariffSlot.start_min s) todays with
      | s0 :: l => (None, Some (bound_at (min_start s0 l)))
      | [] => (None, next_day_bound 7 slots (day_start at_local + DAY))
      end
  end.

Definition slot_overlaps (start_a end_a days_a start_b end_b days_b : Z) : bool :=
  if Z.land days_a days_b =? 0 then false
  else (start_a <? end_b) && (start_b <? end_a).

(** The price a tariff shows: (rate, boundary, next rate), the last two only for
    a change later on the same local day. *)
Definition price_display_from_slots slots (at_local : wall) (flat : money)
    : money * option wall * option money :=
  let '(slot_rate, boundary) := slot_rate_and_bound slots at_local in
  let rate := default flat slot_rate in
  match boundary with
  | None => (rate, None, None)
  | Some b =>
      if negb (b / DAY =? at_local / DAY) then (rate, None, None)
      else
        let next_rate := default flat (slot_rate_and_bound slots b).1 in
        if next_rate =? rate then (rate, None, None) else (rate, Some b, Some next_rate)
  end.

(** ** Facts *)

(** What the slot endpoints enforce: a window inside one day. *)
Definition slot_valid s : Prop :=
  0 <= TariffSlot.start_min s ∧ TariffSlot.start_min s < TariffSlot.end_min s ∧
  TariffSlot.end_min s <= 1440.

Lemma DAY_val : DAY = 86400000000.
Proof. reflexivity. Qed.
Lemma MINUTE_val : MINUTE = 60000000.
Proof. reflexivity. Qed.
(** [lia] with the lengths of a day and a minute. *)
Ltac clock := pose proof DAY_val; pose proof MINUTE_val; lia.

Lemma filter_cons_in {A} (p : A → bool) l x r :
  List.filter p l = x :: r → Forall (λ y, y ∈ l ∧ p y = true) (x :: r).
Proof.
  intros <-. apply Forall_forall. intros y Hy.
  by apply list_elem_of_In, filter_In in Hy as [?%list_elem_of_In ?].
Qed.

Lemma filter_nil_none {A} (p : A → bool) l y : List.filter p l = [] → y ∈ l → p y = false.
Proof.
  intros Hf Hy. destruct (p y) eqn:Hp; [|done]. exfalso.
  assert (y ∈ List.filter p l) as Hin
    by (apply list_elem_of_In, filter_In; split; [by apply list_elem_of_In | done]).
  rewrite Hf in Hin. by apply not_elem_of_nil in Hin.
Qed.

Lemma filter_filter {A} (p q : A → bool) l :
  List.filter q (List.filter p l) = List.filter (λ x, p x && q x) l.
Proof.
  induction l as [|x l IH]; simpl; [done|]. destruct (p x); simpl; [|done].
  by destruct (q x); rewrite IH.
Qed.

Lemma filter_none_nil {A} (p : A → bool) l :
  (∀ x, x ∈ l → p x = false) → List.filter p l = [].
Proof.
  induction l as [|x l IH]; intros Hp; [done|]. simpl.
  rewrite (Hp x) by left. apply IH. intros y Hy. apply Hp. by right.
Qed.

(** The price of the slot in force. *)
Definition slot_rate slots t : option money :=
  match List.filter (covers t) slots with
  | s0 :: l => Some (to_money_amount (TariffSlot.price_per_kwh (min_by slot_lt s0 l)))
  | [] => None
  end.

Lemma slot_rate_spec slots t : (slot_rate_and_bound slots t).1 = slot_rate slots t.
Proof.
  unfold slot_rate_and_bound, slot_rate. rewrite filter_filter. fold (covers t).
  change (λ x, active_on (weekday t) x && _) with (covers t).
  destruct (List.filter (covers t) slots); [|done].
  by destruct (List.filter _ (List.filter _ slots)).
Qed.

(** [min_by] under the slot order: a least element, the first of its key. *)
Lemma slot_lt_irrefl s : slot_lt s s = false.
Proof. unfold slot_lt. rewrite !Z.ltb_irrefl. by rewrite andb_false_r. Qed.

Lemma slot_lt_false a b :
  slot_lt a b = false ↔
  TariffSlot.start_min b < TariffSlot.start_min a ∨
  (TariffSlot.start_min b = TariffSlot.start_min a ∧
   TariffSlot.end_min b <= TariffSlot.end_min a).
Proof.
  unfold slot_lt. rewrite orb_false_iff, andb_false_iff, !Z.ltb_ge, Z.eqb_neq. lia.
Qed.

(** The slot [min] picks: none is smaller, and those before it are larger. *)
Definition pick (l : list TariffSlot.t) : option TariffSlot.t :=
  match l with [] => None | s0 :: l => Some (min_by slot_lt s0 l) end.

Definition picked (l : list TariffSlot.t) m : Prop :=
  ∃ l1 l2, l = l1 ++ m :: l2 ∧ Forall (λ y, slot_lt m y = true) l1 ∧
           Forall (λ y, slot_lt y m = false) l2.

Lemma slot_lt_true a b :
  slot_lt a b = true ↔
  TariffSlot.start_min a < TariffSlot.start_min b ∨
  (TariffSlot.start_min a = TariffSlot.start_min b ∧
   TariffSlot.end_min a < TariffSlot.end_min b).
Proof.
  unfold slot_lt. rewrite orb_true_iff, andb_true_iff, !Z.ltb_lt, Z.eqb_eq. lia.
Qed.

Lemma picked_min_by s0 l : picked (s0 :: l) (min_by slot_lt s0 l).
Proof.
  revert s0. induction l as [|x l IH]; intros s0; simpl; [by exists [], []|].
  destruct (slot_lt x s0) eqn:Hx.
  - destruct (IH x) as (l1 & l2 & Hl & H1 & H2). exists (s0 :: l1), l2.
    rewrite Hl. split_and!; [done | | done]. constructor; [|done].
    destruct l1 as [|y l1]; simplify_eq/=; [congruence|].
    apply Forall_cons in H1 as [H1 _]. rewrite slot_lt_true in *. lia.
  - destruct (IH s0) as (l1 & l2 & Hl & H1 & H2).
    destruct l1 as [|y l1]; simpl in Hl; injection Hl; intros Hl' Hm.
    + exists [], (x :: l). simpl. rewrite <- Hm. split_and!; [done | done |].
      rewrite <- Hm in H2. constructor; [done | by rewrite Hl'].
    + exists (s0 :: x :: l1), l2. simpl. rewrite Hl' at 1. split_and!; [done | | done].
      subst y. apply Forall_cons in H1 as [Hy H1]. repeat constructor; [done | | done].
      rewrite slot_lt_true, slot_lt_false in *. lia.
Qed.

Lemma picked_unique l m m' : picked l m → picked l m' → m = m'.
Proof.
  intros (l1 & l2 & -> & H1 & H2) (k1 & k2 & Hl & K1 & K2).
  apply app_eq_inv in Hl as [(k & -> & Hk) | (k & -> & Hk)];
    destruct k as [|x k]; simplify_eq/=; [done | | done |]; exfalso;
    rewrite ?Forall_app, ?Forall_cons in *; destruct_and!;
    rewrite slot_lt_true, slot_lt_false in *; lia.
Qed.

Lemma pick_spec l m : pick l = Some m ↔ picked l m.
Proof.
  destruct l as [|s0 l]; simpl.
  - split; [done | intros ([|] & l2 & Hl & _); done].
  - pose proof (picked_min_by s0 l) as Hp. split; [by intros [= <-]|].
    intros Hm. f_equal. by eapply picked_unique.
Qed.

Lemma picked_in l m : picked l m → m ∈ l.
Proof. intros (l1 & l2 & -> & _). rewrite elem_of_app. right. left. Qed.

Lemma picked_least l m y : picked l m → y ∈ l → slot_lt y m = false.
Proof.
  intros (l1 & l2 & -> & H1 & H2) [Hy|[->|Hy]%elem_of_cons]%elem_of_app.
  - rewrite Forall_forall in H1. apply H1 in Hy. rewrite slot_lt_true, slot_lt_false in *. lia.
  - apply slot_lt_irrefl.
  - rewrite Forall_forall in H2. by apply H2.
Qed.

(** A picked element stays picked when the filter changes, as long as it is
    kept and nothing smaller or equal comes in. *)
Lemma picked_filter (p q : TariffSlot.t → bool) l m :
  picked (List.filter p l) m → q m = true →
  (∀ y, y ∈ l → q y = true → slot_lt m y = false → p y = true) →
  picked (List.filter q l) m.
Proof.
  intros (l1 & l2 & Hl & H1 & H2) Hqm Hpq. revert l1 Hl H1.
  induction l as [|x l IH]; intros l1 Hl H1; simpl in *; [by destruct l1|].
  assert (Htl : ∀ y, y ∈ l → q y = true → slot_lt m y = false → p y = true)
    by (intros y Hy; apply Hpq; by right).
  assert (Hx : q x = true → slot_lt m x = false → p x = true) by (apply Hpq; left).
  specialize (IH Htl).
  destruct (p x) eqn:Hp.
  - destruct l1 as [|y l1]; simplify_eq/=.
    + rewrite Hqm. exists [], (List.filter q l). split_and!; [done..|].
      apply Forall_forall. intros y Hy.
      apply list_elem_of_In, filter_In in Hy as [Hy Hqy].
      apply not_true_iff_false. intros Hlt.
      assert (Hp' : p y = true).
      { apply Htl; [by apply list_elem_of_In | done |].
        rewrite slot_lt_true, slot_lt_false in *. lia. }
      rewrite Forall_forall in H2. specialize (H2 y).
      rewrite H2 in Hlt; [done|]. apply list_elem_of_In, filter_In. done.
    + apply Forall_cons in H1 as [Hy H1].
      destruct (IH l1 H0 H1) as (k1 & k2 & -> & K1 & K2).
      destruct (q y); [exists (y :: k1), k2 | exists k1, k2]; split_and!; try done.
      by constructor.
  - destruct (IH l1 Hl H1) as (k1 & k2 & -> & K1 & K2).
    destruct (q x) eqn:Hq; [exists (x :: k1), k2 | exists k1, k2]; split_and!; try done.
    constructor; [|done]. destruct (slot_lt m x) eqn:Hlt; [done|]. exfalso.
    specialize (Hx eq_refl eq_refl). congruence.
Qed.

(** ** Days and minutes *)

Lemma day_of t q r :
  t = q * DAY + r → 0 <= r < DAY →
  t / DAY = q ∧ day_start t = q * DAY ∧ weekday t = (q + 3) mod 7 ∧ minute_of_day t = r / MINUTE.
Proof.
  intros -> Hr. unfold day_start, weekday, minute_of_day.
  assert (Hd : (q * DAY + r) / DAY = q) by (rewrite Z.div_add_l, Z.div_small; clock).
  assert (Hm : (q * DAY + r) mod DAY = r)
    by (rewrite Z.add_comm, Z.mod_add by clock; by apply Z.mod_small).
  rewrite Hd, Hm. split_and!; lia.
Qed.

Lemma day_split t : ∃ q r, t = q * DAY + r ∧ 0 <= r < DAY.
Proof. exists (t / DAY), (t mod DAY). pose proof DAY_val. div_facts t DAY. lia. Qed.

Lemma minute_lt r k : 0 <= r → r < k * MINUTE ↔ r / MINUTE < k.
Proof. intros. pose proof MINUTE_val. div_facts r MINUTE. split; nia. Qed.

Lemma covers_day t q r s :
  t = q * DAY + r → 0 <= r < DAY →
  covers t s = true ↔
  active_on ((q + 3) mod 7) s = true ∧
  TariffSlot.start_min s <= r / MINUTE ∧ r / MINUTE < TariffSlot.end_min s.
Proof.
  intros Ht Hr. destruct (day_of t q r Ht Hr) as (_ & _ & Hw & Hm).
  unfold covers. rewrite Hw, Hm, !andb_true_iff, Z.leb_le, Z.ltb_lt. done.
Qed.

Lemma min_start_le s0 l y : y ∈ s0 :: l → min_start s0 l <= TariffSlot.start_min y.
Proof.
  unfold min_start. intros Hy.
  assert (H : ∀ acc (k : list Z) z, z = acc ∨ z ∈ k → foldl Z.min acc k <= z).
  { intros acc k. revert acc. induction k as [|x k IH]; intros acc z [->|Hz]; simpl.
    - lia.
    - by apply not_elem_of_nil in Hz.
    - specialize (IH (Z.min acc x) (Z.min acc x) (or_introl eq_refl)). lia.
    - apply elem_of_cons in Hz as [->|Hz]; [|by apply IH; right].
      specialize (IH (Z.min acc x) (Z.min acc x) (or_introl eq_refl)). lia. }
  apply H. apply elem_of_cons in Hy as [->|Hy]; [by left|right].
  apply list_elem_of_fmap. eauto.
Qed.

Lemma min_start_in s0 l : ∃ y, y ∈ s0 :: l ∧ min_start s0 l = TariffSlot.start_min y.
Proof.
  unfold min_start. revert s0. induction l as [|x l IH]; intros s0; simpl.
  - exists s0. split; [left | done].
  - destruct (Z.min_spec (TariffSlot.start_min s0) (TariffSlot.start_min x)) as [[_ ->]|[_ ->]].
    + destruct (IH s0) as (y & Hy & ->). exists y. split; [|done].
      apply elem_of_cons in Hy as [->|Hy]; [left | by do 2 right].
    + destruct (IH x) as (y & Hy & ->). exists y. split; [by right | done].
Qed.

(** [next_day_bound] finds the first day with a slot, at its earliest start. *)
Lemma next_day_bound_some n slots q b :
  next_day_bound n slots (q * DAY) = Some b →
  ∃ k ms, 0 <= k < Z.of_nat n ∧ b = (q + k) * DAY + ms * MINUTE ∧
  (∃ y, y ∈ slots ∧ TariffSlot.start_min y = ms) ∧
  (∀ y, y ∈ slots → active_on ((q + k + 3) mod 7) y = true → ms <= TariffSlot.start_min y) ∧
  (∀ j y, 0 <= j < k → y ∈ slots → active_on ((q + j + 3) mod 7) y = false).
Proof.
  revert q. induction n as [|n IH]; intros q; simpl; [done|].
  destruct (day_of (q * DAY) q 0 ltac:(lia) ltac:(clock)) as (_ & _ & -> & _).
  destruct (List.filter _ slots) as [|s0 l] eqn:Hf.
  - replace (q * DAY + DAY) with ((q + 1) * DAY) by lia.
    intros (k & ms & Hk & -> & Hy & Hmin & Hnone)%IH.
    exists (k + 1), ms. split_and!; [lia.. | | |].
    + done.
    + intros y Hin. replace (q + (k + 1) + 3) with (q + 1 + k + 3) by lia. by apply Hmin.
    + intros j y Hj Hin. destruct (Z.eq_dec j 0) as [->|].
      * rewrite Z.add_0_r. by eapply filter_nil_none in Hf.
      * replace (q + j + 3) with (q + 1 + (j - 1) + 3) by lia. apply Hnone; [lia | done].
  - intros [= <-]. exists 0, (min_start s0 l). apply filter_cons_in in Hf as Hin.
    rewrite Forall_forall in Hin. rewrite !Z.add_0_r. split_and!; [lia.. | | |].
    + destruct (min_start_in s0 l) as (y & Hy & ->). exists y. by apply Hin in Hy as [? _].
    + intros y Hy Ha. apply min_start_le. rewrite <- Hf.
      apply list_elem_of_In, filter_In. split; [by apply list_elem_of_In | done].
    + lia.
Qed.

Lemma next_day_bound_none n slots q :
  next_day_bound n slots (q * DAY) = None →
  ∀ j y, 0 <= j < Z.of_nat n → y ∈ slots → active_on ((q + j + 3) mod 7) y = false.
Proof.
  revert q. induction n as [|n IH]; intros q; simpl; [lia|].
  destruct (day_of (q * DAY) q 0 ltac:(lia) ltac:(clock)) as (_ & _ & -> & _).
  destruct (List.filter _ slots) as [|s0 l] eqn:Hf; [|done].
  replace (q * DAY + DAY) with ((q + 1) * DAY) by lia. intros Hn j y Hj Hin.
  destruct (Z.eq_dec j 0) as [->|].
  - rewrite Z.add_0_r. by eapply filter_nil_none in Hf.
  - replace (q + j + 3) with (q + 1 + (j - 1) + 3) by lia. apply (IH _ Hn); [lia | done].
Qed.

#[local] Arguments next_day_bound : simpl never.

(** ** Properties *)

Lemma slot_rate_none slots t :
  (∀ y, y ∈ slots → covers t y = false) → slot_rate slots t = None.
Proof. intros H. unfold slot_rate. by rewrite filter_none_nil. Qed.

Lemma slot_rate_pick slots t :
  slot_rate slots t =
  (λ s, to_money_amount (TariffSlot.price_per_kwh s)) <$> pick (List.filter (covers t) slots).
Proof. unfold slot_rate. by destruct (List.filter (covers t) slots). Qed.

(** The three ways a boundary arises. *)
Lemma bound_cases slots t q r :
  t = q * DAY + r → 0 <= r < DAY →
  let res := slot_rate_and_bound slots t in
  (∃ m, picked (List.filter (covers t) slots) m ∧
        res.2 = Some (q * DAY + TariffSlot.end_min m * MINUTE)) ∨
  ((∀ y, y ∈ slots → covers t y = false) ∧
   ((∃ ms, res.2 = Some (q * DAY + ms * MINUTE) ∧ r / MINUTE < ms ∧
       (∃ y, y ∈ slots ∧ TariffSlot.start_min y = ms) ∧
       ∀ y, y ∈ slots → active_on ((q + 3) mod 7) y = true →
            r / MINUTE < TariffSlot.start_min y → ms <= TariffSlot.start_min y) ∨
    ((∀ y, y ∈ slots → active_on ((q + 3) mod 7) y = true → TariffSlot.start_min y <= r / MINUTE) ∧
     res.2 = next_day_bound 7 slots ((q + 1) * DAY)))).
Proof.
  intros Ht Hr. destruct (day_of t q r Ht Hr) as (_ & Hd & Hw & Hm). simpl.
  unfold slot_rate_and_bound. rewrite filter_filter.
  change (λ x, active_on (weekday t) x && _) with (covers t). rewrite Hd.
  destruct (List.filter (covers t) slots) as [|s0 l] eqn:Hc.
  - right. split; [intros y; by apply filter_nil_none|].
    rewrite filter_filter, Hw, Hm.
    set (p := λ x, active_on ((q + 3) mod 7) x && (r / MINUTE <? TariffSlot.start_min x)).
    destruct (List.filter p slots) as [|s0 l] eqn:Hu; cbn [snd].
    + right. split; [|by replace (q * DAY + DAY) with ((q + 1) * DAY) by lia]. intros y Hy Ha.
      eapply filter_nil_none in Hu; [|done]. unfold p in Hu. rewrite Ha in Hu. simpl in Hu.
      by apply Z.ltb_ge in Hu.
    + left. exists (min_start s0 l). apply filter_cons_in in Hu as Hin.
      rewrite Forall_forall in Hin. destruct (min_start_in s0 l) as (z & Hz & Hzm).
      destruct (Hin z Hz) as [Hzin [Hza Hzl]%andb_true_iff]. apply Z.ltb_lt in Hzl.
      split_and!; [done | lia | eauto |]. intros y Hy Ha Hlt. apply min_start_le.
      rewrite <- Hu. apply list_elem_of_In, filter_In. split; [by apply list_elem_of_In|].
      unfold p. rewrite Ha. by apply Z.ltb_lt.
  - left. exists (min_by slot_lt s0 l). split; [apply picked_min_by | done].
Qed.

(** The price is constant from [t] up to the boundary [ob]. *)
Definition constant_until slots t (ob : option wall) : Prop :=
  ∀ t', t <= t' → (∀ b, ob = Some b → t' < b) → slot_rate slots t' = slot_rate slots t.

(** A later wall clock of the same day. *)
Lemma same_day q r t t' :
  t = q * DAY + r → 0 <= r → t <= t' → t' < q * DAY + DAY →
  ∃ r', t' = q * DAY + r' ∧ 0 <= r' < DAY ∧ r / MINUTE <= r' / MINUTE.
Proof.
  intros -> Hr Htt Hlt. exists (t' - q * DAY). split_and!; [lia.. |].
  apply Z.div_le_mono; clock.
Qed.

Section Sound.
Context (slots : list TariffSlot.t) (Hv : ∀ s, s ∈ slots → slot_valid s)
  (t q r : Z) (Ht : t = q * DAY + r) (Hr : 0 <= r < DAY).

Lemma covering_sound m :
  picked (List.filter (covers t) slots) m →
  let b := q * DAY + TariffSlot.end_min m * MINUTE in
  t < b ∧ b <= t + 8 * DAY ∧ constant_until slots t (Some b).
Proof using Hv Ht Hr.
  intros Hm b. pose proof (picked_in _ _ Hm) as Hin.
  apply list_elem_of_In, filter_In in Hin as [Hin%list_elem_of_In Hcov].
  destruct (Hv m Hin) as (Hs & Hse & He).
  destruct (proj1 (covers_day t q r m Ht Hr) Hcov) as (Ha & Hlo & Hhi).
  apply minute_lt in Hhi as Hhi'; [|lia]. split_and!; [clock.. |].
  intros t' Htt Hb. specialize (Hb _ eq_refl).
  destruct (same_day q r t t' Ht) as (r' & Ht' & Hr' & Hmono); [lia.. | clock |].
  rewrite !slot_rate_pick, (proj2 (pick_spec _ _) Hm). f_equal. apply pick_spec.
  apply (picked_filter (covers t)); [done | |].
  - apply (covers_day t' q r'); [done..|]. split_and!; [done | lia |]. apply minute_lt; lia.
  - intros y Hy Hcy Hlt. apply (covers_day t' q r') in Hcy; [|done..].
    apply (covers_day t q r); [done..|]. apply slot_lt_false in Hlt. split_and!; [tauto | lia..].
Qed.

Lemma gap_sound ms :
  (∀ y, y ∈ slots → covers t y = false) → r / MINUTE < ms →
  (∃ y, y ∈ slots ∧ TariffSlot.start_min y = ms) →
  (∀ y, y ∈ slots → active_on ((q + 3) mod 7) y = true →
        r / MINUTE < TariffSlot.start_min y → ms <= TariffSlot.start_min y) →
  let b := q * DAY + ms * MINUTE in
  t < b ∧ b <= t + 8 * DAY ∧ constant_until slots t (Some b).
Proof using Hv Ht Hr.
  intros Hnone Hms (z & Hz & <-) Hmin b. destruct (Hv z Hz) as (Hs & Hse & He).
  apply minute_lt in Hms as Hms'; [|lia]. split_and!; [clock.. |].
  intros t' Htt Hb. specialize (Hb _ eq_refl). rewrite !slot_rate_none; try done.
  intros y Hy. apply not_true_iff_false. intros Hcy.
  destruct (same_day q r t t' Ht) as (r' & Ht' & Hr' & Hmono); [lia.. | clock |].
  destruct (proj1 (covers_day t' q r' y Ht' Hr') Hcy) as (Ha & Hlo & Hhi).
  assert (Hb' : r' / MINUTE < TariffSlot.start_min z) by (apply minute_lt; lia).
  specialize (Hnone y Hy). rewrite <- not_true_iff_false in Hnone. apply Hnone.
  apply (covers_day t q r); [done..|]. specialize (Hmin y Hy Ha).
  destruct (Z.le_gt_cases (TariffSlot.start_min y) (r / MINUTE)); split_and!; [done | lia..].
Qed.

Lemma rollover_sound :
  (∀ y, y ∈ slots → covers t y = false) →
  (∀ y, y ∈ slots → active_on ((q + 3) mod 7) y = true → TariffSlot.start_min y <= r / MINUTE) →
  let ob := next_day_bound 7 slots ((q + 1) * DAY) in
  (∀ b, ob = Some b → t < b ∧ b <= t + 8 * DAY) ∧ constant_until slots t ob.
Proof using Hv Ht Hr.
  intros Hnone Hpast ob. split.
  { intros b (k & ms & Hk & -> & (z & Hz & <-) & _)%next_day_bound_some.
    destruct (Hv z Hz). clock. }
  intros t' Htt Hb. rewrite !slot_rate_none; try done.
  intros y Hy. apply not_true_iff_false. intros Hcy.
  destruct (day_split t') as (q' & r' & Ht' & Hr').
  destruct (proj1 (covers_day t' q' r' y Ht' Hr') Hcy) as (Ha & Hlo & Hhi).
  assert (Hq : q <= q') by clock. destruct (Z.eq_dec q' q) as [Heq|].
  { rewrite Heq in Ha, Ht'. assert (r / MINUTE <= r' / MINUTE) by (apply Z.div_le_mono; clock).
    specialize (Hpast y Hy Ha). specialize (Hnone y Hy).
    rewrite <- not_true_iff_false in Hnone. apply Hnone.
    apply (covers_day t q r); [done..|]. split_and!; [done | lia..]. }
  destruct ob as [b|] eqn:Hn; unfold ob in Hn.
  - apply next_day_bound_some in Hn as (k & ms & Hk & -> & (z & Hz & Hzm) & Hmin & Hgap).
    specialize (Hb _ eq_refl). destruct (Hv z Hz) as (Hs & Hse & He).
    assert (q' <= q + 1 + k) by clock. destruct (Z.eq_dec q' (q + 1 + k)) as [Heq|].
    + rewrite Heq in Ha. specialize (Hmin y Hy Ha).
      assert (r' < ms * MINUTE) as Hr'' by clock. apply minute_lt in Hr''; lia.
    + specialize (Hgap (q' - (q + 1)) y ltac:(lia) Hy).
      replace (q + 1 + (q' - (q + 1)) + 3) with (q' + 3) in Hgap by lia. congruence.
  - set (x := q' - (q + 1)). pose proof (next_day_bound_none _ _ _ Hn (x mod 7) y) as Hno.
    replace (q + 1 + x mod 7 + 3) with (q + 4 + x mod 7) in Hno by lia.
    rewrite Z.add_mod_idemp_r in Hno by lia.
    replace (q + 4 + x) with (q' + 3) in Hno by (unfold x; lia).
    rewrite Hno in Ha; [done | div_facts x 7; lia | done].
Qed.
End Sound.

(** The boundary is sound and tight enough to drive repricing: it lies
    strictly in the future, at most eight days ahead, and until it is reached
    (for ever, when there is none) the slot price does not change. *)
Lemma slot_boundary_sound slots t :
  Forall slot_valid slots →
  let '(rate, boundary) := slot_rate_and_bound slots t in
  (∀ b, boundary = Some b → t < b ∧ b <= t + 8 * DAY) ∧
  (∀ t', t <= t' → (∀ b, boundary = Some b → t' < b) →
         (slot_rate_and_bound slots t').1 = rate).
Proof.
  intros Hv. rewrite Forall_forall in Hv. destruct (day_split t) as (q & r & Ht & Hr).
  pose proof (bound_cases slots t q r Ht Hr) as Hcases. simpl in Hcases.
  pose proof (slot_rate_spec slots t) as Hrate.
  assert (Hgoal : ∀ ob, (∀ b, ob = Some b → t < b ∧ b <= t + 8 * DAY) →
    constant_until slots t ob → (slot_rate_and_bound slots t).2 = ob →
    let '(rate, boundary) := slot_rate_and_bound slots t in
    (∀ b, boundary = Some b → t < b ∧ b <= t + 8 * DAY) ∧
    (∀ t', t <= t' → (∀ b, boundary = Some b → t' < b) →
           (slot_rate_and_bound slots t').1 = rate)).
  { destruct (slot_rate_and_bound slots t) as [rate boundary]. simpl in *.
    intros ob Hb Hc ->. split; [done|]. intros. rewrite slot_rate_spec, Hrate. by apply Hc. }
  destruct Hcases as [(m & Hm & Hb)|[Hnone [(ms & Hb & Hms & Hz & Hmin)|[Hpast Hb]]]];
    apply (Hgoal _) in Hb; auto;
    [ destruct (covering_sound slots Hv t q r Ht Hr m Hm) as (? & ? & ?)
    | destruct (covering_sound slots Hv t q r Ht Hr m Hm) as (? & ? & ?)
    | destruct (gap_sound slots Hv t q r Ht Hr ms Hnone Hms Hz Hmin) as (? & ? & ?)
    | destruct (gap_sound slots Hv t q r Ht Hr ms Hnone Hms Hz Hmin) as (? & ? & ?)
    | apply (rollover_sound slots Hv t q r Ht Hr Hnone Hpast)
    | apply (rollover_sound slots Hv t q r Ht Hr Hnone Hpast) ]; try done; by intros b [= <-].
Qed.

(** [slot_overlaps] is exact: two slots conflict precisely when some minute
    of some weekday belongs to both. *)
Lemma slot_overlaps_exact a b :
  slot_valid a → slot_valid b →
  0 <= TariffSlot.days_mask a < 128 → 0 <= TariffSlot.days_mask b < 128 →
  slot_overlaps (TariffSlot.start_min a) (TariffSlot.end_min a) (TariffSlot.days_mask a)
    (TariffSlot.start_min b) (TariffSlot.end_min b) (TariffSlot.days_mask b) = true ↔
  ∃ t, covers t a = true ∧ covers t b = true.
Proof.
  intros (Ha0 & Ha1 & Ha2) (Hb0 & Hb1 & Hb2) Hma Hmb. unfold slot_overlaps.
  set (mask := Z.land (TariffSlot.days_mask a) (TariffSlot.days_mask b)).
  assert (Hbits : ∀ wd, Z.testbit mask wd = active_on wd a && active_on wd b)
    by (intros; apply Z.land_spec).
  assert (Hm : 0 <= mask) by (apply Z.land_nonneg; lia). split.
  - destruct (Z.eqb_spec mask 0) as [|Hne]; [done|].
    intros [H1 H2]%andb_true_iff. apply Z.ltb_lt in H1, H2.
    assert (Hwd : 0 <= Z.log2 mask < 7).
    { split; [apply Z.log2_nonneg|].
      pose proof (Z.log2_land _ _ (proj1 Hma) (proj1 Hmb)) as Hl.
      pose proof (Z.log2_le_mono (TariffSlot.days_mask a) 127 ltac:(lia)) as Hl'.
      change (Z.log2 127) with 6 in Hl'. unfold mask. lia. }
    pose proof (Z.bit_log2 mask ltac:(lia)) as Hbit. rewrite Hbits in Hbit.
    apply andb_true_iff in Hbit as [HA HB].
    set (m := Z.max (TariffSlot.start_min a) (TariffSlot.start_min b)).
    set (q := Z.log2 mask + 4). set (r := m * MINUTE).
    assert (Hr : 0 <= r < DAY) by (unfold r, m; clock).
    assert (Hw : (q + 3) mod 7 = Z.log2 mask).
    { unfold q. replace (Z.log2 mask + 4 + 3) with (Z.log2 mask + 1 * 7) by lia.
      rewrite Z.mod_add by lia. by apply Z.mod_small. }
    assert (Hmin : r / MINUTE = m) by (unfold r; apply Z.div_mul; clock).
    exists (q * DAY + r). split; apply (covers_day _ q r); try done;
      rewrite Hw, Hmin; unfold m; split_and!; (done || lia).
  - intros (t & HA & HB). destruct (day_split t) as (q & r & Ht & Hr).
    apply (covers_day t q r) in HA as (HA & ? & ?); [|done..].
    apply (covers_day t q r) in HB as (HB & ? & ?); [|done..].
    destruct (Z.eqb_spec mask 0) as [Hz|Hne].
    + specialize (Hbits ((q + 3) mod 7)). rewrite HA, HB, Hz, Z.testbit_0_l in Hbits. done.
    + apply andb_true_iff. split; apply Z.ltb_lt; lia.
Qed.

Definition no_overlap slots : Prop :=
  ForallOrdPairs (λ a b,
    slot_overlaps (TariffSlot.start_min a) (TariffSlot.end_min a) (TariffSlot.days_mask a)
      (TariffSlot.start_min b) (TariffSlot.end_min b) (TariffSlot.days_mask b) = false) slots.

Lemma filter_ord_pairs {A} (R : A → A → Prop) (p : A → bool) l x y k :
  ForallOrdPairs R l → List.filter p l = x :: y :: k → R x y.
Proof.
  intros Hl. revert x y k. induction Hl as [|z l Hz Hl IH]; intros x y k; simpl; [done|].
  destruct (p z); [|apply IH]. intros [= -> Hf]. rewrite List.Forall_forall in Hz.
  apply Hz. assert (In y (List.filter p l)) as Hin by (rewrite Hf; left; done).
  by apply filter_In in Hin as [? _].
Qed.

(** With slots no two of which overlap the price does not
    depend on the order in which the database returns the rows. *)
Theorem slot_rate_order_independent slots slots' t :
  Forall (λ s, slot_valid s ∧ 0 <= TariffSlot.days_mask s < 128) slots →
  no_overlap slots → slots ≡ₚ slots' →
  (slot_rate_and_bound slots t).1 = (slot_rate_and_bound slots' t).1.
Proof.
  intros Hv Hno Hperm. rewrite !slot_rate_spec. unfold slot_rate.
  assert (Hp : List.filter (covers t) slots ≡ₚ List.filter (covers t) slots').
  { clear Hno Hv. induction Hperm as [|x l l' Hp IH|x y l|l l' l'' H1 IH1 H2 IH2]; simpl.
    - done.
    - by destruct (covers t x); rewrite IH.
    - destruct (covers t x), (covers t y); try done. apply perm_swap.
    - by rewrite IH1. }
  destruct (List.filter (covers t) slots) as [|x [|y k]] eqn:Hf.
  - by apply Permutation_nil in Hp as ->.
  - by apply Permutation_singleton_l in Hp as <-.
  - exfalso. pose proof (filter_ord_pairs _ _ _ _ _ _ Hno Hf) as Hxy.
    apply filter_cons_in in Hf. rewrite !Forall_cons, Forall_forall in *.
    destruct Hf as ([Hx Hcx] & [Hy Hcy] & _). simpl in Hxy.
    destruct (Hv x Hx) as [Hvx Hmx], (Hv y Hy) as [Hvy Hmy].
    apply not_true_iff_false in Hxy. apply Hxy, slot_overlaps_exact; eauto.
Qed.
