(* ===== verification/Config.v ===== *)
(** * Environment variables and outside services

    Module-level constants read with [os.getenv], and the services outside the
    repository: the IANA time zone database ([ZoneInfo]) and the MQTT broker's
    answer to a publish.  Every definition that uses one takes the [Config]. *)

From S2P Require Import Prelude Rounding PyNum Money Models.

(** A time zone: the wall clock of an instant and the instant of a wall clock
    (both in microseconds; [fold=0] for an ambiguous wall clock). *)
Record zone := mkzone {
  utc_to_local : datetime → datetime;
  local_to_utc : datetime → datetime }.

(** [timezone.utc], and a zone without daylight saving. *)
Definition utc_zone : zone := mkzone id id.
Definition fixed_zone (offset : Z) : zone := mkzone (λ t, t + offset) (λ t, t - offset).

Inductive plug_action := ON | OFF.
#[export] Instance plug_action_eq_dec : EqDecision plug_action. Proof. solve_decision. Defined.

(** The JSON payloads published under [amphive/gateways/<gateway>/...]. *)
Inductive mqtt_command :=
  | CmdPlug (gateway_id : string) (plug_id : Z) (action : plug_action) (max_duration : Z)
      (max_kwh : float) (session_id : option Z) (local_ip : option string)
      (max_current_a : option float)
  | CmdInterval (gateway_id : string) (plug_id : Z) (interval_ms : Z)
  | CmdLimits (gateway_id : string) (plug_id : Z) (max_kwh : float)
      (max_duration_seconds : Z) (local_ip : string) (max_current_a : option float)
  | CmdRoster (gateway_id : string) (plugs : list (Z * string * option float))
  | CmdOta (gateway_id : string) (plug_id : Z) (url : string).

(** A decimal setting as [Decimal(os.getenv(...))] reads it; a non-finite
    setting is not considered. *)
Inductive setting := Unset | Malformed | Number (d : dec).

Class Config := {
  (* services/telemetry.py *)
  COINS_PER_KWH : float;
  TELEMETRY_STALE_AFTER_SEC : float;
  (* services/pricing.py *)
  AUTO_REPRICE_ACTIVE_SESSIONS : bool;
  (* services/caps.py *)
  DEFAULT_PLUG_CAP_A : float;
  ENFORCE_CIRCUIT_ADMISSION : bool;
  (* services/session_lifecycle.py *)
  GATEWAY_LIVENESS_WINDOW_SEC : Z;
  (* services/session_start.py *)
  MIN_START_BALANCE_COINS : float;
  (* services/mqtt_manager.py *)
  AUTO_STOP_ON_BALANCE_EXHAUSTED : bool;
  LOW_BALANCE_WARN_FRACTION : float;
  AUTO_STOP_ON_LIMITS : bool;
  AUTO_MAINTENANCE_ON_CRITICAL_ALARM : bool;
  PLUG_POWER_STALE_SEC : Z;
  GATEWAY_OFFLINE_NOTIFY_DELAY_SEC : float;
  ORPHAN_ALERT_MIN_POWER_W : float;
  UNMETERED_CONSUMPTION_THRESHOLD_KWH : float;
  UNMETERED_CONSUMPTION_RESET_EPS_KWH : float;
  UNMETERED_ALERT_COOLDOWN_SEC : float;
  UNLIMITED_DURATION_SECONDS : Z;
  UNLIMITED_MAX_KWH : float;
  (* services/mqtt/telemetry.py *)
  MAX_PLAUSIBLE_KWH : float;
  ENERGY_COUNTER_RESET_DROP_KWH : float;
  (* services/mqtt/discovery.py, services/telemetry_persistence.py *)
  MAX_PLUGS_PER_GATEWAY : Z;
  BUFFER_MAX : Z;
  RETENTION_DAYS : Z;
  PRUNE_EVERY_N_FLUSHES : Z;
  (* services/reservations.py; the [timedelta] of each setting *)
  RESERVATION_MAX_LENGTH : Z;
  RESERVATION_MAX_ADVANCE : Z;
  MAX_UPCOMING_RESERVATIONS_PER_USER : Z;
  RESERVATION_NO_SHOW_GRACE : Z;
  RESERVATION_WALKUP_WARN_LOOKAHEAD : Z;
  (* services/session_reaper.py *)
  STALE_TIMEOUT : Z;
  FORCE_STOP_WALKUP_ON_RESERVATION : bool;
  (* routers/sessions.py *)
  MAX_ACTIVE_SESSIONS_PER_USER : Z;
  MAX_QUEUED_CHARGES_PER_USER : Z;
  (* routers/notifications.py *)
  MAX_PUSH_SUBSCRIPTIONS_PER_USER : Z;
  (* services/payouts.py, services/invoices.py, services/payments.py *)
  PLATFORM_FEE_PCT : setting;
  GST_RATE_PCT : setting;
  COINS_PER_RUPEE : float;
  (* services/auth.py, routers/auth.py; the [timedelta] of each setting *)
  JWT_EXPIRY : Z;
  RESET_TOKEN_TTL : Z;
  EMAIL_VERIFICATION_TTL : Z;
  (* [ZoneInfo(name)]: [None] when it raises. *)
  zoneinfo : string → option zone;
  (* Whether the broker client accepts a publish. *)
  mqtt_ack : mqtt_command → bool }.

(** The defaults of the environment variables, with a database that knows the
    default zone only and a broker that accepts everything. *)
Definition default_config : Config := {|
  COINS_PER_KWH := flit 5 1;
  TELEMETRY_STALE_AFTER_SEC := flit 15 1;
  AUTO_REPRICE_ACTIVE_SESSIONS := true;
  DEFAULT_PLUG_CAP_A := flit 16 1;
  ENFORCE_CIRCUIT_ADMISSION := true;
  GATEWAY_LIVENESS_WINDOW_SEC := 120;
  MIN_START_BALANCE_COINS := flit 50 1;
  AUTO_STOP_ON_BALANCE_EXHAUSTED := true;
  LOW_BALANCE_WARN_FRACTION := flit 8 10;
  AUTO_STOP_ON_LIMITS := true;
  AUTO_MAINTENANCE_ON_CRITICAL_ALARM := true;
  PLUG_POWER_STALE_SEC := 90;
  GATEWAY_OFFLINE_NOTIFY_DELAY_SEC := flit 120 1;
  ORPHAN_ALERT_MIN_POWER_W := flit 5 1;
  UNMETERED_CONSUMPTION_THRESHOLD_KWH := flit 1 100;
  UNMETERED_CONSUMPTION_RESET_EPS_KWH := flit 1 1000;
  UNMETERED_ALERT_COOLDOWN_SEC := flit 300 1;
  UNLIMITED_DURATION_SECONDS := 10 * 365 * 24 * 3600;
  UNLIMITED_MAX_KWH := flit 999999 1;
  MAX_PLAUSIBLE_KWH := flit 1000 1;
  ENERGY_COUNTER_RESET_DROP_KWH := flit 5 1000;
  MAX_PLUGS_PER_GATEWAY := 64;
  BUFFER_MAX := 10000;
  RETENTION_DAYS := 0;
  PRUNE_EVERY_N_FLUSHES := 360;
  RESERVATION_MAX_LENGTH := minutes 240;
  RESERVATION_MAX_ADVANCE := days 7;
  MAX_UPCOMING_RESERVATIONS_PER_USER := 2;
  RESERVATION_NO_SHOW_GRACE := minutes 15;
  RESERVATION_WALKUP_WARN_LOOKAHEAD := minutes 180;
  STALE_TIMEOUT := seconds 300;
  FORCE_STOP_WALKUP_ON_RESERVATION := true;
  MAX_ACTIVE_SESSIONS_PER_USER := 2;
  MAX_QUEUED_CHARGES_PER_USER := 2;
  MAX_PUSH_SUBSCRIPTIONS_PER_USER := 20;
  PLATFORM_FEE_PCT := Unset;
  GST_RATE_PCT := Unset;
  COINS_PER_RUPEE := flit 1 1;
  JWT_EXPIRY := days 7;
  RESET_TOKEN_TTL := minutes 30;
  EMAIL_VERIFICATION_TTL := minutes 1440;
  zoneinfo := λ name, if String.eqb name "Asia/Kolkata" then Some (fixed_zone (minutes 330)) else None;
  mqtt_ack := λ _, true |}.

(** The same environment with another broker. *)
Definition with_ack (c : Config) (ack : mqtt_command → bool) : Config := {|
  COINS_PER_KWH := COINS_PER_KWH; TELEMETRY_STALE_AFTER_SEC := TELEMETRY_STALE_AFTER_SEC;
  AUTO_REPRICE_ACTIVE_SESSIONS := AUTO_REPRICE_ACTIVE_SESSIONS;
  DEFAULT_PLUG_CAP_A := DEFAULT_PLUG_CAP_A;
  ENFORCE_CIRCUIT_ADMISSION := ENFORCE_CIRCUIT_ADMISSION;
  GATEWAY_LIVENESS_WINDOW_SEC := GATEWAY_LIVENESS_WINDOW_SEC;
  MIN_START_BALANCE_COINS := MIN_START_BALANCE_COINS;
  AUTO_STOP_ON_BALANCE_EXHAUSTED := AUTO_STOP_ON_BALANCE_EXHAUSTED;
  LOW_BALANCE_WARN_FRACTION := LOW_BALANCE_WARN_FRACTION;
  AUTO_STOP_ON_LIMITS := AUTO_STOP_ON_LIMITS;
  AUTO_MAINTENANCE_ON_CRITICAL_ALARM := AUTO_MAINTENANCE_ON_CRITICAL_ALARM;
  PLUG_POWER_STALE_SEC := PLUG_POWER_STALE_SEC;
  GATEWAY_OFFLINE_NOTIFY_DELAY_SEC := GATEWAY_OFFLINE_NOTIFY_DELAY_SEC;
  ORPHAN_ALERT_MIN_POWER_W := ORPHAN_ALERT_MIN_POWER_W;
  UNMETERED_CONSUMPTION_THRESHOLD_KWH := UNMETERED_CONSUMPTION_THRESHOLD_KWH;
  UNMETERED_CONSUMPTION_RESET_EPS_KWH := UNMETERED_CONSUMPTION_RESET_EPS_KWH;
  UNMETERED_ALERT_COOLDOWN_SEC := UNMETERED_ALERT_COOLDOWN_SEC;
  UNLIMITED_DURATION_SECONDS := UNLIMITED_DURATION_SECONDS;
  UNLIMITED_MAX_KWH := UNLIMITED_MAX_KWH; MAX_PLAUSIBLE_KWH := MAX_PLAUSIBLE_KWH;
  ENERGY_COUNTER_RESET_DROP_KWH := ENERGY_COUNTER_RESET_DROP_KWH;
  MAX_PLUGS_PER_GATEWAY := MAX_PLUGS_PER_GATEWAY; BUFFER_MAX := BUFFER_MAX;
  RETENTION_DAYS := RETENTION_DAYS; PRUNE_EVERY_N_FLUSHES := PRUNE_EVERY_N_FLUSHES;
  RESERVATION_MAX_LENGTH := RESERVATION_MAX_LENGTH;
  RESERVATION_MAX_ADVANCE := RESERVATION_MAX_ADVANCE;
  MAX_UPCOMING_RESERVATIONS_PER_USER := MAX_UPCOMING_RESERVATIONS_PER_USER;
  RESERVATION_NO_SHOW_GRACE := RESERVATION_NO_SHOW_GRACE;
  RESERVATION_WALKUP_WARN_LOOKAHEAD := RESERVATION_WALKUP_WARN_LOOKAHEAD;
  STALE_TIMEOUT := STALE_TIMEOUT;
  FORCE_STOP_WALKUP_ON_RESERVATION := FORCE_STOP_WALKUP_ON_RESERVATION;
  MAX_ACTIVE_SESSIONS_PER_USER := MAX_ACTIVE_SESSIONS_PER_USER;
  MAX_QUEUED_CHARGES_PER_USER := MAX_QUEUED_CHARGES_PER_USER;
  MAX_PUSH_SUBSCRIPTIONS_PER_USER := MAX_PUSH_SUBSCRIPTIONS_PER_USER;
  PLATFORM_FEE_PCT := PLATFORM_FEE_PCT; GST_RATE_PCT := GST_RATE_PCT;
  COINS_PER_RUPEE := COINS_PER_RUPEE; JWT_EXPIRY := JWT_EXPIRY;
  RESET_TOKEN_TTL := RESET_TOKEN_TTL; EMAIL_VERIFICATION_TTL := EMAIL_VERIFICATION_TTL;
  zoneinfo := zoneinfo; mqtt_ack := ack |}.
