(* ===== verification/PyString.v ===== *)
(** * Python strings

    [str.strip] and [str.lower]; strings are byte strings, case and white space
    are those of ASCII. *)

From stdpp Require Import strings.
From Stdlib Require Import Ascii.
From S2P Require Import Prelude.

Definition lower_ascii (c : ascii) : ascii :=
  let n := Ascii.nat_of_ascii c in
  if (65 <=? n)%nat && (n <=? 90)%nat then Ascii.ascii_of_nat (n + 32) else c.

Fixpoint lower (s : string) : string :=
  match s with EmptyString => EmptyString | String c s => String (lower_ascii c) (lower s) end.

Definition is_space (c : ascii) : bool :=
  let n := Ascii.nat_of_ascii c in
  ((9 <=? n)%nat && (n <=? 13)%nat) || ((28 <=? n)%nat && (n <=? 32)%nat).

Fixpoint lstrip (s : string) : string :=
  match s with
  | String c s' => if is_space c then lstrip s' else s
  | EmptyString => EmptyString
  end.

Definition strip (s : string) : string := String.rev (lstrip (String.rev (lstrip s))).

Definition upper_ascii (c : ascii) : ascii :=
  let n := Ascii.nat_of_ascii c in
  if (97 <=? n)%nat && (n <=? 122)%nat then Ascii.ascii_of_nat (n - 32) else c.

Fixpoint upper (s : string) : string :=
  match s with EmptyString => EmptyString | String c s => String (upper_ascii c) (upper s) end.

(** [s.replace(c, "")]. *)
Fixpoint remove_char (c : ascii) (s : string) : string :=
  match s with
  | EmptyString => EmptyString
  | String a s => if Ascii.eqb a c then remove_char c s else String a (remove_char c s)
  end.

(** [len(s)]: characters of UTF-8, as a VARCHAR counts them too; the bytes that
    continue a character are not counted. *)
Definition continuation (c : ascii) : bool :=
  let n := Ascii.nat_of_ascii c in (128 <=? n)%nat && (n <? 192)%nat.

Fixpoint str_len (s : string) : Z :=
  match s with
  | EmptyString => 0
  | String c s => if continuation c then str_len s else 1 + str_len s
  end.

Lemma str_len_nonneg s : 0 <= str_len s.
Proof. induction s as [|c s IH]; simpl; [lia|]. destruct (continuation c); lia. Qed.

Lemma str_len_bytes s : str_len s <= Z.of_nat (String.length s).
Proof. induction s as [|c s IH]; cbn [str_len String.length]; [lia|]. destruct (continuation c); lia. Qed.

Lemma str_len_app s t : str_len (s +:+ t) = str_len s + str_len t.
Proof.
  induction s as [|c s IH]; [done|]. change (String c s +:+ t) with (String c (s +:+ t)). cbn [str_len].
  destruct (continuation c); lia.
Qed.

(** [s[:n]]: the bytes that continue a character go with it. *)
Fixpoint str_take (n : nat) (s : string) : string :=
  match s with
  | EmptyString => EmptyString
  | String c s =>
      if continuation c then String c (str_take n s)
      else match n with O => EmptyString | S n => String c (str_take n s) end
  end.

(** A slice has at most so many characters, and a text that short is its own slice. *)
Lemma str_len_take n s : str_len (str_take n s) <= Z.of_nat n.
Proof.
  revert n. induction s as [|c s IH]; intros n; [simpl; lia|]. cbn [str_take]. destruct (continuation c) eqn:Hc.
  - cbn [str_len]. rewrite Hc. apply IH.
  - destruct n as [|n]; cbn [str_len]; [lia|]. rewrite Hc. specialize (IH n). lia.
Qed.

Lemma str_take_all n s : str_len s <= Z.of_nat n → str_take n s = s.
Proof.
  revert n. induction s as [|c s IH]; intros n Hn; [done|]. cbn [str_take str_len] in *.
  destruct (continuation c); [by rewrite IH|]. pose proof (str_len_nonneg s).
  destruct n as [|n]; [lia|]. rewrite IH; [done|lia].
Qed.

Example str_take_euros :
  str_take 2 "a€b" = "a€"%string ∧ str_take 3 "€" = "€"%string ∧ str_take 0 "x" = ""%string.
Proof. by vm_compute. Qed.

(** White space has no continuation bytes, and stripping adds nothing. *)
Lemma str_len_rev s : str_len (String.rev s) = str_len s.
Proof.
  assert (H : ∀ s t, str_len (String.rev_app s t) = str_len s + str_len t).
  { clear s. induction s as [|c s IH]; intros t; simpl; [lia|]. rewrite IH. simpl. destruct (continuation c); lia. }
  unfold String.rev. rewrite H. simpl. lia.
Qed.

Lemma str_len_lstrip s : str_len (lstrip s) <= str_len s.
Proof.
  induction s as [|c s IH]; simpl; [lia|]. destruct (is_space c); [destruct (continuation c); lia|].
  cbn [str_len]. lia.
Qed.

Lemma str_len_strip s : str_len (strip s) <= str_len s.
Proof.
  unfold strip. rewrite str_len_rev. etrans; [apply str_len_lstrip|]. rewrite str_len_rev. apply str_len_lstrip.
Qed.
