(* ===== verification/RateLimit.v ===== *)
(** * services/rate_limit.py: sliding windows and the client's address

    A limiter keeps, per key, the times of the attempts it allowed; times come
    from a monotonic clock in seconds.  [_rule_from_env] admits limits of at least
    one attempt only; it and the dependencies of the routes are in RateRules.v. *)

From stdpp Require Import strings.
From Stdlib Require Import Ascii Sorted.
From S2P Require Import Prelude Rounding PyNum Money Models PyString.

Record limiter := mklimiter {
  max_attempts : Z;
  window_sec : float;
  hits : gmap string (list float);
  last_sweep : float }.

#[export] Instance eta_limiter : Eta limiter := fun r =>
  mklimiter (max_attempts r) (window_sec r) (hits r) (last_sweep r).

Definition new_limiter (attempts : Z) (window now : float) : limiter :=
  mklimiter attempts window ∅ now.

(** [IndexError]: a limit of no attempts at all. *)
Inductive verdict := Allowed | Blocked (retry_after : float) | NoAttempts.

Implicit Types (l : limiter) (key : string) (now cutoff : float) (dq : list float).

(** [while dq and dq[0] <= cutoff: dq.popleft()] *)
Fixpoint prune cutoff dq : list float :=
  match dq with
  | h :: dq' => if h <=? cutoff then prune cutoff dq' else dq
  | [] => []
  end.

Definition maybe_sweep now l : limiter :=
  if fsub now (last_sweep l) <? window_sec l then l
  else
    let cutoff := fsub now (window_sec l) in
    l <| last_sweep := now |>
      <| hits ::= omap (λ dq, match prune cutoff dq with [] => None | dq => Some dq end) |>.

Definition check key now l : verdict * limiter :=
  let cutoff := fsub now (window_sec l) in
  let dq := prune cutoff (default [] (hits l !! key)) in
  if max_attempts l <=? Z.of_nat (length dq) then
    (match dq with
     | h :: _ => Blocked (fsub (fadd h (window_sec l)) now)
     | [] => NoAttempts
     end, l <| hits ::= <[key := dq]> |>)
  else (Allowed, maybe_sweep now (l <| hits ::= <[key := dq ++ [now]]> |>)).

Definition record_failure key now l : verdict * limiter := check key now l.
Definition reset key l : limiter := l <| hits ::= delete key |>.

(** ** The client's address *)

Fixpoint split_comma (s : string) : list string :=
  match s with
  | EmptyString => [""%string]
  | String c s =>
      if Ascii.eqb c "," then ""%string :: split_comma s
      else match split_comma s with
           | x :: l => String c x :: l
           | [] => [String c ""]
           end
  end.

Definition forwarded_chain (forwarded_for : string) : list string :=
  List.filter (λ p, negb (String.eqb p "")) (map strip (split_comma forwarded_for)).

(** [hops]: what [_trusted_proxy_hops] returns, at least 1. *)
Definition client_ip_from_forwarded (hops : nat) (forwarded_for : string) (peer : option string)
    : string :=
  let chain := forwarded_chain forwarded_for in
  if (hops <=? length chain)%nat then nth (length chain - hops) chain ""
  else match peer with
       | Some p => if String.eqb p "" then "unknown" else p
       | None => "unknown"
       end.

(** ** The limiter is a count of attempts in a window *)

Inductive call := Check (key : string) (now : float) | Reset (key : string).

(** What a limiter answers to a run of calls, and the limiter it leaves. *)
Fixpoint run_limiter l (calls : list call) : list bool * limiter :=
  match calls with
  | [] => ([], l)
  | Check key now :: calls =>
      let '(v, l) := check key now l in
      let '(vs, l) := run_limiter l calls in
      (match v with Allowed => true | _ => false end :: vs, l)
  | Reset key :: calls => run_limiter (reset key l) calls
  end.

(** The specification: every attempt allowed so far, since the last reset of its
    key; an attempt is allowed when fewer than the limit lie in the window. *)
Definition log := list (string * float).

Definition in_window (window : float) key now (a : string * float) : bool :=
  String.eqb a.1 key && (fsub now window <? a.2).
Definition attempts (window : float) key now (g : log) : Z :=
  Z.of_nat (length (List.filter (in_window window key now) g)).

Fixpoint run_spec (limit : Z) (window : float) (g : log) (calls : list call) : list bool * log :=
  match calls with
  | [] => ([], g)
  | Check key now :: calls =>
      let ok := attempts window key now g <? limit in
      let '(vs, g) := run_spec limit window (if ok then g ++ [(key, now)] else g) calls in
      (ok :: vs, g)
  | Reset key :: calls =>
      run_spec limit window (List.filter (λ a, negb (String.eqb a.1 key)) g) calls
  end.

(** The clock does not go back. *)
Fixpoint forward (start : float) (calls : list call) : Prop :=
  match calls with
  | [] => True
  | Check _ now :: calls => start <= now ∧ forward now calls
  | Reset _ :: calls => forward start calls
  end.

Definition ends (start : float) (calls : list call) : float :=
  foldl (λ t c, match c with Check _ now => now | Reset _ => t end) start calls.

(** The kept times of a key. *)
Definition kept key l : list float := default [] (hits l !! key).
Definition times key (g : log) : list float := map snd (List.filter (λ a, String.eqb a.1 key) g).

(** Above the cutoff of [start] nothing is missing and all is in order. *)
Record agrees start l (g : log) : Prop := {
  ag_sorted : ∀ key, StronglySorted Z.le (kept key l);
  ag_bound : ∀ key h, h ∈ kept key l → h <= start;
  ag_same : ∀ key cutoff, fsub start (window_sec l) <= cutoff →
    List.filter (λ h, cutoff <? h) (kept key l) = List.filter (λ h, cutoff <? h) (times key g) }.

Definition above cutoff (l : list float) : list float := List.filter (λ h, cutoff <? h) l.

Lemma above_above c c' (l : list float) : c <= c' → above c' (above c l) = above c' l.
Proof.
  intros Hc. unfold above. induction l as [|h l IH]; [done|]. simpl.
  destruct (Z.ltb_spec c h); simpl; rewrite IH; [done|].
  rewrite (proj2 (Z.ltb_ge _ _)) by lia. done.
Qed.

Lemma prune_above c dq : StronglySorted Z.le dq → prune c dq = above c dq.
Proof.
  induction 1 as [|h dq Hs IH Hall]; [done|]. simpl. destruct (Z.leb_spec h c) as [Hle|Hlt].
  - rewrite (proj2 (Z.ltb_ge _ _)) by lia. done.
  - rewrite (proj2 (Z.ltb_lt _ _)) by lia. f_equal. symmetry.
    assert (Hb : ∀ x, In x dq → h <= x) by (by apply List.Forall_forall).
    clear -Hb Hlt. unfold above. induction dq as [|x dq IH]; [done|]. simpl.
    rewrite (proj2 (Z.ltb_lt _ _)); [|specialize (Hb x (or_introl eq_refl)); lia].
    f_equal. apply IH. intros y Hy. apply Hb. by right.
Qed.

Lemma above_sorted c (l : list float) : StronglySorted Z.le l → StronglySorted Z.le (above c l).
Proof.
  induction 1 as [|h l Hs IH Hall]; [constructor|]. simpl. destruct (c <? h); [|done].
  constructor; [done|]. apply List.Forall_forall. intros x [Hx _]%filter_In.
  by eapply List.Forall_forall in Hall.
Qed.

Lemma sorted_snoc (l : list float) x : StronglySorted Z.le l → (∀ h, h ∈ l → h <= x) → StronglySorted Z.le (l ++ [x]).
Proof.
  induction 1 as [|h l Hs IH Hall]; intros Hb; simpl; [by repeat constructor|].
  constructor; [apply IH; intros; apply Hb; by right|]. apply List.Forall_app. split; [done|].
  constructor; [|done]. apply Hb. left.
Qed.

Lemma above_app c (l k : list float) : above c (l ++ k) = above c l ++ above c k.
Proof. apply List.filter_app. Qed.

Lemma elem_above c (l : list float) h : h ∈ above c l → h ∈ l.
Proof. unfold above. rewrite !list_elem_of_In. by intros [? _]%filter_In. Qed.

Lemma times_app key g g' : times key (g ++ g') = times key g ++ times key g'.
Proof. unfold times. by rewrite List.filter_app, map_app. Qed.

Lemma attempts_times window key now g :
  attempts window key now g = Z.of_nat (length (above (fsub now window) (times key g))).
Proof.
  unfold attempts, times, above. f_equal. induction g as [|[k h] g IH]; [done|]. simpl.
  unfold in_window at 1. simpl. destruct (String.eqb k key); simpl; [|done].
  destruct (_ <? h); simpl; by rewrite IH.
Qed.

(** Dropping what is below a cutoff that only moves up changes nothing. *)
Lemma agrees_kept start start' l l' g :
  agrees start l g → start <= start' → window_sec l' = window_sec l →
  (∀ key, kept key l' = kept key l ∨ kept key l' = above (fsub start' (window_sec l)) (kept key l)) →
  agrees start' l' g.
Proof.
  intros [Hs Hb Hsame] Hle Hw Hk.
  pose proof (fsub_mono start start' (window_sec l) (window_sec l) Hle ltac:(lia)) as Hc.
  split; intros key.
  - destruct (Hk key) as [-> | ->]; [done | by apply above_sorted].
  - intros h. destruct (Hk key) as [-> | ->]; intros Hh; [|apply elem_above in Hh];
      specialize (Hb _ _ Hh); lia.
  - rewrite Hw. intros c Hcut. destruct (Hk key) as [-> | ->].
    + apply Hsame. lia.
    + rewrite <- (Hsame key c) by lia. by apply above_above.
Qed.

Lemma agrees_sweep start l g : agrees start l g → agrees start (maybe_sweep start l) g.
Proof.
  intros Hag. unfold maybe_sweep. case_match; [done|].
  apply (agrees_kept start start l); [done | lia | done |]. intros key. right.
  unfold kept. simpl. rewrite lookup_omap. pose proof (ag_sorted _ _ _ Hag key) as Hs. unfold kept in Hs.
  destruct (hits l !! key) as [dq|]; simpl in *; [|done]. rewrite <- prune_above by done.
  by destruct (prune _ dq).
Qed.

Lemma agrees_check start key now l g :
  agrees start l g → start <= now →
  let ok := attempts (window_sec l) key now g <? max_attempts l in
  let '(v, l') := check key now l in
  (match v with Allowed => true | _ => false end) = ok ∧
  agrees now l' (if ok then g ++ [(key, now)] else g) ∧
  max_attempts l' = max_attempts l ∧ window_sec l' = window_sec l.
Proof.
  intros Hag Hle. pose proof (fsub_mono start now (window_sec l) (window_sec l) Hle ltac:(lia)) as Hc.
  pose proof Hag as [Hs Hb Hsame]. set (c := fsub now (window_sec l)) in *.
  assert (Hk : above c (kept key l) = above c (times key g)) by (by apply Hsame).
  unfold check. fold (kept key l) c. rewrite (prune_above _ _ (Hs key)), attempts_times. fold c.
  rewrite <- Hk. set (dq := above c (kept key l)) in *. cbv zeta.
  destruct (Z.leb_spec (max_attempts l) (Z.of_nat (length dq))) as [Hfull|Hroom].
  - rewrite (proj2 (Z.ltb_ge _ _)) by lia. split; [by destruct dq|]. split; [|done].
    apply (agrees_kept start now l); [done..|]. intros k. unfold kept. simpl.
    destruct (decide (key = k)) as [<-|Hne]; [right; by rewrite lookup_insert_eq |].
    left. by rewrite lookup_insert_ne.
  - rewrite (proj2 (Z.ltb_lt _ _)) by lia. split; [done|]. split.
    + apply agrees_sweep. split; intros k; unfold kept; simpl.
      * destruct (decide (key = k)) as [<-|Hne]; [rewrite lookup_insert_eq | rewrite lookup_insert_ne by done; apply Hs].
        apply sorted_snoc; [by apply above_sorted|]. intros h Hh%elem_above. specialize (Hb _ _ Hh). lia.
      * intros h. destruct (decide (key = k)) as [<-|Hne];
          [rewrite lookup_insert_eq | rewrite lookup_insert_ne by done].
        -- simpl. rewrite elem_of_app. intros [Hh%elem_above|Hh%list_elem_of_singleton]; [|lia].
           specialize (Hb _ _ Hh). lia.
        -- intros Hh. specialize (Hb k h Hh). lia.
      * intros c' Hc'. fold (above c' (times k (g ++ [(key, now)]))). rewrite times_app, above_app.
        destruct (decide (key = k)) as [<-|Hne].
        -- rewrite lookup_insert_eq. simpl. change (List.filter _ (dq ++ [now])) with (above c' (dq ++ [now])).
           rewrite above_app. f_equal; [|unfold times; simpl; by rewrite String.eqb_refl].
           unfold dq. rewrite above_above by done. apply Hsame. fold c. lia.
        -- rewrite lookup_insert_ne by done. fold (kept k l).
           apply String.eqb_neq in Hne. unfold times at 2. simpl. rewrite Hne. simpl. rewrite app_nil_r.
           apply Hsame. lia.
    + unfold maybe_sweep. case_match; by split.
Qed.

Lemma agrees_reset start key l g :
  agrees start l g →
  agrees start (reset key l) (List.filter (λ a, negb (String.eqb a.1 key)) g).
Proof.
  assert (Ht : ∀ k, times k (List.filter (λ a, negb (String.eqb a.1 key)) g) =
    if decide (key = k) then [] else times k g).
  { intros k. unfold times. induction g as [|[k' h] g IH]; simpl; [by case_decide|].
    destruct (String.eqb_spec k' key) as [->|Hn]; simpl.
    - rewrite IH. case_decide as Hk; [done|]. by rewrite (proj2 (String.eqb_neq _ _)).
    - destruct (String.eqb_spec k' k) as [->|]; simpl; rewrite IH; case_decide; congruence. }
  intros [Hs Hb Hsame]. split; intros k; rewrite ?Ht; unfold kept; simpl;
    (destruct (decide (key = k)) as [<-|Hne];
      [rewrite lookup_delete_eq | rewrite lookup_delete_ne by done]); simpl.
  - constructor.
  - apply Hs.
  - intros h Hh. by apply not_elem_of_nil in Hh.
  - apply Hb.
  - done.
  - apply Hsame.
Qed.

Lemma run_agrees calls start l g :
  agrees start l g → forward start calls →
  let '(vs, l') := run_limiter l calls in
  let '(ws, g') := run_spec (max_attempts l) (window_sec l) g calls in
  vs = ws ∧ agrees (ends start calls) l' g'.
Proof.
  revert start l g. induction calls as [|[key now|key] calls IH]; intros start l g Hag Hf; simpl in *.
  - done.
  - destruct Hf as [Hle Hf]. pose proof (agrees_check start key now l g Hag Hle) as H.
    destruct (check key now l) as [v l1]. destruct H as (Hv & Hag1 & Hm & Hw).
    specialize (IH now l1 _ Hag1 Hf). rewrite Hm, Hw in IH.
    destruct (run_limiter l1 calls) as [vs l']. destruct (run_spec _ _ _ calls) as [ws g'].
    destruct IH as [-> ?]. split; [|done]. by rewrite Hv.
  - apply (IH start (reset key l)); [by apply agrees_reset | done].
Qed.

(** ** The bound *)

Lemma attempts_antitone window key now now' g :
  now <= now' → attempts window key now' g <= attempts window key now g.
Proof.
  intros Hle. rewrite !attempts_times. pose proof (fsub_mono now now' window window Hle ltac:(lia)) as Hc.
  rewrite <- (above_above _ _ (times key g) Hc). unfold above at 1.
  apply inj_le, filter_length_le.
Qed.

Lemma attempts_app window key now g g' :
  attempts window key now (g ++ g') = attempts window key now g + attempts window key now g'.
Proof. unfold attempts. rewrite List.filter_app, length_app. lia. Qed.

Lemma attempts_filter window key now p g :
  attempts window key now (List.filter p g) <= attempts window key now g.
Proof.
  unfold attempts. apply inj_le. induction g as [|a g IH]; [done|]. simpl.
  destruct (p a); simpl; destruct (in_window _ _ _ a); simpl; lia.
Qed.

Lemma spec_bounded limit window calls start g :
  1 <= limit → forward start calls →
  (∀ key now, start <= now → attempts window key now g <= limit) →
  let g' := (run_spec limit window g calls).2 in
  ∀ key now, ends start calls <= now → attempts window key now g' <= limit.
Proof.
  intros Hl. revert start g. induction calls as [|[key now|key] calls IH]; intros start g Hf Hb; simpl in *.
  - done.
  - destruct Hf as [Hle Hf]. set (ok := attempts window key now g <? limit).
    specialize (IH now (if ok then g ++ [(key, now)] else g) Hf).
    destruct (run_spec limit window _ calls) as [ws g']. simpl in *. apply IH.
    intros k t Ht. destruct ok eqn:Hok; [|apply Hb; lia]. unfold ok in Hok. apply Z.ltb_lt in Hok.
    rewrite attempts_app. destruct (String.eqb_spec key k) as [->|Hne].
    + pose proof (attempts_antitone window k now t g Ht).
      assert (attempts window k t [(k, now)] <= 1) by (unfold attempts; simpl; case_match; simpl; lia). lia.
    + assert (attempts window k t [(key, now)] = 0) as ->.
      { unfold attempts, in_window. simpl. by rewrite (proj2 (String.eqb_neq _ _)). }
      specialize (Hb k t). lia.
  - apply IH; [done|]. intros k t Ht. pose proof (attempts_filter window k t (λ a, negb (String.eqb a.1 key)) g).
    specialize (Hb k t Ht). lia.
Qed.

(** C26: the limiter, which forgets what is old and sweeps idle keys away, answers
    every run of calls exactly as the specification that remembers every allowed
    attempt; so, since the last reset of a key, no window ever holds more allowed
    attempts than the limit, and a refused attempt has no effect on later ones. *)
Theorem limiter_refines attempts_limit window start calls :
  1 <= attempts_limit → forward start calls →
  let '(allowed, _) := run_limiter (new_limiter attempts_limit window start) calls in
  let '(spec_allowed, g) := run_spec attempts_limit window [] calls in
  allowed = spec_allowed ∧
  ∀ key now, ends start calls <= now → attempts window key now g <= attempts_limit.
Proof.
  intros Hl Hf.
  assert (H0 : agrees start (new_limiter attempts_limit window start) []).
  { split; intros key; unfold kept; simpl; rewrite lookup_empty; simpl; [constructor | | done].
    intros h Hh. by apply not_elem_of_nil in Hh. }
  pose proof (run_agrees calls start _ _ H0 Hf) as H. simpl in H.
  pose proof (spec_bounded attempts_limit window calls start [] Hl Hf) as Hb. simpl in Hb.
  destruct (run_limiter _ calls) as [vs l']. destruct (run_spec _ _ _ calls) as [ws g']. simpl in Hb.
  split; [apply H|]. apply Hb. intros key now _. unfold attempts. simpl. lia.
Qed.

(** ** The client cannot choose its address *)

Lemma split_comma_app (a b : string) :
  split_comma (a +:+ "," +:+ b) = split_comma a ++ split_comma b.
Proof.
  induction a as [|c a IH]; [done|].
  change (split_comma (String c (a +:+ "," +:+ b)) = split_comma (String c a) ++ split_comma b).
  simpl. rewrite IH. destruct (Ascii.eqb c ","); [done|]. destruct (split_comma a) eqn:Ha; [|done].
  destruct a; simpl in Ha; [done|]. repeat case_match; done.
Qed.

(** Whatever a client writes in front of what the trusted proxies append, the
    address it is limited by is the one they saw. *)
Theorem client_ip_unspoofable hops (spoofed appended : string) peer :
  (hops <= length (forwarded_chain appended))%nat →
  client_ip_from_forwarded hops (spoofed +:+ "," +:+ appended) peer =
  client_ip_from_forwarded hops appended peer.
Proof.
  intros Hh. unfold client_ip_from_forwarded.
  assert (Hc : forwarded_chain (spoofed +:+ "," +:+ appended) =
    forwarded_chain spoofed ++ forwarded_chain appended).
  { unfold forwarded_chain. by rewrite split_comma_app, map_app, List.filter_app. }
  rewrite Hc, length_app. set (s := forwarded_chain spoofed). set (t := forwarded_chain appended) in *.
  rewrite (proj2 (Nat.leb_le hops (length t))) by done.
  rewrite (proj2 (Nat.leb_le _ _)) by lia.
  replace (length s + length t - hops)%nat with (length s + (length t - hops))%nat by lia.
  apply app_nth2_plus.
Qed.
