(* ===== verification/Billing.v ===== *)
(** * services/billing.py: segmented billing

    A session accrues cost in segments: [settled_cost_coins] is the frozen cost
    of the closed ones, the open one starts at [rate_segment_start_kwh] and is
    priced at [rate_coins_per_kwh].  The reference is [itemised]: the sum of the
    cost of every segment, each at its own rate. *)

From S2P Require Import Prelude Rounding PyNum Money Models Config.

Section Billing.
Context `{cfg : Config}.
Implicit Types (s : ChargingSession.t) (e : float) (r : money).

Definition current_rate s : pynum :=
  match ChargingSession.rate_coins_per_kwh s with
  | Some rate => PDec (dec_of_money rate)
  | None => PFloat COINS_PER_KWH
  end.

Definition session_cost s (energy_kwh : float) : money :=
  match ChargingSession.rate_segment_start_kwh s with
  | None => energy_cost energy_kwh (current_rate s)
  | Some segment_start =>
      let settled := default ZERO_MONEY (ChargingSession.settled_cost_coins s) in
      let open_energy := Z.max 0 (fsub energy_kwh segment_start) in
      to_money_amount (settled + energy_cost open_energy (current_rate s))
  end.

Definition close_out_segment s (new_rate : money) (at_energy : float)
    (valid_until : option datetime) : ChargingSession.t :=
  let s := match ChargingSession.rate_segment_start_kwh s with
           | None => s <| ChargingSession.settled_cost_coins := Some ZERO_MONEY |>
                       <| ChargingSession.rate_segment_start_kwh := Some 0 |>
           | Some _ => s
           end in
  let segment_start := default 0 (ChargingSession.rate_segment_start_kwh s) in
  let settled := default ZERO_MONEY (ChargingSession.settled_cost_coins s) in
  let accrued := energy_cost (Z.max 0 (fsub at_energy segment_start)) (current_rate s) in
  s <| ChargingSession.settled_cost_coins := Some (to_money_amount (settled + accrued)) |>
    <| ChargingSession.rate_segment_start_kwh := Some at_energy |>
    <| ChargingSession.rate_coins_per_kwh := Some new_rate |>
    <| ChargingSession.rate_valid_until := valid_until |>.

(** ** The reference: an itemised bill *)

(** A reprice: at this energy, this rate begins, until that instant. *)
Definition crossing : Type := float * money * option datetime.

Definition reprices s (cs : list crossing) : ChargingSession.t :=
  foldl (λ s c, close_out_segment s c.1.2 c.1.1 c.2) s cs.

Fixpoint itemised (start : float) (rate : pynum) (cs : list crossing) (final : float) : money :=
  match cs with
  | [] => energy_cost (Z.max 0 (fsub final start)) rate
  | (e, r, _) :: cs =>
      energy_cost (Z.max 0 (fsub e start)) rate + itemised e (PDec (dec_of_money r)) cs final
  end.

(** The rate a session bills at is never negative. *)
Definition rate_ok s : Prop := 0 <= to_money (current_rate s).

(** What the billing columns of a session satisfy from its creation on. *)
Record billing_wf s : Prop := {
  wf_rate : rate_ok s;
  wf_start : ∀ x, ChargingSession.rate_segment_start_kwh s = Some x → is_float x;
  wf_settled : 0 <= default 0 (ChargingSession.settled_cost_coins s) <= MAX_MONEY }.

(** ** Facts *)

Lemma open_energy_float e x : is_float (Z.max 0 (fsub e x)).
Proof. apply fmax_is_float; [apply is_float_0 | apply fsub_is_float]. Qed.

Lemma segment_cost_nonneg e x v : 0 <= to_money v → 0 <= energy_cost (Z.max 0 (fsub e x)) v.
Proof. intros. apply energy_cost_nonneg; [apply open_energy_float | lia | done]. Qed.

Lemma to_money_rate_nonneg r : 0 <= r → 0 <= to_money (PDec (dec_of_money r)).
Proof.
  intros. change (0 <= to_money_amount r). rewrite to_money_amount_clamp.
  unfold clamp, MAX_MONEY. lia.
Qed.

Lemma current_rate_close s r e v :
  current_rate (close_out_segment s r e v) = PDec (dec_of_money r).
Proof. unfold close_out_segment. case_match; reflexivity. Qed.

(** A legacy session is a segmented one that has settled nothing since 0 kWh. *)
Definition segment_start s : float := default 0 (ChargingSession.rate_segment_start_kwh s).
Definition settled s : money :=
  match ChargingSession.rate_segment_start_kwh s with
  | None => 0
  | Some _ => default 0 (ChargingSession.settled_cost_coins s)
  end.

Lemma session_cost_open s e :
  is_float e → 0 <= e →
  session_cost s e =
  clamp (settled s + energy_cost (Z.max 0 (fsub e (segment_start s))) (current_rate s)).
Proof.
  intros He H0. unfold session_cost, settled, segment_start. case_match; simpl.
  - by rewrite to_money_amount_clamp.
  - rewrite fsub_0_r, Z.max_r, Z.add_0_l by done. symmetry. apply clamp_ok.
    unfold energy_cost. apply to_money_range.
Qed.

Lemma close_out_settled s r e v :
  settled (close_out_segment s r e v) =
  clamp (settled s + energy_cost (Z.max 0 (fsub e (segment_start s))) (current_rate s)).
Proof.
  unfold settled, segment_start, close_out_segment.
  destruct (ChargingSession.rate_segment_start_kwh s) eqn:Hs; simpl;
    rewrite ?Hs; simpl; rewrite to_money_amount_clamp; reflexivity.
Qed.

Lemma close_out_start s r e v : segment_start (close_out_segment s r e v) = e.
Proof. unfold segment_start, close_out_segment. case_match; reflexivity. Qed.

Lemma settled_range s : billing_wf s → 0 <= settled s <= MAX_MONEY.
Proof. intros [_ _ H]. unfold settled. case_match; [done | unfold MAX_MONEY; lia]. Qed.

Lemma billing_wf_close s r e v :
  billing_wf s → 0 <= r → is_float e → billing_wf (close_out_segment s r e v).
Proof.
  intros Hwf Hr He. pose proof (settled_range s Hwf) as Hset. destruct Hwf as [Hrate _ _].
  pose proof (segment_cost_nonneg e (segment_start s) _ Hrate).
  pose proof (close_out_settled s r e v) as Hs. split.
  - unfold rate_ok. rewrite current_rate_close. by apply to_money_rate_nonneg.
  - intros x. unfold close_out_segment. case_match; simpl; congruence.
  - replace (default 0 _) with (settled (close_out_segment s r e v))
      by (unfold settled, close_out_segment; reflexivity).
    rewrite Hs. unfold clamp, MAX_MONEY in *. lia.
Qed.

Lemma clamp_absorb a b : 0 <= a → 0 <= b → clamp (clamp a + b) = clamp (a + b).
Proof. unfold clamp, MAX_MONEY. lia. Qed.

Lemma itemised_nonneg start rate cs final :
  0 <= to_money rate → Forall (λ c : crossing, 0 <= c.1.2) cs →
  0 <= itemised start rate cs final.
Proof.
  intros Hr Hcs. revert start rate Hr. induction Hcs as [|[[e r] v] cs Hc Hcs IH];
    intros start rate Hr; simpl in *.
  - by apply segment_cost_nonneg.
  - pose proof (segment_cost_nonneg e start rate Hr).
    pose proof (IH e _ (to_money_rate_nonneg r Hc)). lia.
Qed.

(** ** Properties *)

(** Closing a segment changes no bill: right after [close_out_segment] the
    session owes exactly what it owed just before, whatever the new rate. *)
Lemma close_out_cost s new_rate e valid_until :
  billing_wf s → is_float e → 0 <= e →
  session_cost (close_out_segment s new_rate e valid_until) e = session_cost s e.
Proof.
  intros Hwf He H0. rewrite !session_cost_open, close_out_settled, close_out_start by done.
  rewrite fsub_diag, energy_cost_0, Z.add_0_r.
  pose proof (settled_range s Hwf).
  pose proof (segment_cost_nonneg e (segment_start s) _ (wf_rate s Hwf)).
  unfold clamp, MAX_MONEY in *; lia.
Qed.

(** The incremental accrual implements the itemised bill: after any
    sequence of reprices the session owes the sum of the cost of every segment
    at the rate in force during it (saturated at the money range). *)
Theorem session_cost_itemised s cs final :
  billing_wf s → is_float final → 0 <= final →
  Forall (λ c : crossing, 0 <= c.1.2 ∧ is_float c.1.1) cs →
  session_cost (reprices s cs) final =
  clamp (settled s + itemised (segment_start s) (current_rate s) cs final).
Proof.
  intros Hwf Hf H0 Hcs. revert s Hwf.
  induction Hcs as [|[[e r] v] cs [Hr He] Hcs IH]; intros s Hwf; simpl in *.
  - by apply session_cost_open.
  - rewrite IH by (by apply billing_wf_close).
    rewrite current_rate_close, close_out_start, close_out_settled.
    pose proof (settled_range s Hwf).
    pose proof (segment_cost_nonneg e (segment_start s) _ (wf_rate s Hwf)).
    rewrite clamp_absorb; [f_equal; lia | lia |].
    apply itemised_nonneg; [by apply to_money_rate_nonneg|].
    eapply Forall_impl; [done | by intros ? []].
Qed.

Lemma session_cost_mono s e1 e2 :
  billing_wf s → is_float e1 → is_float e2 → 0 <= e1 → e1 <= e2 →
  session_cost s e1 <= session_cost s e2.
Proof.
  intros Hwf H1 H2 H0 H12. rewrite !session_cost_open by (done || lia). apply clamp_mono.
  assert (energy_cost (Z.max 0 (fsub e1 (segment_start s))) (current_rate s) <=
          energy_cost (Z.max 0 (fsub e2 (segment_start s))) (current_rate s)); [|lia].
  apply energy_cost_mono; [apply open_energy_float.. | | apply Hwf].
  pose proof (fsub_mono e1 e2 (segment_start s) (segment_start s) H12 ltac:(lia)). lia.
Qed.

(** The running cost of a session never decreases as its energy grows, and
    never falls below what is already settled (the forward-only invariant). *)
Theorem session_cost_forward s e1 e2 :
  billing_wf s → is_float e1 → is_float e2 → 0 <= e1 → e1 <= e2 →
  settled s <= session_cost s e1 ∧ session_cost s e1 <= session_cost s e2.
Proof.
  intros Hwf H1 H2 H0 H12. split; [|by apply session_cost_mono].
  rewrite session_cost_open by done. pose proof (settled_range s Hwf).
  pose proof (segment_cost_nonneg e1 (segment_start s) _ (wf_rate s Hwf)).
  unfold clamp, MAX_MONEY in *; lia.
Qed.
End Billing.

(** ** The hypotheses can hold *)

(** A session at 5 coins/kWh, and a reprice to 8 coins/kWh at 2 kWh. *)
Definition sample_session : ChargingSession.t := {|
  ChargingSession.tenant_id := 1; ChargingSession.user_id := 1; ChargingSession.plug_id := 1;
  ChargingSession.started_at := 0; ChargingSession.ended_at := None;
  ChargingSession.energy_kwh := 0; ChargingSession.peak_power_w := 0;
  ChargingSession.last_telemetry_at := None; ChargingSession.coins_spent := 0;
  ChargingSession.rate_coins_per_kwh := Some 500; ChargingSession.hold_coins := Some 5000;
  ChargingSession.status := ACTIVE; ChargingSession.max_kwh := None;
  ChargingSession.max_duration_seconds := None;
  ChargingSession.settled_cost_coins := Some 0;
  ChargingSession.rate_segment_start_kwh := Some 0;
  ChargingSession.rate_valid_until := Some 3600; ChargingSession.settled_payout_id := None;
  ChargingSession.energy_counter_last_raw_kwh := None;
  ChargingSession.energy_reset_offset_kwh := 0 |}.

Lemma sample_wf : @billing_wf default_config sample_session.
Proof.
  split.
  - vm_compute. discriminate.
  - intros x [= <-]. apply is_float_0.
  - unfold MAX_MONEY. simpl. lia.
Qed.

Lemma session_cost_itemised_witness :
  @session_cost default_config
    (@reprices default_config sample_session [(flit 2 1, 800, None)]) (flit 3 1) =
  clamp (settled sample_session +
    @itemised (segment_start sample_session)
      (@current_rate default_config sample_session) [(flit 2 1, 800, None)] (flit 3 1)).
Proof.
  apply (@session_cost_itemised default_config);
    [apply sample_wf | apply flit_is_float; lia | apply flit_nonneg; lia |].
  apply Forall_singleton. simpl. split; [lia | apply flit_is_float; lia].
Defined.

Lemma session_cost_forward_witness :
  settled sample_session <= @session_cost default_config sample_session (flit 2 1) ∧
  @session_cost default_config sample_session (flit 2 1) <=
  @session_cost default_config sample_session (flit 3 1).
Proof.
  apply (@session_cost_forward default_config); [apply sample_wf | ..];
    [apply flit_is_float | apply flit_is_float | apply flit_nonneg | apply flit_mono]; lia.
Defined.
