(* ===== verification/TelemetryStore.v ===== *)
(** * services/telemetry.py: the in-memory live telemetry store

    One dictionary per attribute, keyed by plug id.  [now] is [time.time()], in
    seconds.  The [asyncio.Event]s that wake the SSE consumers carry no data
    and are left out of the state. *)

From S2P Require Import Prelude Rounding PyNum Money Models Config Billing.

Module TelemetryStore.
Section Store.
Context `{cfg : Config}.

Inductive snapshot_status := Starting | Completed | Reported (status : string).
#[export] Instance snapshot_status_eq_dec : EqDecision snapshot_status.
Proof. solve_decision. Defined.

Record TelemetrySnapshot := mksnap {
  power_w : float;
  current_a : float;
  voltage_v : float;
  energy_kwh : float;
  duration_sec : Z;
  cost_coins : float;
  status : snapshot_status;
  relay_on : bool;
  updated_at : float }.

Record t := mk {
  data : gmap Z TelemetrySnapshot;
  session_start_times : gmap Z float;
  intervals : gmap Z Z;
  active_listeners : gmap Z Z;
  session_rates : gmap Z pynum;
  session_settled : gmap Z float;
  session_segment_start : gmap Z float }.

#[global] Instance eta_t : Eta t := fun r =>
  mk (data r) (session_start_times r) (intervals r) (active_listeners r)
     (session_rates r) (session_settled r) (session_segment_start r).
#[global] Instance eta_snap : Eta TelemetrySnapshot := fun r =>
  mksnap (power_w r) (current_a r) (voltage_v r) (energy_kwh r) (duration_sec r)
     (cost_coins r) (status r) (relay_on r) (updated_at r).

Implicit Types (st : t) (plug_id : Z) (now : float).

Definition empty : t := mk ∅ ∅ ∅ ∅ ∅ ∅ ∅.

Definition increment_listeners st plug_id : t :=
  st <| active_listeners ::= <[plug_id := default 0 (active_listeners st !! plug_id) + 1]> |>.

Definition decrement_listeners st plug_id : t :=
  let current := default 0 (active_listeners st !! plug_id) in
  st <| active_listeners ::= <[plug_id := if 0 <? current then current - 1 else 0]> |>.

Definition get_interval st plug_id : Z := default 10000 (intervals st !! plug_id).

Definition set_interval st plug_id (interval : Z) : t :=
  st <| intervals ::= <[plug_id := interval]> |>.

(** [float(Decimal)] of a 2-dp amount. *)
Definition float_of_money (c : money) : float := float_of_dec (dec_of_money c).

(** The cost a live frame shows when none is supplied. *)
Definition live_cost st plug_id (energy_kwh : float) : float :=
  let rate := default (PFloat COINS_PER_KWH) (session_rates st !! plug_id) in
  let settled := default 0 (session_settled st !! plug_id) in
  let open_energy :=
    Z.max 0 (fsub energy_kwh (default 0 (session_segment_start st !! plug_id))) in
  fadd settled (float_of_money (energy_cost open_energy rate)).

Definition update st now plug_id (power current energy : float) (status : string)
    (cost : option float) (voltage : float) (relay : bool) : t :=
  let cost := default (live_cost st plug_id energy) cost in
  let st := match session_start_times st !! plug_id with
            | None => st <| session_start_times ::= <[plug_id := now]> |>
            | Some _ => st
            end in
  let elapsed := ftrunc (fsub now (default now (session_start_times st !! plug_id))) in
  st <| data ::= <[plug_id :=
          mksnap power current voltage energy elapsed cost (Reported status) relay now]> |>.

Definition start_session st now plug_id (rate : option pynum) : t :=
  st <| session_start_times ::= <[plug_id := now]> |>
     <| session_rates ::= match rate with Some r => <[plug_id := r]> | None => delete plug_id end |>
     <| session_settled ::= <[plug_id := 0]> |>
     <| session_segment_start ::= <[plug_id := 0]> |>
     <| data ::= <[plug_id := mksnap 0 0 (fint 230) 0 0 0 Starting false now]> |>.

(** [x or 0.0] on an optional amount, as a float. *)
Definition money_or_0 (x : option money) : float := float_of_money (default 0 x).

Definition hydrate_session st plug_id (rate : option pynum) (settled_cost : option money)
    (segment_start_kwh : option float) (started_at : option datetime) : t :=
  match session_segment_start st !! plug_id with
  | Some _ => st
  | None =>
      let st := match rate with
                | Some r => st <| session_rates ::= <[plug_id := r]> |>
                | None => st
                end in
      let st := st <| session_settled ::= <[plug_id := money_or_0 settled_cost]> |>
                   <| session_segment_start ::= <[plug_id := default 0 segment_start_kwh]> |> in
      match started_at with
      | Some s => st <| session_start_times ::= <[plug_id := total_seconds s]> |>
      | None => st
      end
  end.

Definition set_segment_state st plug_id (settled_coins : option money)
    (segment_start_kwh : option float) (rate : option pynum) : t :=
  let st := st <| session_settled ::= <[plug_id := money_or_0 settled_coins]> |>
               <| session_segment_start ::= <[plug_id := default 0 segment_start_kwh]> |> in
  match rate with
  | Some r => st <| session_rates ::= <[plug_id := r]> |>
  | None => st
  end.

Definition end_session st plug_id : t :=
  st <| session_start_times ::= delete plug_id |>
     <| session_rates ::= delete plug_id |>
     <| session_settled ::= delete plug_id |>
     <| session_segment_start ::= delete plug_id |>
     <| data ::= alter (λ s, s <| status := Completed |>) plug_id |>.

Definition get_latest st plug_id : option TelemetrySnapshot := data st !! plug_id.

(** What one turn of the SSE generator [stream] yields (the snapshot with its
    elapsed time and staleness flag) and whether it then stops. *)
Definition stream_frame st now plug_id : option (TelemetrySnapshot * bool * bool) :=
  match get_latest st plug_id with
  | None => None
  | Some snapshot =>
      let d := match session_start_times st !! plug_id with
               | Some s => snapshot <| duration_sec := ftrunc (fsub now s) |>
               | None => snapshot
               end in
      let age := fsub now (updated_at snapshot) in
      Some (d, TELEMETRY_STALE_AFTER_SEC <? age, bool_decide (status snapshot = Completed))
  end.

(** ** The mirror of a session row

    The live cost agrees with what finalize will bill: the store's segment
    state is the row's. *)

Definition mirrors st plug_id (s : ChargingSession.t) : Prop :=
  session_rates st !! plug_id =
    option_map (λ r, PDec (dec_of_money r)) (ChargingSession.rate_coins_per_kwh s) ∧
  default 0 (session_settled st !! plug_id) = money_or_0 (ChargingSession.settled_cost_coins s) ∧
  default 0 (session_segment_start st !! plug_id) =
    default 0 (ChargingSession.rate_segment_start_kwh s).

Lemma mirrors_rate st plug_id s :
  mirrors st plug_id s →
  default (PFloat COINS_PER_KWH) (session_rates st !! plug_id) = current_rate s.
Proof.
  intros [Hr _]. unfold current_rate. rewrite Hr.
  by destruct (ChargingSession.rate_coins_per_kwh s).
Qed.

(** After a backend restart (no mirror for the plug) hydrating from the
    session's row, and after a reprice pushing the row's new segment, both make
    the store mirror the row; a hydrate never disturbs a plug already
    mirrored. *)
Theorem store_mirrors_row st plug_id s :
  (session_segment_start st !! plug_id = None →
   session_rates st !! plug_id = None →
   mirrors (hydrate_session st plug_id
      (option_map (λ r, PDec (dec_of_money r)) (ChargingSession.rate_coins_per_kwh s))
      (ChargingSession.settled_cost_coins s) (ChargingSession.rate_segment_start_kwh s)
      (Some (ChargingSession.started_at s))) plug_id s) ∧
  (∀ rate, ChargingSession.rate_coins_per_kwh s = Some rate →
   mirrors (set_segment_state st plug_id
      (ChargingSession.settled_cost_coins s) (ChargingSession.rate_segment_start_kwh s)
      (Some (PDec (dec_of_money rate)))) plug_id s) ∧
  (mirrors st plug_id s → is_Some (session_segment_start st !! plug_id) →
   ∀ r c k t, mirrors (hydrate_session st plug_id r c k t) plug_id s).
Proof.
  split_and!.
  - intros Hnone Hrate. unfold hydrate_session. rewrite Hnone. unfold mirrors.
    destruct (ChargingSession.rate_coins_per_kwh s); simpl; by rewrite ?lookup_insert_eq.
  - intros rate Hr. unfold mirrors. rewrite Hr. simpl. by rewrite !lookup_insert_eq.
  - intros Hm [x Hx] r c k t. unfold hydrate_session. by rewrite Hx.
Qed.

(** The live cost of a mirrored session is what [session_cost] would bill
    for the same energy, converted to a float: the coins settled so far plus
    the open segment at the session's rate. *)
Lemma live_cost_is_session_cost st plug_id s energy :
  mirrors st plug_id s →
  live_cost st plug_id energy =
  fadd (money_or_0 (ChargingSession.settled_cost_coins s))
       (float_of_money (energy_cost (Z.max 0 (fsub energy (segment_start s))) (current_rate s))).
Proof.
  intros Hm. unfold live_cost, segment_start. rewrite (mirrors_rate _ _ _ Hm).
  destruct Hm as (_ & -> & ->). reflexivity.
Qed.

(** Ending a session forgets it: the next one on the plug starts afresh. *)
Lemma end_session_forgets st plug_id :
  let st' := end_session st plug_id in
  session_rates st' !! plug_id = None ∧ session_settled st' !! plug_id = None ∧
  session_segment_start st' !! plug_id = None ∧ session_start_times st' !! plug_id = None.
Proof. simpl. by rewrite !lookup_delete_eq. Qed.
End Store.
End TelemetryStore.
