(* ===== verification/World.v ===== *)
(** * The database, the effects and the monad of the handlers

    A [db] holds one map per table; a [world] holds the rows as the running
    transaction sees them ([cur]), the committed rows ([com]), the in-memory
    telemetry store, the rest of the process memory and the trace of outgoing
    effects.  A handler is an [M]:
    it threads the world and either returns or raises.  [commit] publishes the
    transaction, [rollback] drops it; [run_request] is the request scope of
    [database/db.py get_db]: what is not committed when the handler ends is
    lost, effects already sent are not.  Row locks make the statements between
    two commits one atomic step; the steps of different handlers interleave at
    commits only. *)

From stdpp Require Import sorting.
From S2P Require Import Prelude Rounding PyNum Money Models Config RateLimit TelemetryStore.

(** [LedgerTransaction.description] and notification texts are not kept. *)
Inductive effect :=
  | Publish (c : mqtt_command) (accepted : bool)
  | EmitPlugStatus (plug_id : Z) (status : PlugStatus)
  | Notify (user_id : Z) (type severity : string) (plug_id session_id : option Z)
  | SendSessionBill (user_id session_id : Z)
  | SendTopupEmail (user_id : Z) (amount : money)
  | EmitPlugConnectivity (plug_id : Z) (online : bool)
  | EmitGatewayAlarm (gateway_id : string) (plug_id : option Z) (event_type severity : string)
  | PublishAssign (gateway_id : string) (assignments : list (string * Z))
  | SendEmailVerification (user_id : Z) (email token : string)
  | SendPasswordReset (user_id : Z) (email token : string).

(** One sequence numbers the rows of all tables: what matters is that an id is
    fresh and larger than every id given before. *)
Record db := mkdb {
  next_id : Z;
  tenants : gmap Z Tenant.t;
  users : gmap Z User.t;
  gateways : gmap string Gateway.t;
  plugs : gmap Z Plug.t;
  sessions : gmap Z ChargingSession.t;
  ledger : gmap Z LedgerTransaction.t;
  groups : gmap Z ChargerGroup.t;
  memberships : gmap Z GroupMembership.t;
  tariffs : gmap Z Tariff.t;
  slots : gmap Z TariffSlot.t;
  reservations : gmap Z Reservation.t;
  queued : gmap Z QueuedCharge.t;
  watches : gmap Z PlugWatch.t;
  capacity_requests : gmap Z CapacityRequest.t;
  disputes : gmap Z SessionDispute.t;
  payouts : gmap Z Payout.t;
  topups : gmap Z OfflineTopup.t;
  invoices : gmap Z Invoice.t;
  gateway_events : gmap Z GatewayEvent.t;
  gateway_logs : gmap Z GatewayLog.t;
  readings : gmap Z TelemetryReading.t;
  favorites : gmap Z UserFavorite.t;
  push_subscriptions : gmap Z PushSubscription.t;
  reset_tokens : gmap Z PasswordResetToken.t;
  verification_tokens : gmap Z EmailVerificationToken.t;
  plug_reports : gmap Z PlugReport.t;
  releases : gmap Z FirmwareRelease.t;
  notifications : gmap Z Notification.t }.

#[export] Instance eta_db : Eta db := fun r =>
  mkdb (next_id r) (tenants r) (users r) (gateways r) (plugs r) (sessions r) (ledger r)
    (groups r) (memberships r) (tariffs r) (slots r) (reservations r) (queued r)
    (watches r) (capacity_requests r) (disputes r) (payouts r) (topups r) (invoices r)
    (gateway_events r) (gateway_logs r) (readings r) (favorites r) (push_subscriptions r)
    (reset_tokens r) (verification_tokens r) (plug_reports r) (releases r)
    (notifications r).

Definition empty_db : db := mkdb 1 ∅ ∅ ∅ ∅ ∅ ∅ ∅ ∅ ∅ ∅ ∅ ∅ ∅ ∅ ∅ ∅ ∅ ∅ ∅ ∅ ∅ ∅ ∅ ∅ ∅ ∅ ∅ ∅.

(** What the process remembers besides the telemetry store: the dedup sets of
    the MQTT manager and of the reaper, the offline notices that wait for their
    deadline, the telemetry samples not flushed yet; the per-email limiters and
    the Google exchange codes (code to token, nonce and deadline) of the auth
    routes. *)
Record memory := mkmemory {
  gateway_seen_bumped : gmap string float;
  unmetered_alert_cooldown : gmap Z float;
  low_balance_warned : gset Z;
  silence_pushed : gset string;
  pending_offline : gset string;
  buffer : list Sample.t;
  login_failures : limiter;
  forgot_emails : limiter;
  resend_emails : limiter;
  exchange_codes : gmap string (string * string * float) }.

#[export] Instance eta_memory : Eta memory := fun r =>
  mkmemory (gateway_seen_bumped r) (unmetered_alert_cooldown r) (low_balance_warned r)
    (silence_pushed r) (pending_offline r) (buffer r) (login_failures r) (forgot_emails r)
    (resend_emails r) (exchange_codes r).

(** The limits of the limiters are the defaults of their environment variables. *)
Definition empty_memory : memory :=
  mkmemory ∅ ∅ ∅ ∅ ∅ [] (new_limiter 10 (flit 60 1) 0) (new_limiter 3 (flit 3600 1) 0)
    (new_limiter 3 (flit 3600 1) 0) ∅.

Record world := mkworld {
  cur : db;
  com : db;
  store : TelemetryStore.t;
  mem : memory;
  evs : list effect }.

#[export] Instance eta_world : Eta world := fun r =>
  mkworld (cur r) (com r) (store r) (mem r) (evs r).

Definition world_of (d : db) : world := mkworld d d TelemetryStore.empty empty_memory [].

(** ** Results and exceptions *)

Inductive exn :=
  | HTTPException (status_code : Z) (code : string)
  | IntegrityError
  | SessionNotInvoiceableError
  | AccountClosureRefused (reason : string)
  | NoResultFound
  | MultipleResultsFound
  | TypeError
  | AttributeError
  | ValueError
  | IndexError
  | OverflowError
  | DataError
  (* Not an outcome of the code: it is still in a retry loop. *)
  | Unfinished.

Inductive result (A : Type) := Ok (a : A) | Raise (e : exn).
Arguments Ok {A} _.
Arguments Raise {A} _.

Definition is_ok {A} (r : result A) : bool := match r with Ok _ => true | Raise _ => false end.

(** ** The monad *)

Definition M (A : Type) : Type := world → result A * world.

Definition raise {A} (e : exn) : M A := λ w, (Raise e, w).
#[export] Instance M_ret : MRet M := λ A a w, (Ok a, w).
#[export] Instance M_bind : MBind M := λ A B k m w,
  match m w with
  | (Ok a, w') => k a w'
  | (Raise e, w') => (Raise e, w')
  end.

Definition query {A} (f : db → A) : M A := λ w, (Ok (f (cur w)), w).
Definition modify (f : db → db) : M unit := λ w, (Ok tt, w <| cur ::= f |>).
Definition emit (e : effect) : M unit := λ w, (Ok tt, w <| evs ::= (λ l, l ++ [e]) |>).
Definition with_store (f : TelemetryStore.t → TelemetryStore.t) : M unit :=
  λ w, (Ok tt, w <| store ::= f |>).
Definition read_store {A} (f : TelemetryStore.t → A) : M A := λ w, (Ok (f (store w)), w).
Definition with_mem (f : memory → memory) : M unit := λ w, (Ok tt, w <| mem ::= f |>).
Definition read_mem {A} (f : memory → A) : M A := λ w, (Ok (f (mem w)), w).
Definition commit : M unit := λ w, (Ok tt, w <| com := cur w |>).
Definition rollback : M unit := λ w, (Ok tt, w <| cur := com w |>).
(** [try: m except: h]. *)
Definition catch {A} (m : M A) (h : exn → M A) : M A := λ w,
  match m w with
  | (Ok a, w') => (Ok a, w')
  | (Raise e, w') => h e w'
  end.

Definition when (b : bool) (m : M unit) : M unit := if b then m else mret tt.
(** [if b: raise HTTPException(code, ...)]. *)
Definition refuse (b : bool) (status : Z) (code : string) : M unit :=
  if b then raise (HTTPException status code) else mret tt.
(** [scalar_one()], and [if x is None: raise HTTPException(...)]. *)
Definition scalar_one {A} (o : option A) : M A :=
  match o with Some a => mret a | None => raise NoResultFound end.
Definition or_raise {A} (o : option A) (status : Z) (code : string) : M A :=
  match o with Some a => mret a | None => raise (HTTPException status code) end.

(** [scalar_one_or_none()] on the rows of a query. *)
Definition one_or_none {A} (l : list A) : M (option A) :=
  match l with
  | [] => mret None
  | [x] => mret (Some x)
  | _ => raise MultipleResultsFound
  end.

Fixpoint for_each {A} (l : list A) (f : A → M unit) : M unit :=
  match l with
  | [] => mret tt
  | x :: l => f x ;; for_each l f
  end.

(** The id of a new row. *)
Definition fresh : M Z := λ w, (Ok (next_id (cur w)), w <| cur ::= (λ d, d <| next_id ::= Z.succ |>) |>).

Definition run_request {A} (m : M A) (w : world) : result A * world :=
  let (r, w') := m w in (r, w' <| cur := com w' |>).

(** [async with session_factory() as db: m]. *)
Definition scope {A} (m : M A) : M A := run_request m.

(** A sweep: what [f] reports for each row, added up; a row that fails is
    logged and counts 0. *)
Fixpoint sweep {A} (l : list A) (f : A → M Z) : M Z :=
  match l with
  | [] => mret 0
  | x :: l => n ← catch (f x) (λ _, mret 0); k ← sweep l f; mret (n + k)
  end.

(** ** Queries over a table *)

(** What an INTEGER column holds; the driver raises DataError for a parameter beyond. *)
Definition int4 (n : Z) : bool := (- 2 ^ 31 <=? n) && (n <? 2 ^ 31).

(** [SELECT ... WHERE p]; rows come in no particular order. *)
Definition select {A} (p : Z → A → bool) (m : gmap Z A) : list (Z * A) :=
  List.filter (λ r, p r.1 r.2) (map_to_list m).

(** [ORDER BY key]. *)
Definition key_le {A} (key : A → Z) (a b : A) : Prop := key a <= key b.
#[export] Instance key_le_dec {A} (key : A → Z) : RelDecision (key_le key).
Proof. intros a b. apply Z_le_dec. Defined.
Definition order_by {A} (key : A → Z) (l : list A) : list A := merge_sort (key_le key) l.

(** [ORDER BY k1, k2]. *)
Definition key2_le {A} (k1 k2 : A → Z) (a b : A) : Prop :=
  k1 a < k1 b ∨ (k1 a = k1 b ∧ k2 a <= k2 b).
#[export] Instance key2_le_dec {A} (k1 k2 : A → Z) : RelDecision (key2_le k1 k2).
Proof. intros a b. apply or_dec; [apply Z_lt_dec | apply and_dec; [apply Z.eq_dec | apply Z_le_dec]]. Defined.
Definition order_by2 {A} (k1 k2 : A → Z) (l : list A) : list A := merge_sort (key2_le k1 k2) l.

Definition count {A} (p : A → bool) (m : gmap Z A) : Z :=
  msum (λ x, if p x then 1 else 0) m.

Definition exists_row {A} (p : Z → A → bool) (m : gmap Z A) : bool :=
  negb (bool_decide (select p m = [])).

(** [UPDATE t SET ... WHERE p]. *)
Definition update_where {A} (p : A → bool) (f : A → A) (m : gmap Z A) : gmap Z A :=
  (λ x, if p x then f x else x) <$> m.

(** [DELETE FROM t WHERE p]. *)
Definition delete_where {A} (p : Z → A → bool) (m : gmap Z A) : gmap Z A :=
  filter (λ r, p r.1 r.2 = false) m.

Lemma elem_of_select {A} (p : Z → A → bool) m i x :
  (i, x) ∈ select p m ↔ m !! i = Some x ∧ p i x = true.
Proof.
  unfold select. rewrite list_elem_of_In, filter_In, <- list_elem_of_In, elem_of_map_to_list.
  done.
Qed.

Lemma order_by_elem {A} (key : A → Z) l x : x ∈ order_by key l ↔ x ∈ l.
Proof. unfold order_by. by rewrite merge_sort_Permutation. Qed.

Lemma exists_row_true {A} (p : Z → A → bool) m :
  exists_row p m = true ↔ ∃ i x, m !! i = Some x ∧ p i x = true.
Proof.
  unfold exists_row. rewrite negb_true_iff, bool_decide_eq_false. split.
  - destruct (select p m) as [|[i x] l] eqn:Hs; [done|]. intros _. exists i, x.
    apply elem_of_select. rewrite Hs. left.
  - intros (i & x & H) Hs. apply elem_of_select in H. rewrite Hs in H. by apply not_elem_of_nil in H.
Qed.

Lemma exists_row_false {A} (p : Z → A → bool) m :
  exists_row p m = false ↔ ∀ i x, m !! i = Some x → p i x = false.
Proof.
  split.
  - intros H i x Hx. apply not_true_iff_false. intros Hp.
    assert (exists_row p m = true) by (apply exists_row_true; eauto). congruence.
  - intros H. apply not_true_iff_false. intros (i & x & Hx & Hp)%exists_row_true.
    apply H in Hx. congruence.
Qed.

Lemma lookup_update_where {A} (p : A → bool) f m i :
  update_where p f m !! i = (λ x, if p x then f x else x) <$> m !! i.
Proof. unfold update_where. by rewrite lookup_fmap. Qed.

Lemma lookup_delete_where {A} (p : Z → A → bool) m i x :
  delete_where p m !! i = Some x ↔ m !! i = Some x ∧ p i x = false.
Proof. unfold delete_where. by rewrite map_lookup_filter_Some. Qed.

Lemma select_NoDup {A} (p : Z → A → bool) m : NoDup (select p m).
Proof. unfold select. apply NoDup_ListNoDup, List.NoDup_filter, NoDup_ListNoDup, NoDup_map_to_list. Qed.

(** A query on a UNIQUE column. *)
Lemma select_unique {A} (p : Z → A → bool) m :
  (∀ i j x y, m !! i = Some x → m !! j = Some y → p i x = true → p j y = true → i = j) →
  select p m = [] ∨ ∃ i x, select p m = [(i, x)] ∧ m !! i = Some x ∧ p i x = true.
Proof.
  intros Hu. pose proof (select_NoDup p m) as Hnd.
  assert (He : ∀ i x, (i, x) ∈ select p m → m !! i = Some x ∧ p i x = true) by apply elem_of_select.
  destruct (select p m) as [|[i x] [|[j y] l]]; [by left | right; exists i, x | exfalso].
  - split; [done|]. apply He. left.
  - destruct (He i x) as [Hi Hpi]; [left|]. destruct (He j y) as [Hj Hpj]; [right; left|].
    assert (i = j) as -> by eauto. simplify_eq.
    apply NoDup_cons in Hnd as [Hnd _]. apply Hnd. left.
Qed.

Lemma select_one {A} (p : Z → A → bool) m i x :
  select p m = [(i, x)] → m !! i = Some x ∧ p i x = true.
Proof. intros H. apply elem_of_select. rewrite H. left. Qed.
