(* ===== verification/Hoare.v ===== *)
(** * Reasoning about handlers

    [wp m Q w]: running [m] in [w] ends in a result and a world that satisfy
    [Q].  [preserves I m]: [I] survives [m], whether it returns or raises;
    [keeps f m]: [m] does not change [f] (a frame). *)

From S2P Require Import Prelude Rounding PyNum Money Models Config TelemetryStore World.

Section Wp.
Context {A B : Type}.
Implicit Types (w : world).

Definition wp (m : M A) (Q : result A → world → Prop) w : Prop := Q (m w).1 (m w).2.

Lemma wp_mono (m : M A) (P Q : result A → world → Prop) w :
  (∀ r w', P r w' → Q r w') → wp m P w → wp m Q w.
Proof. unfold wp. auto. Qed.

Lemma wp_and (m : M A) (P Q : result A → world → Prop) w :
  wp m P w → wp m Q w → wp m (λ r w', P r w' ∧ Q r w') w.
Proof. unfold wp. auto. Qed.

Lemma wp_ret (a : A) Q w : Q (Ok a) w → wp (mret a) Q w.
Proof. done. Qed.
Lemma wp_raise e (Q : result A → world → Prop) w : Q (Raise e) w → wp (raise e) Q w.
Proof. done. Qed.
Lemma wp_query (f : db → A) Q w : Q (Ok (f (cur w))) w → wp (query f) Q w.
Proof. done. Qed.
Lemma wp_read_store (f : TelemetryStore.t → A) Q w :
  Q (Ok (f (store w))) w → wp (read_store f) Q w.
Proof. done. Qed.
Lemma wp_read_mem (f : memory → A) Q w : Q (Ok (f (mem w))) w → wp (read_mem f) Q w.
Proof. done. Qed.
Lemma wp_scope (m : M A) Q w :
  wp m (λ out w', Q out (w' <| cur := com w' |>)) w → wp (scope m) Q w.
Proof. unfold wp, scope, run_request. by destruct (m w). Qed.
Lemma wp_or_raise (o : option A) s c (Q : result A → world → Prop) w :
  (∀ a, o = Some a → Q (Ok a) w) → (o = None → Q (Raise (HTTPException s c)) w) →
  wp (or_raise o s c) Q w.
Proof. destruct o; intros H1 H2; [apply (H1 _ eq_refl) | apply (H2 eq_refl)]. Qed.
Lemma wp_scalar_one (o : option A) (Q : result A → world → Prop) w :
  (∀ a, o = Some a → Q (Ok a) w) → (o = None → Q (Raise NoResultFound) w) →
  wp (scalar_one o) Q w.
Proof. destruct o; intros H1 H2; [apply (H1 _ eq_refl) | apply (H2 eq_refl)]. Qed.
Lemma wp_catch (m : M A) h Q w :
  wp m (λ r w', match r with Ok a => Q (Ok a) w' | Raise e => wp (h e) Q w' end) w →
  wp (catch m h) Q w.
Proof. unfold wp, catch. by destruct (m w) as [[]]. Qed.
End Wp.

Section WpUnit.
Implicit Types (w : world) (Q : result unit → world → Prop).

Lemma wp_modify f Q w : Q (Ok tt) (w <| cur ::= f |>) → wp (modify f) Q w.
Proof. done. Qed.
Lemma wp_emit e Q w : Q (Ok tt) (w <| evs ::= (λ l, l ++ [e]) |>) → wp (emit e) Q w.
Proof. done. Qed.
Lemma wp_with_store f Q w : Q (Ok tt) (w <| store ::= f |>) → wp (with_store f) Q w.
Proof. done. Qed.
Lemma wp_with_mem f Q w : Q (Ok tt) (w <| mem ::= f |>) → wp (with_mem f) Q w.
Proof. done. Qed.
Lemma wp_commit Q w : Q (Ok tt) (w <| com := cur w |>) → wp commit Q w.
Proof. done. Qed.
Lemma wp_rollback Q w : Q (Ok tt) (w <| cur := com w |>) → wp rollback Q w.
Proof. done. Qed.
Lemma wp_when b m Q w : (b = true → wp m Q w) → (b = false → Q (Ok tt) w) → wp (when b m) Q w.
Proof. destruct b; intros H1 H2; [by apply H1 | by apply H2]. Qed.
Lemma wp_refuse b s c Q w :
  (b = true → Q (Raise (HTTPException s c)) w) → (b = false → Q (Ok tt) w) →
  wp (refuse b s c) Q w.
Proof. destruct b; intros H1 H2; [by apply H1 | by apply H2]. Qed.
Lemma wp_fresh (Q : result Z → world → Prop) w :
  Q (Ok (next_id (cur w))) (w <| cur ::= (λ d, d <| next_id ::= Z.succ |>) |>) → wp fresh Q w.
Proof. done. Qed.
End WpUnit.

Lemma wp_bind {A B} (m : M A) (k : A → M B) Q w :
  wp m (λ r w', match r with Ok a => wp (k a) Q w' | Raise e => Q (Raise e) w' end) w →
  wp (m ≫= k) Q w.
Proof. unfold wp, mbind, M_bind. by destruct (m w) as [[]]. Qed.

Lemma wp_one_or_none {A} (l : list A) (Q : result (option A) → world → Prop) w :
  (l = [] → Q (Ok None) w) → (∀ x, l = [x] → Q (Ok (Some x)) w) →
  Q (Raise MultipleResultsFound) w → wp (one_or_none l) Q w.
Proof. destruct l as [|x [|y l]]; intros H1 H2 H3; [by apply H1 | by apply H2 | done]. Qed.

(** The request scope: a property of the outcome and of the committed world. *)
Lemma run_request_wp {A} (m : M A) (Q : result A → world → Prop) w :
  wp m (λ out w', Q out (w' <| cur := com w' |>)) w →
  let '(out, w') := run_request m w in Q out w'.
Proof. unfold wp, run_request. by destruct (m w). Qed.

Lemma run_request_ok {A} (m : M A) (P : A → db → Prop) w :
  wp m (λ out w', ∃ a, out = Ok a ∧ P a (com w')) w →
  ∃ a w', run_request m w = (Ok a, w') ∧ P a (com w').
Proof.
  unfold wp, run_request. destruct (m w) as [out w']. intros (a & Ho & HP). simpl in *. subst out.
  by exists a, (w' <| cur := com w' |>).
Qed.

(** Symbolic execution of one handler, up to a call with no rule of its own. *)
Ltac wp_step :=
  lazymatch goal with
  | |- wp (mbind _ _) _ _ => apply wp_bind
  | |- wp (mret _) _ _ => apply wp_ret
  | |- wp (raise _) _ _ => apply wp_raise
  | |- wp (query _) _ _ => apply wp_query
  | |- wp (modify _) _ _ => apply wp_modify
  | |- wp (emit _) _ _ => apply wp_emit
  | |- wp (with_store _) _ _ => apply wp_with_store
  | |- wp (read_store _) _ _ => apply wp_read_store
  | |- wp (with_mem _) _ _ => apply wp_with_mem
  | |- wp (read_mem _) _ _ => apply wp_read_mem
  | |- wp commit _ _ => apply wp_commit
  | |- wp rollback _ _ => apply wp_rollback
  | |- wp fresh _ _ => apply wp_fresh
  | |- wp (when _ _) _ _ => apply wp_when; intros ?
  | |- wp (refuse _ _ _) _ _ => apply wp_refuse; intros ?
  | |- wp (or_raise (Some _) _ _) _ _ => apply wp_ret
  | |- wp (or_raise None _ _) _ _ => apply wp_raise
  | |- wp (or_raise _ _ _) _ _ => apply wp_or_raise; [intros ? ?|intros ?]
  | |- wp (scalar_one _) _ _ => apply wp_scalar_one; [intros ? ?|intros ?]
  | |- wp (one_or_none _) _ _ => apply wp_one_or_none; [intros ?|intros ? ?|]
  | |- wp (catch _ _) _ _ => apply wp_catch
  | |- wp (match ?x with _ => _ end) _ _ => destruct x eqn:?
  end; cbv beta iota.

(** The whole handler, with [call] for the calls that have rules of their own. *)
Tactic Notation "wp_run" tactic3(call) := repeat first [wp_step | call].
Tactic Notation "wp_run" := wp_run fail.

(** ** Invariants and frames of handlers *)

Definition preserves {A} (I : world → Prop) (m : M A) : Prop := ∀ w, I w → I (m w).2.
Definition keeps {A T} (f : world → T) (m : M A) : Prop := ∀ w, f (m w).2 = f w.

Section Preserves.
Context (I : world → Prop).

Lemma preserves_bind {A B} (m : M A) (k : A → M B) :
  preserves I m → (∀ a, preserves I (k a)) → preserves I (m ≫= k).
Proof.
  intros Hm Hk w Hw. unfold mbind, M_bind. specialize (Hm w Hw).
  destruct (m w) as [[a|e] w']; [apply Hk|]; done.
Qed.

Lemma preserves_ret {A} (a : A) : preserves I (mret a).
Proof. by intros w. Qed.
Lemma preserves_raise {A} e : preserves I (@raise A e).
Proof. by intros w. Qed.
Lemma preserves_query {A} (f : db → A) : preserves I (query f).
Proof. by intros w. Qed.
Lemma preserves_read_store {A} (f : TelemetryStore.t → A) : preserves I (read_store f).
Proof. by intros w. Qed.
Lemma preserves_when b m : preserves I m → preserves I (when b m).
Proof. destruct b; [done | intros _ w; done]. Qed.
Lemma preserves_refuse b s c : preserves I (refuse b s c).
Proof. by destruct b; intros w. Qed.
Lemma preserves_or_raise {A} (o : option A) s c : preserves I (or_raise o s c).
Proof. by destruct o; intros w. Qed.
Lemma preserves_scalar_one {A} (o : option A) : preserves I (scalar_one o).
Proof. by destruct o; intros w. Qed.
Lemma preserves_one_or_none {A} (l : list A) : preserves I (one_or_none l).
Proof. by destruct l as [|? []]; intros w. Qed.
Lemma preserves_catch {A} (m : M A) h :
  preserves I m → (∀ e, preserves I (h e)) → preserves I (catch m h).
Proof.
  intros Hm Hh w Hw. unfold catch. specialize (Hm w Hw).
  destruct (m w) as [[a|e] w']; [done | by apply Hh].
Qed.
Lemma preserves_for_each {A} (l : list A) f :
  (∀ x, x ∈ l → preserves I (f x)) → preserves I (for_each l f).
Proof.
  induction l as [|x l IH]; intros Hf; [by intros w|]. simpl.
  apply preserves_bind; [apply Hf; left | intros _; apply IH; intros; apply Hf; by right].
Qed.
End Preserves.

Lemma keeps_preserves {A T} (f : world → T) (m : M A) :
  (∀ v, preserves (λ w, f w = v) m) → keeps f m.
Proof. intros H w. by apply (H (f w) w). Qed.

Lemma preserves_keeps {A T} (f : world → T) (P : T → Prop) (m : M A) :
  keeps f m → preserves (λ w, P (f w)) m.
Proof. intros H w Hw. by rewrite H. Qed.

Lemma wp_keeps {A T} (f : world → T) (m : M A) w : keeps f m → wp m (λ _ w', f w' = f w) w.
Proof. intros H. apply H. Qed.

Lemma wp_preserves {A} (I : world → Prop) (m : M A) Q w :
  preserves I m → I w → (∀ r w', I w' → Q r w') → wp m Q w.
Proof. intros Hm Hw HQ. apply HQ, Hm, Hw. Qed.

(** The structural rules; a leaf left open is an effect on the world. *)
Create HintDb frame.
Ltac preserve_step :=
  lazymatch goal with
  | |- preserves _ (mbind _ _) => apply preserves_bind; [|intros ?]
  | |- preserves _ (mret _) => apply preserves_ret
  | |- preserves _ (raise _) => apply preserves_raise
  | |- preserves _ (query _) => apply preserves_query
  | |- preserves _ (read_store _) => apply preserves_read_store
  | |- preserves _ (when _ _) => apply preserves_when
  | |- preserves _ (refuse _ _ _) => apply preserves_refuse
  | |- preserves _ (or_raise _ _ _) => apply preserves_or_raise
  | |- preserves _ (scalar_one _) => apply preserves_scalar_one
  | |- preserves _ (one_or_none _) => apply preserves_one_or_none
  | |- preserves _ (catch _ _) => apply preserves_catch; [|intros ?]
  | |- preserves _ (for_each _ _) => apply preserves_for_each; intros ? ?
  | |- preserves _ (match ?x with _ => _ end) => destruct x
  end.
Ltac preserve := repeat preserve_step; try (intros ? ?; simpl in *; congruence).

(** ** Handlers that cannot fail

    [safe I m]: from a world with [I], [m] returns and keeps [I]. *)

Definition safe {A} (I : world → Prop) (m : M A) : Prop :=
  ∀ w, I w → is_ok (m w).1 = true ∧ I (m w).2.

Section Safe.
Context (I : world → Prop).

Lemma safe_bind {A B} (m : M A) (k : A → M B) :
  safe I m → (∀ a, safe I (k a)) → safe I (m ≫= k).
Proof.
  intros Hm Hk w Hw. unfold mbind, M_bind. destruct (Hm w Hw) as [Hok Hi].
  destruct (m w) as [[a|e] w']; [by apply Hk | done].
Qed.
Lemma safe_ret {A} (a : A) : safe I (mret a).
Proof. by intros w. Qed.
Lemma safe_query {A} (f : db → A) : safe I (query f).
Proof. by intros w. Qed.
Lemma safe_read_store {A} (f : TelemetryStore.t → A) : safe I (read_store f).
Proof. by intros w. Qed.
Lemma safe_when b m : safe I m → safe I (when b m).
Proof. destruct b; [done | intros _ w; done]. Qed.
Lemma safe_catch {A} (m : M A) h : safe I m → safe I (catch m h).
Proof.
  intros Hm w Hw. unfold catch. destruct (Hm w Hw) as [Hok Hi].
  by destruct (m w) as [[a|e] w'].
Qed.
Lemma safe_for_each {A} (l : list A) f : (∀ x, x ∈ l → safe I (f x)) → safe I (for_each l f).
Proof.
  induction l as [|x l IH]; intros Hf; [by intros w|]. simpl.
  apply safe_bind; [apply Hf; left | intros _; apply IH; intros; apply Hf; by right].
Qed.
Lemma safe_effect (m : M unit) :
  (∀ w, I w → I (m w).2) → (∀ w, (m w).1 = Ok tt) → safe I m.
Proof. intros H1 H2 w Hw. rewrite H2. auto. Qed.
Lemma wp_safe {A} (m : M A) (Q : result A → world → Prop) w :
  safe I m → I w → (∀ a w', I w' → Q (Ok a) w') → wp m Q w.
Proof.
  intros Hs Hw HQ. unfold wp. destruct (Hs w Hw) as [Hok Hi].
  destruct (m w) as [[a|e] w']; [by apply HQ | done].
Qed.
End Safe.

Ltac safe_step :=
  lazymatch goal with
  | |- safe _ (mbind _ _) => apply safe_bind; [|intros ?]
  | |- safe _ (mret _) => apply safe_ret
  | |- safe _ (query _) => apply safe_query
  | |- safe _ (read_store _) => apply safe_read_store
  | |- safe _ (when _ _) => apply safe_when
  | |- safe _ (catch _ _) => apply safe_catch
  | |- safe _ (for_each _ _) => apply safe_for_each; intros ? ?
  | |- safe _ (match ?x with _ => _ end) => destruct x
  end.
