(* ===== verification/PyJson.v ===== *)
(** * Parsed JSON

    [int(...)], [float(...)] and truth of the values [json.loads] produces. *)

From stdpp Require Import pretty.
From Stdlib Require Import Ascii.
From S2P Require Import Prelude Rounding PyNum Money Models Config TelemetryStore World Hoare.
From S2P Require Import PyString.

(** A parsed JSON value; object keys are unique, numbers finite. *)
Inductive json :=
  | JNull
  | JBool (b : bool)
  | JInt (n : Z)
  | JFloat (x : float)
  | JStr (s : string)
  | JArr (l : list json)
  | JObj (kvs : list (string * json)).

(** ** Python's view of a JSON value *)

Fixpoint assoc (k : string) (kvs : list (string * json)) : option json :=
  match kvs with
  | [] => None
  | (k', v) :: kvs => if String.eqb k k' then Some v else assoc k kvs
  end.

(** [j.get(k, dflt)] *)
Definition jget (j : json) (k : string) (dflt : json) : M json :=
  match j with
  | JObj kvs => mret (default dflt (assoc k kvs))
  | _ => raise AttributeError
  end.

(** [bool(j)] *)
Definition truthy (j : json) : bool :=
  match j with
  | JNull | JBool false | JStr EmptyString | JArr [] | JObj [] => false
  | JInt n => negb (n =? 0)
  | JFloat x => negb (x =? 0)
  | _ => true
  end.

(** [notes or {}] *)
Definition or_empty (j : json) : json := if truthy j then j else JObj [].

Definition jstr_eqb (j : json) (s : string) : bool :=
  match j with JStr s' => String.eqb s' s | _ => false end.

(** A string bound to a VARCHAR parameter. *)
Definition as_str (j : json) : M string :=
  match j with JStr s => mret s | _ => raise DataError end.

Definition digit (c : ascii) : option Z :=
  let n := Z.of_nat (Ascii.nat_of_ascii c) - 48 in
  if (0 <=? n) && (n <=? 9) then Some n else None.

(** Decimal digits with single underscores between them. *)
Fixpoint digits_value (after_digit : bool) (acc : Z) (s : string) : option Z :=
  match s with
  | EmptyString => if after_digit then Some acc else None
  | String c s' =>
      match digit c with
      | Some n => digits_value true (10 * acc + n) s'
      | None => if after_digit && Ascii.eqb c "_" then digits_value false acc s' else None
      end
  end.

(** [int(str)] *)
Definition int_of_str (s : string) : option Z :=
  match strip s with
  | String "-" s' => Z.opp <$> digits_value false 0 s'
  | String "+" s' => digits_value false 0 s'
  | s' => digits_value false 0 s'
  end.

(** [int(j)], [None] for TypeError or ValueError. *)
Definition py_int (j : json) : option Z :=
  match j with
  | JInt n => Some n
  | JBool b => Some (if b then 1 else 0)
  | JFloat x => Some (ftrunc x)
  | JStr s => int_of_str s
  | _ => None
  end.


(** ** [float(str)]

    White space and a sign, then a decimal literal with an optional exponent,
    or [inf], [infinity], [nan] in any case. *)

(** Digits up to the first other character: their value after [acc], how many,
    and the rest; single underscores stand between digits only. *)
Fixpoint take_digits (after_digit : bool) (acc count : Z) (s : string) : Z * Z * string :=
  match s with
  | EmptyString => (acc, count, s)
  | String c s' =>
      match digit c with
      | Some n => take_digits true (10 * acc + n) (count + 1) s'
      | None =>
          match s' with
          | String c' _ => if after_digit && Ascii.eqb c "_" && bool_decide (is_Some (digit c'))
                           then take_digits false acc count s' else (acc, count, s)
          | EmptyString => (acc, count, s)
          end
      end
  end.

(** The exponent part: [e], a sign, digits, the end. *)
Definition exponent_of (s : string) : option Z :=
  let number (neg : bool) (s : string) :=
    let '(n, k, rest) := take_digits false 0 0 s in
    if (0 <? k) && String.eqb rest "" then Some (if neg then - n else n) else None in
  match s with
  | EmptyString => Some 0
  | String c s =>
      if Ascii.eqb c "e" || Ascii.eqb c "E" then
        match s with
        | String "-" s => number true s
        | String "+" s => number false s
        | s => number false s
        end
      else None
  end.

(** The largest finite binary64 is below [2^1024]; what rounds to that is inf. *)
Definition finite_or_inf (x : float) : pynum :=
  if Z.abs x <? 2 ^ 1024 * FU then PFloat x else PInf (x <? 0).

Definition unsigned_float (neg : bool) (s : string) : option pynum :=
  let sgn := if neg then -1 else 1 in
  let l := lower s in
  if String.eqb l "inf" || String.eqb l "infinity" then Some (PInf neg)
  else if String.eqb l "nan" then Some PNaN
  else
    let '(i, ki, rest) := take_digits false 0 0 s in
    let '(n, kf, rest) := match rest with
      | String "." rest => let '(n, k, rest) := take_digits false i 0 rest in (n, k, rest)
      | rest => (i, 0, rest)
      end in
    if ki + kf =? 0 then None
    else
      e ← exponent_of rest;
      Some (finite_or_inf (float_of_dec (mkdec (sgn * n) (e - kf)))).

Definition float_of_string (s : string) : option pynum :=
  match strip s with
  | String "-" s => unsigned_float true s
  | String "+" s => unsigned_float false s
  | s => unsigned_float false s
  end.

Example float_of_string_ex :
  map float_of_string [" 12.5e-1 "; "-.5"; "1_0."; "1__0"; ""; "."; "1e400"; "-Infinity"; "nan"; "0x1"]%string
  = [Some (PFloat (flit 125 100)); Some (PFloat (flit (-5) 10)); Some (PFloat (fint 10)); None; None;
     None; Some (PInf false); Some (PInf true); Some PNaN; None].
Proof. vm_compute. reflexivity. Qed.

(** ** The fields of an MQTT payload

    [json.loads] also reads NaN and Infinity (and overflowing literals as
    infinite); a payload is a dict. *)

Inductive value := J (j : json) | VInf (negative : bool) | VNaN.

Definition payload : Type := list (string * value).

Fixpoint vassoc (k : string) (p : payload) : option value :=
  match p with
  | [] => None
  | (k', v) :: p => if String.eqb k k' then Some v else vassoc k p
  end.

(** [payload.get(k, dflt)] and [payload.get(k)]. *)
Definition vget (k : string) (dflt : value) (p : payload) : value := default dflt (vassoc k p).
Definition vget_none (k : string) (p : payload) : value := vget k (J JNull) p.

Definition vnull (v : value) : bool := match v with J JNull => true | _ => false end.
Definition vtruthy (v : value) : bool := match v with J j => truthy j | _ => true end.
Definition vstr_eqb (v : value) (s : string) : bool :=
  match v with J j => jstr_eqb j s | _ => false end.

(** [str(v)] of a float, a list or an object. *)
Class PyStr := str_of : value → string.

Definition py_str `{PyStr} (v : value) : string :=
  match v with
  | J (JStr s) => s
  | J (JInt n) => pretty n
  | J (JBool b) => if b then "True" else "False"
  | J JNull => "None"
  | v => str_of v
  end.

(** [a or b] *)
Definition vor (a b : value) : value := if vtruthy a then a else b.

(** [int(v)]; [int(inf)] is an OverflowError, [int(nan)] a ValueError. *)
Definition vint (v : value) : result Z :=
  match v with
  | J (JInt n) => Ok n
  | J (JBool b) => Ok (if b then 1 else 0)
  | J (JFloat x) => Ok (ftrunc x)
  | J (JStr s) => match int_of_str s with Some n => Ok n | None => Raise ValueError end
  | J _ => Raise TypeError
  | VInf _ => Raise OverflowError
  | VNaN => Raise ValueError
  end.

(** [float(n)] of an int; one beyond the floats is an OverflowError. *)
Definition float_of_int (n : Z) : result float :=
  match finite_or_inf (fint n) with PFloat x => Ok x | _ => Raise OverflowError end.

(** [float(v)]. *)
Definition vfloat (v : value) : result pynum :=
  match v with
  | J (JInt n) => match float_of_int n with Ok x => Ok (PFloat x) | Raise e => Raise e end
  | J (JBool b) => Ok (PFloat (fint (if b then 1 else 0)))
  | J (JFloat x) => Ok (PFloat x)
  | J (JStr s) => match float_of_string s with Some x => Ok x | None => Raise ValueError end
  | J _ => Raise TypeError
  | VInf negative => Ok (PInf negative)
  | VNaN => Ok PNaN
  end.

(** [math.isfinite], with the finite value. *)
Definition finite (x : pynum) : option float :=
  match x with PFloat x => Some x | _ => None end.

(** ** Floats stay floats *)

Lemma float_of_dec_is_float d : is_float (float_of_dec d).
Proof.
  unfold float_of_dec. destruct (Z.leb_spec 0 (dexp d)); apply flit_is_float; [lia|].
  apply pow10_pos. lia.
Qed.

Lemma finite_or_inf_float x y : finite_or_inf x = PFloat y → y = x.
Proof. unfold finite_or_inf. destruct (_ <? _); congruence. Qed.

Lemma float_of_int_Ok n x : float_of_int n = Ok x → x = fint n.
Proof.
  unfold float_of_int. destruct (finite_or_inf _) eqn:Hf; try done. intros [= <-].
  by apply finite_or_inf_float in Hf.
Qed.

Lemma float_of_int_small n : Z.abs n <= 2 ^ 53 → float_of_int n = Ok (fint n).
Proof.
  intros Hn. unfold float_of_int, finite_or_inf. rewrite (fint_exact n Hn), Z.abs_mul.
  rewrite (Z.abs_eq FU) by (pose proof FU_pos; lia). rewrite (proj2 (Z.ltb_lt _ _)); [done|].
  apply Z.mul_lt_mono_pos_r; [apply FU_pos|]. eapply Z.le_lt_trans; [exact Hn | by vm_compute].
Qed.

Lemma float_of_string_float s x : float_of_string s = Some (PFloat x) → is_float x.
Proof.
  assert (Hu : ∀ neg s, unsigned_float neg s = Some (PFloat x) → is_float x).
  { clear s. intros neg s. unfold unsigned_float.
    repeat match goal with
    | |- (if ?b then _ else _) = _ → _ => destruct b
    | |- (let '(_, _) := ?t in _) = _ → _ => destruct t
    | |- (match ?t with (_, _) => _ end) = _ → _ => destruct t
    end; try done.
    intros (e & _ & He)%bind_Some. apply (inj Some) in He. apply finite_or_inf_float in He as ->.
    apply float_of_dec_is_float. }
  unfold float_of_string. repeat case_match; by apply Hu.
Qed.

(** A payload's numbers are binary64 values. *)
Definition value_wf (v : value) : Prop := match v with J (JFloat x) => is_float x | _ => True end.
Definition payload_wf (p : payload) : Prop := ∀ k v, (k, v) ∈ p → value_wf v.

Lemma vget_wf k dflt p : payload_wf p → value_wf dflt → value_wf (vget k dflt p).
Proof.
  intros Hp Hd. unfold vget. destruct (vassoc k p) as [v|] eqn:Hv; [|done]. simpl.
  induction p as [|[k' v'] p IH]; [done|]. simpl in Hv. destruct (String.eqb k k').
  - injection Hv as <-. apply (Hp k'). left.
  - apply IH; [|done]. intros i x Hx. apply (Hp i). by right.
Qed.

Lemma vfloat_float v x : value_wf v → vfloat v = Ok (PFloat x) → is_float x.
Proof.
  intros Hv. destruct v as [[]| |]; simpl in *; try done.
  - intros [= <-]. by apply flit_is_float.
  - destruct (float_of_int n) eqn:Hf; [|done]. intros [= <-].
    apply float_of_int_Ok in Hf as ->. by apply flit_is_float.
  - by intros [= <-].
  - destruct (float_of_string s) as [y|] eqn:Hs; [|done]. intros [= ->].
    by eapply float_of_string_float.
Qed.
