(* ===== verification/Auth.v ===== *)
(** * services/auth.py, services/rbac.py: passwords, tokens, roles

    bcrypt, SHA-256 and the JWT library are outside the repository: [Crypto]
    lists what the code calls, [CryptoLaws] what their documentation promises.
    Random values ([secrets.token_urlsafe], [bcrypt.gensalt]) are arguments of
    the operations that draw them. *)

From stdpp Require Import pretty.
From Stdlib Require Import Ascii.
From S2P Require Import Prelude Rounding PyNum Money Models Config TelemetryStore World Hoare.
From S2P Require Import PyString PyJson.

(** ** The claims of a token *)

Record claims := mkclaims {
  sub : string;
  claim_role : UserRole;
  claim_email : string;
  tv : Z;
  iat : datetime;
  exp : datetime }.

(** What is read of a decoded token: [payload.get("sub")], [payload.get("tv", 0)]. *)
Record token_payload := mkpayload { payload_sub : option string; payload_tv : option Z }.

Class Crypto := {
  (* [None]: ValueError *)
  bcrypt_hashpw : string → string → option string;
  bcrypt_checkpw : string → string → option bool;
  sha256_hexdigest : string → string;
  jwt_encode : claims → string;
  (* [None]: JWTError *)
  jwt_decode : datetime → string → option token_payload }.

Class CryptoLaws `{Crypto} : Prop := {
  checkpw_hashpw : ∀ password salt h,
    bcrypt_hashpw password salt = Some h → bcrypt_checkpw password h = Some true;
  (* a token reads as it was signed, until it expires *)
  jwt_decode_encode : ∀ now c, jwt_decode now (jwt_encode c) = Some (mkpayload (Some (sub c)) (Some (tv c))) ∨
    jwt_decode now (jwt_encode c) = None;
  jwt_decode_fresh : ∀ now c, now + seconds 1 <= exp c →
    jwt_decode now (jwt_encode c) = Some (mkpayload (Some (sub c)) (Some (tv c))) }.

(** ** Passwords and emails *)

(** [plain_password.encode("utf-8")[:72]] *)
Definition password_bytes (plain_password : string) : string := String.substring 0 72 plain_password.

Definition normalize_email (email : string) : string := lower (strip email).

Example normalize_email_ex : normalize_email "  Driver@X.com " = "driver@x.com"%string.
Proof. reflexivity. Qed.

Section Auth.
Context `{cfg : Config, cr : Crypto}.
Implicit Types (uid now : Z).

Definition hash_password (plain_password salt : string) : M string :=
  match bcrypt_hashpw (password_bytes plain_password) salt with
  | Some h => mret h
  | None => raise ValueError
  end.

Definition verify_password (plain_password hashed_password : string) : bool :=
  default false (bcrypt_checkpw (password_bytes plain_password) hashed_password).

(** ** Tokens *)

Definition create_access_token uid (role : UserRole) (email : string) (token_version now : Z) : string :=
  jwt_encode (mkclaims (pretty uid) role email token_version now (now + JWT_EXPIRY)).

Definition decode_access_token (token : string) now : option token_payload := jwt_decode now token.

Definition get_current_user (token : string) now : M (Z * User.t) :=
  payload ← or_raise (decode_access_token token now) 401 "Invalid or expired authentication token.";
  user_id ← or_raise (payload_sub payload) 401 "Token is missing user identity.";
  uid ← match int_of_str user_id with Some n => mret n | None => raise ValueError end;
  found ← query (λ d, users d !! uid);
  user ← or_raise found 401 "User account not found.";
  refuse (negb (default 0 (payload_tv payload) =? User.token_version user)) 401 "Session has been revoked.";;
  refuse (User.is_disabled user) 403 "account_disabled";;
  mret (uid, user).

(** The dependency in front of a route restricted to [allowed_roles]. *)
Definition require_role (allowed_roles : list UserRole) (token : string) now : M (Z * User.t) :=
  '(uid, user) ← get_current_user token now;
  refuse (negb (bool_decide (User.role user ∈ allowed_roles))) 403 "Access denied.";;
  mret (uid, user).

End Auth.

(** ** [int(str(uid))] *)

Fixpoint spaceless (s : string) : Prop :=
  match s with EmptyString => True | String c s => is_space c = false ∧ spaceless s end.

Lemma spaceless_rev_app s t : spaceless (String.rev_app s t) ↔ spaceless s ∧ spaceless t.
Proof.
  revert t. induction s as [|c s IH]; intros t; simpl; [tauto|]. rewrite IH. simpl. tauto.
Qed.

Lemma rev_app_rev_app (s t u : string) :
  String.rev_app (String.rev_app s t) u = String.rev_app t (String.app s u).
Proof. revert t. induction s as [|c s IH]; intros t; simpl; [done|]. by rewrite IH. Qed.

Lemma lstrip_spaceless s : spaceless s → lstrip s = s.
Proof. destruct s as [|c s]; [done|]. intros [Hc _]. simpl. by rewrite Hc. Qed.

Lemma strip_spaceless s : spaceless s → strip s = s.
Proof.
  intros Hs. unfold strip. rewrite (lstrip_spaceless s Hs).
  rewrite lstrip_spaceless by (apply spaceless_rev_app; done).
  unfold String.rev. rewrite rev_app_rev_app. simpl. clear Hs. induction s as [|c s IH]; [done|].
  change (String c (String.app s "") = String c s). by f_equal.
Qed.

(** Decimal digits read back. *)
Lemma pretty_N_char_digit n :
  (n < 10)%N → digit (pretty_N_char n) = Some (Z.of_N n) ∧ is_space (pretty_N_char n) = false.
Proof.
  intros Hn. assert (n = 0 ∨ n = 1 ∨ n = 2 ∨ n = 3 ∨ n = 4 ∨ n = 5 ∨ n = 6 ∨ n = 7 ∨ n = 8 ∨ n = 9)%N
    as Hc by lia. by destruct_or!; subst.
Qed.

Lemma digits_pretty_N_go n s :
  (0 < n)%N → digits_value false 0 (pretty_N_go n s) = digits_value true (Z.of_N n) s.
Proof.
  revert s. induction (N.lt_wf_0 n) as [n _ IH]; intros s Hn. rewrite pretty_N_go_step by done.
  destruct (pretty_N_char_digit (n `mod` 10)) as [Hd _]; [by apply N.mod_lt|].
  pose proof (N.div_mod n 10 ltac:(done)) as Hdm. pose proof (N.div_lt n 10 Hn ltac:(done)) as Hlt.
  destruct (decide (n `div` 10 = 0)%N) as [H0|H0].
  - rewrite H0, pretty_N_go_0. simpl. rewrite Hd. f_equal. rewrite H0 in Hdm. lia.
  - rewrite IH by first [exact Hlt | by apply N.neq_0_lt_0]. simpl. rewrite Hd. f_equal. lia.
Qed.

Lemma spaceless_pretty_N_go n s : spaceless s → spaceless (pretty_N_go n s).
Proof.
  revert s. induction (N.lt_wf_0 n) as [n _ IH]; intros s Hs.
  destruct (decide (0 < n)%N) as [Hn|]; [|assert (n = 0%N) as -> by lia; done].
  rewrite pretty_N_go_step by done. apply IH; [by apply N.div_lt|]. split; [|done].
  apply pretty_N_char_digit. by apply N.mod_lt.
Qed.

Lemma pretty_N_go_head n s : (0 < n)%N →
  ∃ c r, pretty_N_go n s = String c r ∧ is_Some (digit c).
Proof.
  revert s. induction (N.lt_wf_0 n) as [n _ IH]; intros s Hn. rewrite pretty_N_go_step by done.
  destruct (decide (n `div` 10 = 0)%N) as [H0|H0].
  - rewrite H0, pretty_N_go_0. eexists _, _. split; [done|].
    destruct (pretty_N_char_digit (n `mod` 10)) as [-> _]; [by apply N.mod_lt | done].
  - apply IH; [by apply N.div_lt | by apply N.neq_0_lt_0].
Qed.

Lemma int_of_str_pretty uid : 0 <= uid → int_of_str (pretty uid) = Some uid.
Proof.
  intros Hu. destruct uid as [|n|n]; [done | | done].
  change (pretty (Zpos n)) with (pretty (Npos n)).
  assert (Hp : pretty (Npos n) = pretty_N_go (Npos n) "") by done.
  unfold int_of_str. rewrite Hp, strip_spaceless by (by apply spaceless_pretty_N_go).
  destruct (pretty_N_go_head (Npos n) "" ltac:(lia)) as (c & r & Hs & Hc).
  pose proof (digits_pretty_N_go (Npos n) "" ltac:(lia)) as Hd. rewrite Hs in Hd |- *.
  destruct c as [[] [] [] [] [] [] [] []]; first [exact Hd | by destruct Hc].
Qed.
