(* ===== verification/Wallet.v ===== *)
(** * services/wallet.py and the ledger

    [credit_wallet] and [debit_wallet_clamped] write [users.coin_balance], and
    besides them account closure and the console's adjustment; every caller adds
    the matching [LedgerTransaction] in the same transaction.  [available_balance] is what a new authorization
    hold may still reserve. *)

From S2P Require Import Prelude Rounding PyNum Money Models Config TelemetryStore World Hoare.

Implicit Types (d : db) (uid sid : Z) (amount : money).

(** [UPDATE users SET coin_balance = b]: the CHECK (coin_balance >= 0) refuses a
    negative balance, NUMERIC(12,2) one that it cannot hold. *)
Definition refused_balance (b : money) : exn := if b <? 0 then IntegrityError else DataError.

Definition write_balance uid (b : money) : M unit :=
  if (0 <=? b) && (b <=? MAX_MONEY)
  then modify (λ d, d <| users ::= alter (λ u, u <| User.coin_balance := b |>) uid |>)
  else raise (refused_balance b).

Definition credit_wallet uid amount : M (option money) :=
  u ← query (λ d, users d !! uid);
  match u with
  | None => mret None
  | Some u =>
      let b := User.coin_balance u + amount in
      write_balance uid b;; mret (Some b)
  end.

Definition debit_wallet_clamped uid amount : M (money * money) :=
  prev ← query (λ d, User.coin_balance <$> users d !! uid);
  prev_balance ← scalar_one prev;
  let prev_balance := Z.max prev_balance ZERO_MONEY in
  let actual_debit := Z.min amount prev_balance in
  let new_balance := prev_balance - actual_debit in
  write_balance uid new_balance;;
  mret (actual_debit, new_balance).

Definition is_active (s : ChargingSession.t) : bool :=
  bool_decide (ChargingSession.status s = ACTIVE).

(** The coins one session holds of [uid]'s wallet. *)
Definition hold_of uid (s : ChargingSession.t) : money :=
  if (ChargingSession.user_id s =? uid) && is_active s
  then default ZERO_MONEY (ChargingSession.hold_coins s) else 0.

Definition held d uid : money := msum (hold_of uid) (sessions d).

Definition available_balance uid : M money :=
  query (λ d, match users d !! uid with
              | None => ZERO_MONEY
              | Some u => to_money_amount (User.coin_balance u - held d uid)
              end).

(** [db.add(LedgerTransaction(...))]; [razorpay_payment_id] is UNIQUE. *)
Definition add_ledger (l : LedgerTransaction.t) : M unit :=
  dup ← query (λ d, match LedgerTransaction.razorpay_payment_id l with
       | None => false
       | Some p => exists_row (λ _ r, bool_decide (LedgerTransaction.razorpay_payment_id r = Some p))
                     (ledger d)
       end);
  if dup : bool then raise IntegrityError
  else (i ← fresh; modify (λ d, d <| ledger ::= <[i := l]> |>)).

(** ** The ledger reconciles *)

Definition ledger_of uid (l : LedgerTransaction.t) : money :=
  if LedgerTransaction.user_id l =? uid then LedgerTransaction.amount l else 0.

Definition booked d uid : money := msum (ledger_of uid) (ledger d).

Definition balance d uid : money := default 0 (User.coin_balance <$> users d !! uid).

(** Every wallet is the sum of its ledger and never negative, and the ids of
    the ledger's rows have been given out. *)
Record ledger_ok d : Prop := {
  ledger_sum : ∀ uid u, users d !! uid = Some u → User.coin_balance u = booked d uid;
  ledger_range : ∀ uid u, users d !! uid = Some u → 0 <= User.coin_balance u <= MAX_MONEY;
  ledger_ids : ∀ i, next_id d <= i → ledger d !! i = None }.

(** ** Facts *)

Lemma wp_write_balance uid b Q w :
  (0 <= b <= MAX_MONEY →
   Q (Ok tt) (w <| cur ::= (λ d, d <| users ::= alter (λ u, u <| User.coin_balance := b |>) uid |>) |>)) →
  (¬ 0 <= b <= MAX_MONEY → Q (Raise (refused_balance b)) w) →
  wp (write_balance uid b) Q w.
Proof.
  intros H1 H2. unfold write_balance.
  destruct (Z.leb_spec 0 b), (Z.leb_spec b MAX_MONEY); simpl;
    [apply wp_modify, H1 | apply wp_raise, H2..]; lia.
Qed.

Lemma booked_insert d d' uid i l :
  ledger d !! i = None → ledger d' = <[i := l]> (ledger d) →
  booked d' uid = ledger_of uid l + booked d uid.
Proof. intros Hi Hl. unfold booked. by rewrite Hl, msum_insert_None. Qed.

(** One wallet moves by [amount] and a ledger row of that amount is added. *)
Definition moved d d' uid b l : Prop :=
  users d' = alter (λ u, u <| User.coin_balance := b |>) uid (users d) ∧
  ∃ i, next_id d <= i < next_id d' ∧ ledger d' = <[i := l]> (ledger d).

Lemma moved_ledger_ok d d' uid u b l :
  ledger_ok d → moved d d' uid b l → users d !! uid = Some u →
  LedgerTransaction.user_id l = uid →
  LedgerTransaction.amount l = b - User.coin_balance u → 0 <= b <= MAX_MONEY →
  ledger_ok d'.
Proof.
  intros [Hsum Hrange Hids] (Hu & k & Hk & Hl) Huid Hlu Hla Hb.
  assert (Hbook : ∀ v, booked d' v = ledger_of v l + booked d v)
    by (intros v; apply (booked_insert _ _ _ k); [apply Hids; lia | done]).
  split.
  - intros v x. rewrite Hu, Hbook. unfold ledger_of. rewrite Hlu.
    destruct (decide (uid = v)) as [<-|Hv].
    + rewrite lookup_alter_eq, Huid, Z.eqb_refl. simpl. intros [= <-]. simpl.
      rewrite <- (Hsum uid u) by done. lia.
    + rewrite lookup_alter_ne by done. intros Hx. rewrite (Hsum v x) by done.
      destruct (Z.eqb_spec uid v); [done | lia].
  - intros v x. rewrite Hu. destruct (decide (uid = v)) as [<-|Hv].
    + rewrite lookup_alter_eq, Huid. simpl. by intros [= <-].
    + rewrite lookup_alter_ne by done. apply Hrange.
  - intros i Hi. rewrite Hl, lookup_insert_ne by lia. apply Hids. lia.
Qed.

(** The invariant looks at the wallets, the ledger and the sequence only. *)
Lemma ledger_ok_frame d d' :
  ledger_ok d → users d' = users d → ledger d' = ledger d → next_id d <= next_id d' →
  ledger_ok d'.
Proof.
  intros [Hsum Hrange Hids] Hu Hl Hn. split.
  - intros uid u. unfold booked. rewrite Hu, Hl. apply Hsum.
  - intros uid u. rewrite Hu. apply Hrange.
  - intros i Hi. rewrite Hl. apply Hids. lia.
Qed.

(** What [debit_wallet_clamped] collects and leaves. *)
Lemma debit_clamped_amounts amount prev :
  0 <= prev → Z.min amount (Z.max prev 0) <= amount ∧
  Z.max prev 0 - Z.min amount (Z.max prev 0) = Z.max 0 (prev - amount).
Proof. lia. Qed.

Lemma wp_debit uid amount u Q w :
  users (cur w) !! uid = Some u → 0 <= User.coin_balance u <= MAX_MONEY → 0 <= amount →
  (let actual := Z.min amount (User.coin_balance u) in
   let b := User.coin_balance u - actual in
   Q (Ok (actual, b))
     (w <| cur ::= (λ d, d <| users ::= alter (λ u, u <| User.coin_balance := b |>) uid |>) |>)) →
  wp (debit_wallet_clamped uid amount) Q w.
Proof.
  intros Hu Hb Ha HQ. unfold debit_wallet_clamped.
  do 2 wp_step. rewrite Hu. do 2 wp_step; [|done].
  unfold ZERO_MONEY. simplify_eq/=. rewrite Z.max_l by lia.
  wp_step. apply wp_write_balance; [|lia]. intros _. apply wp_ret. apply HQ.
Qed.

Lemma wp_credit uid amount Q w :
  (users (cur w) !! uid = None → Q (Ok None) w) →
  (∀ u, users (cur w) !! uid = Some u →
     let b := User.coin_balance u + amount in
     (0 <= b <= MAX_MONEY →
      Q (Ok (Some b))
        (w <| cur ::= (λ d, d <| users ::= alter (λ u, u <| User.coin_balance := b |>) uid |>) |>)) ∧
     (¬ 0 <= b <= MAX_MONEY → Q (Raise (refused_balance b)) w)) →
  wp (credit_wallet uid amount) Q w.
Proof.
  intros HN HS. unfold credit_wallet. do 2 wp_step.
  destruct (users (cur w) !! uid) as [u|] eqn:Hu; [|apply wp_ret; auto].
  destruct (HS u eq_refl) as [H1 H2]. cbv zeta. wp_step.
  apply wp_write_balance; [intros Hb; by apply wp_ret, H1 | done].
Qed.

(** A ledger row without an external id is always accepted. *)
Lemma wp_add_ledger l (Q : result unit → world → Prop) w :
  LedgerTransaction.razorpay_payment_id l = None →
  Q (Ok tt) (w <| cur ::= (λ d, d <| ledger ::= <[next_id d := l]> |> <| next_id ::= Z.succ |>) |>) →
  wp (add_ledger l) Q w.
Proof. intros Hl HQ. unfold add_ledger. rewrite Hl. wp_run. exact HQ. Qed.

(** ** Authorization holds *)

(** Every running session has reserved its worst case, and the reservations of
    a driver never exceed the wallet. *)
Record wallet_ok d : Prop := {
  wallet_ledger : ledger_ok d;
  wallet_held : ∀ uid u, users d !! uid = Some u → held d uid <= User.coin_balance u;
  wallet_holds : ∀ sid s, sessions d !! sid = Some s → is_active s = true →
    (∃ h, ChargingSession.hold_coins s = Some h ∧ 0 <= h) ∧
    is_Some (users d !! ChargingSession.user_id s) }.

Lemma hold_of_nonneg d uid sid s :
  wallet_ok d → sessions d !! sid = Some s → 0 <= hold_of uid s.
Proof.
  intros Hok Hs. unfold hold_of.
  destruct (_ =? _), (is_active s) eqn:Ha; simpl; try lia.
  destruct (wallet_holds d Hok sid s Hs Ha) as [(h & -> & Hh) _]. done.
Qed.

Lemma hold_inactive uid s : is_active s = false → hold_of uid s = 0.
Proof. intros Ha. unfold hold_of. by rewrite Ha, andb_false_r. Qed.

(** One session's hold is covered by its driver's wallet. *)
Lemma hold_covered d sid s h u :
  wallet_ok d → sessions d !! sid = Some s → is_active s = true →
  ChargingSession.hold_coins s = Some h → users d !! ChargingSession.user_id s = Some u →
  0 <= h <= User.coin_balance u.
Proof.
  intros Hok Hs Ha Hh Hu.
  destruct (wallet_holds d Hok sid s Hs Ha) as [(h' & Hh' & H0) _].
  assert (h' = h) as -> by congruence. split; [done|].
  pose proof (wallet_held d Hok _ u Hu) as Hheld.
  assert (hold_of (ChargingSession.user_id s) s <= held d (ChargingSession.user_id s)) as Hle.
  { apply (msum_elem_le _ _ sid); [|done]. intros. by eapply hold_of_nonneg. }
  unfold hold_of in Hle. rewrite Z.eqb_refl, Ha, Hh in Hle. simpl in Hle. lia.
Qed.

(** The holds follow one session's update. *)
Lemma held_alter d d' uid sid s s' :
  sessions d !! sid = Some s → sessions d' = <[sid := s']> (sessions d) →
  held d' uid = held d uid - hold_of uid s + hold_of uid s'.
Proof. intros Hs Hd'. unfold held. rewrite Hd'. by apply msum_update. Qed.

(** Adding to a wallet never endangers its holds. *)
Lemma credit_wallet_ok d d' uid u b l :
  wallet_ok d → moved d d' uid b l → sessions d' = sessions d → users d !! uid = Some u →
  LedgerTransaction.user_id l = uid →
  LedgerTransaction.amount l = b - User.coin_balance u →
  User.coin_balance u <= b <= MAX_MONEY → wallet_ok d'.
Proof.
  intros Hok Hm Hs Hu Hlu Hla Hb. pose proof (wallet_ledger d Hok) as Hl. split.
  - eapply moved_ledger_ok; try done. pose proof (ledger_range d Hl uid u Hu). lia.
  - intros v x. unfold held. rewrite Hs. destruct Hm as (-> & _).
    destruct (decide (uid = v)) as [<-|Hv].
    + rewrite lookup_alter_eq, Hu. intros [= <-]. simpl.
      pose proof (wallet_held d Hok uid u Hu). unfold held in *. lia.
    + rewrite lookup_alter_ne by done. apply (wallet_held d Hok).
  - intros sid s. rewrite Hs. intros Hsid Ha. destruct (wallet_holds d Hok sid s Hsid Ha).
    split; [done|]. destruct Hm as (-> & _). by apply lookup_alter_is_Some.
Qed.
