(* ===== verification/Commands.v ===== *)
(** * services/mqtt/commands.py: outbound commands

    A publish records the payload and the broker client's answer
    ([mqtt_ack], outside the repository). *)

From S2P Require Import Prelude Rounding PyNum Money Models Config TelemetryStore World Hoare.

Section Commands.
Context `{cfg : Config}.

Definition publish (c : mqtt_command) : M bool :=
  let ok := mqtt_ack c in emit (Publish c ok);; mret ok.

(** [if local_ip:] leaves an empty address out of the payload. *)
Definition nonempty (s : string) : option string :=
  if String.eqb s "" then None else Some s.

(** The defaults of the keyword arguments [max_duration] and [max_kwh]. *)
Definition default_max_duration : Z := 14400.
Definition default_max_kwh : float := flit 30 1.

Definition send_plug_command (gateway_id : string) (plug_id : Z) (action : plug_action)
    (max_duration : Z) (max_kwh : float) (session_id : option Z) (local_ip : string)
    (max_current_a : option float) : M bool :=
  publish (CmdPlug gateway_id plug_id action max_duration max_kwh session_id
             (nonempty local_ip) max_current_a).

(** An OFF carries no limits, session or cap of its own. *)
Definition send_off (plug_id : Z) (plug : Plug.t) : M bool :=
  send_plug_command (Plug.gateway_id plug) plug_id OFF default_max_duration default_max_kwh
    None (Plug.local_ip plug) None.

Definition send_plug_interval (gateway_id : string) (plug_id interval_ms : Z) : M bool :=
  publish (CmdInterval gateway_id plug_id interval_ms).

Definition send_plug_limits (gateway_id : string) (plug_id : Z) (max_kwh : float)
    (max_duration_seconds : Z) (local_ip : string) (max_current_a : option float) : M bool :=
  publish (CmdLimits gateway_id plug_id max_kwh max_duration_seconds local_ip max_current_a).

(** The roster of a gateway, on (re)connect. *)
Definition publish_roster_for_gateway (gateway_id : string) : M bool :=
  rows ← query (λ d, select (λ _ p, bool_decide (Plug.gateway_id p = gateway_id)) (plugs d));
  publish (CmdRoster gateway_id
             (map (λ r, (r.1, Plug.local_ip r.2, Plug.max_current_a r.2)) rows)).

(** The command rides the topic of one of the gateway's plugs. *)
Definition send_gateway_ota (gateway_id : string) (plug_id : Z) (firmware_url : string) : M bool :=
  publish (CmdOta gateway_id plug_id firmware_url).

(** services/mqtt_manager.py: the firmware has no notion of "no limit". *)
Definition firmware_duration (max_duration_seconds : option Z) : Z :=
  default UNLIMITED_DURATION_SECONDS max_duration_seconds.
Definition firmware_max_kwh (max_kwh : option float) : float :=
  default UNLIMITED_MAX_KWH max_kwh.
End Commands.
