(* ===== verification/Caps.v ===== *)
(** * services/caps.py, services/capacity.py, services/plug_watch.py

    Circuit admission: a start is refused when the caps of the group's active
    plugs plus the starting plug's exceed the circuit's limit; and the one-shot
    fan-outs to the drivers waiting for a plug or for room on its circuit. *)

From S2P Require Import Prelude Rounding PyNum Money Models Config TelemetryStore World Hoare.
From S2P Require Import Wallet.

Section Caps.
Context `{cfg : Config}.
Implicit Types (d : db).

Definition effective_plug_cap (plug : Plug.t) : float :=
  default DEFAULT_PLUG_CAP_A (Plug.max_current_a plug).

(** The active sessions of a group's plugs (the join of the load queries). *)
Definition on_circuit d (group_id : Z) (exclude : option Z) (s : ChargingSession.t) : bool :=
  match plugs d !! ChargingSession.plug_id s with
  | None => false
  | Some p =>
      is_active s && bool_decide (Plug.group_id p = Some group_id) &&
      negb (bool_decide (exclude = Some (ChargingSession.plug_id s)))
  end.

Definition cap_of d (s : ChargingSession.t) : float :=
  match plugs d !! ChargingSession.plug_id s with
  | None => 0
  | Some p => effective_plug_cap p
  end.

(** [sum(...)]: floats added one after the other, in row order. *)
Definition fsum (l : list float) : float := foldl fadd 0 l.

Definition circuit_rows d group_id exclude : list (Z * ChargingSession.t) :=
  select (λ _ s, on_circuit d group_id exclude s) (sessions d).

Definition circuit_load_a d group_id exclude : float :=
  fsum (map (λ r, cap_of d r.2) (circuit_rows d group_id exclude)).

(** The plug's live current, unless missing, idle or stale. *)
Definition fresh_measured_current_a (st : TelemetryStore.t) (now : float) (plug_id : Z)
    : option float :=
  match TelemetryStore.get_latest st plug_id with
  | None => None
  | Some snap =>
      if TelemetryStore.current_a snap <=? 0 then None
      else if TELEMETRY_STALE_AFTER_SEC <? fsub now (TelemetryStore.updated_at snap) then None
      else Some (TelemetryStore.current_a snap)
  end.

Definition measured_circuit_load_a d (st : TelemetryStore.t) (now : float) group_id exclude
    : float :=
  fsum (map (λ r, default (cap_of d r.2)
          (fresh_measured_current_a st now (ChargingSession.plug_id r.2)))
        (circuit_rows d group_id exclude)).

(** [1e-6], the slack of the comparison. *)
Definition epsilon : float := flit 1 1000000.

Definition check_circuit_admission (plug_id : Z) (plug : Plug.t) : M unit :=
  if negb ENFORCE_CIRCUIT_ADMISSION then mret tt
  else match Plug.group_id plug with
  | None => mret tt
  | Some gid =>
      group ← query (λ d, groups d !! gid);
      match group ≫= ChargerGroup.max_current_a with
      | None => mret tt
      | Some limit =>
          load ← query (λ d, circuit_load_a d gid (Some plug_id));
          let projected := fadd load (effective_plug_cap plug) in
          refuse (fadd limit epsilon <? projected) 409 "circuit_full"
      end
  end.

(** ** Fan-outs *)

Definition not_excluded (exclude : option Z) (uid : Z) : bool :=
  negb (bool_decide (exclude = Some uid)).

Definition notify_watchers_plug_available (plug_id : Z) (exclude : option Z) : M Z :=
  catch
    (rows ← query (λ d, select (λ _ x, (PlugWatch.plug_id x =? plug_id) &&
                                 not_excluded exclude (PlugWatch.user_id x)) (watches d));
     match rows with
     | [] => mret 0
     | _ =>
         for_each rows (λ r, emit (Notify (PlugWatch.user_id r.2) "plug_available" "info"
                                     (Some plug_id) None));;
         modify (λ d, d <| watches ::= delete_where (λ i _, bool_decide (i ∈ rows.*1)) |>);;
         commit;;
         mret (Z.of_nat (length rows))
     end)
    (λ _, rollback;; mret 0).

Definition capacity_fits d (load limit : float) (r : Z * CapacityRequest.t) : bool :=
  match plugs d !! CapacityRequest.plug_id r.2 with
  | None => true
  | Some plug => fadd load (effective_plug_cap plug) <=? fadd limit epsilon
  end.

Definition notify_capacity_available (group_id : option Z) (exclude : option Z) : M Z :=
  match group_id with
  | None => mret 0
  | Some gid =>
    catch
      (group ← query (λ d, groups d !! gid);
       match group ≫= ChargerGroup.max_current_a with
       | None => mret 0
       | Some limit =>
         rows ← query (λ d, select (λ _ x, (CapacityRequest.group_id x =? gid) &&
                     not_excluded exclude (CapacityRequest.user_id x)) (capacity_requests d));
         match rows with
         | [] => mret 0
         | _ =>
           load ← query (λ d, circuit_load_a d gid None);
           fired ← query (λ d, List.filter (capacity_fits d load limit) rows);
           for_each fired (λ r,
             present ← query (λ d, plugs d !! CapacityRequest.plug_id r.2);
             match present with
             | None => mret tt
             | Some _ => emit (Notify (CapacityRequest.user_id r.2) "capacity_available" "info"
                                 (Some (CapacityRequest.plug_id r.2)) None)
             end);;
           (match fired with
            | [] => mret tt
            | _ =>
              modify (λ d, d <| capacity_requests ::=
                                  delete_where (λ i _, bool_decide (i ∈ fired.*1)) |>);;
              commit
            end);;
           mret (Z.of_nat (length fired))
         end
       end)
      (λ _, rollback;; mret 0)
  end.

(** ** Admission is exact

    Float sums depend on the order of the rows in general; on currents that are
    whole multiples of 2^-20 A, up to 2^33 A in all, they are exact. *)

Definition ampere_unit : Z := 2 ^ 1054.

Lemma ampere_unit_pos : 0 < ampere_unit.
Proof. apply Z.pow_pos_nonneg; lia. Qed.

#[local] Opaque ampere_unit.

Definition whole (x : float) : Prop := (ampere_unit | x) ∧ 0 <= x.

Lemma fadd_whole a b :
  whole a → whole b → a + b <= 2 ^ 53 * ampere_unit → fadd a b = a + b.
Proof.
  intros [[ka ->] Ha] [[kb ->] Hb] Hsum. unfold fadd, frnd.
  rewrite <- Z.mul_add_distr_r. rewrite <- Z.mul_add_distr_r in Hsum.
  assert (Hk : Z.abs (ka + kb) <= 2 ^ 53).
  { pose proof ampere_unit_pos. revert H Ha Hb Hsum. generalize ampere_unit (2 ^ 53).
    intros u k Hu Ha Hb Hsum. assert (0 <= ka) by nia. assert (0 <= kb) by nia. nia. }
  Transparent ampere_unit. unfold ampere_unit. Opaque ampere_unit.
  rewrite (rnd_shift 2 53 bits ltac:(lia) ltac:(lia) bits_count) by lia. f_equal.
  rewrite <- (Z.mul_1_r (ka + kb)) at 1.
  apply (rnd_small 2 53 bits ltac:(lia) ltac:(lia) bits_count); [lia | done].
Qed.

Lemma fsum_whole l acc :
  Forall whole l → whole acc → acc + lsum l <= 2 ^ 53 * ampere_unit →
  foldl fadd acc l = acc + lsum l.
Proof.
  revert acc. induction l as [|x l IH]; intros acc Hl Hacc Hb; simpl in *; [lia|].
  apply Forall_cons in Hl as [Hx Hl].
  assert (0 <= lsum l).
  { clear - Hl. induction Hl as [|y l [_ Hy] _ IH']; simpl; lia. }
  rewrite fadd_whole by (done || lia). rewrite IH; [lia | done | | lia].
  split; [apply Z.divide_add_r; [apply Hacc | apply Hx] | destruct Hacc, Hx; lia].
Qed.

(** The load of a circuit, in exact arithmetic. *)
Definition exact_load d group_id exclude : Z :=
  msum (λ s, if on_circuit d group_id exclude s then cap_of d s else 0) (sessions d).

Definition whole_caps d group_id exclude : Prop :=
  (∀ i s, sessions d !! i = Some s → on_circuit d group_id exclude s = true →
          whole (cap_of d s)) ∧
  exact_load d group_id exclude <= 2 ^ 53 * ampere_unit.

Lemma circuit_load_exact d group_id exclude :
  whole_caps d group_id exclude →
  circuit_load_a d group_id exclude = exact_load d group_id exclude.
Proof.
  intros [Hw Hb]. unfold circuit_load_a, exact_load, circuit_rows, fsum, select in *.
  rewrite msum_list in *. rewrite fsum_whole; [done | | | done].
  - apply Forall_map, Forall_forall. intros [i s] Hin.
    apply list_elem_of_In, filter_In in Hin as [Hin Hp].
    apply list_elem_of_In, elem_of_map_to_list in Hin. by apply (Hw i).
  - split; [apply Z.divide_0_r | lia].
Qed.

(** Circuit admission is exact: a start is let through precisely when the
    caps of the circuit's other active plugs plus the starting plug's own cap
    stay within the circuit's limit (plus the 1e-6 A slack). *)
Theorem admission_exact plug_id plug gid g limit w :
  ENFORCE_CIRCUIT_ADMISSION = true →
  Plug.group_id plug = Some gid → groups (cur w) !! gid = Some g →
  ChargerGroup.max_current_a g = Some limit →
  whole_caps (cur w) gid (Some plug_id) → whole (effective_plug_cap plug) →
  exact_load (cur w) gid (Some plug_id) + effective_plug_cap plug <= 2 ^ 53 * ampere_unit →
  check_circuit_admission plug_id plug w =
    (if exact_load (cur w) gid (Some plug_id) + effective_plug_cap plug <=? fadd limit epsilon
     then Ok tt else Raise (HTTPException 409 "circuit_full"), w).
Proof.
  intros Hen Hgid Hg Hlim Hcaps Hcap Hb. unfold check_circuit_admission.
  rewrite Hen, Hgid. simpl. unfold mbind, M_bind, query. rewrite Hg. simpl. rewrite Hlim.
  rewrite circuit_load_exact by exact Hcaps.
  rewrite (fadd_whole (exact_load _ _ _)); [| | exact Hcap | exact Hb].
  - unfold refuse. rewrite Z.leb_antisym. by destruct (_ <? _).
  - split.
    + unfold exact_load. rewrite msum_list. destruct Hcaps as [Hw _].
      apply lsum_divide, Forall_map, Forall_forall. intros [i s] Hin.
      apply list_elem_of_In, filter_In in Hin as [Hin Hp].
      apply list_elem_of_In, elem_of_map_to_list in Hin. by apply (Hw i).
    + apply msum_nonneg. intros i s Hs. destruct (on_circuit _ _ _ _) eqn:Ho; [|lia].
      by apply (proj1 Hcaps i s).
Qed.
End Caps.
