(* ===== verification/Pricing.v ===== *)
(** * services/pricing.py: resolving the rate of a plug

    The tariff chain (plug, group, tenant default, environment), the rate in
    force at an instant with the instant it may next change, the worst rate over
    a window (which sizes the authorization hold), the batched price display and
    the repricing of a running session. *)

From S2P Require Import Prelude Rounding PyNum Money Models Slots Config Billing TelemetryStore.
From S2P Require Import World Hoare Wallet.

Section Pricing.
Context `{cfg : Config}.
Implicit Types (d : db) (plug : Plug.t).

Definition DEFAULT_TZ : string := "Asia/Kolkata".

Definition default_rate : money := to_money (PFloat COINS_PER_KWH).

(** [_zone]: the first of the two names that [ZoneInfo] knows, else UTC. *)
Definition zone_named (name : string) : option zone :=
  if String.eqb name "" then None else zoneinfo name.
Definition zone_of (tz_name : string) : zone :=
  match zone_named tz_name with
  | Some z => z
  | None => match zone_named DEFAULT_TZ with Some z => z | None => utc_zone end
  end.

Definition to_local (t : datetime) (z : zone) : wall := utc_to_local z t.

Definition tenant_of d plug : option Tenant.t :=
  gateway ← gateways d !! Plug.gateway_id plug;
  tid ← Gateway.tenant_id gateway;
  tenants d !! tid.

Definition tz_name_of (tenant : option Tenant.t) : string :=
  match tenant with
  | Some t => if String.eqb (Tenant.timezone t) "" then DEFAULT_TZ else Tenant.timezone t
  | None => DEFAULT_TZ
  end.

(** [select(Tariff).where(id == tid)] for an optional id. *)
Definition tariff_row d (tid : option Z) : option (Z * Tariff.t) :=
  i ← tid; t ← tariffs d !! i; Some (i, t).

Definition group_tariff_id d plug : option Z :=
  gid ← Plug.group_id plug; g ← groups d !! gid; ChargerGroup.tariff_id g.

Definition resolve_tariff_and_tz d plug : option (Z * Tariff.t) * string :=
  let tenant := tenant_of d plug in
  let tariff := match tariff_row d (Plug.tariff_id plug) with
    | Some t => Some t
    | None =>
      match tariff_row d (group_tariff_id d plug) with
      | Some t => Some t
      | None => tariff_row d (t ← tenant; Tenant.default_tariff_id t)
      end
    end in
  (tariff, tz_name_of tenant).

Definition slots_of d (tid : Z) : list TariffSlot.t :=
  (select (λ _ s, TariffSlot.tariff_id s =? tid) (slots d)).*2.

Definition resolve_rate_window d plug (at_ : datetime) : money * option datetime :=
  let '(tariff, tz_name) := resolve_tariff_and_tz d plug in
  match tariff with
  | None => (default_rate, None)
  | Some (tid, tariff) =>
      let z := zone_of tz_name in
      let '(slot_rate, boundary) := slot_rate_and_bound (slots_of d tid) (to_local at_ z) in
      (default (to_money_amount (Tariff.price_per_kwh tariff)) slot_rate,
       local_to_utc z <$> boundary)
  end.

Definition resolve_rate_for_plug d plug at_ : money := (resolve_rate_window d plug at_).1.

(** The rates of the slots that meet [start, end] on the local day [day]. *)
Definition day_rates (ss : list TariffSlot.t) (start_local end_local day : wall) : list money :=
  map (λ s, to_money_amount (TariffSlot.price_per_kwh s))
    (List.filter (λ s, active_on (weekday day) s &&
        ((day + TariffSlot.start_min s * MINUTE <? end_local) &&
         (start_local <? day + TariffSlot.end_min s * MINUTE))) ss).

(** The [while day <= last_day] loop. *)
Fixpoint window_rates (fuel : nat) ss start_local end_local (day last_day : wall) : list money :=
  match fuel with
  | O => []
  | S fuel =>
      if day <=? last_day
      then day_rates ss start_local end_local day ++
           window_rates fuel ss start_local end_local (day + DAY) last_day
      else []
  end.

Definition max_rate_over_window d plug (start_at : datetime) (max_duration_seconds : Z) : money :=
  let '(tariff, tz_name) := resolve_tariff_and_tz d plug in
  match tariff with
  | None => default_rate
  | Some (tid, tariff) =>
      let base := to_money_amount (Tariff.price_per_kwh tariff) in
      let ss := slots_of d tid in
      match ss with
      | [] => base
      | _ =>
        if 24 * 3600 <=? max_duration_seconds
        then foldl Z.max base (map (λ s, to_money_amount (TariffSlot.price_per_kwh s)) ss)
        else
          let start_local := to_local start_at (zone_of tz_name) in
          let end_local := start_local + seconds max_duration_seconds in
          (* a window below 24 h touches at most two local days *)
          foldl Z.max base
            (window_rates 3 ss start_local end_local (day_start start_local) (day_start end_local))
      end
  end.

Definition resolve_price_display d plug (at_ : datetime) : money * option wall * option money :=
  let '(tariff, tz_name) := resolve_tariff_and_tz d plug in
  match tariff with
  | None => (default_rate, None, None)
  | Some (tid, tariff) =>
      price_display_from_slots (slots_of d tid) (to_local at_ (zone_of tz_name))
        (to_money_amount (Tariff.price_per_kwh tariff))
  end.

(** ** The batched display *)

(** One item: (plug id, plug, its group's tariff id, its tenant). *)
Definition item : Type := Z * Plug.t * option Z * option Tenant.t.

Definition chain_of (i : item) : list (option Z) :=
  let '(_, plug, group_tariff_id, tenant) := i in
  [Plug.tariff_id plug; group_tariff_id; t ← tenant; Tenant.default_tariff_id t].

Fixpoint pick_tariff (candidate_ids : list (option Z)) (tariffs_by_id : gmap Z Tariff.t)
    : option (Z * Tariff.t) :=
  match candidate_ids with
  | [] => None
  | Some tid :: rest =>
      match tariffs_by_id !! tid with
      | Some t => Some (tid, t)
      | None => pick_tariff rest tariffs_by_id
      end
  | None :: rest => pick_tariff rest tariffs_by_id
  end.

(** [slots_by_tariff.setdefault(s.tariff_id, []).append(s)], row by row. *)
Definition group_slots (rows : list TariffSlot.t) : gmap Z (list TariffSlot.t) :=
  foldl (λ m s, <[TariffSlot.tariff_id s :=
            default [] (m !! TariffSlot.tariff_id s) ++ [s]]> m) ∅ rows.

Definition display_item (tariffs_by_id : gmap Z Tariff.t)
    (slots_by_tariff : gmap Z (list TariffSlot.t)) (at_ : datetime) (i : item)
    : money * option wall * option money :=
  let '(_, plug, _, tenant) := i in
  match pick_tariff (chain_of i) tariffs_by_id with
  | None => (default_rate, None, None)
  | Some (tid, tariff) =>
      price_display_from_slots (default [] (slots_by_tariff !! tid))
        (to_local at_ (zone_of (tz_name_of tenant)))
        (to_money_amount (Tariff.price_per_kwh tariff))
  end.

Definition resolve_price_display_batch d (items : list item) (at_ : datetime)
    : gmap Z (money * option wall * option money) :=
  let candidate_ids : gset Z := list_to_set (omap id (concat (map chain_of items))) in
  let tariffs_by_id := filter (λ r : Z * Tariff.t, r.1 ∈ candidate_ids) (tariffs d) in
  let winner_ids : gset Z :=
    list_to_set (omap (λ i, fst <$> pick_tariff (chain_of i) tariffs_by_id) items) in
  let slots_by_tariff :=
    group_slots (select (λ _ s, bool_decide (TariffSlot.tariff_id s ∈ winner_ids)) (slots d)).*2 in
  foldl (λ out (i : item), <[i.1.1.1 := display_item tariffs_by_id slots_by_tariff at_ i]> out)
    ∅ items.

(** ** Repricing *)

(** The session after the check, and the new rate when it changed. *)
Definition reprice_session_if_due d (s : ChargingSession.t) plug (at_ : datetime)
    : ChargingSession.t * option (money * option datetime) :=
  match ChargingSession.rate_valid_until s with
  | None => (s, None)
  | Some valid_until =>
      if at_ <? valid_until then (s, None)
      else
        let '(new_rate, boundary) := resolve_rate_window d plug at_ in
        if bool_decide (ChargingSession.rate_coins_per_kwh s = Some new_rate)
        then (s <| ChargingSession.rate_valid_until := boundary |>, None)
        else (close_out_segment s new_rate (ChargingSession.energy_kwh s) boundary,
              Some (new_rate, boundary))
  end.

Definition mark_tenant_sessions_for_reprice (tenant_id : Z) (now : datetime) : M unit :=
  when AUTO_REPRICE_ACTIVE_SESSIONS
    (modify (λ d, d <| sessions ::= update_where
        (λ s, (ChargingSession.tenant_id s =? tenant_id) && is_active s)
        (λ s, s <| ChargingSession.rate_valid_until := Some now |>) |>)).

(** ** Facts *)

(** A zone without daylight saving. *)
Record fixed_offset (z : zone) : Prop := {
  offset_shift : ∀ t k, utc_to_local z (t + k) = utc_to_local z t + k;
  offset_inverse : ∀ t, local_to_utc z (utc_to_local z t) = t }.

Lemma fixed_zone_offset k : fixed_offset (fixed_zone k).
Proof. split; intros; simpl; lia. Qed.

(** The pricing data of a plug: slots as the endpoints accept them, in a zone
    without daylight saving. *)
Definition pricing_ok d plug : Prop :=
  let '(tariff, tz_name) := resolve_tariff_and_tz d plug in
  fixed_offset (zone_of tz_name) ∧
  ∀ tid t, tariff = Some (tid, t) → Forall slot_valid (slots_of d tid).

Lemma local_back z t b :
  fixed_offset z → local_to_utc z b = t + (b - to_local t z).
Proof.
  intros [Hs Hi]. unfold to_local.
  assert (Hb : utc_to_local z (t + (b - utc_to_local z t)) = b).
  { rewrite Hs. lia. }
  rewrite <- Hb at 1. apply Hi.
Qed.

Lemma local_later z t t' : fixed_offset z → to_local t' z = to_local t z + (t' - t).
Proof.
  intros [Hs _]. unfold to_local. rewrite <- (Hs t (t' - t)). f_equal. lia.
Qed.

Lemma rate_window_const d plug t :
  pricing_ok d plug →
  (∀ b, (resolve_rate_window d plug t).2 = Some b → t < b ∧ b <= t + days 8) ∧
  (∀ t', t <= t' → (∀ b, (resolve_rate_window d plug t).2 = Some b → t' < b) →
         (resolve_rate_window d plug t').1 = (resolve_rate_window d plug t).1).
Proof.
  unfold pricing_ok, resolve_rate_window.
  destruct (resolve_tariff_and_tz d plug) as [[[tid tariff]|] tz]; [|by split].
  intros [Hz Hv]. specialize (Hv tid tariff eq_refl).
  pose proof (slot_boundary_sound _ (to_local t (zone_of tz)) Hv) as Hs.
  destruct (slot_rate_and_bound _ (to_local t _)) as [rate ob]. simpl.
  destruct Hs as [Hb Hc]. split.
  - intros b (b' & -> & ->)%fmap_Some. specialize (Hb b' eq_refl).
    rewrite (local_back _ t _ Hz). unfold DAY, days, minutes, seconds in *. lia.
  - intros t' Htt Hlt.
    specialize (Hc (to_local t' (zone_of tz))). rewrite (local_later _ t t' Hz) in *.
    rewrite <- Hc; [by destruct (slot_rate_and_bound _ _) | lia |].
    intros b' ->. specialize (Hlt _ eq_refl). rewrite (local_back _ t _ Hz) in Hlt. lia.
Qed.

(** C27: the rate snapshotted on a session with its [rate_valid_until] stays the
    rate of the plug until that instant, which lies strictly ahead; with no
    boundary it is the rate for ever. *)
Theorem rate_window_sound d plug t :
  pricing_ok d plug →
  let '(rate, valid_until) := resolve_rate_window d plug t in
  (∀ b, valid_until = Some b → t < b ∧ b <= t + days 8) ∧
  (∀ t', t <= t' → (∀ b, valid_until = Some b → t' < b) →
         resolve_rate_for_plug d plug t' = rate).
Proof.
  intros Hok. pose proof (rate_window_const d plug t Hok) as H.
  unfold resolve_rate_for_plug. by destruct (resolve_rate_window d plug t).
Qed.

Lemma slot_rate_some slots_ t p :
  slot_rate slots_ t = Some p →
  ∃ m, m ∈ slots_ ∧ covers t m = true ∧ p = to_money_amount (TariffSlot.price_per_kwh m).
Proof.
  rewrite slot_rate_pick. intros (m & Hm & ->)%fmap_Some. apply pick_spec in Hm.
  apply picked_in, list_elem_of_In, filter_In in Hm as [Hin Hc]. apply list_elem_of_In in Hin. eauto.
Qed.

(** The loop visits every day of the window. *)
Lemma window_rates_visit ss sl el m fuel (k : nat) day :
  (k < fuel)%nat → (∀ j : nat, (j <= k)%nat → day + Z.of_nat j * DAY <= day_start el) →
  m ∈ day_rates ss sl el (day + Z.of_nat k * DAY) →
  m ∈ window_rates fuel ss sl el day (day_start el).
Proof.
  revert k day. induction fuel as [|fuel IH]; intros k day Hk Hdays Hm; [lia|]. simpl.
  pose proof (Hdays 0%nat ltac:(lia)) as H0. rewrite Z.add_0_r in H0.
  apply Z.leb_le in H0 as ->. apply elem_of_app. destruct k as [|k].
  - left. by rewrite Z.add_0_r in Hm.
  - right. apply (IH k); [lia | |].
    + intros j Hj. specialize (Hdays (S j) ltac:(lia)). clock.
    + replace (day + DAY + Z.of_nat k * DAY) with (day + Z.of_nat (S k) * DAY) by clock. done.
Qed.

(** Fuel 3 is enough: a window below 24 h ends the loop by itself. *)
Lemma window_rates_fuel ss sl el n :
  sl <= el → el < sl + DAY →
  window_rates (3 + n) ss sl el (day_start sl) (day_start el) =
  window_rates 3 ss sl el (day_start sl) (day_start el).
Proof.
  intros Hle Hlt. simpl.
  assert (day_start el <= day_start sl + DAY).
  { unfold day_start. pose proof DAY_val. div_facts sl DAY. div_facts el DAY. nia. }
  repeat case_match; try done.
  all: repeat match goal with H : (_ <=? _) = true |- _ => apply Z.leb_le in H end; clock.
Qed.

#[local] Arguments window_rates : simpl never.

(** C28: the authorization hold is sized at a rate the plug cannot exceed: at
    every instant of the session's window the rate is at most
    [max_rate_over_window]. *)
Theorem max_rate_is_bound d plug start duration t :
  pricing_ok d plug → start <= t → t < start + seconds duration →
  resolve_rate_for_plug d plug t <= max_rate_over_window d plug start duration.
Proof.
  unfold pricing_ok, resolve_rate_for_plug, resolve_rate_window, max_rate_over_window.
  destruct (resolve_tariff_and_tz d plug) as [[[tid tariff]|] tz]; [|simpl; lia].
  intros [Hz _] Hst Hlt. set (base := to_money_amount (Tariff.price_per_kwh tariff)).
  pose proof (slot_rate_spec (slots_of d tid) (to_local t (zone_of tz))) as Hr.
  destruct (slot_rate_and_bound _ _) as [rate ob]. simpl in *. subst rate.
  destruct (slot_rate _ _) as [p|] eqn:Hp; simpl.
  2:{ destruct (slots_of d tid); [lia|]. destruct (24 * 3600 <=? duration); apply (proj1 (foldl_max_ge _ _)). }
  apply slot_rate_some in Hp as (m & Hin & Hcov & ->).
  destruct (slots_of d tid) as [|s0 ss'] eqn:Hss; [by apply not_elem_of_nil in Hin|].
  rewrite <- Hss in *. clear s0 ss' Hss.
  destruct (Z.leb_spec (24 * 3600) duration) as [Hd|Hd];
    apply (proj2 (foldl_max_ge _ _)); [by apply (list_elem_of_fmap_2 (λ s, to_money_amount (TariffSlot.price_per_kwh s)))|].
  set (sl := to_local start (zone_of tz)). set (el := sl + seconds duration).
  assert (Hl : to_local t (zone_of tz) = sl + (t - start)) by (by apply local_later).
  destruct (day_split (to_local t (zone_of tz))) as (q & r & Hq & Hqr).
  destruct (day_split sl) as (qs & rs & Hqs & Hrs). destruct (day_split el) as (qe & re & Hqe & Hre).
  destruct (day_of sl qs rs Hqs Hrs) as (_ & Hds & _). destruct (day_of el qe re Hqe Hre) as (_ & Hde & _).
  assert (seconds duration < DAY) by (unfold DAY, days, minutes, seconds in *; lia).
  assert (Hk : qs <= q ∧ q <= qe ∧ q <= qs + 1) by (unfold el in *; clock).
  apply (window_rates_visit _ _ _ _ _ (Z.to_nat (q - qs))); [lia | |].
  - intros j Hj. rewrite Hds, Hde. clock.
  - rewrite Hds, Z2Nat.id by lia. replace (qs * DAY + (q - qs) * DAY) with (q * DAY) by clock.
    unfold day_rates. apply (list_elem_of_fmap_2 (λ s, to_money_amount (TariffSlot.price_per_kwh s))), list_elem_of_In, filter_In.
    split; [by apply list_elem_of_In|].
    destruct (proj1 (covers_day _ q r m Hq Hqr) Hcov) as (Ha & Hlo & Hhi).
    destruct (day_of (q * DAY) q 0) as (_ & _ & -> & _); [lia | clock|]. rewrite Ha. simpl.
    apply minute_lt in Hhi; [|lia]. apply andb_true_iff; rewrite !Z.ltb_lt.
    assert (TariffSlot.start_min m * MINUTE <= r).
    { apply Z.nlt_ge. intros Hr'. apply minute_lt in Hr'; lia. }
    unfold el in *. lia.
Qed.

(** Repricing is forward-only and makes progress: it never changes what the
    session owes for the energy metered so far; when a boundary is due the
    session leaves with the plug's rate at that instant and a next boundary
    strictly later (or none), and it reports a change exactly when the rate
    changed; when none is due nothing happens. *)
Theorem reprice_correct d s plug t :
  pricing_ok d plug → billing_wf s →
  is_float (ChargingSession.energy_kwh s) → 0 <= ChargingSession.energy_kwh s →
  let '(s', change) := reprice_session_if_due d s plug t in
  let due := ∃ v, ChargingSession.rate_valid_until s = Some v ∧ v <= t in
  session_cost s' (ChargingSession.energy_kwh s) = session_cost s (ChargingSession.energy_kwh s) ∧
  ChargingSession.energy_kwh s' = ChargingSession.energy_kwh s ∧
  (¬ due → s' = s ∧ change = None) ∧
  (due →
   ChargingSession.rate_coins_per_kwh s' = Some (resolve_rate_for_plug d plug t) ∧
   (∀ b, ChargingSession.rate_valid_until s' = Some b → t < b) ∧
   (is_Some change ↔
      ChargingSession.rate_coins_per_kwh s ≠ Some (resolve_rate_for_plug d plug t))).
Proof.
  intros Hok Hwf He H0. unfold reprice_session_if_due, resolve_rate_for_plug.
  destruct (rate_window_const d plug t Hok) as [Hb _].
  destruct (ChargingSession.rate_valid_until s) as [v|] eqn:Hv.
  2:{ split_and!; try done. by intros (v & [=] & _). }
  destruct (Z.ltb_spec t v) as [Hlt|Hle].
  { split_and!; try done. intros (v' & [= <-] & Hle). lia. }
  assert (Hdue : ∃ v', Some v = Some v' ∧ v' <= t) by eauto.
  destruct (resolve_rate_window d plug t) as [rate ob]. simpl in *.
  case_bool_decide as Hr; simpl; split_and!; try done; try (intros Hn; by destruct (Hn Hdue)).
  - intros _. rewrite Hr. split_and!; [done | | by split; [intros [] | intros []]].
    intros b ->. by apply Hb.
  - by apply close_out_cost.
  - unfold close_out_segment. by case_match.
  - intros _. unfold close_out_segment. split_and!; [done | | done]. intros b ->. by apply Hb.
Qed.

(** ** The batch agrees with the single display *)

Definition item_ok d (i : item) : Prop :=
  let '(_, plug, group_tariff, tenant) := i in
  group_tariff = group_tariff_id d plug ∧ tenant = tenant_of d plug.

Lemma pick_tariff_restrict (c : list (option Z)) (m : gmap Z Tariff.t) (ids : gset Z) :
  (∀ tid, Some tid ∈ c → tid ∈ ids) →
  pick_tariff c (filter (λ r : Z * Tariff.t, r.1 ∈ ids) m) = pick_tariff c m.
Proof.
  induction c as [|[tid|] c IH]; intros Hc; simpl; [done | |].
  - assert (Hin : tid ∈ ids) by (apply Hc; left).
    destruct (m !! tid) as [t|] eqn:Hm.
    + by rewrite (map_lookup_filter_Some_2 _ _ _ _ Hm Hin).
    + rewrite map_lookup_filter_None_2 by auto. apply IH. intros; apply Hc; by right.
  - apply IH. intros; apply Hc; by right.
Qed.

Lemma pick_tariff_chain d i :
  item_ok d i →
  let '(_, plug, _, tenant) := i in
  resolve_tariff_and_tz d plug = (pick_tariff (chain_of i) (tariffs d), tz_name_of tenant).
Proof.
  destruct i as [[[pid plug] gt] tenant]. intros [-> ->].
  unfold resolve_tariff_and_tz, tariff_row. f_equal. simpl.
  destruct (Plug.tariff_id plug) as [a|]; simpl; [destruct (tariffs d !! a); simpl; [done|]|];
    (destruct (group_tariff_id d plug) as [b|]; simpl;
      [destruct (tariffs d !! b); simpl; [done|]|]);
    (destruct (tenant_of d plug) as [t|]; simpl;
      [destruct (Tenant.default_tariff_id t) as [c|]; simpl; [destruct (tariffs d !! c)|]|]); done.
Qed.

Lemma group_slots_lookup rows tid :
  default [] (group_slots rows !! tid) = List.filter (λ s, TariffSlot.tariff_id s =? tid) rows.
Proof.
  induction rows as [|s rows IH] using rev_ind; [done|].
  unfold group_slots in *. rewrite foldl_snoc, List.filter_app. simpl.
  destruct (Z.eqb_spec (TariffSlot.tariff_id s) tid) as [->|Hne].
  - by rewrite lookup_insert_eq, IH.
  - by rewrite lookup_insert_ne, app_nil_r.
Qed.

Lemma slots_of_winner d tid (ids : gset Z) :
  tid ∈ ids →
  List.filter (λ s, TariffSlot.tariff_id s =? tid)
    (select (λ _ s, bool_decide (TariffSlot.tariff_id s ∈ ids)) (slots d)).*2 = slots_of d tid.
Proof.
  intros Hin. unfold slots_of, select.
  assert (Hmap : ∀ (q : TariffSlot.t → bool) (l : list (Z * TariffSlot.t)),
            List.filter q l.*2 = (List.filter (λ r, q r.2) l).*2).
  { intros q l. induction l as [|[i s] l IH]; [done|].
    rewrite fmap_cons. cbn [List.filter snd]. rewrite IH. by destruct (q s). }
  rewrite Hmap, filter_filter. f_equal. apply List.filter_ext. intros [i s]. simpl.
  destruct (Z.eqb_spec (TariffSlot.tariff_id s) tid) as [->|]; [|apply andb_false_r].
  by rewrite bool_decide_eq_true_2.
Qed.

(** A fold that writes one entry per item. *)
Lemma foldl_insert_lookup {A B} (key : A → Z) (f : A → B) l (m : gmap Z B) x :
  NoDup (key <$> l) → x ∈ l →
  foldl (λ out i, <[key i := f i]> out) m l !! key x = Some (f x).
Proof.
  intros Hnd Hx. induction l as [|y l IH] using rev_ind; [by apply not_elem_of_nil in Hx|].
  rewrite foldl_snoc. rewrite fmap_app, NoDup_app in Hnd. destruct Hnd as (Hnd & Hdis & _).
  apply elem_of_app in Hx as [Hx|Hx%list_elem_of_singleton].
  - rewrite lookup_insert_ne; [by apply IH|]. intros Heq.
    apply (Hdis (key x)); [by apply list_elem_of_fmap_2|]. rewrite <- Heq. left.
  - subst y. by rewrite lookup_insert_eq.
Qed.

(** The batched price display, which reads every tariff and slot in two
    queries, gives every plug of the list exactly what the single display
    gives it. *)
Theorem price_display_batch_correct d items t :
  NoDup (map (λ i : item, i.1.1.1) items) → Forall (item_ok d) items →
  ∀ pid plug group_tariff tenant, (pid, plug, group_tariff, tenant) ∈ items →
  resolve_price_display_batch d items t !! pid = Some (resolve_price_display d plug t).
Proof.
  intros Hnd Hok pid plug gt tenant Hin. unfold resolve_price_display_batch.
  set (ids := list_to_set (omap id (concat (map chain_of items))) : gset Z).
  set (byid := filter (λ r : Z * Tariff.t, r.1 ∈ ids) (tariffs d)).
  set (winners := list_to_set _ : gset Z).
  assert (Hpick : ∀ i, i ∈ items → pick_tariff (chain_of i) byid = pick_tariff (chain_of i) (tariffs d)).
  { intros i Hi. apply pick_tariff_restrict. intros tid Htid.
    apply elem_of_list_to_set, list_elem_of_omap. exists (Some tid). split; [|done].
    apply list_elem_of_In, in_concat. exists (chain_of i).
    split; [apply in_map; by apply list_elem_of_In | by apply list_elem_of_In]. }
  rewrite (foldl_insert_lookup (λ i : item, i.1.1.1) _ items ∅ (pid, plug, gt, tenant)) by done.
  f_equal. unfold display_item. rewrite (Hpick _ Hin).
  rewrite Forall_forall in Hok. specialize (Hok _ Hin). apply pick_tariff_chain in Hok as Hres.
  unfold resolve_price_display. rewrite Hres.
  destruct (pick_tariff _ (tariffs d)) as [[tid tariff]|] eqn:Hp; [|done].
  rewrite group_slots_lookup, slots_of_winner; [done|].
  apply elem_of_list_to_set, list_elem_of_omap. exists (pid, plug, gt, tenant).
  split; [done|]. by rewrite (Hpick _ Hin), Hp.
Qed.
End Pricing.
