(* ===== verification/Reservations.v ===== *)
(** * services/reservations.py and routers/reservations.py

    A reservation books the half-open window [start_at, end_at) of a plug.
    Expiry is lazy: every reader first flips the lapsed BOOKED rows. *)

From S2P Require Import Prelude Rounding PyNum Money Models Config TelemetryStore World Hoare.

Section Reservations.
Context `{cfg : Config}.
Implicit Types (d : db) (r : Reservation.t) (now : Z) (plug : Plug.t).

Definition RESERVATION_MIN_LENGTH : Z := minutes 15.
Definition RESERVATION_START_GRACE : Z := minutes 2.

Definition is_booked r : bool := bool_decide (Reservation.status r = BOOKED).

Definition lapsed now r : bool :=
  is_booked r &&
  ((Reservation.start_at r <=? now - RESERVATION_NO_SHOW_GRACE) || (Reservation.end_at r <=? now)).

(** [scope] is the conjunction of the optional plug/user/tenant filters. *)
Definition expire_in (scope : Reservation.t → bool) now d : db :=
  d <| reservations ::= update_where (λ r, lapsed now r && scope r)
         (λ r, r <| Reservation.status := EXPIRED |>) |>.

Definition expire_lapsed_reservations (scope : Reservation.t → bool) now : M Z :=
  n ← query (λ d, count (λ r, lapsed now r && scope r) (reservations d));
  modify (expire_in scope now);;
  mret n.

Definition on_plug (plug_id : Z) r : bool := Reservation.plug_id r =? plug_id.
Definition of_user (uid : Z) r : bool := Reservation.user_id r =? uid.

(** [if not plug.group_id]: NULL and 0. *)
Definition user_can_access_plug (uid : Z) plug : M bool :=
  match Plug.group_id plug with
  | None | Some 0 => mret true
  | Some gid =>
      group ← query (λ d, groups d !! gid);
      match group with
      | None => mret true
      | Some g =>
          if ChargerGroup.is_public g then mret true
          else
            rows ← query (λ d, select (λ _ m, (GroupMembership.user_id m =? uid) &&
                                  (GroupMembership.group_id m =? gid)) (memberships d));
            membership ← one_or_none rows;
            mret (bool_decide (is_Some membership))
      end
  end.

(** The soonest BOOKED window of someone else that starts in (now, horizon]. *)
Definition next_conflicting_reservation (plug_id exclude_user_id horizon now : Z)
    : M (option (Z * Reservation.t)) :=
  query (λ d, head (order_by (λ x, Reservation.start_at x.2)
    (select (λ _ r, on_plug plug_id r && is_booked r && negb (of_user exclude_user_id r) &&
                    (now <? Reservation.start_at r) && (Reservation.start_at r <=? horizon))
       (reservations d)))).

(** ** POST /api/reservations *)

(** 1. The shape of the window. *)
Definition check_window (start_at end_at now : Z) : M unit :=
  refuse (end_at <=? start_at) 400 "end_at must be after start_at.";;
  refuse (end_at - start_at <? RESERVATION_MIN_LENGTH) 400 "too short";;
  refuse (RESERVATION_MAX_LENGTH <? end_at - start_at) 400 "too long";;
  refuse (start_at <? now - RESERVATION_START_GRACE) 400 "Reservation start is in the past.";;
  refuse (now + RESERVATION_MAX_ADVANCE <? start_at) 400 "too far ahead".

Definition upcoming (uid now : Z) r : bool :=
  of_user uid r && is_booked r && (now <? Reservation.end_at r).

(** BOOKED windows of the plug that intersect [start_at, end_at). *)
Definition conflicts (plug_id start_at end_at : Z) r : bool :=
  on_plug plug_id r && is_booked r &&
  (Reservation.start_at r <? end_at) && (start_at <? Reservation.end_at r).

(** [with_for_update()] on the user's row, then the plug's: the checks and the
    insertion below are one atomic step. *)
Definition create_reservation (uid plug_id start_at end_at now : Z) : M Z :=
  check_window start_at end_at now;;
  u ← query (λ d, users d !! uid);
  _ ← scalar_one u;
  _ ← expire_lapsed_reservations (of_user uid) now;
  upcoming_count ← query (λ d, count (upcoming uid now) (reservations d));
  refuse (MAX_UPCOMING_RESERVATIONS_PER_USER <=? upcoming_count) 409 "upcoming limit";;
  plug ← query (λ d, plugs d !! plug_id);
  plug ← or_raise plug 404 "Plug not found.";
  access ← user_can_access_plug uid plug;
  refuse (negb access) 403 "no access";;
  refuse (bool_decide (Plug.status plug = MAINTENANCE)) 409 "under maintenance";;
  _ ← expire_lapsed_reservations (on_plug plug_id) now;
  conflict ← query (λ d, head (order_by (λ x, Reservation.start_at x.2)
      (select (λ _ r, conflicts plug_id start_at end_at r) (reservations d))));
  refuse (bool_decide (is_Some conflict)) 409 "overlaps";;
  gw ← query (λ d, gateways d !! Plug.gateway_id plug);
  gw ← scalar_one gw;
  match Gateway.tenant_id gw with
  | None => raise IntegrityError
  | Some tenant_id =>
      rid ← fresh;
      modify (λ d, d <| reservations ::= <[rid :=
        Reservation.mk plug_id uid tenant_id start_at end_at BOOKED None None]> |>);;
      commit;;
      emit (Notify uid "reservation_booked" "info" (Some plug_id) None);;
      mret rid
  end.

(** ** GET /api/reservations/my *)

Definition my_reservations (uid now : Z)
    : M (list (Z * Reservation.t) * list (Z * Reservation.t)) :=
  expired ← expire_lapsed_reservations (of_user uid) now;
  when (negb (expired =? 0)) commit;;
  upcoming_rows ← query (λ d, order_by (λ x, Reservation.start_at x.2)
      (select (λ _ r, upcoming uid now r) (reservations d)));
  history ← query (λ d, take 20 (order_by2 (λ x, - Reservation.start_at x.2) (λ x, - x.1)
      (select (λ _ r, of_user uid r && (negb (is_booked r) || (Reservation.end_at r <=? now)))
         (reservations d))));
  mret (upcoming_rows, history).

(** ** POST /api/reservations/{id}/cancel *)

Definition cancel_reservation (uid : Z) (user : User.t) (reservation_id : Z) : M unit :=
  r ← query (λ d, reservations d !! reservation_id);
  r ← or_raise r 404 "Reservation not found.";
  let is_owner := of_user uid r in
  let is_tenant_operator :=
    bool_decide (User.role user = ADMIN) ||
    (bool_decide (User.role user = CPO) &&
     bool_decide (User.tenant_id user = Some (Reservation.tenant_id r))) in
  refuse (negb (is_owner || is_tenant_operator)) 404 "Reservation not found.";;
  refuse (negb (is_booked r)) 409 "already settled";;
  modify (λ d, d <| reservations ::= alter (λ r, r <| Reservation.status := RES_CANCELLED |>)
                      reservation_id |>);;
  commit;;
  when (negb is_owner)
    (emit (Notify (Reservation.user_id r) "reservation_cancelled" "warning"
             (Some (Reservation.plug_id r)) None)).

(** ** GET /api/plugs/{plug_id}/reservations *)

Definition reveal_identities d plug : bool :=
  match Plug.group_id plug with
  | None | Some 0 => false
  | Some gid =>
      match groups d !! gid with Some g => negb (ChargerGroup.is_public g) | None => false end
  end.

(** The schedule: each window with its holder's name, or [None]. *)
Definition plug_reservations (uid plug_id now : Z) : M (list (Z * Reservation.t * option string)) :=
  plug ← query (λ d, plugs d !! plug_id);
  plug ← or_raise plug 404 "Plug not found.";
  access ← user_can_access_plug uid plug;
  refuse (negb access) 403 "no access";;
  reveal ← query (λ d, reveal_identities d plug);
  expired ← expire_lapsed_reservations (on_plug plug_id) now;
  when (negb (expired =? 0)) commit;;
  rows ← query (λ d, order_by (λ x, Reservation.start_at x.1.2)
      (omap (λ x, u ← users d !! Reservation.user_id x.2; Some (x, User.full_name u))
         (select (λ _ r, on_plug plug_id r && is_booked r && (now <? Reservation.end_at r) &&
                         (Reservation.start_at r <? now + RESERVATION_MAX_ADVANCE))
            (reservations d))));
  mret (map (λ x : Z * Reservation.t * string,
               (x.1, if reveal || of_user uid x.1.2 then Some x.2 else None)) rows).

(** ** Facts *)

Definition disjoint (r1 r2 : Reservation.t) : Prop :=
  Reservation.end_at r1 <= Reservation.start_at r2 ∨
  Reservation.end_at r2 <= Reservation.start_at r1.

(** No two BOOKED windows of a plug overlap. *)
Definition booked_ok d : Prop := ∀ i j ri rj,
  i ≠ j → reservations d !! i = Some ri → reservations d !! j = Some rj →
  is_booked ri = true → is_booked rj = true →
  Reservation.plug_id ri = Reservation.plug_id rj → disjoint ri rj.

Lemma lookup_expire scope now d i r :
  reservations (expire_in scope now d) !! i = Some r →
  ∃ r0, reservations d !! i = Some r0 ∧
    (is_booked r = true → r = r0 ∧ (lapsed now r && scope r) = false).
Proof.
  unfold expire_in. simpl. rewrite lookup_update_where. intros (r0 & Hr0 & ->)%fmap_Some.
  exists r0. split; [done|]. by destruct (lapsed now r0 && scope r0) eqn:E.
Qed.

Lemma expire_booked_ok scope now d : booked_ok d → booked_ok (expire_in scope now d).
Proof.
  intros H i j ri rj Hij (r & Hri & Hr)%lookup_expire (r' & Hrj & Hr')%lookup_expire Hi Hj.
  destruct (Hr Hi) as [-> _], (Hr' Hj) as [-> _]. by apply (H i j).
Qed.

Lemma wp_expire scope now Q w :
  (∀ n, Q (Ok n) (w <| cur ::= expire_in scope now |>)) →
  wp (expire_lapsed_reservations scope now) Q w.
Proof. intros H. unfold expire_lapsed_reservations. repeat wp_step. apply H. Qed.

Lemma wp_access uid plug Q w :
  (∀ b, Q (Ok b) w) → (∀ e, Q (Raise e) w) → wp (user_can_access_plug uid plug) Q w.
Proof. intros H1 H2. unfold user_can_access_plug. repeat wp_step; auto. Qed.

(** The plug is in no group, or in a public one, or in one of the user's. *)
Definition in_group d (uid gid : Z) : Prop :=
  match groups d !! gid with
  | None => True
  | Some g => ChargerGroup.is_public g = true ∨
      ∃ i m, memberships d !! i = Some m ∧ GroupMembership.user_id m = uid ∧ GroupMembership.group_id m = gid
  end.

Definition may_access d (uid : Z) plug : Prop :=
  match Plug.group_id plug with None | Some 0 => True | Some gid => in_group d uid gid end.

Lemma wp_access_spec uid plug (Q : result bool → world → Prop) w :
  (∀ b, b = true ↔ may_access (cur w) uid plug → Q (Ok b) w) → (∀ e, Q (Raise e) w) →
  wp (user_can_access_plug uid plug) Q w.
Proof.
  intros H1 H2. unfold user_can_access_plug, may_access in *.
  assert (Hyes : ∀ P : Prop, P → true = true ↔ P) by done.
  destruct (Plug.group_id plug) as [gid|]; [|wp_step; by apply H1]. generalize dependent gid. intros gid H1.
  assert (Hprivate : wp (group ← query (λ d, groups d !! gid);
    match group with
    | None => mret true
    | Some g =>
        if ChargerGroup.is_public g then mret true
        else
          rows ← query (λ d, select (λ _ m, (GroupMembership.user_id m =? uid) &&
                                (GroupMembership.group_id m =? gid)) (memberships d));
          membership ← one_or_none rows;
          mret (bool_decide (is_Some membership))
    end) (λ out w', w' = w ∧ match out with Ok b => b = true ↔ in_group (cur w) uid gid | Raise _ => True end) w).
  { do 2 wp_step. unfold in_group. destruct (groups (cur w) !! gid) as [g|]; [|by wp_step].
    destruct (ChargerGroup.is_public g); [wp_step; split; [done|]; split; [by left|done]|].
    do 2 wp_step. set (p := λ _ m, _). wp_step. wp_step.
    - wp_step. split; [done|]. rewrite bool_decide_false by by intros []. split; [done|].
      intros [?|(i & m & Hm & Hu & Hg)]; [done|]. exfalso.
      assert (Hin : (i, m) ∈ select p (memberships (cur w))).
      { apply elem_of_select. split; [done|]. unfold p. by rewrite Hu, Hg, !Z.eqb_refl. }
      by rewrite H in Hin; apply not_elem_of_nil in Hin.
    - wp_step. split; [done|]. rewrite bool_decide_true by eauto. apply Hyes. right.
      assert (Hin : x ∈ select p (memberships (cur w))) by (rewrite H; left).
      destruct x as [i m]. apply elem_of_select in Hin as [Hm Hp]. unfold p in Hp. passed. eauto.
    - done. }
  unfold wp in *. destruct gid; [by apply H1|..]; destruct Hprivate as [Hw Hr];
    (match goal with |- Q (fst ?m) (snd ?m) => destruct m as [[b|e] w'] end;
     simpl in *; subst w'; [by apply H1 | apply H2]).
Qed.

Lemma wp_check_window start_at end_at now Q w :
  (start_at + RESERVATION_MIN_LENGTH <= end_at → end_at - start_at <= RESERVATION_MAX_LENGTH →
   now - RESERVATION_START_GRACE <= start_at → start_at <= now + RESERVATION_MAX_ADVANCE →
   Q (Ok tt) w) →
  (∀ e, Q (Raise e) w) → wp (check_window start_at end_at now) Q w.
Proof. intros H1 H2. unfold check_window. repeat wp_step; auto. apply H1; lia. Qed.

Ltac reservation_call :=
  first [ apply wp_check_window; [intros ? ? ? ?|intros ?]
        | apply wp_expire; intros ?
        | apply wp_access; intros ? ].

Lemma no_conflict {A} (l : list A) : bool_decide (is_Some (head l)) = false → l = [].
Proof. destruct l; [done|]. by rewrite bool_decide_eq_true_2 by eauto. Qed.

Lemma select_nil {A} (p : Z → A → bool) m :
  select p m = [] → ∀ i x, m !! i = Some x → p i x = false.
Proof.
  intros Hs i x Hx. apply not_true_iff_false. intros Hp.
  assert ((i, x) ∈ select p m) as Hin by (by apply elem_of_select).
  rewrite Hs in Hin. by apply not_elem_of_nil in Hin.
Qed.

Lemma order_by_nil {A} (key : A → Z) l : order_by key l = [] → l = [].
Proof.
  intros H. destruct l as [|x l]; [done|].
  assert (x ∈ order_by key (x :: l)) as Hin by (apply order_by_elem; left).
  rewrite H in Hin. by apply not_elem_of_nil in Hin.
Qed.

(** A window that conflicts with nothing can be booked. *)
Lemma booked_ok_insert d d' i r :
  booked_ok d →
  (∀ j rj, reservations d !! j = Some rj →
     conflicts (Reservation.plug_id r) (Reservation.start_at r) (Reservation.end_at r) rj = false) →
  reservations d' = <[i := r]> (reservations d) → booked_ok d'.
Proof.
  intros Hok Hno Hd' j k rj rk Hjk. rewrite Hd'.
  assert (Hdis : ∀ j rj, reservations d !! j = Some rj → is_booked rj = true →
            Reservation.plug_id r = Reservation.plug_id rj → disjoint r rj).
  { intros l rl Hl Hb Hp. specialize (Hno l rl Hl). unfold conflicts, on_plug in Hno.
    rewrite Hp, Z.eqb_refl, Hb in Hno. simpl in Hno.
    apply andb_false_iff in Hno as [?%Z.ltb_ge|?%Z.ltb_ge]; unfold disjoint; lia. }
  destruct (decide (i = j)) as [<-|Hij]; [rewrite lookup_insert_eq | rewrite lookup_insert_ne by done].
  - rewrite lookup_insert_ne by done. intros [= <-] Hk _ Hbk Hp. by eapply Hdis.
  - destruct (decide (i = k)) as [<-|Hik];
      [rewrite lookup_insert_eq | rewrite lookup_insert_ne by done; by apply Hok].
    intros Hj [= <-] Hbj _ Hp. unfold disjoint.
    destruct (Hdis j rj Hj Hbj ltac:(done)); auto.
Qed.

(** What a successful booking guarantees about the committed rows. *)
Lemma create_reservation_spec uid plug_id start_at end_at now w :
  com w = cur w → booked_ok (cur w) →
  wp (create_reservation uid plug_id start_at end_at now)
    (λ out w', booked_ok (com w') ∧
      match out with
      | Raise _ => com w' = com w
      | Ok rid => ∃ tenant, reservations (com w') !! rid =
            Some (Reservation.mk plug_id uid tenant start_at end_at BOOKED None None) ∧
          start_at + RESERVATION_MIN_LENGTH <= end_at ∧
          end_at - start_at <= RESERVATION_MAX_LENGTH ∧
          now - RESERVATION_START_GRACE <= start_at <= now + RESERVATION_MAX_ADVANCE
      end) w.
Proof.
  intros Hcc Hok. unfold create_reservation. wp_run reservation_call;
    simpl; try (split; [by rewrite Hcc | done]). split.
  - eapply (booked_ok_insert (expire_in (on_plug plug_id) now (expire_in (of_user uid) now (cur w))));
      [by do 2 apply expire_booked_ok | | reflexivity].
    match goal with H : bool_decide (is_Some _) = false |- _ =>
      apply no_conflict, order_by_nil in H; intros j rj Hj; by apply (select_nil _ _ H j rj) end.
  - eexists. rewrite lookup_insert_eq. split_and!; try done; lia.
Qed.

Lemma count_update_le {A} (p q : A → bool) (f : A → A) m :
  (∀ x, p (f x) = true → p x = true) → count p (update_where q f m) <= count p m.
Proof.
  intros Hp. unfold count, update_where. rewrite msum_fmap. apply msum_le. intros i x _.
  destruct (q x); [|lia]. destruct (p (f x)) eqn:E; [rewrite (Hp x E) | destruct (p x)]; lia.
Qed.

Lemma upcoming_expire uid now scope d :
  count (upcoming uid now) (reservations (expire_in scope now d)) <=
  count (upcoming uid now) (reservations d).
Proof.
  apply count_update_le. intros r. unfold upcoming, is_booked. simpl.
  by rewrite andb_false_r.
Qed.

(** C31: bookings are exclusive: whatever the outcome of a booking request, the
    committed BOOKED windows of every plug stay pairwise disjoint; a request
    that succeeds has booked exactly the window asked for, within the policy's
    bounds, and a refused one has changed nothing. *)
Theorem booking_exclusive uid plug_id start_at end_at now w :
  com w = cur w → booked_ok (com w) →
  let '(out, w') := run_request (create_reservation uid plug_id start_at end_at now) w in
  booked_ok (com w') ∧
  match out with
  | Raise _ => com w' = com w
  | Ok rid => ∃ tenant, reservations (com w') !! rid =
        Some (Reservation.mk plug_id uid tenant start_at end_at BOOKED None None) ∧
      start_at + RESERVATION_MIN_LENGTH <= end_at ∧
      end_at - start_at <= RESERVATION_MAX_LENGTH ∧
      now - RESERVATION_START_GRACE <= start_at <= now + RESERVATION_MAX_ADVANCE
  end.
Proof.
  intros Hcc Hok. rewrite Hcc in Hok.
  pose proof (create_reservation_spec uid plug_id start_at end_at now w Hcc Hok) as H.
  unfold wp, run_request in *.
  by destruct (create_reservation uid plug_id start_at end_at now w) as [out w'].
Qed.

(** No driver ever holds more upcoming bookings than the cap: a booking that
    succeeds leaves at most [MAX_UPCOMING_RESERVATIONS_PER_USER] of them. *)
Theorem booking_cap uid plug_id start_at end_at now w rid :
  com w = cur w → (∀ i, next_id (cur w) <= i → reservations (cur w) !! i = None) →
  (run_request (create_reservation uid plug_id start_at end_at now) w).1 = Ok rid →
  count (upcoming uid now)
    (reservations (com (run_request (create_reservation uid plug_id start_at end_at now) w).2))
  <= MAX_UPCOMING_RESERVATIONS_PER_USER.
Proof.
  intros Hcc Hids. unfold run_request.
  assert (H : wp (create_reservation uid plug_id start_at end_at now)
    (λ out w', is_ok out = true → count (upcoming uid now) (reservations (com w')) <=
                 MAX_UPCOMING_RESERVATIONS_PER_USER) w).
  2:{ unfold wp in H. destruct (create_reservation _ _ _ _ _ w) as [out w']. simpl in *.
      intros ->. by apply H. }
  unfold create_reservation. wp_run reservation_call; simpl; try done. intros _.
  match goal with H : (MAX_UPCOMING_RESERVATIONS_PER_USER <=? _) = false |- _ =>
    apply Z.leb_gt in H; simpl in H; revert H end.
  set (d1 := expire_in (of_user uid) now (cur w)).
  change (update_where _ _ (update_where _ _ _)) with
    (reservations (expire_in (on_plug plug_id) now d1)).
  intros Hlt. unfold count at 1. rewrite msum_insert_None.
  - change (msum _ (reservations (expire_in (on_plug plug_id) now d1))) with
      (count (upcoming uid now) (reservations (expire_in (on_plug plug_id) now d1))).
    pose proof (upcoming_expire uid now (on_plug plug_id) d1).
    change (update_where _ _ _) with (reservations d1) in Hlt.
    destruct (upcoming _ _ _); lia.
  - unfold d1, expire_in. simpl. rewrite !lookup_update_where, Hids by lia. done.
Qed.

(** A reservation that is neither the caller's nor of a tenant the caller
    operates cannot be cancelled, and the answer is the one for an id that does
    not exist, with no effect at all. *)
Theorem cancel_hides_foreign uid user rid r w :
  reservations (cur w) !! rid = Some r → Reservation.user_id r ≠ uid → User.role user ≠ ADMIN →
  (User.role user = CPO → User.tenant_id user ≠ Some (Reservation.tenant_id r)) →
  cancel_reservation uid user rid w = (Raise (HTTPException 404 "Reservation not found."), w) ∧
  ∀ rid', reservations (cur w) !! rid' = None →
    cancel_reservation uid user rid' w = cancel_reservation uid user rid w.
Proof.
  intros Hr Hu Ha Hc.
  assert (H : cancel_reservation uid user rid w =
              (Raise (HTTPException 404 "Reservation not found."), w)).
  { unfold cancel_reservation, mbind, M_bind, query. rewrite Hr. simpl.
    unfold of_user. rewrite (proj2 (Z.eqb_neq _ _)) by done.
    rewrite (bool_decide_eq_false_2 (User.role user = ADMIN)) by done. simpl.
    destruct (decide (User.role user = CPO)) as [E|E].
    - by rewrite (bool_decide_eq_true_2 (User.role user = CPO)), bool_decide_eq_false_2 by auto.
    - by rewrite (bool_decide_eq_false_2 (User.role user = CPO)). }
  split; [done|]. intros rid' Hr'. rewrite H.
  unfold cancel_reservation, mbind, M_bind, query. by rewrite Hr'.
Qed.

(** The public schedule of a plug does not disclose who booked it: a name
    is shown only for the caller's own windows or in a private group. *)
Theorem schedule_privacy uid plug_id now w plug rows rid r name :
  plugs (cur w) !! plug_id = Some plug →
  (plug_reservations uid plug_id now w).1 = Ok rows → (rid, r, Some name) ∈ rows →
  Reservation.user_id r = uid ∨
  ∃ gid g, Plug.group_id plug = Some gid ∧ groups (cur w) !! gid = Some g ∧
           ChargerGroup.is_public g = false.
Proof.
  intros Hp. assert (H : wp (plug_reservations uid plug_id now)
    (λ out _, ∀ rows, out = Ok rows → (rid, r, Some name) ∈ rows →
       Reservation.user_id r = uid ∨ reveal_identities (cur w) plug = true) w).
  { unfold plug_reservations. wp_run reservation_call; simpl; try done;
      intros rows' [= <-] Hin; apply list_elem_of_fmap in Hin as ([[i x] nm] & [= -> -> Hn] & _);
      simplify_eq/=; destruct (reveal_identities (cur w) plug); auto; simpl in Hn;
      destruct (of_user uid x) eqn:E; try done; left; by apply Z.eqb_eq in E. }
  intros Hrows Hin. destruct (H rows Hrows Hin) as [|Hrev]; [by left|right].
  unfold reveal_identities in Hrev.
  destruct (Plug.group_id plug) as [gid|]; [|done].
  exists gid. destruct gid; try done; destruct (groups (cur w) !! _) as [g|] eqn:Hg; try done;
    exists g; split_and!; try done; by apply negb_true_iff in Hrev.
Qed.
End Reservations.
