(* ===== verification/Lifecycle.v ===== *)
(** * services/session_lifecycle.py

    Liveness tests, the telemetry cadence and [finalize_charging_session], the
    one stop and billing path.  Finalize is split at its commit: [settle] is the
    transaction (claim the ACTIVE session, publish OFF, bill, debit, ledger row,
    free the plug), [after_settle] the best-effort fan-outs that follow. *)

From S2P Require Import Prelude Rounding PyNum Money Models Config Billing TelemetryStore World.
From S2P Require Import Hoare Wallet Commands Caps.

Section Lifecycle.
Context `{cfg : Config}.
Implicit Types (d : db) (now : Z).

(** ** Liveness *)

(** [(now - last).total_seconds() <= window]. *)
Definition within now (last : Z) (window : Z) : bool := now - last <=? seconds window.

Definition gateway_is_live (gateway : Gateway.t) now : bool :=
  if negb (bool_decide (Gateway.status gateway = ONLINE)) then false
  else match Gateway.last_seen_at gateway with
       | None => false
       | Some last_seen => within now last_seen GATEWAY_LIVENESS_WINDOW_SEC
       end.

Definition plug_is_powered (plug : Plug.t) now : bool :=
  match Plug.last_telemetry_at plug with
  | None => false
  | Some last => within now last PLUG_POWER_STALE_SEC
  end.

(** ** Telemetry cadence (the MQTT manager is bound once the app has started) *)

Definition set_plug_telemetry_interval (plug_id interval_ms : Z) : M unit :=
  current ← read_store (λ st, TelemetryStore.get_interval st plug_id);
  if current =? interval_ms then mret tt
  else
    plug ← query (λ d, plugs d !! plug_id);
    match plug with
    | None => mret tt
    | Some plug =>
        with_store (λ st, TelemetryStore.set_interval st plug_id interval_ms);;
        _ ← send_plug_interval (Plug.gateway_id plug) plug_id interval_ms;
        mret tt
    end.

Definition check_and_speed_up_active_session (uid : Z) : M unit :=
  rows ← query (λ d, select (λ _ s, (ChargingSession.user_id s =? uid) && is_active s) (sessions d));
  for_each rows (λ r, set_plug_telemetry_interval (ChargingSession.plug_id r.2) 1000).

(** ** Finalize: the transaction *)

Definition set_session (sid : Z) (f : ChargingSession.t → ChargingSession.t) : M unit :=
  modify (λ d, d <| sessions ::= alter f sid |>).
Definition set_plug_status (plug_id : Z) (st : PlugStatus) : M unit :=
  modify (λ d, d <| plugs ::= alter (λ p, p <| Plug.status := st |>) plug_id |>).

(** The session matching the caller's filter, when it is ACTIVE (re-checked
    under the row lock). *)
Definition lock_active_session (session_id : Z) (expected_user_id : option Z)
    : M (option ChargingSession.t) :=
  query (λ d, match sessions d !! session_id with
    | None => None
    | Some s =>
        if match expected_user_id with Some u => ChargingSession.user_id s =? u | None => true end
           && is_active s
        then Some s else None
    end).

(** What the transaction leaves for the fan-outs and the receipt. *)
Record settled_session := mksettled {
  s_session : ChargingSession.t;
  s_plug : Plug.t;
  s_final_cost : money;
  s_actual_debit : money;
  s_new_balance : money }.

(** The amount asked of the wallet: the cost, capped by the session's hold. *)
Definition requested_debit (s : ChargingSession.t) (final_cost : money) : money :=
  match ChargingSession.hold_coins s with
  | Some hold => Z.min final_cost hold
  | None => final_cost
  end.

(** Steps 2 to 5: bill from the persisted energy, debit, record, free the plug. *)
Definition bill_session (session_id : Z) (s : ChargingSession.t) (plug : Plug.t) now
    : M settled_session :=
  let final_cost := session_cost s (ChargingSession.energy_kwh s) in
  set_session session_id (λ s, s <| ChargingSession.status := COMPLETED |>);;
  '(actual_debit, new_balance) ←
    debit_wallet_clamped (ChargingSession.user_id s) (requested_debit s final_cost);
  set_session session_id (λ s, s <| ChargingSession.coins_spent := actual_debit |>);;
  add_ledger (LedgerTransaction.mk (ChargingSession.user_id s) (Some session_id)
                (- actual_debit) SESSION_DEBIT None new_balance);;
  set_plug_status (ChargingSession.plug_id s) AVAILABLE;;
  set_session session_id (λ s, s <| ChargingSession.ended_at := Some now |>);;
  commit;;
  mret (mksettled (s <| ChargingSession.status := COMPLETED |>
                     <| ChargingSession.coins_spent := actual_debit |>
                     <| ChargingSession.ended_at := Some now |>)
          plug final_cost actual_debit new_balance).

Definition settle (session_id : Z) (expected_user_id : option Z) now : M (option settled_session) :=
  session ← lock_active_session session_id expected_user_id;
  match session with
  | None => mret None
  | Some s =>
      plug ← query (λ d, plugs d !! ChargingSession.plug_id s);
      plug ← scalar_one plug;
      _ ← send_off (ChargingSession.plug_id s) plug;
      r ← bill_session session_id s plug now;
      mret (Some r)
  end.

(** ** Finalize: the fan-outs and the receipt *)

(** [sub in s]. *)
Definition contains (sub s : string) : bool := match String.index 0 sub s with Some _ => true | None => false end.

(** Title and severity of the driver's notification. *)
Definition stop_notice (reason : option string) : string * string :=
  match reason with
  | None => ("Charging complete", "info")
  | Some r =>
      if contains "exhausted" r then ("Charging auto-stopped — balance used up", "warning")
      else if contains "telemetry lost" r then ("Charging ended — charger connection lost", "warning")
      else if String.prefix "safety cutoff" r then ("Charging stopped for safety", "critical")
      else if contains "current cap exceeded" r
           then ("Charging stopped — current limit exceeded", "warning")
      else if contains "limit reached" r then ("Charging stopped — your limit was reached", "info")
      else if contains "reserved" r then ("Charging stopped — plug reserved", "warning")
      else ("Charging complete", "info")
  end%string.

Record receipt := mkreceipt {
  r_session_id : Z;
  r_plug_id : Z;
  r_energy_kwh : float;
  r_peak_power_w : float;
  r_price_per_kwh : float;
  r_settled_cost_coins : option float;
  r_coins_spent : money;
  r_shortfall_coins : money;
  r_balance_before : money;
  r_balance_remaining : money;
  r_duration_sec : option Z;
  r_max_kwh : option float;
  r_max_duration_seconds : option Z;
  r_reason : option string }.

Definition receipt_of (session_id : Z) (r : settled_session) (reason : option string) : receipt :=
  let s := s_session r in
  {| r_session_id := session_id;
     r_plug_id := ChargingSession.plug_id s;
     r_energy_kwh := fround 3 (ChargingSession.energy_kwh s);
     r_peak_power_w := fround 1 (ChargingSession.peak_power_w s);
     r_price_per_kwh := match ChargingSession.rate_coins_per_kwh s with
                        | Some rate => TelemetryStore.float_of_money rate
                        | None => COINS_PER_KWH end;
     r_settled_cost_coins :=
       TelemetryStore.float_of_money <$> ChargingSession.settled_cost_coins s;
     r_coins_spent := s_actual_debit r;
     r_shortfall_coins := s_final_cost r - s_actual_debit r;
     r_balance_before := s_new_balance r + s_actual_debit r;
     r_balance_remaining := s_new_balance r;
     r_duration_sec := (λ e, ftrunc (total_seconds (e - ChargingSession.started_at s)))
                         <$> ChargingSession.ended_at s;
     r_max_kwh := ChargingSession.max_kwh s;
     r_max_duration_seconds := ChargingSession.max_duration_seconds s;
     r_reason := reason |}.

Definition after_settle (session_id : Z) (r : settled_session) (reason : option string) : M unit :=
  let s := s_session r in
  let plug_id := ChargingSession.plug_id s in
  let uid := ChargingSession.user_id s in
  emit (EmitPlugStatus plug_id AVAILABLE);;
  _ ← notify_watchers_plug_available plug_id (Some uid);
  _ ← notify_capacity_available (Plug.group_id (s_plug r)) (Some uid);
  with_store (λ st, TelemetryStore.end_session st plug_id);;
  set_plug_telemetry_interval plug_id 10000;;
  emit (Notify uid "session_stopped" (stop_notice reason).2 (Some plug_id) (Some session_id));;
  emit (SendSessionBill uid session_id).

Definition finalize_charging_session (session_id : Z) (expected_user_id : option Z)
    (reason : option string) now : M (option receipt) :=
  settled ← settle session_id expected_user_id now;
  match settled with
  | None => mret None
  | Some r =>
      after_settle session_id r reason;;
      mret (Some (receipt_of session_id r reason))
  end.

(** ** The transaction *)

Lemma session_cost_nonneg s e :
  billing_wf s → is_float e → 0 <= e → 0 <= session_cost s e.
Proof.
  intros Hwf He H0. rewrite session_cost_open by done. pose proof (settled_range s Hwf).
  pose proof (segment_cost_nonneg e (segment_start s) _ (wf_rate s Hwf)).
  unfold clamp, MAX_MONEY in *. lia.
Qed.

(** What a metered session satisfies all its life. *)
Record session_wf s : Prop := {
  wf_billing : billing_wf s;
  wf_energy : is_float (ChargingSession.energy_kwh s) ∧ 0 <= ChargingSession.energy_kwh s }.

(** The database after a session has been settled. *)
Definition settled_db d (sid : Z) (s : ChargingSession.t) (actual new_balance : money) now : db :=
  d <| sessions ::= <[sid := s <| ChargingSession.status := COMPLETED |>
                              <| ChargingSession.coins_spent := actual |>
                              <| ChargingSession.ended_at := Some now |>]> |>
    <| users ::= alter (λ u, u <| User.coin_balance := new_balance |>) (ChargingSession.user_id s) |>
    <| ledger ::= <[next_id d := LedgerTransaction.mk (ChargingSession.user_id s) (Some sid)
                                   (- actual) SESSION_DEBIT None new_balance]> |>
    <| next_id ::= Z.succ |>
    <| plugs ::= alter (λ p, p <| Plug.status := AVAILABLE |>) (ChargingSession.plug_id s) |>.

Lemma wp_bill sid s plug now u Q w :
  sessions (cur w) !! sid = Some s → users (cur w) !! ChargingSession.user_id s = Some u →
  0 <= User.coin_balance u <= MAX_MONEY →
  0 <= requested_debit s (session_cost s (ChargingSession.energy_kwh s)) →
  (let cost := session_cost s (ChargingSession.energy_kwh s) in
   let actual := Z.min (requested_debit s cost) (User.coin_balance u) in
   let b := User.coin_balance u - actual in
   ∀ s', ∀ w', s' = s <| ChargingSession.status := COMPLETED |>
                     <| ChargingSession.coins_spent := actual |>
                     <| ChargingSession.ended_at := Some now |> →
     cur w' = settled_db (cur w) sid s actual b now → com w' = cur w' →
     store w' = store w → evs w' = evs w →
     Q (Ok (mksettled s' plug cost actual b)) w') →
  wp (bill_session sid s plug now) Q w.
Proof.
  intros Hs Hu Hb Hreq HQ. unfold bill_session, set_session, set_plug_status, add_ledger.
  wp_run (apply (wp_debit _ _ u); [done.. |]; simpl). simpl.
  eapply HQ; [reflexivity | | reflexivity..]. simpl. unfold settled_db.
  destruct (cur w); simpl in *. f_equal.
  rewrite !alter_alter_eq. apply map_eq. intros i.
  destruct (decide (i = sid)) as [->|Hi].
  - by rewrite lookup_alter_eq, lookup_insert_eq, Hs.
  - by rewrite lookup_alter_ne, lookup_insert_ne.
Qed.

(** The invariant of the money and session tables. *)
Record db_ok d : Prop := {
  ok_wallet : wallet_ok d;
  ok_active : ∀ sid s, sessions d !! sid = Some s → is_active s = true →
    session_wf s ∧ is_Some (plugs d !! ChargingSession.plug_id s);
  ok_ids : ∀ i, next_id d <= i → sessions d !! i = None;
  (* an AVAILABLE plug runs no session, and no plug runs two *)
  ok_free : ∀ pid p, plugs d !! pid = Some p → Plug.status p = AVAILABLE →
    ∀ sid s, sessions d !! sid = Some s → is_active s = true → ChargingSession.plug_id s ≠ pid;
  ok_one : ∀ i j si sj, sessions d !! i = Some si → sessions d !! j = Some sj →
    is_active si = true → is_active sj = true →
    ChargingSession.plug_id si = ChargingSession.plug_id sj → i = j }.

(** Settling an active session with its hold. *)
Section Settle.
Context (d : db) (sid : Z) (s : ChargingSession.t) (h : money) (u : User.t) (now : Z).
Context (Hok : db_ok d) (Hs : sessions d !! sid = Some s) (Ha : is_active s = true)
  (Hh : ChargingSession.hold_coins s = Some h)
  (Hu : users d !! ChargingSession.user_id s = Some u).
Let cost := session_cost s (ChargingSession.energy_kwh s).
Let actual := Z.min cost h.

Lemma settle_amount :
  0 <= actual <= h ∧ h <= User.coin_balance u <= MAX_MONEY ∧
  Z.min (requested_debit s cost) (User.coin_balance u) = actual ∧
  0 <= requested_debit s cost.
Proof using Hok Hs Ha Hh Hu.
  pose proof (hold_covered d sid s h u (ok_wallet d Hok) Hs Ha Hh Hu) as Hcov.
  pose proof (ledger_range d (wallet_ledger d (ok_wallet d Hok)) _ u Hu) as Hrange.
  destruct (ok_active d Hok sid s Hs Ha) as [[Hb [He H0]] _].
  assert (0 <= cost) by (by apply session_cost_nonneg).
  unfold requested_debit. rewrite Hh. unfold actual. lia.
Qed.

Let d' := settled_db d sid s actual (User.coin_balance u - actual) now.

Lemma settled_moved :
  moved d d' (ChargingSession.user_id s) (User.coin_balance u - actual)
    (LedgerTransaction.mk (ChargingSession.user_id s) (Some sid) (- actual) SESSION_DEBIT None
       (User.coin_balance u - actual)).
Proof using. split; [done|]. exists (next_id d). split; [unfold d', settled_db; simpl; lia | done]. Qed.

Lemma settled_db_ok : db_ok d'.
Proof using Hok Hs Ha Hh Hu.
  destruct settle_amount as (Hact & Hcov & _). pose proof (ok_wallet d Hok) as Hw.
  assert (Hnew : ∀ v, hold_of v (s <| ChargingSession.status := COMPLETED |>
      <| ChargingSession.coins_spent := actual |> <| ChargingSession.ended_at := Some now |>) = 0).
  { intros v. unfold hold_of, is_active. simpl. by rewrite andb_false_r. }
  assert (Hsess : ∀ i x, sessions d' !! i = Some x → is_active x = true → sessions d !! i = Some x).
  { intros i x. unfold d', settled_db. simpl. destruct (decide (sid = i)) as [<-|Hi].
    - rewrite lookup_insert_eq. by intros [= <-].
    - by rewrite lookup_insert_ne. }
  assert (Hneq : ∀ i x, sessions d' !! i = Some x → is_active x = true → i ≠ sid).
  { intros i x. unfold d', settled_db. simpl. intros Hx Hax ->.
    rewrite lookup_insert_eq in Hx. by simplify_eq. }
  split; [split|..].
  - eapply moved_ledger_ok; [apply Hw | apply settled_moved | done | done | simpl; lia | lia].
  - intros v x Hx. rewrite (held_alter d d' v sid s _ Hs eq_refl), Hnew.
    unfold d', settled_db in Hx. simpl in Hx.
    destruct (decide (ChargingSession.user_id s = v)) as [<-|Hv].
    + rewrite lookup_alter_eq, Hu in Hx. injection Hx as <-. simpl.
      pose proof (wallet_held d Hw _ u Hu). unfold hold_of. rewrite Z.eqb_refl, Ha, Hh. simpl. lia.
    + rewrite lookup_alter_ne in Hx by done. pose proof (wallet_held d Hw v x Hx).
      unfold hold_of. rewrite (proj2 (Z.eqb_neq _ _)) by done. simpl. lia.
  - intros i x Hx Hax. specialize (Hsess i x Hx Hax). destruct (wallet_holds d Hw i x Hsess Hax).
    split; [done|]. unfold d', settled_db. simpl. by rewrite lookup_alter_is_Some.
  - intros i x Hx Hax. specialize (Hsess i x Hx Hax). destruct (ok_active d Hok i x Hsess Hax).
    split; [done|]. unfold d', settled_db. simpl. by rewrite lookup_alter_is_Some.
  - unfold d', settled_db. simpl. intros i Hi. rewrite lookup_insert_ne; [apply (ok_ids d Hok); lia|].
    intros <-. rewrite (ok_ids d Hok) in Hs by lia. done.
  - intros pid p Hp Hav i x Hx Hax Hpid. specialize (Hneq i x Hx Hax).
    specialize (Hsess i x Hx Hax). unfold d', settled_db in Hp. simpl in Hp.
    destruct (decide (ChargingSession.plug_id s = pid)) as [Heq|Hne].
    + apply Hneq. apply (ok_one d Hok i sid x s); congruence.
    + rewrite lookup_alter_ne in Hp by done. by eapply (ok_free d Hok).
  - intros i j x y Hx Hy Hax Hay. apply (ok_one d Hok); eauto.
Qed.
End Settle.

(** The transaction: nothing for a session that is not the caller's or no longer
    ACTIVE, else the settled database. *)
Definition may_finalize d sid (exp : option Z) s : Prop :=
  sessions d !! sid = Some s ∧ is_active s = true ∧
  (∀ u, exp = Some u → ChargingSession.user_id s = u).

Lemma lock_active_spec d sid exp :
  match (match sessions d !! sid with
    | None => None
    | Some s =>
        if match exp with Some u => ChargingSession.user_id s =? u | None => true end
           && is_active s
        then Some s else None
    end) with
  | Some s => may_finalize d sid exp s
  | None => ∀ s, ¬ may_finalize d sid exp s
  end.
Proof.
  unfold may_finalize. destruct (sessions d !! sid) as [s|] eqn:Hs; [|by intros s (? & _)].
  destruct exp as [u|]; simpl.
  - destruct (Z.eqb_spec (ChargingSession.user_id s) u) as [Hu|Hu]; simpl.
    + destruct (is_active s) eqn:Ha; [|by intros s' ([= <-] & ? & _); congruence].
      split_and!; [done..|]. by intros ? [= <-].
    + intros s' ([= <-] & _ & Hx). by apply Hu, Hx.
  - destruct (is_active s) eqn:Ha; [by split_and! |].
    intros s' ([= <-] & ? & _). congruence.
Qed.

Lemma wp_settle sid exp now Q w :
  db_ok (cur w) →
  ((∀ s, ¬ may_finalize (cur w) sid exp s) → Q (Ok None) w) →
  (∀ s h u plug w',
     may_finalize (cur w) sid exp s → ChargingSession.hold_coins s = Some h →
     users (cur w) !! ChargingSession.user_id s = Some u →
     plugs (cur w) !! ChargingSession.plug_id s = Some plug →
     let cost := session_cost s (ChargingSession.energy_kwh s) in
     let actual := Z.min cost h in
     let b := User.coin_balance u - actual in
     let s' := s <| ChargingSession.status := COMPLETED |>
                 <| ChargingSession.coins_spent := actual |>
                 <| ChargingSession.ended_at := Some now |> in
     cur w' = settled_db (cur w) sid s actual b now → com w' = cur w' → store w' = store w →
     Q (Ok (Some (mksettled s' plug cost actual b))) w') →
  wp (settle sid exp now) Q w.
Proof.
  intros Hok HN HS. unfold settle, lock_active_session. do 2 wp_step.
  pose proof (lock_active_spec (cur w) sid exp) as Hl.
  destruct (match sessions (cur w) !! sid with Some _ => _ | None => _ end) as [s|];
    [|apply wp_ret; by apply HN].
  pose proof Hl as (Hs & Ha & _).
  destruct (ok_active _ Hok sid s Hs Ha) as [_ [plug Hplug]].
  destruct (wallet_holds _ (ok_wallet _ Hok) sid s Hs Ha) as [(h & Hh & _) [u Hu]].
  destruct (settle_amount (cur w) sid s h u Hok Hs Ha Hh Hu) as (Hact & Hcov & Hmin & Hreq).
  unfold send_off, send_plug_command, publish.
  wp_run; [|simpl in *; congruence]. simplify_eq.
  apply (wp_bill _ _ _ _ u); [done | done | simpl; lia | done |]. simpl. rewrite Hmin.
  intros s' w' -> Hc Hcm Hst _. repeat wp_step. eapply HS; eauto.
Qed.

(** ** The fan-outs touch the waiting lists only *)

(** Everything but the waiting lists. *)
Definition core d : db := d <| watches := ∅ |> <| capacity_requests := ∅ |>.

Definition core_is (c : db) (w : world) : Prop := core (cur w) = c ∧ core (com w) = c.

Ltac core_safe :=
  repeat safe_step;
  try (apply safe_effect; [intros ? []; split; simpl; (done || congruence) | done]).

Lemma watchers_safe c plug_id exclude :
  safe (core_is c) (notify_watchers_plug_available plug_id exclude).
Proof. unfold notify_watchers_plug_available. core_safe. Qed.

Lemma capacity_safe c gid exclude : safe (core_is c) (notify_capacity_available gid exclude).
Proof. unfold notify_capacity_available. core_safe. Qed.

Lemma interval_safe c plug_id ms : safe (core_is c) (set_plug_telemetry_interval plug_id ms).
Proof. unfold set_plug_telemetry_interval, send_plug_interval, publish. core_safe. Qed.

Lemma after_settle_safe c sid r reason : safe (core_is c) (after_settle sid r reason).
Proof.
  unfold after_settle. core_safe;
    [apply watchers_safe | apply capacity_safe | apply interval_safe].
Qed.

(** The invariant looks at five tables. *)
Lemma db_ok_frame d d' :
  db_ok d → users d' = users d → ledger d' = ledger d → sessions d' = sessions d →
  plugs d' = plugs d → next_id d <= next_id d' → db_ok d'.
Proof.
  intros Hok Hu Hl Hs Hp Hn. destruct Hok as [[Hw Hheld Hholds] Hact Hids Hfree Hone].
  split; [split|..]; unfold held in *; rewrite ?Hu, ?Hs, ?Hp; try done.
  - by apply (ledger_ok_frame d).
  - intros i Hi. apply Hids. lia.
Qed.

Lemma db_ok_core d d' : db_ok d → core d' = core d → db_ok d'.
Proof.
  intros Hok Hc. apply (db_ok_frame d); [done | by apply (f_equal users) in Hc
    | by apply (f_equal ledger) in Hc | by apply (f_equal sessions) in Hc
    | by apply (f_equal plugs) in Hc |].
  apply (f_equal next_id) in Hc. simpl in Hc. lia.
Qed.

(** A credited wallet: everything but wallets, ledger and waiting ids is as before. *)
Lemma credit_db_ok d d' uid u b l :
  db_ok d → moved d d' uid b l → sessions d' = sessions d → plugs d' = plugs d →
  users d !! uid = Some u → LedgerTransaction.user_id l = uid →
  LedgerTransaction.amount l = b - User.coin_balance u →
  User.coin_balance u <= b <= MAX_MONEY → db_ok d'.
Proof.
  intros [Hw Hact Hids Hfree Hone] Hm Hs Hp Hu Hlu Hla Hb.
  split; rewrite ?Hs, ?Hp; try done.
  - by eapply credit_wallet_ok.
  - destruct Hm as (_ & i & Hi & _). intros j Hj. apply Hids. lia.
Qed.

(** What finalize does to a database that satisfies the invariant. *)
Lemma wp_finalize sid exp reason now Q w :
  db_ok (cur w) →
  ((∀ s, ¬ may_finalize (cur w) sid exp s) → Q (Ok None) w) →
  (∀ s h u plug w',
     may_finalize (cur w) sid exp s → ChargingSession.hold_coins s = Some h →
     users (cur w) !! ChargingSession.user_id s = Some u →
     plugs (cur w) !! ChargingSession.plug_id s = Some plug →
     let cost := session_cost s (ChargingSession.energy_kwh s) in
     let actual := Z.min cost h in
     let b := User.coin_balance u - actual in
     let s' := s <| ChargingSession.status := COMPLETED |>
                 <| ChargingSession.coins_spent := actual |>
                 <| ChargingSession.ended_at := Some now |> in
     core_is (core (settled_db (cur w) sid s actual b now)) w' →
     db_ok (com w') → db_ok (cur w') →
     Q (Ok (Some (receipt_of sid (mksettled s' plug cost actual b) reason))) w') →
  wp (finalize_charging_session sid exp reason now) Q w.
Proof.
  intros Hok HN HS. unfold finalize_charging_session. wp_step. apply wp_settle; [done | |].
  { intros Hno. wp_step. by apply HN. }
  intros s h u plug w' Hmay Hh Hu Hplug cost actual b s' Hc Hcm _. wp_step.
  apply (wp_safe (core_is (core (settled_db (cur w) sid s actual b now))));
    [apply after_settle_safe | by split; congruence |].
  intros [] w'' [Hc'' Hcm'']. wp_step.
  assert (db_ok (settled_db (cur w) sid s actual b now)) as Hok'
    by (destruct Hmay as (? & ? & _); by eapply settled_db_ok).
  apply (HS s h u plug); try done; [by eapply db_ok_core | by eapply db_ok_core].
Qed.

(** The effect of a settlement that collects [collected]: on the wallet and the
    ledger of the session's driver, on nobody else's wallet, on the session and
    on the plug. *)
Record settled_as d d' (sid : Z) (s : ChargingSession.t) (collected : money) now : Prop := {
  sa_balance : balance d' (ChargingSession.user_id s) =
               balance d (ChargingSession.user_id s) - collected;
  sa_ledger : booked d' (ChargingSession.user_id s) =
              booked d (ChargingSession.user_id s) - collected;
  sa_others : ∀ v, v ≠ ChargingSession.user_id s → balance d' v = balance d v;
  sa_session : ∃ s', sessions d' !! sid = Some s' ∧ ChargingSession.status s' = COMPLETED ∧
    ChargingSession.coins_spent s' = collected ∧ ChargingSession.ended_at s' = Some now;
  sa_plug : ∃ p, plugs d' !! ChargingSession.plug_id s = Some p ∧ Plug.status p = AVAILABLE }.

Lemma settled_effects d d' sid s u plug collected now :
  ledger_ok d → users d !! ChargingSession.user_id s = Some u →
  plugs d !! ChargingSession.plug_id s = Some plug →
  core d' = core (settled_db d sid s collected (User.coin_balance u - collected) now) →
  settled_as d d' sid s collected now.
Proof.
  intros Hok Hu Hplug Hc. set (uid := ChargingSession.user_id s).
  assert (Husers : users d' =
    alter (λ x, x <| User.coin_balance := User.coin_balance u - collected |>) uid (users d))
    by (by apply (f_equal users) in Hc).
  assert (Hledger := f_equal ledger Hc). assert (Hsess := f_equal sessions Hc).
  assert (Hplugs := f_equal plugs Hc). simpl in Hledger, Hsess, Hplugs. split; fold uid.
  - unfold balance. rewrite Husers, lookup_alter_eq. unfold uid. rewrite Hu. done.
  - pose proof (booked_insert d d' uid _ _ (ledger_ids d Hok (next_id d) ltac:(lia)) Hledger) as ->.
    unfold ledger_of. simpl. fold uid. rewrite Z.eqb_refl. lia.
  - intros v Hv. unfold balance. by rewrite Husers, lookup_alter_ne.
  - rewrite Hsess, lookup_insert_eq. by eexists.
  - rewrite Hplugs, lookup_alter_eq, Hplug. by eexists.
Qed.

(** C1: the hold does its work: finalizing an active session always succeeds,
    collects exactly the smaller of what the session costs and what it holds
    (never clamped by the wallet), records that amount in the ledger and on the
    session, charges nobody else, frees the plug and keeps every invariant. *)
Theorem finalize_collects_hold sid exp reason now w s h :
  com w = cur w → db_ok (cur w) → may_finalize (cur w) sid exp s →
  ChargingSession.hold_coins s = Some h →
  let collected := Z.min (session_cost s (ChargingSession.energy_kwh s)) h in
  ∃ rc w', run_request (finalize_charging_session sid exp reason now) w = (Ok (Some rc), w') ∧
    0 <= collected ∧ r_coins_spent rc = collected ∧
    settled_as (cur w) (com w') sid s collected now ∧ db_ok (com w').
Proof.
  intros Hcc Hok Hmay Hh collected.
  assert (H : wp (finalize_charging_session sid exp reason now) (λ out w',
    ∃ rc, out = Ok (Some rc) ∧ 0 <= collected ∧ r_coins_spent rc = collected ∧
    settled_as (cur w) (com w') sid s collected now ∧ db_ok (com w')) w).
  2:{ unfold wp, run_request in *.
      destruct (finalize_charging_session _ _ _ _ w) as [out w']. simpl in *.
      destruct H as (rc & -> & H). by eexists _, _. }
  apply wp_finalize; [done | by intros Hno; destruct (Hno s) |].
  intros s0 h0 u plug w' (Hs0 & Ha0 & _) Hh0 Hu Hplug. destruct Hmay as (Hs & Ha & _).
  assert (s0 = s) as -> by congruence. assert (h0 = h) as -> by congruence.
  intros cost actual b s' [_ Hcom] Hokc _. eexists. split; [done|].
  split; [apply (settle_amount (cur w) sid s h u Hok Hs Ha Hh Hu)|]. split; [done|].
  split; [|done]. by apply (settled_effects _ _ _ _ u plug);
    [apply (wallet_ledger _ (ok_wallet _ Hok)) | | |].
Qed.

(** C2: a session settles at most once: after one finalize, whoever asked and
    for whatever reason, another finalize of the same session (a second stop
    click, the reaper, an alarm) answers None and has no effect whatsoever. *)
Theorem finalize_settles_once sid exp1 exp2 reason1 reason2 now1 now2 w rc w' :
  com w = cur w → db_ok (cur w) →
  run_request (finalize_charging_session sid exp1 reason1 now1) w = (Ok (Some rc), w') →
  run_request (finalize_charging_session sid exp2 reason2 now2) w' = (Ok None, w').
Proof.
  intros Hcc Hok Hrun.
  assert (H : wp (finalize_charging_session sid exp1 reason1 now1) (λ out w',
    ∀ rc, out = Ok (Some rc) → com w' = com w' ∧
      (∃ s, sessions (com w') !! sid = Some s ∧ is_active s = false)) w).
  { apply wp_finalize; [done | done |].
    intros s h u plug w0 _ _ _ _ cost actual b s' [_ Hcom] _ _ rc' _. split; [done|].
    apply (f_equal sessions) in Hcom. simpl in Hcom. rewrite Hcom, lookup_insert_eq. by eexists. }
  unfold wp, run_request in *.
  destruct (finalize_charging_session sid exp1 reason1 now1 w) as [out w1].
  injection Hrun as Ho Hw. destruct (H rc Ho) as [_ (s & Hs & Ha)]. simpl in Hs. subst w'.
  unfold finalize_charging_session, settle, lock_active_session, mbind, M_bind, query. simpl.
  rewrite Hs, Ha, andb_false_r. by destruct w1.
Qed.
End Lifecycle.
