(* ===== verification/Ownership.v ===== *)
(** * What a gateway's message may touch

    The broker scopes topics, not payloads: the handlers of [services/mqtt]
    check that the plug a message names belongs to the gateway that sent it.
    [within_gateway g d d'] is what they must therefore satisfy: from [d] to
    [d'], only the plugs of [g], the ACTIVE sessions on them and the wallets of
    those sessions' drivers change.  It is a preorder, so that a handler's
    transactions are checked one by one. *)

From S2P Require Import Prelude Rounding PyNum Money Models Config Billing TelemetryStore.
From S2P Require Import World Hoare Wallet Caps Lifecycle.

(** The session runs on a plug of the gateway. *)
Definition runs_at (gateway_id : string) d s : Prop :=
  is_active s = true ∧
  ∀ p, plugs d !! ChargingSession.plug_id s = Some p → Plug.gateway_id p = gateway_id.

(** A plug of the gateway. *)
Definition owned (gateway_id : string) d plug_id : Prop :=
  ∃ p, plugs d !! plug_id = Some p ∧ Plug.gateway_id p = gateway_id.

Record within_gateway (gateway_id : string) d d' : Prop := {
  wg_sessions : ∀ sid s, sessions d !! sid = Some s → ¬ runs_at gateway_id d s →
    sessions d' !! sid = Some s;
  wg_running : ∀ sid s', sessions d' !! sid = Some s' → is_active s' = true →
    ∃ s, sessions d !! sid = Some s ∧ is_active s = true ∧
      ChargingSession.plug_id s = ChargingSession.plug_id s' ∧
      ChargingSession.user_id s = ChargingSession.user_id s';
  wg_plugs : ∀ pid p, plugs d !! pid = Some p → Plug.gateway_id p ≠ gateway_id →
    plugs d' !! pid = Some p;
  wg_owner : ∀ pid p, plugs d !! pid = Some p →
    ∃ p', plugs d' !! pid = Some p' ∧ Plug.gateway_id p' = Plug.gateway_id p;
  wg_new : ∀ pid p', plugs d' !! pid = Some p' → plugs d !! pid = None →
    Plug.gateway_id p' = gateway_id;
  wg_wallets : ∀ uid, (∀ sid s, sessions d !! sid = Some s → runs_at gateway_id d s →
      ChargingSession.user_id s ≠ uid) → users d' !! uid = users d !! uid }.

#[export] Instance within_preorder gateway_id : PreOrder (within_gateway gateway_id).
Proof.
  split.
  - intros d. split; try done; eauto. intros. congruence.
  - intros d1 d2 d3 [S1 R1 P1 O1 N1 W1] [S2 R2 P2 O2 N2 W2].
    assert (Hruns : ∀ sid s, sessions d2 !! sid = Some s → runs_at gateway_id d2 s →
      ∃ s0, sessions d1 !! sid = Some s0 ∧ runs_at gateway_id d1 s0 ∧
        ChargingSession.user_id s0 = ChargingSession.user_id s).
    { intros sid s Hs (Ha & Hg). destruct (R1 sid s Hs Ha) as (s0 & Hs0 & Ha0 & Hpid & Hu).
      exists s0. split_and!; [done| |done]. split; [done|]. intros p Hp.
      destruct (O1 _ p Hp) as (p' & Hp' & <-). apply Hg. congruence. }
    split.
    + intros sid s Hs Hn. apply S2; [by apply S1|]. intros Hr.
      destruct (Hruns sid s (S1 _ _ Hs Hn) Hr) as (s0 & Hs0 & Hr0 & _). congruence.
    + intros sid s3 Hs3 Ha3. destruct (R2 _ _ Hs3 Ha3) as (s2 & Hs2 & Ha2 & E1 & E2).
      destruct (R1 _ _ Hs2 Ha2) as (s1 & ? & ? & ? & ?). exists s1. split_and!; congruence.
    + eauto.
    + intros pid p Hp. destruct (O1 _ _ Hp) as (p2 & Hp2 & ?).
      destruct (O2 _ _ Hp2) as (p3 & ? & ?). exists p3. split; congruence.
    + intros pid p3 Hp3 Hn. destruct (plugs d2 !! pid) as [p2|] eqn:Hp2; [|by eapply N2].
      destruct (O2 _ _ Hp2) as (p3' & Hp3' & Hg). simplify_eq. rewrite Hg. by eapply N1.
    + intros uid Hu. rewrite W2; [by apply W1|]. intros sid s Hs Hr.
      destruct (Hruns sid s Hs Hr) as (s0 & Hs0 & Hr0 & <-). by eapply Hu.
Qed.

Lemma within_owned g g' d d' pid : within_gateway g d d' → owned g' d pid → owned g' d' pid.
Proof.
  intros Hw (p & Hp & Hg). destruct (wg_owner _ _ _ Hw _ _ Hp) as (p' & Hp' & Hg').
  exists p'. split; congruence.
Qed.

Lemma owned_runs_at g d s :
  is_active s = true → owned g d (ChargingSession.plug_id s) → runs_at g d s.
Proof. intros Ha (p & Hp & Hg). split; [done|]. intros p' Hp'. congruence. Qed.

(** Tables the relation does not look at. *)
Lemma within_frame gateway_id d d' :
  sessions d' = sessions d → plugs d' = plugs d → users d' = users d →
  within_gateway gateway_id d d'.
Proof.
  intros Hs Hp Hu. split; rewrite ?Hs, ?Hp, ?Hu; try done; intros; eauto. congruence.
Qed.

(** One plug of the gateway changes, and stays the gateway's. *)
Lemma within_plug gateway_id d d' pid p (f : Plug.t → Plug.t) :
  plugs d !! pid = Some p → Plug.gateway_id p = gateway_id → Plug.gateway_id (f p) = gateway_id →
  sessions d' = sessions d → users d' = users d → plugs d' = alter f pid (plugs d) →
  within_gateway gateway_id d d'.
Proof.
  intros Hp Hg Hf Hs Hu Hpl. split; rewrite ?Hs, ?Hu, ?Hpl; try done; try (intros; eauto; fail).
  - intros i q Hi Hq. rewrite lookup_alter_ne; [done|]. intros <-. congruence.
  - intros i q Hi. destruct (decide (pid = i)) as [<-|Hne].
    + rewrite lookup_alter_eq, Hp. simpl. eexists. split; [done|]. congruence.
    + rewrite lookup_alter_ne by done. eauto.
  - intros i q. destruct (decide (pid = i)) as [<-|Hne].
    + congruence.
    + rewrite lookup_alter_ne by done. congruence.
Qed.

(** A session on the gateway's plug changes, keeping its plug and driver. *)
Lemma within_session gateway_id d d' sid s s' :
  sessions d !! sid = Some s → runs_at gateway_id d s →
  ChargingSession.plug_id s' = ChargingSession.plug_id s →
  ChargingSession.user_id s' = ChargingSession.user_id s →
  sessions d' = <[sid := s']> (sessions d) → plugs d' = plugs d → users d' = users d →
  within_gateway gateway_id d d'.
Proof.
  intros Hs Hr Hpid Huid Hss Hp Hu. split; rewrite ?Hp, ?Hu; try done; try (intros; eauto; fail).
  - intros i x Hx Hn. rewrite Hss, lookup_insert_ne; [done|]. intros <-. congruence.
  - intros i x' Hx Ha. rewrite Hss in Hx. destruct (decide (sid = i)) as [<-|Hne].
    + rewrite lookup_insert_eq in Hx. apply (inj Some) in Hx as <-.
      exists s. destruct Hr as [? _]. split_and!; done.
    + rewrite lookup_insert_ne in Hx by done. eauto.
  - intros. congruence.
Qed.

Section Finalized.
Context `{cfg : Config}.

Lemma running_owned g d sid s :
  db_ok d → sessions d !! sid = Some s → runs_at g d s → owned g d (ChargingSession.plug_id s).
Proof.
  intros Hok Hs (Ha & Hg). destruct (ok_active d Hok sid s Hs Ha) as [_ [p Hp]].
  exists p. split; [done | by apply Hg].
Qed.

(** The invariant does not mind a plug that changes but is not freed. *)
Lemma db_ok_plug d d' pid (f : Plug.t → Plug.t) :
  db_ok d →
  (∀ p, plugs d !! pid = Some p → Plug.status (f p) = AVAILABLE → Plug.status p = AVAILABLE) →
  users d' = users d → ledger d' = ledger d → sessions d' = sessions d →
  plugs d' = alter f pid (plugs d) → next_id d <= next_id d' → db_ok d'.
Proof.
  intros [[Hw Hheld Hholds] Hact Hids Hfree Hone] Hf Hu Hl Hs Hp Hn.
  split; [split|..]; unfold held in *; rewrite ?Hu, ?Hs, ?Hp; try done.
  - by apply (ledger_ok_frame d).
  - intros i x Hi Hx. destruct (Hact i x Hi Hx). split; [done|]. by rewrite lookup_alter_is_Some.
  - intros i Hi. apply Hids. lia.
  - intros i q Hi Hq. destruct (decide (pid = i)) as [<-|Hne].
    + rewrite lookup_alter_eq in Hi. destruct (plugs d !! pid) as [p|] eqn:Hp0; [|done].
      apply (inj Some) in Hi as <-. eapply Hfree; [done | by apply (Hf p)].
    + rewrite lookup_alter_ne in Hi by done. by eapply Hfree.
Qed.

(** The database with one running session replaced by itself with another hold
    and other limits. *)
Definition relimited s s' : Prop :=
  is_active s' = is_active s ∧ ChargingSession.user_id s' = ChargingSession.user_id s ∧
  ChargingSession.plug_id s' = ChargingSession.plug_id s ∧ (session_wf s → session_wf s').

Lemma relimited_db_ok d d' sid s s' uid u h h' :
  db_ok d → sessions d !! sid = Some s → is_active s = true → relimited s s' →
  sessions d' = <[sid := s']> (sessions d) → users d' = users d → ledger d' = ledger d →
  plugs d' = plugs d → next_id d' = next_id d → ChargingSession.user_id s = uid →
  users d !! uid = Some u → ChargingSession.hold_coins s = Some h →
  ChargingSession.hold_coins s' = Some h' →
  0 <= h' <= User.coin_balance u - held d uid + h → db_ok d'.
Proof.
  intros Hok Hs Ha (Ha' & Hu' & Hp' & Hwf) Ds Du Dl Dp Dn Huid Hu Hh Hh' Hb. pose proof (ok_wallet d Hok) as Hw.
  assert (Hlook : ∀ i x, sessions d' !! i = Some x →
    is_active x = true → ∃ y, sessions d !! i = Some y ∧ is_active y = true ∧
      ChargingSession.plug_id x = ChargingSession.plug_id y ∧
      ChargingSession.user_id x = ChargingSession.user_id y ∧ (session_wf y → session_wf x) ∧
      (i ≠ sid → x = y) ∧ (i = sid → x = s')).
  { intros i x. rewrite Ds. destruct (decide (sid = i)) as [<-|Hi].
    - rewrite lookup_insert_eq. intros [= <-] _. exists s. by split_and!.
    - rewrite lookup_insert_ne by done. intros Hx Hax. exists x. by split_and!. }
  split; [split|..].
  - apply (ledger_ok_frame d); [apply Hw|done..|lia].
  - intros v x Hx. rewrite (held_alter d d' v sid s s' Hs Ds). rewrite Du in Hx.
    pose proof (wallet_held d Hw v x Hx). unfold hold_of. rewrite Ha', Ha, Hu', Huid, Hh, Hh'.
    destruct (Z.eqb_spec uid v) as [<-|]; simpl; [simplify_eq; lia | lia].
  - intros i x Hx Hax. destruct (Hlook i x Hx Hax) as (y & Hy & Hay & _ & Huy & _ & Hne & Heq).
    destruct (wallet_holds d Hw i y Hy Hay) as [Hhy Husr]. rewrite Huy, Du. split; [|done].
    destruct (decide (i = sid)) as [->|Hi]; [|by rewrite Hne].
    rewrite Heq by done. exists h'. split; [done|lia].
  - intros i x Hx Hax. destruct (Hlook i x Hx Hax) as (y & Hy & Hay & Hpy & _ & Hwy & _).
    destruct (ok_active d Hok i y Hy Hay). rewrite Hpy, Dp. split; [by apply Hwy | done].
  - intros i Hi. rewrite Dn in Hi. rewrite Ds, lookup_insert_ne; [by apply (ok_ids d Hok)|].
    intros <-. by rewrite (ok_ids d Hok) in Hs.
  - intros pid p Hp Hav i x Hx Hax. rewrite Dp in Hp. destruct (Hlook i x Hx Hax) as (y & Hy & Hay & -> & _).
    by eapply (ok_free d Hok).
  - intros i j x y Hx Hy Hax Hay Hxy. destruct (Hlook i x Hx Hax) as (x' & Hx' & Hax' & Hpx & _).
    destruct (Hlook j y Hy Hay) as (y' & Hy' & Hay' & Hpy & _).
    apply (ok_one d Hok i j x' y'); congruence.
Qed.

(** With the same hold. *)
Lemma updated_db_ok d d' sid s s' :
  db_ok d → sessions d !! sid = Some s → is_active s = true → relimited s s' →
  ChargingSession.hold_coins s' = ChargingSession.hold_coins s →
  sessions d' = <[sid := s']> (sessions d) → users d' = users d → ledger d' = ledger d →
  plugs d' = plugs d → next_id d' = next_id d → db_ok d'.
Proof.
  intros Hok Hs Ha Hre Hh Ds Du Dl Dp Dn.
  destruct (wallet_holds d (ok_wallet d Hok) sid s Hs Ha) as [(h & Hsh & H0) [u Hu]].
  pose proof (wallet_held d (ok_wallet d Hok) _ u Hu).
  eapply (relimited_db_ok d d' sid s s' _ u h h); try done; [congruence | lia].
Qed.

(** Settling a session that runs at the gateway. *)
Lemma within_settled gateway_id d d' sid s actual b now :
  sessions d !! sid = Some s → runs_at gateway_id d s →
  core d' = core (settled_db d sid s actual b now) → within_gateway gateway_id d d'.
Proof.
  intros Hs Hr Hc. pose proof Hr as (Ha & Hg).
  pose proof (f_equal sessions Hc) as Hss. pose proof (f_equal plugs Hc) as Hpl.
  pose proof (f_equal users Hc) as Hu. simpl in Hss, Hpl, Hu. split.
  - intros i x Hx Hn. rewrite Hss, lookup_insert_ne; [done|]. intros <-. congruence.
  - intros i x' Hx Hax. rewrite Hss in Hx. destruct (decide (sid = i)) as [<-|Hne].
    + rewrite lookup_insert_eq in Hx. apply (inj Some) in Hx as <-. done.
    + rewrite lookup_insert_ne in Hx by done. eauto.
  - intros i q Hq Hne. rewrite Hpl, lookup_alter_ne; [done|]. intros <-. by apply Hne, Hg.
  - intros i q Hq. rewrite Hpl. destruct (decide (ChargingSession.plug_id s = i)) as [<-|Hne].
    + rewrite lookup_alter_eq, Hq. by eexists.
    + rewrite lookup_alter_ne by done. eauto.
  - intros i q Hq Hn. rewrite Hpl in Hq. destruct (decide (ChargingSession.plug_id s = i)) as [<-|Hne].
    + by rewrite lookup_alter_eq, Hn in Hq.
    + rewrite lookup_alter_ne in Hq by done. congruence.
  - intros uid Hno. rewrite Hu, lookup_alter_ne; [done|]. by eapply Hno.
Qed.

(** Finalizing in a database session of its own. *)
Lemma wp_scope_finalize sid reason now Q w :
  com w = cur w → db_ok (cur w) →
  ((∀ s, ¬ may_finalize (cur w) sid None s) → Q (Ok None) w) →
  (∀ s actual b rc w', may_finalize (cur w) sid None s →
     core (com w') = core (settled_db (cur w) sid s actual b now) →
     com w' = cur w' → db_ok (cur w') → Q (Ok (Some rc)) w') →
  wp (scope (finalize_charging_session sid None reason now)) Q w.
Proof.
  intros Hcc Hok HN HS. apply wp_scope, wp_finalize; [done | |].
  - intros Hno. rewrite Hcc. assert (w <| cur := cur w |> = w) as -> by (by destruct w). by apply HN.
  - intros s h u plug w' Hmay _ _ _ cost actual b s' [_ Hcom] Hok' _. by eapply HS.
Qed.
End Finalized.
