(* ===== verification/Accounts.v ===== *)
(** * routers/auth.py: registration, sign-in, passwords

    Each route is the handler after its rate-limit dependencies per IP
    ([RateLimit]).  The request schemas have been checked; rows a handler read
    before another request's commit are looked at again where the code does. *)

From Stdlib Require Import Ascii.
From S2P Require Import Prelude Rounding PyNum Money Models Config RateLimit TelemetryStore.
From S2P Require Import World Hoare PyString PyJson Auth Wallet Lifecycle.

(** ** The unique columns of [users] *)

Definition same_sub (a b : option string) : bool :=
  match a, b with Some a, Some b => String.eqb a b | _, _ => false end.

Definition clashes_with (u v : User.t) : bool :=
  String.eqb (User.email u) (User.email v) || same_sub (User.google_sub u) (User.google_sub v).

Definition insert_user (u : User.t) : M Z :=
  clash ← query (λ d, exists_row (λ _ v, clashes_with u v) (users d));
  if clash : bool then raise IntegrityError
  else (i ← fresh; modify (λ d, d <| users ::= <[i := u]> |>);; mret i).

(** [try: m except IntegrityError: h] *)
Definition on_conflict {A} (m h : M A) : M A :=
  catch m (λ e, match e with IntegrityError => h | e => raise e end).

(** [select(User).where(func.lower(User.email) == email)] *)
Definition users_by_email (email : string) (d : db) : list (Z * User.t) :=
  select (λ _ u, String.eqb (lower (User.email u)) email) (users d).

Definition bump_version (u : User.t) : User.t := u <| User.token_version ::= Z.succ |>.

(** ** Emailed tokens: one table for each purpose, the same life *)

Inductive purpose := Reset | Verification.
#[export] Instance purpose_eq_dec : EqDecision purpose. Proof. solve_decision. Defined.

Definition tokens (k : purpose) (d : db) : gmap Z PasswordResetToken.t :=
  match k with Reset => reset_tokens d | Verification => verification_tokens d end.

Definition on_tokens (k : purpose) (f : gmap Z PasswordResetToken.t → gmap Z PasswordResetToken.t)
    (d : db) : db :=
  match k with
  | Reset => d <| reset_tokens ::= f |>
  | Verification => d <| verification_tokens ::= f |>
  end.

Definition unused (t : PasswordResetToken.t) : bool :=
  bool_decide (PasswordResetToken.used_at t = None).

Definition void_tokens (uid now : Z) : gmap Z PasswordResetToken.t → gmap Z PasswordResetToken.t :=
  update_where (λ t, (PasswordResetToken.user_id t =? uid) && unused t)
    (λ t, t <| PasswordResetToken.used_at := Some now |>).

Section Accounts.
Context `{cfg : Config, cr : Crypto}.
Implicit Types (uid now : Z) (mono : float) (k : purpose).

Definition insert_token k (t : PasswordResetToken.t) : M unit :=
  dup ← query (λ d, exists_row (λ _ t', String.eqb (PasswordResetToken.token_hash t')
                                  (PasswordResetToken.token_hash t)) (tokens k d));
  if dup : bool then raise IntegrityError
  else (i ← fresh; modify (on_tokens k <[i := t]>)).

(** Voids what is outstanding and stores the digest of the new token. *)
Definition issue_token k uid (token : string) (ttl now : Z) : M unit :=
  modify (on_tokens k (void_tokens uid now));;
  insert_token k (PasswordResetToken.mk uid (sha256_hexdigest token) (now + ttl) None);;
  commit.

(** The row of a submitted token, when it can still be consumed. *)
Definition find_token k (token : string) now : M (Z * PasswordResetToken.t) :=
  rows ← query (λ d, select (λ _ t, String.eqb (PasswordResetToken.token_hash t) (sha256_hexdigest token))
                       (tokens k d));
  found ← one_or_none rows;
  '(i, t) ← or_raise found 400 "Invalid or expired link.";
  refuse (negb (unused t) || (PasswordResetToken.expires_at t <=? now)) 400 "Invalid or expired link.";;
  mret (i, t).

(** [UPDATE ... WHERE id = i AND used_at IS NULL], refused when no row is left. *)
Definition consume_token k (i now : Z) : M unit :=
  live ← query (λ d, match tokens k d !! i with Some t => unused t | None => false end);
  refuse (negb live) 400 "Invalid or expired link.";;
  modify (on_tokens k (alter (λ t, t <| PasswordResetToken.used_at := Some now |>) i)).

Definition set_user uid (f : User.t → User.t) : M unit :=
  modify (λ d, d <| users ::= alter f uid |>).

Definition issue_email_verification uid (user_email token : string) now : M unit :=
  issue_token Verification uid token EMAIL_VERIFICATION_TTL now;;
  emit (SendEmailVerification uid user_email token).

Definition new_driver (email hashed_password full_name : string) (email_verified : bool)
    (auth_provider : string) (google_sub : option string) : User.t :=
  User.mk None email hashed_password full_name DRIVER 0 0 false email_verified auth_provider google_sub None.

(** The part after the duplicate check; a registration that lost the race for
    the email ends here. *)
Definition register_store (email password full_name salt token : string) now : M string :=
  h ← hash_password password salt;
  i ← on_conflict (i ← insert_user (new_driver email h full_name false "password" None); commit;; mret i)
        (rollback;; raise (HTTPException 400 "An account with this email already exists."));
  issue_email_verification i email token now;;
  mret email.

Definition register (req_email password full_name salt token : string) now : M string :=
  let email := normalize_email req_email in
  rows ← query (users_by_email email);
  found ← one_or_none rows;
  refuse (bool_decide (is_Some found)) 400 "An account with this email already exists.";;
  register_store email password full_name salt token now.

(** From the conditional UPDATE on; the reply carries a token of the new epoch. *)
Definition verify_email_consume (i uid now : Z) : M (Z * string) :=
  consume_token Verification i now;;
  set_user uid (λ u, bump_version (u <| User.email_verified := true |>));;
  commit;;
  found ← query (λ d, users d !! uid);
  user ← scalar_one found;
  mret (uid, create_access_token uid (User.role user) (User.email user) (User.token_version user) now).

Definition verify_email (token : string) now : M (Z * string) :=
  '(i, t) ← find_token Verification token now;
  verify_email_consume i (PasswordResetToken.user_id t) now.

(** [raise 429 if retry_after is not None] *)
Definition allowed_or_429 (v : verdict) : M unit :=
  match v with
  | Allowed => mret tt
  | Blocked _ => raise (HTTPException 429 "Too many attempts.")
  | NoAttempts => raise IndexError
  end.

Definition limit_resend (key : string) mono : M unit :=
  r ← read_mem (λ m, check key mono (resend_emails m));
  with_mem (λ m, m <| resend_emails := r.2 |>);;
  allowed_or_429 r.1.

Definition resend_verification (req_email token : string) now mono : M unit :=
  let email := normalize_email req_email in
  limit_resend ("resend_verify:" +:+ email) mono;;
  rows ← query (users_by_email email);
  found ← one_or_none rows;
  match found with
  | Some (uid, user) =>
      when (negb (User.email_verified user)) (issue_email_verification uid (User.email user) token now)
  | None => mret tt
  end.

(** A failure counts against the email; a limit reached turns 401 into 429. *)
Definition login_failed {A} (account_key : string) mono : M A :=
  r ← read_mem (λ m, record_failure account_key mono (login_failures m));
  with_mem (λ m, m <| login_failures := r.2 |>);;
  allowed_or_429 r.1;;
  raise (HTTPException 401 "Invalid email or password.").

Definition login (req_email password : string) now mono : M (Z * string) :=
  let email := normalize_email req_email in
  rows ← query (users_by_email email);
  found ← one_or_none rows;
  let account_key := "login:" +:+ email in
  match found with
  | Some (uid, user) =>
      if verify_password password (User.hashed_password user) then
        with_mem (λ m, m <| login_failures ::= reset account_key |>);;
        refuse (User.is_disabled user) 403 "account_disabled";;
        refuse (negb (User.email_verified user)) 403 "Please verify your email address.";;
        check_and_speed_up_active_session uid;;
        mret (uid, create_access_token uid (User.role user) (User.email user)
                     (User.token_version user) now)
      else login_failed account_key mono
  | None => login_failed account_key mono
  end.

Definition get_me uid : M money :=
  check_and_speed_up_active_session uid;;
  available_balance uid.

Definition logout uid : M unit :=
  found ← query (λ d, users d !! uid);
  _ ← scalar_one found;
  set_user uid bump_version;;
  commit.

Definition limit_forgot (key : string) mono : M unit :=
  r ← read_mem (λ m, check key mono (forgot_emails m));
  with_mem (λ m, m <| forgot_emails := r.2 |>);;
  allowed_or_429 r.1.

Definition forgot_password (req_email token : string) now mono : M unit :=
  let email := normalize_email req_email in
  limit_forgot ("forgot:" +:+ email) mono;;
  rows ← query (users_by_email email);
  found ← one_or_none rows;
  match found with
  | Some (uid, user) =>
      issue_token Reset uid token RESET_TOKEN_TTL now;;
      emit (SendPasswordReset uid (User.email user) token)
  | None => mret tt
  end.

(** From the conditional UPDATE on. *)
Definition reset_password_consume (i uid : Z) (password salt : string) now : M unit :=
  consume_token Reset i now;;
  h ← hash_password password salt;
  set_user uid (λ u, bump_version (u <| User.hashed_password := h |>));;
  commit.

Definition reset_password (token password salt : string) now : M unit :=
  '(i, t) ← find_token Reset token now;
  reset_password_consume i (PasswordResetToken.user_id t) password salt now.

(** ** Sign in with Google *)

(** The verified identity token; the HTTP calls to Google are outside. *)
Record google_claims := mkgoogle {
  google_email_verified : bool;
  google_email : option string;
  google_subject : option string;
  google_name : option string }.

Inductive google_response :=
  | GoogleError (status : Z) (detail : string)
  | GoogleRedirect (code nonce : string).

(** Truth of an optional string. *)
Definition given (o : option string) : option string :=
  match o with Some EmptyString => None | o => o end.

(** [email.split("@", 1)[0]] *)
Fixpoint before_at (s : string) : string :=
  match s with
  | EmptyString => ""
  | String c s => if Ascii.eqb c "@" then "" else String c (before_at s)
  end.

Definition GOOGLE_EXCHANGE_TTL_SECONDS : float := fint 120.

Definition exchange_entry : Type := string * string * float.

Definition prune_expired_exchange_codes mono (m : gmap string exchange_entry)
    : gmap string exchange_entry :=
  filter (λ e, (e.2.2 <=? mono) = false) m.

Definition store_exchange_code (code token nonce : string) mono : M unit :=
  with_mem (λ m, m <| exchange_codes ::= λ c,
    <[code := (token, nonce, fadd mono GOOGLE_EXCHANGE_TTL_SECONDS)]> (prune_expired_exchange_codes mono c) |>).

(** The checks on a popped entry. *)
Definition redeem (entry : option exchange_entry) (nonce : option string) mono : option string :=
  '(token, stored_nonce, expires_at) ← entry;
  if expires_at <? mono then None
  else nonce ← given nonce; if String.eqb stored_nonce nonce then Some token else None.

Definition consume_exchange_code (code : string) (nonce : option string) mono : M (option string) :=
  entry ← read_mem (λ m, exchange_codes m !! code);
  with_mem (λ m, m <| exchange_codes ::= delete code |>);;
  mret (redeem entry nonce mono).

Definition google_exchange (code : string) (nonce : option string) mono : M string :=
  token ← consume_exchange_code code nonce mono;
  or_raise token 400 "Invalid or expired sign-in.".

(** The credential of an existing account, taken over by the Google owner; the
    epoch is counted from the one that was read, without a lock. *)
Definition link_google (google_sub hashed_password : string) (token_version : Z) (u : User.t) : User.t :=
  u <| User.google_sub := Some google_sub |>
    <| User.hashed_password := hashed_password |> <| User.token_version := token_version + 1 |>
    <| User.auth_provider := "google" |> <| User.email_verified := true |>.

(** [UPDATE users] under the unique index on [google_sub]. *)
Definition update_linked uid (google_sub : string) (f : User.t → User.t) : M unit :=
  clash ← query (λ d, exists_row (λ i v, negb (i =? uid) && same_sub (User.google_sub v) (Some google_sub)) (users d));
  if clash : bool then raise IntegrityError else set_user uid f.

(** The first link of an account, on the row as it was read. *)
Definition link_store uid (user : User.t) (google_sub random_password salt : string)
    : M (google_response + Z) :=
  h ← hash_password random_password salt;
  on_conflict
    (update_linked uid google_sub (link_google google_sub h (User.token_version user));; commit;; mret (inr uid))
    (rollback;; mret (inl (GoogleError 400 "This Google account is already linked."))).

(** Finds, creates or links the account of a Google identity. *)
Definition google_account (email google_sub : string) (name : option string) (random_password salt : string)
    : M (google_response + Z) :=
  rows ← query (users_by_email email);
  found ← one_or_none rows;
  match found with
  | None =>
      h ← hash_password random_password salt;
      on_conflict
        (i ← insert_user (new_driver email h (default (before_at email) (given name)) true "google" (Some google_sub));
         commit;; mret (inr i))
        (rollback;; mret (inl (GoogleError 400 "An account with this email already exists.")))
  | Some (uid, user) =>
      match User.google_sub user with
      | None => link_store uid user google_sub random_password salt
      | Some s =>
          mret (if String.eqb s google_sub then inr uid
                else inl (GoogleError 403 "This email is linked to a different Google account."))
      end
  end.

(** [exchange]: the [id_token] of Google's answer, [None] on an error;
    [verify_oauth2_token]: [None] when it raises. *)
Definition google_callback (configured : bool) (cookie_state query_state code : option string)
    (exchange : option (option string)) (verify_oauth2_token : string → option google_claims)
    (random_password salt nonce new_code : string) now mono : M google_response :=
  let error s t := mret (GoogleError s t) in
  if negb configured then error 503 "Google sign-in is not configured."
  else match given cookie_state, given query_state with
  | Some a, Some b =>
    if negb (String.eqb a b) then error 400 "Invalid or expired sign-in attempt."
    else match given code with
    | None => error 400 "Google sign-in was cancelled."
    | Some _ =>
      match exchange with
      | None => error 400 "Could not complete Google sign-in."
      | Some id_token =>
        match given id_token with
        | None => error 400 "Google did not return an identity token."
        | Some id_token =>
          match verify_oauth2_token id_token with
          | None => error 400 "Could not verify Google identity token."
          | Some claims =>
            if negb (google_email_verified claims) then error 400 "Google account email is not verified."
            else match given (google_email claims), given (google_subject claims) with
            | None, _ => error 400 "Google did not return an email address."
            | _, None => error 400 "Google did not return an account identifier."
            | Some email, Some google_sub =>
                account ← google_account (normalize_email email) google_sub (google_name claims)
                            random_password salt;
                match account with
                | inl response => mret response
                | inr uid =>
                    found ← query (λ d, users d !! uid);
                    user ← scalar_one found;
                    if User.is_disabled user then error 403 "account_disabled"
                    else
                      (check_and_speed_up_active_session uid;;
                       store_exchange_code new_code (create_access_token uid (User.role user)
                         (User.email user) (User.token_version user) now) nonce mono;;
                       mret (GoogleRedirect new_code nonce))
                end
            end
          end
        end
      end
    end
  | _, _ => error 400 "Invalid or expired sign-in attempt."
  end.

End Accounts.
