(* ===== verification/AccountClosure.v ===== *)
(** * services/account_closure.py, routers/auth.py delete_my_account

    An account is closed by anonymising its row; what carries money stays.  The
    audit record and the counts of the purge are not kept. *)

From stdpp Require Import pretty.
From S2P Require Import Prelude Rounding PyNum Money Models Config TelemetryStore World Hoare.
From S2P Require Import PyString Auth Wallet Lifecycle Accounts.

Definition TOMBSTONE_NAME : string := "Deleted user".
Definition tombstone_email (uid : Z) : string :=
  "deleted-user-" +:+ pretty uid +:+ "@deleted.amphive.invalid".
Definition DELETE_ACCOUNT_CONFIRM_PHRASE : string := "DELETE MY ACCOUNT".

Definition is_operator (u : User.t) : bool :=
  match User.role u with CPO | ADMIN => true | DRIVER => false end.

(** The row an account leaves behind. *)
Definition tombstone (uid : Z) (h : string) (now : Z) (u : User.t) : User.t :=
  bump_version (u <| User.email := tombstone_email uid |> <| User.full_name := TOMBSTONE_NAME |>
    <| User.hashed_password := h |> <| User.google_sub := None |> <| User.auth_provider := "deleted" |>
    <| User.email_verified := false |> <| User.is_disabled := true |> <| User.deleted_at := Some now |>).

Section AccountClosure.
Context `{cfg : Config, cr : Crypto}.
Implicit Types (uid now : Z) (user : User.t).

Definition refuse_closure (b : bool) (reason : string) : M unit :=
  if b then raise (AccountClosureRefused reason) else mret tt.

Definition assert_closable uid user : M unit :=
  active ← query (λ d, exists_row (λ _ s, (ChargingSession.user_id s =? uid) && is_active s) (sessions d));
  refuse_closure active "You have a charging session in progress.";;
  match User.tenant_id user with
  | Some tid =>
      when (is_operator user) (
        other_operators ← query (λ d, exists_row (λ i u,
          bool_decide (User.tenant_id u = Some tid) && negb (i =? uid) && is_operator u &&
          bool_decide (User.deleted_at u = None)) (users d));
        when (negb other_operators) (
          owned ← query (λ d, existsb (λ g, bool_decide (Gateway.tenant_id g.2 = Some tid))
                                (map_to_list (gateways d)));
          refuse_closure owned "You are the only operator on an organisation with chargers."))
  | None => mret tt
  end.

(** The credit left is forfeited and booked. *)
Definition forfeit uid : M money :=
  found ← query (λ d, User.coin_balance <$> users d !! uid);
  balance ← scalar_one found;
  let forfeited := to_money_amount balance in
  when (ZERO_MONEY <? forfeited) (
    add_ledger (LedgerTransaction.mk uid None (- forfeited) ACCOUNT_CLOSURE None ZERO_MONEY);;
    set_user uid (λ u, u <| User.coin_balance := ZERO_MONEY |>));;
  mret forfeited.

(** Bookings and queued charges that still wait are cancelled. *)
Definition cancel_scheduled uid (d : db) : db :=
  d <| reservations ::= update_where
         (λ r, (Reservation.user_id r =? uid) && bool_decide (Reservation.status r = BOOKED))
         (λ r, r <| Reservation.status := RES_CANCELLED |>) |>
    <| queued ::= update_where
         (λ q, (QueuedCharge.user_id q =? uid) && bool_decide (QueuedCharge.status q = Q_WAITING))
         (λ q, q <| QueuedCharge.status := Q_CANCELLED |>) |>.

Definition purge uid (d : db) : db :=
  d <| push_subscriptions ::= delete_where (λ _ x, PushSubscription.user_id x =? uid) |>
    <| notifications ::= delete_where (λ _ x, Notification.user_id x =? uid) |>
    <| favorites ::= delete_where (λ _ x, UserFavorite.user_id x =? uid) |>
    <| watches ::= delete_where (λ _ x, PlugWatch.user_id x =? uid) |>
    <| memberships ::= delete_where (λ _ x, GroupMembership.user_id x =? uid) |>
    <| capacity_requests ::= delete_where (λ _ x, CapacityRequest.user_id x =? uid) |>
    <| reset_tokens ::= delete_where (λ _ x, PasswordResetToken.user_id x =? uid) |>
    <| verification_tokens ::= delete_where (λ _ x, PasswordResetToken.user_id x =? uid) |>.

Definition anonymise uid (random_password salt : string) now : M unit :=
  h ← hash_password random_password salt;
  taken ← query (λ d, exists_row (λ i u, negb (i =? uid) && String.eqb (User.email u) (tombstone_email uid))
                        (users d));
  if taken : bool then raise IntegrityError else set_user uid (tombstone uid h now).

(** From the row lock on; [assert_closable] ran before it. *)
Definition close_locked uid (random_password salt : string) now : M money :=
  forfeited ← forfeit uid;
  modify (cancel_scheduled uid);;
  modify (purge uid);;
  anonymise uid random_password salt now;;
  commit;;
  mret forfeited.

Definition close_account uid user (random_password salt : string) now : M money :=
  assert_closable uid user;;
  close_locked uid random_password salt now.

Definition delete_my_account (token confirm : string) (password : option string)
    (random_password salt : string) now : M money :=
  '(uid, user) ← get_current_user token now;
  refuse (negb (String.eqb (strip confirm) DELETE_ACCOUNT_CONFIRM_PHRASE)) 400 "To close your account, confirm.";;
  refuse (negb (String.eqb (User.auth_provider user) "google") &&
          negb (match given password with
                | Some p => verify_password p (User.hashed_password user)
                | None => false
                end)) 403 "Password is incorrect.";;
  catch (close_account uid user random_password salt now)
    (λ e, match e with AccountClosureRefused reason => raise (HTTPException 409 reason) | e => raise e end).

End AccountClosure.
