(* ===== verification/AccountSafety.v ===== *)
(** * What the account routes promise

    The invariant of accounts, the requests as steps, and the theorems about
    sign-in: revocation, single use, no enumeration, closure. *)

From stdpp Require Import pretty.
From Stdlib Require Import Ascii.
From S2P Require Import Prelude Rounding PyNum Money Models Config RateLimit TelemetryStore.
From S2P Require Import World Hoare PyString PyJson Auth Wallet Commands Lifecycle.
From S2P Require Import Accounts AccountClosure.

Implicit Types (d : db) (uid now : Z) (k : purpose).

(** ** Lower case *)

Lemma lower_ascii_idemp c : lower_ascii (lower_ascii c) = lower_ascii c.
Proof. by destruct c as [[] [] [] [] [] [] [] []]. Qed.

Lemma lower_idemp s : lower (lower s) = lower s.
Proof. induction s as [|c s IH]; [done|]. simpl. by rewrite lower_ascii_idemp, IH. Qed.

Lemma lower_app (s t : string) : lower (String.app s t) = String.app (lower s) (lower t).
Proof.
  induction s as [|c s IH]; [done|].
  change (String (lower_ascii c) (lower (String.app s t)) = String (lower_ascii c) (String.app (lower s) (lower t))).
  by rewrite IH.
Qed.

Lemma lower_pretty_N_go n s : lower (pretty_N_go n s) = pretty_N_go n (lower s).
Proof.
  revert s. induction (N.lt_wf_0 n) as [n _ IH]; intros s.
  destruct (decide (0 < n)%N) as [Hn|]; [|by assert (n = 0%N) as -> by lia].
  rewrite !(pretty_N_go_step n) by done. rewrite IH by (by apply N.div_lt). f_equal. simpl. f_equal.
  assert (Hd : (n `mod` 10 < 10)%N) by (by apply N.mod_lt). revert Hd.
  generalize (n `mod` 10)%N. intros m Hm.
  assert (m = 0 ∨ m = 1 ∨ m = 2 ∨ m = 3 ∨ m = 4 ∨ m = 5 ∨ m = 6 ∨ m = 7 ∨ m = 8 ∨ m = 9)%N as Hc by lia.
  by destruct_or!; subst.
Qed.

Lemma lower_pretty (n : Z) : lower (pretty n) = pretty n.
Proof.
  assert (Hp : ∀ p, lower (pretty (Npos p)) = pretty (Npos p)).
  { intros p. change (pretty (Npos p)) with (pretty_N_go (Npos p) ""). by rewrite lower_pretty_N_go. }
  destruct n as [|p|p]; [done | apply Hp|].
  change (lower (String.app "-" (pretty (Npos p))) = String.app "-" (pretty (Npos p))).
  by rewrite lower_app, Hp.
Qed.

Lemma lower_tombstone uid : lower (tombstone_email uid) = tombstone_email uid.
Proof. unfold tombstone_email. by rewrite !lower_app, lower_pretty. Qed.

(** ** The invariant *)

Record accounts_ok d : Prop := {
  acc_lower : ∀ uid u, users d !! uid = Some u → lower (User.email u) = User.email u;
  acc_clash : ∀ i j u v, users d !! i = Some u → users d !! j = Some v → clashes_with u v = true → i = j;
  acc_ids : ∀ i, next_id d <= i → users d !! i = None;
  acc_pos : ∀ i u, users d !! i = Some u → 0 <= i;
  acc_next : 0 <= next_id d;
  acc_token_ids : ∀ k i, next_id d <= i → tokens k d !! i = None;
  acc_hash : ∀ k i j t t', tokens k d !! i = Some t → tokens k d !! j = Some t' →
    PasswordResetToken.token_hash t = PasswordResetToken.token_hash t' → i = j;
  acc_ledger : ∀ i l, ledger d !! i = Some l → is_Some (users d !! LedgerTransaction.user_id l) }.

Definition version uid d : Z := default 0 (User.token_version <$> users d !! uid).

(** No account disappears and no epoch goes back. *)
Definition grown d0 d : Prop :=
  ∀ uid u, users d0 !! uid = Some u →
    ∃ u', users d !! uid = Some u' ∧ User.token_version u <= User.token_version u'.

Section Safety.
Context `{cfg : Config, cr : Crypto}.

Record good d0 d : Prop := {
  good_accounts : accounts_ok d;
  good_money : db_ok d;
  good_grown : grown d0 d }.

Definition goods d0 (w : world) : Prop := good d0 (cur w) ∧ good d0 (com w).

Lemma grown_refl d : grown d d.
Proof. intros uid u Hu. by exists u. Qed.

Lemma grown_trans d1 d2 d3 : grown d1 d2 → grown d2 d3 → grown d1 d3.
Proof.
  intros H12 H23 uid u Hu. destruct (H12 _ _ Hu) as (v & Hv & ?). destruct (H23 _ _ Hv) as (x & Hx & ?).
  exists x. split; [done | lia].
Qed.

Lemma grown_version d d' uid : grown d d' → is_Some (users d !! uid) → version uid d <= version uid d'.
Proof.
  intros Hg [u Hu]. destruct (Hg _ _ Hu) as (v & Hv & Hle). unfold version. by rewrite Hu, Hv.
Qed.

(** *** Frames of the money invariant *)

Lemma db_ok_wallets d d' :
  db_ok d → (∀ uid, User.coin_balance <$> users d' !! uid = User.coin_balance <$> users d !! uid) →
  ledger d' = ledger d → sessions d' = sessions d → plugs d' = plugs d → next_id d <= next_id d' → db_ok d'.
Proof.
  intros [[[Hsum Hrange Hlids] Hheld Hholds] Hact Hids Hfree Hone] Hu Hl Hs Hp Hn.
  assert (Hrow : ∀ uid u', users d' !! uid = Some u' →
    ∃ u, users d !! uid = Some u ∧ User.coin_balance u = User.coin_balance u').
  { intros uid u' Hu'. specialize (Hu uid). rewrite Hu' in Hu. destruct (users d !! uid) as [u|]; [|done].
    exists u. by injection Hu as ->. }
  split; [split; [split|..]|..]; unfold held, booked in *; rewrite ?Hl, ?Hs, ?Hp; try done.
  - intros uid u' (u & Hu1 & <-)%Hrow. by apply Hsum.
  - intros uid u' (u & Hu1 & <-)%Hrow. by eapply Hrange.
  - intros i Hi. apply Hlids. lia.
  - intros uid u' (u & Hu1 & <-)%Hrow. by apply Hheld.
  - intros sid s Hsid Ha. destruct (Hholds sid s Hsid Ha) as [? [u Hu1]]. split; [done|].
    specialize (Hu (ChargingSession.user_id s)). rewrite Hu1 in Hu.
    by destruct (users d' !! ChargingSession.user_id s).
  - intros i Hi. apply Hids. lia.
Qed.

(** A new wallet is empty. *)
Lemma db_ok_new_user d d' uid u :
  db_ok d → accounts_ok d → users d !! uid = None → users d' = <[uid := u]> (users d) →
  User.coin_balance u = 0 → ledger d' = ledger d → sessions d' = sessions d → plugs d' = plugs d →
  next_id d <= next_id d' → db_ok d'.
Proof.
  intros [[[Hsum Hrange Hlids] Hheld Hholds] Hact Hids Hfree Hone] Hacc Hnew Hu Hb Hl Hs Hp Hn.
  assert (Hbook : booked d uid = 0).
  { apply msum_zero. intros i l Hi. unfold ledger_of. destruct (Z.eqb_spec (LedgerTransaction.user_id l) uid); [|done].
    destruct (acc_ledger d Hacc i l Hi). congruence. }
  assert (Hhold : held d uid = 0).
  { apply msum_zero. intros i s Hi. unfold hold_of. destruct (Z.eqb_spec (ChargingSession.user_id s) uid); [|done].
    destruct (is_active s) eqn:Ha; [|done]. destruct (Hholds i s Hi Ha) as [_ []]. congruence. }
  split; [split; [split|..]|..]; unfold held, booked in *; rewrite ?Hl, ?Hs, ?Hp, ?Hu; try done.
  - intros i v. destruct (decide (uid = i)) as [<-|Hi];
      [rewrite lookup_insert_eq; intros [= <-]; by rewrite Hb, Hbook | rewrite lookup_insert_ne by done; apply Hsum].
  - intros i v. destruct (decide (uid = i)) as [<-|Hi];
      [rewrite lookup_insert_eq; intros [= <-]; rewrite Hb; by split | rewrite lookup_insert_ne by done; apply Hrange].
  - intros i Hi. apply Hlids. lia.
  - intros i v. destruct (decide (uid = i)) as [<-|Hi];
      [rewrite lookup_insert_eq; intros [= <-]; by rewrite Hb, Hhold | rewrite lookup_insert_ne by done; apply Hheld].
  - intros sid s Hsid Ha. destruct (Hholds sid s Hsid Ha). split; [done|]. by apply lookup_insert_is_Some'; right.
  - intros i Hi. apply Hids. lia.
Qed.

(** *** The effects of the routes *)

Lemma clashes_sym u v : clashes_with u v = clashes_with v u.
Proof.
  unfold clashes_with, same_sub. f_equal; [apply String.eqb_sym|].
  destruct (User.google_sub u), (User.google_sub v); [apply String.eqb_sym | done..].
Qed.

Lemma good_alter d0 d uid g :
  good d0 d →
  (∀ u, users d !! uid = Some u →
     User.coin_balance (g u) = User.coin_balance u ∧ User.token_version u <= User.token_version (g u) ∧
     lower (User.email (g u)) = User.email (g u) ∧
     ∀ j v, j ≠ uid → users d !! j = Some v → clashes_with (g u) v = false) →
  good d0 (d <| users ::= alter g uid |>).
Proof.
  intros [Hacc Hok Hg] H.
  assert (Hrow : ∀ i x, alter g uid (users d) !! i = Some x →
    ∃ u, users d !! i = Some u ∧ x = (if decide (uid = i) then g u else u)).
  { intros i x. destruct (decide (uid = i)) as [<-|Hi].
    - rewrite lookup_alter_eq. destruct (users d !! uid) as [u|]; [|done]. intros [= <-]. by exists u.
    - rewrite lookup_alter_ne by done. intros Hx. by exists x. }
  assert (Hnone : ∀ i, users d !! i = None → alter g uid (users d) !! i = None).
  { intros i Hi. destruct (alter g uid (users d) !! i) as [x|] eqn:Hx; [|done].
    apply Hrow in Hx as (u & ? & _). congruence. }
  split.
  - destruct Hacc as [Hlow Hclash Hids Hpos Hnext Htok Hhash Hled]. split; simpl; try done.
    + intros i x (u & Hu & ->)%Hrow. case_decide as Hi; [subst; by apply H | by eapply Hlow].
    + intros i j x y (u & Hu & ->)%Hrow (v & Hv & ->)%Hrow.
      destruct (decide (i = j)) as [|Hij]; [done|]. case_decide as Hi; case_decide as Hj; subst; [done|..].
      * destruct (H u Hu) as (_ & _ & _ & Hno). by rewrite (Hno j v).
      * rewrite clashes_sym. destruct (H v Hv) as (_ & _ & _ & Hno). by rewrite (Hno i u).
      * by apply Hclash.
    + intros i Hi. by apply Hnone, Hids.
    + intros i x (u & Hu & _)%Hrow. by eapply Hpos.
    + intros i l Hl. destruct (Hled i l Hl) as [u Hu]. by apply lookup_alter_is_Some.
  - apply (db_ok_wallets d); try done. intros i. simpl.
    destruct (decide (uid = i)) as [<-|Hi]; [|by rewrite lookup_alter_ne].
    rewrite lookup_alter_eq. destruct (users d !! uid) as [u|] eqn:Hu; [|done]. simpl. f_equal. by apply H.
  - eapply grown_trans; [exact Hg|]. intros i u Hu. simpl. destruct (decide (uid = i)) as [<-|Hi].
    + rewrite lookup_alter_eq, Hu. eexists. split; [done|]. by apply H.
    + rewrite lookup_alter_ne by done. by exists u.
Qed.

(** An update that leaves the unique columns alone. *)
Lemma good_alter_plain d0 d uid g :
  (∀ u, User.coin_balance (g u) = User.coin_balance u ∧ User.email (g u) = User.email u ∧
        User.google_sub (g u) = User.google_sub u ∧ User.token_version u <= User.token_version (g u)) →
  good d0 d → good d0 (d <| users ::= alter g uid |>).
Proof.
  intros Hg Hgood. apply good_alter; [done|]. intros u Hu. destruct (Hg u) as (Hc & He & Hs & Hv).
  destruct (good_accounts _ _ Hgood) as [Hlow Hclash]. repeat split; [done..| |].
  - rewrite He. by eapply Hlow.
  - intros j v Hj Hv'. apply not_true_iff_false. intros Hb. apply Hj. symmetry.
    apply (Hclash uid j u v); [done..|]. unfold clashes_with in *. by rewrite He, Hs in Hb.
Qed.

Lemma good_same_users d0 d d' :
  good d0 d → users d' = users d → ledger d' = ledger d → sessions d' = sessions d → plugs d' = plugs d →
  next_id d <= next_id d' →
  (∀ k i t, tokens k d' !! i = Some t → ∃ t', tokens k d !! i = Some t' ∧
     PasswordResetToken.token_hash t' = PasswordResetToken.token_hash t) →
  good d0 d'.
Proof.
  intros [[Hlow Hclash Hids Hpos Hnext Htok Hhash Hled] Hok Hg] Hu Hl Hs Hp Hn Ht.
  split; [split|..]; rewrite ?Hu, ?Hl; try done.
  - intros i Hi. apply Hids. lia.
  - lia.
  - intros k i Hi. destruct (tokens k d' !! i) as [t|] eqn:Hti; [|done].
    apply Ht in Hti as (t' & Ht' & _). rewrite (Htok k i) in Ht' by lia. done.
  - intros k i j t t' (x & Hx & <-)%Ht (y & Hy & <-)%Ht. by eapply Hhash.
  - apply (db_ok_wallets d); try done. intros i. by rewrite Hu.
  - intros i u Hiu. destruct (Hg i u Hiu) as (v & ? & ?). exists v. by rewrite Hu.
Qed.

Lemma tokens_on k k' f d :
  tokens k (on_tokens k' f d) = if decide (k = k') then f (tokens k d) else tokens k d.
Proof. by destruct k, k'. Qed.

Section Preserved.
Context (d0 : db).
Implicit Types (w : world).

Lemma goods_modify f : (∀ d, good d0 d → good d0 (f d)) → preserves (goods d0) (modify f).
Proof. intros Hf w [Hc Hm]. split; [by apply Hf | done]. Qed.

Lemma goods_effect (m : M unit) : (∀ w, cur (m w).2 = cur w ∧ com (m w).2 = com w) → preserves (goods d0) m.
Proof. intros H w [Hc Hm]. destruct (H w) as [H1 H2]. split; by rewrite ?H1, ?H2. Qed.

Lemma goods_commit : preserves (goods d0) commit.
Proof. by intros w [Hc Hm]. Qed.
Lemma goods_rollback : preserves (goods d0) rollback.
Proof. by intros w [Hc Hm]. Qed.
Lemma goods_read_mem {A} (f : memory → A) : preserves (goods d0) (read_mem f).
Proof. by intros w. Qed.
Lemma goods_set_user uid g :
  (∀ u, User.coin_balance (g u) = User.coin_balance u ∧ User.email (g u) = User.email u ∧
        User.google_sub (g u) = User.google_sub u ∧ User.token_version u <= User.token_version (g u)) →
  preserves (goods d0) (set_user uid g).
Proof. intros Hg. apply goods_modify. intros d Hd. by apply good_alter_plain. Qed.

End Preserved.

Ltac goods_step :=
  lazymatch goal with
  | |- preserves _ commit => apply goods_commit
  | |- preserves _ rollback => apply goods_rollback
  | |- preserves _ (read_mem _) => apply goods_read_mem
  | |- preserves _ (emit _) => apply goods_effect; by intros
  | |- preserves _ (with_mem _) => apply goods_effect; by intros
  | |- preserves _ (with_store _) => apply goods_effect; by intros
  | |- _ => preserve_step
  end.

Lemma goods_insert_token d0 k t : preserves (goods d0) (insert_token k t).
Proof.
  intros w [Hc Hm]. change (wp (insert_token k t) (λ _ w', goods d0 w') w). unfold insert_token.
  do 3 wp_step; [by repeat wp_step|]. repeat wp_step. split; [|done]. simpl.
  rewrite exists_row_false in Heqb. set (d := cur w) in *.
  pose proof Hc as [[Hlow Hclash Hids Hpos Hnext Htok Hhash Hled] Hok Hg].
  set (d1 := d <| next_id ::= Z.succ |>). set (d2 := on_tokens k <[next_id d := t]> d1).
  assert (Hd2 : users d2 = users d ∧ ledger d2 = ledger d ∧ sessions d2 = sessions d ∧ plugs d2 = plugs d ∧
    next_id d2 = Z.succ (next_id d)) by (by destruct k). destruct Hd2 as (Hu & Hl & Hs & Hp & Hn).
  assert (Hk : ∀ k', tokens k' d2 = if decide (k' = k) then <[next_id d := t]> (tokens k d) else tokens k' d).
  { intros k'. unfold d2. rewrite tokens_on. case_decide as Hkk; [subst k'; by destruct k | by destruct k']. }
  split; [split|..]; rewrite ?Hu, ?Hl; try done.
  - intros i Hi. apply Hids. lia.
  - lia.
  - intros k' i Hi. rewrite Hk. case_decide; [rewrite lookup_insert_ne by lia|]; apply Htok; lia.
  - intros k' i j x y. rewrite Hk. case_decide as Hkk; [subst k'|apply Hhash].
    destruct (decide (next_id d = i)) as [<-|Hi], (decide (next_id d = j)) as [<-|Hj];
      rewrite ?lookup_insert_eq, ?lookup_insert_ne by done; intros Hx Hy Hxy; simplify_eq; [done|..].
    + apply Heqb in Hy. by rewrite Hxy, String.eqb_refl in Hy.
    + apply Heqb in Hx. by rewrite Hxy, String.eqb_refl in Hx.
    + by apply (Hhash k i j x y).
  - apply (db_ok_wallets d); [done| |done..|lia]. intros i. by rewrite Hu.
  - intros i u Hi. destruct (Hg i u Hi) as (v & ? & ?). exists v. by rewrite Hu.
Qed.

Lemma goods_on_tokens d0 k f :
  (∀ m i t, f m !! i = Some t → ∃ t', m !! i = Some t' ∧
     PasswordResetToken.token_hash t' = PasswordResetToken.token_hash t) →
  preserves (goods d0) (modify (on_tokens k f)).
Proof.
  intros Hf. apply goods_modify. intros d Hd. apply (good_same_users d0 d); [exact Hd | by destruct k .. |].
  intros k' i t. rewrite tokens_on. case_decide; [subst; apply Hf | intros Ht; by exists t].
Qed.

Lemma goods_issue_token d0 k uid token ttl now : preserves (goods d0) (issue_token k uid token ttl now).
Proof.
  unfold issue_token. repeat goods_step.
  - apply goods_on_tokens. intros m i t. unfold void_tokens. rewrite lookup_update_where.
    destruct (m !! i) as [t'|]; [|done]. intros [= <-]. exists t'. split; [done|]. by case_match.
  - apply goods_insert_token.
Qed.

Lemma goods_consume_token d0 k i now : preserves (goods d0) (consume_token k i now).
Proof.
  unfold consume_token. repeat goods_step. apply goods_on_tokens. intros m j t.
  destruct (decide (i = j)) as [<-|Hj]; [rewrite lookup_alter_eq | rewrite lookup_alter_ne by done].
  - destruct (m !! i) as [t'|]; [|done]. intros [= <-]. by exists t'.
  - intros Ht. by exists t.
Qed.

Lemma goods_insert_user d0 u :
  User.coin_balance u = 0 → lower (User.email u) = User.email u → preserves (goods d0) (insert_user u).
Proof.
  intros Hb Hlu w [Hc Hm]. change (wp (insert_user u) (λ _ w', goods d0 w') w). unfold insert_user.
  do 3 wp_step; [by repeat wp_step|]. repeat wp_step. split; [|done]. simpl.
  rewrite exists_row_false in Heqb. set (d := cur w) in *.
  pose proof Hc as [[Hlow Hclash Hids Hpos Hnext Htok Hhash Hled] Hok Hg].
  assert (Hnew : users d !! next_id d = None) by (by apply Hids).
  split; [split|..]; simpl; try done.
  - intros i x. destruct (decide (next_id d = i)) as [<-|Hi];
      [rewrite lookup_insert_eq; by intros [= <-] | rewrite lookup_insert_ne by done; apply Hlow].
  - intros i j x y.
    destruct (decide (next_id d = i)) as [<-|Hi], (decide (next_id d = j)) as [<-|Hj];
      rewrite ?lookup_insert_eq, ?lookup_insert_ne by done; intros Hx Hy Hxy; simplify_eq; [done|..].
    + apply Heqb in Hy. congruence.
    + apply Heqb in Hx. rewrite clashes_sym in Hxy. congruence.
    + by apply (Hclash i j x y).
  - intros i Hi. rewrite lookup_insert_ne by lia. apply Hids. lia.
  - intros i x. destruct (decide (next_id d = i)) as [<-|Hi];
      [done | rewrite lookup_insert_ne by done; apply Hpos].
  - lia.
  - intros k i Hi. apply (Htok k i). lia.
  - intros i l Hl. apply lookup_insert_is_Some'. right. by eapply Hled.
  - by apply (db_ok_new_user d _ (next_id d) u); [..|simpl; lia].
  - intros i v Hv. destruct (Hg i v Hv) as (v' & Hv' & ?). exists v'. split; [|done]. simpl.
    rewrite lookup_insert_ne; [done|]. congruence.
Qed.

Ltac goods_routes :=
  repeat first
    [ goods_step | apply goods_issue_token | apply goods_consume_token
    | apply goods_set_user; intros; simpl; repeat split; lia ].

Lemma goods_hash d0 password salt : preserves (goods d0) (hash_password password salt).
Proof. unfold hash_password. goods_routes. Qed.

Lemma goods_speed_up d0 uid : preserves (goods d0) (check_and_speed_up_active_session uid).
Proof.
  unfold check_and_speed_up_active_session, set_plug_telemetry_interval, send_plug_interval, publish.
  goods_routes.
Qed.

Lemma goods_on_conflict {A} d0 (m h : M A) :
  preserves (goods d0) m → preserves (goods d0) h → preserves (goods d0) (on_conflict m h).
Proof. intros Hm Hh. unfold on_conflict. apply preserves_catch; [done|]. intros []; try apply preserves_raise; done. Qed.

Lemma goods_register_store d0 email password full_name salt token now :
  lower email = email → preserves (goods d0) (register_store email password full_name salt token now).
Proof.
  intros He. unfold register_store, issue_email_verification.
  repeat first [apply goods_hash | apply goods_on_conflict | progress goods_routes | by apply goods_insert_user].
Qed.

Lemma goods_register d0 email password full_name salt token now :
  preserves (goods d0) (register email password full_name salt token now).
Proof.
  unfold register. goods_routes. apply goods_register_store. unfold normalize_email. apply lower_idemp.
Qed.

Lemma goods_current_user d0 token now : preserves (goods d0) (get_current_user token now).
Proof. unfold get_current_user. goods_routes. Qed.

Lemma goods_verify_consume d0 i uid now : preserves (goods d0) (verify_email_consume i uid now).
Proof. unfold verify_email_consume, create_access_token. goods_routes. Qed.

Lemma goods_reset_consume d0 i uid password salt now :
  preserves (goods d0) (reset_password_consume i uid password salt now).
Proof. unfold reset_password_consume. repeat first [apply goods_hash | progress goods_routes]. Qed.

Lemma goods_find_token d0 k token now : preserves (goods d0) (find_token k token now).
Proof. unfold find_token. goods_routes. Qed.

Lemma goods_429 d0 v : preserves (goods d0) (allowed_or_429 v).
Proof. unfold allowed_or_429. goods_routes. Qed.

Lemma goods_login_failed {A} d0 key mono : preserves (goods d0) (login_failed (A:=A) key mono).
Proof. unfold login_failed. repeat first [apply goods_429 | progress goods_routes]. Qed.

Lemma goods_update_linked d0 uid google_sub h user w :
  goods d0 w → users (cur w) !! uid = Some user →
  goods d0 (update_linked uid google_sub (link_google google_sub h (User.token_version user)) w).2.
Proof.
  intros [Hc Hm] Huser.
  change (wp (update_linked uid google_sub (link_google google_sub h (User.token_version user))) (λ _ w', goods d0 w') w).
  unfold update_linked. do 3 wp_step; [by repeat wp_step|]. unfold set_user. wp_step. split; [|done]. simpl.
  rewrite exists_row_false in Heqb. apply good_alter; [done|]. intros u Hu.
  destruct (good_accounts _ _ Hc) as [Hlow Hclash]. unfold link_google. simpl.
  split; [done|]. split; [assert (u = user) by congruence; subst; lia|]. split; [by eapply Hlow|].
  intros j v Hj Hv. unfold clashes_with. simpl. apply orb_false_iff. split.
  - apply not_true_iff_false. intros Hb. apply Hj. symmetry. apply (Hclash uid j u v); [done..|].
    unfold clashes_with. by rewrite Hb.
  - specialize (Heqb j v Hv). apply Z.eqb_neq in Hj. rewrite Hj in Heqb. simpl in Heqb.
    unfold same_sub in *. destruct (User.google_sub v); [|done]. by rewrite String.eqb_sym.
Qed.

Lemma goods_link_store d0 uid user google_sub random_password salt w :
  goods d0 w → users (cur w) !! uid = Some user →
  goods d0 (link_store uid user google_sub random_password salt w).2.
Proof.
  intros Hw Hu. change (wp (link_store uid user google_sub random_password salt) (λ _, goods d0) w).
  unfold link_store, hash_password. wp_step. destruct (bcrypt_hashpw _ _) as [h|]; [|by wp_step].
  wp_step. unfold on_conflict. apply wp_catch. apply wp_bind.
  pose proof (goods_update_linked d0 uid google_sub h user w Hw Hu) as H. unfold wp at 1.
  destruct (update_linked _ _ _ w) as [[[]|e] w']; simpl in H |- *.
  - repeat wp_step. by destruct H.
  - destruct e; repeat wp_step; destruct H; done.
Qed.

Lemma goods_google_account d0 email google_sub name random_password salt :
  lower email = email → preserves (goods d0) (google_account email google_sub name random_password salt).
Proof.
  intros He w Hw. change (wp (google_account email google_sub name random_password salt) (λ _, goods d0) w).
  unfold google_account. do 4 wp_step; [| |done].
  - apply (wp_preserves (goods d0)); [|done|done].
    repeat first [apply goods_hash | apply goods_on_conflict | progress goods_routes | by apply goods_insert_user].
  - destruct x as [uid user]. destruct (User.google_sub user); [by wp_step|]. apply goods_link_store; [done|].
    match goal with H : users_by_email _ _ = _ |- _ => by apply select_one in H as [? _] end.
Qed.

Lemma goods_google_callback d0 configured a b c exchange verify random_password salt nonce new_code now mono :
  preserves (goods d0)
    (google_callback configured a b c exchange verify random_password salt nonce new_code now mono).
Proof.
  unfold google_callback, store_exchange_code.
  repeat first [apply goods_google_account; apply lower_idemp | apply goods_speed_up | progress goods_routes].
Qed.

(** *** Closing an account *)

Definition idle uid d : Prop :=
  ∀ sid s, sessions d !! sid = Some s → is_active s = true → ChargingSession.user_id s ≠ uid.

Lemma held_idle uid d : idle uid d → held d uid = 0.
Proof.
  intros Hidle. apply msum_zero. intros sid s Hs. unfold hold_of.
  destruct (Z.eqb_spec (ChargingSession.user_id s) uid) as [Hu|], (is_active s) eqn:Ha; try done.
  by destruct (Hidle sid s Hs Ha).
Qed.

(** The credit of a driver with nothing running, moved out whole. *)
Lemma db_ok_empty_wallet d d' uid u l :
  db_ok d → idle uid d → users d !! uid = Some u → moved d d' uid 0 l →
  LedgerTransaction.user_id l = uid → LedgerTransaction.amount l = - User.coin_balance u →
  sessions d' = sessions d → plugs d' = plugs d → db_ok d'.
Proof.
  intros [[Hw Hheld Hholds] Hact Hids Hfree Hone] Hidle Hu Hm Hlu Hla Hs Hp.
  pose proof Hm as (Hu' & i & Hi & _).
  split; [split|..]; unfold held; rewrite ?Hs, ?Hp, ?Hu'; try done.
  - eapply moved_ledger_ok; [done|done|done|done| |]; [lia | by split].
  - intros v x. destruct (decide (uid = v)) as [<-|Hv].
    + rewrite lookup_alter_eq, Hu. intros [= <-]. simpl. fold (held d uid). by rewrite held_idle.
    + rewrite lookup_alter_ne by done. apply Hheld.
  - intros sid s Hsid Ha. destruct (Hholds sid s Hsid Ha). split; [done|]. by apply lookup_alter_is_Some.
  - intros j Hj. apply Hids. lia.
Qed.

(** What a forfeit leaves. *)
Definition forfeited uid b d : db :=
  if 0 <? b then
    d <| ledger ::= <[next_id d := LedgerTransaction.mk uid None (- b) ACCOUNT_CLOSURE None 0]> |>
      <| next_id ::= Z.succ |> <| users ::= alter (λ u, u <| User.coin_balance := 0 |>) uid |>
  else d.

Lemma wp_forfeit uid u (Q : result money → world → Prop) w :
  ledger_ok (cur w) → users (cur w) !! uid = Some u →
  Q (Ok (User.coin_balance u)) (w <| cur ::= forfeited uid (User.coin_balance u) |>) →
  wp (forfeit uid) Q w.
Proof.
  intros Hl Hu HQ. pose proof (ledger_range _ Hl uid u Hu) as Hr. unfold forfeit, ZERO_MONEY.
  do 2 wp_step. rewrite Hu. do 2 wp_step; [|done]. simplify_eq/=.
  assert (Ha : to_money_amount (User.coin_balance u) = User.coin_balance u)
    by (apply to_money_amount_ok; unfold money_ok; lia).
  rewrite Ha. unfold forfeited in HQ. do 2 wp_step.
  - wp_step. apply wp_add_ledger; [done|]. unfold set_user. do 2 wp_step.
    rewrite H in HQ. exact HQ.
  - wp_step. rewrite H in HQ. by destruct w.
Qed.

Lemma good_forfeited d0 d uid u :
  good d0 d → idle uid d → users d !! uid = Some u → good d0 (forfeited uid (User.coin_balance u) d).
Proof.
  intros Hgood Hidle Hu. unfold forfeited. destruct (Z.ltb_spec 0 (User.coin_balance u)) as [Hb|]; [|done].
  pose proof Hgood as [Hacc Hok Hg].
  assert (Hrow : ∀ i x, alter (λ u, u <| User.coin_balance := 0 |>) uid (users d) !! i = Some x →
    ∃ y, users d !! i = Some y ∧ x = (if decide (uid = i) then y <| User.coin_balance := 0 |> else y)).
  { intros i x. destruct (decide (uid = i)) as [<-|Hi].
    - rewrite lookup_alter_eq, Hu. intros [= <-]. by exists u.
    - rewrite lookup_alter_ne by done. intros Hx. by exists x. }
  split.
  - destruct Hacc as [Hlow Hclash Hids Hpos Hnext Htok Hhash Hled]. split; simpl; try done.
    + intros i x (y & Hy & ->)%Hrow. case_decide; by eapply (Hlow i y).
    + intros i j x y (x' & Hx & ->)%Hrow (y' & Hy & ->)%Hrow Hxy.
      apply (Hclash i j x' y'); [done..|]. by repeat case_decide.
    + intros i Hi. destruct (decide (uid = i)) as [<-|Hne].
      * rewrite (Hids uid) in Hu by lia. done.
      * rewrite lookup_alter_ne by done. apply Hids. lia.
    + intros i x (y & Hy & _)%Hrow. by eapply Hpos.
    + lia.
    + intros k i Hi. apply (Htok k). lia.
    + intros i l. destruct (decide (next_id d = i)) as [<-|Hne].
      * rewrite lookup_insert_eq. intros [= <-]. simpl. by apply lookup_alter_is_Some.
      * rewrite lookup_insert_ne by done. intros Hl. apply lookup_alter_is_Some. by eapply Hled.
  - apply (db_ok_empty_wallet d _ uid u (LedgerTransaction.mk uid None (- User.coin_balance u) ACCOUNT_CLOSURE None 0));
      try done. split; [done|]. exists (next_id d). split; [simpl; lia | done].
  - intros i x Hx. destruct (Hg i x Hx) as (y & Hy & Hle). simpl.
    destruct (decide (uid = i)) as [<-|Hne].
    + rewrite lookup_alter_eq, Hy. by eexists.
    + rewrite lookup_alter_ne by done. by exists y.
Qed.

Lemma tombstone_clash uid h now u v :
  clashes_with (tombstone uid h now u) v = String.eqb (User.email v) (tombstone_email uid).
Proof. unfold clashes_with, tombstone, bump_version. simpl. by rewrite orb_false_r, String.eqb_sym. Qed.

(** The rows a closure writes, after the forfeit. *)
Definition closed uid h now d : db :=
  purge uid (cancel_scheduled uid d) <| users ::= alter (tombstone uid h now) uid |>.

Lemma good_closed d0 d uid h now :
  good d0 d → (∀ i v, i ≠ uid → users d !! i = Some v → User.email v ≠ tombstone_email uid) →
  good d0 (closed uid h now d).
Proof.
  intros Hgood Hfree. unfold closed.
  apply (good_alter d0 (purge uid (cancel_scheduled uid d))).
  - apply (good_same_users d0 d); try done. intros k i t Ht. exists t. split; [|done].
    destruct k; simpl in *; apply lookup_delete_where in Ht; tauto.
  - intros u Hu. unfold tombstone, bump_version. simpl. split; [done|]. split; [lia|].
    split; [apply lower_tombstone|]. intros j v Hj Hv.
    change (clashes_with (tombstone uid h now u) v = false). rewrite tombstone_clash.
    apply String.eqb_neq. by apply (Hfree j v).
Qed.

Lemma wp_assert_closable uid user (Q : result unit → world → Prop) w :
  (idle uid (cur w) → Q (Ok tt) w) → (∀ e, Q (Raise e) w) → wp (assert_closable uid user) Q w.
Proof.
  intros HO HE. unfold assert_closable, refuse_closure. do 2 wp_step.
  destruct (exists_row _ (sessions (cur w))) eqn:Hrun; [do 2 wp_step; apply HE|].
  assert (Hidle : idle uid (cur w)).
  { intros sid s Hs Ha Hu. rewrite exists_row_false in Hrun. specialize (Hrun sid s Hs).
    by rewrite Hu, Z.eqb_refl, Ha in Hrun. }
  repeat wp_step; first [by apply HO | apply HE].
Qed.

(** The committed rows of a closure. *)
Definition closed_world uid b h now w : world :=
  let d := closed uid h now (forfeited uid b (cur w)) in
  w <| cur := d |> <| com := d |>.

Lemma users_forfeited uid b d i :
  i ≠ uid → users (forfeited uid b d) !! i = users d !! i.
Proof. intros Hi. unfold forfeited. case_match; [|done]. simpl. by rewrite lookup_alter_ne. Qed.

Lemma wp_close_locked uid u random_password salt now (Q : result money → world → Prop) w :
  ledger_ok (cur w) → users (cur w) !! uid = Some u →
  (∀ h, (∀ i v, i ≠ uid → users (cur w) !! i = Some v → User.email v ≠ tombstone_email uid) →
     Q (Ok (User.coin_balance u)) (closed_world uid (User.coin_balance u) h now w)) →
  (∀ e w', com w' = com w → Q (Raise e) w') →
  wp (close_locked uid random_password salt now) Q w.
Proof.
  intros Hl Hu HO HE. unfold close_locked. wp_step. apply (wp_forfeit uid u); [done..|].
  cbv beta iota. unfold anonymise, hash_password, set_user. do 6 wp_step.
  destruct (bcrypt_hashpw _ _) as [h|]; [|wp_step; by apply HE].
  repeat wp_step; [by apply HE|]. rewrite exists_row_false in Heqb. simpl in Heqb. apply (HO h).
  intros i v Hi Hv Hm. assert (Hv' : users (forfeited uid (User.coin_balance u) (cur w)) !! i = Some v)
    by (by rewrite users_forfeited).
  specialize (Heqb i v Hv'). rewrite Hm, String.eqb_refl in Heqb. apply Z.eqb_neq in Hi. by rewrite Hi in Heqb.
Qed.

(** Who may close an account: its holder, with the phrase and the password. *)
Definition may_close uid (u : User.t) (token confirm : string) (password : option string) now w : Prop :=
  (get_current_user token now w).1 = Ok (uid, u) ∧ users (cur w) !! uid = Some u ∧
  strip confirm = DELETE_ACCOUNT_CONFIRM_PHRASE ∧
  (User.auth_provider u = "google"%string ∨
   ∃ p, password = Some p ∧ verify_password p (User.hashed_password u) = true) ∧
  idle uid (cur w).

Lemma wp_current_user token now (Q : result (Z * User.t) → world → Prop) w :
  (∀ uid u, users (cur w) !! uid = Some u → (get_current_user token now w).1 = Ok (uid, u) → Q (Ok (uid, u)) w) →
  (∀ e, Q (Raise e) w) → wp (get_current_user token now) Q w.
Proof.
  intros HO HE. assert (wp (get_current_user token now)
    (λ out w', w' = w ∧ ∀ uid u, out = Ok (uid, u) → users (cur w) !! uid = Some u) w) as [Hw Hout].
  { unfold get_current_user. repeat wp_step; (split; [done|]); intros; by simplify_eq. }
  unfold wp. rewrite Hw. destruct (get_current_user token now w).1 as [[uid u]|e] eqn:Ho; [|done].
  by apply HO; [apply Hout|].
Qed.

Lemma wp_delete token confirm password random_password salt now (Q : result money → world → Prop) w :
  ledger_ok (cur w) →
  (∀ uid u h, may_close uid u token confirm password now w →
     (∀ i v, i ≠ uid → users (cur w) !! i = Some v → User.email v ≠ tombstone_email uid) →
     Q (Ok (User.coin_balance u)) (closed_world uid (User.coin_balance u) h now w)) →
  (∀ e w', com w' = com w → Q (Raise e) w') →
  wp (delete_my_account token confirm password random_password salt now) Q w.
Proof.
  intros Hl HO HE. unfold delete_my_account, close_account. wp_step.
  apply wp_current_user; [|intros; by apply HE]. intros uid u Hu Hme. cbv beta iota.
  do 2 wp_step; [by apply HE|]. do 2 wp_step; [by apply HE|]. do 2 wp_step.
  apply wp_assert_closable; [|intros []; wp_step; by apply HE]. intros Hidle.
  apply (wp_close_locked uid u); [done..| |intros [] w' Hw'; wp_step; by apply HE].
  intros h Hfree. apply (HO uid u h); [|done]. passed. split; [done|]. split; [done|].
  split; [by apply String.eqb_eq|]. split; [|done].
  apply andb_false_iff in H0 as [H0|H0]; apply negb_false_iff in H0; [left; by apply String.eqb_eq|].
  right. destruct password as [[]|]; simpl in H0; try done; eauto.
Qed.

Lemma good_closed_forfeited d0 d uid u h now :
  good d0 d → idle uid d → users d !! uid = Some u →
  (∀ i v, i ≠ uid → users d !! i = Some v → User.email v ≠ tombstone_email uid) →
  good d0 (closed uid h now (forfeited uid (User.coin_balance u) d)).
Proof.
  intros Hgood Hidle Hu Hfree. apply good_closed; [by apply good_forfeited|].
  intros i v Hi. rewrite users_forfeited by done. by apply Hfree.
Qed.

(** ** Requests *)

Inductive request :=
  | Register (email password full_name salt token : string) (now : Z)
  | VerifyEmail (token : string) (now : Z)
  | ResendVerification (email token : string) (now : Z) (mono : float)
  | Login (email password : string) (now : Z) (mono : float)
  | GetMe (token : string) (now : Z)
  | Logout (token : string) (now : Z)
  | ForgotPassword (email token : string) (now : Z) (mono : float)
  | ResetPassword (token password salt : string) (now : Z)
  | GoogleCallback (configured : bool) (cookie_state query_state code : option string)
      (exchange : option (option string)) (verify_oauth2_token : string → option google_claims)
      (random_password salt nonce new_code : string) (now : Z) (mono : float)
  | GoogleExchange (code : string) (nonce : option string) (mono : float)
  | DeleteAccount (token confirm : string) (password : option string)
      (random_password salt : string) (now : Z)
  (* the rest of a request whose first reads are older than other commits *)
  | RegisterStore (email password full_name salt token : string) (now : Z)
  | VerifyConsume (i uid now : Z)
  | ResetConsume (i uid : Z) (password salt : string) (now : Z).

(** The bearer token a reply hands out. *)
Definition serve (r : request) : M (option string) :=
  match r with
  | Register email password full_name salt token now =>
      register email password full_name salt token now;; mret None
  | VerifyEmail token now => '(_, t) ← verify_email token now; mret (Some t)
  | ResendVerification email token now mono => resend_verification email token now mono;; mret None
  | Login email password now mono => '(_, t) ← login email password now mono; mret (Some t)
  | GetMe token now => '(uid, _) ← get_current_user token now; get_me uid;; mret None
  | Logout token now => '(uid, _) ← get_current_user token now; logout uid;; mret None
  | ForgotPassword email token now mono => forgot_password email token now mono;; mret None
  | ResetPassword token password salt now => reset_password token password salt now;; mret None
  | GoogleCallback configured a b c exchange verify random_password salt nonce new_code now mono =>
      google_callback configured a b c exchange verify random_password salt nonce new_code now mono;; mret None
  | GoogleExchange code nonce mono => t ← google_exchange code nonce mono; mret (Some t)
  | DeleteAccount token confirm password random_password salt now =>
      delete_my_account token confirm password random_password salt now;; mret None
  | RegisterStore email password full_name salt token now =>
      register_store (normalize_email email) password full_name salt token now;; mret None
  | VerifyConsume i uid now => '(_, t) ← verify_email_consume i uid now; mret (Some t)
  | ResetConsume i uid password salt now => reset_password_consume i uid password salt now;; mret None
  end.

Definition served (r : request) (w : world) : world := (run_request (serve r) w).2.

Lemma goods_serve d0 r w : com w = cur w → good d0 (com w) → good d0 (com (served r w)).
Proof.
  intros Hcc Hgood.
  assert (Hw : goods d0 w) by (by split; [rewrite <- Hcc|]).
  assert (Hpres : preserves (goods d0) (serve r) → good d0 (com (served r w))).
  { intros Hp. specialize (Hp w Hw). unfold served, run_request. destruct (serve r w) as [out w']. apply Hp. }
  destruct r; try (apply Hpres; simpl; repeat first [apply goods_register | apply goods_find_token
    | apply goods_verify_consume | apply goods_reset_consume | apply goods_429 | apply goods_speed_up
    | apply goods_current_user | apply goods_login_failed | apply goods_google_callback
    | apply goods_register_store; apply lower_idemp | progress goods_routes
    | progress unfold verify_email, resend_verification, limit_resend, issue_email_verification, login,
        get_me, available_balance, logout, forgot_password, limit_forgot, reset_password, google_exchange,
        consume_exchange_code ]; fail).
  clear Hpres. unfold served.
  pose proof (run_request_wp (serve (DeleteAccount token confirm password random_password salt now))
    (λ _ w', good d0 (com w')) w) as H.
  destruct (run_request _ w) as [out w']. apply H. simpl. wp_step. rewrite Hcc in Hgood.
  apply wp_delete.
  - apply (good_money _ _ Hgood).
  - intros uid u h (_ & Hu & _ & _ & Hidle) Hfree. wp_step. by apply good_closed_forfeited.
  - intros e w2 Hw2. simpl. rewrite Hw2, Hcc. exact Hgood.
Qed.

(** Nothing waits and nothing personal is left of [uid]. *)
Record nothing_personal uid d : Prop := {
  np_booked : ∀ i r, reservations d !! i = Some r → Reservation.user_id r = uid → Reservation.status r ≠ BOOKED;
  np_queued : ∀ i q, queued d !! i = Some q → QueuedCharge.user_id q = uid → QueuedCharge.status q ≠ Q_WAITING;
  np_push : ∀ i x, push_subscriptions d !! i = Some x → PushSubscription.user_id x ≠ uid;
  np_notifications : ∀ i x, notifications d !! i = Some x → Notification.user_id x ≠ uid;
  np_favorites : ∀ i x, favorites d !! i = Some x → UserFavorite.user_id x ≠ uid;
  np_watches : ∀ i x, watches d !! i = Some x → PlugWatch.user_id x ≠ uid;
  np_memberships : ∀ i x, memberships d !! i = Some x → GroupMembership.user_id x ≠ uid;
  np_capacity : ∀ i x, capacity_requests d !! i = Some x → CapacityRequest.user_id x ≠ uid;
  np_tokens : ∀ k i x, tokens k d !! i = Some x → PasswordResetToken.user_id x ≠ uid }.

Lemma deleted_where {A} (f : A → Z) uid (m : gmap Z A) i x :
  delete_where (λ _ x, f x =? uid) m !! i = Some x → f x ≠ uid.
Proof. intros [_ H]%lookup_delete_where. by apply Z.eqb_neq. Qed.

Lemma closed_nothing_personal uid h now d : nothing_personal uid (closed uid h now d).
Proof.
  split; simpl; try (intros i x; apply deleted_where).
  - intros i r. rewrite lookup_update_where. destruct (reservations d !! i) as [r'|]; [|done].
    intros [= <-]. case_match eqn:Hb; simpl; [done|]. intros Hu Hs.
    by rewrite Hu, Hs, Z.eqb_refl in Hb.
  - intros i q. rewrite lookup_update_where. destruct (queued d !! i) as [q'|]; [|done].
    intros [= <-]. case_match eqn:Hb; simpl; [done|]. intros Hu Hs.
    by rewrite Hu, Hs, Z.eqb_refl in Hb.
  - intros [] i x; apply deleted_where.
Qed.

(** The rows of the others. *)
Definition of_others {A} (f : A → Z) uid (m m' : gmap Z A) : Prop :=
  ∀ i x, f x ≠ uid → m !! i = Some x → m' !! i = Some x.

Record others_kept uid d d' : Prop := {
  ok_booked : of_others Reservation.user_id uid (reservations d) (reservations d');
  ok_queued : of_others QueuedCharge.user_id uid (queued d) (queued d');
  ok_push : of_others PushSubscription.user_id uid (push_subscriptions d) (push_subscriptions d');
  ok_notifications : of_others Notification.user_id uid (notifications d) (notifications d');
  ok_favorites : of_others UserFavorite.user_id uid (favorites d) (favorites d');
  ok_watches : of_others PlugWatch.user_id uid (watches d) (watches d');
  ok_memberships : of_others GroupMembership.user_id uid (memberships d) (memberships d');
  ok_capacity : of_others CapacityRequest.user_id uid (capacity_requests d) (capacity_requests d');
  ok_tokens : ∀ k, of_others PasswordResetToken.user_id uid (tokens k d) (tokens k d') }.

Lemma others_delete {A} (f : A → Z) uid (m : gmap Z A) :
  of_others f uid m (delete_where (λ _ x, f x =? uid) m).
Proof. intros i x Hx Hi. apply lookup_delete_where. split; [done|]. by apply Z.eqb_neq. Qed.

Lemma others_update {A} (f : A → Z) uid (p : A → bool) g (m : gmap Z A) :
  of_others f uid m (update_where (λ x, (f x =? uid) && p x) g m).
Proof. intros i x Hx Hi. rewrite lookup_update_where, Hi. simpl. by rewrite (proj2 (Z.eqb_neq _ _)). Qed.

Lemma closed_others_kept uid h now d : others_kept uid d (closed uid h now d).
Proof.
  split; simpl; first [apply others_delete | apply others_update | intros []; apply others_delete].
Qed.

Lemma others_forfeited uid b d d' :
  others_kept uid (forfeited uid b d) d' → others_kept uid d d'.
Proof.
  unfold forfeited. case_match; [|done]. intros []. by split.
Qed.

(** The records the operator keeps. *)
Definition financial d :=
  (sessions d, invoices d, disputes d, payouts d, topups d, tenants d, gateways d, plugs d).

(** C11: closing an account takes its holder's token, phrase and password and no
    running session; it leaves a tombstone with an empty wallet, the forfeited
    credit in the ledger, no personal row and nothing waiting, and touches no
    other account, no row of another user and no financial record; refused, it
    changes nothing.  A booking or a queued charge that waits is cancelled, its row
    stays. *)
Theorem close_account_correct token confirm password random_password salt now w :
  com w = cur w → accounts_ok (cur w) → db_ok (cur w) →
  let '(out, w') := run_request (delete_my_account token confirm password random_password salt now) w in
  match out with
  | Raise _ => com w' = com w
  | Ok forfeit => ∃ uid u h,
      may_close uid u token confirm password now w ∧ forfeit = User.coin_balance u ∧
      users (com w') !! uid = Some (tombstone uid h now u <| User.coin_balance := 0 |>) ∧
      (∀ v, v ≠ uid → users (com w') !! v = users (com w) !! v) ∧
      booked (com w') uid = 0 ∧ (∀ i l, ledger (com w) !! i = Some l → ledger (com w') !! i = Some l) ∧
      nothing_personal uid (com w') ∧ others_kept uid (com w) (com w') ∧ financial (com w') = financial (com w) ∧
      accounts_ok (com w') ∧ db_ok (com w')
  end.
Proof.
  intros Hcc Hacc Hok. apply run_request_wp, wp_delete.
  - apply Hok.
  - intros uid u h Hmay Hfree. pose proof Hmay as (_ & Hu & _ & _ & Hidle). simpl.
    pose proof (good_closed_forfeited (cur w) (cur w) uid u h now
      ltac:(split; [done..|apply grown_refl]) Hidle Hu Hfree) as [Hacc' Hok' _].
    pose proof (ledger_range _ (wallet_ledger _ (ok_wallet _ Hok)) uid u Hu) as Hr.
    set (b := User.coin_balance u) in *. set (d' := closed uid h now (forfeited uid b (cur w))) in *.
    assert (Hrow : users d' !! uid = Some (tombstone uid h now u <| User.coin_balance := 0 |>)).
    { unfold d', closed, forfeited. destruct (Z.ltb_spec 0 b) as [Hb|Hb]; simpl;
        rewrite !lookup_alter_eq, Hu; simpl; [done|]. repeat f_equal. destruct u. simpl in *. unfold b in *.
      unfold tombstone, bump_version. simpl in *. f_equal. lia. }
    exists uid, u, h. split; [done|]. split; [done|]. split; [done|]. split.
    { intros v Hv. unfold d', closed. simpl. rewrite lookup_alter_ne by done. rewrite Hcc.
      by apply users_forfeited. }
    split. { by rewrite <- (ledger_sum _ (wallet_ledger _ (ok_wallet _ Hok')) uid _ Hrow). }
    split.
    { intros i l Hl. rewrite Hcc in Hl. unfold d', closed, forfeited. simpl. case_match; [|done]. simpl.
      rewrite lookup_insert_ne; [done|]. intros <-.
      by rewrite (ledger_ids _ (wallet_ledger _ (ok_wallet _ Hok))) in Hl. }
    split; [apply closed_nothing_personal|]. split.
    { rewrite Hcc. apply (others_forfeited uid b), closed_others_kept. }
    split; [|done].
    rewrite Hcc. unfold d', closed, forfeited, financial. by case_match.
  - intros e w' Hw'. exact Hw'.
Qed.
End Safety.
