(* ===== verification/SignIn.v ===== *)
(** * Sign-in: tokens, passwords, emailed links

    What holds of the account routes whatever else runs between two requests
    ([account_step]): a revoked bearer token never works again, an emailed token
    works once, an answer does not tell whether an email has an account. *)

From stdpp Require Import pretty relations.
From S2P Require Import Prelude Rounding PyNum Money Models Config RateLimit TelemetryStore.
From S2P Require Import World Hoare PyString PyJson Auth Wallet Commands Lifecycle.
From S2P Require Import Accounts AccountClosure AccountSafety.

Section SignIn.
Context `{cfg : Config, cr : Crypto, laws : !CryptoLaws}.
Implicit Types (d : db) (uid now : Z) (k : purpose) (w : world).

(** Between requests nothing is uncommitted. *)
Record sound w : Prop := {
  sound_clean : com w = cur w;
  sound_accounts : accounts_ok (cur w);
  sound_money : db_ok (cur w) }.

(** A request, or whatever else respects the accounts. *)
Inductive account_step w w' : Prop :=
  | step_served r : w' = served r w → account_step w w'
  | step_other : com w' = cur w' → (∀ d0, good d0 (com w) → good d0 (com w')) → account_step w w'.

Lemma served_clean r w : com (served r w) = cur (served r w).
Proof. unfold served, run_request. by destruct (serve r w). Qed.

Lemma step_good w w' :
  sound w → account_step w w' → sound w' ∧ ∀ d0, good d0 (com w) → good d0 (com w').
Proof.
  intros [Hcc Hacc Hok] Hstep.
  assert (H : com w' = cur w' ∧ ∀ d0, good d0 (com w) → good d0 (com w')).
  { destruct Hstep as [r -> | ? ?]; [|done]. split; [apply served_clean|]. intros d0. by apply goods_serve. }
  destruct H as [Hcc' Hgood]. split; [|done].
  destruct (Hgood (com w)) as [Hacc' Hok' _]; [rewrite Hcc; split; [done..|apply grown_refl]|].
  by split; rewrite <- ?Hcc'.
Qed.

Lemma steps_good w w' :
  rtc account_step w w' → sound w → sound w' ∧ grown (cur w) (cur w').
Proof.
  intros Hrtc Hs. assert (H : sound w' ∧ ∀ d0, good d0 (com w) → good d0 (com w')).
  { revert Hs. induction Hrtc as [w|w w1 w2 Hstep Hrtc IH]; intros Hs; [done|].
    destruct (step_good w w1 Hs Hstep) as [Hs1 Hg1]. destruct (IH Hs1) as [Hs2 Hg2]. split; auto. }
  destruct H as [Hs' Hg]. split; [done|]. destruct Hs as [Hcc Hacc Hok].
  rewrite <- Hcc at 1. rewrite <- (sound_clean _ Hs'). apply Hg. rewrite Hcc. split; [done..|apply grown_refl].
Qed.

(** ** Revocation *)

(** A token some sign-in of the account handed out, at the epoch it had then. *)
Definition handed_out uid (tok : string) d : Prop :=
  is_Some (users d !! uid) ∧
  ∃ role email v t, tok = create_access_token uid role email v t ∧ v <= version uid d.

Definition refused (tok : string) now w : Prop :=
  ∃ detail, run_request (get_current_user tok now) w = (Raise (HTTPException 401 detail), w).

Lemma old_epoch_refused uid tok now w d :
  sound w → handed_out uid tok d → is_Some (users (cur w) !! uid) → version uid d < version uid (cur w) →
  refused tok now w.
Proof using laws.
  intros Hs (_ & role & email & v & t & -> & Hv) [u Hu] Hlt.
  assert (Hstay : w <| cur := com w |> = w) by (destruct w, Hs; simpl in *; by subst).
  unfold refused, get_current_user, create_access_token, decode_access_token.
  set (c := mkclaims _ _ _ _ _ _). unfold run_request. destruct (jwt_decode_encode now c) as [Hd|Hd]; rewrite Hd;
    unfold mbind, M_bind; simpl; [|eexists; by rewrite Hstay].
  rewrite int_of_str_pretty by (by eapply acc_pos; [apply Hs|]). unfold M_ret, mret, query. simpl. rewrite Hu.
  simpl. unfold version in *. rewrite Hu in Hlt. simpl in Hlt.
  rewrite (proj2 (Z.eqb_neq _ _)) by lia. simpl. eexists. by rewrite Hstay.
Qed.

(** The requests that end every session of [uid], when they succeed. *)
Definition ends_sessions uid (r : request) w : Prop :=
  match r with
  | Logout token now | DeleteAccount token _ _ _ _ now =>
      ∃ u, (get_current_user token now w).1 = Ok (uid, u)
  | ResetPassword token _ _ _ =>
      ∃ i t, tokens Reset (cur w) !! i = Some t ∧ PasswordResetToken.user_id t = uid ∧
             PasswordResetToken.token_hash t = sha256_hexdigest token
  | VerifyEmail token _ =>
      ∃ i t, tokens Verification (cur w) !! i = Some t ∧ PasswordResetToken.user_id t = uid ∧
             PasswordResetToken.token_hash t = sha256_hexdigest token
  | _ => False
  end.

Lemma version_bumped uid (f : User.t → User.t) d d' u :
  users d' = alter f uid (users d) → users d !! uid = Some u → User.token_version u < User.token_version (f u) →
  version uid d < version uid d'.
Proof. intros Hd Hu Hf. unfold version. by rewrite Hd, lookup_alter_eq, Hu. Qed.

Lemma wp_find_token k token now (Q : result (Z * PasswordResetToken.t) → world → Prop) w :
  (∀ i t, tokens k (cur w) !! i = Some t → PasswordResetToken.token_hash t = sha256_hexdigest token →
     unused t = true → now < PasswordResetToken.expires_at t → Q (Ok (i, t)) w) →
  (∀ e, Q (Raise e) w) → wp (find_token k token now) Q w.
Proof.
  intros HO HE. unfold find_token. repeat wp_step; try apply HE.
  apply select_one in H as [Ht Hh]. passed. apply HO; [done | by apply String.eqb_eq | done | done].
Qed.

(** The rest of a consumption, when the row is still unused. *)
Lemma wp_consume_token k i now (Q : result unit → world → Prop) w :
  (∀ t, tokens k (cur w) !! i = Some t → unused t = true →
     Q (Ok tt) (w <| cur ::= on_tokens k (alter (λ t, t <| PasswordResetToken.used_at := Some now |>) i) |>)) →
  (∀ e, Q (Raise e) w) → wp (consume_token k i now) Q w.
Proof.
  intros HO HE. unfold consume_token. do 4 wp_step; [apply HE|]. wp_step.
  destruct (tokens k (cur w) !! i) as [t|] eqn:Ht; passed; [by eapply HO | done].
Qed.

Lemma ends_bump uid r w :
  sound w → ends_sessions uid r w → is_Some (users (cur w) !! uid) →
  wp (serve r) (λ out w', is_ok out = true → version uid (cur w) < version uid (com w')) w.
Proof.
  intros [Hcc Hacc Hok] Hends [u Hu].
  assert (Htok : ∀ k i j t x token, tokens k (cur w) !! i = Some t →
    PasswordResetToken.token_hash t = sha256_hexdigest token → tokens k (cur w) !! j = Some x →
    PasswordResetToken.token_hash x = sha256_hexdigest token → i = j).
  { intros k i j t x token Hi Hti Hj Htj. apply (acc_hash _ Hacc k i j t x); [done..|congruence]. }
  destruct r; simpl in Hends; try done; simpl.
  - destruct Hends as (i & t & Hi & Ht & Hh). unfold verify_email. do 2 wp_step.
    apply wp_find_token; [|done]. intros j x Hj Hhx _ _. cbv beta iota.
    assert (j = i) as -> by (symmetry; by eapply (Htok Verification)).
    unfold verify_email_consume, set_user. wp_step. apply wp_consume_token; [|done]. intros y _ _. cbv beta iota.
    assert (x = t) as -> by (apply (inj Some); by rewrite <- Hj, <- Hi). rewrite Ht.
    repeat wp_step; intros Hout; try done. eapply version_bumped; [reflexivity | exact Hu | simpl; lia].
  - destruct Hends as [v Hv]. wp_step. apply wp_current_user; [|done]. intros uid' v' Hu' Hv'.
    cbv beta iota. assert (uid' = uid) as -> by congruence. unfold logout, set_user.
    repeat wp_step; intros Hout; try done. eapply version_bumped; [reflexivity | exact Hu | simpl; lia].
  - destruct Hends as (i & t & Hi & Ht & Hh). unfold reset_password. do 2 wp_step.
    apply wp_find_token; [|done]. intros j x Hj Hhx _ _. cbv beta iota.
    assert (j = i) as -> by (symmetry; by eapply (Htok Reset)).
    unfold reset_password_consume, set_user, hash_password. wp_step. apply wp_consume_token; [|done].
    intros y _ _. cbv beta iota. assert (x = t) as -> by (apply (inj Some); by rewrite <- Hj, <- Hi). rewrite Ht.
    repeat wp_step; intros Hout; try done. eapply version_bumped; [reflexivity | exact Hu | simpl; lia].
  - destruct Hends as [v Hv]. wp_step. apply wp_delete; [apply Hok | |done].
    intros uid' v' h (Hme & Hu' & _) _. wp_step. intros _. rewrite Hv in Hme. simplify_eq. simpl.
    unfold version, closed, forfeited. simpl. case_match; simpl; rewrite !lookup_alter_eq, Hu; simpl; lia.
Qed.

(** C20: a bearer token handed out before its account logged out, changed its
    password through a reset link, verified its email or was closed is refused
    for ever, whatever requests come in between and after, one at a time, and
    whatever else runs that leaves the accounts sound and takes no epoch back. *)
Theorem revocation_final uid tok now r w w1 w2 :
  sound w → handed_out uid tok (cur w) → rtc account_step w w1 →
  ends_sessions uid r w1 → is_ok (serve r w1).1 = true → rtc account_step (served r w1) w2 →
  refused tok now w2.
Proof using laws.
  intros Hs Hout H1 Hends Hok H2. destruct (steps_good w w1 H1 Hs) as [Hs1 Hg1].
  destruct (step_good w1 (served r w1) Hs1 (step_served _ _ r eq_refl)) as [Hsr _].
  destruct (steps_good _ _ H2 Hsr) as [Hs2 Hg2].
  pose proof Hout as [[u Hu] _]. destruct (Hg1 uid u Hu) as (u1 & Hu1 & _).
  pose proof (ends_bump uid r w1 Hs1 Hends (ex_intro _ u1 Hu1) Hok) as Hb.
  assert (Hcom : cur (served r w1) = com (serve r w1).2) by (unfold served, run_request; by destruct (serve r w1)).
  rewrite <- Hcom in Hb.
  assert (Hr : is_Some (users (cur (served r w1)) !! uid)).
  { destruct (users (cur (served r w1)) !! uid) as [x|] eqn:Hx; [by exists x|]. unfold version in Hb. rewrite Hu1, Hx in Hb. simpl in Hb.
    destruct (step_good w1 (served r w1) Hs1 (step_served _ _ r eq_refl)) as [_ Hgood].
    destruct (Hgood (com w1)) as [_ _ Hgr]; [rewrite (sound_clean _ Hs1); destruct Hs1; split; [done..|apply grown_refl]|].
    rewrite (sound_clean _ Hs1) in Hgr. destruct (Hgr uid u1 Hu1) as (y & Hy & _).
    rewrite served_clean in Hy. congruence. }
  destruct Hr as [ur Hur]. destruct (Hg2 uid ur Hur) as (u2 & Hu2 & _).
  apply (old_epoch_refused uid tok now w2 (cur w)); [exact Hs2 | exact Hout | by exists u2 |].
  pose proof (grown_version _ _ uid Hg1 (ex_intro _ u Hu)).
  pose proof (grown_version _ _ uid Hg2 (ex_intro _ ur Hur)). lia.
Qed.

(** ** Passwords *)

(** The account of an email: at most one. *)
Definition account_of (email : string) d : option (Z * User.t) := head (users_by_email email d).

Lemma wp_account email (Q : result (option (Z * User.t)) → world → Prop) w :
  accounts_ok (cur w) → Q (Ok (account_of email (cur w))) w →
  wp (one_or_none (users_by_email email (cur w))) Q w.
Proof.
  intros Hacc HQ. unfold account_of, users_by_email in *.
  edestruct (select_unique (λ _ u, String.eqb (lower (User.email u)) email) (users (cur w)))
    as [Hs|(i & u & Hs & _)]; [|by rewrite Hs in * ..].
  intros i j u v Hu Hv Hue%String.eqb_eq Hve%String.eqb_eq.
  rewrite (acc_lower _ Hacc i u Hu) in Hue. rewrite (acc_lower _ Hacc j v Hv) in Hve.
  apply (acc_clash _ Hacc i j u v); [done..|]. unfold clashes_with. by rewrite Hue, Hve, String.eqb_refl.
Qed.

Lemma account_of_some email d uid u :
  account_of email d = Some (uid, u) → users d !! uid = Some u ∧ lower (User.email u) = email.
Proof.
  unfold account_of, users_by_email. destruct (select _ _) as [|x l] eqn:Hs; [done|]. intros [= ->].
  assert (Hin : (uid, u) ∈ select (λ _ u, String.eqb (lower (User.email u)) email) (users d)) by (rewrite Hs; left).
  apply elem_of_select in Hin as [? ?%String.eqb_eq]. done.
Qed.

(** Handing out a token. *)
Definition issued uid (u : User.t) now : string :=
  create_access_token uid (User.role u) (User.email u) (User.token_version u) now.

Lemma issued_accepted uid u now later w :
  users (cur w) !! uid = Some u → 0 <= uid → User.is_disabled u = false →
  later + seconds 1 <= now + JWT_EXPIRY →
  (get_current_user (issued uid u now) later w).1 = Ok (uid, u).
Proof using laws.
  intros Hu Hpos Hdis Hl. unfold get_current_user, issued, create_access_token, decode_access_token.
  rewrite jwt_decode_fresh by (simpl; lia). unfold mbind, M_bind. simpl. rewrite int_of_str_pretty by done.
  unfold M_ret, mret, query. simpl. rewrite Hu. simpl. rewrite Z.eqb_refl, Hdis. done.
Qed.

Definition failure_reply (v : verdict) : exn :=
  match v with
  | Allowed => HTTPException 401 "Invalid email or password."
  | Blocked _ => HTTPException 429 "Too many attempts."
  | NoAttempts => IndexError
  end.

Lemma wp_login_failed {A} key mono (Q : result A → world → Prop) w :
  (let r := record_failure key mono (login_failures (mem w)) in
   Q (Raise (failure_reply r.1)) (w <| mem ::= (λ m, m <| login_failures := r.2 |>) |>)) →
  wp (login_failed key mono) Q w.
Proof.
  intros HQ. unfold login_failed, allowed_or_429. simpl in HQ. do 5 wp_step.
  destruct (record_failure _ _ _).1; repeat wp_step; exact HQ.
Qed.

Lemma wp_speed_up uid (Q : result unit → world → Prop) w :
  (∀ w', cur w' = cur w → com w' = com w → mem w' = mem w → Q (Ok tt) w') →
  wp (check_and_speed_up_active_session uid) Q w.
Proof.
  intros HQ. apply (wp_safe (λ w', cur w' = cur w ∧ com w' = com w ∧ mem w' = mem w)); [|done|].
  - unfold check_and_speed_up_active_session, set_plug_telemetry_interval, send_plug_interval, publish.
    repeat safe_step; apply safe_effect; by intros.
  - intros [] w' (? & ? & ?). by apply HQ.
Qed.

(** C22: the right password always reaches the account: it is never counted nor
    limited, clears the failures of the email, and unless the account is
    disabled or unverified yields a token that authenticates its holder until it
    expires; anything else gets the same answer whether or not the email has an
    account, and changes no row. *)
Theorem login_correct req_email password now mono w :
  sound w →
  let email := normalize_email req_email in
  let key := ("login:" +:+ email)%string in
  let failures := login_failures (mem w) in
  let '(out, w') := run_request (login req_email password now mono) w in
  com w' = com w ∧
  match account_of email (cur w) with
  | Some (uid, u) =>
      if verify_password password (User.hashed_password u) then
        login_failures (mem w') = reset key failures ∧
        out = (if User.is_disabled u then Raise (HTTPException 403 "account_disabled")
               else if User.email_verified u then Ok (uid, issued uid u now)
               else Raise (HTTPException 403 "Please verify your email address.")) ∧
        (is_ok out = true → ∀ later, later + seconds 1 <= now + JWT_EXPIRY →
           (get_current_user (issued uid u now) later w').1 = Ok (uid, u))
      else out = Raise (failure_reply (record_failure key mono failures).1) ∧
           login_failures (mem w') = (record_failure key mono failures).2
  | None => out = Raise (failure_reply (record_failure key mono failures).1) ∧
            login_failures (mem w') = (record_failure key mono failures).2
  end.
Proof using laws.
  intros [Hcc Hacc Hok]. cbv zeta. apply run_request_wp. unfold login. do 3 wp_step.
  apply wp_account; [done|]. cbv beta iota.
  destruct (account_of (normalize_email req_email) (cur w)) as [[uid u]|] eqn:Ha;
    [|by apply wp_login_failed].
  destruct (verify_password password (User.hashed_password u)); [|by apply wp_login_failed].
  apply account_of_some in Ha as [Hu _].
  do 4 wp_step; [split; [done|]; rewrite H; done|]. rewrite H.
  do 2 wp_step; passed; [split; [done|]; by rewrite H0|]. rewrite H0.
  wp_step. apply wp_speed_up. intros w' Hc Hm Hmem. cbv beta iota. wp_step. split; [exact Hm|].
  simpl. rewrite Hmem. split; [done|]. split; [done|]. intros _ later Hl. apply issued_accepted; [|by eapply acc_pos|done|done].
  simpl. by rewrite Hm, <- Hu, <- Hcc.
Qed.

Definition is_400 {A} (r : result A) : Prop := ∃ detail, r = Raise (HTTPException 400 detail).

(** A used row is found no more, and consumed no more. *)
Lemma spent_find k token now w i t :
  accounts_ok (cur w) → tokens k (cur w) !! i = Some t → unused t = false →
  PasswordResetToken.token_hash t = sha256_hexdigest token →
  wp (find_token k token now) (λ out w', is_400 out ∧ w' = w) w.
Proof.
  intros Hacc Ht Hun Hh. unfold find_token. do 3 wp_step.
  destruct (select_unique (λ _ t, String.eqb (PasswordResetToken.token_hash t) (sha256_hexdigest token))
    (tokens k (cur w))) as [Hs|(j & x & Hs & Hj & Hx%String.eqb_eq)].
  - intros i1 j1 x y Hx Hy Hhx%String.eqb_eq Hhy%String.eqb_eq.
    apply (acc_hash _ Hacc k i1 j1 x y); [done..|congruence].
  - rewrite Hs. unfold one_or_none. cbv beta iota. repeat wp_step. split; [by eexists | done].
  - rewrite Hs. unfold one_or_none. cbv beta iota. assert (j = i) as -> by (apply (acc_hash _ Hacc k j i x t); [done..|congruence]).
    assert (x = t) as -> by congruence. repeat wp_step; [|by rewrite Hun in H].
    split; [by eexists | done].
Qed.

Lemma spent_consume k i now w t :
  tokens k (cur w) !! i = Some t → unused t = false →
  wp (consume_token k i now) (λ out w', is_400 out ∧ w' = w) w.
Proof.
  intros Ht Hun. unfold consume_token. do 2 wp_step. rewrite Ht, Hun. do 2 wp_step; [|done].
  split; [by eexists | done].
Qed.

(** What a password reset changes. *)
Definition reset_rows i uid h now d : db :=
  on_tokens Reset (alter (λ t, t <| PasswordResetToken.used_at := Some now |>) i) d
    <| users ::= alter (λ u, bump_version (u <| User.hashed_password := h |>)) uid |>.

Definition reset_outcome (token password : string) now w (out : result unit) (w' : world) : Prop :=
  match out with
  | Ok _ => ∃ i t h, tokens Reset (cur w) !! i = Some t ∧
      PasswordResetToken.token_hash t = sha256_hexdigest token ∧ PasswordResetToken.used_at t = None ∧
      now < PasswordResetToken.expires_at t ∧ verify_password password h = true ∧
      com w' = reset_rows i (PasswordResetToken.user_id t) h now (com w)
  | Raise _ => com w' = com w
  end.

Lemma wp_reset_password token password salt now w :
  sound w → wp (reset_password token password salt now) (reset_outcome token password now w) w.
Proof using laws.
  intros [Hcc Hacc Hok]. unfold reset_password. wp_step. apply wp_find_token; [|done].
  intros i t Ht Hh Hun Hexp. cbv beta iota. unfold reset_password_consume, hash_password, set_user. wp_step.
  apply wp_consume_token; [|done]. intros x Hx _. cbv beta iota. wp_step.
  destruct (bcrypt_hashpw _ _) as [h|] eqn:Hhash; [|by wp_step].
  repeat wp_step. exists i, t, h. repeat split; [done..|by apply bool_decide_eq_true_1 in Hun|done| |by rewrite Hcc].
  unfold verify_password. by rewrite (checkpw_hashpw _ _ _ Hhash).
Qed.

(** The rows a reset leaves still satisfy the invariant. *)
Lemma reset_password_accounts token password salt now w :
  sound w → accounts_ok (com (run_request (reset_password token password salt now) w).2).
Proof.
  intros [Hcc Hacc Hok].
  pose proof (goods_serve (com w) (ResetPassword token password salt now) w Hcc) as Hg.
  unfold served, run_request in *. simpl in Hg. unfold mbind, M_bind in Hg.
  destruct (reset_password _ _ _ _ w) as [[] w']; apply Hg; rewrite Hcc; (split; [done..|apply grown_refl]).
Qed.

Lemma run_request_clean {A} (m : M A) w : cur (run_request m w).2 = com (run_request m w).2.
Proof. unfold run_request. by destruct (m w). Qed.

Lemma run_request_out {A} (m : M A) (P : result A → Prop) w :
  wp m (λ out _, P out) w → P (run_request m w).1.
Proof. unfold wp, run_request. by destruct (m w). Qed.

(** C23: a reset link works once and in time: it stores a hash the new password
    verifies against and moves the account to a new epoch, and changes nothing
    else; from then on the link is refused, also to a request that had read the
    row before; a refused reset changes nothing. *)
Theorem reset_password_once token password salt now w :
  sound w →
  let '(out, w') := run_request (reset_password token password salt now) w in
  match out with
  | Ok _ => ∃ i t h,
      tokens Reset (cur w) !! i = Some t ∧ PasswordResetToken.token_hash t = sha256_hexdigest token ∧
      PasswordResetToken.used_at t = None ∧ now < PasswordResetToken.expires_at t ∧
      com w' = reset_rows i (PasswordResetToken.user_id t) h now (com w) ∧ verify_password password h = true ∧
      ∀ password2 salt2 now2,
        is_400 (run_request (reset_password token password2 salt2 now2) w').1 ∧
        is_400 (run_request (reset_password_consume i (PasswordResetToken.user_id t) password2 salt2 now2) w').1
  | Raise _ => com w' = com w
  end.
Proof using laws.
  intros Hs. pose proof (reset_password_accounts token password salt now w Hs) as Hacc'.
  pose proof (run_request_wp _ (reset_outcome token password now w) w
    (wp_reset_password token password salt now w Hs)) as H.
  pose proof (run_request_clean (reset_password token password salt now) w) as Hclean.
  destruct (run_request _ w) as [[[]|e] w']; [|exact H]. simpl in *.
  destruct H as (i & t & h & Ht & Hh & Hun & Hexp & Hv & Hcom). exists i, t, h. do 6 (split; [done|]).
  assert (Hrow : tokens Reset (cur w') !! i = Some (t <| PasswordResetToken.used_at := Some now |>)).
  { rewrite Hclean, Hcom. simpl in *. rewrite <- (sound_clean _ Hs) in Ht. by rewrite lookup_alter_eq, Ht. }
  rewrite <- Hclean in Hacc'. intros password2 salt2 now2. split; apply run_request_out.
  - unfold reset_password. wp_step. eapply wp_mono; [|by eapply spent_find].
    simpl. intros r w3 [[detail ->] ->]. by eexists.
  - unfold reset_password_consume. wp_step. eapply wp_mono; [|by eapply spent_consume].
    simpl. intros r w3 [[detail ->] ->]. by eexists.
Qed.

(** ** Asking for a link *)

Definition fresh_token k (token : string) d : Prop :=
  ∀ i t, tokens k d !! i = Some t → PasswordResetToken.token_hash t ≠ sha256_hexdigest token.

(** At most one live link per account: the one just issued. *)
Definition only_live_link k uid (token : string) (ttl now : Z) d : Prop :=
  ∀ i t, tokens k d !! i = Some t → PasswordResetToken.user_id t = uid → unused t = true →
    PasswordResetToken.token_hash t = sha256_hexdigest token ∧ PasswordResetToken.expires_at t = now + ttl.

Lemma wp_issue_token k uid token ttl now (Q : result unit → world → Prop) w :
  fresh_token k token (cur w) →
  (∀ w', com w' = cur w' → only_live_link k uid token ttl now (cur w') → users (cur w') = users (cur w) →
     mem w' = mem w → evs w' = evs w → Q (Ok tt) w') →
  wp (issue_token k uid token ttl now) Q w.
Proof.
  intros Hfresh HQ. unfold issue_token, insert_token. do 6 wp_step.
  - exfalso. apply exists_row_true in Heqb as (i & t & Ht & Hh%String.eqb_eq). simpl in Ht, Hh.
    rewrite tokens_on, decide_True in Ht by done. unfold void_tokens in Ht. rewrite lookup_update_where in Ht.
    destruct (tokens k (cur w) !! i) as [t0|] eqn:Ht0; [|done]. apply (Hfresh i t0 Ht0).
    simpl in Ht. injection Ht as <-. by destruct (_ && _).
  - repeat wp_step. apply HQ; simpl; [done| |by destruct k|done|done]. intros i t.
    rewrite tokens_on, decide_True by done.
    destruct (decide (next_id (on_tokens k (void_tokens uid now) (cur w)) = i)) as [<-|Hi].
    + rewrite lookup_insert_eq. by intros [= <-].
    + rewrite lookup_insert_ne by done. change (tokens k (on_tokens k (void_tokens uid now) (cur w)
        <| next_id ::= Z.succ |>)) with (tokens k (on_tokens k (void_tokens uid now) (cur w) <| next_id ::= Z.succ |>)).
      intros Ht Hu Hun. exfalso.
      assert (Ht' : void_tokens uid now (tokens k (cur w)) !! i = Some t) by (by destruct k).
      unfold void_tokens in Ht'. rewrite lookup_update_where in Ht'.
      destruct (tokens k (cur w) !! i) as [t0|]; [|done]. injection Ht' as <-.
      destruct ((PasswordResetToken.user_id t0 =? uid) && unused t0) eqn:Hb; [done|].
      by rewrite Hu, Hun, Z.eqb_refl in Hb.
Qed.

(** What a limiter lets through. *)
Definition limited (v : verdict) : result unit :=
  match v with
  | Allowed => Ok tt
  | Blocked _ => Raise (HTTPException 429 "Too many attempts.")
  | NoAttempts => Raise IndexError
  end.

Lemma wp_limit_forgot key mono (Q : result unit → world → Prop) w :
  (let r := check key mono (forgot_emails (mem w)) in
   Q (limited r.1) (w <| mem ::= (λ m, m <| forgot_emails := r.2 |>) |>)) → wp (limit_forgot key mono) Q w.
Proof.
  intros HQ. unfold limit_forgot, allowed_or_429. simpl in HQ. do 4 wp_step.
  destruct (check _ _ _).1; repeat wp_step; exact HQ.
Qed.

Lemma wp_limit_resend key mono (Q : result unit → world → Prop) w :
  (let r := check key mono (resend_emails (mem w)) in
   Q (limited r.1) (w <| mem ::= (λ m, m <| resend_emails := r.2 |>) |>)) → wp (limit_resend key mono) Q w.
Proof.
  intros HQ. unfold limit_resend, allowed_or_429. simpl in HQ. do 4 wp_step.
  destruct (check _ _ _).1; repeat wp_step; exact HQ.
Qed.

(** The reply to a request for a link, and the limiter, are functions of the
    limiter alone; a link goes to the account of the email only. *)
Definition link_outcome k (l : limiter) (get : memory → limiter) (key email token : string) (ttl now : Z)
    (mono : float) (sends : Z → User.t → list effect) (wants : User.t → bool) w (out : result unit) w' : Prop :=
  out = limited (check key mono l).1 ∧ get (mem w') = (check key mono l).2 ∧
  users (com w') = users (com w) ∧
  match account_of email (cur w) with
  | Some (uid, u) =>
      if is_ok out && wants u
      then evs w' = evs w ++ sends uid u ∧ only_live_link k uid token ttl now (com w')
      else evs w' = evs w ∧ com w' = com w
  | None => evs w' = evs w ∧ com w' = com w
  end.

Lemma wp_forgot req_email token now mono w :
  sound w → fresh_token Reset token (cur w) →
  wp (forgot_password req_email token now mono)
    (link_outcome Reset (forgot_emails (mem w)) forgot_emails ("forgot:" +:+ normalize_email req_email)%string
       (normalize_email req_email) token RESET_TOKEN_TTL now mono
       (λ uid u, [SendPasswordReset uid (User.email u) token]) (λ _, true) w) w.
Proof.
  intros [Hcc Hacc Hok] Hfresh. unfold forgot_password. wp_step. apply wp_limit_forgot. unfold link_outcome.
  destruct (check _ _ _) as [[] l] eqn:Hcheck; simpl;
    [|repeat (split; [done|]); by destruct (account_of _ _) as [[]|]..].
  do 3 wp_step. apply (wp_account _ _ (w <| mem ::= _ |>)); [done|]. cbv beta iota. simpl.
  destruct (account_of _ (cur w)) as [[uid u]|]; [|by repeat wp_step]. wp_step.
  apply wp_issue_token; [done|]. intros w' Hc Hlink Hu Hm He. wp_step. simpl in *.
  rewrite Hm, He, Hc, Hu, Hcc. simpl. do 4 (split; [done|]). exact Hlink.
Qed.

Lemma wp_resend req_email token now mono w :
  sound w → fresh_token Verification token (cur w) →
  wp (resend_verification req_email token now mono)
    (link_outcome Verification (resend_emails (mem w)) resend_emails
       ("resend_verify:" +:+ normalize_email req_email)%string
       (normalize_email req_email) token EMAIL_VERIFICATION_TTL now mono
       (λ uid u, [SendEmailVerification uid (User.email u) token]) (λ u, negb (User.email_verified u)) w) w.
Proof.
  intros [Hcc Hacc Hok] Hfresh. unfold resend_verification, issue_email_verification. wp_step.
  apply wp_limit_resend. unfold link_outcome.
  destruct (check _ _ _) as [[] l] eqn:Hcheck; simpl;
    [|repeat (split; [done|]); by destruct (account_of _ _) as [[]|]..].
  do 3 wp_step. apply (wp_account _ _ (w <| mem ::= _ |>)); [done|]. cbv beta iota. simpl.
  destruct (account_of _ (cur w)) as [[uid u]|]; [|by repeat wp_step].
  wp_step; rewrite H; [|done]. wp_step.
  apply wp_issue_token; [done|]. intros w' Hc Hlink Hu Hm He. wp_step. simpl in *.
  rewrite Hm, He, Hc, Hu, Hcc. simpl. do 4 (split; [done|]). exact Hlink.
Qed.

(** The answer to a request for a reset or a verification link, and the state
    of its limiter, depend on that limiter alone, so they tell nothing about the
    email; the link goes to the account of that email and is its only live one. *)
Theorem link_requests_blind req_email token now mono w :
  sound w → fresh_token Reset token (cur w) → fresh_token Verification token (cur w) →
  let email := normalize_email req_email in
  (let '(out, w') := run_request (forgot_password req_email token now mono) w in
   link_outcome Reset (forgot_emails (mem w)) forgot_emails ("forgot:" +:+ email)%string email token
     RESET_TOKEN_TTL now mono (λ uid u, [SendPasswordReset uid (User.email u) token]) (λ _, true) w out w') ∧
  (let '(out, w') := run_request (resend_verification req_email token now mono) w in
   link_outcome Verification (resend_emails (mem w)) resend_emails ("resend_verify:" +:+ email)%string email token
     EMAIL_VERIFICATION_TTL now mono (λ uid u, [SendEmailVerification uid (User.email u) token])
     (λ u, negb (User.email_verified u)) w out w').
Proof.
  intros Hs Hr Hv. cbv zeta. split; apply run_request_wp.
  - by apply wp_forgot.
  - by apply wp_resend.
Qed.

(** ** Google *)

(** The account of a Google identity, and what became of an older credential. *)
Definition google_owner (email sub random_password : string) uid w (u : User.t) : Prop :=
  lower (User.email u) = email ∧ User.google_sub u = Some sub ∧
  ∀ uid0 v, account_of email (cur w) = Some (uid0, v) → uid0 = uid ∧
    (User.google_sub v = None → User.token_version v < User.token_version u ∧
       User.email_verified u = true ∧ verify_password random_password (User.hashed_password u) = true).

Lemma wp_google_account email sub name random_password salt w :
  sound w → lower email = email →
  wp (google_account email sub name random_password salt) (λ out w', mem w' = mem w ∧
    match out with
    | Ok (inr uid) => com w' = cur w' ∧ ∃ u, users (cur w') !! uid = Some u ∧
        google_owner email sub random_password uid w u
    | Ok (inl (GoogleRedirect _ _)) => False
    | _ => True
    end) w.
Proof using laws.
  intros [Hcc Hacc Hok] Hlow. unfold google_account, link_store, on_conflict, hash_password. do 3 wp_step.
  apply wp_account; [done|]. cbv beta iota.
  destruct (account_of email (cur w)) as [[uid u]|] eqn:Ha.
  - pose proof (account_of_some _ _ _ _ Ha) as [Hu He]. destruct (User.google_sub u) as [s|] eqn:Hs.
    + wp_step. split; [done|]. destruct (String.eqb_spec s sub) as [->|]; [|done].
      split; [done|]. exists u. split; [done|]. split; [done|]. split; [done|]. intros uid0 v Hv. rewrite Ha in Hv.
      injection Hv as <- <-. split; [done|]. by rewrite Hs.
    + wp_step. destruct (bcrypt_hashpw _ _) as [h|] eqn:Hh; [|by wp_step].
      unfold update_linked, set_user. repeat wp_step; try done. split; [done|]. split; [done|].
      eexists. split; [simpl; by rewrite lookup_alter_eq, Hu|]. split; [done|]. split; [done|].
      intros uid0 v Hv. rewrite Ha in Hv. injection Hv as <- <-. split; [done|]. intros _. simpl. split; [lia|]. split; [done|].
      unfold verify_password. by rewrite (checkpw_hashpw _ _ _ Hh).
  - wp_step. destruct (bcrypt_hashpw _ _) as [h|]; [|by wp_step].
    unfold insert_user. repeat wp_step; try done. split; [done|]. split; [done|].
    eexists. split; [simpl; by rewrite lookup_insert_eq|]. split; [done|]. split; [done|].
    intros uid0 v. by rewrite Ha.
Qed.

Definition given_is (o : option string) (s : string) : Prop := given o = Some s.

(** C25: a Google sign-in needs the state cookie of its own browser and a verified
    identity whose email owns the account; an account it takes over keeps no old
    password and no old session; the token goes into the exchange under the
    code and the nonce of this sign-in; no other answer puts one there. *)
Theorem google_callback_correct configured cookie_state query_state code exchange verify
    random_password salt nonce new_code now mono w :
  sound w →
  let '(out, w') := run_request (google_callback configured cookie_state query_state code exchange verify
    random_password salt nonce new_code now mono) w in
  match out with
  | Ok (GoogleRedirect code' nonce') =>
      code' = new_code ∧ nonce' = nonce ∧
      ∃ state id_token claims email sub uid u,
        given_is cookie_state state ∧ given_is query_state state ∧
        exchange = Some (Some id_token) ∧ verify id_token = Some claims ∧
        google_email_verified claims = true ∧ given_is (google_email claims) email ∧
        given_is (google_subject claims) sub ∧
        users (com w') !! uid = Some u ∧ User.is_disabled u = false ∧
        google_owner (normalize_email email) sub random_password uid w u ∧
        exchange_codes (mem w') !! new_code = Some (issued uid u now, nonce, fadd mono GOOGLE_EXCHANGE_TTL_SECONDS)
  | _ => exchange_codes (mem w') = exchange_codes (mem w)
  end.
Proof using laws.
  intros Hs. apply run_request_wp. unfold google_callback, given_is. simpl.
  destruct configured; simpl; [|by wp_step].
  destruct (given cookie_state) as [a|]; [|by wp_step]. destruct (given query_state) as [b|]; [|by wp_step].
  destruct (String.eqb_spec a b) as [<-|]; simpl; [|by wp_step].
  destruct (given code); [|by wp_step]. destruct exchange as [id|]; [|by wp_step].
  destruct (given id) as [id_token|] eqn:Hid; [|by wp_step].
  assert (id = Some id_token) as -> by (by destruct id as [[]|]).
  destruct (verify id_token) as [claims|] eqn:Hv; [|by wp_step].
  destruct (google_email_verified claims) eqn:Hev; simpl; [|by wp_step].
  destruct (given (google_email claims)) as [email|] eqn:He; [|by wp_step].
  destruct (given (google_subject claims)) as [sub|] eqn:Hsub; [|by wp_step].
  wp_step. eapply wp_mono; [|apply wp_google_account; [done|apply lower_idemp]].
  intros [[resp|uid]|e] w1 [Hm H]; cbv beta iota.
  - wp_step. destruct resp; [by rewrite Hm | done].
  - destruct H as (Hc & u & Hu & Hown). do 2 wp_step. rewrite Hu. do 2 wp_step; [|done].
    injection H as <-. destruct (User.is_disabled u) eqn:Hdis; [wp_step; by rewrite Hm|].
    wp_step. apply wp_speed_up. intros w2 Hc2 Hcm2 Hm2. cbv beta iota. unfold store_exchange_code.
    repeat wp_step. split; [done|]. split; [done|].
    exists a, id_token, claims, email, sub, uid, u. do 7 (split; [done|]). simpl.
    split; [by rewrite Hcm2, Hc|]. split; [done|]. split; [done|]. by rewrite lookup_insert_eq.
  - by rewrite Hm.
Qed.

Lemma redeem_spec entry nonce mono tok :
  redeem entry nonce mono = Some tok ↔
  ∃ n deadline, entry = Some (tok, n, deadline) ∧ given_is nonce n ∧ mono <= deadline.
Proof.
  unfold redeem, given_is. destruct entry as [[[t n] deadline]|]; simpl; [|by split; [|intros (? & ? & ? & _)]].
  destruct (Z.ltb_spec deadline mono); [split; [done | intros (? & ? & [= -> -> ->] & _ & ?); lia]|].
  destruct (given nonce) as [x|]; simpl; [|by split; [|intros (? & ? & _ & ? & _)]].
  destruct (String.eqb_spec n x) as [->|Hn]; [|split; [done | by intros (? & ? & [= -> -> ->] & [= ->] & _)]].
  split; [intros [= ->]; by exists x, deadline | by intros (? & ? & [= -> -> ->] & _)].
Qed.

(** A code of the exchange yields its token only with the nonce of the browser
    that signed in, before its deadline, and any attempt spends it. *)
Theorem google_exchange_bound code nonce mono w :
  let '(out, w') := run_request (google_exchange code nonce mono) w in
  (∀ tok, out = Ok tok ↔ ∃ n deadline, exchange_codes (mem w) !! code = Some (tok, n, deadline) ∧
     given_is nonce n ∧ mono <= deadline) ∧
  com w' = com w ∧
  (∀ code', code' ≠ code → exchange_codes (mem w') !! code' = exchange_codes (mem w) !! code') ∧
  ∀ nonce2 mono2, is_400 (run_request (google_exchange code nonce2 mono2) w').1.
Proof.
  apply run_request_wp. unfold google_exchange, consume_exchange_code. do 6 wp_step.
  set (w1 := w <| mem ::= _ |>).
  assert (Hspent : ∀ nonce2 mono2, is_400 (run_request (google_exchange code nonce2 mono2)
    (w1 <| cur := com w1 |>)).1).
  { intros nonce2 mono2. apply run_request_out. unfold google_exchange, consume_exchange_code. do 6 wp_step.
    simpl. rewrite lookup_delete_eq. change (redeem None nonce2 mono2) with (@None string).
    wp_step. by eexists. }
  assert (Hother : ∀ code', code' ≠ code → exchange_codes (mem w1) !! code' = exchange_codes (mem w) !! code')
    by (intros; by apply lookup_delete_ne).
  wp_step; (split; [|done]); intros tok; (etrans; [|apply redeem_spec]);
    (split; [intros Ht; simplify_eq; exact H | intros Ht; pose proof (eq_trans (eq_sym H) Ht); by simplify_eq]).
Qed.

(** ** Every account stays well formed *)

(** One request after the other; a request that other commits come between is in
    it as its two parts. *)
Definition serve_all (rs : list request) w : world := foldl (λ w r, served r w) w rs.

Lemma good_self w : sound w → good (cur w) (com w).
Proof. intros [-> Hacc Hok]. split; [done..|apply grown_refl]. Qed.

(** C21: from a well-formed database (an empty one is), along any sequence of
    account requests with any arguments, accounts keep distinct canonical emails
    and Google identities, tokens distinct hashes, ledger rows their owners,
    wallets keep matching their ledgers and covering their holds, no account
    disappears and no token epoch goes back. *)
Theorem requests_sound rs w :
  sound w → sound (serve_all rs w) ∧ grown (cur w) (cur (serve_all rs w)).
Proof.
  revert w. induction rs as [|r rs IH]; intros w Hs; [split; [done|apply grown_refl]|].
  pose proof (goods_serve (cur w) r w (sound_clean _ Hs) (good_self w Hs)) as [Hacc Hok Hg].
  rewrite served_clean in *. destruct (IH (served r w)) as [Hs' Hg']; [by split; [apply served_clean|..]|].
  split; [done|]. by eapply grown_trans.
Qed.
End SignIn.
