(* ===== verification/SessionStart.v ===== *)
(** * services/session_start.py

    [begin_active_session], split at its first commit: [begin_claim] is the
    transaction that admits the start, sizes the hold, creates the session and
    claims the plug; [begin_publish] commands the gateway and undoes the claim
    when the publish fails.  Other handlers may run between the two. *)

From S2P Require Import Prelude Rounding PyNum Money Models Slots Config Billing TelemetryStore.
From S2P Require Import World Hoare Wallet Commands Caps Pricing Reservations Lifecycle.

Section SessionStart.
Context `{cfg : Config}.
Implicit Types (d : db) (now : Z) (plug : Plug.t) (tenant : Tenant.t).

(** ** Queued-charge resolvers *)

Definition queued_charging_enabled tenant (plug : option Plug.t) : bool :=
  match plug ≫= Plug.queued_charging_enabled with
  | Some b => b
  | None => Tenant.queued_charging_enabled tenant
  end.
Definition auto_start_delay tenant (plug : option Plug.t) : Z :=
  match plug ≫= Plug.auto_start_delay_min with
  | Some m => m
  | None => Tenant.auto_start_delay_min tenant
  end.
Definition queue_ttl tenant (plug : option Plug.t) : Z := Tenant.queue_ttl_min tenant.

(** [Decimal < float]: compared exactly. *)
Definition money_lt (c : money) (x : float) : bool := c * FU <? 100 * x.

(** ** The claim *)

Definition hold_for (available : money) (max_kwh : option float) (max_rate : money) : money :=
  match max_kwh with
  | None => to_money_amount available
  | Some k => to_money_amount (Z.min available (energy_cost k (PDec (dec_of_money max_rate))))
  end.

(** [max_duration_seconds or 24 * 3600]. *)
Definition hold_window (max_duration_seconds : option Z) : Z :=
  match max_duration_seconds with None | Some 0 => 24 * 3600 | Some n => n end.

Definition new_session (tenant_id uid plug_id : Z) (rate hold : money)
    (valid_until : option datetime) (max_kwh : option float) (max_duration : option Z) now
    : ChargingSession.t := {|
  ChargingSession.tenant_id := tenant_id;
  ChargingSession.user_id := uid;
  ChargingSession.plug_id := plug_id;
  ChargingSession.started_at := now;
  ChargingSession.ended_at := None;
  ChargingSession.energy_kwh := 0;
  ChargingSession.peak_power_w := 0;
  ChargingSession.last_telemetry_at := None;
  ChargingSession.coins_spent := 0;
  ChargingSession.rate_coins_per_kwh := Some rate;
  ChargingSession.hold_coins := Some hold;
  ChargingSession.status := ACTIVE;
  ChargingSession.max_kwh := max_kwh;
  ChargingSession.max_duration_seconds := max_duration;
  ChargingSession.settled_cost_coins := Some ZERO_MONEY;
  ChargingSession.rate_segment_start_kwh := Some 0;
  ChargingSession.rate_valid_until := valid_until;
  ChargingSession.settled_payout_id := None;
  ChargingSession.energy_counter_last_raw_kwh := None;
  ChargingSession.energy_reset_offset_kwh := 0 |}.

Definition fulfil (covering : option Z) (sid : Z) : M unit :=
  match covering with
  | None => mret tt
  | Some rid => modify (λ d, d <| reservations ::= alter (λ r,
      r <| Reservation.status := FULFILLED |> <| Reservation.session_id := Some sid |>) rid |>)
  end.

Definition begin_claim (uid plug_id : Z) plug (gateway : Gateway.t) (max_kwh : option float)
    (max_duration : option Z) (covering : option Z) now : M (Z * money) :=
  check_circuit_admission plug_id plug;;
  '(rate, valid_until) ← query (λ d, resolve_rate_window d plug now);
  available ← available_balance uid;
  refuse (money_lt available MIN_START_BALANCE_COINS) 402 "Insufficient available balance.";;
  max_rate ← query (λ d, max_rate_over_window d plug now (hold_window max_duration));
  match Gateway.tenant_id gateway with
  | None => raise IntegrityError
  | Some tenant_id =>
      sid ← fresh;
      modify (λ d, d <| sessions ::= <[sid := new_session tenant_id uid plug_id rate
                (hold_for available max_kwh max_rate) valid_until max_kwh max_duration now]> |>);;
      fulfil covering sid;;
      set_plug_status plug_id OCCUPIED;;
      commit;;
      emit (EmitPlugStatus plug_id OCCUPIED);;
      mret (sid, rate)
  end.

(** ** The publish, and the undo *)

Definition rebook (covering : option Z) : M unit :=
  match covering with
  | None => mret tt
  | Some rid => modify (λ d, d <| reservations ::= alter (λ r,
      r <| Reservation.status := BOOKED |> <| Reservation.session_id := None |>) rid |>)
  end.

Definition cancelled_at now (s : ChargingSession.t) : ChargingSession.t :=
  s <| ChargingSession.status := CANCELLED |> <| ChargingSession.ended_at := Some now |>.

Definition undo_claim (sid plug_id : Z) (covering : option Z) now : M unit :=
  set_session sid (cancelled_at now);;
  set_plug_status plug_id AVAILABLE;;
  rebook covering;;
  commit;;
  emit (EmitPlugStatus plug_id AVAILABLE).

Definition begin_publish (sid plug_id : Z) plug (rate : money) (max_kwh : option float)
    (max_duration : option Z) (covering : option Z) now : M Z :=
  success ← send_plug_command (Plug.gateway_id plug) plug_id ON
    (firmware_duration max_duration) (firmware_max_kwh max_kwh) (Some sid)
    (Plug.local_ip plug) (Some (effective_plug_cap plug));
  if success : bool then
    with_store (λ st, TelemetryStore.start_session st (total_seconds now) plug_id
                        (Some (PDec (dec_of_money rate))));;
    set_plug_telemetry_interval plug_id 1000;;
    mret sid
  else
    undo_claim sid plug_id covering now;;
    raise (HTTPException 500 "Failed to publish start command to the gateway.").

Definition begin_active_session (uid plug_id : Z) plug (gateway : Gateway.t)
    (max_kwh : option float) (max_duration : option Z) (covering : option Z) now : M Z :=
  '(sid, rate) ← begin_claim uid plug_id plug gateway max_kwh max_duration covering now;
  begin_publish sid plug_id plug rate max_kwh max_duration covering now.

(** ** Facts *)

(** Prices are never negative. *)
Record prices_ok d : Prop := {
  prices_env : 0 <= COINS_PER_KWH;
  prices_tariff : ∀ i t, tariffs d !! i = Some t → 0 <= Tariff.price_per_kwh t;
  prices_slot : ∀ i s, slots d !! i = Some s → 0 <= TariffSlot.price_per_kwh s }.

Lemma to_money_amount_nonneg c : 0 <= c → 0 <= to_money_amount c.
Proof. rewrite to_money_amount_clamp. unfold clamp, MAX_MONEY. lia. Qed.

Lemma slots_of_in d tid s : s ∈ slots_of d tid → ∃ i, slots d !! i = Some s.
Proof.
  unfold slots_of. intros ([i s'] & -> & Hin)%list_elem_of_fmap.
  exists i. by apply elem_of_select in Hin as [? _].
Qed.

Lemma pick_tariff_row d tid r : tariff_row d tid = Some r → tariffs d !! r.1 = Some r.2.
Proof.
  unfold tariff_row. intros (i & -> & H)%bind_Some. apply bind_Some in H as (t & Ht & [= <-]). done.
Qed.

Lemma resolved_tariff d plug tid t tz :
  resolve_tariff_and_tz d plug = (Some (tid, t), tz) → tariffs d !! tid = Some t.
Proof.
  unfold resolve_tariff_and_tz. intros H.
  destruct (tariff_row d (Plug.tariff_id plug)) eqn:H1;
    [|destruct (tariff_row d (group_tariff_id d plug)) eqn:H2]; simplify_eq;
    match goal with H : tariff_row _ _ = Some (tid, t) |- _ =>
      by apply (pick_tariff_row d _ (tid, t)) in H end.
Qed.

Lemma resolve_rate_nonneg d plug t :
  is_float COINS_PER_KWH → prices_ok d → 0 <= (resolve_rate_window d plug t).1.
Proof.
  intros Hf [He Ht Hs]. unfold resolve_rate_window.
  destruct (resolve_tariff_and_tz d plug) as [[[tid tf]|] tz] eqn:Hr; simpl.
  - pose proof (slot_rate_spec (slots_of d tid) (to_local t (zone_of tz))) as Hsr.
    destruct (slot_rate_and_bound _ _) as [p ob]. simpl in *. subst p.
    destruct (slot_rate _ _) as [p|] eqn:Hp; simpl.
    + apply slot_rate_some in Hp as (m & (i & Hi)%slots_of_in & _ & ->).
      by eapply to_money_amount_nonneg, Hs.
    + eapply to_money_amount_nonneg, Ht. by eapply resolved_tariff.
  - by apply to_money_float_nonneg.
Qed.

(** The environment the start runs in: sane prices and a sane request. *)
Record start_env d (max_kwh : option float) : Prop := {
  se_float : is_float COINS_PER_KWH;
  se_prices : prices_ok d;
  se_kwh : ∀ k, max_kwh = Some k → is_float k ∧ 0 <= k }.

Definition available d uid u : money := to_money_amount (User.coin_balance u - held d uid).

Definition fulfilled_by (covering : option Z) (sid : Z) (m : gmap Z Reservation.t) :=
  match covering with
  | None => m
  | Some rid => alter (λ r, r <| Reservation.status := FULFILLED |>
                              <| Reservation.session_id := Some sid |>) rid m
  end.

(** The database after a claim. *)
Definition claimed_db d (s : ChargingSession.t) (covering : option Z) : db :=
  d <| sessions ::= <[next_id d := s]> |>
    <| reservations ::= fulfilled_by covering (next_id d) |>
    <| plugs ::= alter (λ p, p <| Plug.status := OCCUPIED |>) (ChargingSession.plug_id s) |>
    <| next_id ::= Z.succ |>.

(** What the claim promises about the session it creates. *)
Record claim_of d uid plug_id plug (u : User.t) (max_kwh : option float)
    (max_duration : option Z) now (s : ChargingSession.t) : Prop := {
  cl_user : ChargingSession.user_id s = uid;
  cl_plug : ChargingSession.plug_id s = plug_id;
  cl_active : ChargingSession.status s = ACTIVE;
  cl_rate : ChargingSession.rate_coins_per_kwh s = Some (resolve_rate_for_plug d plug now);
  cl_until : ChargingSession.rate_valid_until s = (resolve_rate_window d plug now).2;
  cl_limits : ChargingSession.max_kwh s = max_kwh ∧
              ChargingSession.max_duration_seconds s = max_duration;
  cl_hold : ChargingSession.hold_coins s = Some (hold_for (available d uid u) max_kwh
              (max_rate_over_window d plug now (hold_window max_duration)));
  cl_floor : money_lt (available d uid u) MIN_START_BALANCE_COINS = false;
  cl_wf : session_wf s }.

Lemma wp_admission plug_id plug Q w :
  (Q (Ok tt) w) → (∀ e, Q (Raise e) w) → wp (check_circuit_admission plug_id plug) Q w.
Proof. intros H1 H2. unfold check_circuit_admission. wp_run; auto. Qed.

Lemma wp_claim uid plug_id plug gateway max_kwh max_duration covering now u Q w :
  start_env (cur w) max_kwh → users (cur w) !! uid = Some u →
  (∀ e, Q (Raise e) w) →
  (∀ s w', claim_of (cur w) uid plug_id plug u max_kwh max_duration now s →
     cur w' = claimed_db (cur w) s covering → com w' = cur w' → store w' = store w →
     Q (Ok (next_id (cur w), resolve_rate_for_plug (cur w) plug now)) w') →
  wp (begin_claim uid plug_id plug gateway max_kwh max_duration covering now) Q w.
Proof.
  intros [Hf Hp Hk] Hu HR HS. pose proof (resolve_rate_nonneg _ plug now Hf Hp) as Hrate.
  unfold begin_claim, available_balance, set_plug_status, fulfil, resolve_rate_for_plug in *.
  wp_step. apply wp_admission; [|apply HR]. do 2 wp_step.
  destruct (resolve_rate_window (cur w) plug now) as [rate valid_until] eqn:Hrw. simpl in Hrate.
  wp_run; try apply HR; simpl; rewrite ?Hu in *;
    (eapply (HS (new_session _ uid plug_id rate _ valid_until max_kwh max_duration now));
     [split; simpl; unfold resolve_rate_for_plug; rewrite ?Hrw; try done
     | simpl; unfold claimed_db; destruct (cur w); reflexivity | done | done]).
  all: split; [split; [by apply to_money_rate_nonneg | intros x [= <-]; apply is_float_0 |] |];
    simpl; [unfold ZERO_MONEY, MAX_MONEY; lia | split; [apply is_float_0 | lia]].
Qed.

Lemma max_rate_nonneg d plug t n :
  is_float COINS_PER_KWH → prices_ok d → 0 <= max_rate_over_window d plug t n.
Proof.
  intros Hf [He Ht Hs]. unfold max_rate_over_window.
  destruct (resolve_tariff_and_tz d plug) as [[[tid tf]|] tz] eqn:Hr;
    [|by apply to_money_float_nonneg].
  assert (0 <= to_money_amount (Tariff.price_per_kwh tf)).
  { eapply to_money_amount_nonneg, Ht. by eapply resolved_tariff. }
  destruct (slots_of d tid); [done|].
  destruct (24 * 3600 <=? n); (etransitivity; [done|]); apply (proj1 (foldl_max_ge _ _)).
Qed.

(** The hold never exceeds what is left to reserve. *)
Lemma hold_for_bound d uid u max_kwh rate :
  wallet_ok d → users d !! uid = Some u → 0 <= rate →
  (∀ k, max_kwh = Some k → is_float k ∧ 0 <= k) →
  0 <= hold_for (available d uid u) max_kwh rate <= User.coin_balance u - held d uid.
Proof.
  intros Hok Hu Hrate Hk. unfold hold_for, available.
  pose proof (wallet_held d Hok uid u Hu). pose proof (ledger_range d (wallet_ledger d Hok) uid u Hu).
  assert (0 <= held d uid) by (apply msum_nonneg; intros; by eapply hold_of_nonneg).
  destruct max_kwh as [k|]; rewrite !to_money_amount_clamp; [|unfold clamp, MAX_MONEY in *; lia].
  destruct (Hk k eq_refl) as [Hf Hk0].
  pose proof (energy_cost_nonneg k (PDec (dec_of_money rate)) Hf Hk0 (to_money_rate_nonneg _ Hrate)).
  unfold clamp, MAX_MONEY in *. lia.
Qed.

Section Claimed.
Context (d : db) (uid plug_id : Z) (plug : Plug.t) (u : User.t) (max_kwh : option float)
  (max_duration covering : option Z) (now : Z) (s : ChargingSession.t).
Context (Hok : db_ok d) (Henv : start_env d max_kwh) (Hu : users d !! uid = Some u)
  (Hplug : plugs d !! plug_id = Some plug) (Hav : Plug.status plug = AVAILABLE)
  (Hs : claim_of d uid plug_id plug u max_kwh max_duration now s).

Lemma claim_hold : ∃ h, ChargingSession.hold_coins s = Some h ∧
  0 <= h <= User.coin_balance u - held d uid.
Proof using Hok Henv Hu Hs.
  destruct Henv as [Hf Hp Hk]. eexists. split; [apply (cl_hold _ _ _ _ _ _ _ _ _ Hs)|].
  apply hold_for_bound; [apply Hok | done | by apply max_rate_nonneg | done].
Qed.

Lemma claim_is_active : is_active s = true.
Proof using Hs. unfold is_active. by rewrite (cl_active _ _ _ _ _ _ _ _ _ Hs). Qed.

Let d' := claimed_db d s covering.

Lemma claimed_lookup i x :
  sessions d' !! i = Some x → (i = next_id d ∧ x = s) ∨ (i ≠ next_id d ∧ sessions d !! i = Some x).
Proof using.
  unfold d', claimed_db. simpl. destruct (decide (i = next_id d)) as [->|Hi].
  - rewrite lookup_insert_eq. intros [= <-]. by left.
  - rewrite lookup_insert_ne by done. by right.
Qed.

Lemma claimed_held v :
  held d' v = held d v + (if uid =? v then default 0 (ChargingSession.hold_coins s) else 0).
Proof using Hok Hs.
  unfold held, d', claimed_db. simpl. rewrite msum_insert_None by (apply (ok_ids d Hok); lia).
  assert (hold_of v s = if uid =? v then default 0 (ChargingSession.hold_coins s) else 0) as ->.
  { unfold hold_of. by rewrite claim_is_active, (cl_user _ _ _ _ _ _ _ _ _ Hs), andb_true_r. }
  apply Z.add_comm.
Qed.

(** No session was running on the claimed plug. *)
Lemma claimed_alone i x :
  sessions d' !! i = Some x → is_active x = true → ChargingSession.plug_id x = plug_id →
  i = next_id d.
Proof using Hok Hplug Hav.
  intros Hx Ha Hp. destruct (claimed_lookup i x Hx) as [[-> _]|[_ Hx']]; [done|].
  by destruct (ok_free d Hok plug_id plug Hplug Hav i x Hx' Ha).
Qed.

Lemma claimed_db_ok : db_ok d'.
Proof using Hok Henv Hu Hplug Hav Hs.
  destruct claim_hold as (h & Hh & Hb). pose proof (ok_wallet d Hok) as Hw.
  pose proof (cl_user _ _ _ _ _ _ _ _ _ Hs) as Hsu.
  pose proof (cl_plug _ _ _ _ _ _ _ _ _ Hs) as Hsp.
  split; [split|..].
  - apply (ledger_ok_frame d); [apply Hw | done | done | unfold d', claimed_db; simpl; lia].
  - intros v x Hx. rewrite claimed_held, Hh. change (users d' !! v) with (users d !! v) in Hx.
    pose proof (wallet_held d Hw v x Hx). destruct (Z.eqb_spec uid v) as [<-|]; simpl; [|lia].
    simplify_eq. lia.
  - intros i x Hx Hax. change (users d') with (users d).
    destruct (claimed_lookup i x Hx) as [[_ ->]|[_ Hx']]; [|by apply (wallet_holds d Hw i)].
    split; [exists h; split; [done|lia] | rewrite Hsu; by eexists].
  - intros i x Hx Hax. unfold d', claimed_db. simpl. rewrite lookup_alter_is_Some.
    destruct (claimed_lookup i x Hx) as [[_ ->]|[_ Hx']]; [|by apply (ok_active d Hok i)].
    split; [apply Hs | rewrite Hsp; by eexists].
  - unfold d', claimed_db. simpl. intros i Hi. rewrite lookup_insert_ne by lia. apply (ok_ids d Hok). lia.
  - intros pid p Hp Hpav i x Hx Hax Hpid. unfold d', claimed_db in Hp. simpl in Hp. rewrite Hsp in Hp.
    destruct (decide (plug_id = pid)) as [<-|Hne].
    + rewrite lookup_alter_eq, Hplug in Hp. simpl in Hp. by injection Hp as <-.
    + rewrite lookup_alter_ne in Hp by done.
      destruct (claimed_lookup i x Hx) as [[_ ->]|[_ Hx']]; [congruence|].
      by eapply (ok_free d Hok).
  - intros i j x y Hx Hy Hax Hay Hxy.
    destruct (decide (ChargingSession.plug_id x = plug_id)) as [Hpx|Hpx].
    + rewrite (claimed_alone i x), (claimed_alone j y); congruence.
    + destruct (claimed_lookup i x Hx) as [[_ ->]|[_ Hx']]; [congruence|].
      destruct (claimed_lookup j y Hy) as [[_ ->]|[_ Hy']]; [congruence|].
      by apply (ok_one d Hok i j x y).
Qed.
End Claimed.

(** The outcome of a claim in the database [d] for driver [u]. *)
Definition claim_outcome d uid plug_id plug (u : User.t) max_kwh max_duration now
    (out : result (Z * money)) d' : Prop :=
  match out with
  | Raise _ => d' = d
  | Ok (sid, rate) => ∃ s h p,
      sessions d !! sid = None ∧ sessions d' !! sid = Some s ∧
      claim_of d uid plug_id plug u max_kwh max_duration now s ∧
      ChargingSession.hold_coins s = Some h ∧
      held d' uid = held d uid + h ∧ held d' uid <= User.coin_balance u ∧
      plugs d' !! plug_id = Some p ∧ Plug.status p = OCCUPIED
  end.

(** C3: a start reserves before it energizes: when the claim goes through, the
    session is running with the plug's current rate, its hold is what the driver
    can still spend or the session's own worst case, whichever is less, the
    driver had at least the start floor available, and all holds of every driver
    together stay within the wallet; a refused claim changes and sends nothing. *)
Theorem start_reserves uid plug_id plug gateway max_kwh max_duration covering now u w :
  com w = cur w → db_ok (cur w) → start_env (cur w) max_kwh →
  users (cur w) !! uid = Some u → plugs (cur w) !! plug_id = Some plug →
  Plug.status plug = AVAILABLE →
  let '(out, w') :=
    run_request (begin_claim uid plug_id plug gateway max_kwh max_duration covering now) w in
  db_ok (com w') ∧ (is_ok out = false → evs w' = evs w) ∧
  claim_outcome (cur w) uid plug_id plug u max_kwh max_duration now out (com w').
Proof.
  intros Hcc Hok Henv Hu Hplug Hav.
  assert (H : wp (begin_claim uid plug_id plug gateway max_kwh max_duration covering now)
    (λ out w', db_ok (com w') ∧ (is_ok out = false → evs w' = evs w) ∧
       claim_outcome (cur w) uid plug_id plug u max_kwh max_duration now out (com w')) w).
  2:{ unfold wp, run_request in *. by destruct (begin_claim _ _ _ _ _ _ _ _ w). }
  apply (wp_claim _ _ _ _ _ _ _ _ u); [done | done | intros e; rewrite Hcc; by split |].
  intros s w' Hs Hc Hcm _. rewrite Hcm, Hc.
  pose proof (claimed_db_ok _ _ _ _ _ _ _ covering _ _ Hok Henv Hu Hplug Hav Hs) as Hok'.
  split_and!; [done | done |].
  destruct (claim_hold _ _ _ _ _ _ _ _ _ Hok Henv Hu Hs) as (h & Hh & Hb).
  assert (Hheld : held (claimed_db (cur w) s covering) uid = held (cur w) uid + h).
  { rewrite (claimed_held _ _ _ _ _ _ _ _ _ _ Hok Hs), Z.eqb_refl, Hh. done. }
  exists s, h, (plug <| Plug.status := OCCUPIED |>). split_and!; try done.
  - apply (ok_ids _ Hok). lia.
  - unfold claimed_db. simpl. by rewrite lookup_insert_eq.
  - lia.
  - unfold claimed_db. simpl. by rewrite (cl_plug _ _ _ _ _ _ _ _ _ Hs), lookup_alter_eq, Hplug.
Qed.

Definition rebooked_by (covering : option Z) (m : gmap Z Reservation.t) :=
  match covering with
  | None => m
  | Some rid => alter (λ r, r <| Reservation.status := BOOKED |>
                              <| Reservation.session_id := None |>) rid m
  end.

(** The database after the undo of a claim. *)
Definition undone_db d sid plug_id (covering : option Z) now : db :=
  d <| sessions ::= alter (cancelled_at now) sid |>
    <| plugs ::= alter (λ p, p <| Plug.status := AVAILABLE |>) plug_id |>
    <| reservations ::= rebooked_by covering |>.

Lemma wp_undo sid plug_id covering now (Q : result unit → world → Prop) w :
  (∀ w', cur w' = undone_db (cur w) sid plug_id covering now → com w' = cur w' →
         Q (Ok tt) w') →
  wp (undo_claim sid plug_id covering now) Q w.
Proof.
  intros HQ. unfold undo_claim, set_session, set_plug_status, rebook.
  wp_run; apply HQ; try done; simpl; unfold undone_db; by destruct (cur w).
Qed.

Lemma undone_db_ok d sid plug_id covering now :
  db_ok d →
  (∀ i x, sessions d !! i = Some x → is_active x = true →
          ChargingSession.plug_id x = plug_id → i = sid) →
  db_ok (undone_db d sid plug_id covering now).
Proof.
  intros Hok Halone. set (d' := undone_db _ _ _ _ _). pose proof (ok_wallet d Hok) as Hw.
  assert (Hsess : ∀ i x, sessions d' !! i = Some x → is_active x = true →
            i ≠ sid ∧ sessions d !! i = Some x).
  { intros i x. unfold d', undone_db. simpl. destruct (decide (i = sid)) as [->|Hi].
    - rewrite lookup_alter_eq. intros (y & _ & ->)%fmap_Some Ha. done.
    - rewrite lookup_alter_ne by done. done. }
  assert (Hheld : ∀ v, held d' v <= held d v).
  { intros v. unfold held, d', undone_db. simpl.
    destruct (sessions d !! sid) as [x|] eqn:Hx.
    - rewrite (alter_alt_Some _ _ _ _ Hx), (msum_update _ _ _ _ _ Hx).
      pose proof (hold_of_nonneg d v sid x Hw Hx).
      rewrite (hold_inactive v (cancelled_at now x)) by done. lia.
    - rewrite alter_id; [done | congruence]. }
  split; [split|..].
  - by apply (ledger_ok_frame d); [apply Hw | | |].
  - intros v x Hx. pose proof (wallet_held d Hw v x Hx). specialize (Hheld v). lia.
  - intros i x Hx Ha. destruct (Hsess i x Hx Ha) as [_ Hx']. by apply (wallet_holds d Hw i).
  - intros i x Hx Ha. destruct (Hsess i x Hx Ha) as [_ Hx'].
    destruct (ok_active d Hok i x Hx' Ha). split; [done|]. unfold d', undone_db. simpl.
    by rewrite lookup_alter_is_Some.
  - intros i Hi. unfold d', undone_db. simpl. apply (ok_ids d Hok) in Hi as Hn.
    destruct (decide (i = sid)) as [->|]; [by rewrite lookup_alter_eq, Hn | by rewrite lookup_alter_ne].
  - intros pid p Hp Hav i x Hx Ha Hpid. destruct (Hsess i x Hx Ha) as [Hne Hx'].
    unfold d', undone_db in Hp. simpl in Hp. destruct (decide (plug_id = pid)) as [<-|].
    + by apply Hne, (Halone i x).
    + rewrite lookup_alter_ne in Hp by done. by eapply (ok_free d Hok).
  - intros i j x y Hx Hy Hax Hay. apply (ok_one d Hok); [by apply Hsess..| done | done].
Qed.

Lemma alter_alter_id {A} (f g : A → A) (m : gmap Z A) i :
  (∀ x, m !! i = Some x → f (g x) = x) → alter f i (alter g i m) = m.
Proof. intros H. rewrite alter_alter_eq. by apply alter_id. Qed.

(** The ON command of a start. *)
Definition on_command (sid plug_id : Z) plug max_kwh max_duration : mqtt_command :=
  CmdPlug (Plug.gateway_id plug) plug_id ON (firmware_duration max_duration)
    (firmware_max_kwh max_kwh) (Some sid) (nonempty (Plug.local_ip plug))
    (Some (effective_plug_cap plug)).

(** C4: a start whose ON command cannot be published is undone completely: the
    caller gets an error, and apart from one CANCELLED session (and waiting
    ids) the database is the one before the start: same wallets, same ledger,
    same plug states, same bookings, same holds. *)
Theorem failed_start_restores uid plug_id plug gateway max_kwh max_duration covering now u w :
  com w = cur w → db_ok (cur w) → start_env (cur w) max_kwh →
  users (cur w) !! uid = Some u → plugs (cur w) !! plug_id = Some plug →
  Plug.status plug = AVAILABLE →
  (∀ rid r, covering = Some rid → reservations (cur w) !! rid = Some r →
     Reservation.status r = BOOKED ∧ Reservation.session_id r = None) →
  mqtt_ack (on_command (next_id (cur w)) plug_id plug max_kwh max_duration) = false →
  let '(out, w') := run_request
    (begin_active_session uid plug_id plug gateway max_kwh max_duration covering now) w in
  is_ok out = false ∧ db_ok (com w') ∧
  users (com w') = users (cur w) ∧ ledger (com w') = ledger (cur w) ∧
  plugs (com w') = plugs (cur w) ∧ reservations (com w') = reservations (cur w) ∧
  (∀ v, held (com w') v = held (cur w) v) ∧
  (∀ sid s, sessions (com w') !! sid = Some s →
     sessions (cur w) !! sid = Some s ∨ ChargingSession.status s = CANCELLED).
Proof.
  intros Hcc Hok Henv Hu Hplug Hav Hres Hack.
  set (Q (out : result Z) (w' : world) := is_ok out = false ∧ db_ok (com w') ∧
    users (com w') = users (cur w) ∧ ledger (com w') = ledger (cur w) ∧
    plugs (com w') = plugs (cur w) ∧ reservations (com w') = reservations (cur w) ∧
    (∀ v, held (com w') v = held (cur w) v) ∧
    (∀ sid s, sessions (com w') !! sid = Some s →
       sessions (cur w) !! sid = Some s ∨ ChargingSession.status s = CANCELLED)).
  assert (H : wp (begin_active_session uid plug_id plug gateway max_kwh max_duration covering now)
    Q w).
  2:{ unfold wp, run_request in *. by destruct (begin_active_session _ _ _ _ _ _ _ _ w). }
  unfold begin_active_session. wp_step.
  apply (wp_claim _ _ _ _ _ _ _ _ u); [done | done | intros e; unfold Q; rewrite Hcc; by auto 10 |].
  intros s w' Hs Hc Hcm _. unfold begin_publish, send_plug_command, publish.
  unfold on_command in Hack. wp_run (apply wp_undo; intros w'' Hc2 Hcm2); [congruence|].
  unfold Q. rewrite Hcm2, Hc2. simpl. rewrite Hc.
  pose proof (claimed_db_ok _ _ _ _ _ _ _ covering _ _ Hok Henv Hu Hplug Hav Hs) as Hok'.
  pose proof (cl_plug _ _ _ _ _ _ _ _ _ Hs) as Hsp.
  split_and!; try done.
  - apply undone_db_ok; [done|]. intros i x. by eapply claimed_alone.
  - simpl. rewrite Hsp. apply alter_alter_id. intros x Hx. simplify_eq.
    destruct plug. simpl in *. by subst.
  - simpl. destruct covering as [rid|]; [|done]. apply alter_alter_id. intros r Hr.
    destruct (Hres rid r eq_refl Hr). destruct r. simpl in *. by subst.
  - intros v. unfold held, undone_db, claimed_db. simpl.
    rewrite alter_insert_eq, msum_insert_None by (apply (ok_ids _ Hok); lia).
    by rewrite (hold_inactive v (cancelled_at now s)).
  - intros sid x. unfold undone_db, claimed_db. simpl. rewrite alter_insert_eq.
    destruct (decide (sid = next_id (cur w))) as [->|Hne].
    + rewrite lookup_insert_eq. intros [= <-]. by right.
    + rewrite lookup_insert_ne by done. by left.
Qed.
End SessionStart.
