(* ===== verification/Invoices.v ===== *)
(** * services/invoices.py: GST invoices

    One invoice per session, numbered sequentially per tenant; the total already
    includes the tax, which is split out of it. *)

From stdpp Require Import pretty.
From S2P Require Import Prelude Rounding PyNum Money Models Config TelemetryStore World Hoare.
From S2P Require Import Slots Billing Wallet Pricing.

Section Invoices.
Context `{cfg : Config}.
Implicit Types (d : db) (now total : Z) (inv : Invoice.t) (s : ChargingSession.t).

Definition gst_rate_pct : dec :=
  match GST_RATE_PCT with Number d => d | _ => mkdec 180 (-1) end.

Definition split_gst_inclusive (total : money) (rate_pct : dec) : money * money :=
  let total := to_money_amount total in
  let rate := to_money (PDec rate_pct) in
  let divisor := dadd (mkdec 1 0) (ddiv (dec_of_money rate) (mkdec 100 0)) in
  let taxable_value := to_money (PDec (ddiv (dec_of_money total) divisor)) in
  let gst_amount := to_money_amount (total - taxable_value) in
  (taxable_value, gst_amount).

(** Year and month of a UTC instant (proleptic Gregorian calendar). *)
Definition civil (at_ : datetime) : Z * Z :=
  let z := at_ / days 1 + 719468 in
  let era := z / 146097 in
  let doe := z mod 146097 in
  let yoe := (doe - doe / 1460 + doe / 36524 - doe / 146096) / 365 in
  let doy := doe - (365 * yoe + yoe / 4 - yoe / 100) in
  let mp := (5 * doy + 2) / 153 in
  let month := if mp <? 10 then mp + 3 else mp - 9 in
  (yoe + era * 400 + (if month <=? 2 then 1 else 0), month).

(** [str(n)[-2:]] *)
Definition last_two (s : string) : string := String.substring (String.length s - 2) 2 s.

Definition financial_year_label (at_ : datetime) : string :=
  let '(year, month) := civil at_ in
  let start_year := if 4 <=? month then year else year - 1 in
  (pretty start_year ++ "-" ++ last_two (pretty (start_year + 1)))%string.

(** [f"{seq:05d}"] of a non-negative number. *)
Definition pad5 (n : Z) : string :=
  let s := pretty n in
  (String.substring 0 (5 - String.length s) "00000" ++ s)%string.

(** 2026-04-01 and the last microsecond before it. *)
Example financial_year_ex1 : financial_year_label (days 20544) = "2026-27"%string.
Proof. vm_compute. reflexivity. Qed.
Example financial_year_ex2 : financial_year_label (days 20544 - 1) = "2025-26"%string.
Proof. vm_compute. reflexivity. Qed.
Example pad5_ex : pad5 42 = "00042"%string /\ pad5 123456 = "123456"%string.
Proof. vm_compute. done. Qed.

Definition invoices_of (sid : Z) d : list (Z * Invoice.t) :=
  select (λ _ i, Invoice.session_id i =? sid) (invoices d).

Definition get_invoice_by_session (sid : Z) : M (option (Z * Invoice.t)) :=
  rows ← query (invoices_of sid); one_or_none rows.

Definition invoiceable s : bool :=
  bool_decide (ChargingSession.status s = COMPLETED) ||
  bool_decide (ChargingSession.status s = PAID).

(** [invoices.session_id] and [invoices.invoice_number] are UNIQUE. *)
Definition clashes inv (_ : Z) inv' : bool :=
  (Invoice.session_id inv' =? Invoice.session_id inv) ||
  bool_decide (Invoice.invoice_number inv' = Invoice.invoice_number inv).

Definition insert_invoice inv : M Z :=
  clash ← query (λ d, exists_row (clashes inv) (invoices d));
  if clash : bool then raise IntegrityError
  else i ← fresh; modify (λ d, d <| invoices ::= <[i := inv]> |>);; mret i.

(** [prefix or f"INV{tenant_id}"]. *)
Definition invoice_prefix (tenant_id : Z) (t : Tenant.t) : string :=
  match Tenant.invoice_prefix t with
  | Some p => if String.eqb p "" then ("INV" ++ pretty tenant_id)%string else p
  | None => ("INV" ++ pretty tenant_id)%string
  end.

Definition invoice_number_for (tenant_id : Z) (t : Tenant.t) now : string :=
  (invoice_prefix tenant_id t ++ "-" ++ financial_year_label now ++ "-" ++
   pad5 (Tenant.next_invoice_seq t))%string.

Definition new_invoice (sid : Z) s (t : Tenant.t) now : Invoice.t :=
  let total := to_money_amount (ChargingSession.coins_spent s) in
  let '(taxable_value, gst_amount) := split_gst_inclusive total gst_rate_pct in
  {| Invoice.tenant_id := ChargingSession.tenant_id s;
     Invoice.session_id := sid;
     Invoice.driver_user_id := ChargingSession.user_id s;
     Invoice.invoice_number := invoice_number_for (ChargingSession.tenant_id s) t now;
     Invoice.issued_at := now;
     Invoice.amount_coins := total;
     Invoice.taxable_value_inr := taxable_value;
     Invoice.gst_rate_pct := to_money (PDec gst_rate_pct);
     Invoice.gst_amount_inr := gst_amount;
     Invoice.total_inr := total;
     Invoice.seller_legal_name := Tenant.legal_name t;
     Invoice.seller_gstin := Tenant.gstin t;
     Invoice.energy_kwh := ChargingSession.energy_kwh s;
     Invoice.rate_coins_per_kwh :=
       match ChargingSession.rate_coins_per_kwh s with
       | Some r => to_money_amount r
       | None => default_rate
       end |}.

Definition issue_invoice_for_session (sid now : Z) : M (Z * Invoice.t) :=
  existing ← get_invoice_by_session sid;
  match existing with
  | Some inv => mret inv
  | None =>
      session ← query (λ d, sessions d !! sid);
      match session with
      | None => raise SessionNotInvoiceableError
      | Some s =>
          if negb (invoiceable s) then raise SessionNotInvoiceableError
          else if to_money_amount (ChargingSession.coins_spent s) <=? ZERO_MONEY
          then raise SessionNotInvoiceableError
          else
            tenant ← query (λ d, tenants d !! ChargingSession.tenant_id s);
            match tenant with
            | None => raise SessionNotInvoiceableError
            | Some t =>
                let inv := new_invoice sid s t now in
                modify (λ d, d <| tenants ::= alter (λ t, t <| Tenant.next_invoice_seq ::= Z.succ |>)
                                    (ChargingSession.tenant_id s) |>);;
                catch (i ← insert_invoice inv; commit;; mret (i, inv))
                  (λ e, match e with
                        | IntegrityError =>
                            rollback;;
                            winner ← get_invoice_by_session sid;
                            match winner with Some w => mret w | None => raise IntegrityError end
                        | e => raise e
                        end)
            end
      end
  end.

(** Called inside the transaction of a dispute's approval. *)
Definition adjusted inv (new_total : money) : Invoice.t :=
  let '(taxable_value, gst_amount) :=
    split_gst_inclusive new_total (dec_of_money (Invoice.gst_rate_pct inv)) in
  inv <| Invoice.amount_coins := new_total |>
      <| Invoice.taxable_value_inr := taxable_value |>
      <| Invoice.gst_amount_inr := gst_amount |>
      <| Invoice.total_inr := new_total |>.

Definition adjust_invoice_for_session_refund (sid : Z) (session_coins_spent cumulative_refund : money)
    : M (option Z) :=
  invoice ← get_invoice_by_session sid;
  match invoice with
  | None => mret None
  | Some (i, inv) =>
      let new_total := to_money_amount
        (Z.max (to_money_amount session_coins_spent - to_money_amount cumulative_refund) ZERO_MONEY) in
      modify (λ d, d <| invoices ::= <[i := adjusted inv new_total]> |>);;
      mret (Some i)
  end.

(** ** The tax split *)

(** A tax rate that makes sense: not negative. *)
Definition rate_hundredths (rate_pct : dec) : Z := to_money (PDec rate_pct).

Lemma gst_divisor c :
  0 <= c <= MAX_MONEY →
  dadd (mkdec 1 0) (ddiv (dec_of_money c) (mkdec 100 0)) = mkdec ((10 ^ 4 + c) * 10 ^ 29) (-33).
Proof.
  intros Hc. unfold ddiv. simpl dcoef. simpl dexp.
  change (dec_digits 100 + 28) with 31. change (-2 - 0 - 31) with (-33).
  replace (c * 10 ^ 31) with (c * 10 ^ 29 * 100) by lia.
  rewrite drnd_shifted by (unfold MAX_MONEY in *; lia).
  unfold dadd, ctx. simpl dexp. simpl dcoef. f_equal.
  replace (1 * 10 ^ (0 - Z.min 0 (-33)) + c * 10 ^ 29 * 10 ^ (-33 - Z.min 0 (-33)))
    with ((10 ^ 4 + c) * 10 ^ 29 * 1)
    by (change (Z.min 0 (-33)) with (-33); change (0 - -33) with 33;
        change (-33 - -33) with 0; lia).
  rewrite drnd_shifted by (unfold MAX_MONEY in *; lia). lia.
Qed.

Lemma split_taxable total rate_pct :
  0 <= total <= MAX_MONEY → 0 <= rate_hundredths rate_pct →
  (split_gst_inclusive total rate_pct).1 =
  rhu (total * 10 ^ 4) (10 ^ 4 + rate_hundredths rate_pct).
Proof.
  intros Ht Hc. unfold split_gst_inclusive. cbv zeta. cbn [fst].
  change (to_money (PDec rate_pct)) with (rate_hundredths rate_pct).
  pose proof (to_money_range (PDec rate_pct)) as [_ Hmax].
  fold (rate_hundredths rate_pct) in Hmax. set (c := rate_hundredths rate_pct) in *.
  rewrite to_money_amount_ok by (unfold money_ok, MAX_MONEY in *; lia).
  rewrite gst_divisor by done. unfold ddiv. simpl dcoef. simpl dexp.
  set (D := 10 ^ 4 + c). set (k := dec_digits (D * 10 ^ 29) + 28).
  assert (62 <= k) as Hk.
  { unfold k. destruct (digits_spec _ _ dec_digits_count (D * 10 ^ 29) ltac:(lia)) as (? & _ & Hlt).
    destruct (Z.le_gt_cases 34 (dec_digits (D * 10 ^ 29))) as [|Hd]; [lia|].
    assert (10 ^ dec_digits (D * 10 ^ 29) <= 10 ^ 33) by (apply Z.pow_le_mono_r; lia). lia. }
  replace (-2 - -33 - k) with (31 - k) by lia. unfold to_money at 1.
  rewrite (to_money_dec_scaled (k - 31)) by (simpl; lia).
  unfold dval. simpl dexp. simpl dcoef.
  replace (31 - k + (k - 31)) with 0 by lia. rewrite Z.mul_1_r.
  replace (k - 31 - 2) with (k - 33) by lia.
  rewrite (drnd_eq _ _ (total * 10 ^ 4 * 10 ^ (k - 33)) D) by
    (try lia; replace (10 ^ k) with (10 ^ (k - 33) * 10 ^ 33) by (rewrite <- Z.pow_add_r; [f_equal|..]; lia); lia).
  rewrite rhu_drnd by (unfold D, MAX_MONEY in *; lia).
  apply clamp_ok. unfold money_ok.
  assert (0 <= rhu (total * 10 ^ 4) D) by (apply rhu_nonneg; unfold D; lia).
  enough (rhu (total * 10 ^ 4) D <= rhu (total * D) D)
    by (rewrite rhu_exact in * by (unfold D; lia); unfold MAX_MONEY in *; lia).
  apply rhu_mono; unfold D; nia.
Qed.

(** The two parts of a split foot to the total. *)
Definition foots total (parts : money * money) : Prop :=
  parts.1 + parts.2 = total ∧ 0 <= parts.1 <= total.

Lemma split_foots total rate_pct :
  0 <= total <= MAX_MONEY → 0 <= rate_hundredths rate_pct →
  foots total (split_gst_inclusive total rate_pct).
Proof.
  intros Ht Hc. pose proof (split_taxable total rate_pct Ht Hc) as Htax.
  set (D := 10 ^ 4 + rate_hundredths rate_pct) in *.
  assert (Hb : 0 <= rhu (total * 10 ^ 4) D <= total).
  { split; [apply rhu_nonneg; unfold D; lia|].
    etransitivity; [apply (rhu_mono _ (total * D)) | rewrite rhu_exact]; unfold D; nia. }
  rewrite <- Htax in Hb. unfold foots.
  change (split_gst_inclusive total rate_pct).2
    with (to_money_amount (to_money_amount total - (split_gst_inclusive total rate_pct).1)).
  generalize dependent (split_gst_inclusive total rate_pct).1. intros t _ Hb.
  rewrite (to_money_amount_ok total) by (unfold money_ok, MAX_MONEY in *; lia).
  rewrite to_money_amount_ok by (unfold money_ok, MAX_MONEY in *; lia). lia.
Qed.

(** The tax split is exact: the taxable value is the total divided by one
    plus the rate, rounded half up to the nearest hundredth (the intermediate
    28-digit quotient never shifts the rounding), the tax is the rest, and the
    two parts foot to the total whatever the rate. *)
Theorem gst_split_exact total rate_pct :
  0 <= total <= MAX_MONEY → 0 <= rate_hundredths rate_pct →
  let '(taxable_value, gst_amount) := split_gst_inclusive total rate_pct in
  taxable_value = rhu (total * 10000) (10000 + rate_hundredths rate_pct) ∧
  taxable_value + gst_amount = total ∧ 0 <= taxable_value <= total.
Proof.
  intros Ht Hc. pose proof (split_taxable total rate_pct Ht Hc).
  pose proof (split_foots total rate_pct Ht Hc) as [? ?].
  by destruct (split_gst_inclusive total rate_pct).
Qed.

(** ** Issuing *)

Record invoices_ok d : Prop := {
  inv_foots : ∀ i inv, invoices d !! i = Some inv →
    foots (Invoice.total_inr inv) (Invoice.taxable_value_inr inv, Invoice.gst_amount_inr inv) ∧
    Invoice.amount_coins inv = Invoice.total_inr inv ∧ 0 <= Invoice.gst_rate_pct inv;
  inv_unique : ∀ i j x y, invoices d !! i = Some x → invoices d !! j = Some y →
    Invoice.session_id x = Invoice.session_id y ∨
    Invoice.invoice_number x = Invoice.invoice_number y → i = j;
  inv_ids : ∀ i, next_id d <= i → invoices d !! i = None }.

(** The invoice of a session, when it has one. *)
Lemma invoices_of_spec d sid :
  invoices_ok d →
  (invoices_of sid d = [] ∧ ∀ i inv, invoices d !! i = Some inv → Invoice.session_id inv ≠ sid) ∨
  (∃ i inv, invoices_of sid d = [(i, inv)] ∧ invoices d !! i = Some inv ∧
            Invoice.session_id inv = sid).
Proof.
  intros Hok. unfold invoices_of.
  destruct (select_unique (λ _ i, Invoice.session_id i =? sid) (invoices d)) as [Hn|(i & x & Hs & Hi & Hp)].
  - intros i j x y Hi Hj Hx%Z.eqb_eq Hy%Z.eqb_eq. apply (inv_unique d Hok i j x y Hi Hj). left. congruence.
  - left. split; [done|]. intros i inv Hi He.
    assert ((i, inv) ∈ select (λ _ i, Invoice.session_id i =? sid) (invoices d)) as Hin
      by (apply elem_of_select; split; [done | by apply Z.eqb_eq]).
    rewrite Hn in Hin. by apply not_elem_of_nil in Hin.
  - right. exists i, x. apply Z.eqb_eq in Hp. done.
Qed.

(** The database after a first issue. *)
Definition issued_db d (s : ChargingSession.t) inv : db :=
  d <| tenants ::= alter (λ t, t <| Tenant.next_invoice_seq ::= Z.succ |>) (ChargingSession.tenant_id s) |>
    <| invoices ::= <[next_id d := inv]> |> <| next_id ::= Z.succ |>.

(** What makes a session billable on an invoice, and the tenant that issues it. *)
Record issuable d (sid : Z) s t : Prop := {
  is_session : sessions d !! sid = Some s;
  is_finished : invoiceable s = true;
  is_billed : 0 < to_money_amount (ChargingSession.coins_spent s);
  is_tenant : tenants d !! ChargingSession.tenant_id s = Some t }.

Lemma wp_issue sid now Q w :
  com w = cur w → invoices_ok (cur w) →
  (∀ i inv, invoices (cur w) !! i = Some inv → Invoice.session_id inv = sid → Q (Ok (i, inv)) w) →
  (∀ e w', com w' = com w → Q (Raise e) w') →
  (∀ s t w', let inv := new_invoice sid s t now in
     issuable (cur w) sid s t →
     (∀ i x, invoices (cur w) !! i = Some x → clashes inv i x = false) →
     com w' = issued_db (cur w) s inv → Q (Ok (next_id (cur w), inv)) w') →
  wp (issue_invoice_for_session sid now) Q w.
Proof.
  intros Hcc Hok Hold HR Hnew. unfold issue_invoice_for_session, get_invoice_by_session.
  do 3 wp_step. destruct (invoices_of_spec (cur w) sid Hok) as [[Hn Hno]|(i & inv & Hn & Hi & Hs)];
    rewrite Hn; cbn [one_or_none]; do 2 wp_step; [|by apply wp_ret, Hold].
  unfold insert_invoice. wp_run; try (by apply HR); simpl in *; [congruence | ].
  eapply Hnew; [split; [done | by apply negb_false_iff | by apply Z.leb_gt | done] | | done].
  by apply exists_row_false.
Qed.

Lemma new_invoice_fields sid s t now :
  let inv := new_invoice sid s t now in
  Invoice.session_id inv = sid ∧
  Invoice.total_inr inv = to_money_amount (ChargingSession.coins_spent s) ∧
  Invoice.invoice_number inv = invoice_number_for (ChargingSession.tenant_id s) t now.
Proof. unfold new_invoice. by destruct (split_gst_inclusive _ _). Qed.

Lemma issued_db_ok d sid s t now :
  invoices_ok d → 0 <= rate_hundredths gst_rate_pct → issuable d sid s t →
  let inv := new_invoice sid s t now in
  (∀ i x, invoices d !! i = Some x → clashes inv i x = false) → invoices_ok (issued_db d s inv).
Proof.
  intros [Hf Hu Hi] Hr Hs inv Hno. pose proof (is_billed _ _ _ _ Hs) as Hpos.
  pose proof (to_money_range (PDec (dec_of_money (ChargingSession.coins_spent s)))) as [_ Hmax].
  fold (to_money_amount (ChargingSession.coins_spent s)) in Hmax.
  assert (Hinv : foots (Invoice.total_inr inv)
            (Invoice.taxable_value_inr inv, Invoice.gst_amount_inr inv) ∧
            Invoice.amount_coins inv = Invoice.total_inr inv ∧ 0 <= Invoice.gst_rate_pct inv).
  { pose proof (split_foots (to_money_amount (ChargingSession.coins_spent s)) gst_rate_pct
      ltac:(lia) Hr) as Hfoot.
    unfold inv, new_invoice. by destruct (split_gst_inclusive _ _). }
  assert (Hdiff : ∀ i x, invoices d !! i = Some x →
    Invoice.session_id inv ≠ Invoice.session_id x ∧
    Invoice.invoice_number inv ≠ Invoice.invoice_number x).
  { intros i x Hx. apply Hno in Hx. unfold clashes in Hx.
    apply orb_false_iff in Hx as [Hx1%Z.eqb_neq Hx2%bool_decide_eq_false]. split; congruence. }
  split; unfold issued_db; simpl.
  - intros i x [[<- <-]|[_ Hx]]%lookup_insert_Some; eauto.
  - intros i j x y [[<- <-]|[? Hx]]%lookup_insert_Some [[<- <-]|[? Hy]]%lookup_insert_Some; try done.
    + apply Hdiff in Hy as [? ?]. intros [?|?]; congruence.
    + apply Hdiff in Hx as [? ?]. intros [?|?]; congruence.
    + eauto.
  - intros i Hle. rewrite lookup_insert_ne by lia. apply Hi. lia.
Qed.

(** C36: issuing an invoice is correct and moves no money: it returns the one
    invoice of the session, which is either the one already there, nothing else
    changed, or a new one for a finished session that billed something: its total
    is what was collected, its parts foot to the total, its number carries the
    tenant's sequence, which advances by one; a refused or failed issue burns no
    number; numbers and sessions stay unique over all invoices. *)
Theorem issue_invoice_correct sid now w :
  com w = cur w → invoices_ok (cur w) → 0 <= rate_hundredths gst_rate_pct →
  let '(out, w') := run_request (issue_invoice_for_session sid now) w in
  invoices_ok (com w') ∧ users (com w') = users (cur w) ∧ ledger (com w') = ledger (cur w) ∧
  sessions (com w') = sessions (cur w) ∧
  match out with
  | Raise _ => com w' = com w
  | Ok (i, inv) =>
      invoices (com w') !! i = Some inv ∧ Invoice.session_id inv = sid ∧
      (com w' = com w ∨
       ∃ s t, issuable (cur w) sid s t ∧
         Invoice.total_inr inv = to_money_amount (ChargingSession.coins_spent s) ∧
         Invoice.invoice_number inv = invoice_number_for (ChargingSession.tenant_id s) t now ∧
         tenants (com w') !! ChargingSession.tenant_id s =
           Some (t <| Tenant.next_invoice_seq := Tenant.next_invoice_seq t + 1 |>))
  end.
Proof.
  intros Hcc Hok Hr. apply run_request_wp. apply wp_issue; [done | done | ..]; simpl.
  - intros i inv Hi Hs. rewrite Hcc. by auto 10.
  - intros e w' Hc. rewrite Hc, Hcc. by split_and!.
  - intros s t w' Hs Hno Hc. set (inv := new_invoice sid s t now) in *.
    rewrite Hc. split; [by eapply issued_db_ok|].
    destruct (new_invoice_fields sid s t now) as (? & ? & ?).
    unfold issued_db. simpl. rewrite lookup_insert_eq. split_and!; try done.
    right. exists s, t. by rewrite lookup_alter_eq, (is_tenant _ _ _ _ Hs).
Qed.
(** ** Adjusting *)

Lemma invoices_ok_frame d d' :
  invoices_ok d → invoices d' = invoices d → next_id d <= next_id d' → invoices_ok d'.
Proof.
  intros [Hf Hu Hi] He Hn. split; rewrite He; [done | done |]. intros i Hle. apply Hi. lia.
Qed.

(** The invoices once the session's one shows [new_total]. *)
Definition refund_invoice d sid (new_total : money) : gmap Z Invoice.t :=
  match invoices_of sid d with
  | [(i, inv)] => <[i := adjusted inv new_total]> (invoices d)
  | _ => invoices d
  end.

Lemma adjusted_fields inv new_total :
  Invoice.session_id (adjusted inv new_total) = Invoice.session_id inv ∧
  Invoice.invoice_number (adjusted inv new_total) = Invoice.invoice_number inv ∧
  Invoice.gst_rate_pct (adjusted inv new_total) = Invoice.gst_rate_pct inv ∧
  Invoice.total_inr (adjusted inv new_total) = new_total ∧
  Invoice.amount_coins (adjusted inv new_total) = new_total ∧
  (Invoice.taxable_value_inr (adjusted inv new_total), Invoice.gst_amount_inr (adjusted inv new_total))
    = split_gst_inclusive new_total (dec_of_money (Invoice.gst_rate_pct inv)).
Proof. unfold adjusted. by destruct (split_gst_inclusive _ _). Qed.

Lemma refund_invoice_ok d d' sid new_total :
  invoices_ok d → 0 <= new_total <= MAX_MONEY →
  invoices d' = refund_invoice d sid new_total → next_id d <= next_id d' →
  invoices_ok d' ∧
  ∀ i inv, invoices d' !! i = Some inv → Invoice.session_id inv = sid →
           Invoice.total_inr inv = new_total.
Proof.
  intros Hok Ht He Hn. unfold refund_invoice in He.
  destruct (invoices_of_spec d sid Hok) as [[E Hno]|(k & inv & E & Hk & Hs)]; rewrite E in He.
  { split; [by apply (invoices_ok_frame d) | rewrite He; intros i x Hx Hsx; by destruct (Hno i x Hx)]. }
  destruct (adjusted_fields inv new_total) as (Hs' & Hn' & Hr' & Ht' & Ha' & Hsplit).
  destruct Hok as [Hf Hu Hi]. split; [split|]; rewrite He.
  - intros i x [[<- <-]|[_ Hx]]%lookup_insert_Some; [|by eapply Hf].
    rewrite Hsplit, Ht', Ha', Hr'. destruct (Hf k inv Hk) as (_ & _ & Hr).
    split; [|done]. apply split_foots; [done|].
    unfold rate_hundredths. fold (to_money_amount (Invoice.gst_rate_pct inv)).
    rewrite to_money_amount_clamp. unfold clamp, MAX_MONEY. lia.
  - intros i j x y [[<- <-]|[? Hx]]%lookup_insert_Some [[<- <-]|[? Hy]]%lookup_insert_Some; try done;
      rewrite ?Hs', ?Hn'; by eapply Hu.
  - intros i Hle. rewrite lookup_insert_ne; [apply Hi; lia|].
    intros <-. rewrite Hi in Hk by lia. done.
  - intros i x [[<- <-]|[Hne Hx]]%lookup_insert_Some Hsx; [done|]. exfalso. apply Hne.
    eapply Hu; [done.. | left; congruence].
Qed.

Lemma wp_adjust sid spent cumulative Q w :
  invoices_ok (cur w) →
  (∀ o, Q (Ok o) (w <| cur ::= (λ d, d <| invoices ::= (λ _, refund_invoice (cur w) sid
     (to_money_amount (Z.max (to_money_amount spent - to_money_amount cumulative) ZERO_MONEY))) |>) |>)) →
  wp (adjust_invoice_for_session_refund sid spent cumulative) Q w.
Proof.
  intros Hok HQ. unfold adjust_invoice_for_session_refund, get_invoice_by_session.
  unfold refund_invoice in HQ. do 3 wp_step.
  destruct (invoices_of_spec (cur w) sid Hok) as [[E _]|(i & inv & E & _)]; rewrite E in *;
    cbn [one_or_none]; wp_run.
  - specialize (HQ None). by destruct w as [[] ? ? ?].
  - apply HQ.
Qed.
End Invoices.
