(* ===== verification/Payouts.v ===== *)
(** * services/payouts.py and routers/cpo/_payouts.py

    A tenant's unsettled earnings are the finished sessions no payout has
    claimed; a payout request claims them all in one statement.  Refunds and
    offline top-ups are windowed by the tenant's settlement watermark. *)

From S2P Require Import Prelude Rounding PyNum Money Models Config TelemetryStore World Hoare.
From S2P Require Import Billing Wallet.

Section Payouts.
Context `{cfg : Config}.
Implicit Types (d : db) (now tid : Z) (p : Payout.t) (s : ChargingSession.t).

Definition EPOCH : datetime := 0.

Definition platform_fee_pct : dec :=
  match PLATFORM_FEE_PCT with Number d => d | _ => mkdec 100 (-1) end.

Definition compute_fee_and_net (gross : money) : money * money :=
  let gross := to_money_amount gross in
  let fee := to_money (PDec (ddiv (dmul (dec_of_money gross) platform_fee_pct) (mkdec 100 0))) in
  (fee, to_money_amount (gross - fee)).

(** [FINISHED_SESSION_STATUSES] *)
Definition finished s : bool :=
  bool_decide (ChargingSession.status s = COMPLETED) ||
  bool_decide (ChargingSession.status s = PAID).

(** A half-open window, either bound optional; NULL is in no window. *)
Definition in_window (window_start window_end : option datetime) (at_ : option datetime) : bool :=
  match at_ with
  | None => match window_start, window_end with None, None => true | _, _ => false end
  | Some t =>
      match window_start with None => true | Some a => a <=? t end &&
      match window_end with None => true | Some b => t <? b end
  end.

(** [SUM(refund_coins)] of the approved disputes of the tenant's sessions. *)
Definition refund_of d tid window_start window_end (x : SessionDispute.t) : money :=
  match sessions d !! SessionDispute.session_id x with
  | None => 0
  | Some s =>
      if (ChargingSession.tenant_id s =? tid) && finished s &&
         bool_decide (SessionDispute.status x = D_APPROVED) &&
         in_window window_start window_end (SessionDispute.resolved_at x)
      then default 0 (SessionDispute.refund_coins x) else 0
  end.

Definition sum_approved_refund_coins d tid window_start window_end : money :=
  to_money_amount (msum (refund_of d tid window_start window_end) (disputes d)).

Definition earned tid s : bool := (ChargingSession.tenant_id s =? tid) && finished s.

Definition sum_completed_session_coins d tid window_start window_end : money :=
  let gross := to_money_amount (msum (λ s,
    if earned tid s && in_window window_start window_end (ChargingSession.ended_at s)
    then ChargingSession.coins_spent s else 0) (sessions d)) in
  to_money_amount (Z.max (gross - sum_approved_refund_coins d tid window_start window_end) ZERO_MONEY).

Definition unsettled tid s : bool :=
  earned tid s && bool_decide (ChargingSession.settled_payout_id s = None).

Definition unsettled_coins d tid : money :=
  msum (λ s, if unsettled tid s then ChargingSession.coins_spent s else 0) (sessions d).

(** [MAX(period_end)] over the tenant's payouts that are not cancelled. *)
Definition effective tid p : bool :=
  (Payout.tenant_id p =? tid) && negb (bool_decide (Payout.status p = P_CANCELLED)).

Definition tenant_settlement_watermark d tid : datetime :=
  match map (λ r, Payout.period_end r.2) (select (λ _ p, effective tid p) (payouts d)) with
  | [] => EPOCH
  | e :: l => foldl Z.max e l
  end.

Definition sum_unsettled_session_coins d tid now : money :=
  let watermark := tenant_settlement_watermark d tid in
  let gross := to_money_amount (unsettled_coins d tid) in
  to_money_amount
    (Z.max (gross - sum_approved_refund_coins d tid (Some watermark) (Some now)) ZERO_MONEY).

(** One [UPDATE ... RETURNING]: the rows claimed are the rows summed. *)
Definition mark_unsettled_sessions_and_sum_gross tid (payout_id : Z)
    (refund_window_start refund_window_end : datetime) : M money :=
  claimed ← query (λ d, unsettled_coins d tid);
  modify (λ d, d <| sessions ::= update_where (unsettled tid)
      (λ s, s <| ChargingSession.settled_payout_id := Some payout_id |>) |>);;
  refunds ← query (λ d, sum_approved_refund_coins d tid (Some refund_window_start)
                          (Some refund_window_end));
  mret (to_money_amount (Z.max (to_money_amount claimed - refunds) ZERO_MONEY)).

Definition topup_of tid window_start window_end (x : OfflineTopup.t) : money :=
  if (OfflineTopup.tenant_id x =? tid) &&
     in_window window_start window_end (Some (OfflineTopup.created_at x))
  then OfflineTopup.amount_coins x else 0.

Definition sum_offline_topups d tid window_start window_end : money :=
  to_money_amount (msum (topup_of tid window_start window_end) (topups d)).

Record earnings_summary := mksummary {
  watermark : datetime;
  as_of : datetime;
  lifetime_gross_coins : money;
  lifetime_platform_fee_coins : money;
  lifetime_net_coins : money;
  unsettled_gross_coins : money;
  unsettled_platform_fee_coins : money;
  unsettled_net_coins : money;
  topups_since_watermark_coins : money;
  available_pool_coins : money }.

Definition tenant_earnings_summary d tid now : earnings_summary :=
  let wm := tenant_settlement_watermark d tid in
  let lifetime_gross := sum_completed_session_coins d tid None None in
  let '(lifetime_fee, lifetime_net) := compute_fee_and_net lifetime_gross in
  let unsettled_gross := sum_unsettled_session_coins d tid now in
  let '(unsettled_fee, unsettled_net) := compute_fee_and_net unsettled_gross in
  let topups := sum_offline_topups d tid (Some wm) (Some now) in
  mksummary wm now lifetime_gross lifetime_fee lifetime_net
    unsettled_gross unsettled_fee unsettled_net topups
    (to_money_amount (Z.max (unsettled_net - topups) ZERO_MONEY)).

(** ** The routes *)

(** [_require_tenant_id]; the audit rows of the routes are not modelled. *)
Definition require_tenant_id (user : User.t) : M Z :=
  or_raise (User.tenant_id user) 400 "You are not associated with a tenant.".

Definition cpo_earnings (user : User.t) now : M earnings_summary :=
  tid ← require_tenant_id user;
  query (λ d, tenant_earnings_summary d tid now).

Definition set_payout (pid : Z) (f : Payout.t → Payout.t) : M unit :=
  modify (λ d, d <| payouts ::= alter f pid |>).

Definition cpo_request_payout (uid : Z) (user : User.t) now : M Z :=
  tid ← require_tenant_id user;
  tenant ← query (λ d, tenants d !! tid);
  _ ← or_raise tenant 404 "Tenant not found.";
  pending ← query (λ d, select (λ _ p, (Payout.tenant_id p =? tid) &&
                bool_decide (Payout.status p = P_REQUESTED)) (payouts d));
  existing ← one_or_none pending;
  refuse (bool_decide (is_Some existing)) 409 "already pending";;
  watermark ← query (λ d, tenant_settlement_watermark d tid);
  pid ← fresh;
  modify (λ d, d <| payouts ::= <[pid := Payout.mk tid watermark now ZERO_MONEY ZERO_MONEY ZERO_MONEY
                                    P_REQUESTED uid now None None]> |>);;
  gross ← mark_unsettled_sessions_and_sum_gross tid pid watermark now;
  let '(fee, net) := compute_fee_and_net gross in
  topups ← query (λ d, sum_offline_topups d tid (Some watermark) (Some now));
  let payable_net := to_money_amount (Z.max (net - topups) ZERO_MONEY) in
  if payable_net <=? ZERO_MONEY
  then rollback;; raise (HTTPException 400 "No unsettled earnings to pay out.")
  else
    set_payout pid (λ p, p <| Payout.gross_coins := gross |>
                           <| Payout.platform_fee_coins := fee |>
                           <| Payout.net_coins := payable_net |>);;
    commit;;
    mret pid.

Definition clamp_list_window (limit offset : Z) : Z * Z :=
  (Z.max 1 (Z.min limit 1000), Z.max 0 offset).

(** [ORDER BY requested_at DESC, id DESC LIMIT ... OFFSET ...]. *)
Definition cpo_list_payouts (user : User.t) (limit offset : Z) : M (list (Z * Payout.t)) :=
  tid ← require_tenant_id user;
  let '(limit, offset) := clamp_list_window limit offset in
  query (λ d, take (Z.to_nat limit) (drop (Z.to_nat offset)
    (order_by2 (λ r, - Payout.requested_at r.2) (λ r, - r.1)
       (select (λ _ p, Payout.tenant_id p =? tid) (payouts d))))).

Definition cpo_mark_payout_paid (payout_id now : Z) : M Payout.t :=
  payout ← query (λ d, payouts d !! payout_id);
  p ← or_raise payout 404 "Payout not found.";
  refuse (negb (bool_decide (Payout.status p = P_REQUESTED))) 409 "not requested";;
  set_payout payout_id (λ p, p <| Payout.status := P_PAID |> <| Payout.paid_at := Some now |>);;
  commit;;
  mret (p <| Payout.status := P_PAID |> <| Payout.paid_at := Some now |>).

Definition cpo_cancel_payout (user : User.t) (payout_id : Z) : M Payout.t :=
  payout ← query (λ d, payouts d !! payout_id);
  p ← or_raise payout 404 "Payout not found.";
  refuse (negb (bool_decide (User.role user = ADMIN)) &&
          negb (bool_decide (User.tenant_id user = Some (Payout.tenant_id p))))
    404 "Payout not found.";;
  refuse (negb (bool_decide (Payout.status p = P_REQUESTED))) 409 "not requested";;
  modify (λ d, d <| sessions ::=
    update_where (λ s, bool_decide (ChargingSession.settled_payout_id s = Some payout_id))
      (λ s, s <| ChargingSession.settled_payout_id := None |>) |>);;
  set_payout payout_id (λ p, p <| Payout.status := P_CANCELLED |>);;
  commit;;
  mret (p <| Payout.status := P_CANCELLED |>).

(** ** The platform's fee *)

(** A percentage between 0 and 100. *)
Definition percent_ok (pct : dec) : Prop :=
  0 <= dcoef pct ∧ dcoef pct * 10 ^ Z.max 0 (dexp pct) <= 100 * 10 ^ Z.max 0 (- dexp pct).

Lemma fee_value gross :
  0 <= gross <= MAX_MONEY → percent_ok platform_fee_pct →
  0 <= (compute_fee_and_net gross).1 <= gross.
Proof.
  intros Hg [Hc Hle]. unfold compute_fee_and_net. cbv zeta. cbn [fst].
  rewrite to_money_amount_ok by (unfold money_ok, MAX_MONEY in *; lia).
  set (c := dcoef platform_fee_pct) in *. set (e := dexp platform_fee_pct) in *.
  set (r := rnd 10 28 dec_digits (gross * c) 1).
  assert (Hprod : dmul (dec_of_money gross) platform_fee_pct = mkdec r (-2 + e)) by done.
  rewrite Hprod. unfold ddiv. simpl dcoef. simpl dexp.
  change (dec_digits 100 + 28) with 31. rewrite (drnd_eq _ 100 (r * 10 ^ 29) 1) by lia.
  rewrite (rnd_shift 10 28 dec_digits ltac:(lia) ltac:(lia) dec_digits_count) by lia.
  assert (Hr : rnd 10 28 dec_digits r 1 = r)
    by apply (rnd_representable 10 28 dec_digits ltac:(lia) ltac:(lia) dec_digits_count _ 1 ltac:(lia)).
  rewrite Hr. set (k := Z.max 33 (33 - e)). unfold to_money.
  rewrite (to_money_dec_scaled k) by (simpl; lia). unfold dval. simpl dcoef. simpl dexp.
  rewrite <- Z.mul_assoc, <- Z.pow_add_r by lia.
  set (m := e + k - 4).
  replace (29 + (-2 + e - 0 - 31 + k)) with m by (unfold m; lia).
  assert (Hm : 0 <= m) by (unfold m, k; lia).
  pose proof (pow10_pos m Hm) as Hpm. pose proof (pow10_pos (k - 2) ltac:(lia)) as Hpk.
  assert (Hr0 : 0 <= r) by (apply (rnd_nonneg 10 28 dec_digits ltac:(lia)); nia).
  assert (Hcm : c * 10 ^ m <= 10 ^ (k - 2)).
  { unfold m. destruct (Z.le_gt_cases 0 e).
    - rewrite !Z.max_r, Z.max_l in Hle by lia.
      replace (e + k - 4) with (e + (k - 4)) by lia. rewrite Z.pow_add_r by lia.
      replace (k - 2) with (2 + (k - 4)) by lia. rewrite (Z.pow_add_r 10 2) by lia.
      pose proof (pow10_pos (k - 4) ltac:(lia)). nia.
    - rewrite Z.max_l, Z.max_r in Hle by lia.
      replace (k - 2) with (2 + - e + m) by (unfold m; lia). unfold m in *.
      rewrite !Z.pow_add_r in * by lia. nia. }
  assert (Hup : r * 10 ^ m <= gross * 10 ^ (k - 2)).
  { unfold r.
    rewrite <- (rnd_shift 10 28 dec_digits ltac:(lia) ltac:(lia) dec_digits_count) by done.
    rewrite <- (drnd_shifted gross (k - 2) 1) by (unfold MAX_MONEY in *; lia).
    apply (rnd_mono 10 28 dec_digits ltac:(lia) ltac:(lia) dec_digits_count); nia. }
  assert (0 <= rhu (r * 10 ^ m) (10 ^ (k - 2))) by (apply rhu_nonneg; nia).
  assert (rhu (r * 10 ^ m) (10 ^ (k - 2)) <= gross)
    by (rewrite <- (rhu_exact gross (10 ^ (k - 2))) by done; by apply rhu_mono).
  unfold clamp, MAX_MONEY in *. lia.
Qed.

Lemma fee_and_net_foot gross :
  0 <= gross <= MAX_MONEY → percent_ok platform_fee_pct →
  let '(fee, net) := compute_fee_and_net gross in fee + net = gross ∧ 0 <= fee ∧ 0 <= net.
Proof.
  intros Hg Hp. pose proof (fee_value gross Hg Hp) as Hf.
  change (compute_fee_and_net gross).2
    with (to_money_amount (to_money_amount gross - (compute_fee_and_net gross).1)) in *.
  rewrite (surjective_pairing (compute_fee_and_net gross)).
  change (compute_fee_and_net gross).2
    with (to_money_amount (to_money_amount gross - (compute_fee_and_net gross).1)).
  rewrite (to_money_amount_ok gross) by (unfold money_ok, MAX_MONEY in *; lia).
  rewrite to_money_amount_ok by (unfold money_ok, MAX_MONEY in *; lia). lia.
Qed.

(** ** The books of the payouts *)

(** What a payout has claimed. *)
Definition claimed d (pid : Z) : money :=
  msum (λ s, if bool_decide (ChargingSession.settled_payout_id s = Some pid)
             then ChargingSession.coins_spent s else 0) (sessions d).

(** The payout's figures, recomputed from the rows it settled. *)
Definition accounts d (pid : Z) p : Prop :=
  let from := Some (Payout.period_start p) in
  let till := Some (Payout.period_end p) in
  let tid := Payout.tenant_id p in
  Payout.gross_coins p = to_money_amount (Z.max (to_money_amount (claimed d pid) -
                           sum_approved_refund_coins d tid from till) ZERO_MONEY) ∧
  Payout.platform_fee_coins p = (compute_fee_and_net (Payout.gross_coins p)).1 ∧
  Payout.net_coins p = to_money_amount (Z.max ((compute_fee_and_net (Payout.gross_coins p)).2 -
                         sum_offline_topups d tid from till) ZERO_MONEY) ∧
  0 < Payout.net_coins p.

Definition live p : bool := negb (bool_decide (Payout.status p = P_CANCELLED)).

(** Sessions are settled by at most one payout, which is live and of their
    tenant; live payouts add up; their windows are disjoint. *)
Record payouts_ok d : Prop := {
  po_settled : ∀ sid s pid, sessions d !! sid = Some s →
    ChargingSession.settled_payout_id s = Some pid →
    finished s = true ∧ ∃ p, payouts d !! pid = Some p ∧ live p = true ∧
      Payout.tenant_id p = ChargingSession.tenant_id s;
  po_accounts : ∀ pid p, payouts d !! pid = Some p → live p = true → accounts d pid p;
  po_windows : ∀ i j p q, payouts d !! i = Some p → payouts d !! j = Some q → i ≠ j →
    live p = true → live q = true → Payout.tenant_id p = Payout.tenant_id q →
    Payout.period_end p <= Payout.period_start q ∨ Payout.period_end q <= Payout.period_start p;
  po_ids : ∀ i, next_id d <= i → payouts d !! i = None }.

Lemma watermark_bound d tid pid p :
  payouts d !! pid = Some p → live p = true → Payout.tenant_id p = tid →
  Payout.period_end p <= tenant_settlement_watermark d tid.
Proof.
  intros Hp Hl Ht. unfold tenant_settlement_watermark.
  assert (Hin : Payout.period_end p ∈
    map (λ r, Payout.period_end r.2) (select (λ _ p, effective tid p) (payouts d))).
  { apply list_elem_of_fmap. exists (pid, p). split; [done|]. apply elem_of_select.
    split; [done|]. unfold effective. rewrite Ht, Z.eqb_refl. apply Hl. }
  destruct (map _ _) as [|e l]; [by apply not_elem_of_nil in Hin|].
  apply elem_of_cons in Hin as [->|Hin];
    [apply (proj1 (foldl_max_ge l e)) | by apply (proj2 (foldl_max_ge l e))].
Qed.

(** ** Requesting a payout *)

Definition claim_row tid (pid : Z) s : ChargingSession.t :=
  if unsettled tid s then s <| ChargingSession.settled_payout_id := Some pid |> else s.

(** The database after a request. *)
Definition requested_db d tid (p : Payout.t) : db :=
  d <| sessions ::= fmap (claim_row tid (next_id d)) |>
    <| payouts ::= <[next_id d := p]> |> <| next_id ::= Z.succ |>.

Lemma refunds_frame d d' tid a b :
  disputes d' = disputes d →
  (∀ sid, (λ s, (ChargingSession.tenant_id s, ChargingSession.status s)) <$> sessions d' !! sid =
          (λ s, (ChargingSession.tenant_id s, ChargingSession.status s)) <$> sessions d !! sid) →
  sum_approved_refund_coins d' tid a b = sum_approved_refund_coins d tid a b.
Proof.
  intros Hd Hs. unfold sum_approved_refund_coins. rewrite Hd. f_equal. apply msum_ext.
  intros i x _. unfold refund_of, finished. specialize (Hs (SessionDispute.session_id x)).
  destruct (sessions d' !! _) as [s'|], (sessions d !! _) as [s|]; simplify_eq/=; [|done].
  by rewrite H, H0.
Qed.

(** An account is about the sessions the payout claimed, the refunds and the
    top-ups. *)
Lemma accounts_frame d d' pid p :
  accounts d pid p → claimed d' pid = claimed d pid →
  sum_approved_refund_coins d' (Payout.tenant_id p) (Some (Payout.period_start p)) (Some (Payout.period_end p)) =
  sum_approved_refund_coins d (Payout.tenant_id p) (Some (Payout.period_start p)) (Some (Payout.period_end p)) →
  sum_offline_topups d' (Payout.tenant_id p) (Some (Payout.period_start p)) (Some (Payout.period_end p)) =
  sum_offline_topups d (Payout.tenant_id p) (Some (Payout.period_start p)) (Some (Payout.period_end p)) →
  accounts d' pid p.
Proof. unfold accounts. by intros H -> -> ->. Qed.

Lemma claim_row_keeps tid pid s :
  ChargingSession.tenant_id (claim_row tid pid s) = ChargingSession.tenant_id s ∧
  ChargingSession.status (claim_row tid pid s) = ChargingSession.status s ∧
  ChargingSession.coins_spent (claim_row tid pid s) = ChargingSession.coins_spent s ∧
  ChargingSession.settled_payout_id (claim_row tid pid s) =
    if unsettled tid s then Some pid else ChargingSession.settled_payout_id s.
Proof. unfold claim_row. by destruct (unsettled tid s). Qed.

Lemma unsettled_spec tid s :
  unsettled tid s = true ↔ ChargingSession.tenant_id s = tid ∧ finished s = true ∧
    ChargingSession.settled_payout_id s = None.
Proof.
  unfold unsettled, earned. rewrite !andb_true_iff, Z.eqb_eq, bool_decide_eq_true. tauto.
Qed.

(** Claiming gives a new payout the unsettled coins and takes nothing from the
    others. *)
Lemma claimed_request d d' tid pid q :
  payouts_ok d → payouts d !! pid = None → sessions d' = claim_row tid pid <$> sessions d →
  claimed d' q = if decide (q = pid) then unsettled_coins d tid else claimed d q.
Proof.
  intros Hok Hpid Hs. unfold claimed, unsettled_coins. rewrite Hs, msum_fmap.
  destruct (decide (q = pid)) as [->|Hq]; apply msum_ext; intros i s Hi;
    destruct (claim_row_keeps tid pid s) as (_ & _ & -> & ->);
    destruct (unsettled tid s) eqn:Hu; try done.
  - by rewrite bool_decide_eq_true_2.
  - rewrite bool_decide_eq_false_2; [done|]. intros Hp.
    destruct (po_settled d Hok i s pid Hi Hp) as (_ & p & Hp' & _). congruence.
  - apply unsettled_spec in Hu as (_ & _ & ->).
    rewrite !bool_decide_eq_false_2; congruence.
Qed.

Lemma claim_refunds d d' tid pid tid' a b :
  disputes d' = disputes d → sessions d' = claim_row tid pid <$> sessions d →
  sum_approved_refund_coins d' tid' a b = sum_approved_refund_coins d tid' a b.
Proof.
  intros Hd Hs. apply refunds_frame; [done|]. intros sid. rewrite Hs, lookup_fmap.
  destruct (sessions d !! sid) as [s|]; [|done]. simpl.
  by destruct (claim_row_keeps tid pid s) as (-> & -> & _).
Qed.

(** The unsettled earnings, refunds of the window taken off. *)
Definition gross_of d tid (from till : datetime) : money :=
  to_money_amount (Z.max (to_money_amount (unsettled_coins d tid) -
    sum_approved_refund_coins d tid (Some from) (Some till)) ZERO_MONEY).

Lemma wp_mark tid pid from till Q w :
  Q (Ok (gross_of (cur w) tid from till))
    (w <| cur ::= (λ d, d <| sessions ::= fmap (claim_row tid pid) |>) |>) →
  wp (mark_unsettled_sessions_and_sum_gross tid pid from till) Q w.
Proof.
  intros HQ. unfold mark_unsettled_sessions_and_sum_gross. wp_run.
  by erewrite (claim_refunds (cur w)).
Qed.

(** The payout a request creates. *)
Definition requested_payout d tid (uid now : Z) : Payout.t :=
  let wm := tenant_settlement_watermark d tid in
  let gross := gross_of d tid wm now in
  let '(fee, net) := compute_fee_and_net gross in
  Payout.mk tid wm now gross fee
    (to_money_amount (Z.max (net - sum_offline_topups d tid (Some wm) (Some now)) ZERO_MONEY))
    P_REQUESTED uid now None None.

Lemma wp_request uid user now Q w :
  com w = cur w →
  (∀ e w', com w' = com w → Q (Raise e) w') →
  (∀ tid w',
     User.tenant_id user = Some tid →
     0 < Payout.net_coins (requested_payout (cur w) tid uid now) →
     com w' = requested_db (cur w) tid (requested_payout (cur w) tid uid now) →
     Q (Ok (next_id (cur w))) w') →
  wp (cpo_request_payout uid user now) Q w.
Proof.
  intros Hcc HR HS. unfold cpo_request_payout, require_tenant_id, set_payout.
  wp_run ltac:(apply wp_mark); try (by apply HR);
    try (by rewrite bool_decide_eq_true_2 in * by eauto).
  all: change (gross_of _ ?t ?a ?b) with (gross_of (cur w) t a b) in *.
  all: change (sum_offline_topups _ ?t ?a ?b) with (sum_offline_topups (cur w) t a b) in *.
  assert (Hp : requested_payout (cur w) a uid now = Payout.mk a (tenant_settlement_watermark (cur w) a)
    now (gross_of (cur w) a (tenant_settlement_watermark (cur w) a) now) m
    (to_money_amount (Z.max (m0 - sum_offline_topups (cur w) a
       (Some (tenant_settlement_watermark (cur w) a)) (Some now)) ZERO_MONEY))
    P_REQUESTED uid now None None).
  { unfold requested_payout. by rewrite Heqp. }
  apply (HS a); [done | rewrite Hp; cbn [Payout.net_coins]; by apply Z.leb_gt | rewrite Hp].
  clear. revert m m0. generalize (gross_of (cur w) a (tenant_settlement_watermark (cur w) a) now).
  intros gross m m0. generalize (to_money_amount (Z.max (m0 - sum_offline_topups (cur w) a
    (Some (tenant_settlement_watermark (cur w) a)) (Some now)) ZERO_MONEY)). intros net.
  unfold requested_db. simpl. by rewrite alter_insert_eq.
Qed.

Lemma requested_fields d tid uid now :
  let p := requested_payout d tid uid now in
  Payout.tenant_id p = tid ∧ Payout.period_start p = tenant_settlement_watermark d tid ∧
  Payout.period_end p = now ∧ Payout.status p = P_REQUESTED ∧
  Payout.gross_coins p = gross_of d tid (tenant_settlement_watermark d tid) now ∧
  Payout.platform_fee_coins p = (compute_fee_and_net (Payout.gross_coins p)).1 ∧
  Payout.net_coins p = to_money_amount (Z.max ((compute_fee_and_net (Payout.gross_coins p)).2 -
    sum_offline_topups d tid (Some (tenant_settlement_watermark d tid)) (Some now)) ZERO_MONEY).
Proof.
  unfold requested_payout. cbv zeta.
  generalize (gross_of d tid (tenant_settlement_watermark d tid) now). intros g.
  destruct (compute_fee_and_net g) as [fee net] eqn:E.
  cbn [Payout.tenant_id Payout.period_start Payout.period_end Payout.status Payout.gross_coins
    Payout.platform_fee_coins Payout.net_coins]. by rewrite E.
Qed.

Lemma requested_ok d tid uid now :
  payouts_ok d → let p := requested_payout d tid uid now in
  0 < Payout.net_coins p → payouts_ok (requested_db d tid p).
Proof.
  intros Hok p Hnet. destruct (requested_fields d tid uid now) as (Ht & Hps & Hpe & Hst & Hg & Hf & Hn).
  fold p in Ht, Hps, Hpe, Hst, Hg, Hf, Hn. set (d' := requested_db d tid p).
  assert (Hfresh : payouts d !! next_id d = None) by (apply (po_ids d Hok); lia).
  assert (Hlive : live p = true) by (unfold live; by rewrite Hst).
  assert (Hclaimed := λ q, claimed_request d d' tid (next_id d) q Hok Hfresh eq_refl).
  assert (Href := λ t a b, claim_refunds d d' tid (next_id d) t a b eq_refl eq_refl).
  split.
  - intros sid s pid. unfold d', requested_db. simpl. rewrite lookup_fmap.
    intros (s0 & Hs0 & ->)%fmap_Some. destruct (claim_row_keeps tid (next_id d) s0) as (-> & Hst' & _ & ->).
    assert (finished (claim_row tid (next_id d) s0) = finished s0) as -> by (unfold finished; by rewrite Hst').
    destruct (unsettled tid s0) eqn:Hu.
    + intros [= <-]. apply unsettled_spec in Hu as (<- & Hfin & _). split; [done|].
      exists p. by rewrite lookup_insert_eq.
    + intros Hp. destruct (po_settled d Hok sid s0 pid Hs0 Hp) as (Hfin & q & Hq & Hlq & Htq).
      split; [done|]. exists q. rewrite lookup_insert_ne; [done | congruence].
  - intros pid q. unfold d', requested_db. simpl. intros [[<- <-]|[Hne Hq]]%lookup_insert_Some Hl.
    + unfold accounts. fold d'. rewrite Hclaimed, decide_True, Href, Hps, Hpe, Ht by done. by split_and!.
    + eapply accounts_frame; [by apply (po_accounts d Hok) | | apply Href | done].
      fold d'. rewrite Hclaimed. rewrite decide_False; done.
  - intros i j q1 q2. unfold d', requested_db. simpl.
    assert (Hnew : ∀ k q, payouts d !! k = Some q → live q = true → Payout.tenant_id q = tid →
              Payout.period_end q <= Payout.period_start p).
    { intros k q Hq Hlq Htq. rewrite Hps. by eapply watermark_bound. }
    intros [[<- <-]|[? H1]]%lookup_insert_Some [[<- <-]|[? H2]]%lookup_insert_Some Hij Hl1 Hl2 Hteq;
      [done | right; apply (Hnew j); congruence | left; apply (Hnew i); congruence |
       by apply (po_windows d Hok i j)].
  - unfold d', requested_db. simpl. intros i Hi. rewrite lookup_insert_ne by lia.
    apply (po_ids d Hok). lia.
Qed.

Lemma unsettled_claim d d' tid pid :
  sessions d' = claim_row tid pid <$> sessions d → unsettled_coins d' tid = 0.
Proof.
  intros Hs. unfold unsettled_coins. rewrite Hs, msum_fmap.
  transitivity (msum (λ _, 0) (sessions d)).
  - apply msum_ext. intros i s _. destruct (unsettled tid (claim_row tid pid s)) eqn:Hu; [|done].
    apply unsettled_spec in Hu as (Ht & Hf & Hn).
    destruct (claim_row_keeps tid pid s) as (Ht' & Hst' & _ & Hs').
    rewrite Hs' in Hn. destruct (unsettled tid s) eqn:Hu; [done|].
    assert (unsettled tid s = true); [|congruence]. apply unsettled_spec.
    unfold finished in *. rewrite Hst' in Hf. by rewrite Ht' in Ht.
  - clear. induction (sessions d) as [|i x m Hi _ IH] using map_first_key_ind;
      [apply msum_empty | by rewrite msum_insert_None].
Qed.

(** C32: a payout request settles every unsettled session exactly once: when it
    succeeds, one new REQUESTED payout has claimed all the tenant's finished
    sessions no payout held, nothing is left unsettled, and its figures are
    those of the dashboard's preview: claimed coins less the refunds of its
    window, the platform's fee, the net less the top-ups already issued, which
    is positive.  No session changes hands between payouts, no wallet and no
    ledger row is touched, and a refusal leaves the database as it was. *)
Theorem request_payout_settles uid user now w :
  com w = cur w → payouts_ok (cur w) →
  let '(out, w') := run_request (cpo_request_payout uid user now) w in
  payouts_ok (com w') ∧ users (com w') = users (cur w) ∧ ledger (com w') = ledger (cur w) ∧
  match out with
  | Raise _ => com w' = com w
  | Ok pid => ∃ tid p, User.tenant_id user = Some tid ∧
      payouts (cur w) !! pid = None ∧ payouts (com w') !! pid = Some p ∧
      Payout.tenant_id p = tid ∧ Payout.status p = P_REQUESTED ∧
      claimed (com w') pid = unsettled_coins (cur w) tid ∧ unsettled_coins (com w') tid = 0 ∧
      (∀ q, q ≠ pid → claimed (com w') q = claimed (cur w) q) ∧
      let preview := tenant_earnings_summary (cur w) tid now in
      Payout.gross_coins p = unsettled_gross_coins preview ∧
      Payout.platform_fee_coins p = unsettled_platform_fee_coins preview ∧
      Payout.net_coins p = available_pool_coins preview ∧ 0 < Payout.net_coins p
  end.
Proof.
  intros Hcc Hok. apply run_request_wp. apply wp_request; [done | intros e w' Hc |].
  { cbn [com set_with]. simpl com. rewrite Hc, Hcc. by split_and!. }
  intros tid w' Ht Hnet Hc. change (com (w' <| cur := com w' |>)) with (com w'). rewrite Hc.
  split_and!; [by apply requested_ok | done | done |].
  destruct (requested_fields (cur w) tid uid now) as (Htid & _ & _ & Hst & Hg & Hf & Hn).
  assert (Hfresh : payouts (cur w) !! next_id (cur w) = None) by (apply (po_ids _ Hok); lia).
  assert (Hcl := λ q, claimed_request (cur w)
    (requested_db (cur w) tid (requested_payout (cur w) tid uid now)) tid _ q Hok Hfresh eq_refl).
  eexists tid, _. split; [done|]. split; [done|]. split; [apply lookup_insert_eq|].
  split; [done|]. split; [done|]. rewrite Hcl, decide_True by done. split; [done|].
  split; [by eapply unsettled_claim|]. split.
  { intros q Hq. by rewrite Hcl, decide_False. }
  rewrite Hn, Hf, Hg. unfold tenant_earnings_summary.
  change (sum_unsettled_session_coins (cur w) tid now)
    with (gross_of (cur w) tid (tenant_settlement_watermark (cur w) tid) now).
  rewrite Hn, Hg in Hnet. revert Hnet.
  destruct (compute_fee_and_net (sum_completed_session_coins (cur w) tid None None)).
  destruct (compute_fee_and_net (gross_of (cur w) tid _ now)). intros Hnet. done.
Qed.

(** ** Cancelling and paying *)

Definition free_row (pid : Z) s : ChargingSession.t :=
  if bool_decide (ChargingSession.settled_payout_id s = Some pid)
  then s <| ChargingSession.settled_payout_id := None |> else s.

Definition cancelled_db d (pid : Z) : db :=
  d <| sessions ::= fmap (free_row pid) |>
    <| payouts ::= alter (λ p, p <| Payout.status := P_CANCELLED |>) pid |>.

Lemma free_row_keeps pid s :
  ChargingSession.tenant_id (free_row pid s) = ChargingSession.tenant_id s ∧
  ChargingSession.status (free_row pid s) = ChargingSession.status s ∧
  ChargingSession.coins_spent (free_row pid s) = ChargingSession.coins_spent s ∧
  ChargingSession.settled_payout_id (free_row pid s) =
    if bool_decide (ChargingSession.settled_payout_id s = Some pid) then None
    else ChargingSession.settled_payout_id s.
Proof. unfold free_row. by destruct (bool_decide _). Qed.

Lemma cancelled_claimed d pid q : q ≠ pid → claimed (cancelled_db d pid) q = claimed d q.
Proof.
  intros Hq. unfold claimed, cancelled_db. simpl. rewrite msum_fmap. apply msum_ext. intros i s _.
  destruct (free_row_keeps pid s) as (_ & _ & -> & ->).
  destruct (decide (ChargingSession.settled_payout_id s = Some pid)) as [E|E].
  - rewrite E, (bool_decide_eq_true_2 (Some pid = Some pid)) by done.
    by rewrite !bool_decide_eq_false_2 by congruence.
  - by rewrite (bool_decide_eq_false_2 _ E).
Qed.

(** Cancelling gives back exactly what the payout had claimed. *)
Lemma cancelled_unsettled d pid p :
  payouts_ok d → payouts d !! pid = Some p →
  unsettled_coins (cancelled_db d pid) (Payout.tenant_id p) =
  unsettled_coins d (Payout.tenant_id p) + claimed d pid.
Proof.
  intros Hok Hp. unfold unsettled_coins, claimed, cancelled_db. simpl.
  rewrite msum_fmap, <- msum_add. apply msum_ext. intros i s Hs.
  destruct (free_row_keeps pid s) as (Ht & Hst & -> & Hset).
  assert (Hfin : finished (free_row pid s) = finished s) by (unfold finished; by rewrite Hst).
  unfold unsettled, earned. rewrite Ht, Hset, Hfin.
  destruct (decide (ChargingSession.settled_payout_id s = Some pid)) as [E|E].
  - destruct (po_settled d Hok i s pid Hs E) as (-> & p' & Hp' & _ & <-). simplify_eq.
    rewrite Z.eqb_refl, E, (bool_decide_eq_true_2 (Some pid = Some pid)) by done.
    rewrite (bool_decide_eq_true_2 (None = None)), (bool_decide_eq_false_2 (Some pid = None)) by done.
    simpl. lia.
  - rewrite (bool_decide_eq_false_2 _ E). lia.
Qed.

Lemma cancelled_ok d pid : payouts_ok d → payouts_ok (cancelled_db d pid).
Proof.
  intros Hok. set (d' := cancelled_db d pid).
  assert (Hpay : ∀ q p, payouts d' !! q = Some p → live p = true → q ≠ pid ∧ payouts d !! q = Some p).
  { intros q p. unfold d', cancelled_db. simpl. destruct (decide (q = pid)) as [->|Hq].
    - rewrite lookup_alter_eq. by intros (p0 & _ & ->)%fmap_Some.
    - by rewrite lookup_alter_ne. }
  assert (Href : ∀ t a b, sum_approved_refund_coins d' t a b = sum_approved_refund_coins d t a b).
  { intros. apply refunds_frame; [done|]. intros sid. unfold d', cancelled_db. simpl.
    rewrite lookup_fmap. destruct (sessions d !! sid) as [s|]; [|done]. simpl.
    by destruct (free_row_keeps pid s) as (-> & -> & _). }
  split.
  - intros sid s q. unfold d' at 1, cancelled_db at 1. simpl. rewrite lookup_fmap.
    intros (s0 & Hs0 & ->)%fmap_Some. destruct (free_row_keeps pid s0) as (-> & Hst & _ & ->).
    destruct (decide (ChargingSession.settled_payout_id s0 = Some pid)) as [E|E];
      [by rewrite bool_decide_eq_true_2 | rewrite (bool_decide_eq_false_2 _ E)]. intros Hq.
    destruct (po_settled d Hok sid s0 q Hs0 Hq) as (Hf & p & Hp & Hl & Ht).
    split; [unfold finished in *; by rewrite Hst|]. exists p.
    unfold d', cancelled_db. simpl. rewrite lookup_alter_ne by congruence. done.
  - intros q p Hq Hl. destruct (Hpay q p Hq Hl) as [Hne Hp].
    eapply accounts_frame; [by apply (po_accounts d Hok) | by apply cancelled_claimed | apply Href | done].
  - intros i j p q Hi Hj Hij Hlp Hlq. apply Hpay in Hi as [_ Hi], Hj as [_ Hj]; [|done..].
    by apply (po_windows d Hok i j).
  - intros i Hi. unfold d', cancelled_db in *. simpl in *. apply (po_ids d Hok) in Hi as Hn.
    destruct (decide (i = pid)) as [->|]; [by rewrite lookup_alter_eq, Hn | by rewrite lookup_alter_ne].
Qed.

(** Cancelling a payout frees exactly what it had claimed: only the owning
    CPO or an admin gets past the 404, only a REQUESTED payout can be cancelled;
    afterwards it claims nothing, its coins are unsettled again, every other
    payout keeps its claims and its figures, and no wallet moves. *)
Theorem cancel_payout_frees user pid w :
  com w = cur w → payouts_ok (cur w) →
  let '(out, w') := run_request (cpo_cancel_payout user pid) w in
  payouts_ok (com w') ∧ users (com w') = users (cur w) ∧ ledger (com w') = ledger (cur w) ∧
  match out with
  | Raise _ => com w' = com w
  | Ok p => ∃ p0, payouts (cur w) !! pid = Some p0 ∧ Payout.status p0 = P_REQUESTED ∧
      (User.role user = ADMIN ∨ User.tenant_id user = Some (Payout.tenant_id p0)) ∧
      payouts (com w') !! pid = Some p ∧ Payout.status p = P_CANCELLED ∧
      unsettled_coins (com w') (Payout.tenant_id p0) =
        unsettled_coins (cur w) (Payout.tenant_id p0) + claimed (cur w) pid ∧
      (∀ q, q ≠ pid → claimed (com w') q = claimed (cur w) q ∧
                      payouts (com w') !! q = payouts (cur w) !! q)
  end.
Proof.
  intros Hcc Hok. apply run_request_wp. unfold cpo_cancel_payout, set_payout.
  wp_run; try (simpl; rewrite Hcc; by split_and!).
  match goal with |- context [payouts_ok ?c] => change c with (cancelled_db (cur w) pid) end.
  split_and!; [by apply cancelled_ok | done | done |].
  exists a. split; [done|].
  split; [by match goal with H : negb (bool_decide _) = false |- _ =>
            apply negb_false_iff, bool_decide_eq_true_1 in H end|].
  split. { match goal with H : _ && _ = false |- _ => revert H end.
    destruct (decide (User.role user = ADMIN)) as [|Hr]; [by left|].
    rewrite (bool_decide_eq_false_2 _ Hr). simpl.
    rewrite negb_false_iff, bool_decide_eq_true. by right. }
  split; [unfold cancelled_db; simpl; by rewrite lookup_alter_eq; match goal with H : _ = Some a |- _ => rewrite H end|].
  split; [done|]. split; [by apply cancelled_unsettled|]. intros q Hq.
  split; [by apply cancelled_claimed | unfold cancelled_db; simpl; by rewrite lookup_alter_ne].
Qed.

(** ** Nobody is paid twice *)

(** The claims of a set of payouts, session by session. *)
Lemma claimed_by_session d tid (m : gmap Z Payout.t) :
  isum (λ pid p, if effective tid p then claimed d pid else 0) m =
  msum (λ s, match ChargingSession.settled_payout_id s with
             | Some pid => match m !! pid with
                           | Some p => if effective tid p then ChargingSession.coins_spent s else 0
                           | None => 0
                           end
             | None => 0
             end) (sessions d).
Proof.
  induction m as [|i p m Hi _ IH] using map_first_key_ind.
  - rewrite isum_empty. symmetry. apply msum_zero. intros. by case_match.
  - rewrite isum_insert_None, IH by done. unfold claimed.
    transitivity (msum (λ s, if effective tid p && bool_decide (ChargingSession.settled_payout_id s = Some i)
                       then ChargingSession.coins_spent s else 0) (sessions d) + msum (λ s,
       match ChargingSession.settled_payout_id s with
       | Some pid => match m !! pid with
                     | Some p => if effective tid p then ChargingSession.coins_spent s else 0
                     | None => 0
                     end
       | None => 0
       end) (sessions d)).
    + f_equal. destruct (effective tid p); simpl; [done|]. symmetry. by apply msum_zero.
    + rewrite <- msum_add. apply msum_ext. intros j s _.
      destruct (ChargingSession.settled_payout_id s) as [q|];
        [|by rewrite bool_decide_eq_false_2, andb_false_r by done].
      destruct (decide (i = q)) as [<-|Hq].
      * rewrite lookup_insert_eq, Hi, bool_decide_eq_true_2, andb_true_r by done. lia.
      * rewrite lookup_insert_ne by done. rewrite bool_decide_eq_false_2 by congruence.
        by rewrite andb_false_r.
Qed.

(** Amounts are never negative. *)
Record amounts_ok d : Prop := {
  am_sessions : ∀ i s, sessions d !! i = Some s → 0 <= ChargingSession.coins_spent s <= MAX_MONEY;
  am_disputes : ∀ i x, disputes d !! i = Some x → 0 <= default 0 (SessionDispute.refund_coins x);
  am_topups : ∀ i x, topups d !! i = Some x → 0 <= OfflineTopup.amount_coins x }.

Lemma to_money_amount_le c : 0 <= c → 0 <= to_money_amount c <= c.
Proof. rewrite to_money_amount_clamp. unfold clamp, MAX_MONEY. lia. Qed.

Lemma account_bound d pid p :
  amounts_ok d → percent_ok platform_fee_pct → accounts d pid p →
  0 <= Payout.platform_fee_coins p ∧ 0 < Payout.net_coins p ∧
  Payout.platform_fee_coins p + Payout.net_coins p <= claimed d pid.
Proof.
  intros [Hs Hd Ht] Hpct (Hg & Hf & Hn & Hpos).
  assert (0 <= claimed d pid) as Hc
    by (apply msum_nonneg; intros i s Hi; pose proof (Hs i s Hi); case_match; lia).
  assert (0 <= sum_approved_refund_coins d (Payout.tenant_id p) (Some (Payout.period_start p))
               (Some (Payout.period_end p))) as Hr.
  { apply to_money_amount_le, msum_nonneg. intros i x Hi. unfold refund_of.
    destruct (sessions d !! _); [|done]. destruct (_ && _); [by eapply Hd | done]. }
  assert (0 <= sum_offline_topups d (Payout.tenant_id p) (Some (Payout.period_start p))
               (Some (Payout.period_end p))) as Hto.
  { apply to_money_amount_le, msum_nonneg. intros i x Hi. unfold topup_of.
    destruct (_ && _); [by eapply Ht | done]. }
  pose proof (to_money_amount_le _ Hc).
  assert (0 <= Payout.gross_coins p <= claimed d pid ∧ Payout.gross_coins p <= MAX_MONEY) as [Hgb Hgm].
  { rewrite Hg, to_money_amount_clamp. unfold clamp, ZERO_MONEY, MAX_MONEY. lia. }
  pose proof (fee_and_net_foot (Payout.gross_coins p) ltac:(lia) Hpct) as Hfoot.
  destruct (compute_fee_and_net (Payout.gross_coins p)) as [fee net]. simpl in Hf, Hn.
  revert Hpos. rewrite Hn, Hf, to_money_amount_clamp. unfold clamp, ZERO_MONEY, MAX_MONEY. lia.
Qed.

(** C33: nobody is paid twice: over all its payouts that are not cancelled, a
    tenant and the platform together never draw more than the sessions settled
    by them collected, each session counted once. *)
Theorem payouts_never_overpay d tid :
  payouts_ok d → amounts_ok d → percent_ok platform_fee_pct →
  isum (λ _ p, if effective tid p then Payout.platform_fee_coins p + Payout.net_coins p else 0)
       (payouts d) <=
  msum (λ s, if earned tid s && bool_decide (is_Some (ChargingSession.settled_payout_id s))
             then ChargingSession.coins_spent s else 0) (sessions d).
Proof.
  intros Hok Ham Hpct.
  transitivity (isum (λ pid p, if effective tid p then claimed d pid else 0) (payouts d)).
  - apply isum_le. intros pid p Hp. destruct (effective tid p) eqn:He; [|done].
    apply andb_true_iff in He as [_ Hl].
    apply (account_bound d pid p Ham Hpct). by apply (po_accounts d Hok).
  - rewrite claimed_by_session. apply msum_le. intros i s Hs.
    pose proof (am_sessions d Ham i s Hs). destruct (ChargingSession.settled_payout_id s) as [q|] eqn:Hq.
    + destruct (po_settled d Hok i s q Hs Hq) as (Hfin & p & -> & _ & Ht).
      unfold effective, earned. rewrite Ht, Hfin, (bool_decide_eq_true_2 (is_Some (Some q))) by eauto.
      destruct (_ =? tid); simpl; [|done]. destruct (negb _); simpl; lia.
    + rewrite bool_decide_eq_false_2, andb_false_r; [done | by intros [? ?]].
Qed.
End Payouts.
