(* ===== verification/CpoTopups.v ===== *)
(** * routers/cpo/_topups.py: cash top-ups

    A CPO credits a driver for cash, out of the tenant's own unsettled net
    earnings.  [started] is the instant the request's transaction began: the
    column default CURRENT_TIMESTAMP of [offline_topups.created_at]. *)

From S2P Require Import Prelude Rounding PyNum Money Models Config TelemetryStore World Hoare.
From S2P Require Import PyString PyJson Auth Billing Wallet Lifecycle Payouts.

Section CpoTopups.
Context `{cfg : Config}.
Implicit Types (d : db) (now tid uid : Z).

(** The text of the ledger row, which is not kept; its column has 255 characters. *)
Definition topup_description (actor : User.t) (note : option string) : string :=
  "Cash top-up credited by " +:+ User.email actor +:+
  match note with None | Some EmptyString => "" | Some note => ": " +:+ note end.

Definition cpo_create_topup (actor_id : Z) (actor : User.t) (driver_email : string)
    (amount_coins : pynum) (note : option string) (started now : Z) : M Z :=
  tid ← require_tenant_id actor;
  tenant ← query (λ d, tenants d !! tid);
  _ ← or_raise tenant 404 "Tenant not found.";
  rows ← query (λ d, select (λ _ u, String.eqb (lower (User.email u)) (normalize_email driver_email))
                       (users d));
  found ← one_or_none rows;
  '(uid, driver) ← or_raise found 404 "No driver account found.";
  refuse (negb (bool_decide (User.role driver = DRIVER))) 404 "No driver account found.";;
  let amount := to_money amount_coins in
  refuse (amount <=? ZERO_MONEY) 400 "amount_coins must be greater than 0.";;
  summary ← query (λ d, tenant_earnings_summary d tid now);
  refuse (available_pool_coins summary <? amount) 409 "exceeds the pool";;
  new_balance ← credit_wallet uid amount;
  new_balance ← or_raise new_balance 404 "No driver account found.";
  i ← fresh;
  modify (λ d, d <| topups ::=
    <[i := OfflineTopup.mk tid (Some actor_id) (Some uid) amount note started]> |>);;
  add_ledger (LedgerTransaction.mk uid None amount CPO_TOPUP None new_balance);;
  when (255 <? str_len (topup_description actor note)) (raise DataError);;
  commit;;
  emit (Notify uid "topup_credited" "info" None None);;
  emit (SendTopupEmail uid amount);;
  mret i.

(** [max(1, min(limit, 200)), max(0, offset)]; newest first. *)
Definition cpo_list_topups (actor : User.t) (limit offset : Z)
    : M (Z * list (Z * OfflineTopup.t * option string * option string)) :=
  tid ← require_tenant_id actor;
  total ← query (λ d, count (λ x, OfflineTopup.tenant_id x =? tid) (topups d));
  items ← query (λ d,
    let email_of (o : option Z) := u ← o; User.email <$> users d !! u in
    map (λ r, (r, email_of (OfflineTopup.driver_user_id r.2), email_of (OfflineTopup.actor_user_id r.2)))
      (take (Z.to_nat (Z.max 1 (Z.min limit 200))) (drop (Z.to_nat (Z.max 0 offset))
        (order_by2 (λ r, - OfflineTopup.created_at r.2) (λ r, - r.1)
           (select (λ _ x, OfflineTopup.tenant_id x =? tid) (topups d))))));
  mret (total, items).

(** ** What a top-up does *)

Definition pool d tid now : money := available_pool_coins (tenant_earnings_summary d tid now).

Definition topup_row actor_id tid uid amount note started : OfflineTopup.t :=
  OfflineTopup.mk tid (Some actor_id) (Some uid) amount note started.

Definition topped_db d uid (b : money) (x : OfflineTopup.t) : db :=
  d <| users ::= alter (λ u, u <| User.coin_balance := b |>) uid |>
    <| topups ::= <[next_id d := x]> |>
    <| ledger ::= <[next_id d + 1 := LedgerTransaction.mk uid None (OfflineTopup.amount_coins x)
                                       CPO_TOPUP None b]> |>
    <| next_id := next_id d + 2 |>.

(** What the route has checked when it credits. *)
Record topup_of_driver d (actor : User.t) tid uid (driver : User.t) amount now : Prop := {
  tp_tenant : User.tenant_id actor = Some tid;
  tp_driver : users d !! uid = Some driver ∧ User.role driver = DRIVER;
  tp_amount : 0 < amount <= pool d tid now;
  tp_range : User.coin_balance driver + amount <= MAX_MONEY }.

Lemma wp_topup actor_id actor email coins note started now Q w :
  com w = cur w → db_ok (cur w) →
  (∀ e w', com w' = com w → Q (Raise e) w') →
  (∀ tid uid driver w',
     topup_of_driver (cur w) actor tid uid driver (to_money coins) now →
     com w' = topped_db (cur w) uid (User.coin_balance driver + to_money coins)
                (topup_row actor_id tid uid (to_money coins) note started) →
     Q (Ok (next_id (cur w))) w') →
  wp (cpo_create_topup actor_id actor email coins note started now) Q w.
Proof.
  intros Hcc Hok HR HS. unfold cpo_create_topup, require_tenant_id.
  wp_run; try (by apply HR); try done. destruct x as [uid u]. simplify_eq.
  match goal with H : select _ _ = [_] |- _ => apply select_one in H as [Hu _] end.
  match goal with H : negb _ = false |- _ => apply negb_false_iff, bool_decide_eq_true_1 in H end.
  pose proof (ledger_range _ (wallet_ledger _ (ok_wallet _ Hok)) _ _ Hu) as Hrange.
  apply wp_credit; [congruence|]. intros u' Hu'. simplify_eq.
  split; intros Hb; [|by apply HR]. wp_run (apply wp_add_ledger; [done|]); try done; try (by apply HR). simplify_eq.
  eapply (HS _ _ t); [split; [done | done | unfold pool, ZERO_MONEY in *; lia | lia] |].
  unfold topped_db. simpl. f_equal; lia.
Qed.

Lemma topped_db_ok d actor tid uid driver amount now x :
  db_ok d → topup_of_driver d actor tid uid driver amount now → OfflineTopup.amount_coins x = amount →
  db_ok (topped_db d uid (User.coin_balance driver + amount) x).
Proof.
  intros Hok [_ [Hu _] Ha Hr] Hx.
  eapply (credit_db_ok d _ uid driver (User.coin_balance driver + amount)
    (LedgerTransaction.mk uid None amount CPO_TOPUP None (User.coin_balance driver + amount)));
    try done; simpl; [| lia | lia].
  split; [done|]. exists (next_id d + 1). unfold topped_db. rewrite Hx. simpl. split; [lia | done].
Qed.

(** The pool after a top-up: smaller by its amount, provided the new row falls in
    the open window. *)
Lemma topped_pool d tid uid b x now :
  amounts_ok d → topups d !! next_id d = None → OfflineTopup.tenant_id x = tid →
  0 < OfflineTopup.amount_coins x <= pool d tid now →
  pool (topped_db d uid b x) tid now =
  pool d tid now -
  (if (tenant_settlement_watermark d tid <=? OfflineTopup.created_at x) &&
      (OfflineTopup.created_at x <? now) then OfflineTopup.amount_coins x else 0).
Proof.
  intros Ham Hfresh Ht. unfold pool, tenant_earnings_summary.
  set (d' := topped_db d uid b x).
  change (tenant_settlement_watermark d' tid) with (tenant_settlement_watermark d tid).
  change (sum_unsettled_session_coins d' tid now) with (sum_unsettled_session_coins d tid now).
  change (sum_completed_session_coins d' tid None None) with (sum_completed_session_coins d tid None None).
  destruct (compute_fee_and_net (sum_completed_session_coins d tid None None)).
  set (wm := tenant_settlement_watermark d tid).
  assert (Hnet : (compute_fee_and_net (sum_unsettled_session_coins d tid now)).2 <= MAX_MONEY)
    by apply to_money_range.
  destruct (compute_fee_and_net (sum_unsettled_session_coins d tid now)) as [fee net].
  cbn [snd] in Hnet.
  cbn [available_pool_coins].
  assert (Hsum : msum (topup_of tid (Some wm) (Some now)) (topups d') =
    (if (wm <=? OfflineTopup.created_at x) && (OfflineTopup.created_at x <? now)
     then OfflineTopup.amount_coins x else 0) + msum (topup_of tid (Some wm) (Some now)) (topups d)).
  { unfold d', topped_db. simpl. rewrite msum_insert_None by done.
    unfold topup_of at 1. by rewrite Ht, Z.eqb_refl. }
  assert (0 <= msum (topup_of tid (Some wm) (Some now)) (topups d)).
  { clear Hsum. apply msum_nonneg. intros i y Hy. unfold topup_of.
    pose proof (am_topups d Ham i y Hy). case_match; lia. }
  unfold sum_offline_topups. rewrite Hsum, !to_money_amount_clamp.
  destruct (_ && _); unfold clamp, ZERO_MONEY, MAX_MONEY in *; lia.
Qed.

(** A cash top-up comes out of the tenant's own earnings: when it goes
    through, the amount is positive and within the available pool, exactly the
    driver's wallet and ledger grow by it, and, the transaction having begun
    after the last settlement, the pool shrinks by exactly that amount; a
    refusal changes nothing. *)
Theorem topup_within_pool actor_id actor email coins note started now w :
  com w = cur w → db_ok (cur w) → amounts_ok (cur w) → (∀ i, next_id (cur w) <= i → topups (cur w) !! i = None) →
  (∀ tid, User.tenant_id actor = Some tid → tenant_settlement_watermark (cur w) tid <= started) →
  started < now →
  let '(out, w') :=
    run_request (cpo_create_topup actor_id actor email coins note started now) w in
  db_ok (com w') ∧
  match out with
  | Raise _ => com w' = com w
  | Ok i => ∃ tid uid, let amount := to_money coins in
      User.tenant_id actor = Some tid ∧ 0 < amount <= pool (cur w) tid now ∧
      balance (com w') uid = balance (cur w) uid + amount ∧
      booked (com w') uid = booked (cur w) uid + amount ∧
      (∀ v, v ≠ uid → balance (com w') v = balance (cur w) v) ∧
      pool (com w') tid now = pool (cur w) tid now - amount
  end.
Proof.
  intros Hcc Hok Ham Hids Hwm Hnow. apply run_request_wp. apply wp_topup; [done | done | ..].
  { intros e w' Hc. simpl. rewrite Hc, Hcc. by split. }
  intros tid uid driver w' Ht Hc. change (com (w' <| cur := com w' |>)) with (com w'). rewrite Hc.
  split; [by eapply topped_db_ok|]. pose proof Ht as [Htid [Hu _] Ha Hr].
  exists tid, uid. cbv zeta. split; [done|]. split; [done|].
  set (d' := topped_db _ _ _ _). unfold balance. split.
  { unfold d', topped_db. simpl. by rewrite lookup_alter_eq, Hu. }
  split.
  { rewrite (booked_insert (cur w) d' uid (next_id (cur w) + 1) _
      (ledger_ids _ (wallet_ledger _ (ok_wallet _ Hok)) (next_id (cur w) + 1) ltac:(lia)) eq_refl).
    unfold ledger_of. cbn [LedgerTransaction.user_id LedgerTransaction.amount].
    rewrite Z.eqb_refl. apply Z.add_comm. }
  split; [intros v Hv; unfold d', topped_db; simpl; by rewrite lookup_alter_ne by done|]. unfold d'.
  rewrite topped_pool; [|exact Ham | apply Hids; lia | done | exact Ha]. simpl.
  specialize (Hwm tid Htid). rewrite (proj2 (Z.leb_le _ _)), (proj2 (Z.ltb_lt _ _)) by done. done.
Qed.

(** A top-up whose transaction began before the tenant's latest settlement (it
    waited for the tenant's row while a payout was being requested) stays in a
    window that is already closed: the pool never sees it. *)
Theorem late_topup_escapes actor_id actor email coins note started now w i w' tid :
  com w = cur w → db_ok (cur w) → amounts_ok (cur w) →
  (∀ i, next_id (cur w) <= i → topups (cur w) !! i = None) →
  User.tenant_id actor = Some tid → started < tenant_settlement_watermark (cur w) tid →
  run_request (cpo_create_topup actor_id actor email coins note started now) w = (Ok i, w') →
  0 < to_money coins ∧ pool (com w') tid now = pool (cur w) tid now.
Proof.
  intros Hcc Hok Ham Hids Htid Hwm Hrun.
  assert (H : let '(out, w') := run_request (cpo_create_topup actor_id actor email coins note started now) w in
    ∀ i, out = Ok i → 0 < to_money coins ∧ pool (com w') tid now = pool (cur w) tid now).
  { apply run_request_wp. apply wp_topup; [done | done | done |].
    intros tid' uid driver w1 Ht Hc j _. simpl. rewrite Hc.
    destruct Ht as [Htid' [Hu _] Ha Hr]. assert (tid' = tid) as -> by congruence. split; [lia|].
    rewrite topped_pool; [|exact Ham | apply Hids; lia | done | exact Ha]. simpl.
    rewrite (proj2 (Z.leb_gt _ _)) by done. simpl. lia. }
  rewrite Hrun in H. by eapply H.
Qed.
End CpoTopups.
