(* ===== verification/Tariffs.v ===== *)
(** * routers/cpo/_tariffs.py: tariffs, their slots, what bills at them

    Requests are checked by [schemas.py] first ([..._valid], a 422).  A tenant
    of [None] is an admin without one: SQLAlchemy reads [== None] as IS NULL.
    The list of tariffs, ordered by the database's collation, is left. *)

From S2P Require Import Prelude Rounding PyNum Money Models Slots Config Billing TelemetryStore.
From S2P Require Import World Hoare Wallet Caps Pricing Payouts PyString.

(** ** schemas.py *)

Record CpoTariffSlotCreateRequest := mkslot_create {
  sc_start_min : Z; sc_end_min : Z; sc_price_per_kwh : float; sc_days_mask : Z }.
Record CpoTariffSlotUpdateRequest := mkslot_update {
  su_start_min : option Z; su_end_min : option Z; su_price_per_kwh : option float;
  su_days_mask : option Z }.

Definition in_range (lo hi x : Z) : bool := (lo <=? x) && (x <=? hi).
Definition given {A} (p : A → bool) (o : option A) : bool :=
  match o with Some x => p x | None => true end.

Definition price_valid (p : float) : bool := (0 <? p) && (p <=? fint 1000).
Definition start_min_valid : Z → bool := in_range 0 1439.
Definition end_min_valid : Z → bool := in_range 1 1440.
Definition days_mask_valid : Z → bool := in_range 1 127.
Definition name_valid (s : string) : bool := in_range 1 100 (str_len s).

Definition slot_create_valid (r : CpoTariffSlotCreateRequest) : bool :=
  start_min_valid (sc_start_min r) && end_min_valid (sc_end_min r) &&
  price_valid (sc_price_per_kwh r) && days_mask_valid (sc_days_mask r).
Definition slot_update_valid (r : CpoTariffSlotUpdateRequest) : bool :=
  given start_min_valid (su_start_min r) && given end_min_valid (su_end_min r) &&
  given price_valid (su_price_per_kwh r) && given days_mask_valid (su_days_mask r).

Section Tariffs.
Context `{cfg : Config}.
Implicit Types (d : db) (user : User.t) (now : Z).

(** ** Tariffs *)

Definition load_tenant_tariff (tariff_id : Z) (tenant_id : option Z) : M Tariff.t :=
  t ← query (λ d, tariffs d !! tariff_id);
  or_raise (t ← t; if bool_decide (Some (Tariff.tenant_id t) = tenant_id) then Some t else None)
    404 "Tariff not found or does not belong to your organization.".

Definition mark_own_sessions user now : M unit :=
  match User.tenant_id user with
  | Some tid => mark_tenant_sessions_for_reprice tid now
  | None => mret tt
  end.

Definition cpo_create_tariff user (name : string) (price_per_kwh : float) : M Z :=
  refuse (negb (name_valid name && price_valid price_per_kwh)) 422 "";;
  tid ← require_tenant_id user;
  i ← fresh;
  modify (λ d, d <| tariffs ::= <[i := Tariff.mk tid name (to_money (PFloat price_per_kwh))]> |>);;
  commit;;
  mret i.

Definition cpo_update_tariff user (tariff_id : Z) (name : option string)
    (price_per_kwh : option float) now : M unit :=
  refuse (negb (given name_valid name && given price_valid price_per_kwh)) 422 "";;
  t ← load_tenant_tariff tariff_id (User.tenant_id user);
  modify (λ d, d <| tariffs ::= <[tariff_id :=
    t <| Tariff.name := default (Tariff.name t) name |>
      <| Tariff.price_per_kwh := match price_per_kwh with
           | Some p => to_money (PFloat p) | None => Tariff.price_per_kwh t end |>]> |>);;
  when (bool_decide (is_Some price_per_kwh)) (mark_own_sessions user now);;
  commit.

(** ON DELETE SET NULL on the three assignments, ON DELETE CASCADE on the slots. *)
Definition unlink (tariff_id : Z) (o : option Z) : option Z :=
  if bool_decide (o = Some tariff_id) then None else o.

Definition without_tariff (tariff_id : Z) d : db :=
  d <| tariffs ::= delete tariff_id |>
    <| slots ::= delete_where (λ _ s, TariffSlot.tariff_id s =? tariff_id) |>
    <| plugs ::= fmap (λ p, p <| Plug.tariff_id ::= unlink tariff_id |>) |>
    <| groups ::= fmap (λ g, g <| ChargerGroup.tariff_id ::= unlink tariff_id |>) |>
    <| tenants ::= fmap (λ t, t <| Tenant.default_tariff_id ::= unlink tariff_id |>) |>.

Definition cpo_delete_tariff user (tariff_id : Z) now : M unit :=
  _ ← load_tenant_tariff tariff_id (User.tenant_id user);
  modify (without_tariff tariff_id);;
  mark_own_sessions user now;;
  commit.

(** ** Slots *)

Definition load_tenant_slot (tariff_id slot_id : Z) : M TariffSlot.t :=
  s ← query (λ d, slots d !! slot_id);
  or_raise (s ← s; if TariffSlot.tariff_id s =? tariff_id then Some s else None)
    404 "Slot not found on this tariff.".

Definition clashes (tariff_id start_min end_min days_mask : Z) (exclude_id : option Z) (i : Z)
    (s : TariffSlot.t) : bool :=
  (TariffSlot.tariff_id s =? tariff_id) && negb (bool_decide (exclude_id = Some i)) &&
  slot_overlaps start_min end_min days_mask (TariffSlot.start_min s) (TariffSlot.end_min s)
    (TariffSlot.days_mask s).

Definition validate_slot_window (tariff_id start_min end_min days_mask : Z)
    (exclude_id : option Z) : M unit :=
  refuse (end_min <=? start_min) 400 "Slot start must be before its end.";;
  clash ← query (λ d, exists_row (clashes tariff_id start_min end_min days_mask exclude_id) (slots d));
  refuse clash 409 "That window overlaps an existing slot".

Definition cpo_list_tariff_slots user (tariff_id : Z) : M (list (Z * TariffSlot.t)) :=
  _ ← load_tenant_tariff tariff_id (User.tenant_id user);
  query (λ d, order_by (λ r, TariffSlot.start_min r.2)
                (select (λ _ s, TariffSlot.tariff_id s =? tariff_id) (slots d))).

Definition insert_slot (tariff_id : Z) (r : CpoTariffSlotCreateRequest) : M Z :=
  i ← fresh;
  modify (λ d, d <| slots ::= <[i := TariffSlot.mk tariff_id (sc_start_min r) (sc_end_min r)
                                       (to_money (PFloat (sc_price_per_kwh r))) (sc_days_mask r)]> |>);;
  mret i.

Definition cpo_create_tariff_slot user (tariff_id : Z) (r : CpoTariffSlotCreateRequest) now : M Z :=
  refuse (negb (slot_create_valid r)) 422 "";;
  _ ← load_tenant_tariff tariff_id (User.tenant_id user);
  validate_slot_window tariff_id (sc_start_min r) (sc_end_min r) (sc_days_mask r) None;;
  i ← insert_slot tariff_id r;
  mark_own_sessions user now;;
  commit;;
  mret i.

Definition cpo_update_tariff_slot user (tariff_id slot_id : Z) (r : CpoTariffSlotUpdateRequest) now
    : M unit :=
  refuse (negb (slot_update_valid r)) 422 "";;
  _ ← load_tenant_tariff tariff_id (User.tenant_id user);
  slot ← load_tenant_slot tariff_id slot_id;
  let new_start := default (TariffSlot.start_min slot) (su_start_min r) in
  let new_end := default (TariffSlot.end_min slot) (su_end_min r) in
  let new_days := default (TariffSlot.days_mask slot) (su_days_mask r) in
  validate_slot_window tariff_id new_start new_end new_days (Some slot_id);;
  let new_price := match su_price_per_kwh r with
                   | Some p => to_money (PFloat p) | None => TariffSlot.price_per_kwh slot end in
  modify (λ d, d <| slots ::= <[slot_id :=
    TariffSlot.mk (TariffSlot.tariff_id slot) new_start new_end new_price new_days]> |>);;
  mark_own_sessions user now;;
  commit.

Definition cpo_delete_tariff_slot user (tariff_id slot_id : Z) now : M unit :=
  _ ← load_tenant_tariff tariff_id (User.tenant_id user);
  _ ← load_tenant_slot tariff_id slot_id;
  modify (λ d, d <| slots ::= delete slot_id |>);;
  mark_own_sessions user now;;
  commit.

(** ** Assignments *)

Definition check_assignable user (tariff_id : option Z) : M unit :=
  match tariff_id with
  | None => mret tt
  | Some t => _ ← load_tenant_tariff t (User.tenant_id user); mret tt
  end.

(** The plug, when its gateway is the tenant's. *)
Definition tenant_plug (plug_id : Z) (tenant_id : option Z) d : option Plug.t :=
  p ← plugs d !! plug_id;
  g ← gateways d !! Plug.gateway_id p;
  if bool_decide (Gateway.tenant_id g = tenant_id) then Some p else None.

Definition cpo_assign_plug_tariff user (plug_id : Z) (tariff_id : option Z) : M unit :=
  plug ← query (tenant_plug plug_id (User.tenant_id user));
  _ ← or_raise plug 404 "Plug not found or access denied.";
  check_assignable user tariff_id;;
  modify (λ d, d <| plugs ::= alter (λ p, p <| Plug.tariff_id := tariff_id |>) plug_id |>);;
  commit.

Definition cpo_assign_group_tariff user (group_id : Z) (tariff_id : option Z) : M unit :=
  group ← query (λ d, groups d !! group_id);
  _ ← or_raise (g ← group;
                if bool_decide (Some (ChargerGroup.tenant_id g) = User.tenant_id user)
                then Some g else None) 404 "Group not found or access denied.";
  check_assignable user tariff_id;;
  modify (λ d, d <| groups ::= alter (λ g, g <| ChargerGroup.tariff_id := tariff_id |>) group_id |>);;
  commit.

Definition cpo_assign_tenant_default_tariff user (tariff_id : option Z) : M unit :=
  tenant ← query (λ d, tid ← User.tenant_id user; t ← tenants d !! tid; Some (tid, t));
  '(tid, _) ← or_raise tenant 404 "Tenant not found.";
  check_assignable user tariff_id;;
  modify (λ d, d <| tenants ::= alter (λ t, t <| Tenant.default_tariff_id := tariff_id |>) tid |>);;
  commit.

(** ** The requests *)

Inductive tariff_op :=
  | CreateTariff (name : string) (price : float)
  | UpdateTariff (tariff_id : Z) (name : option string) (price : option float)
  | DeleteTariff (tariff_id : Z)
  | CreateSlot (tariff_id : Z) (r : CpoTariffSlotCreateRequest)
  | UpdateSlot (tariff_id slot_id : Z) (r : CpoTariffSlotUpdateRequest)
  | DeleteSlot (tariff_id slot_id : Z)
  | AssignPlug (plug_id : Z) (tariff_id : option Z)
  | AssignGroup (group_id : Z) (tariff_id : option Z)
  | AssignDefault (tariff_id : option Z).

Definition run_op (op : tariff_op) user now : M unit :=
  match op with
  | CreateTariff name price => _ ← cpo_create_tariff user name price; mret tt
  | UpdateTariff t name price => cpo_update_tariff user t name price now
  | DeleteTariff t => cpo_delete_tariff user t now
  | CreateSlot t r => _ ← cpo_create_tariff_slot user t r now; mret tt
  | UpdateSlot t s r => cpo_update_tariff_slot user t s r now
  | DeleteSlot t s => cpo_delete_tariff_slot user t s now
  | AssignPlug p t => cpo_assign_plug_tariff user p t
  | AssignGroup g t => cpo_assign_group_tariff user g t
  | AssignDefault t => cpo_assign_tenant_default_tariff user t
  end.

(** ** No two slots of a tariff are in force at once *)

Definition slot_ok (s : TariffSlot.t) : Prop := slot_valid s ∧ 0 <= TariffSlot.days_mask s < 128.
Definition overlap (a b : TariffSlot.t) : bool :=
  slot_overlaps (TariffSlot.start_min a) (TariffSlot.end_min a) (TariffSlot.days_mask a)
    (TariffSlot.start_min b) (TariffSlot.end_min b) (TariffSlot.days_mask b).

Record slots_ok d : Prop := {
  sl_valid : ∀ i s, slots d !! i = Some s → slot_ok s;
  sl_disjoint : ∀ i j a b, slots d !! i = Some a → slots d !! j = Some b → i ≠ j →
    TariffSlot.tariff_id a = TariffSlot.tariff_id b → overlap a b = false;
  sl_ids : ∀ i, next_id d <= i → slots d !! i = None }.

Lemma overlap_sym a b : overlap a b = overlap b a.
Proof. unfold overlap, slot_overlaps. rewrite Z.land_comm, andb_comm. done. Qed.

Lemma slots_ok_frame d d' :
  slots_ok d → slots d' = slots d → next_id d <= next_id d' → slots_ok d'.
Proof. intros [H1 H2 H3] Hs Hn. split; rewrite ?Hs; [done..|]. intros i Hi. apply H3. lia. Qed.

Lemma slots_ok_subset d d' :
  slots_ok d → slots d' ⊆ slots d → next_id d <= next_id d' → slots_ok d'.
Proof.
  intros [H1 H2 H3] Hs Hn. pose proof (λ i x, proj1 (map_subseteq_spec _ _) Hs i x) as Hs'. split; [eauto..|].
  intros i Hi. destruct (slots d' !! i) as [x|] eqn:Hx; [|done].
  apply Hs' in Hx. rewrite H3 in Hx; [done | lia].
Qed.

(** A window that clashes with nothing takes its place. *)
Lemma slots_ok_insert d d' i s exclude :
  slots_ok d → slot_ok s →
  exists_row (clashes (TariffSlot.tariff_id s) (TariffSlot.start_min s) (TariffSlot.end_min s)
                (TariffSlot.days_mask s) exclude) (slots d) = false →
  (exclude = Some i ∨ exclude = None) →
  slots d' = <[i := s]> (slots d) → next_id d <= next_id d' → i < next_id d' → slots_ok d'.
Proof.
  intros [H1 H2 H3] Hs Hno Hex Hd Hn Hi. rewrite exists_row_false in Hno.
  assert (Hover : ∀ j b, slots d !! j = Some b → i ≠ j →
    TariffSlot.tariff_id b = TariffSlot.tariff_id s → overlap s b = false).
  { intros j b Hj Hne Ht. specialize (Hno j b Hj). unfold clashes in Hno.
    rewrite Ht, Z.eqb_refl in Hno. simpl in Hno. apply andb_false_iff in Hno as [Hno|Hno]; [|done].
    apply negb_false_iff, bool_decide_eq_true in Hno. destruct Hex; congruence. }
  split; rewrite ?Hd.
  - intros j x [[<- <-]|[_ Hj]]%lookup_insert_Some; eauto.
  - intros j k a b [[<- <-]|[Hij Ha]]%lookup_insert_Some [[<- <-]|[Hik Hb]]%lookup_insert_Some Hne Ht;
      eauto; [congruence | rewrite overlap_sym; eauto].
  - intros j Hj. rewrite lookup_insert_ne by lia. apply H3. lia.
Qed.

(** Requests only ever build valid slots. *)
Lemma created_ok tid r : slot_create_valid r = true → sc_start_min r < sc_end_min r →
  slot_ok (TariffSlot.mk tid (sc_start_min r) (sc_end_min r) (to_money (PFloat (sc_price_per_kwh r)))
             (sc_days_mask r)).
Proof.
  unfold slot_create_valid, start_min_valid, end_min_valid, days_mask_valid, in_range, slot_ok, slot_valid.
  intros. passed. simpl. lia.
Qed.

Lemma given_default {A} (p : A → bool) (P : A → Prop) o x :
  (∀ y, p y = true → P y) → given p o = true → P x → P (default x o).
Proof. intros Hp Hg Hx. destruct o; simpl in *; auto. Qed.

Lemma updated_ok s r price : slot_ok s → slot_update_valid r = true →
  let start := default (TariffSlot.start_min s) (su_start_min r) in
  let stop := default (TariffSlot.end_min s) (su_end_min r) in
  start < stop →
  slot_ok (TariffSlot.mk (TariffSlot.tariff_id s) start stop price
             (default (TariffSlot.days_mask s) (su_days_mask r))).
Proof.
  intros [(H1 & H2 & H3) H4] Hv start stop Hlt. unfold slot_update_valid in Hv. passed.
  split; simpl; [split_and!; [|done|]|].
  - apply (given_default start_min_valid (λ x, 0 <= x)); [|done..].
    unfold start_min_valid, in_range. intros y Hy. passed. lia.
  - apply (given_default end_min_valid (λ x, x <= 1440)); [|done..].
    unfold end_min_valid, in_range. intros y Hy. passed. lia.
  - apply (given_default days_mask_valid (λ x, 0 <= x < 128)); [|done..].
    unfold days_mask_valid, in_range. intros y Hy. passed. lia.
Qed.

Lemma wp_load_tariff tid ten (Q : result Tariff.t → world → Prop) w :
  (∀ t, tariffs (cur w) !! tid = Some t → Some (Tariff.tenant_id t) = ten → Q (Ok t) w) →
  (∀ e, Q (Raise e) w) → wp (load_tenant_tariff tid ten) Q w.
Proof.
  intros H1 H2. unfold load_tenant_tariff. do 2 wp_step. wp_step; [|apply H2].
  destruct (tariffs (cur w) !! tid) as [t|] eqn:Ht; [|done]. simpl in *.
  case_bool_decide; [|done]. simplify_eq. by apply H1.
Qed.

Lemma wp_load_slot tid sid (Q : result TariffSlot.t → world → Prop) w :
  (∀ s, slots (cur w) !! sid = Some s → TariffSlot.tariff_id s = tid → Q (Ok s) w) →
  (∀ e, Q (Raise e) w) → wp (load_tenant_slot tid sid) Q w.
Proof.
  intros H1 H2. unfold load_tenant_slot. do 2 wp_step. wp_step; [|apply H2].
  destruct (slots (cur w) !! sid) as [s|] eqn:Hs; [|done]. simpl in *.
  destruct (Z.eqb_spec (TariffSlot.tariff_id s) tid); [|done]. simplify_eq. by apply H1.
Qed.

Lemma wp_validate tid start stop mask exclude (Q : result unit → world → Prop) w :
  (start < stop → exists_row (clashes tid start stop mask exclude) (slots (cur w)) = false →
   Q (Ok tt) w) → (∀ e, Q (Raise e) w) → wp (validate_slot_window tid start stop mask exclude) Q w.
Proof.
  intros H1 H2. unfold validate_slot_window. repeat wp_step; try done.
  apply H1; [|done]. passed. lia.
Qed.

(** What pricing requests may do to a session: ask for it to be priced anew. *)
Definition marked user now (s s' : ChargingSession.t) : Prop :=
  s' = s ∨
  is_active s = true ∧ Some (ChargingSession.tenant_id s) = User.tenant_id user ∧
  s' = s <| ChargingSession.rate_valid_until := Some now |>.

Lemma wp_mark_own user now (Q : result unit → world → Prop) w :
  (∀ ss, (∀ sid s, sessions (cur w) !! sid = Some s → ∃ s', ss !! sid = Some s' ∧ marked user now s s') →
     Q (Ok tt) (w <| cur ::= λ d, d <| sessions := ss |> |>)) →
  wp (mark_own_sessions user now) Q w.
Proof.
  intros HQ. unfold mark_own_sessions, mark_tenant_sessions_for_reprice.
  assert (Hsame : Q (Ok tt) w).
  { replace w with (w <| cur ::= λ d, d <| sessions := sessions (cur w) |> |>) at 1
      by (by destruct w as [[]]). apply HQ. intros sid s Hs. exists s. split; [done | by left]. }
  destruct (User.tenant_id user) as [tid|] eqn:Hu; [|by wp_step].
  wp_step; [|done]. wp_step. apply HQ. intros sid s Hs. rewrite lookup_update_where, Hs. simpl.
  destruct (_ && _) eqn:Hb; eexists; (split; [done|]); [right | by left].
  passed. rewrite Hu. split_and!; congruence.
Qed.

Definition foreign user (t : Tariff.t) : Prop := Some (Tariff.tenant_id t) ≠ User.tenant_id user.

Record pricing_effect user now d d' : Prop := {
  pe_slots : slots_ok d';
  pe_users : users d' = users d;
  pe_ledger : ledger d' = ledger d;
  pe_sessions : ∀ sid s, sessions d !! sid = Some s →
    ∃ s', sessions d' !! sid = Some s' ∧ marked user now s s';
  pe_tariffs : ∀ i t, tariffs d !! i = Some t → foreign user t → tariffs d' !! i = Some t;
  pe_foreign : ∀ i s t, slots d !! i = Some s → tariffs d !! TariffSlot.tariff_id s = Some t →
    foreign user t → slots d' !! i = Some s }.

(** A change of plugs, groups or tenants only. *)
Lemma pricing_frame user now d d' :
  slots_ok d → slots d' = slots d → next_id d' = next_id d → users d' = users d →
  ledger d' = ledger d → sessions d' = sessions d → tariffs d' = tariffs d →
  pricing_effect user now d d'.
Proof.
  intros Hok Hs Hn Hu Hl Hss Ht. split; rewrite ?Hs, ?Hu, ?Hl, ?Hss, ?Ht; try done.
  - apply (slots_ok_frame d); [done..|lia].
  - intros sid s H. exists s. split; [done | by left].
Qed.

Lemma wp_assignable user tid (Q : result unit → world → Prop) w :
  Q (Ok tt) w → (∀ e, Q (Raise e) w) → wp (check_assignable user tid) Q w.
Proof.
  intros H1 H2. unfold check_assignable. destruct tid; [|by wp_step]. wp_step.
  apply wp_load_tariff; [|done]. intros. by wp_step.
Qed.

Lemma unlinked_slots tid d i s :
  slots (without_tariff tid d) !! i = Some s ↔ slots d !! i = Some s ∧ TariffSlot.tariff_id s ≠ tid.
Proof.
  unfold without_tariff. simpl. rewrite lookup_delete_where.
  by rewrite Z.eqb_neq.
Qed.

Section Ops.
Context (user : User.t) (now : Z) (w : world) (Hcc : com w = cur w) (Hok : slots_ok (cur w))
  (Htids : ∀ i, next_id (cur w) <= i → tariffs (cur w) !! i = None).
Let effect := λ (out : result unit) w', pricing_effect user now (cur w) (com w').

Lemma no_effect out : effect out w.
Proof using Hcc Hok. unfold effect. rewrite Hcc. by apply pricing_frame. Qed.

Lemma wp_create_tariff name price : wp (run_op (CreateTariff name price) user now) effect w.
Proof using Hcc Hok Htids.
  pose proof no_effect as Hno. unfold effect in *. unfold run_op, cpo_create_tariff, require_tenant_id.
  repeat wp_step; try apply (Hno (Ok tt)); simpl. split; simpl; try done.
  - apply (slots_ok_frame (cur w)); [done..|simpl; lia].
  - intros sid s Hsid. exists s. split; [done | by left].
  - intros i t Hi _. rewrite lookup_insert_ne; [done|]. intros <-. rewrite Htids in Hi; [done | lia].
Qed.

Lemma wp_update_tariff tid name price : wp (run_op (UpdateTariff tid name price) user now) effect w.
Proof using Hcc Hok.
  pose proof no_effect as Hno. unfold effect in *. unfold run_op, cpo_update_tariff.
  do 2 wp_step; [apply (Hno (Ok tt))|]. wp_step. apply wp_load_tariff; [|intros; apply (Hno (Ok tt))].
  intros t Ht Hten. do 3 wp_step.
  assert (Hdone : ∀ d' t', slots d' = slots (cur w) → next_id d' = next_id (cur w) →
    users d' = users (cur w) → ledger d' = ledger (cur w) →
    (∀ sid s, sessions (cur w) !! sid = Some s → ∃ s', sessions d' !! sid = Some s' ∧ marked user now s s') →
    tariffs d' = <[tid := t']> (tariffs (cur w)) → pricing_effect user now (cur w) d').
  { intros d' t' H1 H2 H3 H4 H5 H6. split; rewrite ?H1, ?H6; try done.
    - apply (slots_ok_frame (cur w)); [done..|lia].
    - intros i x Hi Hx. rewrite lookup_insert_ne; [done|]. intros ->. simplify_eq. by apply Hx. }
  wp_step.
  - apply wp_mark_own. intros ss Hss. wp_step. by eapply Hdone.
  - wp_step. eapply Hdone; simpl; try done. intros sid s Hs. exists s. split; [done | by left].
Qed.

Lemma wp_delete_tariff tid : wp (run_op (DeleteTariff tid) user now) effect w.
Proof using Hcc Hok.
  pose proof no_effect as Hno. unfold effect in *. unfold run_op, cpo_delete_tariff.
  wp_step. apply wp_load_tariff; [|intros; apply (Hno (Ok tt))].
  intros t Ht Hten. repeat wp_step. apply wp_mark_own. intros ss Hss. wp_step. simpl.
  split; simpl; try done.
  - apply (slots_ok_subset (cur w)); [done| |done]. simpl. apply map_subseteq_spec.
    intros i s Hs. change (slots (without_tariff tid (cur w)) !! i = Some s) in Hs.
    by apply unlinked_slots in Hs as [? _].
  - intros i x Hi Hx. rewrite lookup_delete_ne; [done|]. intros ->. simplify_eq. by apply Hx.
  - intros i s x Hi Hx Hf. apply (unlinked_slots tid (cur w)). split; [done|]. intros Htid.
    rewrite Htid in Hx. simplify_eq. by apply Hf.
Qed.

(** One slot of an own tariff changes or appears. *)
Lemma slot_written d' tid t i s :
  tariffs (cur w) !! tid = Some t → ¬ foreign user t →
  (∀ x, slots (cur w) !! i = Some x → TariffSlot.tariff_id x = tid) →
  slots_ok d' → slots d' = <[i := s]> (slots (cur w)) → users d' = users (cur w) →
  ledger d' = ledger (cur w) → tariffs d' = tariffs (cur w) →
  (∀ sid s, sessions (cur w) !! sid = Some s → ∃ s', sessions d' !! sid = Some s' ∧ marked user now s s') →
  pricing_effect user now (cur w) d'.
Proof using Type.
  intros Ht Hf Hi Hok' Hd Hu Hl Htt Hss. split; rewrite ?Htt; try done.
  intros j x t' Hj Hx Hf'. rewrite Hd, lookup_insert_ne; [done|]. intros ->.
  rewrite (Hi x Hj) in Hx. simplify_eq. done.
Qed.

Lemma wp_create_slot tid r : wp (run_op (CreateSlot tid r) user now) effect w.
Proof using Hcc Hok.
  pose proof no_effect as Hno. unfold effect in *. unfold run_op, cpo_create_tariff_slot, insert_slot.
  do 3 wp_step; [apply (Hno (Ok tt))|]. wp_step. apply wp_load_tariff; [|intros; apply (Hno (Ok tt))].
  intros t Ht Hten. wp_step. apply wp_validate; [|intros; apply (Hno (Ok tt))].
  intros Hlt Hex. repeat wp_step. apply wp_mark_own. intros ss Hss. repeat wp_step. simpl.
  passed. eapply (slot_written _ tid t (next_id (cur w))); simpl; try done.
  - intros Hf. by apply Hf.
  - intros x Hx. by rewrite (sl_ids _ Hok) in Hx.
  - eapply (slots_ok_insert (cur w)); [done | by apply created_ok | done | by right | done | simpl; lia..].
Qed.

Lemma wp_update_slot tid sid r : wp (run_op (UpdateSlot tid sid r) user now) effect w.
Proof using Hcc Hok.
  pose proof no_effect as Hno. unfold effect in *. unfold run_op, cpo_update_tariff_slot.
  do 2 wp_step; [apply (Hno (Ok tt))|]. wp_step. apply wp_load_tariff; [|intros; apply (Hno (Ok tt))].
  intros t Ht Hten. wp_step. apply wp_load_slot; [|intros; apply (Hno (Ok tt))].
  intros s Hs Htid. wp_step. apply wp_validate; [|intros; apply (Hno (Ok tt))].
  intros Hlt Hex. repeat wp_step. apply wp_mark_own. intros ss Hss. wp_step. simpl.
  passed. eapply (slot_written _ tid t sid); simpl; try done.
  - intros Hf. by apply Hf.
  - intros x Hx. congruence.
  - eapply (slots_ok_insert (cur w) _ sid _ (Some sid)).
    + done.
    + apply updated_ok; [by eapply (sl_valid _ Hok) | done | done].
    + simpl. by rewrite Htid.
    + by left.
    + done.
    + done.
    + simpl. apply Z.nle_gt. intros Hle. by rewrite (sl_ids _ Hok _ Hle) in Hs.
Qed.

Lemma wp_delete_slot tid sid : wp (run_op (DeleteSlot tid sid) user now) effect w.
Proof using Hcc Hok.
  pose proof no_effect as Hno. unfold effect in *. unfold run_op, cpo_delete_tariff_slot.
  wp_step. apply wp_load_tariff; [|intros; apply (Hno (Ok tt))].
  intros t Ht Hten. wp_step. apply wp_load_slot; [|intros; apply (Hno (Ok tt))].
  intros s Hs Htid. repeat wp_step. apply wp_mark_own. intros ss Hss. wp_step. simpl.
  split; simpl; try done.
  - apply (slots_ok_subset (cur w)); [done | by apply delete_subseteq | done].
  - intros i x t' Hi Hx Hf. rewrite lookup_delete_ne; [done|]. intros ->. simplify_eq. by apply Hf.
Qed.

Lemma wp_assign op :
  match op with AssignPlug _ _ | AssignGroup _ _ | AssignDefault _ => True | _ => False end →
  wp (run_op op user now) effect w.
Proof using Hcc Hok.
  pose proof no_effect as Hno. unfold effect in *. unfold run_op.
  destruct op as [| | | | | |pid t|gid t|t]; try done; intros _.
  all: unfold cpo_assign_plug_tariff, cpo_assign_group_tariff, cpo_assign_tenant_default_tariff.
  all: repeat wp_step; try apply (Hno (Ok tt)).
  all: apply wp_assignable; [|intros; apply (Hno (Ok tt))]; repeat wp_step; by apply pricing_frame.
Qed.

Lemma wp_op op : wp (run_op op user now) effect w.
Proof using Hcc Hok Htids.
  destruct op; auto using wp_create_tariff, wp_update_tariff, wp_delete_tariff, wp_create_slot,
    wp_update_slot, wp_delete_slot, wp_assign.
Qed.
End Ops.

Lemma ord_pairs_snd {A} (R : A → A → Prop) (l : list (Z * A)) :
  NoDup l → (∀ x y, x ∈ l → y ∈ l → x ≠ y → R x.2 y.2) → ForallOrdPairs R l.*2.
Proof.
  induction 1 as [|x l Hx Hnd IH]; intros HR; simpl; constructor.
  - apply List.Forall_forall. intros y (z & <- & Hz)%in_map_iff. apply list_elem_of_In in Hz.
    apply HR; [left | by right |]. by intros ->.
  - apply IH. intros y z Hy Hz. apply HR; by right.
Qed.

Lemma slots_of_disjoint d tid : slots_ok d → no_overlap (slots_of d tid).
Proof.
  intros Hok. apply ord_pairs_snd; [apply select_NoDup|].
  intros [i a] [j b] [Ha Hta]%elem_of_select [Hb Htb]%elem_of_select Hne. simpl in *.
  apply (sl_disjoint _ Hok i j); try done; [|passed; congruence].
  intros ->. apply Hne. congruence.
Qed.

Lemma slots_of_valid d tid :
  slots_ok d → Forall (λ s, slot_valid s ∧ 0 <= TariffSlot.days_mask s < 128) (slots_of d tid).
Proof.
  intros Hok. apply Forall_forall. intros s ([i x] & -> & [Hx _]%elem_of_select)%list_elem_of_fmap.
  by apply (sl_valid _ Hok i).
Qed.

(** C29: whatever the pricing requests, no two slots of a tariff are ever in
    force at the same minute (each slot is a valid window of one day), so the
    price a tariff gives at an instant does not depend on the order in which
    its slots are read. *)
Theorem tariff_slots_exclusive op user now w :
  com w = cur w → slots_ok (cur w) → (∀ i, next_id (cur w) <= i → tariffs (cur w) !! i = None) →
  let d' := com (run_request (run_op op user now) w).2 in
  slots_ok d' ∧
  ∀ tid l t, slots_of d' tid ≡ₚ l →
    (slot_rate_and_bound (slots_of d' tid) t).1 = (slot_rate_and_bound l t).1.
Proof.
  intros Hcc Hok Htids d'.
  assert (Hok' : slots_ok d').
  { pose proof (wp_op user now w Hcc Hok Htids op) as H. unfold wp in H. unfold d', run_request.
    destruct (run_op op user now w). apply (pe_slots _ _ _ _ H). }
  split; [done|]. intros tid l t Hl.
  by apply slot_rate_order_independent; [apply slots_of_valid | apply slots_of_disjoint |].
Qed.

(** Changing prices is forward-only and stays within the tenant: no wallet
    and no ledger row moves, no session's cost for any amount of energy changes
    (at most a running session of the tenant is asked to be priced anew), and
    the tariffs and slots of every other tenant stay as they are. *)
Theorem tariff_edit_forward_only op user now w :
  com w = cur w → slots_ok (cur w) → (∀ i, next_id (cur w) <= i → tariffs (cur w) !! i = None) →
  let d := cur w in
  let d' := com (run_request (run_op op user now) w).2 in
  users d' = users d ∧ ledger d' = ledger d ∧
  (∀ sid s, sessions d !! sid = Some s → ∃ s', sessions d' !! sid = Some s' ∧
     (∀ e, session_cost s' e = session_cost s e) ∧
     (s' ≠ s → is_active s = true ∧ Some (ChargingSession.tenant_id s) = User.tenant_id user)) ∧
  (∀ i t, tariffs d !! i = Some t → Some (Tariff.tenant_id t) ≠ User.tenant_id user →
     tariffs d' !! i = Some t ∧
     ∀ j s, slots d !! j = Some s → TariffSlot.tariff_id s = i → slots d' !! j = Some s).
Proof.
  intros Hcc Hok Htids d d'.
  assert (Heff : pricing_effect user now d d').
  { pose proof (wp_op user now w Hcc Hok Htids op) as H. unfold wp in H. unfold d', run_request.
    by destruct (run_op op user now w). }
  destruct Heff as [_ Hu Hl Hs Ht Hf]. split_and!; [done..| |].
  - intros sid s Hsid. destruct (Hs sid s Hsid) as (s' & Hs' & [->|(Ha & Hten & ->)]);
      eexists; (split; [done|]); by split.
  - intros i t Hi Hne. split; [by apply Ht|]. intros j s Hj <-. by eapply Hf.
Qed.
End Tariffs.
