(* ===== verification/Groups.v ===== *)
(** * routers/cpo/_groups.py, routers/groups.py: charger groups and who may see a plug

    A private group has an access code; whoever presents it joins, and only
    members see and use the group's plugs ([ensure_plug_group_access] of
    routers/plugs.py).  The random codes a handler draws are its argument. *)

From S2P Require Import Prelude Rounding PyNum Money Models Config Billing TelemetryStore World.
From S2P Require Import Hoare Wallet Commands Caps Lifecycle Payouts.

Record CpoGroupUpdateRequest := mkgroup_update {
  gu_name : option string;
  gu_is_public : option bool;
  gu_regenerate_access_code : bool;
  gu_max_current_a : option float }.

Section Groups.
Context `{cfg : Config}.
Implicit Types (d : db) (user : User.t) (now uid : Z).

(** ** Access codes *)

Definition has_code (code : string) (g : ChargerGroup.t) : bool :=
  bool_decide (ChargerGroup.access_code g = Some code).

(** [while True: code = ...; if not existing: return code], on the codes drawn. *)
Fixpoint generate_unique_access_code (draws : list string) : M string :=
  match draws with
  | [] => raise Unfinished
  | code :: draws =>
      existing ← query (λ d, exists_row (λ _, has_code code) (groups d));
      match existing with
      | true => generate_unique_access_code draws
      | false => mret code
      end
  end.

(** ** routers/cpo/_groups.py *)

(** [X.tenant_id == user.tenant_id]; an admin has no tenant, and no group is its. *)
Definition tenant_group (group_id : Z) (tenant_id : option Z) d : option ChargerGroup.t :=
  g ← groups d !! group_id;
  if bool_decide (Some (ChargerGroup.tenant_id g) = tenant_id) then Some g else None.

Definition load_tenant_group user (group_id : Z) : M ChargerGroup.t :=
  group ← query (tenant_group group_id (User.tenant_id user));
  or_raise group 404 "Group not found or access denied.".

Definition set_group (group_id : Z) (f : ChargerGroup.t → ChargerGroup.t) : M unit :=
  modify (λ d, d <| groups ::= alter f group_id |>).

Definition in_group (group_id : Z) (p : Plug.t) : bool := bool_decide (Plug.group_id p = Some group_id).

(** One row of [GET /api/cpo/groups]: the group, its plugs, members, live load
    and the drivers waiting for capacity. *)
Record group_row := mkgrouprow {
  gr_id : Z;
  gr_group : ChargerGroup.t;
  gr_plug_count : Z;
  gr_member_count : Z;
  gr_current_load_a : float;
  gr_pending_capacity_requests : Z }.

Definition group_row_of d (st : TelemetryStore.t) (mono : float) (r : Z * ChargerGroup.t) : group_row :=
  mkgrouprow r.1 r.2 (count (in_group r.1) (plugs d))
    (count (λ m, GroupMembership.group_id m =? r.1) (memberships d))
    (measured_circuit_load_a d st mono r.1 None)
    (count (λ x, CapacityRequest.group_id x =? r.1) (capacity_requests d)).

(** The code of a public group is not shown. *)
Definition shown_code (g : ChargerGroup.t) : option string :=
  if ChargerGroup.is_public g then None else ChargerGroup.access_code g.

(** [.limit(limit).offset(offset)] *)
Definition window {A} (limit offset : Z) (l : list A) : list A :=
  take (Z.to_nat limit) (drop (Z.to_nat offset) l).

Definition cpo_list_groups user (limit offset : Z) (mono : float) : M (list group_row) :=
  let '(limit, offset) := clamp_list_window limit offset in
  st ← read_store id;
  query (λ d, map (group_row_of d st mono)
    (window limit offset (order_by fst
      (select (λ _ g, bool_decide (Some (ChargerGroup.tenant_id g) = User.tenant_id user)) (groups d))))).

Definition cpo_create_group user (name : string) (is_public : bool) (draws : list string)
    : M (Z * option string) :=
  tenant_id ← require_tenant_id user;
  code ← (if is_public then mret None
          else c ← generate_unique_access_code draws; mret (Some c));
  i ← fresh;
  modify (λ d, d <| groups ::= <[i := ChargerGroup.mk tenant_id name is_public code None None]> |>);;
  commit;;
  mret (i, code).

Definition new_access_code (group_id : Z) (draws : list string) : M unit :=
  c ← generate_unique_access_code draws;
  set_group group_id (λ g, g <| ChargerGroup.access_code := Some c |>).

(** [if req.is_public is not None]: public clears the code, private has one. *)
Definition set_visibility (group_id : Z) (is_public : option bool) (draws : list string) : M unit :=
  match is_public with
  | None => mret tt
  | Some true =>
      set_group group_id (λ g, g <| ChargerGroup.is_public := true |>
                                 <| ChargerGroup.access_code := None |>)
  | Some false =>
      set_group group_id (λ g, g <| ChargerGroup.is_public := false |>);;
      g ← query (λ d, groups d !! group_id);
      match g ≫= ChargerGroup.access_code with
      | None | Some "" => new_access_code group_id draws
      | Some _ => mret tt
      end
  end.

(** [x or None]. *)
Definition or_none (x : float) : option float := if x =? 0 then None else Some x.

(** The second list is what the loop of [regenerate_access_code] draws. *)
Definition cpo_update_group user (group_id : Z) (req : CpoGroupUpdateRequest)
    (draws draws' : list string) : M (option ChargerGroup.t) :=
  _ ← load_tenant_group user group_id;
  match gu_name req with
  | Some name => set_group group_id (λ g, g <| ChargerGroup.name := name |>)
  | None => mret tt
  end;;
  set_visibility group_id (gu_is_public req) draws;;
  g ← query (λ d, groups d !! group_id);
  when (gu_regenerate_access_code req && negb (default false (ChargerGroup.is_public <$> g)))
    (new_access_code group_id draws');;
  match gu_max_current_a req with
  | Some a => set_group group_id (λ g, g <| ChargerGroup.max_current_a := or_none a |>)
  | None => mret tt
  end;;
  commit;;
  match gu_max_current_a req with
  | Some _ => _ ← notify_capacity_available (Some group_id) None; mret tt
  | None => mret tt
  end;;
  query (λ d, groups d !! group_id).

(** The plugs become ungrouped; memberships and requests for capacity go with
    the group (ON DELETE CASCADE). *)
Definition without_group (group_id : Z) d : db :=
  d <| plugs ::= update_where (in_group group_id) (λ p, p <| Plug.group_id := None |>) |>
    <| memberships ::= delete_where (λ _ m, GroupMembership.group_id m =? group_id) |>
    <| capacity_requests ::= delete_where (λ _ x, CapacityRequest.group_id x =? group_id) |>
    <| groups ::= delete group_id |>.

Definition cpo_delete_group user (group_id : Z) : M unit :=
  _ ← load_tenant_group user group_id;
  modify (without_group group_id);;
  commit.

Definition is_membership uid (group_id : Z) (m : GroupMembership.t) : bool :=
  (GroupMembership.user_id m =? uid) && (GroupMembership.group_id m =? group_id).

(** [scalar_one_or_none()] on the memberships of a user in a group. *)
Definition find_membership uid (group_id : Z) : M (option (Z * GroupMembership.t)) :=
  rows ← query (λ d, select (λ _ m, is_membership uid group_id m) (memberships d));
  one_or_none rows.

Definition delete_membership (i : Z) : M unit :=
  modify (λ d, d <| memberships ::= delete i |>);;
  commit.

(** Oldest joiner first: user, email, full name, when. *)
Definition cpo_list_group_members user (group_id : Z) : M (list (Z * string * string * datetime)) :=
  _ ← load_tenant_group user group_id;
  query (λ d,
    omap (λ r, u ← users d !! GroupMembership.user_id r.2;
               Some (GroupMembership.user_id r.2, User.email u, User.full_name u,
                     GroupMembership.joined_at r.2))
      (order_by2 (λ r, GroupMembership.joined_at r.2) fst
         (select (λ _ m, GroupMembership.group_id m =? group_id) (memberships d)))).

Definition cpo_remove_group_member user (group_id uid : Z) : M unit :=
  _ ← load_tenant_group user group_id;
  membership ← find_membership uid group_id;
  '(i, _) ← or_raise membership 404 "That user is not a member of this group.";
  delete_membership i.

(** ** routers/groups.py *)

(** What [join_group] decides before it writes... *)
Definition join_check uid (access_code : string) : M (Z * ChargerGroup.t) :=
  rows ← query (λ d, select (λ _ g, has_code access_code g) (groups d));
  group ← one_or_none rows;
  '(gid, group) ← or_raise group 404 "Invalid access code. No group found.";
  refuse (ChargerGroup.is_public group) 400 "This group is public. No access code needed.";;
  membership ← find_membership uid gid;
  refuse (bool_decide (is_Some membership)) 400 "You are already a member of this group.";;
  mret (gid, group).

(** ... and the write: no lock is held in between, and no constraint makes the
    pair unique. *)
Definition join_store uid (group_id : Z) now : M unit :=
  i ← fresh;
  modify (λ d, d <| memberships ::= <[i := GroupMembership.mk uid group_id now]> |>);;
  commit.

Definition join_group uid (access_code : string) now : M Z :=
  '(gid, _) ← join_check uid access_code;
  join_store uid gid now;;
  mret gid.

(** The groups open to a user, each with its number of plugs. *)
Definition visible_group d uid (gid : Z) (g : ChargerGroup.t) : bool :=
  ChargerGroup.is_public g || exists_row (λ _ m, is_membership uid gid m) (memberships d).

Definition get_my_groups uid (limit : Z) : M (list (Z * ChargerGroup.t * Z)) :=
  let limit := Z.max 1 (Z.min limit 200) in
  query (λ d, take (Z.to_nat limit)
    (map (λ r, (r, count (in_group r.1) (plugs d))) (select (visible_group d uid) (groups d)))).

Definition leave_group uid (group_id : Z) : M unit :=
  membership ← find_membership uid group_id;
  '(i, _) ← or_raise membership 404 "You are not a member of this group.";
  delete_membership i.

(** ** routers/plugs.py: who may see a plug

    The group's name, and whether it is private.  [if plug.group_id]: NULL and 0. *)
Definition ensure_plug_group_access (plug : Plug.t) uid : M (option string * bool) :=
  match Plug.group_id plug with
  | None | Some 0 => mret (None, false)
  | Some gid =>
      group ← query (λ d, groups d !! gid);
      match group with
      | None => mret (None, false)
      | Some g =>
          when (negb (ChargerGroup.is_public g))
            (membership ← find_membership uid gid;
             refuse (bool_decide (membership = None)) 403
               "This plug belongs to a private group. Join the group first using an access code.");;
          mret (Some (ChargerGroup.name g), negb (ChargerGroup.is_public g))
      end
  end.

(** ** The invariant and the abstract access relation *)

(** A code opens one group, a user is a member of a group once. *)
Record groups_ok d : Prop := {
  gk_codes : ∀ i j g h c, groups d !! i = Some g → groups d !! j = Some h →
    ChargerGroup.access_code g = Some c → ChargerGroup.access_code h = Some c → i = j;
  gk_once : ∀ i j m n, memberships d !! i = Some m → memberships d !! j = Some n →
    GroupMembership.user_id m = GroupMembership.user_id n →
    GroupMembership.group_id m = GroupMembership.group_id n → i = j;
  gk_group : ∀ i m, memberships d !! i = Some m → is_Some (groups d !! GroupMembership.group_id m);
  gk_ids : ∀ i, next_id d <= i → groups d !! i = None;
  gk_mids : ∀ i, next_id d <= i → memberships d !! i = None }.

(** Who is a member of what. *)
Definition members d : gset (Z * Z) :=
  list_to_set ((λ r, (GroupMembership.user_id r.2, GroupMembership.group_id r.2)) <$>
               map_to_list (memberships d)).

Lemma elem_of_members d uid gid :
  (uid, gid) ∈ members d ↔ ∃ i m, memberships d !! i = Some m ∧ is_membership uid gid m = true.
Proof.
  unfold members, is_membership. rewrite elem_of_list_to_set, list_elem_of_fmap. split.
  - intros ([i m] & [= -> ->] & Hm%elem_of_map_to_list). exists i, m. simpl.
    by rewrite !Z.eqb_refl.
  - intros (i & m & Hm & Hb). passed. subst. exists (i, m). by rewrite elem_of_map_to_list.
Qed.

Lemma members_frame d d' : memberships d' = memberships d → members d' = members d.
Proof. unfold members. by intros ->. Qed.

(** Under the invariant a lookup of a membership never finds two rows. *)
Lemma wp_find_membership uid gid (Q : result (option (Z * GroupMembership.t)) → world → Prop) w :
  groups_ok (cur w) →
  (∀ i m, memberships (cur w) !! i = Some m → is_membership uid gid m = true →
     Q (Ok (Some (i, m))) w) →
  ((uid, gid) ∉ members (cur w) → Q (Ok None) w) →
  wp (find_membership uid gid) Q w.
Proof.
  intros Hok Hsome Hnone. unfold find_membership. do 2 wp_step.
  destruct (select_unique (λ _ m, is_membership uid gid m) (memberships (cur w)))
    as [Hs | (i & m & Hs & Hm & Hp)].
  - intros i j m n Hm Hn Hpm Hpn. unfold is_membership in *. passed. eapply gk_once; eauto; congruence.
  - rewrite Hs. apply wp_ret, Hnone. intros (i & m & Hm & Hp)%elem_of_members.
    assert (Hin : (i, m) ∈ select (λ _ m, is_membership uid gid m) (memberships (cur w)))
      by (apply elem_of_select; done). rewrite Hs in Hin. by apply not_elem_of_nil in Hin.
  - rewrite Hs. apply wp_ret. by apply (Hsome i m).
Qed.

Lemma wp_load_group user gid (Q : result ChargerGroup.t → world → Prop) w :
  (∀ g, groups (cur w) !! gid = Some g → Some (ChargerGroup.tenant_id g) = User.tenant_id user →
     Q (Ok g) w) →
  ((∀ g, groups (cur w) !! gid = Some g → Some (ChargerGroup.tenant_id g) ≠ User.tenant_id user) →
     Q (Raise (HTTPException 404 "Group not found or access denied.")) w) →
  wp (load_tenant_group user gid) Q w.
Proof.
  intros H1 H2. unfold load_tenant_group, tenant_group. do 2 wp_step.
  destruct (groups (cur w) !! gid) as [g|] eqn:Hg; simpl; [case_bool_decide|].
  - by apply wp_ret, H1.
  - apply wp_raise, H2. naive_solver.
  - apply wp_raise, H2. naive_solver.
Qed.

(** The code the loop ends with is nobody's; it ends when a fresh one is drawn. *)
Lemma wp_generate draws (Q : result string → world → Prop) w :
  (∀ c, c ∈ draws → (∀ i g, groups (cur w) !! i = Some g → ChargerGroup.access_code g ≠ Some c) →
     Q (Ok c) w) →
  (Forall (λ c, exists_row (λ _, has_code c) (groups (cur w)) = true) draws →
     Q (Raise Unfinished) w) →
  wp (generate_unique_access_code draws) Q w.
Proof.
  revert Q. induction draws as [|c draws IH]; intros Q H1 H2; simpl; [by apply wp_raise, H2|].
  do 2 wp_step. destruct (exists_row _ _) eqn:He.
  - apply IH; [intros; apply H1; [by right | done] | intros HF; apply H2; by constructor].
  - apply wp_ret, H1; [left|]. intros i g Hg Hc. rewrite exists_row_false in He.
    specialize (He i g Hg). unfold has_code in He. by case_bool_decide.
Qed.

(** ** Requests, and what they grant *)

Inductive group_request :=
  | CreateGroup (user : User.t) (name : string) (is_public : bool) (draws : list string)
  | UpdateGroup (user : User.t) (group_id : Z) (req : CpoGroupUpdateRequest) (draws draws' : list string)
  | DeleteGroup (user : User.t) (group_id : Z)
  | RemoveMember (user : User.t) (group_id uid : Z)
  | JoinGroup (uid : Z) (access_code : string) (now : Z)
  | LeaveGroup (uid group_id : Z).

(** The group a reply says was joined. *)
Definition serve_group (r : group_request) : M (option Z) :=
  match r with
  | CreateGroup user name is_public draws => cpo_create_group user name is_public draws;; mret None
  | UpdateGroup user gid req draws draws' => cpo_update_group user gid req draws draws';; mret None
  | DeleteGroup user gid => cpo_delete_group user gid;; mret None
  | RemoveMember user gid uid => cpo_remove_group_member user gid uid;; mret None
  | JoinGroup uid code now => gid ← join_group uid code now; mret (Some gid)
  | LeaveGroup uid gid => leave_group uid gid;; mret None
  end.

(** The abstract state: the memberships granted, as the replies tell. *)
Definition grant (E : gset (Z * Z)) (x : db * group_request * result (option Z)) : gset (Z * Z) :=
  match x.1.2, x.2 with
  | JoinGroup uid _ _, Ok (Some gid) => {[(uid, gid)]} ∪ E
  | LeaveGroup uid gid, Ok _ => E ∖ {[(uid, gid)]}
  | RemoveMember _ gid uid, Ok _ => E ∖ {[(uid, gid)]}
  | DeleteGroup _ gid, Ok _ => filter (λ p, p.2 ≠ gid) E
  | _, _ => E
  end.

Definition owns_group user (gid : Z) d : Prop :=
  ∃ g, groups d !! gid = Some g ∧ Some (ChargerGroup.tenant_id g) = User.tenant_id user.

(** What the state must have been for the reply that was given: a join is
    granted for the code the private group has now, and refused otherwise; only
    the group's own operator changes the group or removes a member. *)
Definition justified (x : db * group_request * result (option Z)) : Prop :=
  let d := x.1.1 in
  match x.1.2, x.2 with
  | JoinGroup uid code _, Ok (Some gid) =>
      ((uid, gid) ∉ members d) ∧
      ∃ g, groups d !! gid = Some g ∧ ChargerGroup.is_public g = false ∧
           ChargerGroup.access_code g = Some code
  | JoinGroup uid code _, Raise _ =>
      ∀ gid g, groups d !! gid = Some g → ChargerGroup.access_code g = Some code →
        ChargerGroup.is_public g = true ∨ (uid, gid) ∈ members d
  | LeaveGroup uid gid, Ok _ => (uid, gid) ∈ members d
  | LeaveGroup uid gid, Raise e =>
      ((uid, gid) ∉ members d) ∧ e = HTTPException 404 "You are not a member of this group."
  | RemoveMember user gid uid, Ok _ => owns_group user gid d ∧ (uid, gid) ∈ members d
  | RemoveMember user gid uid, Raise _ => ¬ (owns_group user gid d ∧ (uid, gid) ∈ members d)
  | UpdateGroup user gid _ _ _, Ok _ | DeleteGroup user gid, Ok _ => owns_group user gid d
  | DeleteGroup user gid, Raise _ => ¬ owns_group user gid d
  | CreateGroup user _ _ _, Ok _ => is_Some (User.tenant_id user)
  | UpdateGroup _ _ _ _ _, Raise _ | CreateGroup _ _ _ _, Raise _ => True
  | JoinGroup _ _ _, Ok None => False
  end.

Fixpoint run_groups (rs : list group_request) (w : world)
    : list (db * group_request * result (option Z)) * world :=
  match rs with
  | [] => ([], w)
  | r :: rs =>
      let '(out, w') := run_request (serve_group r) w in
      let '(tr, w'') := run_groups rs w' in
      ((com w, r, out) :: tr, w'')
  end.

(** ** One request *)

Definition group_step r w (out : result (option Z)) (w' : world) : Prop :=
  justified (com w, r, out) ∧ groups_ok (com w') ∧
  members (com w') = grant (members (com w)) (com w, r, out).

Lemma groups_ok_frame d d' :
  groups_ok d → groups d' = groups d → memberships d' = memberships d →
  next_id d <= next_id d' → groups_ok d'.
Proof.
  intros [H1 H2 H3 H4 H5] Hg Hm Hn. split; rewrite ?Hg, ?Hm; try done; intros i Hi; [apply H4|apply H5]; lia.
Qed.

(** A membership goes. *)
Lemma deleted_membership d d' i m uid gid :
  groups_ok d → memberships d !! i = Some m → is_membership uid gid m = true →
  groups d' = groups d → memberships d' = delete i (memberships d) → next_id d <= next_id d' →
  groups_ok d' ∧ members d' = members d ∖ {[(uid, gid)]}.
Proof.
  intros Hok Hm Hp Hg Hms Hn. pose proof Hok as [H1 H2 H3 H4 H5]. split.
  - split; rewrite ?Hg, ?Hms; try done.
    + intros j k x y [_ Hx]%lookup_delete_Some [_ Hy]%lookup_delete_Some. by apply H2.
    + intros j x [_ Hx]%lookup_delete_Some. eauto.
    + intros j Hj. apply H4. lia.
    + intros j Hj. apply lookup_delete_None. right. apply H5. lia.
  - apply set_eq. intros [u g]. rewrite elem_of_difference, elem_of_singleton, !elem_of_members, Hms.
    split.
    + intros (j & x & [Hne Hx]%lookup_delete_Some & Hq). split; [by exists j, x|]. intros [= -> ->].
      apply Hne. unfold is_membership in *. passed. apply (H2 i j m x); congruence.
    + intros [(j & x & Hx & Hq) Hne]. exists j, x. split; [|done]. apply lookup_delete_Some.
      split; [|done]. intros ->. apply Hne. unfold is_membership in *. passed.
      assert (m = x) as -> by congruence. congruence.
Qed.

(** A membership comes. *)
Lemma inserted_membership d d' i uid gid now :
  groups_ok d → (uid, gid) ∉ members d → is_Some (groups d !! gid) →
  groups d' = groups d → memberships d' = <[i := GroupMembership.mk uid gid now]> (memberships d) →
  i = next_id d → next_id d' = Z.succ (next_id d) →
  groups_ok d' ∧ members d' = {[(uid, gid)]} ∪ members d.
Proof.
  intros Hok Hnew Hgid Hg Hms -> Hn. pose proof Hok as [H1 H2 H3 H4 H5].
  assert (Hfresh : memberships d !! next_id d = None) by (apply H5; lia).
  assert (Hno : ∀ j x, memberships d !! j = Some x → is_membership uid gid x = true → False).
  { intros j x Hx Hq. apply Hnew, elem_of_members. eauto. }
  split.
  - split; rewrite ?Hg, ?Hms; try done.
    + intros j k x y [[<- <-]|[Hj Hx]]%lookup_insert_Some [[<- <-]|[Hk Hy]]%lookup_insert_Some Hu Hgg;
        simpl in *; eauto; exfalso; [eapply (Hno k y) | eapply (Hno j x)]; try done;
        unfold is_membership; apply andb_true_iff; rewrite !Z.eqb_eq; done.
    + intros j x [[<- <-]|[_ Hx]]%lookup_insert_Some; eauto.
    + intros j Hj. apply H4. lia.
    + intros j Hj. rewrite lookup_insert_ne by lia. apply H5. lia.
  - apply set_eq. intros [u g]. rewrite elem_of_union, elem_of_singleton, !elem_of_members, Hms. split.
    + intros (j & x & [[<- <-]|[Hj Hx]]%lookup_insert_Some & Hq); [left | right; eauto].
      unfold is_membership in Hq. simpl in Hq. passed. congruence.
    + intros [[= -> ->] | (j & x & Hx & Hq)].
      * exists (next_id d), (GroupMembership.mk uid gid now). rewrite lookup_insert_eq. split; [done|].
        unfold is_membership. simpl. by rewrite !Z.eqb_refl.
      * exists j, x. rewrite lookup_insert_ne; [done|]. intros <-. congruence.
Qed.

Section Requests.
Context (w : world) (Hcc : com w = cur w) (Hok : groups_ok (cur w)).

(** A request that refused before it wrote. *)
Lemma refused_step r e :
  justified (com w, r, Raise e) → group_step r w (Raise e) w.
Proof using Hcc Hok.
  intros Hj. split; [done|]. rewrite Hcc. split; [done|]. by destruct r.
Qed.

Lemma step_leave uid gid :
  wp (serve_group (LeaveGroup uid gid)) (group_step (LeaveGroup uid gid) w) w.
Proof using Hcc Hok.
  unfold serve_group, leave_group. do 2 wp_step.
  apply wp_find_membership; [done| |].
  - intros i m Hm Hp. repeat wp_step.
    destruct (deleted_membership (cur w) ((cur w) <| memberships ::= delete i |>) i m uid gid)
      as [Hok' Hmem]; try done.
    split; [|split; [done | by rewrite Hcc]]. simpl. rewrite Hcc. apply elem_of_members. eauto.
  - intros Hno. cbv iota. apply wp_bind, wp_raise, refused_step. simpl. by rewrite Hcc.
Qed.

Lemma step_remove user gid uid :
  wp (serve_group (RemoveMember user gid uid)) (group_step (RemoveMember user gid uid) w) w.
Proof using Hcc Hok.
  unfold serve_group, cpo_remove_group_member. do 2 wp_step. apply wp_load_group.
  - intros g Hg Ht. wp_step. apply wp_find_membership; [done| |].
    + intros i m Hm Hp. repeat wp_step.
      destruct (deleted_membership (cur w) ((cur w) <| memberships ::= delete i |>) i m uid gid)
        as [Hok' Hmem]; try done.
      split; [|split; [done | by rewrite Hcc]]. simpl. rewrite Hcc. split; [by exists g|].
      apply elem_of_members. eauto.
    + intros Hno. cbv iota. apply wp_bind, wp_raise, refused_step. simpl. rewrite Hcc. by intros [_ ?].
  - intros Hno. apply refused_step. simpl. rewrite Hcc. intros [(g & Hg & Ht) _]. by apply (Hno g).
Qed.

Lemma step_delete user gid :
  wp (serve_group (DeleteGroup user gid)) (group_step (DeleteGroup user gid) w) w.
Proof using Hcc Hok.
  unfold serve_group, cpo_delete_group. do 2 wp_step. apply wp_load_group.
  - intros g Hg Ht. repeat wp_step. pose proof Hok as [H1 H2 H3 H4 H5].
    split; [simpl; rewrite Hcc; by exists g|]. simpl. rewrite Hcc. split.
    + split; simpl.
      * intros i j x y c [_ Hx]%lookup_delete_Some [_ Hy]%lookup_delete_Some. by apply H1.
      * intros i j m n [Hm _]%lookup_delete_where [Hn _]%lookup_delete_where. by apply H2.
      * intros i m [Hm Hne]%lookup_delete_where. passed. rewrite lookup_delete_ne by done. eauto.
      * intros i Hi. apply lookup_delete_None. right. by apply H4.
      * intros i Hi. destruct (delete_where _ _ !! i) as [m|] eqn:Hm; [|done].
        apply lookup_delete_where in Hm as [Hm _]. by rewrite H5 in Hm.
    + unfold grant. simpl. apply set_eq. intros [u k]. rewrite elem_of_filter, !elem_of_members. simpl.
      unfold is_membership. split.
      * intros (i & m & [Hm Hne]%lookup_delete_where & Hq). passed. split; [congruence|].
        exists i, m. split; [done|]. by rewrite andb_true_iff, !Z.eqb_eq.
      * intros [Hne (i & m & Hm & Hq)]. exists i, m. split; [|done]. apply lookup_delete_where.
        split; [done|]. passed. apply Z.eqb_neq. congruence.
  - intros Hno. apply refused_step. simpl. rewrite Hcc. intros (g & Hg & Ht). by apply (Hno g).
Qed.

Lemma step_join uid code now :
  wp (serve_group (JoinGroup uid code now)) (group_step (JoinGroup uid code now) w) w.
Proof using Hcc Hok.
  unfold serve_group, join_group, join_check. do 5 wp_step.
  assert (Huniq : ∀ i j g h, groups (cur w) !! i = Some g → groups (cur w) !! j = Some h →
    has_code code g = true → has_code code h = true → i = j).
  { intros i j g h Hg Hh Hcg Hch. unfold has_code in *. passed. eapply gk_codes; eauto. }
  destruct (select_unique (λ _ g, has_code code g) (groups (cur w))) as [Hs | (gid & g & Hs & Hg & Hc)];
    [exact Huniq | |]; rewrite Hs.
  - apply wp_ret. cbv iota beta. apply wp_bind, wp_raise, refused_step. simpl. rewrite Hcc.
    intros gid g Hg Hc. exfalso.
    assert (Hin : (gid, g) ∈ select (λ _ g, has_code code g) (groups (cur w))).
    { apply elem_of_select. split; [done|]. unfold has_code. by case_bool_decide. }
    rewrite Hs in Hin. by apply not_elem_of_nil in Hin.
  - apply wp_ret. cbv iota beta. apply wp_bind, wp_ret. cbv iota beta.
    assert (Hsame : ∀ j h, groups (com w) !! j = Some h → ChargerGroup.access_code h = Some code →
      j = gid ∧ h = g).
    { rewrite Hcc. intros j h Hh Hch. assert (j = gid) as ->; [|split; congruence].
      apply (Huniq j gid h g); try done. unfold has_code. by case_bool_decide. }
    apply wp_bind, wp_refuse; intros Hpub; cbv iota beta.
    { apply refused_step. simpl. intros j h Hh Hch. destruct (Hsame j h Hh Hch) as [-> ->]. by left. }
    apply wp_bind, wp_find_membership; [done|..].
    + intros i m Hm Hp. rewrite bool_decide_true by eauto. repeat wp_step; try done. apply refused_step. simpl. intros j h Hh Hch.
      destruct (Hsame j h Hh Hch) as [-> ->]. right. rewrite Hcc. apply elem_of_members. eauto.
    + intros Hno. cbv iota beta. wp_step. simpl. unfold join_store. repeat wp_step.
      destruct (inserted_membership (cur w)
        ((cur w) <| next_id ::= Z.succ |>
               <| memberships ::= <[next_id (cur w) := GroupMembership.mk uid gid now]> |>)
        (next_id (cur w)) uid gid now) as [Hok' Hmem]; try done.
      split; [|split; [done | by rewrite Hcc]]. simpl. rewrite Hcc. split; [done|].
      exists g. unfold has_code in Hc. by case_bool_decide.
Qed.

Lemma step_create user name is_public draws :
  wp (serve_group (CreateGroup user name is_public draws))
     (group_step (CreateGroup user name is_public draws) w) w.
Proof using Hcc Hok.
  assert (Hdone : ∀ tid code, User.tenant_id user = Some tid →
    (∀ c, code = Some c → ∀ i g, groups (cur w) !! i = Some g → ChargerGroup.access_code g ≠ Some c) →
    wp (i ← fresh;
        modify (λ d, d <| groups ::= <[i := ChargerGroup.mk tid name is_public code None None]> |>);;
        commit;; mret (i, code))
       (λ out w', match out with
          | Ok _ => wp (mret None) (group_step (CreateGroup user name is_public draws) w) w'
          | Raise e => group_step (CreateGroup user name is_public draws) w (Raise e) w' end) w).
  { intros tid code Ht Hfresh. repeat wp_step. split; [by exists tid|]. simpl. split.
    - destruct Hok as [H1 H2 H3 H4 H5]. split; simpl.
      + intros i j g h c [[<- <-]|[Hi Hg]]%lookup_insert_Some [[<- <-]|[Hj Hh]]%lookup_insert_Some;
          simpl; try done; [| |by apply H1]; intros Hc Hd; exfalso;
          [eapply (Hfresh c) | eapply (Hfresh c)]; eauto.
      + done.
      + intros i m Hm. destruct (H3 i m Hm) as [g Hg]. rewrite lookup_insert_is_Some.
        destruct (decide (next_id (cur w) = GroupMembership.group_id m)); [by left | right; eauto].
      + intros i Hi. rewrite lookup_insert_ne by lia. apply H4. lia.
      + intros i Hi. apply H5. lia.
    - rewrite Hcc. by apply members_frame. }
  unfold serve_group, cpo_create_group, require_tenant_id. do 2 wp_step.
  destruct (User.tenant_id user) as [tid|] eqn:Ht; [|by apply wp_raise, refused_step].
  wp_step. apply wp_bind. destruct is_public.
  - apply wp_ret. cbv iota beta. by apply Hdone.
  - wp_step. apply wp_generate.
    + intros c _ Hfresh. apply wp_ret. cbv iota beta. apply Hdone; [done|]. by intros ? [= ->].
    + intros _. by apply refused_step.
Qed.

(** An update in progress: one group changes, no membership does. *)
Definition updating w' : Prop :=
  groups_ok (cur w') ∧ memberships (cur w') = memberships (cur w) ∧ com w' = com w.

Lemma updating_set gid f w' :
  updating w' →
  (∀ g, groups (cur w') !! gid = Some g →
     ChargerGroup.access_code (f g) = ChargerGroup.access_code g ∨
     ChargerGroup.access_code (f g) = None ∨
     ∃ c, ChargerGroup.access_code (f g) = Some c ∧
       ∀ i h, groups (cur w') !! i = Some h → ChargerGroup.access_code h ≠ Some c) →
  updating (set_group gid f w').2.
Proof.
  intros ([H1 H2 H3 H4 H5] & Hm & Hc) Hf. split; [|done]. simpl.
  assert (Hcode : ∀ i h c, alter f gid (groups (cur w')) !! i = Some h →
    ChargerGroup.access_code h = Some c →
    (∃ h0, groups (cur w') !! i = Some h0 ∧ ChargerGroup.access_code h0 = Some c) ∨
    (i = gid ∧ ∀ j x, groups (cur w') !! j = Some x → ChargerGroup.access_code x ≠ Some c)).
  { intros i h c Hi Hh. destruct (decide (gid = i)) as [<-|Hne].
    - rewrite lookup_alter_eq in Hi. destruct (groups (cur w') !! gid) as [g|] eqn:Hg; [|done].
      apply (inj Some) in Hi as <-.
      destruct (Hf g eq_refl) as [He|[He|(c' & He & Hn)]]; [left; exists g; split; congruence|congruence|].
      right. split; [done|]. intros j x Hx. rewrite Hh in He. simplify_eq. eauto.
    - rewrite lookup_alter_ne in Hi by done. left. eauto. }
  split; simpl; try done.
  - intros i j g h c Hg Hh Hcg Hch.
    destruct (Hcode i g c Hg Hcg) as [(g0 & Hg0 & Hc0)|[-> Hn]],
             (Hcode j h c Hh Hch) as [(h0 & Hh0 & Hd0)|[-> Hn']]; try done; eauto; exfalso; eauto.
    + by eapply Hn'.
    + by eapply Hn.
  - intros i m Hmm. rewrite lookup_alter_is_Some. eauto.
  - intros i Hi. rewrite lookup_alter_None. by apply H4.
Qed.

Lemma updating_keep gid f :
  (∀ g, ChargerGroup.access_code (f g) = ChargerGroup.access_code g ∨
        ChargerGroup.access_code (f g) = None) →
  preserves updating (set_group gid f).
Proof.
  intros Hf w' Hw. apply updating_set; [done|]. intros g _. destruct (Hf g); auto.
Qed.

Lemma updating_new_code gid draws : preserves updating (new_access_code gid draws).
Proof.
  intros w' Hw. unfold new_access_code.
  assert (H : wp (generate_unique_access_code draws) (λ r w'', match r with
    | Ok c => updating (set_group gid (λ g, g <| ChargerGroup.access_code := Some c |>) w'').2
    | Raise _ => updating w'' end) w').
  { apply wp_generate; [|done]. intros c _ Hfresh. apply updating_set; [done|].
    intros g Hg. simpl. right; right. eauto. }
  unfold wp, mbind, M_bind in *. by destruct (generate_unique_access_code draws w') as [[c|e] w''].
Qed.

Lemma updating_visibility gid pub draws : preserves updating (set_visibility gid pub draws).
Proof.
  unfold set_visibility. destruct pub as [[]|]; [|apply preserves_bind; [|intros _]|apply preserves_ret].
  - apply updating_keep. by right.
  - apply updating_keep. by left.
  - preserve_step; [apply preserves_query|]. destruct (_ ≫= _) as [[|]|];
      [apply updating_new_code | apply preserves_ret | apply updating_new_code].
Qed.

Lemma step_update user gid req draws draws' :
  wp (serve_group (UpdateGroup user gid req draws draws'))
     (group_step (UpdateGroup user gid req draws draws') w) w.
Proof using Hcc Hok.
  assert (Hend : ∀ out w', groups_ok (com w') → memberships (com w') = memberships (com w) →
    justified (com w, UpdateGroup user gid req draws draws', out) →
    group_step (UpdateGroup user gid req draws draws') w out w').
  { intros out w' H1 H2 H3. split; [done|]. split; [done|]. rewrite (members_frame _ _ H2). by destruct out. }
  assert (Hstart : updating w) by done.
  assert (Hraise : ∀ e w', updating w' →
    group_step (UpdateGroup user gid req draws draws') w (Raise e) w').
  { intros e w' (_ & _ & Hc). apply Hend; rewrite ?Hc; try done. by rewrite Hcc. }
  unfold serve_group, cpo_update_group. do 2 wp_step. apply wp_load_group; [|intros _; by apply Hraise].
  intros g Hg Ht. apply wp_bind. eapply wp_preserves; [|exact Hstart|].
  { destruct (gu_name req); [apply updating_keep; by left | apply preserves_ret]. }
  intros [[]|e] w1 Hw1; [|by apply Hraise]. cbv iota beta. apply wp_bind.
  eapply wp_preserves; [apply updating_visibility|exact Hw1|].
  intros [[]|e] w2 Hw2; [|by apply Hraise]. cbv iota beta. do 2 wp_step. apply wp_bind.
  eapply wp_preserves; [apply preserves_when, updating_new_code|exact Hw2|].
  intros [[]|e] w3 Hw3; [|by apply Hraise]. cbv iota beta. apply wp_bind.
  eapply wp_preserves; [|exact Hw3|].
  { destruct (gu_max_current_a req); [apply updating_keep; by left | apply preserves_ret]. }
  intros [[]|e] w4 Hw4; [|by apply Hraise]. cbv iota beta. do 2 wp_step. apply wp_bind.
  assert (Hjust : justified (com w, UpdateGroup user gid req draws draws', Ok None))
    by (simpl; rewrite Hcc; by exists g).
  destruct Hw4 as (Hok4 & Hm4 & _). rewrite <- Hcc in Hm4. destruct (gu_max_current_a req).
  - wp_step. eapply (wp_safe _ _ _ _ (capacity_safe (core (cur w4)) (Some gid) None)); [done|].
    intros a w5 [_ Hcore]. do 2 wp_step. cbv iota beta. repeat wp_step. apply Hend; [| |done].
    + apply (groups_ok_frame (cur w4)); [done|..].
      * by apply (f_equal groups) in Hcore.
      * by apply (f_equal memberships) in Hcore.
      * apply (f_equal next_id) in Hcore. simpl in Hcore. lia.
    + apply (f_equal memberships) in Hcore. simpl in Hcore. by rewrite Hcore.
  - repeat wp_step. by apply Hend.
Qed.

Lemma step_serve r : wp (serve_group r) (group_step r w) w.
Proof using Hcc Hok.
  destruct r; [apply step_create | apply step_update | apply step_delete | apply step_remove
    | apply step_join | apply step_leave].
Qed.
End Requests.

(** A plug anyone may see: in no group, or in a public one. *)
Definition open_plug d (plug : Plug.t) : Prop :=
  ∀ gid g, Plug.group_id plug = Some gid → gid ≠ 0 → groups d !! gid = Some g →
    ChargerGroup.is_public g = true.

(** What the check says of a user and a plug. *)
Definition access_verdict d plug uid (out : result (option string * bool)) : Prop :=
  match out with
  | Ok (_, false) => open_plug d plug
  | Ok (_, true) => ∃ gid, Plug.group_id plug = Some gid ∧ (uid, gid) ∈ members d
  | Raise e => (∃ c, e = HTTPException 403 c) ∧ ¬ open_plug d plug ∧
      ∀ gid, Plug.group_id plug = Some gid → (uid, gid) ∉ members d
  end.

Lemma wp_ensure plug uid (Q : result (option string * bool) → world → Prop) w :
  groups_ok (cur w) →
  (∀ out, access_verdict (cur w) plug uid out → Q out w) →
  wp (ensure_plug_group_access plug uid) Q w.
Proof.
  intros Hok HQ. unfold ensure_plug_group_access.
  assert (Hgo : ∀ gid, gid ≠ 0 → Plug.group_id plug = Some gid →
    wp (group ← query (λ d, groups d !! gid);
        match group with
        | None => mret (None, false)
        | Some g =>
            when (negb (ChargerGroup.is_public g))
              (membership ← find_membership uid gid;
               refuse (bool_decide (membership = None)) 403
                 "This plug belongs to a private group. Join the group first using an access code.");;
            mret (Some (ChargerGroup.name g), negb (ChargerGroup.is_public g))
        end) Q w).
  { intros gid Hnz Hg. do 2 wp_step. destruct (groups (cur w) !! gid) as [g|] eqn:Hgg.
    2: { apply wp_ret, HQ. intros gid' g' ? ? ?. congruence. }
    wp_step. destruct (ChargerGroup.is_public g) eqn:Hpub.
    - wp_step; [done|]. apply wp_ret, HQ. intros gid' g' ? ? ?. congruence.
    - wp_step; [|done]. apply wp_bind, wp_find_membership; [done|..].
      + intros i m Hm Hp. wp_step; [done|]. apply wp_ret, HQ. exists gid. split; [done|].
        apply elem_of_members. eauto.
      + intros Hno. wp_step; [|done]. apply HQ. split_and!; [eauto| |congruence].
        intros Hopen. specialize (Hopen gid g Hg Hnz Hgg). congruence. }
  destruct (Plug.group_id plug) as [[|p|p]|] eqn:Hg; [|by apply Hgo..|].
  all: apply wp_ret, HQ; intros gid g Hgid Hnz; congruence.
Qed.

(** C13: memberships of private groups refine what the replies granted.  Along any
    run of group requests from a well-formed state, every reply is justified by
    the state it was given in (a join only for the code the private group has at
    that moment, a change only by the group's own operator, a removal or leave
    only of a member); the memberships are exactly the joins not yet undone by a
    leave, a removal or the group's deletion; and a plug is shown to a user
    exactly when its group is not private or that record has them as a member,
    else the answer is 403. *)
Theorem group_access_refines rs w :
  com w = cur w → groups_ok (com w) →
  let '(tr, w') := run_groups rs w in
  let E := foldl grant (members (com w)) tr in
  Forall justified tr ∧ groups_ok (com w') ∧ members (com w') = E ∧
  ∀ plug uid, match (ensure_plug_group_access plug uid w').1 with
    | Ok _ => open_plug (com w') plug ∨ ∃ gid, Plug.group_id plug = Some gid ∧ (uid, gid) ∈ E
    | Raise e => (∃ c, e = HTTPException 403 c) ∧ ¬ open_plug (com w') plug ∧
        ∀ gid, Plug.group_id plug = Some gid → (uid, gid) ∉ E
    end.
Proof.
  revert w. induction rs as [|r rs IH]; intros w Hcc Hok.
  - simpl. split_and!; [done..|]. intros plug uid. rewrite Hcc in *.
    pose proof (wp_ensure plug uid (λ out _, access_verdict (cur w) plug uid out) w Hok) as Ha.
    unfold wp in Ha. destruct (ensure_plug_group_access plug uid w).1 as [[n []]|e];
      [right|left|]; by apply Ha.
  - simpl. rewrite Hcc in Hok.
    pose proof (run_request_wp (serve_group r) (group_step r w) w) as Hstep.
    destruct (run_request (serve_group r) w) as [out w1] eqn:Hrun.
    assert (Hcc1 : com w1 = cur w1).
    { unfold run_request in Hrun. destruct (serve_group r w). by simplify_eq. }
    destruct Hstep as (Hj & Hok1 & Hm); [by apply step_serve|].
    specialize (IH w1 Hcc1 Hok1). destruct (run_groups rs w1) as [tr w2].
    rewrite Hm in IH. destruct IH as (HF & Hok2 & Hm2 & Ha).
    split; [by constructor | done].
Qed.
End Groups.
