(* ===== verification/Plugs.v ===== *)
(** * routers/plugs.py: the charger lists, watches, favorites, capacity requests, reports

    The list of the plugs a user may use, the public map, the single plug, and
    the rows a user keeps about plugs.  [ensure_plug_group_access] is in
    Groups.v; the reliability figure, over hour buckets of the telemetry, is
    left. *)

From stdpp Require Import sorting.
From S2P Require Import Prelude Rounding PyNum Money Models Slots Config Billing TelemetryStore.
From S2P Require Import World Hoare Wallet Commands Caps Pricing Reservations Lifecycle.
From S2P Require Import SessionStart Payouts Groups.

Section Plugs.
Context `{cfg : Config}.
Implicit Types (d : db) (now uid plug_id : Z).

(** ** The reservation fields of a list of plugs *)

Record reservation_fields := mkfields {
  reserved_now : bool;
  reserved_now_by_me : bool;
  reserved_until : option datetime;
  next_reservation : option (datetime * datetime) }.

Definition no_fields : reservation_fields := mkfields false false None None.

(** One row of the loop; [fields.setdefault(res.plug_id, ...)]. *)
Definition add_fields uid now (e : reservation_fields) (r : Reservation.t) : reservation_fields :=
  if Reservation.start_at r <=? now
  then mkfields true (of_user uid r) (Some (Reservation.end_at r)) (next_reservation e)
  else match next_reservation e with
       | None => mkfields (reserved_now e) (reserved_now_by_me e) (reserved_until e)
                   (Some (Reservation.start_at r, Reservation.end_at r))
       | Some _ => e
       end.

Definition fields_of_rows uid now (rows : list Reservation.t) : gmap Z reservation_fields :=
  foldl (λ m r, <[Reservation.plug_id r :=
           add_fields uid now (default no_fields (m !! Reservation.plug_id r)) r]> m) ∅ rows.

Definition among (plug_ids : list Z) (r : Reservation.t) : bool :=
  bool_decide (Reservation.plug_id r ∈ plug_ids).

Definition ahead now (r : Reservation.t) : bool := is_booked r && (now <? Reservation.end_at r).

Definition window_rows d now (plug_ids : list Z) : list Reservation.t :=
  order_by2 Reservation.plug_id Reservation.start_at
    (select (λ _ r, ahead now r && among plug_ids r) (reservations d)).*2.

Definition reservation_fields_for_plugs (plug_ids : list Z) uid now : M (gmap Z reservation_fields) :=
  match plug_ids with
  | [] => mret ∅
  | _ =>
      expired ← expire_lapsed_reservations (among plug_ids) now;
      when (negb (expired =? 0)) commit;;
      query (λ d, fields_of_rows uid now (window_rows d now plug_ids))
  end.

(** ** GET /api/plugs/available *)

(** schemas.py: PlugResponse. *)
Record plug_response := mkplugresponse {
  p_id : Z;
  p_name : string;
  p_status : PlugStatus;
  p_current_power_w : float;
  p_plug_model : string;
  p_group_name : option string;
  p_latitude : option float;
  p_longitude : option float;
  p_gateway_online : bool;
  p_plug_powered : bool;
  p_queue_available : bool;
  p_price_per_kwh : money;
  p_price_next_per_kwh : option money;
  p_price_changes_at : option wall;
  p_is_private : bool;
  p_fields : reservation_fields;
  p_watching : bool;
  p_rated_power_w : option Z;
  p_connector_type : option string;
  p_is_favorite : bool }.

Definition in_public_group d (plug : Plug.t) : bool :=
  match Plug.group_id plug ≫= λ gid, groups d !! gid with
  | Some g => ChargerGroup.is_public g
  | None => false
  end.
Definition in_joined_group d uid (plug : Plug.t) : bool :=
  match Plug.group_id plug with
  | Some gid => exists_row (λ _ m, is_membership uid gid m) (memberships d)
  | None => false
  end.

(** [WHERE group_id IS NULL OR group_id IN (joined) OR group_id IN (public)]. *)
Definition listed d uid (plug : Plug.t) : bool :=
  bool_decide (Plug.group_id plug = None) || in_joined_group d uid plug || in_public_group d plug.

(** A row of the joins: the plug with its group (outer), gateway and tenant. *)
Definition plug_row : Type := Z * Plug.t * option ChargerGroup.t * Gateway.t * Tenant.t.

Definition join_plug d (r : Z * Plug.t) : option plug_row :=
  gateway ← gateways d !! Plug.gateway_id r.2;
  tid ← Gateway.tenant_id gateway;
  tenant ← tenants d !! tid;
  Some (r, Plug.group_id r.2 ≫= λ gid, groups d !! gid, gateway, tenant).

Definition PLUG_LIST_HARD_CAP : nat := 500.

Definition plug_rows d (p : Plug.t → bool) : list plug_row :=
  take PLUG_LIST_HARD_CAP (omap (join_plug d) (select (λ _, p) (plugs d))).

Definition row_id (r : plug_row) : Z := r.1.1.1.1.

Definition price_item (r : plug_row) : item :=
  let '(i, plug, group, _, tenant) := r in (i, plug, group ≫= ChargerGroup.tariff_id, Some tenant).

(** [price_display[plug.id]]: every listed plug was priced. *)
Definition price_of (m : gmap Z (money * option wall * option money)) plug_id
    : money * option wall * option money :=
  default (0, None, None) (m !! plug_id).

Definition watching d uid plug_id : bool :=
  exists_row (λ _ x, (PlugWatch.user_id x =? uid) && (PlugWatch.plug_id x =? plug_id)) (watches d).
Definition is_favorite d uid plug_id : bool :=
  exists_row (λ _ x, (UserFavorite.user_id x =? uid) && (UserFavorite.plug_id x =? plug_id)) (favorites d).

Definition respond now (r : plug_row) (price : money * option wall * option money)
    (fields : reservation_fields) (watch favorite : bool) : plug_response :=
  let '(i, plug, group, gateway, tenant) := r in
  let '(rate, changes_at, next_rate) := price in
  let gw_online := gateway_is_live gateway now in
  let powered := plug_is_powered plug now in
  {| p_id := i; p_name := Plug.name plug; p_status := Plug.status plug;
     p_current_power_w := Plug.current_power_w plug; p_plug_model := Plug.plug_model plug;
     p_group_name := ChargerGroup.name <$> group;
     p_latitude := coalesce (Plug.latitude plug) (Gateway.latitude gateway);
     p_longitude := coalesce (Plug.longitude plug) (Gateway.longitude gateway);
     p_gateway_online := gw_online; p_plug_powered := powered;
     p_queue_available := gw_online && negb powered && queued_charging_enabled tenant (Some plug);
     p_price_per_kwh := rate; p_price_next_per_kwh := next_rate; p_price_changes_at := changes_at;
     p_is_private := match group with Some g => negb (ChargerGroup.is_public g) | None => false end;
     p_fields := fields; p_watching := watch;
     p_rated_power_w := Plug.rated_power_w plug; p_connector_type := Plug.connector_type plug;
     p_is_favorite := favorite |}.

Definition get_available_plugs uid now : M (list plug_response) :=
  rows ← query (λ d, plug_rows d (listed d uid));
  fields ← reservation_fields_for_plugs (map row_id rows) uid now;
  price ← query (λ d, resolve_price_display_batch d (map price_item rows) now);
  query (λ d, map (λ r, respond now r (price_of price (row_id r))
                     (default no_fields (fields !! row_id r))
                     (watching d uid (row_id r)) (is_favorite d uid (row_id r))) rows).

(** ** GET /api/plugs/public: no account needed *)

(** schemas.py: PublicPlugResponse. *)
Record public_plug_response := mkpublic {
  u_id : Z;
  u_name : string;
  u_status : PlugStatus;
  u_latitude : float;
  u_longitude : float;
  u_price_per_kwh : money;
  u_gateway_online : bool;
  u_rated_power_w : option Z;
  u_connector_type : option string }.

Definition public_plug d (plug : Plug.t) : bool :=
  bool_decide (Plug.group_id plug = None) || in_public_group d plug.

(** The row with its coordinates, when it has any. *)
Definition locate (r : plug_row) : option (plug_row * float * float) :=
  let '(_, plug, _, gateway, _) := r in
  lat ← coalesce (Plug.latitude plug) (Gateway.latitude gateway);
  lon ← coalesce (Plug.longitude plug) (Gateway.longitude gateway);
  Some (r, lat, lon).

Definition respond_public now price (x : plug_row * float * float) : public_plug_response :=
  let '((i, plug, _, gateway, _), lat, lon) := x in
  mkpublic i (Plug.name plug) (Plug.status plug) lat lon (price_of price i).1.1
    (gateway_is_live gateway now) (Plug.rated_power_w plug) (Plug.connector_type plug).

Definition get_public_plugs now : M (list public_plug_response) :=
  rows ← query (λ d, plug_rows d (public_plug d));
  let mappable := omap locate rows in
  price ← query (λ d, resolve_price_display_batch d (map (λ x, price_item x.1.1) mappable) now);
  mret (map (respond_public now price) mappable).

(** ** GET /api/plugs/{plug_id} *)

Definition load_plug plug_id : M Plug.t :=
  plug ← query (λ d, plugs d !! plug_id);
  or_raise plug 404 "Plug not found.".

(** The plug, when the user may see it. *)
Definition visible_plug plug_id uid : M (Plug.t * (option string * bool)) :=
  plug ← load_plug plug_id;
  access ← ensure_plug_group_access plug uid;
  mret (plug, access).

(** [scalar_one_or_none() is not None] on a UNIQUE(user_id, plug_id) table. *)
Definition has_row {A} (rows : db → list (Z * A)) : M bool :=
  l ← query rows;
  row ← one_or_none l;
  mret (bool_decide (is_Some row)).

Definition watch_rows uid plug_id d : list (Z * PlugWatch.t) :=
  select (λ _ x, (PlugWatch.user_id x =? uid) && (PlugWatch.plug_id x =? plug_id)) (watches d).
Definition favorite_rows uid plug_id d : list (Z * UserFavorite.t) :=
  select (λ _ x, (UserFavorite.user_id x =? uid) && (UserFavorite.plug_id x =? plug_id)) (favorites d).
Definition request_rows uid plug_id d : list (Z * CapacityRequest.t) :=
  select (λ _ x, (CapacityRequest.user_id x =? uid) && (CapacityRequest.plug_id x =? plug_id))
    (capacity_requests d).

Definition get_plug plug_id uid now : M plug_response :=
  '(plug, (group_name, is_private)) ← visible_plug plug_id uid;
  gateway ← query (λ d, gateways d !! Plug.gateway_id plug);
  tenant ← query (λ d, g ← gateway; tid ← Gateway.tenant_id g; tenants d !! tid);
  '(rate, changes_at, next_rate) ← query (λ d, resolve_price_display d plug now);
  fields ← reservation_fields_for_plugs [plug_id] uid now;
  watch ← has_row (watch_rows uid plug_id);
  favorite ← has_row (favorite_rows uid plug_id);
  let gw_online := match gateway with Some g => gateway_is_live g now | None => false end in
  let powered := plug_is_powered plug now in
  mret {| p_id := plug_id; p_name := Plug.name plug; p_status := Plug.status plug;
     p_current_power_w := Plug.current_power_w plug; p_plug_model := Plug.plug_model plug;
     p_group_name := group_name;
     p_latitude := coalesce (Plug.latitude plug) (gateway ≫= Gateway.latitude);
     p_longitude := coalesce (Plug.longitude plug) (gateway ≫= Gateway.longitude);
     p_gateway_online := gw_online; p_plug_powered := powered;
     p_queue_available := gw_online && negb powered &&
       match tenant with Some t => queued_charging_enabled t (Some plug) | None => false end;
     p_price_per_kwh := rate; p_price_next_per_kwh := next_rate; p_price_changes_at := changes_at;
     p_is_private := is_private;
     p_fields := default no_fields (fields !! plug_id); p_watching := watch;
     p_rated_power_w := Plug.rated_power_w plug; p_connector_type := Plug.connector_type plug;
     p_is_favorite := favorite |}.

(** ** Watches, favorites, requests for capacity *)

Definition watch_plug plug_id uid now : M unit :=
  '(plug, _) ← visible_plug plug_id uid;
  gateway ← query (λ d, gateways d !! Plug.gateway_id plug);
  refuse (bool_decide (Plug.status plug = AVAILABLE) &&
          match gateway with Some g => gateway_is_live g now | None => false end)
    409 "This plug is available right now, no need to watch it.";;
  existing ← has_row (watch_rows uid plug_id);
  when (negb existing)
    (i ← fresh;
     modify (λ d, d <| watches ::= <[i := PlugWatch.mk uid plug_id]> |>);;
     commit).

Definition unwatch_plug plug_id uid : M unit :=
  modify (λ d, d <| watches ::=
    delete_where (λ _ x, (PlugWatch.user_id x =? uid) && (PlugWatch.plug_id x =? plug_id)) |>);;
  commit.

Definition favorite_plug plug_id uid : M unit :=
  _ ← visible_plug plug_id uid;
  existing ← has_row (favorite_rows uid plug_id);
  when (negb existing)
    (i ← fresh;
     modify (λ d, d <| favorites ::= <[i := UserFavorite.mk uid plug_id]> |>);;
     commit).

Definition unfavorite_plug plug_id uid : M unit :=
  modify (λ d, d <| favorites ::=
    delete_where (λ _ x, (UserFavorite.user_id x =? uid) && (UserFavorite.plug_id x =? plug_id)) |>);;
  commit.

Definition request_capacity plug_id uid : M unit :=
  '(plug, _) ← visible_plug plug_id uid;
  gid ← or_raise (Plug.group_id plug) 400 "This charger isn't on a shared circuit";
  group ← query (λ d, groups d !! gid);
  limit ← or_raise (group ≫= ChargerGroup.max_current_a) 400
    "This charger's circuit has no capacity limit";
  load ← query (λ d, circuit_load_a d gid None);
  refuse (fadd load (effective_plug_cap plug) <=? fadd limit epsilon) 400
    "There's capacity available right now";;
  existing ← has_row (request_rows uid plug_id);
  when (negb existing)
    (i ← fresh;
     modify (λ d, d <| capacity_requests ::= <[i := CapacityRequest.mk uid plug_id gid]> |>);;
     commit).

(** ** GET /api/plugs/{plug_id}/tariff-preview *)

Record preview_slot := mkpreview {
  v_days : list Z;
  v_start_minute : Z;
  v_end_minute : Z;
  v_price_per_kwh : money }.

Definition preview_of_slot (s : TariffSlot.t) : preview_slot :=
  mkpreview (List.filter (Z.testbit (TariffSlot.days_mask s)) (seqZ 0 7))
    (TariffSlot.start_min s) (TariffSlot.end_min s) (to_money_amount (TariffSlot.price_per_kwh s)).

(** Base price, price now, slots. *)
Definition get_plug_tariff_preview plug_id uid now : M (money * money * list preview_slot) :=
  '(plug, _) ← visible_plug plug_id uid;
  '(tariff, tz_name) ← query (λ d, resolve_tariff_and_tz d plug);
  match tariff with
  | None => mret (default_rate, default_rate, [])
  | Some (tid, tariff) =>
      ss ← query (λ d, slots_of d tid);
      let base := to_money_amount (Tariff.price_per_kwh tariff) in
      let slot_rate := (slot_rate_and_bound ss (to_local now (zone_of tz_name))).1 in
      mret (base, default base slot_rate,
            map preview_of_slot (order_by2 TariffSlot.start_min TariffSlot.end_min ss))
  end.

(** ** POST /api/plugs/{plug_id}/report *)

Definition PLUG_REPORT_CATEGORIES : list string := ["damaged"; "wrong_info"; "unsafe"; "other"].

(** [tenant_id] is NOT NULL in both rows; the event's detail is not kept. *)
Definition report_plug_problem plug_id uid (category description : string) now : M PlugReport.t :=
  refuse (negb (bool_decide (category ∈ PLUG_REPORT_CATEGORIES))) 422 "";;
  '(plug, _) ← visible_plug plug_id uid;
  gateway ← query (λ d, gateways d !! Plug.gateway_id plug);
  gateway ← or_raise gateway 404 "This charger's gateway no longer exists.";
  match Gateway.tenant_id gateway with
  | None => raise IntegrityError
  | Some tid =>
      i ← fresh;
      let report := PlugReport.mk plug_id tid uid category description PR_OPEN None now None None in
      modify (λ d, d <| plug_reports ::= <[i := report]> |>);;
      j ← fresh;
      modify (λ d, d <| gateway_events ::=
        <[j := GatewayEvent.mk tid (Plug.gateway_id plug) (Some plug_id) "DRIVER_PROBLEM_REPORT"
                 "warning" false]> |>);;
      commit;;
      emit (EmitGatewayAlarm (Plug.gateway_id plug) (Some plug_id) "DRIVER_PROBLEM_REPORT" "warning");;
      mret report
  end.

(** ** The lists and the single plug agree *)

(** Keys, uniqueness and foreign keys the tables have, and disjoint bookings. *)
Record listing_ok d : Prop := {
  so_groups : groups_ok d;
  so_group : ∀ i p gid, plugs d !! i = Some p → Plug.group_id p = Some gid →
    gid ≠ 0 ∧ is_Some (groups d !! gid);
  so_watches : ∀ i j x y, watches d !! i = Some x → watches d !! j = Some y →
    PlugWatch.user_id x = PlugWatch.user_id y → PlugWatch.plug_id x = PlugWatch.plug_id y → i = j;
  so_favorites : ∀ i j x y, favorites d !! i = Some x → favorites d !! j = Some y →
    UserFavorite.user_id x = UserFavorite.user_id y →
    UserFavorite.plug_id x = UserFavorite.plug_id y → i = j;
  so_booked : booked_ok d;
  so_windows : ∀ i r, reservations d !! i = Some r → is_booked r = true →
    Reservation.start_at r < Reservation.end_at r }.

Definition group_of d (plug : Plug.t) : option ChargerGroup.t :=
  Plug.group_id plug ≫= λ gid, groups d !! gid.
Definition privately (g : option ChargerGroup.t) : bool :=
  match g with Some g => negb (ChargerGroup.is_public g) | None => false end.

(** Membership, as one condition on the table. *)
Lemma find_membership_eq uid gid w :
  groups_ok (cur w) →
  ∃ o, find_membership uid gid w = (Ok o, w) ∧
    bool_decide (o = None) = negb (exists_row (λ _ m, is_membership uid gid m) (memberships (cur w))).
Proof.
  intros Hok. unfold find_membership, mbind, M_bind, query. cbv beta iota.
  destruct (select_unique (λ _ m, is_membership uid gid m) (memberships (cur w)))
    as [Hs | (i & m & Hs & Hm & Hp)].
  - intros i j m n Hm Hn Hpm Hpn. unfold is_membership in *. passed. eapply gk_once; eauto; congruence.
  - exists None. rewrite Hs. split; [done|]. unfold exists_row. by rewrite Hs.
  - exists (Some (i, m)). rewrite Hs. split; [done|]. unfold exists_row. by rewrite Hs.
Qed.

(** The single check is the condition of the list. *)
Lemma access_eq i plug uid w :
  listing_ok (cur w) → plugs (cur w) !! i = Some plug →
  ensure_plug_group_access plug uid w =
    (if listed (cur w) uid plug
     then Ok (ChargerGroup.name <$> group_of (cur w) plug, privately (group_of (cur w) plug))
     else Raise (HTTPException 403
       "This plug belongs to a private group. Join the group first using an access code."), w).
Proof.
  intros Hok Hp. unfold ensure_plug_group_access, listed, in_joined_group, in_public_group, group_of.
  destruct (Plug.group_id plug) as [gid|] eqn:Hg; [|done].
  destruct (so_group _ Hok i plug gid Hp Hg) as [Hnz [g Hgg]].
  assert (Hgo : ∀ A (a b : A), match gid with 0 => a | _ => b end = b) by (by destruct gid).
  rewrite Hgo. unfold mbind, M_bind, query. cbn. rewrite Hgg. cbn.
  destruct (ChargerGroup.is_public g); cbn; [by rewrite orb_true_r|]. rewrite orb_false_r.
  destruct (find_membership_eq uid gid w (so_groups _ Hok)) as (o & Hf & Ho). rewrite Hf, Ho.
  by destruct (exists_row _ _).
Qed.

(** [has_row] on a unique pair. *)
Lemma has_row_eq {A} (p : Z → A → bool) (m : db → gmap Z A) w :
  (∀ i j x y, m (cur w) !! i = Some x → m (cur w) !! j = Some y → p i x = true → p j y = true → i = j) →
  has_row (λ d, select p (m d)) w = (Ok (exists_row p (m (cur w))), w).
Proof.
  intros Hu. unfold has_row, mbind, M_bind, query. cbv beta iota. unfold exists_row.
  destruct (select_unique p (m (cur w)) Hu) as [-> | (i & x & -> & _)]; done.
Qed.

(** *** The reservation fields of one plug *)

Lemma fields_lookup uid now rows plug_id :
  default no_fields (fields_of_rows uid now rows !! plug_id) =
  foldl (add_fields uid now) no_fields (List.filter (on_plug plug_id) rows).
Proof.
  unfold fields_of_rows. induction rows as [|r rows IH] using rev_ind; [done|].
  rewrite List.filter_app, !foldl_app. simpl. unfold on_plug at 2.
  destruct (Z.eqb_spec (Reservation.plug_id r) plug_id) as [<-|Hne]; simpl.
  - rewrite lookup_insert_eq. simpl. by rewrite IH.
  - by rewrite lookup_insert_ne.
Qed.

(** Sorted by start, without two equal starts, a list is its elements. *)
Lemma sorted_unique (l k : list Reservation.t) :
  StronglySorted (key2_le Reservation.plug_id Reservation.start_at) l →
  StronglySorted (key2_le Reservation.plug_id Reservation.start_at) k →
  l ≡ₚ k →
  (∀ a b, a ∈ l → b ∈ l → Reservation.plug_id a = Reservation.plug_id b →
     Reservation.start_at a = Reservation.start_at b → a = b) →
  l = k.
Proof.
  intros Hl Hk Hp Hu. eapply StronglySorted_unique_strong; [|exact Hl|exact Hk|exact Hp].
  intros a b Ha Hb Hab Hba. apply Hu; [done|by rewrite Hp|..]; unfold key2_le in *; lia.
Qed.

Lemma StronglySorted_filter {A} (R : A → A → Prop) (p : A → bool) l :
  StronglySorted R l → StronglySorted R (List.filter p l).
Proof.
  induction 1 as [|a l Hl IH Ha]; simpl; [constructor|]. destruct (p a); [|done].
  constructor; [done|]. rewrite Forall_forall in *. intros x Hx. apply Ha.
  apply list_elem_of_In, filter_In in Hx as [Hx _]. by apply list_elem_of_In.
Qed.

#[local] Instance key2_trans {A} (k1 k2 : A → Z) : Transitive (key2_le k1 k2).
Proof. intros a b c. unfold key2_le. lia. Qed.
#[local] Instance key2_total {A} (k1 k2 : A → Z) : Total (key2_le k1 k2).
Proof. intros a b. unfold key2_le. lia. Qed.

Lemma order_by2_sorted {A} (k1 k2 : A → Z) l : StronglySorted (key2_le k1 k2) (order_by2 k1 k2 l).
Proof. apply Sorted_StronglySorted; [apply _|]. apply Sorted_merge_sort; apply _. Qed.

Lemma filter_snd {A} (p : A → bool) (l : list (Z * A)) :
  List.filter p l.*2 = (List.filter (λ x, p x.2) l).*2.
Proof.
  induction l as [|[i a] l IH]; [done|]. rewrite fmap_cons. cbn [List.filter snd].
  destruct (p a); [rewrite fmap_cons|]; by rewrite IH.
Qed.

(** Expiring the bookings of more plugs, or reading the windows of more plugs,
    does not change what is read of one. *)
Lemma window_rows_one d now ids plug_id :
  listing_ok d → plug_id ∈ ids →
  List.filter (on_plug plug_id) (window_rows (expire_in (among ids) now d) now ids) =
  window_rows (expire_in (among [plug_id]) now d) now [plug_id].
Proof.
  intros Hok Hin.
  assert (Hrow : ∀ ids' j r, plug_id ∈ ids' →
    reservations (expire_in (among ids') now d) !! j = Some r ∧
      ahead now r && among ids' r = true ∧ on_plug plug_id r = true ↔
    reservations d !! j = Some r ∧ ahead now r = true ∧ lapsed now r = false ∧ on_plug plug_id r = true).
  { intros ids' j r Hin'. unfold expire_in. simpl. rewrite lookup_update_where. unfold on_plug.
    assert (Ham : ∀ x, Reservation.plug_id x = plug_id → among ids' x = true)
      by (intros x Hx; apply bool_decide_eq_true; congruence).
    split.
    - intros (Hr & Hb & Hq). passed. destruct (reservations d !! j) as [x|]; [|done].
      simpl in Hr. destruct (lapsed now x && among ids' x) eqn:Hl; apply (inj Some) in Hr as <-; [done|].
      split_and!; try done; [|by apply Z.eqb_eq]. rewrite (Ham x) in Hl by done. by rewrite andb_true_r in Hl.
    - intros (Hr & Ha & Hl & Hq). passed. rewrite Hr. simpl. rewrite Hl. simpl.
      split_and!; try done; [by rewrite Ha, (Ham r)|by apply Z.eqb_eq]. }
  apply sorted_unique; [apply StronglySorted_filter, order_by2_sorted | apply order_by2_sorted|..].
  - unfold window_rows. set (P := select _ _). set (P' := select _ _).
    assert (Hperm : List.filter (λ x, on_plug plug_id x.2) P ≡ₚ P').
    { apply NoDup_Permutation.
      - apply NoDup_ListNoDup, List.NoDup_filter, NoDup_ListNoDup, select_NoDup.
      - apply select_NoDup.
      - intros [j r]. rewrite list_elem_of_In, filter_In, <- list_elem_of_In. unfold P, P'.
        rewrite !elem_of_select. cbn [fst snd].
        assert (H1 := Hrow ids j r Hin). assert (H2 := Hrow [plug_id] j r ltac:(left)).
        split.
        + tauto.
        + intros [Hr Hb]. assert (Hq : on_plug plug_id r = true).
          { passed. unfold among in *. unfold on_plug. apply Z.eqb_eq. passed.
            by apply list_elem_of_singleton. }
          tauto. }
    assert (Hf : List.filter (on_plug plug_id) (order_by2 Reservation.plug_id Reservation.start_at P.*2)
      ≡ₚ List.filter (on_plug plug_id) P.*2).
    { apply filter_perm. unfold order_by2. apply merge_sort_Permutation. }
    rewrite Hf, filter_snd, Hperm. unfold order_by2. by rewrite merge_sort_Permutation.
  - intros a b Ha Hb Hpid Hst.
    assert (Hback : ∀ x, x ∈ List.filter (on_plug plug_id)
        (window_rows (expire_in (among ids) now d) now ids) →
      ∃ j, reservations d !! j = Some x ∧ is_booked x = true).
    { intros x Hx. apply list_elem_of_In, filter_In in Hx as [Hx Hq]. apply list_elem_of_In in Hx.
      unfold window_rows, order_by2 in Hx. rewrite merge_sort_Permutation in Hx.
      apply list_elem_of_fmap in Hx as ([j y] & -> & Hy). apply elem_of_select in Hy as [Hy Hyb].
      exists j. cbn [snd] in *. assert (Hd := proj1 (Hrow ids j y Hin) (conj Hy (conj Hyb Hq))).
      destruct Hd as (Hd & Ha' & _). split; [done|]. unfold ahead in Ha'. by passed. }
    destruct (Hback a Ha) as (i & Hi & Hbi). destruct (Hback b Hb) as (j & Hj & Hbj).
    destruct (decide (i = j)) as [->|Hne]; [congruence|exfalso].
    pose proof (so_windows _ Hok i a Hi Hbi). pose proof (so_windows _ Hok j b Hj Hbj).
    destruct (so_booked _ Hok i j a b Hne Hi Hj) as [Hd|Hd]; try done; lia.
Qed.

(** Reading the fields commits at most the lazy expiry. *)
Lemma wp_fields ids uid now (Q : result (gmap Z reservation_fields) → world → Prop) w :
  (∀ w', cur w' = expire_in (among ids) now (cur w) →
     Q (Ok (fields_of_rows uid now (window_rows (cur w') now ids))) w') →
  wp (reservation_fields_for_plugs ids uid now) Q w.
Proof.
  intros HQ. unfold reservation_fields_for_plugs. destruct ids as [|i ids].
  - apply wp_ret.
    assert (Hnone : expire_in (among []) now (cur w) = cur w).
    { assert (Hres : update_where (λ r, lapsed now r && among [] r)
        (λ r, r <| Reservation.status := EXPIRED |>) (reservations (cur w)) = reservations (cur w)).
      { apply map_eq. intros j. rewrite lookup_update_where. unfold among.
        destruct (reservations (cur w) !! j) as [r|]; [|done]. simpl. by rewrite andb_false_r. }
      unfold expire_in. destruct (cur w). simpl in *. by rewrite Hres. }
    specialize (HQ w (eq_sym Hnone)). unfold window_rows, select in HQ.
    destruct (List.filter _ _) as [|[j r] l] eqn:Hl; [done|exfalso].
    assert (Hin : (j, r) ∈ ((j, r) :: l)) by left. rewrite <- Hl in Hin.
    apply list_elem_of_In, filter_In in Hin as [_ Hin]. unfold among in Hin. passed.
    by apply not_elem_of_nil in H0.
  - unfold expire_lapsed_reservations. repeat wp_step; by apply HQ.
Qed.

(** *** The answers, as functions of the state *)

Definition fields_of d uid now plug_id : reservation_fields :=
  foldl (add_fields uid now) no_fields
    (window_rows (expire_in (among [plug_id]) now d) now [plug_id]).

(** What a user is told of one plug. *)
Definition answer d uid now (r : plug_row) : plug_response :=
  respond now r (resolve_price_display d r.1.1.1.2 now) (fields_of d uid now (row_id r))
    (watching d uid (row_id r)) (is_favorite d uid (row_id r)).

Lemma get_plug_answer i plug row uid now w :
  listing_ok (cur w) → plugs (cur w) !! i = Some plug → listed (cur w) uid plug = true →
  join_plug (cur w) (i, plug) = Some row →
  wp (get_plug i uid now) (λ out _, out = Ok (answer (cur w) uid now row)) w.
Proof.
  intros Hok Hp Hl Hj. unfold get_plug, visible_plug, load_plug.
  do 4 wp_step. rewrite Hp. wp_step. apply wp_bind. unfold wp at 1.
  rewrite (access_eq i plug uid w Hok Hp), Hl. cbn [fst snd]. cbv beta iota. apply wp_ret. cbv beta iota.
  unfold join_plug in Hj. simpl in Hj.
  destruct (gateways (cur w) !! Plug.gateway_id plug) as [gateway|] eqn:Hg; [|done]. simpl in Hj.
  destruct (Gateway.tenant_id gateway) as [tid|] eqn:Htid; [|done]. simpl in Hj.
  destruct (tenants (cur w) !! tid) as [tenant|] eqn:Ht; [|done]. simpl in Hj. simplify_eq.
  assert (Hten : (g ← gateways (cur w) !! Plug.gateway_id plug; tid ← Gateway.tenant_id g;
                  tenants (cur w) !! tid) = Some tenant) by (rewrite Hg; simpl; by rewrite Htid).
  do 4 wp_step. rewrite Hten, Hg.
  do 2 wp_step. destruct (resolve_price_display (cur w) plug now) as [[rate changes] next] eqn:Hprice.
  wp_step. apply wp_fields. intros w' Hw'. cbv beta iota.
  apply wp_bind. unfold wp at 1, watch_rows.
  rewrite has_row_eq; [|rewrite Hw'; intros j k x y Hx Hy Hpx Hpy; passed; eapply so_watches; eauto; congruence].
  cbn [fst snd]. cbv beta iota. apply wp_bind. unfold wp at 1, favorite_rows.
  rewrite has_row_eq; [|rewrite Hw'; intros j k x y Hx Hy Hpx Hpy; passed; eapply so_favorites; eauto; congruence].
  cbn [fst snd]. cbv beta iota. apply wp_ret. rewrite fields_lookup, Hw'.
  unfold answer, respond, row_id. simpl. rewrite Hprice. simpl. do 2 f_equal.
  unfold fields_of. f_equal. apply window_rows_one; [done | left].
Qed.

Lemma elem_of_plug_rows d p r :
  r ∈ plug_rows d p →
  plugs d !! row_id r = Some r.1.1.1.2 ∧ p r.1.1.1.2 = true ∧
  join_plug d (row_id r, r.1.1.1.2) = Some r.
Proof.
  unfold plug_rows. intros Hr.
  assert (Hr' : r ∈ omap (join_plug d) (select (λ _, p) (plugs d))).
  { revert Hr. apply subseteq_take. }
  apply list_elem_of_omap in Hr' as ([i plug] & [Hi Hpi]%elem_of_select & Hj).
  unfold join_plug in Hj. simpl in Hj.
  destruct (gateways d !! Plug.gateway_id plug) as [g|] eqn:Hg; [|done]. simpl in Hj.
  destruct (Gateway.tenant_id g) as [tid|] eqn:Ht; [|done]. simpl in Hj.
  destruct (tenants d !! tid) as [t|] eqn:Htt; [|done]. simpl in Hj. simplify_eq.
  unfold row_id, join_plug. simpl. rewrite Hg. simpl. rewrite Ht. simpl. by rewrite Htt.
Qed.

Lemma omap_ids d (l : list (Z * Plug.t)) :
  map row_id (omap (join_plug d) l) `sublist_of` l.*1.
Proof.
  induction l as [|[i plug] l IH]; [done|]. rewrite fmap_cons. cbn [omap list_omap fst].
  destruct (join_plug d (i, plug)) as [r|] eqn:Hj; [|by apply sublist_cons].
  assert (row_id r = i) as <-; [|by apply sublist_skip].
  unfold join_plug in Hj. simpl in Hj. destruct (gateways d !! _) as [g|]; [|done]. simpl in Hj.
  destruct (Gateway.tenant_id g); [|done]. simpl in Hj. destruct (tenants d !! _); [|done].
  simpl in Hj. by simplify_eq.
Qed.

Lemma plug_rows_NoDup d p : NoDup (map row_id (plug_rows d p)).
Proof.
  unfold plug_rows. change (map row_id) with (fmap row_id : list plug_row → list Z).
  rewrite fmap_take. eapply sublist_NoDup; [|apply sublist_take].
  eapply sublist_NoDup; [|apply omap_ids].
  unfold select. assert (Hs : (List.filter (λ r : Z * Plug.t, p r.2) (map_to_list (plugs d))).*1
    `sublist_of` (map_to_list (plugs d)).*1).
  { induction (map_to_list (plugs d)) as [|x l IH]; [done|]. simpl.
    destruct (p x.2); [by apply sublist_skip | by apply sublist_cons]. }
  eapply sublist_NoDup; [|exact Hs]. apply NoDup_fst_map_to_list.
Qed.

Lemma price_item_ok d p rows :
  rows `sublist_of` plug_rows d p → Forall (item_ok d) (map price_item rows).
Proof.
  intros Hsub. apply Forall_map, Forall_forall. intros r Hr.
  assert (Hin : r ∈ plug_rows d p) by (by eapply elem_of_submseteq, sublist_submseteq).
  apply elem_of_plug_rows in Hin as (Hp & _ & Hj).
  unfold join_plug in Hj. simpl in Hj. unfold item_ok, price_item, group_tariff_id, tenant_of.
  destruct (gateways d !! _) as [g|] eqn:Hg; [|done]. simpl in Hj.
  destruct (Gateway.tenant_id g) as [tid|] eqn:Ht; [|done]. simpl in Hj.
  destruct (tenants d !! tid) as [t|] eqn:Htt; [|done]. simpl in Hj.
  destruct r as [[[[i plug] group] gateway] tenant]. simpl in *. simplify_eq. rewrite Hg. simpl.
  rewrite Ht. simpl. rewrite Htt. split; [|done]. by destruct (Plug.group_id plug).
Qed.

Lemma priced d p now rows r :
  rows `sublist_of` plug_rows d p → r ∈ rows →
  price_of (resolve_price_display_batch d (map price_item rows) now) (row_id r) =
  resolve_price_display d r.1.1.1.2 now.
Proof.
  intros Hsub Hr. unfold price_of.
  destruct r as [[[[i plug] group] gateway] tenant] eqn:Heq.
  rewrite (price_display_batch_correct d _ now) with (plug := plug)
    (group_tariff := group ≫= ChargerGroup.tariff_id) (tenant := Some tenant).
  - done.
  - replace (map _ (map price_item _)) with (map row_id rows).
    + eapply sublist_NoDup; [apply (plug_rows_NoDup d p)|].
      change (row_id <$> rows `sublist_of` row_id <$> plug_rows d p). by apply fmap_sublist.
    + rewrite map_map. apply map_ext. by intros [[[[]]]].
  - by eapply price_item_ok.
  - apply list_elem_of_In, in_map_iff. eexists. split; [|by apply list_elem_of_In]. done.
Qed.

Lemma available_answer uid now w :
  listing_ok (cur w) →
  wp (get_available_plugs uid now)
     (λ out _, out = Ok (map (answer (cur w) uid now) (plug_rows (cur w) (listed (cur w) uid)))) w.
Proof.
  intros Hok. unfold get_available_plugs. do 2 wp_step. set (rows := plug_rows _ _).
  wp_step. apply wp_fields. intros w' Hw'. cbv beta iota. repeat wp_step. rewrite Hw'. f_equal.
  apply map_ext_in. intros r Hr%list_elem_of_In. unfold answer. f_equal.
  - change (resolve_price_display_batch (expire_in (among (map row_id rows)) now (cur w))
      (map price_item rows) now) with (resolve_price_display_batch (cur w) (map price_item rows) now).
    unfold rows in *. eapply priced; [reflexivity | done].
  - rewrite fields_lookup. unfold fields_of. f_equal. apply window_rows_one; [done|].
    apply list_elem_of_In, in_map. by apply list_elem_of_In.
Qed.

Lemma public_answer now w :
  wp (get_public_plugs now) (λ out _, ∃ l, out = Ok l ∧ ∀ u, u ∈ l → ∃ r,
    r ∈ plug_rows (cur w) (public_plug (cur w)) ∧ u_id u = row_id r ∧
    u_price_per_kwh u = (resolve_price_display (cur w) r.1.1.1.2 now).1.1 ∧
    u_status u = Plug.status r.1.1.1.2 ∧ u_gateway_online u = gateway_is_live r.1.2 now ∧
    coalesce (Plug.latitude r.1.1.1.2) (Gateway.latitude r.1.2) = Some (u_latitude u) ∧
    coalesce (Plug.longitude r.1.1.1.2) (Gateway.longitude r.1.2) = Some (u_longitude u)) w.
Proof.
  unfold get_public_plugs. do 4 wp_step. wp_step. set (rows := plug_rows _ _).
  eexists. split; [done|]. intros u Hu. apply list_elem_of_In, in_map_iff in Hu as (x & <- & Hx).
  apply list_elem_of_In, list_elem_of_omap in Hx as (r & Hr & Hloc). exists r. split; [done|].
  assert (Hr' : r ∈ map (λ x : plug_row * float * float, x.1.1) (omap locate rows)).
  { apply list_elem_of_In, in_map_iff. destruct r as [[[[i plug] group] gateway] tenant].
    unfold locate in Hloc; simpl in Hloc. destruct (coalesce (Plug.latitude _) _) as [lat|] eqn:Hlat; [|done].
    destruct (coalesce (Plug.longitude _) _) as [lon|] eqn:Hlon; [|done]. simplify_eq/=.
    exists ((i, plug, group, gateway, tenant), lat, lon). split; [done|].
    apply list_elem_of_In, list_elem_of_omap. eexists. split; [exact Hr|].
    unfold locate. rewrite Hlat. simpl. by rewrite Hlon. }
  assert (Hsub : map (λ x : plug_row * float * float, x.1.1) (omap locate rows) `sublist_of` rows).
  { clear. induction rows as [|r rows IH]; [done|]. cbn [omap list_omap].
    destruct (locate r) as [x|] eqn:Hx; [|by apply sublist_cons]. cbn [map].
    assert (x.1.1 = r) as ->; [|by apply sublist_skip].
    destruct r as [[[[i plug] group] gateway] tenant]. unfold locate in Hx; simpl in Hx.
    destruct (coalesce (Plug.latitude _) _) as [lat|]; [|done]. destruct (coalesce (Plug.longitude _) _); [|done].
    by simplify_eq/=. }
  pose proof (priced (cur w) (public_plug (cur w)) now _ r Hsub Hr') as Hprice.
  rewrite map_map in Hprice.
  destruct r as [[[[i plug] group] gateway] tenant]. unfold locate in Hloc; simpl in Hloc.
  destruct (coalesce (Plug.latitude _) _) as [lat|] eqn:Hlat; [|done].
  destruct (coalesce (Plug.longitude _) _) as [lon|] eqn:Hlon; [|done]. simplify_eq/=.
  unfold row_id in *. simpl in *. rewrite Hprice. done.
Qed.

Lemma answer_id d uid now r : p_id (answer d uid now r) = row_id r.
Proof.
  destruct r as [[[[i plug] group] gateway] tenant]. unfold answer, respond.
  by destruct (resolve_price_display d _ now) as [[]].
Qed.

Lemma join_plug_tenant d i plug t : tenant_of d plug = Some t → ∃ row, join_plug d (i, plug) = Some row.
Proof.
  unfold tenant_of, join_plug. simpl. destruct (gateways d !! _) as [g|]; [|done]. simpl.
  destruct (Gateway.tenant_id g) as [tid|]; [|done]. simpl. intros ->. simpl. eauto.
Qed.

Lemma join_plug_group d i plug r :
  join_plug d (i, plug) = Some r → r.1.1.2 = Plug.group_id plug ≫= λ gid, groups d !! gid.
Proof.
  unfold join_plug. simpl. destruct (gateways d !! _) as [g|]; [|done]. simpl.
  destruct (Gateway.tenant_id g) as [tid|]; [|done]. simpl. destruct (tenants d !! tid); [|done].
  simpl. by intros [= <-].
Qed.

(** C19: the lists of chargers and the single charger agree.  Every row of a
    user's list is, field by field, what asking for that charger alone answers
    (access, price, reservations, watches); no charger is listed twice; below the
    500-row cap a claimed charger is on the list whenever the user may ask for
    it.  A charger on the public map is in no private group, has a position, and
    shows what any signed-in user is told of it. *)
Theorem lists_agree uid now w :
  com w = cur w → listing_ok (cur w) →
  ∃ l w1 l' w2,
    run_request (get_available_plugs uid now) w = (Ok l, w1) ∧
    run_request (get_public_plugs now) w = (Ok l', w2) ∧
    NoDup (map p_id l) ∧
    (∀ r, r ∈ l → (run_request (get_plug (p_id r) uid now) w).1 = Ok r) ∧
    ((length l < PLUG_LIST_HARD_CAP)%nat → ∀ i plug t r, plugs (cur w) !! i = Some plug →
       tenant_of (cur w) plug = Some t → (run_request (get_plug i uid now) w).1 = Ok r → r ∈ l) ∧
    (∀ u, u ∈ l' → ∃ plug, plugs (cur w) !! u_id u = Some plug ∧ open_plug (cur w) plug ∧
       ∀ anyone, ∃ r, (run_request (get_plug (u_id u) anyone now) w).1 = Ok r ∧
         p_is_private r = false ∧ u_price_per_kwh u = p_price_per_kwh r ∧
         u_status u = p_status r ∧ u_gateway_online u = p_gateway_online r ∧
         Some (u_latitude u) = p_latitude r ∧ Some (u_longitude u) = p_longitude r).
Proof.
  intros Hcc Hok.
  assert (Hresult : ∀ {A} (m : M A) a, wp m (λ out _, out = Ok a) w → ∃ w', run_request m w = (Ok a, w')).
  { intros A m a Hm. unfold wp, run_request in *. destruct (m w) as [out w']. simpl in Hm. subst. eauto. }
  assert (Hget : ∀ i plug row any, plugs (cur w) !! i = Some plug → listed (cur w) any plug = true →
    join_plug (cur w) (i, plug) = Some row →
    (run_request (get_plug i any now) w).1 = Ok (answer (cur w) any now row)).
  { intros i plug row any H1 H2 H3.
    destruct (Hresult _ _ _ (get_plug_answer i plug row any now w Hok H1 H2 H3)) as [w' ->]. done. }
  destruct (Hresult _ _ _ (available_answer uid now w Hok)) as [w1 Hw1].
  destruct (public_answer now w) as (l' & Hl' & Hpub).
  destruct (Hresult _ (get_public_plugs now) l' Hl') as [w2 Hw2].
  exists (map (answer (cur w) uid now) (plug_rows (cur w) (listed (cur w) uid))), w1, l', w2.
  split_and!; [done|done|..].
  - rewrite map_map. erewrite map_ext; [apply (plug_rows_NoDup (cur w) (listed (cur w) uid))|].
    intros r. apply answer_id.
  - intros r Hr. apply list_elem_of_In, in_map_iff in Hr as (row & <- & Hrow).
    apply list_elem_of_In, elem_of_plug_rows in Hrow as (Hp & Hl & Hj).
    rewrite answer_id. by eapply Hget.
  - intros Hlen i plug t r Hp Ht Hr.
    assert (Hl : listed (cur w) uid plug = true).
    { apply not_false_iff_true. intros Hl.
      assert (Hno : wp (get_plug i uid now) (λ out _, is_ok out = false) w).
      { unfold get_plug, visible_plug, load_plug. do 4 wp_step. rewrite Hp. wp_step. apply wp_bind.
        unfold wp at 1. by rewrite (access_eq i plug uid w Hok Hp), Hl. }
      unfold wp, run_request in *. by destruct (get_plug i uid now w) as [[]]. }
    destruct (join_plug_tenant (cur w) i plug t Ht) as [row Hj].
    rewrite (Hget i plug row uid Hp Hl Hj) in Hr. simplify_eq.
    apply list_elem_of_In, in_map, list_elem_of_In.
    assert (Hin : row ∈ omap (join_plug (cur w)) (select (λ _, listed (cur w) uid) (plugs (cur w)))).
    { apply list_elem_of_omap. exists (i, plug). split; [|done]. by apply elem_of_select. }
    unfold plug_rows in *. rewrite length_map, length_take in Hlen. rewrite take_ge; [done|lia].
  - intros u Hu. destruct (Hpub u Hu) as (r & Hr & Hid & Hprice & Hst & Hon & Hlat & Hlon).
    apply elem_of_plug_rows in Hr as (Hp & Hpp & Hj). rewrite Hid.
    exists r.1.1.1.2. split; [done|].
    assert (Hopen : open_plug (cur w) r.1.1.1.2).
    { intros gid g Hg _ Hgg. unfold public_plug, in_public_group in Hpp. rewrite Hg in Hpp.
      simpl in Hpp. by rewrite Hgg in Hpp. }
    split; [done|]. intros anyone. exists (answer (cur w) anyone now r). split.
    { eapply Hget; try done. unfold public_plug, listed in *. apply orb_true_iff in Hpp as [->| ->];
        [done | apply orb_true_r]. }
    pose proof (join_plug_group _ _ _ _ Hj) as Hgr.
    destruct r as [[[[i plug] group] gateway] tenant]. unfold answer, respond. simpl in *.
    destruct (resolve_price_display (cur w) plug now) as [[rate changes] next]. simpl in *.
    split_and!; try done. subst group. destruct (Plug.group_id plug) as [gid|] eqn:Hg; [|done]. simpl.
    destruct (groups (cur w) !! gid) as [g|] eqn:Hgg; [|done].
    rewrite (Hopen gid g); [done|done| |done]. by eapply so_group.
Qed.
End Plugs.
