(* ===== verification/Versioning.v ===== *)
(** * services/versioning.py: the order of firmware versions

    [_VERSION_RE] is read off by hand: three dotted numbers, then an optional
    "-suffix" with no line break.  Strings are bytes, whose order is that of
    their code points; digits are those of ASCII. *)

From stdpp Require Import pretty.
From Stdlib Require Import Ascii.
From S2P Require Import Prelude Rounding PyNum Money Models PyString PyJson Auth.

(** [\d+], greedy: its value and what follows. *)
Fixpoint read_number (started : bool) (acc : Z) (s : string) : option (Z * string) :=
  match s with
  | EmptyString => if started then Some (acc, EmptyString) else None
  | String c r =>
      match digit c with
      | Some k => read_number true (10 * acc + k) r
      | None => if started then Some (acc, s) else None
      end
  end.
Definition number : string → option (Z * string) := read_number false 0.
#[local] Arguments number : simpl never.

Definition dot (s : string) : option string :=
  match s with String "." r => Some r | _ => None end.

(** [.] does not match a line feed. *)
Fixpoint one_line (s : string) : bool :=
  match s with EmptyString => true | String c r => negb (Ascii.eqb c "010"%char) && one_line r end.

(** The optional suffix, up to the end. *)
Definition suffix (s : string) : option string :=
  match s with
  | EmptyString => Some EmptyString
  | String "-" r => if one_line r then Some r else None
  | _ => None
  end.

Abbreviation version_key := (Z * Z * Z * string)%type (only parsing).

Definition match_version (s : string) : option version_key :=
  '(major, s) ← number s; s ← dot s;
  '(minor, s) ← number s; s ← dot s;
  '(patch, s) ← number s; sfx ← suffix s;
  Some (major, minor, patch, sfx).

Definition version_sort_key (version : string) : version_key :=
  if String.eqb version "" then (-1, -1, -1, EmptyString)
  else default (-1, -1, -1, version) (match_version (strip version)).

(** Python's order on the tuples. *)
Definition compare_keys (a b : version_key) : comparison :=
  match Z.compare a.1.1.1 b.1.1.1 with
  | Eq => match Z.compare a.1.1.2 b.1.1.2 with
          | Eq => match Z.compare a.1.2 b.1.2 with
                  | Eq => String.compare a.2 b.2
                  | c => c end
          | c => c end
  | c => c
  end.

Definition is_newer_version (candidate baseline : string) : bool :=
  match compare_keys (version_sort_key candidate) (version_sort_key baseline) with
  | Gt => true
  | _ => false
  end.

(** ** Versions read as they are written *)

(** A version string of the repository's form; [None] for no suffix. *)
Definition render (major minor patch : Z) (sfx : option string) : string :=
  String.app (pretty major) (String.app "." (String.app (pretty minor) (String.app "."
    (String.app (pretty patch) (match sfx with Some s => String.app "-" s | None => EmptyString end))))).

Definition starts_digit (s : string) : bool :=
  match s with String c _ => bool_decide (is_Some (digit c)) | EmptyString => false end.

Lemma read_number_pretty n s : (0 < n)%N → starts_digit s = false →
  read_number false 0 (pretty_N_go n s) = Some (Z.of_N n, s).
Proof.
  intros Hn Hs.
  assert (Hgo : ∀ n s, (0 < n)%N →
    read_number false 0 (pretty_N_go n s) = read_number true (Z.of_N n) s).
  { clear. intros n. induction (N.lt_wf_0 n) as [n _ IH]; intros s Hn. rewrite pretty_N_go_step by done.
    destruct (pretty_N_char_digit (n `mod` 10)) as [Hd _]; [by apply N.mod_lt|].
    pose proof (N.div_mod n 10 ltac:(done)) as Hdm. pose proof (N.div_lt n 10 Hn ltac:(done)) as Hlt.
    destruct (decide (n `div` 10 = 0)%N) as [H0|H0].
    - rewrite H0, pretty_N_go_0. simpl. rewrite Hd. f_equal. rewrite H0 in Hdm. lia.
    - rewrite IH by first [exact Hlt | by apply N.neq_0_lt_0]. simpl. rewrite Hd. f_equal. lia. }
  rewrite Hgo by done. destruct s as [|c r]; [done|]. simpl in *.
  destruct (digit c); [|done]. by rewrite bool_decide_true in Hs by eauto.
Qed.

Lemma pretty_N_go_app n s : pretty_N_go n s = String.app (pretty_N_go n "") s.
Proof.
  revert s. induction (N.lt_wf_0 n) as [n _ IH]; intros s.
  destruct (decide (0 < n)%N) as [Hn|]; [|assert (n = 0%N) as -> by lia; by rewrite !pretty_N_go_0].
  rewrite !(pretty_N_go_step n) by done.
  assert (Hlt : (n `div` 10 < n)%N) by (by apply N.div_lt).
  rewrite (IH _ Hlt), (IH _ Hlt (String _ "")).
  generalize (pretty_N_go (n `div` 10) ""). intros t. induction t as [|c t IHt]; [done|].
  change (String c (String.app t (String (pretty_N_char (n `mod` 10)) s)) =
          String c (String.app (String.app t (String (pretty_N_char (n `mod` 10)) "")) s)).
  by rewrite IHt.
Qed.

Lemma number_pretty (n : Z) s : 0 <= n → starts_digit s = false →
  number (String.app (pretty n) s) = Some (n, s).
Proof.
  intros Hn Hs. unfold number. destruct n as [|p|p]; [| |done].
  - change (read_number true 0 s = Some (0, s)). destruct s as [|c r]; [done|]. simpl in *.
    destruct (digit c); [|done]. by rewrite bool_decide_true in Hs by eauto.
  - change (pretty (Zpos p)) with (pretty_N_go (Npos p) ""). rewrite <- pretty_N_go_app.
    by apply read_number_pretty.
Qed.

Lemma spaceless_app s t : spaceless (String.app s t) ↔ spaceless s ∧ spaceless t.
Proof.
  induction s as [|c s IH]; [by simpl; tauto|].
  change (is_space c = false ∧ spaceless (String.app s t) ↔ (is_space c = false ∧ spaceless s) ∧ spaceless t).
  tauto.
Qed.

Lemma spaceless_pretty (n : Z) : spaceless (pretty n).
Proof.
  destruct n as [|p|p]; [done|..].
  - change (pretty (Zpos p)) with (pretty_N_go (Npos p) ""). by apply spaceless_pretty_N_go.
  - change (pretty (Zneg p)) with (String "-" (pretty_N_go (Npos p) "")). split; [done|].
    by apply spaceless_pretty_N_go.
Qed.

Lemma spaceless_one_line s : spaceless s → one_line s = true.
Proof.
  induction s as [|c s IH]; [done|]. intros [Hc Hs]. simpl. rewrite IH by done.
  destruct (Ascii.eqb_spec c "010"%char) as [->|]; done.
Qed.

Lemma render_nonempty a b c sfx : String.eqb (render a b c sfx) "" = false.
Proof.
  unfold render. destruct (pretty a); [done|]. done.
Qed.

(** Versions round-trip: the key of "major.minor.patch" with or without a
    suffix (of no white space) is the three numbers and that suffix; so one such
    version is newer than another exactly when it is larger in its first number
    that differs, or, all three equal, in its suffix; and anything that does not
    read as a version is older than every version. *)
Theorem version_order a b c sfx a' b' c' sfx' junk :
  0 <= a → 0 <= b → 0 <= c → 0 <= a' → 0 <= b' → 0 <= c' →
  spaceless (default EmptyString sfx) → spaceless (default EmptyString sfx') →
  match_version (strip junk) = None →
  version_sort_key (render a b c sfx) = (a, b, c, default EmptyString sfx) ∧
  (is_newer_version (render a b c sfx) (render a' b' c' sfx') = true ↔
    a' < a ∨ a' = a ∧ (b' < b ∨ b' = b ∧ (c' < c ∨ c' = c ∧
      String.compare (default EmptyString sfx) (default EmptyString sfx') = Gt))) ∧
  is_newer_version (render a b c sfx) junk = true ∧
  is_newer_version junk (render a b c sfx) = false.
Proof.
  assert (Hkey : ∀ a b c sfx, 0 <= a → 0 <= b → 0 <= c → spaceless (default EmptyString sfx) →
    version_sort_key (render a b c sfx) = (a, b, c, default EmptyString sfx)).
  { clear. intros a b c sfx Ha Hb Hc Hs. unfold version_sort_key. rewrite render_nonempty.
    rewrite strip_spaceless.
    - unfold match_version, render.
      assert (Hdot : ∀ t, dot (String.app "." t) = Some t) by done.
      assert (Hsep : ∀ t, starts_digit (String.app "." t) = false) by done.
      rewrite number_pretty by done. cbn [mbind option_bind]. rewrite Hdot. cbn [mbind option_bind].
      rewrite number_pretty by done. cbn [mbind option_bind]. rewrite Hdot. cbn [mbind option_bind].
      rewrite number_pretty by (by destruct sfx). cbn [mbind option_bind].
      destruct sfx as [s|]; [|done]. cbn [default] in Hs.
      change (suffix (String.app "-" s)) with (if one_line s then Some s else None).
      by rewrite spaceless_one_line.
    - unfold render. rewrite !spaceless_app. split_and!; try apply spaceless_pretty; try done.
      destruct sfx; [|done]. by rewrite spaceless_app. }
  intros Ha Hb Hc Ha' Hb' Hc' Hs Hs' Hjunk.
  assert (Hj : (version_sort_key junk).1 = (-1, -1, -1)).
  { unfold version_sort_key. destruct (String.eqb junk ""); [done|]. by rewrite Hjunk. }
  unfold is_newer_version, compare_keys. rewrite !Hkey by done. simpl.
  destruct (version_sort_key junk) as [k t]. simpl in Hj. subst k. simpl. split_and!; [done|..].
  - destruct (Z.compare_spec a a') as [->| |]; [|split; [done|intros; lia]|split; [auto 10|done]].
    destruct (Z.compare_spec b b') as [->| |]; [|split; [done|intros; lia]|split; [auto 10|done]].
    destruct (Z.compare_spec c c') as [->| |]; [|split; [done|intros; lia]|split; [auto 10|done]].
    destruct (String.compare _ _) eqn:Hcmp; split; try done; try (intros _; by right; split; [|right; split; [|right]]).
    all: intros [H|[_ [H|[_ [H|[_ H]]]]]]; (lia || done).
  - assert (Hgt : (a ?= -1) = Gt) by (apply Z.compare_gt_iff; lia). by rewrite Hgt.
  - destruct a as [|p|p]; [done|done|lia].
Qed.

(** The docstring has two malformed strings compare equal; their own text
    decides. *)
Lemma malformed_compare : is_newer_version "b" "a" = true.
Proof. reflexivity. Qed.

(** ** The order is total *)

Lemma compare_keys_antisym a b : compare_keys b a = CompOpp (compare_keys a b).
Proof.
  unfold compare_keys. rewrite (Z.compare_antisym a.1.1.1), (Z.compare_antisym a.1.1.2), (Z.compare_antisym a.1.2).
  rewrite (String.compare_antisym b.2 a.2).
  by destruct (a.1.1.1 ?= b.1.1.1), (a.1.1.2 ?= b.1.1.2), (a.1.2 ?= b.1.2).
Qed.

Lemma string_compare_trans s t u :
  String.compare s t ≠ Lt → String.compare t u ≠ Lt → String.compare s u ≠ Lt.
Proof.
  revert t u. induction s as [|c s IH]; intros [|d t] [|e u]; simpl; try done.
  unfold Ascii.compare.
  destruct (N.compare_spec (Ascii.N_of_ascii c) (Ascii.N_of_ascii d)),
    (N.compare_spec (Ascii.N_of_ascii d) (Ascii.N_of_ascii e)),
    (N.compare_spec (Ascii.N_of_ascii c) (Ascii.N_of_ascii e)); (done || lia || eauto).
Qed.

Lemma compare_keys_trans a b c :
  compare_keys a b ≠ Lt → compare_keys b c ≠ Lt → compare_keys a c ≠ Lt.
Proof.
  unfold compare_keys.
  destruct (Z.compare_spec a.1.1.1 b.1.1.1), (Z.compare_spec b.1.1.1 c.1.1.1),
    (Z.compare_spec a.1.1.1 c.1.1.1); try (done || lia).
  destruct (Z.compare_spec a.1.1.2 b.1.1.2), (Z.compare_spec b.1.1.2 c.1.1.2),
    (Z.compare_spec a.1.1.2 c.1.1.2); try (done || lia).
  destruct (Z.compare_spec a.1.2 b.1.2), (Z.compare_spec b.1.2 c.1.2),
    (Z.compare_spec a.1.2 c.1.2); try (done || lia).
  apply string_compare_trans.
Qed.
