(* ===== verification/CsvSafe.v ===== *)
(** * services/csv_safe.py: cells that a spreadsheet does not run

    [str(value)] is the caller's; the cell is its text. *)

From Stdlib Require Import Ascii.
From S2P Require Import Prelude.

(** [_FORMULA_TRIGGER_CHARS]: = + - @, tab, CR, LF. *)
Definition formula_trigger (c : ascii) : bool :=
  bool_decide (Ascii.nat_of_ascii c ∈ [61; 43; 45; 64; 9; 13; 10]%nat).

(** [text.lstrip(" ")]: spaces only. *)
Fixpoint lstrip_spaces (s : string) : string :=
  match s with
  | String " " s' => lstrip_spaces s'
  | _ => s
  end.

(** What a spreadsheet would take for a formula. *)
Definition runs (text : string) : bool :=
  match lstrip_spaces text with
  | String c _ => formula_trigger c
  | EmptyString => false
  end.

Definition sanitize_csv_cell (value : option string) : string :=
  match value with
  | None => ""
  | Some text => if runs text then String "'" text else text
  end.

(** A cell is never taken for a formula, loses nothing but the added apostrophe,
    and a second pass changes nothing. *)
Theorem sanitized value :
  let cell := sanitize_csv_cell value in
  runs cell = false ∧ sanitize_csv_cell (Some cell) = cell ∧
  (cell = default "" value ∨ cell = String "'" (default "" value)).
Proof.
  assert (Hcell : runs (sanitize_csv_cell value) = false).
  { destruct value as [text|]; [|done]. simpl. by destruct (runs text) eqn:Hr. }
  split; [done|]. split; [simpl; by rewrite Hcell|].
  destruct value as [text|]; [|by left]. simpl. destruct (runs text); [by right | by left].
Qed.
