(* ===== verification/Fleet.v ===== *)
(** * routers/cpo/_plugs.py, _gateways.py, _plug_reports.py: an operator's fleet

    Plugs, gateways, firmware updates and problem reports of one tenant.  The
    list of gateways, ordered by the database's collation, is left; audit rows
    are not kept; request schemas other than the OTA target are assumed checked. *)

From stdpp Require Import sorting.
From Stdlib Require Import Ascii.
From S2P Require Import Prelude Rounding PyNum Money Models Config Billing TelemetryStore World.
From S2P Require Import Hoare PyString PyJson Auth Wallet Commands Caps Lifecycle Payouts Tariffs.
From S2P Require Import Groups Versioning.

(** ** Requests *)

Record CpoPlugCreateRequest := mkplug_create {
  pc_gateway_id : string;
  pc_name : string;
  pc_local_ip : string;
  pc_plug_model : string;
  pc_group_id : option Z;
  pc_latitude : option float;
  pc_longitude : option float;
  pc_rated_power_w : option Z;
  pc_connector_type : option string }.

Record CpoPlugUpdateRequest := mkplug_update {
  pu_name : option string;
  pu_group_id : option Z;
  pu_status : option string;
  pu_local_ip : option string;
  pu_latitude : option float;
  pu_longitude : option float;
  pu_max_current_a : option float;
  pu_queued_charging_enabled : option bool;
  pu_auto_start_delay_min : option Z;
  pu_rated_power_w : option Z;
  pu_connector_type : option string }.

(** The image of an OTA: a registered release or a raw URL, exactly one. *)
Record CpoGatewayOtaRequest := mkota { ota_release_id : option Z; ota_firmware_url : option string }.

Definition truthy_id (o : option Z) : bool := match o with None | Some 0 => false | Some _ => true end.
Definition truthy_str (o : option string) : bool := match o with None | Some "" => false | Some _ => true end.

(** [pattern=^https://], [max_length=512] and [_exactly_one_target]. *)
Definition https_url (url : string) : bool :=
  String.prefix "https://" url && (str_len url <=? 512).
Definition ota_valid (r : CpoGatewayOtaRequest) : bool :=
  negb (Bool.eqb (truthy_id (ota_release_id r)) (truthy_str (ota_firmware_url r))) &&
  match ota_firmware_url r with Some url => https_url url | None => true end.

(** [PlugStatus(value)]. *)
Definition plug_status_of (s : string) : option PlugStatus :=
  if String.eqb s "available" then Some AVAILABLE
  else if String.eqb s "occupied" then Some OCCUPIED
  else if String.eqb s "offline" then Some OFFLINE
  else if String.eqb s "maintenance" then Some MAINTENANCE
  else None.

Definition plug_report_status_of (s : string) : option PlugReportStatus :=
  if String.eqb s "open" then Some PR_OPEN
  else if String.eqb s "acknowledged" then Some PR_ACKNOWLEDGED
  else if String.eqb s "resolved" then Some PR_RESOLVED
  else None.

(** [x or None]. *)
Definition int_or_none (x : Z) : option Z := if x =? 0 then None else Some x.
Definition str_or_none (s : string) : option string := if String.eqb s "" then None else Some s.

(** [if req.x is not None: row.x = req.x]. *)
Definition replaced {A} (given : option A) (old : A) : A := default old given.

Section Fleet.
Context `{cfg : Config}.
Implicit Types (d : db) (user : User.t) (now plug_id : Z).

(** ** routers/cpo/_plugs.py *)

Definition cpo_list_plugs user (limit offset : Z) : M (list (Z * Plug.t * option string)) :=
  let '(limit, offset) := clamp_list_window limit offset in
  query (λ d, map (λ r, (r, ChargerGroup.name <$> (Plug.group_id r.2 ≫= λ gid, groups d !! gid)))
    (window limit offset (order_by fst
      (select (λ i _, bool_decide (is_Some (tenant_plug i (User.tenant_id user) d))) (plugs d))))).

Definition publish_gateway_roster (gateway_id : string) : M unit :=
  _ ← publish_roster_for_gateway gateway_id; mret tt.

(** The gateway, when it is the tenant's; an admin without one has the unclaimed. *)
Definition tenant_gateway (gateway_id : string) (tenant_id : option Z) d : option Gateway.t :=
  g ← gateways d !! gateway_id;
  if bool_decide (Gateway.tenant_id g = tenant_id) then Some g else None.

Definition new_plug_row (r : CpoPlugCreateRequest) : Plug.t := {|
  Plug.gateway_id := pc_gateway_id r;
  Plug.name := pc_name r;
  Plug.local_ip := pc_local_ip r;
  Plug.plug_model := pc_plug_model r;
  Plug.unique_id := None;
  Plug.status := OFFLINE;
  Plug.current_power_w := 0;
  Plug.latitude := pc_latitude r;
  Plug.longitude := pc_longitude r;
  Plug.last_telemetry_at := None;
  Plug.powered_since := None;
  Plug.group_id := pc_group_id r;
  Plug.tariff_id := None;
  Plug.max_current_a := None;
  Plug.queued_charging_enabled := None;
  Plug.auto_start_delay_min := None;
  Plug.rated_power_w := pc_rated_power_w r;
  Plug.connector_type := pc_connector_type r;
  Plug.last_today_energy_kwh := None;
  Plug.last_month_energy_kwh := None |}.

(** [if req.group_id:] skips 0, which the foreign key then refuses. *)
Definition check_plug_group user (group_id : option Z) : M unit :=
  match group_id with
  | None => mret tt
  | Some 0 => raise IntegrityError
  | Some gid =>
      group ← query (tenant_group gid (User.tenant_id user));
      _ ← or_raise group 404 "Group not found or does not belong to your organization.";
      mret tt
  end.

Definition cpo_create_plug user (req : CpoPlugCreateRequest) : M Z :=
  gateway ← query (tenant_gateway (pc_gateway_id req) (User.tenant_id user));
  _ ← or_raise gateway 404 "Gateway not found or does not belong to your organization.";
  check_plug_group user (pc_group_id req);;
  i ← fresh;
  modify (λ d, d <| plugs ::= <[i := new_plug_row req]> |>);;
  commit;;
  publish_gateway_roster (pc_gateway_id req);;
  mret i.

Definition set_plug plug_id (f : Plug.t → Plug.t) : M unit :=
  modify (λ d, d <| plugs ::= alter f plug_id |>).

Definition load_tenant_plug user plug_id : M Plug.t :=
  plug ← query (tenant_plug plug_id (User.tenant_id user));
  or_raise plug 404 "Plug not found or access denied.".

(** 0 leaves the group, another id must be a group of the tenant. *)
Definition regroup_plug user plug_id (group_id : option Z) : M unit :=
  match group_id with
  | None => mret tt
  | Some 0 => set_plug plug_id (λ p, p <| Plug.group_id := None |>)
  | Some gid =>
      group ← query (tenant_group gid (User.tenant_id user));
      _ ← or_raise group 404 "Group not found or access denied.";
      set_plug plug_id (λ p, p <| Plug.group_id := Some gid |>)
  end.

(** Any of the four states, whatever runs on the plug. *)
Definition restatus_plug plug_id (status : option string) : M unit :=
  match status with
  | None => mret tt
  | Some s =>
      st ← or_raise (plug_status_of s) 400 "Invalid status";
      set_plug plug_id (λ p, p <| Plug.status := st |>)
  end.

(** The columns that have no condition. *)
Definition edited_plug (req : CpoPlugUpdateRequest) (p : Plug.t) : Plug.t :=
  p <| Plug.latitude := coalesce (pu_latitude req) (Plug.latitude p) |>
    <| Plug.longitude := coalesce (pu_longitude req) (Plug.longitude p) |>
    <| Plug.local_ip ::= replaced (pu_local_ip req) |>
    <| Plug.max_current_a ::= replaced (or_none <$> pu_max_current_a req) |>
    <| Plug.queued_charging_enabled := coalesce (pu_queued_charging_enabled req)
                                         (Plug.queued_charging_enabled p) |>
    <| Plug.auto_start_delay_min ::= replaced (int_or_none <$> pu_auto_start_delay_min req) |>
    <| Plug.rated_power_w ::= replaced (int_or_none <$> pu_rated_power_w req) |>
    <| Plug.connector_type ::= replaced (str_or_none <$> pu_connector_type req) |>.

Definition cpo_update_plug user plug_id (req : CpoPlugUpdateRequest) : M unit :=
  plug ← load_tenant_plug user plug_id;
  set_plug plug_id (λ p, p <| Plug.name ::= replaced (pu_name req) |>);;
  regroup_plug user plug_id (pu_group_id req);;
  restatus_plug plug_id (pu_status req);;
  set_plug plug_id (edited_plug req);;
  commit;;
  publish_gateway_roster (Plug.gateway_id plug).

Inductive maintenance_action := Enter | Clear.
Definition maintenance_action_of (s : string) : option maintenance_action :=
  let s := lower (strip s) in
  if String.eqb s "enter" then Some Enter else if String.eqb s "clear" then Some Clear else None.

Definition active_on_plug plug_id (s : ChargingSession.t) : bool :=
  (ChargingSession.plug_id s =? plug_id) && is_active s.

Definition cpo_plug_maintenance user plug_id (action : string) : M unit :=
  action ← or_raise (maintenance_action_of action) 400 "Invalid action. Must be 'enter' or 'clear'.";
  plug ← load_tenant_plug user plug_id;
  new_status ← match action with
    | Enter => mret MAINTENANCE
    | Clear =>
        active ← query (λ d, count (active_on_plug plug_id) (sessions d));
        refuse (0 <? active) 409
          "Cannot clear maintenance: this plug has an active charging session.";;
        mret AVAILABLE
    end;
  set_plug_status plug_id new_status;;
  commit;;
  when (negb (bool_decide (new_status = Plug.status plug)))
    (emit (EmitPlugStatus plug_id new_status);;
     when (bool_decide (new_status = AVAILABLE))
       (_ ← notify_watchers_plug_available plug_id None; mret tt)).

(** ** routers/cpo/_gateways.py *)

(** As a buyer copies it off the label. *)
Definition normalize_claim_code (raw : string) : string :=
  remove_char " "%char (remove_char "-"%char (upper (strip raw))).

(** [ORDER BY id], in the order of the bytes of the ids. *)
Definition id_before (a b : string * Gateway.t) : Prop := String.leb a.1 b.1 = true.
#[local] Instance id_before_dec : RelDecision id_before.
Proof. intros a b. apply bool_eq_dec. Defined.

(** A row: gateway, whether it is live, its number of plugs. *)
Definition cpo_list_gateways user (limit offset : Z) now : M (list (string * Gateway.t * bool * Z)) :=
  let '(limit, offset) := clamp_list_window limit offset in
  query (λ d, map (λ r, (r, gateway_is_live r.2 now,
                         count (λ p, bool_decide (Plug.gateway_id p = r.1)) (plugs d)))
    (window limit offset (merge_sort id_before
      (List.filter (λ r, bool_decide (Gateway.tenant_id r.2 = User.tenant_id user))
        (map_to_list (gateways d)))))).

(** UNIQUE(vpn_ip): the insert fails on a taken address. *)
Definition insert_gateway (gateway_id : string) (g : Gateway.t) : M unit :=
  taken ← query (λ d, bool_decide (map_Exists (λ _ h, Gateway.vpn_ip h = Gateway.vpn_ip g) (gateways d)));
  when taken (raise IntegrityError);;
  modify (λ d, d <| gateways ::= <[gateway_id := g]> |>);;
  commit.

Definition cpo_create_gateway user (gateway_id name vpn_ip : string) now : M unit :=
  tenant_id ← require_tenant_id user;
  existing ← query (λ d, gateways d !! gateway_id);
  refuse (bool_decide (is_Some existing)) 400 "Gateway already exists.";;
  insert_gateway gateway_id
    (Gateway.mk (Some tenant_id) name (if String.eqb vpn_ip "" then gateway_id else vpn_ip)
       GW_OFFLINE None None None None None (Some now)).

(** The gateways with a claim code: UNIQUE when not NULL. *)
Definition claimable_rows (code : string) d : list (string * Gateway.t) :=
  List.filter (λ r, bool_decide (Gateway.claim_code r.2 = Some code)) (map_to_list (gateways d)).

(** What the handler reads and decides, and what it writes: no lock in between. *)
Definition claim_check user (claim_code : string) : M (Z * string) :=
  tenant_id ← require_tenant_id user;
  rows ← query (claimable_rows (normalize_claim_code claim_code));
  gateway ← one_or_none rows;
  '(gateway_id, gateway) ← or_raise gateway 404 "Claim code not found or already used.";
  refuse (bool_decide (is_Some (Gateway.claimed_at gateway))) 404
    "Claim code not found or already used.";;
  mret (tenant_id, gateway_id).

Definition claim_store (tenant_id : Z) (gateway_id : string) (name : option string) now : M unit :=
  modify (λ d, d <| gateways ::= alter (λ g,
    g <| Gateway.tenant_id := Some tenant_id |> <| Gateway.claimed_at := Some now |>
      <| Gateway.name ::= replaced (name ≫= str_or_none) |>) gateway_id |>);;
  commit.

Definition cpo_claim_gateway user (claim_code : string) (name : option string) now : M string :=
  '(tenant_id, gateway_id) ← claim_check user claim_code;
  claim_store tenant_id gateway_id name now;;
  mret gateway_id.

(** [sorted(rows, key=version_sort_key, reverse=True)]; equal keys in any order. *)
Definition newer_first (a b : Z * FirmwareRelease.t) : Prop :=
  compare_keys (version_sort_key (FirmwareRelease.version a.2))
    (version_sort_key (FirmwareRelease.version b.2)) ≠ Lt.
#[local] Instance newer_first_dec : RelDecision newer_first.
Proof. intros a b. unfold newer_first. destruct (compare_keys _ _); [left|right|left]; congruence. Defined.

Definition sorted_releases (p : FirmwareRelease.t → bool) d : list (Z * FirmwareRelease.t) :=
  merge_sort newer_first (select (λ _, p) (releases d)).

Definition cpo_list_firmware_releases : M (list (Z * FirmwareRelease.t)) :=
  query (sorted_releases FirmwareRelease.is_active).

(** The URL an OTA is to fetch: a raw one for an admin only. *)
Definition ota_url (custom_allowed : bool) (req : CpoGatewayOtaRequest) : M string :=
  if truthy_str (ota_firmware_url req) then
    refuse (negb custom_allowed) 403 "Custom firmware URLs are restricted to admin users";;
    mret (default EmptyString (ota_firmware_url req))
  else
    release ← query (λ d, i ← ota_release_id req; r ← releases d !! i;
                           if FirmwareRelease.is_active r then Some r else None);
    release ← or_raise release 404 "Firmware release not found or no longer active.";
    mret (FirmwareRelease.url release).

(** From the gateway's row on. *)
Definition trigger_ota (gateway_id : string) (gateway : Gateway.t) (custom_allowed : bool)
    (req : CpoGatewayOtaRequest) : M string :=
  refuse (negb (bool_decide (Gateway.status gateway = ONLINE))) 409
    "Gateway is offline; it must be connected to receive an OTA command.";;
  firmware_url ← ota_url custom_allowed req;
  plug ← query (λ d, head (order_by fst
    (select (λ _ p, bool_decide (Plug.gateway_id p = gateway_id)) (plugs d))));
  '(plug_id, _) ← or_raise plug 409 "Gateway has no registered plugs to route the OTA command through.";
  published ← send_gateway_ota gateway_id plug_id firmware_url;
  refuse (negb published) 502 "Failed to publish the OTA command to the broker.";;
  mret firmware_url.

Definition cpo_gateway_ota user (gateway_id : string) (req : CpoGatewayOtaRequest) : M string :=
  refuse (negb (ota_valid req)) 422 "";;
  gateway ← query (tenant_gateway gateway_id (User.tenant_id user));
  gateway ← or_raise gateway 404 "Gateway not found or access denied.";
  trigger_ota gateway_id gateway (bool_decide (User.role user = ADMIN)) req.

(** ** routers/cpo/_plug_reports.py *)

Definition cpo_list_plug_reports user (status_filter : option string) (limit : Z)
    : M (list (Z * PlugReport.t)) :=
  let limit := Z.max 1 (Z.min limit 500) in
  filter ← match status_filter with
    | None | Some "" => mret None
    | Some s =>
        st ← or_raise (plug_report_status_of s) 400 "Invalid status_filter"; mret (Some st)
    end;
  query (λ d, take (Z.to_nat limit)
    (order_by2 (λ r, - PlugReport.created_at r.2) (λ r, - r.1)
      (select (λ _ r, bool_decide (Some (PlugReport.tenant_id r) = User.tenant_id user) &&
                      given (λ st, bool_decide (PlugReport.status r = st)) filter) (plug_reports d)))).

(** The row is locked and its status read under the lock. *)
Definition cpo_resolve_plug_report user (uid report_id : Z) (action : string)
    (note : option string) now : M PlugReport.t :=
  refuse (negb (String.eqb action "acknowledge" || String.eqb action "resolve")) 400
    "Invalid action. Must be 'acknowledge' or 'resolve'.";;
  report ← query (λ d, r ← plug_reports d !! report_id;
    if bool_decide (Some (PlugReport.tenant_id r) = User.tenant_id user) then Some r else None);
  report ← or_raise report 404 "Plug report not found or access denied.";
  refuse (bool_decide (PlugReport.status report = PR_RESOLVED)) 409
    "This plug report was already resolved.";;
  let noted := report <| PlugReport.resolution_note :=
                 coalesce (note ≫= str_or_none) (PlugReport.resolution_note report) |> in
  report' ← (if String.eqb action "acknowledge" then
      refuse (negb (bool_decide (PlugReport.status report = PR_OPEN))) 409
        "This plug report is already acknowledged.";;
      mret (noted <| PlugReport.status := PR_ACKNOWLEDGED |>)
    else
      mret (noted <| PlugReport.status := PR_RESOLVED |>
                  <| PlugReport.resolved_at := Some now |>
                  <| PlugReport.resolved_by_user_id := Some uid |>));
  modify (λ d, d <| plug_reports ::= <[report_id := report']> |>);;
  commit;;
  mret report'.

(** ** Tenants do not reach each other's fleet *)

Definition gateway_owner d (gateway_id : string) : option Z :=
  gateways d !! gateway_id ≫= Gateway.tenant_id.

(** Minted, and not bound to a tenant yet. *)
Definition unclaimed (g : Gateway.t) : Prop :=
  is_Some (Gateway.claim_code g) ∧ Gateway.claimed_at g = None.

(** An unclaimed gateway has no owner, a code opens one gateway, a plug's group
    is its own operator's; ids are fresh. *)
Record fleet_ok d : Prop := {
  fl_stock : ∀ i g, gateways d !! i = Some g → unclaimed g → Gateway.tenant_id g = None;
  fl_codes : ∀ i j g h c, gateways d !! i = Some g → gateways d !! j = Some h →
    Gateway.claim_code g = Some c → Gateway.claim_code h = Some c → i = j;
  fl_gateway : ∀ i p, plugs d !! i = Some p → is_Some (gateways d !! Plug.gateway_id p);
  fl_home : ∀ i p gid, plugs d !! i = Some p → Plug.group_id p = Some gid →
    ∃ g, groups d !! gid = Some g ∧ gateway_owner d (Plug.gateway_id p) = Some (ChargerGroup.tenant_id g);
  fl_ids : ∀ i, next_id d <= i → plugs d !! i = None }.

Record within_tenant (tenant : option Z) d d' : Prop := {
  wt_gateways : ∀ i g, gateways d !! i = Some g →
    gateways d' !! i = Some g ∨
    unclaimed g ∧ ∃ g', gateways d' !! i = Some g' ∧ Gateway.tenant_id g' = tenant ∧
      is_Some (Gateway.claimed_at g') ∧ is_Some tenant;
  wt_plugs : ∀ i p, plugs d !! i = Some p → gateway_owner d (Plug.gateway_id p) ≠ tenant →
    plugs d' !! i = Some p;
  wt_stay : ∀ i p, plugs d !! i = Some p →
    ∃ p', plugs d' !! i = Some p' ∧ Plug.gateway_id p' = Plug.gateway_id p;
  wt_new : ∀ i p', plugs d' !! i = Some p' → plugs d !! i = None →
    gateway_owner d (Plug.gateway_id p') = tenant;
  wt_reports : ∀ i r, plug_reports d !! i = Some r → Some (PlugReport.tenant_id r) ≠ tenant →
    plug_reports d' !! i = Some r;
  wt_users : users d' = users d;
  wt_ledger : ledger d' = ledger d;
  wt_sessions : sessions d' = sessions d;
  wt_groups : groups d' = groups d;
  wt_members : memberships d' = memberships d }.

Definition command_gateway (c : mqtt_command) : string :=
  match c with
  | CmdPlug g _ _ _ _ _ _ _ | CmdInterval g _ _ | CmdLimits g _ _ _ _ _ | CmdRoster g _ | CmdOta g _ _ => g
  end.

(** A message to a gateway of the tenant. *)
Definition own_effect (tenant : option Z) d (e : effect) : Prop :=
  match e with Publish c _ => gateway_owner d (command_gateway c) = tenant | _ => True end.

Inductive fleet_request :=
  | CreatePlug (req : CpoPlugCreateRequest)
  | UpdatePlug (plug_id : Z) (req : CpoPlugUpdateRequest)
  | Maintenance (plug_id : Z) (action : string)
  | CreateGateway (gateway_id name vpn_ip : string) (now : Z)
  | ClaimGateway (claim_code : string) (name : option string) (now : Z)
  | TriggerOta (gateway_id : string) (req : CpoGatewayOtaRequest)
  | ResolveReport (uid report_id : Z) (action : string) (note : option string) (now : Z).

Definition serve_fleet user (r : fleet_request) : M unit :=
  match r with
  | CreatePlug req => _ ← cpo_create_plug user req; mret tt
  | UpdatePlug i req => cpo_update_plug user i req
  | Maintenance i action => cpo_plug_maintenance user i action
  | CreateGateway i name vpn_ip now => cpo_create_gateway user i name vpn_ip now
  | ClaimGateway code name now => _ ← cpo_claim_gateway user code name now; mret tt
  | TriggerOta i req => _ ← cpo_gateway_ota user i req; mret tt
  | ResolveReport uid i action note now =>
      _ ← cpo_resolve_plug_report user uid i action note now; mret tt
  end.

(** What a request leaves behind. *)
Definition confined (tenant : option Z) d (evs0 : list effect) (w' : world) : Prop :=
  fleet_ok (com w') ∧ within_tenant tenant d (com w') ∧
  ∃ l, evs w' = evs0 ++ l ∧ Forall (own_effect tenant d) l.

#[export] Instance within_tenant_refl tenant : Reflexive (within_tenant tenant).
Proof. intros d. split; try done; eauto. congruence. Qed.

(** One plug of the tenant changes, keeping its gateway. *)
Lemma within_tenant_plug tenant d d' i p (f : Plug.t → Plug.t) :
  plugs d !! i = Some p → gateway_owner d (Plug.gateway_id p) = tenant →
  Plug.gateway_id (f p) = Plug.gateway_id p →
  plugs d' = alter f i (plugs d) → gateways d' = gateways d → plug_reports d' = plug_reports d →
  users d' = users d → ledger d' = ledger d → sessions d' = sessions d → groups d' = groups d →
  memberships d' = memberships d → within_tenant tenant d d'.
Proof.
  intros Hp Ho Hf Hpl Hg Hr Hu Hl Hs Hgr Hm. split; rewrite ?Hg, ?Hr, ?Hpl; try done; eauto.
  - intros j q Hq Hne. rewrite lookup_alter_ne; [done|]. intros ->. congruence.
  - intros j q Hq. destruct (decide (i = j)) as [<-|Hne].
    + rewrite lookup_alter_eq, Hp. simpl. eexists. split; [done|]. congruence.
    + rewrite lookup_alter_ne by done. eauto.
  - intros j q Hq Hn. exfalso. destruct (decide (i = j)) as [<-|Hne]; [congruence|].
    rewrite lookup_alter_ne in Hq by done. congruence.
Qed.

Lemma fleet_ok_plug d d' i p (f : Plug.t → Plug.t) :
  fleet_ok d → plugs d !! i = Some p → Plug.gateway_id (f p) = Plug.gateway_id p →
  (∀ gid, Plug.group_id (f p) = Some gid → Plug.group_id p = Some gid ∨
     ∃ g, groups d !! gid = Some g ∧
       gateway_owner d (Plug.gateway_id p) = Some (ChargerGroup.tenant_id g)) →
  plugs d' = alter f i (plugs d) → gateways d' = gateways d → groups d' = groups d →
  next_id d <= next_id d' → fleet_ok d'.
Proof.
  intros [H1 H2 H3 H4 H5] Hp Hf Hgrp Hpl Hg Hgr Hn.
  assert (Halter : ∀ j q, plugs d' !! j = Some q → plugs d !! j = Some q ∨ j = i ∧ q = f p).
  { intros j q. rewrite Hpl. destruct (decide (i = j)) as [<-|Hne].
    - rewrite lookup_alter_eq, Hp. simpl. intros [= <-]. by right.
    - rewrite lookup_alter_ne by done. by left. }
  split; unfold gateway_owner in *; rewrite ?Hg, ?Hgr; try done.
  - intros j q [Hq|[-> ->]]%Halter; [eauto|]. rewrite Hf. eauto.
  - intros j q gid [Hq|[-> ->]]%Halter Hgid; [eauto|]. rewrite Hf.
    destruct (Hgrp gid Hgid) as [Ho|Ho]; [by eapply H4|done].
  - intros j Hj. rewrite Hpl, lookup_alter_None. apply H5. lia.
Qed.

Section Requests.
Context (user : User.t) (w : world) (Hcc : com w = cur w) (Hok : fleet_ok (cur w)).
Let T := User.tenant_id user.
Let Q : result unit → world → Prop := λ _ w', confined T (cur w) (evs w) w'.

Lemma confined_refl w' : com w' = cur w → evs w' = evs w → confined T (cur w) (evs w) w'.
Proof using Hok.
  intros Hc He. unfold confined. rewrite Hc, He. split; [done|]. split; [done|].
  exists []. by rewrite app_nil_r.
Qed.

Lemma wp_load_tenant_plug i (R : result Plug.t → world → Prop) :
  (∀ p, plugs (cur w) !! i = Some p → gateway_owner (cur w) (Plug.gateway_id p) = T → R (Ok p) w) →
  (∀ e, R (Raise e) w) → wp (load_tenant_plug user i) R w.
Proof using Type.
  intros H1 H2. unfold load_tenant_plug, tenant_plug. do 2 wp_step.
  destruct (plugs (cur w) !! i) as [p|] eqn:Hp; simpl; [|by apply wp_raise].
  destruct (gateways (cur w) !! Plug.gateway_id p) as [g|] eqn:Hg; simpl; [|by apply wp_raise].
  case_bool_decide as Ht; [|by apply wp_raise]. apply wp_ret, H1; [done|].
  unfold gateway_owner. by rewrite Hg.
Qed.

Lemma wp_tenant_gateway i (R : result Gateway.t → world → Prop) s c :
  (∀ g, gateways (cur w) !! i = Some g → gateway_owner (cur w) i = T → R (Ok g) w) →
  (∀ e, R (Raise e) w) →
  wp (g ← query (tenant_gateway i T); or_raise g s c) R w.
Proof using Type.
  intros H1 H2. unfold tenant_gateway. do 2 wp_step.
  destruct (gateways (cur w) !! i) as [g|] eqn:Hg; simpl; [|by apply wp_raise].
  case_bool_decide as Ht; [|by apply wp_raise]. apply wp_ret, H1; [done|].
  unfold gateway_owner. by rewrite Hg.
Qed.

(** A plug being edited: not committed, on its gateway, in a group of the tenant. *)
Definition editing i (p : Plug.t) (w' : world) : Prop :=
  com w' = com w ∧ evs w' = evs w ∧
  ∃ f : Plug.t → Plug.t, cur w' = (cur w) <| plugs ::= alter f i |> ∧
    Plug.gateway_id (f p) = Plug.gateway_id p ∧
    (∀ gid, Plug.group_id (f p) = Some gid → Plug.group_id p = Some gid ∨
       ∃ g, groups (cur w) !! gid = Some g ∧ Some (ChargerGroup.tenant_id g) = T).

Lemma editing_start i p : editing i p w.
Proof using Type.
  split_and!; [done..|]. exists id. split_and!; [|done|auto].
  assert (Ha : alter id i (plugs (cur w)) = plugs (cur w)) by (by apply alter_id).
  clear Hcc Hok. destruct (cur w) as [n1 n2 n3 n4 n5]. cbn in *. by rewrite Ha.
Qed.

Lemma editing_set i p f w' :
  editing i p w' → (∀ q, Plug.gateway_id (f q) = Plug.gateway_id q) →
  (∀ q gid, Plug.group_id (f q) = Some gid → Plug.group_id q = Some gid ∨
     ∃ g, groups (cur w) !! gid = Some g ∧ Some (ChargerGroup.tenant_id g) = T) →
  editing i p (w' <| cur ::= λ d, d <| plugs ::= alter f i |> |>).
Proof using Type.
  intros (Hc & He & g & Hcur & Hg & Hgrp) Hf Hfg. split_and!; [done..|]. exists (f ∘ g). split_and!.
  - transitivity ((cur w') <| plugs ::= alter f i |>); [done|]. rewrite Hcur. simpl. by rewrite alter_alter_eq.
  - simpl. by rewrite Hf.
  - intros gid Hgid. destruct (Hfg _ _ Hgid); auto.
Qed.

Lemma editing_plug i p w' : plugs (cur w) !! i = Some p → editing i p w' →
  ∃ q, plugs (cur w') !! i = Some q ∧ Plug.gateway_id q = Plug.gateway_id p.
Proof using Type.
  intros Hp (_ & _ & f & -> & Hg & _). simpl. rewrite lookup_alter_eq, Hp. simpl. eauto.
Qed.

(** Committed, and then a roster or a status sent out. *)
Lemma editing_done i p w' w'' l :
  plugs (cur w) !! i = Some p → gateway_owner (cur w) (Plug.gateway_id p) = T →
  editing i p w' → com w'' = cur w' → evs w'' = evs w' ++ l → Forall (own_effect T (cur w)) l →
  confined T (cur w) (evs w) w''.
Proof using Hok.
  intros Hp Ho (Hc & He & f & Hcur & Hg & Hgrp) Hcom Hev Hl. unfold confined.
  rewrite Hcom, Hev, He, Hcur. split; [|split].
  - eapply (fleet_ok_plug (cur w) _ i p f); try done. intros gid Hgid.
    destruct (Hgrp gid Hgid) as [?|(g & Hgg & Ht)]; [by left|right]. exists g. split; [done|]. by rewrite Ht.
  - by apply (within_tenant_plug T (cur w) _ i p f).
  - by exists l.
Qed.

Lemma editing_raise i p (e : exn) w' : editing i p w' → Q (Raise e) w'.
Proof using Hcc Hok. intros (Hc & He & _). apply confined_refl; congruence. Qed.

Lemma wp_set_plug i p f w' (R : result unit → world → Prop) :
  editing i p w' → (∀ q, Plug.gateway_id (f q) = Plug.gateway_id q) →
  (∀ q gid, Plug.group_id (f q) = Some gid → Plug.group_id q = Some gid ∨
     ∃ g, groups (cur w) !! gid = Some g ∧ Some (ChargerGroup.tenant_id g) = T) →
  (∀ w'', editing i p w'' → R (Ok tt) w'') → wp (set_plug i f) R w'.
Proof using Type. intros He H1 H2 HR. unfold set_plug. wp_step. by apply HR, editing_set. Qed.

Lemma editing_groups i p w' : editing i p w' → groups (cur w') = groups (cur w).
Proof using Type. by intros (_ & _ & f & -> & _). Qed.

Lemma confined_update_plug i req : wp (serve_fleet user (UpdatePlug i req)) Q w.
Proof using Hcc Hok.
  unfold serve_fleet, cpo_update_plug. wp_step.
  apply wp_load_tenant_plug; [|intros e; by apply confined_refl].
  intros p Hp Ho. wp_step. eapply wp_set_plug; [apply (editing_start i p)|done|by left|].
  intros w1 H1. cbv beta iota. wp_step.
  assert (Hregroup : ∀ R : result unit → world → Prop,
    (∀ w2, editing i p w2 → R (Ok tt) w2) → (∀ e w2, editing i p w2 → R (Raise e) w2) →
    wp (regroup_plug user i (pu_group_id req)) R w1).
  { intros R HR1 HR2. unfold regroup_plug, tenant_group. destruct (pu_group_id req) as [[|g|g]|];
      [|..|apply wp_ret; by apply HR1].
    1: { eapply wp_set_plug; [exact H1|done| |exact HR1]. intros q gid. done. }
    all: do 4 wp_step; [|by apply HR2]; eapply wp_set_plug; [exact H1|done| |exact HR1];
      intros q gid [= <-]; right; rewrite (editing_groups _ _ _ H1) in *;
      destruct (groups (cur w) !! _) as [x|]; [|done]; simpl in *; case_bool_decide; [|done];
      exists x; by split. }
  apply Hregroup; [|intros e w2; apply editing_raise]. intros w2 H2. cbv beta iota. wp_step.
  assert (Hstatus : ∀ R : result unit → world → Prop,
    (∀ w3, editing i p w3 → R (Ok tt) w3) → (∀ e w3, editing i p w3 → R (Raise e) w3) →
    wp (restatus_plug i (pu_status req)) R w2).
  { intros R HR1 HR2. unfold restatus_plug. destruct (pu_status req); [|apply wp_ret; by apply HR1].
    do 2 wp_step; [|by apply HR2]. eapply wp_set_plug; [exact H2|done|by left|exact HR1]. }
  apply Hstatus; [|intros e w3; apply editing_raise]. intros w3 H3. cbv beta iota. wp_step.
  eapply wp_set_plug; [exact H3|done|by left|]. intros w4 H4. cbv beta iota.
  unfold publish_gateway_roster, publish_roster_for_gateway, publish. repeat wp_step.
  eapply editing_done; [exact Hp|exact Ho|exact H4|done|done|]. by apply list.Forall_singleton.
Qed.

(** The waiting lists do not matter. *)
Lemma fleet_ok_core d d' : core d' = core d → fleet_ok d → fleet_ok d'.
Proof using Type.
  intros Hc [H1 H2 H3 H4 H5].
  pose proof (f_equal gateways Hc) as Hg. pose proof (f_equal plugs Hc) as Hp.
  pose proof (f_equal groups Hc) as Hgr. pose proof (f_equal next_id Hc) as Hn. simpl in *.
  split; unfold gateway_owner in *; rewrite ?Hg, ?Hp, ?Hgr, ?Hn; done.
Qed.

Lemma within_tenant_core tenant d d1 d2 :
  core d2 = core d1 → within_tenant tenant d d1 → within_tenant tenant d d2.
Proof using Type.
  intros Hc [H1 H2 H3 H4 H5 H6 H7 H8 H9 H10].
  pose proof (f_equal gateways Hc) as Eg. pose proof (f_equal plugs Hc) as Ep.
  pose proof (f_equal plug_reports Hc) as Er. pose proof (f_equal users Hc) as Eu.
  pose proof (f_equal ledger Hc) as El. pose proof (f_equal sessions Hc) as Es.
  pose proof (f_equal groups Hc) as Egr. pose proof (f_equal memberships Hc) as Em. simpl in *.
  split; rewrite ?Eg, ?Ep, ?Er, ?Eu, ?El, ?Es, ?Egr, ?Em; done.
Qed.

Definition quiet (c : db) (E : list effect) (w' : world) : Prop :=
  core (cur w') = c ∧ core (com w') = c ∧
  ∃ l, evs w' = E ++ l ∧ Forall (own_effect T (cur w)) l.

Lemma watchers_quiet c E i ex : safe (quiet c E) (notify_watchers_plug_available i ex).
Proof using Type.
  assert (Hdb : ∀ (m : M unit), (∀ w', (m w').1 = Ok tt) → (∀ w', evs (m w').2 = evs w') →
    (∀ w', core (cur w') = c → core (com w') = c → core (cur (m w').2) = c ∧ core (com (m w').2) = c) →
    safe (quiet c E) m).
  { intros m Hm He Hc. apply safe_effect; [|done]. intros w' (H1 & H2 & l & Hl & HF).
    destruct (Hc w' H1 H2). split_and!; [done..|]. exists l. by rewrite He. }
  unfold notify_watchers_plug_available.
  repeat first [safe_step | apply Hdb; [done|done|]]; try (intros w' H1 H2; split; simpl; (done || congruence)).
  apply safe_effect; [|done]. intros w' (H1 & H2 & l & Hl & HF). split_and!; [done..|].
  exists (l ++ [Notify (PlugWatch.user_id x.2) "plug_available" "info" (Some i) None]).
  simpl. rewrite Hl, app_assoc. split; [done|]. apply Forall_app. split; [done|]. by constructor.
Qed.

Lemma confined_maintenance i action : wp (serve_fleet user (Maintenance i action)) Q w.
Proof using Hcc Hok.
  unfold serve_fleet, cpo_plug_maintenance. do 2 wp_step; [|by apply confined_refl]. wp_step.
  apply wp_load_tenant_plug; [|intros e; by apply confined_refl]. intros p Hp Ho. wp_step.
  assert (Hnew : ∀ R : result PlugStatus → world → Prop,
    (∀ st, R (Ok st) w) → (∀ e, R (Raise e) w) →
    wp (match a with
        | Enter => mret MAINTENANCE
        | Clear =>
            active ← query (λ d, count (active_on_plug i) (sessions d));
            refuse (0 <? active) 409
              "Cannot clear maintenance: this plug has an active charging session.";;
            mret AVAILABLE
        end) R w).
  { intros R H1 H2. destruct a; repeat wp_step; auto. }
  apply Hnew; [|intros e; by apply confined_refl]. intros st. cbv beta iota.
  unfold set_plug_status. do 2 wp_step.
  pose proof (editing_set i p (λ q, q <| Plug.status := st |>) w (editing_start i p)
    ltac:(done) ltac:(by left)) as He.
  set (w1 := w <| cur ::= _ |>) in *.
  assert (Hdone : ∀ w2 l, com w2 = cur w1 → evs w2 = evs w ++ l → Forall (own_effect T (cur w)) l →
    Q (Ok tt) w2).
  { intros w2 l Hc He2 Hl. by eapply (editing_done i p w1). }
  do 2 wp_step. wp_step; [|by eapply (Hdone _ []); simpl; rewrite ?app_nil_r].
  do 2 wp_step. wp_step; [|by eapply (Hdone _ [_]); [done..|apply list.Forall_singleton]].
  wp_step.
  eapply (wp_safe _ _ _ _ (watchers_quiet (core (cur w1)) (evs w ++ [EmitPlugStatus i st]) i None)).
  - split_and!; [done..|]. exists []. by rewrite app_nil_r.
  - intros n w3 (_ & Hcore & l & Hl & HF). wp_step.
    assert (Hw1 : confined T (cur w) (evs w) (w1 <| com := cur w1 |>))
      by (by eapply (editing_done i p w1 _ []); rewrite ?app_nil_r).
    destruct Hw1 as (Hf & Hw & _). split_and!.
    + by eapply fleet_ok_core.
    + by eapply within_tenant_core.
    + exists (EmitPlugStatus i st :: l). rewrite Hl, <- app_assoc. split; [done|]. by constructor.
Qed.

Lemma confined_create_plug req : wp (serve_fleet user (CreatePlug req)) Q w.
Proof using Hcc Hok.
  assert (Hno : ∀ out, Q out w) by (intros; by apply confined_refl).
  unfold serve_fleet, cpo_create_plug. do 3 wp_step.
  unfold tenant_gateway.
  destruct (gateways (cur w) !! pc_gateway_id req) as [g|] eqn:Hg; simpl;
    [|apply wp_bind, wp_raise, Hno].
  case_bool_decide as Ht; [|apply wp_bind, wp_raise, Hno]. wp_step. wp_step. cbv beta iota. wp_step.
  assert (Hown : gateway_owner (cur w) (pc_gateway_id req) = T) by (unfold gateway_owner; by rewrite Hg).
  assert (Hgroup : ∀ R : result unit → world → Prop,
    ((∀ gid, pc_group_id req = Some gid → ∃ x, groups (cur w) !! gid = Some x ∧
        gateway_owner (cur w) (pc_gateway_id req) = Some (ChargerGroup.tenant_id x)) → R (Ok tt) w) →
    (∀ e, R (Raise e) w) → wp (check_plug_group user (pc_group_id req)) R w).
  { intros R H1 H2. unfold check_plug_group, tenant_group. destruct (pc_group_id req) as [[|k|k]|];
      [by apply wp_raise|..|apply wp_ret, H1; done].
    all: do 4 wp_step; [|by apply H2]; wp_step; apply H1; intros gid [= <-];
      destruct (groups (cur w) !! _) as [x|]; [|done]; simpl in *; case_bool_decide; [|done];
      exists x; split; [done|]; by rewrite Hown. }
  apply Hgroup; [|intros e; apply Hno]. intros Hhome. cbv beta iota.
  unfold publish_gateway_roster, publish_roster_for_gateway, publish. repeat wp_step.
  split; [|split].
  - destruct Hok as [H1 H2 H3 H4 H5]. split; simpl; try done.
    + intros i p [[<- <-]|[_ Hp]]%lookup_insert_Some; [simpl; by eexists|eauto].
    + intros i p gid [[<- <-]|[_ Hp]]%lookup_insert_Some Hgid; [by apply Hhome|by eapply H4].
    + intros i Hi. rewrite lookup_insert_ne by lia. apply H5. lia.
  - destruct Hok as [H1 H2 H3 H4 H5]. assert (Hn : plugs (cur w) !! next_id (cur w) = None) by (apply H5; lia).
    split; simpl; try done; eauto.
    + intros i p Hp Hne. rewrite lookup_insert_ne; [done|]. intros <-. congruence.
    + intros i p Hp. exists p. rewrite lookup_insert_ne; [done|]. intros <-. congruence.
    + intros i p [[<- <-]|[_ Hp]]%lookup_insert_Some Hn'; [done|congruence].
  - eexists. split; [done|]. by apply list.Forall_singleton.
Qed.

Lemma confined_create_gateway i name vpn now : wp (serve_fleet user (CreateGateway i name vpn now)) Q w.
Proof using Hcc Hok.
  assert (Hno : ∀ out, Q out w) by (intros; by apply confined_refl).
  unfold serve_fleet, cpo_create_gateway, insert_gateway, require_tenant_id. wp_step.
  apply wp_or_raise; [intros tid Ht|intros _; apply Hno]. cbv beta iota.
  do 4 wp_step; [apply Hno|]. passed. do 3 wp_step. wp_step; [wp_step; apply Hno|]. repeat wp_step.
  assert (Hnone : gateways (cur w) !! i = None) by (by apply eq_None_not_Some).
  destruct Hok as [H1 H2 H3 H4 H5].
  assert (Hne : ∀ j g, gateways (cur w) !! j = Some g → i ≠ j) by (intros j g Hg ->; congruence).
  assert (Hown : ∀ p o, gateway_owner (cur w) (Plug.gateway_id p) = Some o →
    gateway_owner ((cur w) <| gateways ::= <[i := Gateway.mk (Some tid) name
      (if String.eqb vpn "" then i else vpn) GW_OFFLINE None None None None None (Some now)]> |>)
      (Plug.gateway_id p) = Some o).
  { unfold gateway_owner. simpl. intros p o. destruct (gateways (cur w) !! Plug.gateway_id p) as [g|] eqn:Hg; [|done].
    rewrite lookup_insert_ne by eauto. by rewrite Hg. }
  split; [|split; [|exists []; by rewrite app_nil_r]].
  - split; simpl; try done.
    + intros j g [[<- <-]|[_ Hg]]%lookup_insert_Some; [by intros [[? ?] _]|eauto].
    + intros j k g h c [[<- <-]|[_ Hg]]%lookup_insert_Some [[<- <-]|[_ Hh]]%lookup_insert_Some; try done; eauto.
    + intros j p Hp. rewrite lookup_insert_is_Some'. right. eauto.
    + intros j p gid Hp Hgid. destruct (H4 j p gid Hp Hgid) as (g & Hg & Ho). exists g. split; [done|].
      by apply Hown.
  - split; simpl; try done; eauto; [|congruence].
    intros j g Hg. left. rewrite lookup_insert_ne; eauto.
Qed.

Lemma claimed_gateway tid gid g name now :
  T = Some tid → gateways (cur w) !! gid = Some g → unclaimed g →
  let d' := (cur w) <| gateways ::= alter (λ g,
    g <| Gateway.tenant_id := Some tid |> <| Gateway.claimed_at := Some now |>
      <| Gateway.name ::= replaced name |>) gid |> in
  fleet_ok d' ∧ within_tenant T (cur w) d'.
Proof using Hok.
  intros HT Hg Hun d'. pose proof Hok as [H1 H2 H3 H4 H5].
  assert (Hnone : Gateway.tenant_id g = None) by eauto.
  assert (Hown : ∀ i o, gateway_owner (cur w) i = Some o → gateway_owner d' i = Some o).
  { intros i o. unfold gateway_owner, d'. simpl. destruct (decide (gid = i)) as [<-|Hne].
    - rewrite Hg. simpl. congruence.
    - by rewrite lookup_alter_ne. }
  assert (Hback : ∀ i x, gateways d' !! i = Some x → ∃ y, gateways (cur w) !! i = Some y ∧
    Gateway.claim_code x = Gateway.claim_code y ∧ (x = y ∨ is_Some (Gateway.claimed_at x))).
  { intros i x. unfold d'. simpl. destruct (decide (gid = i)) as [<-|Hne].
    - rewrite lookup_alter_eq, Hg. simpl. intros [= <-]. exists g. split_and!; [done..|]. right. simpl. eauto.
    - rewrite lookup_alter_ne by done. eauto 6. }
  split.
  - split; try done.
    + intros i x Hx [Hc Hcl]. destruct (Hback i x Hx) as (y & Hy & _ & [->|[t Ht]]); [|congruence].
      apply (H1 i y Hy). by split.
    + intros i j x y c Hx Hy Hcx Hcy. destruct (Hback i x Hx) as (x0 & Hx0 & E1 & _).
      destruct (Hback j y Hy) as (y0 & Hy0 & E2 & _).
      apply (H2 i j x0 y0 c); congruence.
    + intros i p Hp. unfold d'. simpl. rewrite lookup_alter_is_Some. eauto.
    + intros i p k Hp Hk. destruct (H4 i p k Hp Hk) as (x & Hx & Ho). exists x. split; [done|]. by apply Hown.
  - split; try done; try (by eauto); try (intros; simpl in *; congruence).
    intros i x Hx. unfold d'. simpl. destruct (decide (gid = i)) as [<-|Hnei].
    + right. assert (x = g) as -> by congruence. split; [done|]. eexists.
      rewrite lookup_alter_eq, Hg. simpl. split; [done|]. rewrite HT. simpl. eauto.
    + left. by rewrite lookup_alter_ne.
Qed.

Lemma confined_claim code name now : wp (serve_fleet user (ClaimGateway code name now)) Q w.
Proof using Hcc Hok.
  assert (Hno : ∀ out, Q out w) by (intros; by apply confined_refl).
  unfold serve_fleet, cpo_claim_gateway, claim_check, require_tenant_id. do 3 wp_step.
  apply wp_or_raise; [intros tid Ht|intros _; apply Hno]. cbv beta iota. do 3 wp_step.
  destruct (claimable_rows _ _) as [|[gid g] [|]] eqn:Hrows;
    [apply wp_ret; cbv beta iota; apply wp_bind, wp_raise, Hno| |apply wp_raise, Hno].
  apply wp_ret. cbv beta iota. wp_step. wp_step. cbv beta iota. do 2 wp_step; [apply Hno|]. wp_step.
  unfold claim_store. repeat wp_step. passed.
  assert (Hin : (gid, g) ∈ claimable_rows (normalize_claim_code code) (cur w)) by (rewrite Hrows; left).
  apply list_elem_of_In, filter_In in Hin as [Hin Hc]. apply list_elem_of_In, elem_of_map_to_list in Hin.
  simpl in Hc. passed.
  destruct (claimed_gateway tid gid g (name ≫= str_or_none) now) as [Hf Hw]; [done|done| |].
  - split; [rewrite Hc; eauto|]. by apply eq_None_not_Some.
  - split; [exact Hf|]. split; [exact Hw|]. exists []. by rewrite app_nil_r.
Qed.

Lemma confined_resolve uid i action note now :
  wp (serve_fleet user (ResolveReport uid i action note now)) Q w.
Proof using Hcc Hok.
  assert (Hno : ∀ out, Q out w) by (intros; by apply confined_refl).
  unfold serve_fleet, cpo_resolve_plug_report. do 2 wp_step. wp_step; [apply Hno|]. do 4 wp_step; [|apply Hno].
  assert (Hr : plug_reports (cur w) !! i = Some a ∧ Some (PlugReport.tenant_id a) = T).
  { destruct (plug_reports (cur w) !! i) as [r|]; [|done]. simpl in *. case_bool_decide; by simplify_eq. }
  destruct Hr as [Hr Ht].
  assert (Hdone : ∀ r', Q (Ok tt) (w <| cur ::= λ d, d <| plug_reports ::= <[i := r']> |> |>
      <| com := (cur w) <| plug_reports ::= <[i := r']> |> |>)).
  { intros r'. split; [|split; [|exists []; by rewrite app_nil_r]].
    - destruct Hok as [H1 H2 H3 H4 H5]. by split.
    - split; simpl; try done; try (by eauto); try (intros; congruence).
      intros j x Hx Hne. rewrite lookup_insert_ne; [done|]. intros <-. congruence. }
  do 2 wp_step; [apply Hno|]. wp_step. wp_step.
  - do 2 wp_step; [apply Hno|]. repeat wp_step. apply Hdone.
  - repeat wp_step. apply Hdone.
Qed.

(** What an OTA sends, if it sends anything. *)
Definition ota_sent (gateway_id : string) (custom_allowed : bool) (req : CpoGatewayOtaRequest) d
    (l : list effect) : Prop :=
  l = [] ∨ ∃ plug_id plug url ok, l = [Publish (CmdOta gateway_id plug_id url) ok] ∧
    plugs d !! plug_id = Some plug ∧ Plug.gateway_id plug = gateway_id ∧
    (ota_firmware_url req = Some url ∧ custom_allowed = true ∨
     ∃ i r, ota_release_id req = Some i ∧ releases d !! i = Some r ∧
       FirmwareRelease.is_active r = true ∧ FirmwareRelease.url r = url).

Lemma wp_trigger_ota gateway_id g custom req (R : result string → world → Prop) :
  (∀ out l, ota_sent gateway_id custom req (cur w) l → (is_ok out = true → l ≠ [] ∧ Gateway.status g = ONLINE) →
     R out (w <| evs ::= (λ e, e ++ l) |>)) →
  wp (trigger_ota gateway_id g custom req) R w.
Proof using Type.
  intros HR.
  assert (Hno : ∀ e, R (Raise e) w).
  { intros e. specialize (HR (Raise e) [] ltac:(by left) ltac:(done)).
    assert (He : w <| evs ::= (λ e, e ++ []) |> = w)
      by (clear; destruct w as [c m st me ev]; cbn; by rewrite app_nil_r).
    by rewrite He in HR. }
  unfold trigger_ota. do 2 wp_step; [apply Hno|]. wp_step. passed.
  assert (Hurl : ∀ (S : result string → world → Prop),
    (∀ url, (ota_firmware_url req = Some url ∧ custom = true ∨
       ∃ i r, ota_release_id req = Some i ∧ releases (cur w) !! i = Some r ∧
         FirmwareRelease.is_active r = true ∧ FirmwareRelease.url r = url) → S (Ok url) w) →
    (∀ e, S (Raise e) w) → wp (ota_url custom req) S w).
  { intros S H1 H2. unfold ota_url. destruct (truthy_str (ota_firmware_url req)) eqn:Ht.
    - do 2 wp_step; [apply H2|]. wp_step. apply H1. left. passed.
      split; [|done]. destruct (ota_firmware_url req) as [u|]; done.
    - do 4 wp_step; [|apply H2]. wp_step. apply H1. right.
      destruct (ota_release_id req) as [i|]; [|done]. simpl in *.
      destruct (releases (cur w) !! i) as [r|] eqn:Hr; [|done]. simpl in *.
      destruct (FirmwareRelease.is_active r) eqn:Ha; [|done]. simplify_eq. eauto 6. }
  apply Hurl; [|apply Hno]. intros url Hu. cbv beta iota. do 4 wp_step; [|apply Hno].
  destruct a as [pid p].
  assert (Hp : plugs (cur w) !! pid = Some p ∧ Plug.gateway_id p = gateway_id).
  { assert (Hin : (pid, p) ∈ select (λ _ p, bool_decide (Plug.gateway_id p = gateway_id)) (plugs (cur w))).
    { destruct (order_by fst _) as [|x l] eqn:Ho; [done|]. simpl in *. simplify_eq.
      apply (order_by_elem fst). rewrite Ho. left. }
    apply elem_of_select in Hin as [? ?]. by passed. }
  destruct Hp as [Hp Hpg]. unfold send_gateway_ota, publish. do 4 wp_step. wp_step.
  assert (Hsent : ota_sent gateway_id custom req (cur w)
    [Publish (CmdOta gateway_id pid url) (mqtt_ack (CmdOta gateway_id pid url))]).
  { right. by exists pid, p, url, (mqtt_ack (CmdOta gateway_id pid url)). }
  wp_step; [by apply HR|]. wp_step. by apply HR.
Qed.

Lemma confined_ota i req : wp (serve_fleet user (TriggerOta i req)) Q w.
Proof using Hcc Hok.
  assert (Hno : ∀ out, Q out w) by (intros; by apply confined_refl).
  unfold serve_fleet, cpo_gateway_ota. do 3 wp_step; [apply Hno|]. do 3 wp_step. unfold tenant_gateway.
  destruct (gateways (cur w) !! i) as [g|] eqn:Hg; simpl; [|apply wp_raise, Hno].
  case_bool_decide as Ht; [|apply wp_raise, Hno]. wp_step.
  apply wp_trigger_ota. intros out l Hl _.
  assert (Hq : ∀ out', Q out' (w <| evs ::= (λ e, e ++ l) |>)).
  { intros out'. split; [simpl; by rewrite Hcc|]. split; [simpl; by rewrite Hcc|].
    exists l. split; [done|]. destruct Hl as [->|(pid & p & url & ok & -> & _)]; [done|].
    apply list.Forall_singleton. simpl. unfold gateway_owner. by rewrite Hg. }
  destruct out; [wp_step|]; apply Hq.
Qed.
End Requests.

(** C12: tenants do not reach each other's fleet.  Whatever an operator requests
    (plugs, maintenance, gateways, claims, firmware updates, reports), and
    whatever the reply: plugs of other tenants and their reports are as before;
    so is every gateway, except that one nobody has claimed may become the
    operator's; no plug disappears or changes gateway, a new one is on the
    operator's gateway; money, sessions, groups and memberships do not move;
    every message goes to a gateway of the operator; and the fleet stays
    well-formed (an unclaimed gateway has no owner, a plug's group is its
    operator's). *)
Theorem tenant_isolation user r w :
  com w = cur w → fleet_ok (cur w) →
  let '(out, w') := run_request (serve_fleet user r) w in
  fleet_ok (com w') ∧ within_tenant (User.tenant_id user) (cur w) (com w') ∧
  ∃ l, evs w' = evs w ++ l ∧ Forall (own_effect (User.tenant_id user) (cur w)) l.
Proof.
  intros Hcc Hok.
  apply (run_request_wp (serve_fleet user r) (λ _ w', confined (User.tenant_id user) (cur w) (evs w) w')).
  destruct r; [apply confined_create_plug | apply confined_update_plug | apply confined_maintenance
    | apply confined_create_gateway | apply confined_claim | apply confined_ota | apply confined_resolve]; done.
Qed.

(** ** A claim is final *)

Fixpoint run_fleet (rs : list (User.t * fleet_request)) (w : world) : world :=
  match rs with
  | [] => w
  | (user, r) :: rs => run_fleet rs (run_request (serve_fleet user r) w).2
  end.

Lemma run_fleet_ok rs w :
  com w = cur w → fleet_ok (com w) →
  com (run_fleet rs w) = cur (run_fleet rs w) ∧ fleet_ok (com (run_fleet rs w)) ∧
  ∀ i g, gateways (com w) !! i = Some g → ¬ unclaimed g → gateways (com (run_fleet rs w)) !! i = Some g.
Proof.
  revert w. induction rs as [|[user r] rs IH]; intros w Hcc Hok; [by split_and!|]. simpl.
  pose proof (run_request_wp (serve_fleet user r)
    (λ _ w', confined (User.tenant_id user) (cur w) (evs w) w') w) as Hstep.
  destruct (run_request (serve_fleet user r) w) as [out w1] eqn:Hrun. simpl.
  assert (Hcc1 : com w1 = cur w1) by (unfold run_request in Hrun; destruct (serve_fleet user r w); by simplify_eq).
  destruct Hstep as (Hok1 & Hw & _).
  { rewrite Hcc in Hok. destruct r; [apply confined_create_plug | apply confined_update_plug
      | apply confined_maintenance | apply confined_create_gateway | apply confined_claim
      | apply confined_ota | apply confined_resolve]; done. }
  destruct (IH w1 Hcc1 Hok1) as (H1 & H2 & H3). split_and!; [done..|].
  intros i g Hg Hn. apply H3; [|done]. rewrite Hcc in Hg.
  destruct (wt_gateways _ _ _ Hw i g Hg) as [?|[? _]]; done.
Qed.

(** A claimed gateway's code is refused, in the same words as an unknown one. *)
Lemma claim_used user code name now w i g :
  com w = cur w → fleet_ok (cur w) → gateways (cur w) !! i = Some g →
  Gateway.claim_code g = Some (normalize_claim_code code) → is_Some (Gateway.claimed_at g) →
  is_Some (User.tenant_id user) →
  (run_request (cpo_claim_gateway user code name now) w).1 =
    Raise (HTTPException 404 "Claim code not found or already used.").
Proof.
  intros Hcc Hok Hg Hc Hcl [tid Ht].
  assert (Hrows : claimable_rows (normalize_claim_code code) (cur w) = [(i, g)]).
  { assert (Hin : ∀ j h, (j, h) ∈ claimable_rows (normalize_claim_code code) (cur w) ↔
      gateways (cur w) !! j = Some h ∧ Gateway.claim_code h = Some (normalize_claim_code code)).
    { intros j h. unfold claimable_rows.
      rewrite list_elem_of_In, filter_In, <- list_elem_of_In, elem_of_map_to_list. simpl.
      by rewrite bool_decide_eq_true. }
    assert (Hall : ∀ x, x ∈ claimable_rows (normalize_claim_code code) (cur w) → x = (i, g)).
    { intros [j h] [Hj Hh]%Hin. assert (j = i) as -> by (eapply (fl_codes _ Hok); eauto). congruence. }
    assert (Hnd : NoDup (claimable_rows (normalize_claim_code code) (cur w))).
    { unfold claimable_rows. apply NoDup_ListNoDup, List.NoDup_filter, NoDup_ListNoDup, NoDup_map_to_list. }
    assert (Hone : (i, g) ∈ claimable_rows (normalize_claim_code code) (cur w)) by by apply Hin.
    destruct (claimable_rows _ _) as [|x [|y l]]; [by apply not_elem_of_nil in Hone| |].
    - by rewrite (Hall x) by left.
    - exfalso. rewrite (Hall x), (Hall y) in Hnd by (left || (right; left)).
      apply NoDup_cons in Hnd as [Hnd _]. apply Hnd. left. }
  assert (Hwp : wp (cpo_claim_gateway user code name now)
    (λ out _, out = Raise (HTTPException 404 "Claim code not found or already used.")) w).
  { unfold cpo_claim_gateway, claim_check, require_tenant_id. rewrite Ht.
    do 2 wp_step. wp_step. do 3 wp_step. rewrite Hrows. apply wp_ret. cbv beta iota. wp_step. wp_step.
    cbv beta iota. wp_step. wp_step; [done|]. passed. contradiction. }
  unfold wp, run_request in *. by destruct (cpo_claim_gateway user code name now w).
Qed.

(** A claim is final.  The operator who is told that a claim succeeded owns
    the gateway from then on, whatever fleet requests anyone makes afterwards;
    and whoever presents that code again, in whatever case or grouping, is told
    what an unknown code is told. *)
Theorem claim_final user code name now w gid w1 rs user' code' name' now' :
  com w = cur w → fleet_ok (cur w) →
  run_request (cpo_claim_gateway user code name now) w = (Ok gid, w1) →
  let w2 := run_fleet rs w1 in
  is_Some (User.tenant_id user) ∧ gateway_owner (com w2) gid = User.tenant_id user ∧
  (normalize_claim_code code' = normalize_claim_code code → is_Some (User.tenant_id user') →
   (run_request (cpo_claim_gateway user' code' name' now') w2).1 =
     Raise (HTTPException 404 "Claim code not found or already used.")).
Proof.
  intros Hcc Hok Hrun.
  assert (Hpost : com w1 = cur w1 ∧ fleet_ok (com w1) ∧ is_Some (User.tenant_id user) ∧
    ∃ g, gateways (com w1) !! gid = Some g ∧ Gateway.tenant_id g = User.tenant_id user ∧
      is_Some (Gateway.claimed_at g) ∧ Gateway.claim_code g = Some (normalize_claim_code code)).
  { pose proof (run_request_wp (cpo_claim_gateway user code name now) (λ out w', ∀ gid, out = Ok gid →
      com w' = cur w' ∧ fleet_ok (com w') ∧ is_Some (User.tenant_id user) ∧
      ∃ g, gateways (com w') !! gid = Some g ∧ Gateway.tenant_id g = User.tenant_id user ∧
        is_Some (Gateway.claimed_at g) ∧ Gateway.claim_code g = Some (normalize_claim_code code)) w) as H.
    rewrite Hrun in H. apply H; [clear H Hrun|done].
    unfold cpo_claim_gateway, claim_check, require_tenant_id. do 2 wp_step.
    apply wp_or_raise; [intros tid Ht|done]. cbv beta iota. do 3 wp_step.
    destruct (claimable_rows _ _) as [|[i g] [|]] eqn:Hrows;
      [apply wp_ret; cbv beta iota; by apply wp_bind, wp_raise| |by apply wp_raise].
    apply wp_ret. cbv beta iota. wp_step. wp_step. cbv beta iota. do 2 wp_step; [done|]. wp_step.
    unfold claim_store. repeat wp_step. passed. intros gid' [= <-].
    assert (Hin : (i, g) ∈ claimable_rows (normalize_claim_code code) (cur w)) by (rewrite Hrows; left).
    apply list_elem_of_In, filter_In in Hin as [Hin Hc]. apply list_elem_of_In, elem_of_map_to_list in Hin.
    simpl in Hc. passed.
    destruct (claimed_gateway user w Hok tid i g (name ≫= str_or_none) now) as [Hf _]; [done..| |].
    - split; [rewrite Hc; eauto|]. by apply eq_None_not_Some.
    - split_and!; [done|exact Hf|eauto|]. simpl. rewrite lookup_alter_eq, Hin. simpl.
      eexists. split_and!; [done|by rewrite Ht|simpl; eauto|done]. }
  destruct Hpost as (Hcc1 & Hok1 & Htid & g & Hg & Hten & Hcl & Hcode).
  destruct (run_fleet_ok rs w1 Hcc1 Hok1) as (Hcc2 & Hok2 & Hkeep).
  assert (Hg2 : gateways (com (run_fleet rs w1)) !! gid = Some g).
  { apply Hkeep; [done|]. intros [_ Hn]. rewrite Hn in Hcl. by destruct Hcl. }
  split_and!; [done|by unfold gateway_owner; rewrite Hg2|].
  intros Hn Hten'. eapply claim_used; rewrite <- ?Hcc2; try done. by rewrite Hn.
Qed.
End Fleet.
