(* ===== verification/Admin.v ===== *)
(** * routers/admin.py: the platform console

    Accounts, wallet adjustments, gateway inventory, firmware releases and
    updates, and the fleet lists with a filter.  The role check in front of every
    route is [require_role]; audit rows are not kept.  The lists without a
    filter of their own and the overview are in [Console]. *)

From stdpp Require Import sorting.
From Stdlib Require Import Ascii.
From S2P Require Import Prelude Rounding PyNum Money Models Config Billing TelemetryStore World.
From S2P Require Import Hoare PyString PyJson Auth Wallet Commands Caps Lifecycle Payouts Tariffs.
From S2P Require Import Groups Versioning Fleet.

(** [UserRole(value)]. *)
Definition role_of (s : string) : option UserRole :=
  if String.eqb s "driver" then Some DRIVER
  else if String.eqb s "cpo" then Some CPO
  else if String.eqb s "admin" then Some ADMIN
  else None.

(** ** schemas.py: AdminFirmwareReleaseCreateRequest *)

Definition suffix_char (c : ascii) : bool :=
  let n := Ascii.nat_of_ascii c in
  ((48 <=? n)%nat && (n <=? 57)%nat) || ((65 <=? n)%nat && (n <=? 90)%nat) ||
  ((97 <=? n)%nat && (n <=? 122)%nat) || (n =? 46)%nat.

Fixpoint all_chars (p : ascii → bool) (s : string) : bool :=
  match s with EmptyString => true | String c r => p c && all_chars p r end.

(** The version pattern: three dotted numbers, then "-" and some of [0-9A-Za-z.]. *)
Definition version_pattern (s : string) : bool :=
  match ('(_, s) ← number s; s ← dot s; '(_, s) ← number s; s ← dot s; number s) with
  | Some (_, EmptyString) => true
  | Some (_, String "-" r) => negb (String.eqb r "") && all_chars suffix_char r
  | _ => false
  end.

Definition release_valid (version url : string) (notes : option string) : bool :=
  version_pattern version && (str_len version <=? 32) && https_url url &&
  match notes with Some n => (str_len n <=? 500) | None => true end.

Section Admin.
Context `{cfg : Config, cr : Crypto}.
Implicit Types (d : db) (user : User.t) (now uid : Z).

Definition clamp_page (limit offset : Z) : Z * Z := (Z.max 1 (Z.min limit 200), Z.max 0 offset).

(** ** PATCH /api/admin/users/{user_id} *)

Definition load_user uid : M User.t :=
  target ← query (λ d, users d !! uid);
  or_raise target 404 "User not found.".

(** [None] for a field the request leaves out; the reply: role, disabled flag,
    whether the outstanding tokens were revoked. *)
Definition admin_update_user (actor user_id : Z) (role : option string) (is_disabled : option bool)
    : M (UserRole * bool * bool) :=
  new_role ← match role with
    | None => mret None
    | Some r => x ← or_raise (role_of r) 400 "Invalid role"; mret (Some x)
    end;
  refuse (bool_decide (role = None) && bool_decide (is_disabled = None)) 400 "Nothing to update.";;
  target ← load_user user_id;
  refuse ((user_id =? actor) &&
          (match new_role with Some r => negb (bool_decide (r = ADMIN)) | None => false end ||
           bool_decide (is_disabled = Some true))) 403
    "You cannot demote or disable your own admin account.";;
  let role_changed := match new_role with
    | Some r => negb (bool_decide (r = User.role target)) | None => false end in
  let disabled_changed := match is_disabled with
    | Some b => negb (Bool.eqb b (User.is_disabled target)) | None => false end in
  let bump := role_changed || (disabled_changed && bool_decide (is_disabled = Some true)) in
  when (role_changed || disabled_changed)
    (modify (λ d, d <| users ::= alter (λ u,
       u <| User.role ::= replaced (if role_changed then new_role else None) |>
         <| User.is_disabled ::= replaced (if disabled_changed then is_disabled else None) |>
         <| User.token_version ::= (λ v, if bump then v + 1 else v) |>) user_id |>);;
     commit);;
  mret (default (User.role target) new_role, default (User.is_disabled target) is_disabled, bump).

(** ** POST /api/admin/users/{user_id}/adjust-balance *)

Definition admin_adjust_balance user_id (amount_coins : float) : M money :=
  let amount := to_money (PFloat amount_coins) in
  refuse (amount =? ZERO_MONEY) 400 "amount_coins must be non-zero.";;
  target ← load_user user_id;
  let prev_balance := Z.max (User.coin_balance target) ZERO_MONEY in
  let new_balance := Z.max (prev_balance + amount) ZERO_MONEY in
  let applied := new_balance - prev_balance in
  refuse (applied =? ZERO_MONEY) 400 "Balance is already 0; there is nothing to debit.";;
  write_balance user_id new_balance;;
  add_ledger (LedgerTransaction.mk user_id None applied
                (if ZERO_MONEY <? applied then TOPUP else SESSION_DEBIT) None new_balance);;
  commit;;
  mret new_balance.

(** ** Gateway inventory *)

(** [for _ in range(20)]: on the codes drawn. *)
Fixpoint unique_claim_code (tries : nat) (draws : list string) : M string :=
  match tries, draws with
  | O, _ => raise (HTTPException 500 "Could not generate a unique claim code; try again.")
  | S _, [] => raise Unfinished
  | S tries, code :: draws =>
      existing ← query (λ d, bool_decide (claimable_rows code d = []));
      match existing with
      | true => mret code
      | false => unique_claim_code tries draws
      end
  end.

Definition admin_mint_inventory_gateway (gateway_id : string) (name : option string)
    (draws : list string) now : M string :=
  existing ← query (λ d, gateways d !! gateway_id);
  refuse (bool_decide (is_Some existing)) 400 "Gateway already exists.";;
  claim_code ← unique_claim_code 20 draws;
  let gateway_name := default (String.app "Unclaimed gateway " gateway_id) (name ≫= str_or_none) in
  insert_gateway gateway_id
    (Gateway.mk None gateway_name gateway_id GW_OFFLINE None None None (Some claim_code) None (Some now));;
  mret claim_code.

(** ** Fleet lists *)

Definition liveness_cutoff now : datetime := now - seconds GATEWAY_LIVENESS_WINDOW_SEC.

(** The SQL mirror of [gateway_is_live]; a comparison with NULL does not hold. *)
Definition online_filter now (online : bool) (g : Gateway.t) : bool :=
  let seen p := match Gateway.last_seen_at g with Some t => p t | None => false end in
  if online then bool_decide (Gateway.status g = ONLINE) && seen (λ t, liveness_cutoff now <=? t)
  else negb (bool_decide (Gateway.status g = ONLINE)) || seen (λ t, t <? liveness_cutoff now).

(** A row: gateway, tenant name, number of plugs, the derived [online]. *)
Definition gateway_item d now (r : string * Gateway.t) : option (string * Gateway.t * string * Z * bool) :=
  tid ← Gateway.tenant_id r.2; t ← tenants d !! tid;
  Some (r, Tenant.name t, count (λ p, bool_decide (Plug.gateway_id p = r.1)) (plugs d),
        gateway_is_live r.2 now).

(** [ORDER BY last_seen_at DESC, id]. *)
Definition seen_before (a b : string * Gateway.t) : Prop :=
  default 0 (Gateway.last_seen_at b.2) < default 0 (Gateway.last_seen_at a.2) ∨
  default 0 (Gateway.last_seen_at b.2) = default 0 (Gateway.last_seen_at a.2) ∧ id_before a b.
#[local] Instance seen_before_dec : RelDecision seen_before.
Proof.
  intros a b. apply or_dec; [apply Z_lt_dec|]. apply and_dec; [apply Z.eq_dec | apply bool_eq_dec].
Defined.

(** The number of the gateways that pass, with a tenant or not, and a page of
    those with one. *)
Definition admin_list_gateways (online : option bool) (limit offset : Z) now
    : M (Z * list (string * Gateway.t * string * Z * bool)) :=
  let '(limit, offset) := clamp_page limit offset in
  rows ← query (λ d, List.filter (λ r, given (λ b, online_filter now b r.2) online) (map_to_list (gateways d)));
  items ← query (λ d, window limit offset (omap (gateway_item d now) (merge_sort seen_before rows)));
  mret (Z.of_nat (length rows), items).

Inductive visibility := VPublic | VPrivate.
#[export] Instance visibility_eq_dec : EqDecision visibility. Proof. solve_decision. Defined.
Definition visibility_of (s : string) : option visibility :=
  if String.eqb s "public" then Some VPublic else if String.eqb s "private" then Some VPrivate else None.

Definition plug_group d (p : Plug.t) : option ChargerGroup.t :=
  Plug.group_id p ≫= λ gid, groups d !! gid.

(** The condition of the filter, in SQL: NULL is neither. *)
Definition visibility_filter d (v : visibility) (p : Plug.t) : bool :=
  match v with
  | VPublic => bool_decide (Plug.group_id p = None) ||
      match plug_group d p with Some g => ChargerGroup.is_public g | None => false end
  | VPrivate => match plug_group d p with Some g => negb (ChargerGroup.is_public g) | None => false end
  end.

(** The label of a row, in Python. *)
Definition visibility_label d (p : Plug.t) : visibility :=
  if bool_decide (Plug.group_id p = None) ||
     match plug_group d p with Some g => ChargerGroup.is_public g | None => false end
  then VPublic else VPrivate.

(** Only plugs of a claimed gateway appear. *)
Definition plug_claimed d (p : Plug.t) : bool :=
  bool_decide (is_Some (tid ← gateway_owner d (Plug.gateway_id p); tenants d !! tid)).

(** [matches] is [name ILIKE '%q%'], always true without [q]. *)
Definition admin_list_plugs (matches : string → bool) (visibility_arg status : option string)
    (limit offset : Z) : M (Z * list (Z * Plug.t * visibility)) :=
  let '(limit, offset) := clamp_page limit offset in
  vis ← match visibility_arg with
    | None => mret None
    | Some v => x ← or_raise (visibility_of v) 400 "Invalid visibility"; mret (Some x)
    end;
  st ← match status with
    | None => mret None
    | Some s => x ← or_raise (plug_status_of s) 400 "Invalid status"; mret (Some x)
    end;
  rows ← query (λ d, select (λ _ p, plug_claimed d p && matches (Plug.name p) &&
       given (λ v, visibility_filter d v p) vis &&
       given (λ s, bool_decide (Plug.status p = s)) st) (plugs d));
  items ← query (λ d, map (λ r, (r, visibility_label d r.2)) (window limit offset (order_by fst rows)));
  mret (Z.of_nat (length rows), items).

(** ** Firmware releases *)

Definition has_version (version : string) (r : FirmwareRelease.t) : bool :=
  String.eqb (FirmwareRelease.version r) version.

(** The release of that version, unless it is active. *)
Definition check_version_free (version : string) : M (option Z) :=
  rows ← query (λ d, select (λ _, has_version version) (releases d));
  existing ← one_or_none rows;
  refuse (match existing with Some (_, r) => FirmwareRelease.is_active r | None => false end) 400
    "Firmware release is already registered.";;
  mret (fst <$> existing).

(** A deactivated release is overwritten and turned on again. *)
Definition store_release (existing : option Z) (version url : string) (notes : option string) : M Z :=
  match existing with
  | Some i =>
      modify (λ d, d <| releases ::= alter (λ r, r <| FirmwareRelease.url := url |>
        <| FirmwareRelease.notes := notes |> <| FirmwareRelease.is_active := true |>) i |>);;
      commit;;
      mret i
  | None =>
      i ← fresh;
      modify (λ d, d <| releases ::= <[i := FirmwareRelease.mk version url notes true]> |>);;
      commit;;
      mret i
  end.

Definition admin_create_firmware_release (version url : string) (notes : option string) : M Z :=
  refuse (negb (release_valid version url notes)) 422 "";;
  existing ← check_version_free version;
  store_release existing version url notes.

(** *** Upload *)

Definition FIRMWARE_MAX_BYTES : Z := 4 * 1024 * 1024.
Definition ESP_APP_DESC_MAGIC : Z := 0xABCD5432.
Definition FIRMWARE_PROJECT_NAME : string := "amphive-gateway".

Definition byte_at (i : nat) (body : string) : Z :=
  match String.get i body with Some c => Z.of_nat (Ascii.nat_of_ascii c) | None => 0 end.

(** [struct.unpack_from("<I", body, i)]. *)
Definition uint32_at (i : nat) (body : string) : Z :=
  byte_at i body + 256 * byte_at (i + 1) body + 65536 * byte_at (i + 2) body +
  16777216 * byte_at (i + 3) body.

(** [.split(b"\x00", 1)[0]] *)
Fixpoint until_nul (s : string) : string :=
  match s with
  | EmptyString => EmptyString
  | String c r => if Ascii.eqb c "000"%char then EmptyString else String c (until_nul r)
  end.

(** [.decode("ascii", "replace")]: U+FFFD for a byte above 127, in UTF-8. *)
Fixpoint decode_ascii_replace (s : string) : string :=
  match s with
  | EmptyString => EmptyString
  | String c r =>
      if (Ascii.nat_of_ascii c <? 128)%nat then String c (decode_ascii_replace r)
      else String "239"%char (String "191"%char (String "189"%char (decode_ascii_replace r)))
  end.

Definition text_field (first len : nat) (body : string) : string :=
  decode_ascii_replace (until_nul (String.substring first len body)).

(** The version of a gateway image, read out of its application descriptor. *)
Definition image_version (body : string) : M string :=
  refuse (FIRMWARE_MAX_BYTES <? Z.of_nat (String.length body)) 413 "Firmware image exceeds the limit.";;
  refuse ((String.length body <? 288)%nat || negb (byte_at 0 body =? 0xE9)) 400
    "Uploaded file is not an ESP32 app image.";;
  refuse (negb (uint32_at 32 body =? ESP_APP_DESC_MAGIC)) 400 "ESP32 app descriptor magic missing";;
  refuse (negb (String.eqb (text_field 80 32 body) FIRMWARE_PROJECT_NAME)) 400
    "this is not gateway firmware.";;
  mret (text_field 48 32 body).

Definition image_filename (version : string) : string :=
  String.app FIRMWARE_PROJECT_NAME (String.app "-" (String.app version ".bin")).
Definition image_url (bucket version : string) : string :=
  String.app "https://storage.googleapis.com/" (String.app bucket (String.app "/" (image_filename version))).

(** [upload] is whether the bucket took the object. *)
Definition admin_upload_firmware_release (bucket : string) (upload : string → string → bool)
    (body : string) (notes : option string) : M Z :=
  version ← image_version body;
  let url := image_url bucket version in
  refuse (negb (release_valid version url notes)) 400 "Rejected firmware metadata";;
  existing ← check_version_free version;
  refuse (negb (upload (image_filename version) body)) 502
    "Failed to publish firmware image to the storage bucket";;
  store_release existing version url notes.

(** *** Picker and state *)

Definition admin_list_firmware_releases (active : option bool) : M (list (Z * FirmwareRelease.t)) :=
  query (sorted_releases (λ r, given (Bool.eqb (FirmwareRelease.is_active r)) active)).

Definition set_release_active (release_id : Z) (active : bool) : M unit :=
  release ← query (λ d, releases d !! release_id);
  _ ← or_raise release 404 "Firmware release not found.";
  modify (λ d, d <| releases ::= alter (λ r, r <| FirmwareRelease.is_active := active |>) release_id |>);;
  commit.

Definition admin_deactivate_firmware_release (release_id : Z) : M unit := set_release_active release_id false.
Definition admin_reactivate_firmware_release (release_id : Z) : M unit := set_release_active release_id true.

Definition admin_gateway_ota (gateway_id : string) (req : CpoGatewayOtaRequest) : M string :=
  refuse (negb (ota_valid req)) 422 "";;
  gateway ← query (λ d, gateways d !! gateway_id);
  gateway ← or_raise gateway 404 "Gateway not found.";
  trigger_ota gateway_id gateway true req.

(** ** Wallet adjustments *)

(** C15: an adjustment moves exactly one wallet by the rounded amount, stopping at
    zero, and books exactly what it moved with the balance it left, as a top-up or
    a debit; the ledger still reconciles.  It is refused, without a trace, just
    when the amount rounds to zero, the user is unknown, there is nothing to
    take, or the column cannot hold the result. *)
Theorem adjust_balance_correct uid amount_coins w :
  com w = cur w → ledger_ok (cur w) →
  let amount := to_money (PFloat amount_coins) in
  let '(out, w') := run_request (admin_adjust_balance uid amount_coins) w in
  ledger_ok (com w') ∧
  match out with
  | Ok b => ∃ u i, users (cur w) !! uid = Some u ∧ b = Z.max 0 (User.coin_balance u + amount) ∧
      b ≠ User.coin_balance u ∧ b <= MAX_MONEY ∧
      users (com w') = <[uid := u <| User.coin_balance := b |>]> (users (cur w)) ∧
      ledger (cur w) !! i = None ∧
      ledger (com w') = <[i := LedgerTransaction.mk uid None (b - User.coin_balance u)
        (if User.coin_balance u <? b then TOPUP else SESSION_DEBIT) None b]> (ledger (cur w)) ∧
      sessions (com w') = sessions (cur w)
  | Raise e => com w' = com w ∧
      (amount = 0 ∧ e = HTTPException 400 "amount_coins must be non-zero." ∨
       amount ≠ 0 ∧ users (cur w) !! uid = None ∧ e = HTTPException 404 "User not found." ∨
       ∃ u, users (cur w) !! uid = Some u ∧
         (amount < 0 ∧ User.coin_balance u = 0 ∧
            e = HTTPException 400 "Balance is already 0; there is nothing to debit." ∨
          MAX_MONEY < User.coin_balance u + amount ∧ e = DataError))
  end.
Proof.
  intros Hcc Hok amount. apply run_request_wp. unfold admin_adjust_balance, load_user. fold amount.
  assert (Hno : com w = com w ∧ ledger_ok (com w)) by (by rewrite Hcc).
  do 2 wp_step. { split; [apply Hno|]. split; [done|]. left. passed. done. }
  passed. wp_step. apply wp_bind. wp_step. wp_step.
  2: { split; [apply Hno|]. split; [done|]. right; left. done. }
  rename a into u. match goal with H : users _ !! _ = Some u |- _ => rename H into Hu end.
  pose proof (ledger_range _ Hok uid u Hu) as Hb. unfold ZERO_MONEY in *.
  rewrite (Z.max_l (User.coin_balance u) 0) by lia. rewrite (Z.max_comm _ 0).
  set (b := Z.max 0 (User.coin_balance u + amount)).
  wp_step. wp_step.
  { split; [apply Hno|]. split; [done|]. right; right. exists u. split; [done|]. left. passed. split_and!; [lia..|done]. }
  passed. wp_step. apply wp_write_balance.
  2: { intros Hr. split; [apply Hno|]. split; [done|]. right; right. exists u. split; [done|]. right.
       split; [lia|]. unfold refused_balance. f_equal. destruct (Z.ltb_spec b 0); [lia|done]. }
  intros Hrange. cbv beta iota. wp_step. apply wp_add_ledger; [done|]. repeat wp_step. simpl. split.
  - eapply (moved_ledger_ok (cur w) _ uid u b); [done| |done|..].
    { split; [reflexivity|]. exists (next_id (cur w)). split; [simpl; lia | reflexivity]. }
    all: simpl; (done || lia).
  - exists u, (next_id (cur w)). split_and!; try done; try lia.
    + apply map_eq. intros i. destruct (decide (uid = i)) as [<-|Hne].
      * by rewrite lookup_alter_eq, lookup_insert_eq, Hu.
      * by rewrite lookup_alter_ne, lookup_insert_ne.
    + apply (ledger_ids _ Hok). lia.
    + do 3 f_equal. destruct (Z.ltb_spec 0 (b - User.coin_balance u)),
        (Z.ltb_spec (User.coin_balance u) b); (done || lia).
Qed.

(** ** Roles and access *)

Record admin_update := mkupdate {
  upd_token : string;
  upd_user : Z;
  upd_role : option string;
  upd_disabled : option bool;
  upd_now : Z }.

Definition serve_update (r : admin_update) : M (UserRole * bool * bool) :=
  '(actor, _) ← require_role [ADMIN] (upd_token r) (upd_now r);
  admin_update_user actor (upd_user r) (upd_role r) (upd_disabled r).

Definition run_updates (rs : list admin_update) w : world :=
  fold_left (λ w r, (run_request (serve_update r) w).2) rs w.

Definition enabled_admin d uid : Prop :=
  ∃ u, users d !! uid = Some u ∧ User.role u = ADMIN ∧ User.is_disabled u = false.

(** [u'] is [u] with another role or flag, and then with a later token version
    if the role changed or the account was closed. *)
Definition re_roled (u u' : User.t) : Prop :=
  u' = u <| User.role := User.role u' |> <| User.is_disabled := User.is_disabled u' |>
         <| User.token_version := User.token_version u' |> ∧
  User.token_version u <= User.token_version u' ∧
  (User.token_version u' = User.token_version u →
     User.role u' = User.role u ∧ (User.is_disabled u' = true → User.is_disabled u = true)).

Record re_roled_db d d' : Prop := {
  rr_users : ∀ i, match users d !! i, users d' !! i with
    | Some u, Some u' => re_roled u u' | None, None => True | _, _ => False end;
  rr_rest : d' = d <| users := users d' |> }.

#[export] Instance re_roled_preorder : PreOrder re_roled_db.
Proof.
  split.
  - intros d. split; [|by destruct d]. intros i. destruct (users d !! i) as [u|]; [|done].
    split; [by destruct u|]. split; [lia|]. tauto.
  - intros d d1 d2 [H1 E1] [H2 E2]. split.
    + intros i. specialize (H1 i). specialize (H2 i).
      destruct (users d !! i) as [u|], (users d1 !! i) as [u1|], (users d2 !! i) as [u2|]; try done.
      destruct H1 as (Eu & Hv & Hs), H2 as (Eu2 & Hv2 & Hs2). split; [|split; [lia|]].
      * rewrite Eu2, Eu. by destruct u.
      * intros Hv3. destruct Hs as [Hr Hd]; [lia|]. destruct Hs2 as [Hr2 Hd2]; [lia|].
        split; [congruence|auto].
    + rewrite E2, E1. by destruct d.
Qed.

Lemma wp_require_admin token now (Q : result (Z * User.t) → world → Prop) w :
  (∀ uid u, users (cur w) !! uid = Some u → enabled_admin (cur w) uid → Q (Ok (uid, u)) w) →
  (∀ e, Q (Raise e) w) → wp (require_role [ADMIN] token now) Q w.
Proof.
  intros HO HE. unfold require_role, get_current_user. wp_run; try apply HE. passed.
  apply HO; [done|]. eexists. split; [done|]. split; [|done]. by apply list_elem_of_singleton.
Qed.

Lemma re_roled_alter d i u (f : User.t → User.t) :
  users d !! i = Some u → re_roled u (f u) → re_roled_db d (d <| users ::= alter f i |>).
Proof.
  intros Hu Hf. split; [|by destruct d]. intros j. simpl. destruct (decide (i = j)) as [<-|Hne].
  - by rewrite lookup_alter_eq, Hu.
  - rewrite lookup_alter_ne by done. pose proof (rr_users d d (reflexivity d) j) as Hj. done.
Qed.

(** One request: the caller is an enabled administrator and stays one. *)
Lemma update_step r w : com w = cur w →
  let '(out, w') := run_request (serve_update r) w in
  re_roled_db (com w) (com w') ∧ cur w' = com w' ∧
  match out with
  | Ok _ => ∃ actor, enabled_admin (com w) actor ∧ enabled_admin (com w') actor
  | Raise e => com w' = com w
  end.
Proof.
  intros Hcc. apply run_request_wp. unfold serve_update.
  assert (Hno : re_roled_db (com w) (com w)) by done.
  wp_step. apply wp_require_admin; [|done]. intros actor me Hme Hadm. rewrite <- Hcc in Hadm, Hme.
  cbv beta iota. unfold admin_update_user.
  wp_step. apply (wp_mono _ (λ out w', w' = w ∧ ∀ x, out = Ok x → x = (upd_role r ≫= role_of))).
  2: { destruct (upd_role r) as [s|]; [|wp_step; split; [done|]; by intros ? [= <-]].
       wp_step. destruct (role_of s) as [x|] eqn:Hx; wp_step; [wp_step|]; split; try done.
       intros ? [= <-]. by rewrite <- Hx. }
  intros out w' [-> Hrole]. destruct out as [new_role|e]; [|done]. cbv beta iota.
  do 2 wp_step; [done|]. wp_step. unfold load_user. do 3 wp_step; [|done].
  rewrite <- Hcc in *. rename a into u. match goal with H : users _ !! upd_user r = _ |- _ => rename H into Hu end.
  do 2 wp_step; [done|].
  match goal with H : _ && _ = false |- _ => rename H into Hself end.
  set (role_changed := match new_role with Some _ => _ | None => _ end).
  set (disabled_changed := match upd_disabled r with Some _ => _ | None => _ end).
  do 2 wp_step;
    [|wp_step; simpl; split; [done|]; split; [done|]; exists actor; by rewrite <- ?Hcc].
  do 4 wp_step. simpl.
  rewrite <- Hcc. split; [|split; [done|]].
  - apply (re_roled_alter _ _ u); [done|]. split; [by destruct u|]. simpl.
    unfold role_changed, disabled_changed in *. destruct new_role as [x|], (upd_disabled r) as [[]|];
      simpl; destruct (User.is_disabled u); repeat case_bool_decide; simpl in *; split; try lia; auto; try done.
  - exists actor. split; [done|]. destruct (decide (upd_user r = actor)) as [He|Hne].
    + subst actor. rewrite Hme in Hu. injection Hu as ->. destruct Hadm as (u' & Hu' & Hr & Hd).
      replace u' with u in * by congruence. eexists. simpl. rewrite lookup_alter_eq, Hme. split; [done|].
      rewrite Z.eqb_refl in Hself. simpl in *. unfold role_changed, disabled_changed. rewrite Hr, Hd.
      destruct new_role as [x|], (upd_disabled r) as [[]|]; simpl in *; repeat case_bool_decide; subst;
        simpl in *; try done; rewrite Hr; done.
    + destruct Hadm as (u' & Hu' & Hr). exists u'. simpl. by rewrite lookup_alter_ne.
Qed.

(** C14: the platform never loses its last administrator to one request after
    another, and no privilege changes under a token already out: along any
    sequence of account updates an enabled administrator remains; every account
    is as it was but for its role, its disabled flag and its token version; the
    version never goes back; and an account whose version is unchanged has the
    same role and was not disabled.  Nothing else of the database moves. *)
Theorem admins_remain rs w :
  com w = cur w → (∃ uid, enabled_admin (com w) uid) →
  let w' := run_updates rs w in
  (∃ uid, enabled_admin (com w') uid) ∧ re_roled_db (com w) (com w').
Proof.
  revert w. induction rs as [|r rs IH]; intros w Hcc Hadm; [done|].
  pose proof (update_step r w Hcc) as Hs. unfold run_updates. cbn [fold_left].
  destruct (run_request (serve_update r) w) as [out w1]. destruct Hs as (Hd & Hc & Ho). cbn [snd].
  destruct (IH w1) as [H1 H2]; [done| |split; [done|by transitivity (com w1)]].
  destruct out; [destruct Ho as (x & _ & ?); by exists x|by rewrite Ho].
Qed.

(** ** The catalogue of releases *)

(** A version names one release, every release could have been registered. *)
Record catalogue_ok d : Prop := {
  cat_unique : ∀ i j r s, releases d !! i = Some r → releases d !! j = Some s →
    FirmwareRelease.version r = FirmwareRelease.version s → i = j;
  cat_valid : ∀ i r, releases d !! i = Some r →
    release_valid (FirmwareRelease.version r) (FirmwareRelease.url r) (FirmwareRelease.notes r) = true;
  cat_ids : ∀ i, next_id d <= i → releases d !! i = None }.

Inductive release_request :=
  | Register (version url : string) (notes : option string)
  | Upload (bucket : string) (upload : string → string → bool) (body : string) (notes : option string)
  | SetActive (release_id : Z) (active : bool).

Definition serve_release (r : release_request) : M (option Z) :=
  match r with
  | Register version url notes => i ← admin_create_firmware_release version url notes; mret (Some i)
  | Upload bucket upload body notes =>
      i ← admin_upload_firmware_release bucket upload body notes; mret (Some i)
  | SetActive i b =>
      (if b then admin_reactivate_firmware_release i else admin_deactivate_firmware_release i);; mret None
  end.

(** An application image of the gateway that carries this version. *)
Definition gateway_image (body version : string) : Prop :=
  (288 <= String.length body)%nat ∧ Z.of_nat (String.length body) <= FIRMWARE_MAX_BYTES ∧
  byte_at 0 body = 0xE9 ∧ uint32_at 32 body = ESP_APP_DESC_MAGIC ∧
  text_field 80 32 body = FIRMWARE_PROJECT_NAME ∧ version = text_field 48 32 body.

(** Release [i] of [d'] offers the version; no other one changed, and the
    version was not on offer. *)
Definition published (version url : string) (notes : option string) (i : Z) d d' : Prop :=
  releases d' = <[i := FirmwareRelease.mk version url notes true]> (releases d) ∧
  ∀ j r, releases d !! j = Some r → FirmwareRelease.version r = version →
    j = i ∧ FirmwareRelease.is_active r = false.

(** The effect of a request. *)
Definition release_effect (r : release_request) (out : option Z) d d' : Prop :=
  match r with
  | Register version url notes => ∃ i, out = Some i ∧ published version url notes i d d'
  | Upload bucket upload body notes => ∃ i version,
      out = Some i ∧ gateway_image body version ∧ upload (image_filename version) body = true ∧
      published version (image_url bucket version) notes i d d'
  | SetActive i b => ∃ x, releases d !! i = Some x ∧
      releases d' = <[i := x <| FirmwareRelease.is_active := b |>]> (releases d)
  end.

(** A free version: taken over from a deactivated release, or new. *)
Definition free_version (version : string) (o : option Z) d : Prop :=
  match o with
  | Some i => ∃ r, releases d !! i = Some r ∧ FirmwareRelease.version r = version ∧
      FirmwareRelease.is_active r = false
  | None => ∀ j r, releases d !! j = Some r → FirmwareRelease.version r ≠ version
  end.

Lemma wp_check_version_free version (Q : result (option Z) → world → Prop) w :
  (∀ o, free_version version o (cur w) → Q (Ok o) w) → (∀ e, Q (Raise e) w) →
  wp (check_version_free version) Q w.
Proof.
  intros HO HE. unfold check_version_free. do 4 wp_step; [| |apply HE].
  - do 2 wp_step; [done|]. wp_step. apply HO. intros j r Hr Hv.
    assert (Hin : (j, r) ∈ select (λ _, has_version version) (releases (cur w))).
    { apply elem_of_select. split; [done|]. unfold has_version. rewrite Hv. apply String.eqb_refl. }
    match goal with H : select _ _ = [] |- _ => rewrite H in Hin end. by apply not_elem_of_nil in Hin.
  - destruct x as [i r]. match goal with H : select _ _ = _ |- _ => apply select_one in H as [Hr Hv] end.
    do 2 wp_step; [apply HE|]. wp_step. apply HO. exists r. split; [done|].
    split; [by apply String.eqb_eq in Hv|done].
Qed.

Lemma wp_store_release o version url notes (Q : result Z → world → Prop) w :
  catalogue_ok (cur w) → free_version version o (cur w) → release_valid version url notes = true →
  (∀ i w', cur w' = com w' → catalogue_ok (com w') → published version url notes i (cur w) (com w') → Q (Ok i) w') →
  wp (store_release o version url notes) Q w.
Proof.
  intros [Hu Hv Hi] Hf Hval HQ.
  assert (Hcat : ∀ i d', published version url notes i (cur w) d' → next_id (cur w) <= next_id d' →
    i < next_id d' → catalogue_ok d').
  { intros i d' [He Hn] Hid Hlt. split; rewrite He.
    - intros j k r s. destruct (decide (i = j)) as [<-|Hj], (decide (i = k)) as [<-|Hk]; [done|..].
      + rewrite lookup_insert_eq, lookup_insert_ne by done. intros [= <-] Hs Hvs.
        destruct (Hn k s Hs) as [-> _]; [by rewrite <- Hvs|done].
      + rewrite lookup_insert_eq, lookup_insert_ne by done. intros Hs [= <-] Hvs.
        destruct (Hn j r Hs) as [-> _]; [by rewrite Hvs|done].
      + rewrite !lookup_insert_ne by done. eauto.
    - intros j r. rewrite lookup_insert_Some. intros [[_ <-]|[_ Hr]]; [done|eauto].
    - intros j Hj. rewrite lookup_insert_ne by lia. apply Hi. lia. }
  unfold store_release. destruct o as [i|]; simpl in Hf.
  - destruct Hf as (r & Hr & Hrv & Hra). repeat wp_step.
    assert (Hp : published version url notes i (cur w) ((cur w) <| releases ::= alter (λ r,
        r <| FirmwareRelease.url := url |> <| FirmwareRelease.notes := notes |>
          <| FirmwareRelease.is_active := true |>) i |>)).
    { split.
      - apply map_eq. intros j. simpl. destruct (decide (i = j)) as [<-|Hne].
        + rewrite lookup_alter_eq, lookup_insert_eq, Hr. destruct r. simpl in *. by subst.
        + by rewrite lookup_alter_ne, lookup_insert_ne.
      - intros j s Hs Hsv. assert (j = i) as -> by (eapply Hu; eauto; congruence).
        split; [done|congruence]. }
    apply HQ; [done| |done]. apply (Hcat i _ Hp); [done|]. simpl.
    destruct (Z.lt_ge_cases i (next_id (cur w))) as [|Hge]; [done|]. rewrite Hi in Hr by done. done.
  - repeat wp_step. simpl.
    assert (Hp : published version url notes (next_id (cur w)) (cur w)
      ((cur w) <| next_id ::= Z.succ |>
        <| releases ::= <[next_id (cur w) := FirmwareRelease.mk version url notes true]> |>)).
    { split; [done|]. intros j s Hs Hsv. by destruct (Hf j s). }
    apply HQ; [done| |done]. apply (Hcat _ _ Hp); simpl; lia.
Qed.

Lemma picker_sorted d :
  StronglySorted (λ a b, is_newer_version (FirmwareRelease.version b.2) (FirmwareRelease.version a.2) = false)
    (sorted_releases FirmwareRelease.is_active d).
Proof.
  assert (Htr : Transitive newer_first) by (intros a b c; apply compare_keys_trans).
  assert (Hto : Total newer_first).
  { intros a b. unfold newer_first. rewrite (compare_keys_antisym (version_sort_key (FirmwareRelease.version a.2))).
    destruct (compare_keys _ _); auto. }
  unfold sorted_releases. match goal with |- StronglySorted _ ?m =>
    assert (Hs : StronglySorted newer_first m) by (by apply (StronglySorted_merge_sort newer_first));
    revert Hs; induction m as [|a l IH]; [constructor|] end. rewrite !StronglySorted_cons.
  intros [Hf Hs]. split; [|by apply IH]. eapply Forall_impl; [done|]. intros b.
  unfold newer_first, is_newer_version. rewrite (compare_keys_antisym (version_sort_key (FirmwareRelease.version a.2))).
  by destruct (compare_keys _ _).
Qed.

Lemma catalogue_alter d i b : catalogue_ok d →
  catalogue_ok (d <| releases ::= alter (λ r, r <| FirmwareRelease.is_active := b |>) i |>).
Proof.
  intros [Hu Hv Hi].
  assert (Hl : ∀ j r, alter (λ r, r <| FirmwareRelease.is_active := b |>) i (releases d) !! j = Some r →
    ∃ r0, releases d !! j = Some r0 ∧ FirmwareRelease.version r0 = FirmwareRelease.version r ∧
      FirmwareRelease.url r0 = FirmwareRelease.url r ∧ FirmwareRelease.notes r0 = FirmwareRelease.notes r).
  { intros j r. destruct (decide (i = j)) as [<-|Hne].
    - rewrite lookup_alter_eq. destruct (releases d !! i) as [r0|]; [|done]. simpl. intros [= <-]. by exists r0.
    - rewrite lookup_alter_ne by done. intros Hr. by exists r. }
  split; simpl.
  - intros j k r s (r0 & Hr & Er & _)%Hl (s0 & Hs & Es & _)%Hl Hvs. eapply Hu; eauto. congruence.
  - intros j r (r0 & Hr & <- & <- & <-)%Hl. by apply (Hv j).
  - intros j Hj. rewrite lookup_alter_None. by apply Hi.
Qed.

(** The catalogue of firmware releases.  Whatever an administrator does to
    it, a version names one release and every release has a registrable version
    and an https address; a registered or uploaded version was not on offer
    before and is now, at its address, an upload only for an image of the
    gateway that carries the version and that the bucket took; turning a release
    off or on changes nothing else; a refusal changes nothing.  The operators'
    picker then lists exactly the active releases, none newer than one before. *)
Theorem release_catalogue r w :
  com w = cur w → catalogue_ok (cur w) →
  let '(out, w') := run_request (serve_release r) w in
  catalogue_ok (com w') ∧
  match out with
  | Ok o => release_effect r o (cur w) (com w')
  | Raise _ => com w' = com w
  end ∧
  ∃ l, (cpo_list_firmware_releases w').1 = Ok l ∧ NoDup l ∧
    (∀ i x, (i, x) ∈ l ↔ releases (com w') !! i = Some x ∧ FirmwareRelease.is_active x = true) ∧
    StronglySorted (λ a b,
      is_newer_version (FirmwareRelease.version b.2) (FirmwareRelease.version a.2) = false) l.
Proof.
  intros Hcc Hok. apply run_request_wp.
  enough (wp (serve_release r) (λ out w', catalogue_ok (com w') ∧
      match out with Ok o => release_effect r o (cur w) (com w') | Raise _ => com w' = com w end) w) as Hmain.
  { eapply wp_mono; [|done]. intros out w' [H1 H2]. simpl. split; [done|]. split; [done|].
    eexists. split; [done|]. unfold sorted_releases. split_and!.
    - rewrite merge_sort_Permutation. apply select_NoDup.
    - intros i x. rewrite merge_sort_Permutation. apply elem_of_select.
    - apply picker_sorted. }
  assert (Hno : catalogue_ok (com w) ∧ com w = com w) by (by rewrite Hcc).
  destruct r as [version url notes|bucket upload body notes|i b]; unfold serve_release.
  - wp_step. unfold admin_create_firmware_release. do 2 wp_step; [done|]. passed. wp_step.
    apply wp_check_version_free; [|done]. intros o Ho. cbv beta iota.
    apply wp_store_release; try done. intros i w' Hc Hcat Hp. wp_step. split; [done|]. by exists i.
  - wp_step. unfold admin_upload_firmware_release, image_version.
    wp_step. do 2 wp_step; [done|]. do 2 wp_step; [done|]. do 2 wp_step; [done|]. do 2 wp_step; [done|].
    wp_step. do 2 wp_step; [done|]. passed. wp_step. apply wp_check_version_free; [|done]. intros o Ho. cbv beta iota.
    do 2 wp_step; [done|]. passed. apply wp_store_release; try done. intros i w' Hc Hcat Hp. wp_step.
    split; [done|]. exists i, (text_field 48 32 body). split_and!; try done.
    split_and!; try done; [by apply Nat.ltb_ge|by apply String.eqb_eq].
  - assert (Hset : ∀ (Q : result unit → world → Prop),
      (∀ x w', releases (cur w) !! i = Some x → catalogue_ok (com w') →
         releases (com w') = <[i := x <| FirmwareRelease.is_active := b |>]> (releases (cur w)) → Q (Ok tt) w') →
      (∀ e, Q (Raise e) w) → wp (set_release_active i b) Q w).
    { intros Q HQ HE. unfold set_release_active. do 4 wp_step; [|apply HE]. repeat wp_step.
      rename a into x. match goal with H : releases _ !! i = _ |- _ => rename H into Hx end.
      assert (Heq : alter (λ r, r <| FirmwareRelease.is_active := b |>) i (releases (cur w)) =
        <[i := x <| FirmwareRelease.is_active := b |>]> (releases (cur w))).
      { apply map_eq. intros j. destruct (decide (i = j)) as [<-|Hne].
        - by rewrite lookup_alter_eq, lookup_insert_eq, Hx.
        - by rewrite lookup_alter_ne, lookup_insert_ne. }
      apply (HQ x); [done| |done]. by apply catalogue_alter. }
    wp_step. destruct b; apply Hset; try done; intros x w' Hx Hc Hr; wp_step; (split; [done|]); by exists x.
Qed.

(** ** Firmware updates over the air *)

Definition serve_ota (by_admin : bool) user gateway_id (req : CpoGatewayOtaRequest) : M string :=
  if by_admin then admin_gateway_ota gateway_id req else cpo_gateway_ota user gateway_id req.

(** The events of an update request, given whether it succeeded. *)
Definition update_sent (by_admin : bool) user gateway_id req d (done : bool) (l : list effect) : Prop :=
  l = [] ∧ done = false ∨
  ∃ g plug_id plug url ok, l = [Publish (CmdOta gateway_id plug_id url) ok] ∧
    gateways d !! gateway_id = Some g ∧ (done = true → Gateway.status g = ONLINE) ∧
    (by_admin = true ∨ Gateway.tenant_id g = User.tenant_id user) ∧
    plugs d !! plug_id = Some plug ∧ Plug.gateway_id plug = gateway_id ∧
    String.prefix "https://" url = true ∧
    (ota_firmware_url req = Some url ∧ (by_admin = true ∨ User.role user = ADMIN) ∨
     ∃ i r, ota_release_id req = Some i ∧ releases d !! i = Some r ∧
       FirmwareRelease.is_active r = true ∧ FirmwareRelease.url r = url).

Lemma trigger_sent by_admin user gateway_id g custom req d l (out : result string) :
  catalogue_ok d → ota_valid req = true → gateways d !! gateway_id = Some g →
  (by_admin = true ∨ Gateway.tenant_id g = User.tenant_id user) →
  (custom = true → by_admin = true ∨ User.role user = ADMIN) →
  ota_sent gateway_id custom req d l → (is_ok out = true → l ≠ [] ∧ Gateway.status g = ONLINE) →
  update_sent by_admin user gateway_id req d (is_ok out) l.
Proof.
  intros Hcat Hv Hg Hown Hcustom Hsent Hon.
  destruct Hsent as [->|(pid & p & url & ok & -> & Hp & Hpg & Hurl)].
  - left. split; [done|]. destruct (is_ok out); [by destruct Hon|done].
  - right. exists g, pid, p, url, ok. split_and!; try done; [intros Ho; by apply Hon| |].
    + destruct Hurl as [[Hu _]|(i & r & _ & Hr & _ & <-)].
      * unfold ota_valid, https_url in Hv. rewrite Hu in Hv. by passed.
      * apply (cat_valid _ Hcat) in Hr. unfold release_valid, https_url in Hr. by passed.
    + destruct Hurl as [[Hu Hc]|Hr]; [left; auto|by right].
Qed.

(** C16: a firmware update reaches a gateway only as it should.  A request by an
    administrator or an operator writes nothing to the database and sends at
    most one command: to the gateway asked for, which an operator's tenant must
    own, through one of its plugs, with an https address, which is that of an
    active release of the catalogue or one an administrator has typed.  A
    request that succeeds has sent it, to a gateway that is online. *)
Theorem ota_correct by_admin user gateway_id req w :
  com w = cur w → catalogue_ok (cur w) →
  let '(out, w') := run_request (serve_ota by_admin user gateway_id req) w in
  com w' = com w ∧ ∃ l, evs w' = evs w ++ l ∧
    update_sent by_admin user gateway_id req (cur w) (is_ok out) l.
Proof.
  intros Hcc Hcat. apply run_request_wp.
  assert (Hno : ∀ e, com w = com w ∧ ∃ l, evs w = evs w ++ l ∧
    update_sent by_admin user gateway_id req (cur w) (is_ok (@Raise string e)) l).
  { intros e. split; [done|]. exists []. rewrite app_nil_r. split; [done|]. by left. }
  unfold serve_ota. destruct by_admin.
  - unfold admin_gateway_ota. do 2 wp_step; [apply Hno|]. passed. do 4 wp_step; [|apply Hno].
    apply wp_trigger_ota. intros out l Hsent Hon. split; [done|]. exists l. split; [done|].
    eapply trigger_sent; eauto.
  - unfold cpo_gateway_ota. do 2 wp_step; [apply Hno|]. passed. do 2 wp_step. unfold tenant_gateway.
    destruct (gateways (cur w) !! gateway_id) as [g|] eqn:Hg; simpl; [|do 2 wp_step; apply Hno].
    destruct (bool_decide (Gateway.tenant_id g = User.tenant_id user)) eqn:Ht; [|do 2 wp_step; apply Hno].
    do 2 wp_step. passed.
    apply wp_trigger_ota. intros out l Hsent Hon. split; [done|]. exists l. split; [done|].
    eapply trigger_sent; [done..|by right| |done|done]. intros Hc. passed. by right.
Qed.

(** ** The lists filter as their rows say *)

Lemma online_filter_is_live online g now : Gateway.last_seen_at g ≠ None →
  online_filter now online g = Bool.eqb (gateway_is_live g now) online.
Proof.
  unfold online_filter, gateway_is_live, liveness_cutoff, within.
  destruct (Gateway.last_seen_at g) as [seen|]; [intros _|done].
  destruct (bool_decide (Gateway.status g = ONLINE)), online; simpl; try done;
    set (window := seconds _); destruct (Z.leb_spec (now - seen) window); simpl;
    apply Z.leb_le || apply Z.ltb_lt || apply Z.ltb_ge || apply Z.leb_gt; lia.
Qed.

Lemma visibility_filter_is_label d v p :
  (∀ gid, Plug.group_id p = Some gid → is_Some (groups d !! gid)) →
  visibility_filter d v p = bool_decide (visibility_label d p = v).
Proof.
  unfold visibility_filter, visibility_label, plug_group. intros Hfk.
  destruct (Plug.group_id p) as [gid|]; simpl; [|by destruct v].
  destruct (Hfk gid eq_refl) as [g ->]. by destruct v, (ChargerGroup.is_public g).
Qed.

(** ** Minting a gateway *)

Lemma wp_claim_code tries draws (Q : result string → world → Prop) w :
  (∀ code, claimable_rows code (cur w) = [] → code ∈ take tries draws → Q (Ok code) w) →
  (∀ e, (length draws <= tries)%nat ∧ e = Unfinished ∨
        e = HTTPException 500 "Could not generate a unique claim code; try again." → 
        Forall (λ code, claimable_rows code (cur w) ≠ []) (take tries draws) → Q (Raise e) w) →
  wp (unique_claim_code tries draws) Q w.
Proof.
  revert draws. induction tries as [|tries IH]; intros draws HO HE.
  - apply wp_raise, HE; [by right|by rewrite take_0].
  - destruct draws as [|code draws]; [apply wp_raise, HE; [left; split; [simpl; lia|done]|by constructor]|].
    cbn [unique_claim_code]. do 2 wp_step. case_bool_decide as Hf; cbv beta iota.
    + wp_step. apply HO; [done|]. left.
    + apply IH; [intros; apply HO; [done|by right]|].
      intros e He Hall. apply HE; [|by constructor]. destruct He as [[? ?]|]; [left; simpl; split; [lia|done]|by right].
Qed.

(** A minted gateway belongs to nobody and is the one its code claims; a
    refusal leaves nothing. *)
Lemma minted gateway_id name draws now w : com w = cur w →
  let '(out, w') := run_request (admin_mint_inventory_gateway gateway_id name draws now) w in
  match out with
  | Ok code => code ∈ take 20 draws ∧ gateways (cur w) !! gateway_id = None ∧
      ∃ g, Gateway.tenant_id g = None ∧ Gateway.claimed_at g = None ∧
        gateways (com w') = <[gateway_id := g]> (gateways (cur w)) ∧
        claimable_rows code (com w') = [(gateway_id, g)]
  | Raise e => com w' = com w
  end.
Proof.
  intros Hcc. apply run_request_wp. unfold admin_mint_inventory_gateway. do 4 wp_step; [done|]. passed.
  wp_step. apply wp_claim_code; [|done]. intros code Hfree Hin. cbv beta iota.
  wp_step. unfold insert_gateway. do 4 wp_step; [by wp_step|]. repeat wp_step. simpl.
  assert (Hnew : gateways (cur w) !! gateway_id = None) by (by apply eq_None_not_Some).
  split; [done|]. split; [done|]. eexists. split; [|split; [|split; [done|]]]; [done..|].
  apply Permutation_singleton_r. unfold claimable_rows in *. simpl.
  rewrite (filter_perm _ _ _ (map_to_list_insert _ _ _ Hnew)). simpl.
  rewrite bool_decide_true by done. by rewrite Hfree.
Qed.
End Admin.
