(* ===== verification/PushGuard.v ===== *)
(** * services/notifications.py: is_safe_push_endpoint

    The guard on browser-supplied push endpoints, with what it uses of
    [urllib.parse.urlsplit] and [ipaddress] (Python 3.11, the version of the
    image; the networks are those of its registry).  Strings are ASCII: the
    normalisation check that urlsplit makes of other host names is left. *)

From stdpp Require Import pretty.
From Stdlib Require Import Ascii.
From S2P Require Import Prelude PyString.

(** ** Strings *)

(** [s.partition(c)]: before, whether it was found, after. *)
Fixpoint partition (c : ascii) (s : string) : string * bool * string :=
  match s with
  | EmptyString => (EmptyString, false, EmptyString)
  | String a s =>
      if Ascii.eqb a c then (EmptyString, true, s)
      else let '(b, found, after) := partition c s in (String a b, found, after)
  end.

Definition has_char (c : ascii) (s : string) : bool := (partition c s).1.2.

(** [s.rpartition(c)[2]]. *)
Fixpoint after_last (c : ascii) (s : string) : string :=
  match s with
  | EmptyString => EmptyString
  | String _ s' => if has_char c s then after_last c s' else s
  end.

(** [s.split(c)]. *)
Fixpoint split (c : ascii) (s : string) : list string :=
  match s with
  | EmptyString => [EmptyString]
  | String a s =>
      if Ascii.eqb a c then EmptyString :: split c s
      else match split c s with
           | [] => [String a EmptyString]
           | w :: ws => String a w :: ws
           end
  end.

Fixpoint all_of (p : ascii → bool) (s : string) : bool :=
  match s with EmptyString => true | String c s => p c && all_of p s end.

(** [s.lstrip(chars)], [s.rstrip(chars)]. *)
Fixpoint lstrip_of (p : ascii → bool) (s : string) : string :=
  match s with String c s' => if p c then lstrip_of p s' else s | EmptyString => EmptyString end.
Definition rstrip_of (p : ascii → bool) (s : string) : string := String.rev (lstrip_of p (String.rev s)).

Definition prefix_of (p s : string) : bool := String.prefix p s.
Definition suffix_of (p s : string) : bool := String.prefix (String.rev p) (String.rev s).

Definition code (c : ascii) : Z := Z.of_nat (Ascii.nat_of_ascii c).
Definition between (lo hi : Z) (c : ascii) : bool := (lo <=? code c) && (code c <=? hi).
Definition is_digit : ascii → bool := between 48 57.
Definition is_alpha (c : ascii) : bool := between 65 90 c || between 97 122 c.
Definition is_hex (c : ascii) : bool := is_digit c || between 65 70 c || between 97 102 c.
Definition hex_val (c : ascii) : Z :=
  if is_digit c then code c - 48 else if between 65 70 c then code c - 55 else code c - 87.

(** [int(s, base)] of digits of that base. *)
Fixpoint int_of (base acc : Z) (s : string) : Z :=
  match s with EmptyString => acc | String c s => int_of base (acc * base + hex_val c) s end.

(** ** ipaddress *)

Inductive ip := IPv4Address (n : Z) | IPv6Address (n : Z).

(** [_parse_octet]. *)
Definition parse_octet (s : string) : option Z :=
  if String.eqb s "" || negb (all_of is_digit s) || (3 <? String.length s)%nat ||
     (negb (String.eqb s "0") && prefix_of "0" s)
  then None
  else let n := int_of 10 0 s in if 255 <? n then None else Some n.

Definition parse_v4 (s : string) : option Z :=
  match map parse_octet (split "." s) with
  | [Some a; Some b; Some c; Some d] => Some (((a * 256 + b) * 256 + c) * 256 + d)
  | _ => None
  end.

(** [_parse_hextet]; [int("", 16)] raises. *)
Definition parse_hextet (s : string) : option Z :=
  if String.eqb s "" || negb (all_of is_hex s) || (4 <? String.length s)%nat then None
  else Some (int_of 16 0 s).

Definition empty_part (p : option Z * bool) : bool := p.2.

(** A part of an IPv6 address: its value, and whether it is empty. *)
Definition part (s : string) : option Z * bool := (parse_hextet s, String.eqb s "").

(** The parts, a dotted suffix taken as two of them. *)
Definition v6_parts (s : string) : option (list (option Z * bool)) :=
  let ws := split ":" s in
  if (length ws <? 3)%nat then None
  else
    let final := default "" (last ws) in
    if has_char "." final then
      n ← parse_v4 final;
      Some (map part (removelast ws) ++ [(Some (Z.shiftr n 16), false); (Some (n mod 65536), false)])
    else Some (map part ws).

(** The hextets in order, below what is there already. *)
Fixpoint hextets (acc : Z) (ps : list (option Z * bool)) : option Z :=
  match ps with
  | [] => Some acc
  | (v, _) :: ps => n ← v; hextets (acc * 65536 + n) ps
  end.

(** [_ip_int_from_string]. *)
Definition v6_int (s : string) : option Z :=
  ps ← v6_parts s;
  let len := length ps in
  let first := default false (empty_part <$> head ps) in
  let final := default false (empty_part <$> last ps) in
  if (9 <? len)%nat then None
  else match List.filter (λ i, default false (empty_part <$> ps !! i)) (seq 1 (len - 2)) with
  | [] => if negb (Nat.eqb len 8) || first || final then None else hextets 0 ps
  | [skip] =>
      let hi := if first then (skip - 1)%nat else skip in
      let lo := if final then (len - skip - 2)%nat else (len - skip - 1)%nat in
      if (first && negb (Nat.eqb hi 0)) || (final && negb (Nat.eqb lo 0)) || (8 <? hi + lo + 1)%nat then None
      else n ← hextets 0 (take hi ps);
           hextets (Z.shiftl n (16 * Z.of_nat (8 - (hi + lo)))) (drop (len - lo) ps)
  | _ => None
  end.

(** With [_split_scope_id]. *)
Definition parse_v6 (s : string) : option Z :=
  let '(addr, sep, scope_id) := partition "%" s in
  if sep && (String.eqb scope_id "" || has_char "%" scope_id) then None else v6_int addr.

Definition ip_address (s : string) : option ip :=
  if has_char "/" s then None
  else match parse_v4 s with
  | Some n => Some (IPv4Address n)
  | None => IPv6Address <$> parse_v6 s
  end.

(** A network: its address and the length of its prefix. *)
Definition in_net (width n : Z) (net : Z * Z) : bool :=
  Z.shiftr n (width - net.2) =? Z.shiftr net.1 (width - net.2).
Definition in_any (width n : Z) (nets : list (Z * Z)) : bool := existsb (in_net width n) nets.

Definition quad (a b c d : Z) : Z := ((a * 256 + b) * 256 + c) * 256 + d.

Definition private_v4 : list (Z * Z) :=
  [(quad 0 0 0 0, 8); (quad 10 0 0 0, 8); (quad 127 0 0 0, 8); (quad 169 254 0 0, 16);
   (quad 172 16 0 0, 12); (quad 192 0 0 0, 24); (quad 192 0 0 170, 31); (quad 192 0 2 0, 24);
   (quad 192 168 0 0, 16); (quad 198 18 0 0, 15); (quad 198 51 100 0, 24); (quad 203 0 113 0, 24);
   (quad 240 0 0 0, 4); (quad 255 255 255 255, 32)].
Definition private_v4_exceptions : list (Z * Z) := [(quad 192 0 0 9, 32); (quad 192 0 0 10, 32)].
Definition multicast_v4 : Z * Z := (quad 224 0 0 0, 4).
Definition reserved_v4 : Z * Z := (quad 240 0 0 0, 4).

(** The eight hextets of an address, the last [n] of them zero. *)
Definition high (ns : list Z) : Z :=
  Z.shiftl (foldl (λ acc n, acc * 65536 + n) 0 ns) (16 * (8 - Z.of_nat (length ns))).

Definition private_v6 : list (Z * Z) :=
  [(1, 128); (0, 128); (high [0; 0; 0; 0; 0; 0xffff], 96); (high [0x64; 0xff9b; 1], 48);
   (high [0x100], 64); (high [0x2001], 23); (high [0x2001; 0xdb8], 32); (high [0x2002], 16);
   (high [0x3fff], 20); (high [0xfc00], 7); (high [0xfe80], 10)].
Definition private_v6_exceptions : list (Z * Z) :=
  [(high [0x2001; 1] + 1, 128); (high [0x2001; 1] + 2, 128); (high [0x2001; 3], 32);
   (high [0x2001; 4; 0x112], 48); (high [0x2001; 0x20], 28); (high [0x2001; 0x30], 28)].
Definition multicast_v6 : Z * Z := (high [0xff00], 8).
Definition reserved_v6 : list (Z * Z) :=
  [(0, 8); (high [0x100], 8); (high [0x200], 7); (high [0x400], 6); (high [0x800], 5);
   (high [0x1000], 4); (high [0x4000], 3); (high [0x6000], 3); (high [0x8000], 3); (high [0xa000], 3);
   (high [0xc000], 3); (high [0xe000], 4); (high [0xf000], 5); (high [0xf800], 6); (high [0xfe00], 9)].

(** [is_private or is_loopback or is_link_local or is_reserved or is_multicast or
    is_unspecified]. *)
Definition internal_v4 (n : Z) : bool :=
  (in_any 32 n private_v4 && negb (in_any 32 n private_v4_exceptions)) ||
  in_net 32 n (quad 127 0 0 0, 8) || in_net 32 n (quad 169 254 0 0, 16) ||
  in_net 32 n reserved_v4 || in_net 32 n multicast_v4 || (n =? 0).

Definition internal_v6 (n : Z) : bool :=
  (in_any 128 n private_v6 && negb (in_any 128 n private_v6_exceptions)) ||
  (n =? 1) || in_net 128 n (high [0xfe80], 10) ||
  in_any 128 n reserved_v6 || in_net 128 n multicast_v6 || (n =? 0).

(** [ip.ipv4_mapped]: ::ffff:a.b.c.d. *)
Definition ipv4_mapped (n : Z) : option Z :=
  if Z.shiftr n 32 =? 0xffff then Some (n mod 2 ^ 32) else None.

Definition internal (a : ip) : bool :=
  match a with
  | IPv4Address n => internal_v4 n
  | IPv6Address n => match ipv4_mapped n with Some m => internal_v4 m | None => internal_v6 n end
  end.

(** ** urlsplit *)

Definition scheme_char (c : ascii) : bool :=
  is_alpha c || is_digit c || bool_decide (code c ∈ [43; 45; 46]).

(** Up to the first of [/?#]. *)
Fixpoint netloc_of (s : string) : string :=
  match s with
  | EmptyString => EmptyString
  | String c s => if bool_decide (code c ∈ [47; 63; 35]) then EmptyString else String c (netloc_of s)
  end.

(** [_check_bracketed_netloc]; [v1.x] is the form of future addresses. *)
Definition bracketed_ok (netloc : string) : bool :=
  let '(before, found, bracketed) := partition "[" (after_last "@" netloc) in
  let '(hostname, port) := if found then let '(h, _, p) := partition "]" bracketed in (h, p)
                           else let '(h, _, p) := partition ":" (after_last "@" netloc) in (h, p) in
  negb (found && (negb (String.eqb before "") || (negb (String.eqb port "") && negb (prefix_of ":" port)))) &&
  (if prefix_of "v" hostname then
     let '(hex, dot, rest) := partition "." (String.substring 1 (String.length hostname) hostname) in
     dot && negb (String.eqb hex "") && all_of is_hex hex && negb (String.eqb rest "")
   else match ip_address hostname with Some (IPv6Address _) => true | _ => false end).

(** Scheme and netloc; [None] where it raises ValueError. *)
Definition urlsplit (url : string) : option (string * string) :=
  let url := lstrip_of (between 0 32) url in
  let url := remove_char "010" (remove_char "013" (remove_char "009" url)) in
  let '(head, found, tail) := partition ":" url in
  let '(scheme, url) :=
    match head with
    | String c _ => if found && is_alpha c && all_of scheme_char head then (lower head, tail) else (EmptyString, url)
    | EmptyString => (EmptyString, url)
    end in
  if prefix_of "//" url then
    let netloc := netloc_of (String.substring 2 (String.length url) url) in
    if negb (Bool.eqb (has_char "[" netloc) (has_char "]" netloc)) then None
    else if has_char "[" netloc && negb (bracketed_ok netloc) then None
    else Some (scheme, netloc)
  else Some (scheme, EmptyString).

(** [.hostname]: [None] when it is empty; a zone keeps its case. *)
Definition hostname (netloc : string) : option string :=
  let hostinfo := after_last "@" netloc in
  let '(_, found, bracketed) := partition "[" hostinfo in
  let h := if found then (partition "]" bracketed).1.1 else (partition ":" hostinfo).1.1 in
  if String.eqb h "" then None
  else let '(name, percent, zone) := partition "%" h in
       Some (lower name +:+ (if percent then "%" else "") +:+ zone).

(** ** The guard *)

Definition UNSAFE_HOST_SUFFIXES : list string := [".local"; ".localhost"; ".internal"; ".lan"; ".home"].
Definition UNSAFE_HOSTS : list string := ["localhost"; "169.254.169.254"; "metadata.google.internal"].

Definition is_safe_push_endpoint (url : string) : bool :=
  negb (String.eqb (strip url) "") &&
  match urlsplit (strip url) with
  | None => false
  | Some (scheme, netloc) =>
      String.eqb scheme "https" &&
      match hostname netloc with
      | None => false
      | Some host =>
          let host := rstrip_of (Ascii.eqb ".") host in
          negb (String.eqb host "") &&
          negb (bool_decide (host ∈ UNSAFE_HOSTS)) &&
          match ip_address host with
          | Some a => negb (internal a)
          | None => negb (existsb (λ x, suffix_of x host) UNSAFE_HOST_SUFFIXES) && has_char "." host
          end
      end
  end.

Example verdicts :
  map is_safe_push_endpoint
    ["https://fcm.googleapis.com/fcm/send/abc"; "https://8.8.8.8/x"; "https://[2606:4700::1111]:443/x";
     "http://fcm.googleapis.com/x"; "https://127.0.0.1:8000/x"; "https://[::1]/x"; "https://[::ffff:10.0.0.1]/";
     "https://user@10.1.2.3/"; "https://db/"; "https://printer.local./"; "https://[fe80::1%eth0]/"; "https://[1:2]/";
     "  HTTPS://LOCALHOST/"; ""]%string
  = [true; true; true; false; false; false; false; false; false; false; false; false; false; false].
Proof. vm_compute. reflexivity. Qed.

(** ** Dotted addresses *)

Lemma has_char_cons c a s : has_char c (String a s) = Ascii.eqb a c || has_char c s.
Proof.
  unfold has_char. simpl. destruct (Ascii.eqb a c); [done|]. by destruct (partition c s) as [[b found] after].
Qed.

Lemma has_char_of p c s : all_of p s = true → p c = false → has_char c s = false.
Proof.
  intros Hs Hc. induction s as [|a s IH]; [done|]. simpl in Hs. apply andb_true_iff in Hs as [Ha Hs].
  rewrite has_char_cons, IH by done. destruct (Ascii.eqb_spec a c) as [->|]; [congruence|done].
Qed.

Lemma partition_none c s : has_char c s = false → partition c s = (s, false, EmptyString).
Proof.
  induction s as [|a s IH]; [done|]. rewrite has_char_cons. simpl.
  intros [Ha Hs]%orb_false_iff. by rewrite Ha, IH.
Qed.

Lemma after_last_none c s : has_char c s = false → after_last c s = s.
Proof. destruct s as [|a s]; [done|]. intros Hs. cbn [after_last]. by rewrite Hs. Qed.

Lemma remove_char_app c s t : remove_char c (s +:+ t) = remove_char c s +:+ remove_char c t.
Proof. induction s as [|a s IH]; simpl; [done|]. destruct (Ascii.eqb a c); simpl; by rewrite IH. Qed.

Lemma remove_char_none c s : has_char c s = false → remove_char c s = s.
Proof.
  induction s as [|a s IH]; [done|]. rewrite has_char_cons. simpl. intros [Ha Hs]%orb_false_iff.
  by rewrite Ha, IH.
Qed.

Lemma substring_all n s : (String.length s <= n)%nat → String.substring 0 n s = s.
Proof.
  revert n. induction s as [|a s IH]; intros n Hn; [by destruct n|].
  destruct n as [|n]; simpl in *; [lia|]. rewrite IH by lia. done.
Qed.

Lemma netloc_cut s t :
  all_of (λ c, negb (bool_decide (code c ∈ [47; 63; 35]))) s = true → netloc_of (s +:+ String "/" t) = s.
Proof.
  induction s as [|a s IH]; [done|]. cbn [all_of String.app netloc_of].
  intros [Ha Hs]%andb_true_iff. apply negb_true_iff in Ha. simpl. rewrite Ha. by rewrite IH.
Qed.

Lemma split_cut c a s : has_char c a = false → split c (a +:+ String c s) = a :: split c s.
Proof.
  induction a as [|x a IH]; simpl; [by rewrite Ascii.eqb_refl|].
  rewrite has_char_cons. intros [Hx Ha]%orb_false_iff. by rewrite Hx, IH.
Qed.

Lemma split_none c a : has_char c a = false → split c a = [a].
Proof.
  induction a as [|x a IH]; simpl; [done|].
  rewrite has_char_cons. intros [Hx Ha]%orb_false_iff. by rewrite Hx, IH.
Qed.

Lemma all_of_app p s t : all_of p (s +:+ t) = all_of p s && all_of p t.
Proof. induction s as [|a s IH]; simpl; [done|]. by rewrite IH, andb_assoc. Qed.

Lemma all_of_mono p q s : (∀ c, p c = true → q c = true) → all_of p s = true → all_of q s = true.
Proof.
  intros Hpq. induction s as [|a s IH]; simpl; [done|]. intros [Ha Hs]%andb_true_iff.
  by rewrite Hpq, IH.
Qed.

(** The octet as it is written. *)
Definition octet (n : Z) : string := pretty n.

Definition octet_ok (n : Z) : bool :=
  bool_decide (parse_octet (octet n) = Some n) && all_of is_digit (octet n) && negb (String.eqb (octet n) "").

Lemma octets n : 0 <= n < 256 → octet_ok n = true.
Proof.
  intros Hn. assert (Hall : forallb octet_ok (seqZ 0 256) = true) by (vm_compute; reflexivity).
  rewrite forallb_forall in Hall. apply Hall, list_elem_of_In, elem_of_seqZ. lia.
Qed.

Lemma app_cons a (s t : string) : String a s +:+ t = String a (s +:+ t).
Proof. done. Qed.

Lemma str_app_assoc (s t u : string) : (s +:+ t) +:+ u = s +:+ t +:+ u.
Proof. induction s as [|a s IH]; [done|]. by rewrite !app_cons, IH. Qed.

Lemma str_app_nil (s : string) : s +:+ "" = s.
Proof. induction s as [|a s IH]; [done|]. by rewrite app_cons, IH. Qed.

Lemma rev_app_spec s t : String.rev_app s t = String.rev s +:+ t.
Proof.
  unfold String.rev. revert t. induction s as [|a s IH]; intros t; simpl; [done|].
  by rewrite IH, (IH (String a "")), str_app_assoc.
Qed.

Lemma rev_cons a s : String.rev (String a s) = String.rev s +:+ String a "".
Proof. unfold String.rev at 1. simpl. apply rev_app_spec. Qed.

Lemma rev_app s t : String.rev (s +:+ t) = String.rev t +:+ String.rev s.
Proof.
  induction s as [|a s IH]; [by rewrite str_app_nil|].
  by rewrite app_cons, !rev_cons, IH, str_app_assoc.
Qed.

Lemma rev_involutive s : String.rev (String.rev s) = s.
Proof. induction s as [|a s IH]; [done|]. by rewrite rev_cons, rev_app, IH. Qed.

Lemma all_of_rev p s : all_of p (String.rev s) = all_of p s.
Proof.
  induction s as [|a s IH]; [done|]. rewrite rev_cons, all_of_app, IH. simpl.
  by rewrite andb_true_r, andb_comm.
Qed.

(** What ends in a digit loses no dot. *)
Lemma rstrip_digit s t :
  all_of is_digit t = true → t ≠ "" → rstrip_of (Ascii.eqb ".") (s +:+ t) = s +:+ t.
Proof.
  intros Ht Hne. unfold rstrip_of. rewrite rev_app.
  destruct (String.rev t) as [|a r] eqn:Hr.
  { destruct Hne. by rewrite <- (rev_involutive t), Hr. }
  rewrite <- all_of_rev, Hr in Ht. simpl in Ht. apply andb_true_iff in Ht as [Ha _].
  assert (Hdot : Ascii.eqb "." a = false).
  { destruct (Ascii.eqb_spec "." a) as [<-|]; [done|done]. }
  rewrite app_cons. cbn [lstrip_of]. rewrite Hdot, <- app_cons.
  by rewrite <- Hr, <- rev_app, rev_involutive.
Qed.

Definition host_char (c : ascii) : bool := is_digit c || Ascii.eqb c ".".

Lemma lower_host s : all_of host_char s = true → lower s = s.
Proof.
  induction s as [|a s IH]; simpl; [done|]. intros [Ha Hs]%andb_true_iff. rewrite IH by done. f_equal.
  unfold lower_ascii. unfold host_char, is_digit, between, code in Ha.
  destruct ((65 <=? Ascii.nat_of_ascii a)%nat) eqn:Hl; [|done]. apply Nat.leb_le in Hl.
  exfalso. destruct (Ascii.eqb_spec a ".") as [->|]; [vm_compute in Hl; lia|].
  rewrite orb_false_r in Ha. apply andb_true_iff in Ha as [_ Ha%Z.leb_le]. lia.
Qed.

(** a.b.c.d. *)
Definition dotted (a b c d : Z) : string :=
  octet a +:+ String "." (octet b +:+ String "." (octet c +:+ String "." (octet d))).

Section Dotted.
Variables a b c d : Z.
Hypothesis Ha : 0 <= a < 256.
Hypothesis Hb : 0 <= b < 256.
Hypothesis Hc : 0 <= c < 256.
Hypothesis Hd : 0 <= d < 256.

Lemma octet_facts n : 0 <= n < 256 →
  parse_octet (octet n) = Some n ∧ all_of is_digit (octet n) = true ∧ octet n ≠ "".
Proof.
  intros Hn. pose proof (octets n Hn) as H. unfold octet_ok in H.
  apply andb_true_iff in H as [[H1%bool_decide_eq_true_1 H2]%andb_true_iff H3%negb_true_iff].
  split; [done|]. split; [done|]. by apply String.eqb_neq.
Qed.

Lemma dotted_chars : all_of host_char (dotted a b c d) = true.
Proof using Ha Hb Hc Hd.
  unfold dotted. rewrite !all_of_app. cbn [all_of].
  rewrite !all_of_app. cbn [all_of]. rewrite !all_of_app. cbn [all_of].
  assert (Hdig : ∀ n, 0 <= n < 256 → all_of host_char (octet n) = true).
  { intros n Hn. apply (all_of_mono is_digit); [|by apply octet_facts]. intros x Hx. unfold host_char. by rewrite Hx. }
  by rewrite !Hdig.
Qed.

Lemma no_char x : host_char x = false → has_char x (dotted a b c d) = false.
Proof using Ha Hb Hc Hd. apply has_char_of, dotted_chars. Qed.

Lemma dotted_address : ip_address (dotted a b c d) = Some (IPv4Address (quad a b c d)).
Proof using Ha Hb Hc Hd.
  unfold ip_address. rewrite no_char by done.
  assert (Hp : parse_v4 (dotted a b c d) = Some (quad a b c d)); [|by rewrite Hp].
  assert (Hdot : ∀ n, 0 <= n < 256 → has_char "." (octet n) = false).
  { intros n Hn. apply (has_char_of is_digit); [by apply octet_facts|done]. }
  unfold parse_v4, dotted. rewrite !split_cut, split_none by auto. cbn [map].
  destruct (octet_facts a Ha) as [-> _], (octet_facts b Hb) as [-> _], (octet_facts c Hc) as [-> _],
    (octet_facts d Hd) as [-> _]. done.
Qed.

Lemma dotted_split rest :
  urlsplit ("https://" +:+ dotted a b c d +:+ String "/" rest) = Some ("https"%string, dotted a b c d).
Proof using Ha Hb Hc Hd.
  unfold urlsplit. set (h := dotted a b c d).
  assert (Hrm : ∀ x, host_char x = false → remove_char x h = h) by (intros; by apply remove_char_none, no_char).
  change ("https://" +:+ h +:+ String "/" rest) with (String "h" ("ttps://" +:+ h +:+ String "/" rest)).
  cbn [lstrip_of]. change (between 0 32 "h") with false. cbv iota.
  rewrite <- app_cons. change (String "h" "ttps://") with "https://"%string.
  rewrite !remove_char_app, !Hrm by done.
  set (rest' := remove_char "010" (remove_char "013" (remove_char "009" rest))).
  change (remove_char "010" (remove_char "013" (remove_char "009" "https://"))) with "https://"%string.
  change (remove_char "010" (remove_char "013" (remove_char "009" (String "/" rest)))) with (String "/" rest').
  change (partition ":" ("https://" +:+ h +:+ String "/" rest')) with ("https"%string, true, "//" +:+ h +:+ String "/" rest').
  set (x := h +:+ String "/" rest'). cbv beta iota zeta.
  change (true && is_alpha "h" && all_of scheme_char "https") with true. cbv beta iota zeta.
  assert (Hpre : prefix_of "//" ("//" +:+ x) = true) by (by destruct x). rewrite Hpre.
  change (String.substring 2 (String.length ("//" +:+ x)) ("//" +:+ x))
    with (String.substring 0 (String.length ("//" +:+ x)) x).
  rewrite substring_all by (change (String.length ("//" +:+ x)) with (S (S (String.length x))); lia).
  unfold x. rewrite netloc_cut.
  - unfold h. by rewrite !no_char by done.
  - apply (all_of_mono host_char); [|apply dotted_chars]. intros y. unfold host_char, is_digit, between, code.
    destruct (Ascii.eqb_spec y ".") as [->|_]; [done|]. rewrite orb_false_r. intros Hy. passed.
    apply negb_true_iff, bool_decide_eq_false_2. rewrite !elem_of_cons, elem_of_nil. lia.
Qed.

Lemma dotted_hostname : hostname (dotted a b c d) = Some (dotted a b c d).
Proof using Ha Hb Hc Hd.
  unfold hostname. rewrite after_last_none, !partition_none by (apply no_char; done).
  assert (Hne : String.eqb (dotted a b c d) "" = false).
  { apply String.eqb_neq. unfold dotted. destruct (octet_facts a Ha) as (_ & _ & Hna).
    destruct (octet a); [done|]. by rewrite app_cons. }
  cbv beta iota zeta. cbn [fst]. rewrite Hne. cbv iota.
  by rewrite lower_host, !str_app_nil by apply dotted_chars.
Qed.
End Dotted.

(** An address in its usual form is refused exactly when it is internal,
    whatever follows it: no spelling of the path gets round the networks. *)
Theorem dotted_verdict a b c d rest :
  0 <= a < 256 → 0 <= b < 256 → 0 <= c < 256 → 0 <= d < 256 →
  let url := "https://" +:+ dotted a b c d +:+ String "/" rest in
  strip url = url →
  is_safe_push_endpoint url = negb (internal_v4 (quad a b c d)).
Proof.
  intros Ha Hb Hc Hd url Hstrip. unfold is_safe_push_endpoint. rewrite Hstrip. unfold url at 1 2.
  rewrite dotted_split, dotted_hostname by done.
  change (negb (String.eqb ("https://" +:+ dotted a b c d +:+ String "/" rest) "")) with true.
  change (String.eqb "https" "https") with true. cbv zeta. rewrite !andb_true_l.
  assert (Hr : rstrip_of (Ascii.eqb ".") (dotted a b c d) = dotted a b c d).
  { unfold dotted. change (String "." (octet d)) with ("." +:+ octet d).
    change (String "." (octet c +:+ "." +:+ octet d)) with ("." +:+ octet c +:+ "." +:+ octet d).
    change (String "." (octet b +:+ "." +:+ octet c +:+ "." +:+ octet d))
      with ("." +:+ octet b +:+ "." +:+ octet c +:+ "." +:+ octet d).
    rewrite <- !str_app_assoc. apply rstrip_digit; by apply octet_facts. }
  rewrite Hr.
  assert (Hne : String.eqb (dotted a b c d) "" = false).
  { pose proof (dotted_hostname a b c d Ha Hb Hc Hd) as Hh. unfold hostname in Hh.
    destruct (String.eqb_spec (dotted a b c d) "") as [He|]; [|done]. by rewrite He in Hh. }
  rewrite Hne, dotted_address by done. cbn [negb andb internal].
  case_bool_decide as Hunsafe; [|done].
  pose proof (dotted_address a b c d Ha Hb Hc Hd) as Hip. unfold UNSAFE_HOSTS in Hunsafe.
  rewrite !elem_of_cons, elem_of_nil in Hunsafe.
  revert Hip. generalize (quad a b c d). intros q Hip.
  destruct Hunsafe as [He|[He|[He|[]]]]; rewrite He in Hip; vm_compute in Hip; [done| |done].
  injection Hip as <-. reflexivity.
Qed.

(** Two things it lets through: a short spelling of the loopback address, no
    literal for ipaddress and a host name with a dot for the guard, which the
    resolver of the host reads as 127.0.0.1; and the shared address space of
    100.64.0.0/10, which is not globally routable. *)
Theorem guard_gaps :
  is_safe_push_endpoint "https://127.1/push" = true ∧ ip_address "127.1" = None ∧
  is_safe_push_endpoint "https://0x7f.0.0.1/push" = true ∧
  is_safe_push_endpoint "https://100.64.0.1/push" = true.
Proof. vm_compute. repeat split. Qed.
