(* ===== verification/LocalIp.v ===== *)
(** * schemas.py: validate_local_ip

    The network address of a plug, as an operator may type it.  It is stored as
    [str(ipaddress.ip_address(...))] writes it (Python 3.11), so the reader of
    PushGuard.v gets its writer here, and reading back what was written is the
    address that was read. *)

From stdpp Require Import pretty.
From Stdlib Require Import Ascii.
From S2P Require Import Prelude PyString PushGuard.

(** ** str(ip_address) *)

Definition hex_digit (n : Z) : ascii := Ascii.ascii_of_nat (Z.to_nat (if n <? 10 then 48 + n else 87 + n)).

(** The digits of [n], in front of [acc]; four are enough for a hextet. *)
Fixpoint hex_digits (fuel : nat) (n : Z) (acc : string) : string :=
  match fuel with
  | O => acc
  | S fuel => let acc := String (hex_digit (n mod 16)) acc in
              if n / 16 =? 0 then acc else hex_digits fuel (n / 16) acc
  end.

(** ['%x' % n]. *)
Definition hextet_str (n : Z) : string := hex_digits 4 n "".

(** The [k] hextets of [n], the highest first. *)
Fixpoint hextets_of (k : nat) (n : Z) : list Z :=
  match k with O => [] | S k => hextets_of k (n / 65536) ++ [n mod 65536] end.

(** The first of the longest runs of zeros, and its length: the loop of
    [_compress_hextets] from index [i], with the run at hand. *)
Fixpoint longest_run (i : nat) (best cur : nat * nat) (zeros : list bool) : nat * nat :=
  match zeros with
  | [] => best
  | true :: zeros =>
      let cur := if Nat.eqb cur.2 0 then (i, 1%nat) else (cur.1, S cur.2) in
      longest_run (S i) (if (best.2 <? cur.2)%nat then cur else best) cur zeros
  | false :: zeros => longest_run (S i) best (0, 0)%nat zeros
  end.

(** [_compress_hextets]. *)
Definition compress_hextets (hs : list string) : list string :=
  let '(start, len) := longest_run 0 (0, 0)%nat (0, 0)%nat (map (String.eqb "0") hs) in
  if (1 <? len)%nat then
    (if Nat.eqb start 0 then [""] else []) ++ take start hs ++ [""] ++ drop (start + len) hs ++
    (if Nat.eqb (start + len) (length hs) then [""] else [])
  else hs.

(** [_string_from_ip_int]. *)
Definition v6_str (n : Z) : string := String.concat ":" (compress_hextets (map hextet_str (hextets_of 8 n))).

Definition v4_str (n : Z) : string :=
  dotted (n / 16777216) (n / 65536 mod 256) (n / 256 mod 256) (n mod 256).

(** What follows the first percent sign, as [_split_scope_id] keeps it. *)
Definition scope_id (s : string) : string := (partition "%" s).2.

Definition ip_str (a : ip) (scope : string) : string :=
  match a with
  | IPv4Address n => v4_str n
  | IPv6Address n => if String.eqb scope "" then v6_str n else v6_str n +:+ String "%" scope
  end.

(** ** The check *)

Definition is_alnum (c : ascii) : bool := is_alpha c || is_digit c.
Definition hostname_char (c : ascii) : bool := is_alnum c || bool_decide (code c ∈ [45; 46]).

Definition first_char (p : ascii → bool) (s : string) : bool :=
  match s with String c _ => p c | EmptyString => false end.

(** [_HOSTNAME_RE]: the first and the last character are letters or digits, with
    at most 43 in between. *)
Definition hostname_re (s : string) : bool :=
  all_of hostname_char s && (String.length s <=? 45)%nat && first_char is_alnum s && first_char is_alnum (String.rev s).

(** [None] where it raises ValueError. *)
Definition validate_local_ip (value : string) : option string :=
  let candidate := strip value in
  if String.eqb candidate "" then None
  else match ip_address candidate with
  | Some a => Some (ip_str a (scope_id candidate))
  | None => if hostname_re candidate then Some candidate else None
  end.

Example typed :
  map validate_local_ip
    [" 192.168.1.50 "; "2001:DB8:0:0:0:0:0:1"; "1:0:0:2:0:0:0:3"; "1:2:3:4:5:6:0.0.0.0"; "::"; "1::2:3:4:5:6:7";
     "::ffff:192.168.1.9"; "fe80::1%eth0"; "plug-7.lan"; "http://plug"; "plug:80"; "a b"; "-plug"; "192.168.01.5"]
  = [Some "192.168.1.50"; Some "2001:db8::1"; Some "1:0:0:2::3"; Some "1:2:3:4:5:6::"; Some "::";
     Some "1:0:2:3:4:5:6:7"; Some "::ffff:c0a8:109"; Some "fe80::1%eth0"; Some "plug-7.lan"; None; None; None;
     None; Some "192.168.01.5"]%string.
Proof. vm_compute. reflexivity. Qed.

(** ** Hextets *)

Definition digit_ok (d : Z) : bool :=
  is_hex (hex_digit d) && (hex_val (hex_digit d) =? d) && Bool.eqb (Ascii.eqb "0" (hex_digit d)) (d =? 0).

Lemma digit_facts d : 0 <= d < 16 →
  is_hex (hex_digit d) = true ∧ hex_val (hex_digit d) = d ∧ Ascii.eqb "0" (hex_digit d) = (d =? 0).
Proof.
  intros Hd. assert (Hall : forallb digit_ok (seqZ 0 16) = true) by (vm_compute; reflexivity).
  rewrite forallb_forall in Hall. specialize (Hall d). rewrite <- list_elem_of_In, elem_of_seqZ in Hall.
  specialize (Hall ltac:(lia)). unfold digit_ok in Hall. passed.
  split_and!; [done|done|by apply eqb_prop].
Qed.

Definition digits (ds : list Z) : string := foldr (λ d s, String (hex_digit d) s) "" ds.

Lemma digits_facts ds : Forall (λ d, 0 <= d < 16) ds →
  all_of is_hex (digits ds) = true ∧ String.length (digits ds) = length ds ∧
  ∀ acc, int_of 16 acc (digits ds) = foldl (λ acc d, acc * 16 + d) acc ds.
Proof.
  induction 1 as [|d ds Hd _ (IHa & IHl & IHi)]; [done|]. destruct (digit_facts d Hd) as (H1 & H2 & _).
  simpl. by rewrite H1, H2, IHa, IHl.
Qed.

(** What a string of one to four digits reads as. *)
Lemma digits_hextet d ds n :
  Forall (λ d, 0 <= d < 16) (d :: ds) → (length ds < 4)%nat → foldl (λ acc d, acc * 16 + d) 0 (d :: ds) = n →
  (d = 0 ↔ n = 0) → (ds = [] ∨ d ≠ 0) →
  let s := digits (d :: ds) in
  part s = (Some n, false) ∧ all_of is_hex s = true ∧ (String.length s <= 4)%nat ∧ String.eqb "0" s = (n =? 0).
Proof.
  intros Hds Hlen Hn H0 Hlead s. destruct (digits_facts _ Hds) as (H1 & H2 & H3). unfold s, part, parse_hextet.
  rewrite H1, H2, H3, Hn. inversion Hds as [|? ? Hd _]; subst. destruct (digit_facts d Hd) as (_ & _ & Hz).
  assert ((4 <? length (d :: ds))%nat = false) as -> by (apply Nat.ltb_ge; simpl; lia).
  split; [done|]. split; [done|]. split; [simpl; lia|].
  unfold digits. cbn [foldr String.eqb]. rewrite Hz.
  assert ((foldl (λ acc d, acc * 16 + d) 0 (d :: ds) =? 0) = (d =? 0)) as ->
    by (apply Bool.eq_iff_eq_true; rewrite !Z.eqb_eq; by symmetry).
  destruct Hlead as [->|Hne]; [by destruct (d =? 0)|]. by apply Z.eqb_neq in Hne as ->.
Qed.

Ltac digits_ok := repeat (apply Forall_nil_2 || apply Forall_cons_2); lia.

Lemma hextet_facts n : 0 <= n < 65536 →
  let s := hextet_str n in
  part s = (Some n, false) ∧ all_of is_hex s = true ∧ (String.length s <= 4)%nat ∧ String.eqb "0" s = (n =? 0).
Proof.
  intros Hn. unfold hextet_str. cbn [hex_digits].
  pose proof (Z.div_mod n 16 ltac:(lia)). pose proof (Z.mod_pos_bound n 16 ltac:(lia)).
  pose proof (Z.div_mod (n / 16) 16 ltac:(lia)). pose proof (Z.mod_pos_bound (n / 16) 16 ltac:(lia)).
  pose proof (Z.div_mod (n / 16 / 16) 16 ltac:(lia)). pose proof (Z.mod_pos_bound (n / 16 / 16) 16 ltac:(lia)).
  pose proof (Z.div_mod (n / 16 / 16 / 16) 16 ltac:(lia)).
  pose proof (Z.mod_pos_bound (n / 16 / 16 / 16) 16 ltac:(lia)).
  destruct (Z.eqb_spec (n / 16) 0).
  { apply (digits_hextet (n mod 16) []); [digits_ok|simpl;lia|simpl; lia|lia|by left]. }
  destruct (Z.eqb_spec (n / 16 / 16) 0).
  { apply (digits_hextet (n / 16 mod 16) [n mod 16]);
      [digits_ok|simpl;lia|simpl; lia|lia|right; lia]. }
  destruct (Z.eqb_spec (n / 16 / 16 / 16) 0).
  { apply (digits_hextet (n / 16 / 16 mod 16) [n / 16 mod 16; n mod 16]);
      [digits_ok|simpl;lia|simpl; lia|lia|right; lia]. }
  replace (if _ =? 0 then _ else _) with
    (digits [n / 16 / 16 / 16 mod 16; n / 16 / 16 mod 16; n / 16 mod 16; n mod 16]) by (by destruct (_ =? 0)).
  apply digits_hextet; [digits_ok|simpl;lia|simpl; lia|lia|right; lia].
Qed.

(** ** Lists of hextets *)

Definition hextet (n : Z) : Prop := 0 <= n < 65536.

Definition value (acc : Z) (hs : list Z) : Z := foldl (λ acc n, acc * 65536 + n) acc hs.

Lemma value_app acc hs ks : value acc (hs ++ ks) = value (value acc hs) ks.
Proof. apply foldl_app. Qed.

Lemma value_hextets k n acc : value acc (hextets_of k n) = acc * 65536 ^ Z.of_nat k + n mod 65536 ^ Z.of_nat k.
Proof.
  revert n. induction k as [|k IH]; intros n; simpl hextets_of.
  - simpl. rewrite Z.mod_1_r. lia.
  - rewrite value_app, IH. simpl. rewrite Nat2Z.inj_succ, Z.pow_succ_r by lia.
    pose proof (Z.pow_pos_nonneg 65536 (Z.of_nat k) ltac:(lia) ltac:(lia)).
    rewrite Z.rem_mul_r by lia. lia.
Qed.

Lemma length_hextets k n : length (hextets_of k n) = k.
Proof. revert n. induction k as [|k IH]; intros n; simpl; [done|]. rewrite length_app, IH. simpl. lia. Qed.

Lemma hextets_bound k n : Forall hextet (hextets_of k n).
Proof.
  revert n. induction k as [|k IH]; intros n; simpl; [constructor|]. apply Forall_app. split; [done|].
  constructor; [|constructor]. unfold hextet. apply Z.mod_pos_bound. lia.
Qed.

Lemma value_ge hs acc : Forall hextet hs → 0 <= acc →
  acc * 65536 ^ Z.of_nat (length hs) <= value acc hs < (acc + 1) * 65536 ^ Z.of_nat (length hs).
Proof.
  intros Hhs. revert acc. induction Hhs as [|h hs Hh _ IH]; intros acc Hacc; simpl length; [simpl; lia|].
  rewrite Nat2Z.inj_succ, Z.pow_succ_r by lia. simpl. unfold hextet in Hh.
  specialize (IH (acc * 65536 + h) ltac:(lia)).
  pose proof (Z.pow_pos_nonneg 65536 (Z.of_nat (length hs)) ltac:(lia) ltac:(lia)). nia.
Qed.

(** ** Reading what was written *)

Lemma split_concat c ws :
  ws ≠ [] → Forall (λ w, has_char c w = false) ws → split c (String.concat (String c "") ws) = ws.
Proof.
  intros Hne Hws. induction Hws as [|w ws Hw Hws IH]; [done|]. destruct ws as [|v ws].
  - simpl. by apply split_none.
  - change (String.concat (String c "") (w :: v :: ws))
      with (w +:+ String c (String.concat (String c "") (v :: ws))).
    rewrite split_cut, IH by done. done.
Qed.

Lemma run_spec zs : length zs = 8%nat →
  let '(start, len) := longest_run 0 (0, 0)%nat (0, 0)%nat zs in
  (1 < len)%nat → (start + len <= 8)%nat ∧ take len (drop start zs) = replicate len true.
Proof.
  intros Hl. do 9 (destruct zs as [|[] zs]; try discriminate Hl); vm_compute; intros; split; first [lia | done | reflexivity].
Qed.

(** The parts of an address written with a gap between [hs] and [ks]. *)
Definition full_part (h : Z) : option Z * bool := (Some h, false).
Definition edge (hs : list Z) : list (option Z * bool) := match hs with [] => [(None, true)] | _ => [] end.
Definition gap_parts (hs ks : list Z) : list (option Z * bool) :=
  edge hs ++ map full_part hs ++ [(None, true)] ++ map full_part ks ++ edge ks.

Lemma read_gap s hs ks :
  v6_parts s = Some (gap_parts hs ks) → (length hs + length ks <= 6)%nat →
  v6_int s = Some (value (value 0 hs * 65536 ^ Z.of_nat (8 - (length hs + length ks))) ks).
Proof.
  intros Hs Hlen. unfold v6_int. rewrite Hs. clear Hs.
  assert (Hsh : ∀ n k, 0 <= k → Z.shiftl n (16 * k) = n * 65536 ^ k).
  { intros n k Hk. rewrite Z.shiftl_mul_pow2 by lia. rewrite Z.pow_mul_r by lia. done. }
  do 7 (try destruct hs as [|? hs]); simpl in Hlen; try lia.
  all: do 7 (try destruct ks as [|? ks]); simpl in Hlen; try lia.
  all: clear Hlen; csimpl; rewrite Hsh by lia; reflexivity.
Qed.

Lemma read_full s hs :
  v6_parts s = Some (map full_part hs) → length hs = 8%nat → v6_int s = Some (value 0 hs).
Proof.
  intros Hs Hlen. unfold v6_int. rewrite Hs. clear Hs.
  do 9 (destruct hs as [|? hs]; try discriminate Hlen). reflexivity.
Qed.

Definition word_edge (hs : list Z) : list string := match hs with [] => [""] | _ => [] end.
Definition gap_words (hs ks : list Z) : list string :=
  word_edge hs ++ map hextet_str hs ++ [""] ++ map hextet_str ks ++ word_edge ks.

Lemma value_zeros acc k : value acc (replicate k 0) = acc * 65536 ^ Z.of_nat k.
Proof.
  revert acc. induction k as [|k IH]; intros acc; [simpl; lia|].
  rewrite Nat2Z.inj_succ, Z.pow_succ_r by lia. cbn [replicate value foldl]. fold (value (acc * 65536 + 0) (replicate k 0)).
  rewrite IH. lia.
Qed.

(** What is written: every hextet, or those around a run of zeros. *)
Lemma compressed hs : length hs = 8%nat → Forall hextet hs →
  compress_hextets (map hextet_str hs) = map hextet_str hs ∨
  ∃ a k b, hs = a ++ replicate k 0 ++ b ∧ (2 <= k)%nat ∧ compress_hextets (map hextet_str hs) = gap_words a b.
Proof.
  intros Hlen Hhs. unfold compress_hextets.
  assert (Hz : map (String.eqb "0") (map hextet_str hs) = map (λ h, h =? 0) hs).
  { rewrite map_map. apply map_ext_in. intros h Hh%list_elem_of_In. rewrite Forall_forall in Hhs.
    by apply hextet_facts, Hhs. }
  rewrite Hz. pose proof (run_spec (map (λ h, h =? 0) hs)) as Hrun. rewrite length_map in Hrun.
  specialize (Hrun Hlen). destruct (longest_run _ _ _ _) as [start len].
  destruct (Nat.ltb_spec 1 len) as [Hl|]; [right | by left]. destruct (Hrun Hl) as [Hend Hzero].
  exists (take start hs), len, (drop (start + len) hs).
  assert (Hmid : take len (drop start hs) = replicate len 0).
  { apply list_eq. intros i. destruct (decide (i < len)%nat) as [Hi|Hi].
    - assert (Hb : take len (drop start (map (λ h, h =? 0) hs)) !! i = Some true)
        by (rewrite Hzero; by apply lookup_replicate_2).
      rewrite lookup_take_lt, lookup_drop in Hb by done. rewrite lookup_take_lt, lookup_drop by done.
      rewrite lookup_replicate_2 by done. change (map (λ h, h =? 0) hs) with ((λ h, h =? 0) <$> hs) in Hb.
      rewrite list_lookup_fmap in Hb. destruct (hs !! (start + i)%nat) as [h|]; [|done].
      injection Hb as Hb%Z.eqb_eq. by rewrite Hb.
    - rewrite !lookup_ge_None_2; [done|rewrite length_replicate; lia|rewrite length_take; lia]. }
  split; [by rewrite <- Hmid, <- drop_drop, !take_drop|]. split; [lia|].
  unfold gap_words. rewrite length_map, Hlen, <- !firstn_map, <- !skipn_map.
  assert (Hs : word_edge (take start hs) = if Nat.eqb start 0 then [""] else []).
  { destruct start; [done|]. by destruct hs. }
  assert (He : word_edge (drop (start + len) hs) = if Nat.eqb (start + len) 8 then [""] else []).
  { pose proof (length_drop hs (start + len)) as Hd. rewrite Hlen in Hd.
    destruct (Nat.eqb_spec (start + len) 8) as [H8|H8]; destruct (drop (start + len) hs); cbn [length word_edge] in *; done || lia. }
  by rewrite Hs, He.
Qed.

Lemma word_chars hs : Forall hextet hs → Forall (λ w, all_of is_hex w = true ∧ (String.length w <= 4)%nat) (map hextet_str hs).
Proof. intros H. apply Forall_map. eapply Forall_impl; [exact H|]. intros h Hh. split; by apply hextet_facts. Qed.

Lemma part_words hs : Forall hextet hs → map part (map hextet_str hs) = map full_part hs.
Proof.
  intros H. rewrite map_map. apply map_ext_in. intros h Hh%list_elem_of_In. rewrite Forall_forall in H.
  by apply hextet_facts, H.
Qed.

(** Words of hexadecimal digits, joined by colons. *)
Definition hex_word (w : string) : Prop := all_of is_hex w = true ∧ (String.length w <= 4)%nat.

Lemma parts_of_words ws :
  Forall hex_word ws → (3 <= length ws)%nat → v6_parts (String.concat ":" ws) = Some (map part ws).
Proof.
  intros Hws Hlen. unfold v6_parts. change ":"%string with (String ":" "") at 1.
  rewrite split_concat; [|intros ->; simpl in Hlen; lia|eapply Forall_impl; [exact Hws|]; intros w [Hw _]; by apply (has_char_of is_hex)].
  cbv zeta. assert ((length ws <? 3)%nat = false) as -> by (by apply Nat.ltb_ge).
  destruct (last ws) as [w|] eqn:Hlast; [|apply last_None in Hlast as ->; simpl in Hlen; lia].
  apply last_Some_elem_of in Hlast. rewrite Forall_forall in Hws. destruct (Hws w Hlast) as [Hw _].
  simpl. by rewrite (has_char_of is_hex).
Qed.

Definition v6_char (c : ascii) : bool := is_hex c || Ascii.eqb c ":".

Lemma str_length_app s t : String.length (s +:+ t) = (String.length s + String.length t)%nat.
Proof. induction s as [|a s IH]; [done|]. rewrite app_cons. simpl. by rewrite IH. Qed.

Lemma concat_words ws : Forall hex_word ws → ws ≠ [] →
  all_of v6_char (String.concat ":" ws) = true ∧
  (String.length (String.concat ":" ws) < sum_list_with (λ w, S (String.length w)) ws)%nat.
Proof.
  induction 1 as [|w ws [Hw Hl] Hws IH]; [done|]. intros _.
  assert (Hw' : all_of v6_char w = true).
  { apply (all_of_mono is_hex); [|done]. intros c Hc. unfold v6_char. by rewrite Hc. }
  destruct ws as [|v ws]; [simpl; split; [done|lia]|]. destruct (IH ltac:(done)) as [IHc IHl].
  change (String.concat ":" (w :: v :: ws)) with (w +:+ String ":" (String.concat ":" (v :: ws))).
  rewrite all_of_app, Hw', str_length_app. cbn [all_of String.length]. rewrite IHc.
  split; [done|]. cbn [sum_list_with] in *. lia.
Qed.

Lemma word_sum hs : Forall hextet hs →
  (sum_list_with (λ w, S (String.length w)) (map hextet_str hs) <= 5 * length hs)%nat.
Proof.
  induction 1 as [|h hs Hh _ IH]; [done|]. destruct (hextet_facts h Hh) as (_ & _ & Hl & _).
  cbn [map sum_list_with length]. lia.
Qed.

Definition empty_word : hex_word "" := conj eq_refl (Nat.le_0_l 4).

Lemma gap_words_ok hs ks : Forall hextet hs → Forall hextet ks →
  Forall hex_word (gap_words hs ks) ∧ map part (gap_words hs ks) = gap_parts hs ks ∧
  (3 <= length (gap_words hs ks))%nat ∧
  (sum_list_with (λ w, S (String.length w)) (gap_words hs ks) <= 5 * (length hs + length ks) + 3)%nat.
Proof.
  intros Hhs Hks. unfold gap_words, gap_parts.
  assert (Hedge : ∀ l, Forall hex_word (word_edge l)).
  { intros []; repeat constructor; apply empty_word. }
  split_and!.
  - rewrite !Forall_app. split_and!; auto using word_chars. constructor; [apply empty_word|constructor].
  - rewrite !map_app, !part_words by done. by destruct hs, ks.
  - rewrite !length_app, !length_map. destruct hs, ks; simpl; lia.
  - rewrite !sum_list_with_app. pose proof (word_sum hs Hhs). pose proof (word_sum ks Hks).
    destruct hs, ks; cbn [word_edge sum_list_with String.length] in *; lia.
Qed.

(** The text of an IPv6 address: what it reads as, its characters, its length. *)
Lemma v6_written n : 0 <= n < 2 ^ 128 →
  v6_int (v6_str n) = Some n ∧ all_of v6_char (v6_str n) = true ∧ (String.length (v6_str n) <= 39)%nat.
Proof.
  intros Hn. unfold v6_str. set (hs := hextets_of 8 n).
  assert (Hlen : length hs = 8%nat) by apply length_hextets.
  assert (Hhs : Forall hextet hs) by apply hextets_bound.
  assert (Hval : value 0 hs = n).
  { unfold hs. rewrite value_hextets. change (65536 ^ Z.of_nat 8) with (2 ^ 128). by rewrite Z.mod_small by lia. }
  destruct (compressed hs Hlen Hhs) as [->|(a & k & b & Hab & Hk & ->)].
  - pose proof (word_chars hs Hhs) as Hw. pose proof (word_sum hs Hhs) as Hsum.
    destruct (concat_words _ Hw) as [Hc Hl]; [by destruct hs|]. split_and!; [|done|lia].
    rewrite (read_full _ hs); [by rewrite Hval| |done].
    rewrite parts_of_words, part_words by (done || (rewrite length_map; lia)). done.
  - assert (Hab' : (length a + k + length b = 8)%nat).
    { rewrite <- Hlen, Hab, !length_app, length_replicate. lia. }
    rewrite Hab in Hhs. apply Forall_app in Hhs as [Ha [_ Hb]%Forall_app].
    destruct (gap_words_ok a b Ha Hb) as (Hw & Hp & H3 & Hsum).
    destruct (concat_words _ Hw) as [Hc Hl]; [intros He; rewrite He in H3; simpl in H3; lia|].
    split_and!; [|done|lia].
    rewrite (read_gap _ a b) by (lia || (rewrite parts_of_words, Hp; done)).
    f_equal. rewrite <- Hval, Hab, !value_app, value_zeros. do 4 f_equal. lia.
Qed.

(** ** The range of what is read *)

Lemma int_of_bound base s acc :
  1 < base → all_of (λ c, (0 <=? hex_val c) && (hex_val c <? base)) s = true → 0 <= acc →
  0 <= int_of base acc s < (acc + 1) * base ^ Z.of_nat (String.length s).
Proof.
  intros Hb. revert acc. induction s as [|c s IH]; intros acc; [simpl; lia|].
  cbn [all_of int_of String.length]. intros [Hc Hs]%andb_true_iff Hacc. passed.
  destruct (IH (acc * base + hex_val c) Hs ltac:(nia)) as [Hge Hlt]. split; [done|].
  rewrite Nat2Z.inj_succ, Z.pow_succ_r by lia.
  pose proof (Z.pow_pos_nonneg base (Z.of_nat (String.length s)) ltac:(lia) ltac:(lia)). nia.
Qed.

Lemma hex_val_bound c : is_hex c = true → (0 <=? hex_val c) && (hex_val c <? 16) = true.
Proof.
  unfold is_hex, hex_val, is_digit, between. intros H. rewrite andb_true_iff, Z.leb_le, Z.ltb_lt.
  destruct (_ && _) eqn:Hd; [passed; lia|]. destruct ((65 <=? _) && _) eqn:Hu; simpl in H; passed; lia.
Qed.

Lemma digit_val_bound c : is_digit c = true → (0 <=? hex_val c) && (hex_val c <? 10) = true.
Proof.
  intros Hd. unfold hex_val. rewrite Hd. unfold is_digit, between in Hd. passed.
  rewrite andb_true_iff, Z.leb_le, Z.ltb_lt. lia.
Qed.

Lemma hextet_range s n : parse_hextet s = Some n → hextet n.
Proof.
  unfold parse_hextet. destruct (_ || _) eqn:Hg; [done|]. intros [= <-].
  apply orb_false_iff in Hg as [[_ Hh%negb_false_iff]%orb_false_iff Hl%Nat.ltb_ge].
  apply (all_of_mono _ _ _ hex_val_bound) in Hh.
  destruct (int_of_bound 16 s 0 ltac:(lia) Hh ltac:(lia)) as [H0 H1]. unfold hextet.
  assert (16 ^ Z.of_nat (String.length s) <= 16 ^ 4) by (apply Z.pow_le_mono_r; lia). lia.
Qed.

Lemma octet_range s n : parse_octet s = Some n → 0 <= n < 256.
Proof.
  unfold parse_octet. destruct (_ || _) eqn:Hg; [done|]. cbv zeta. destruct (Z.ltb_spec 255 (int_of 10 0 s)); [done|].
  intros [= <-]. apply orb_false_iff in Hg as [[[_ Hh%negb_false_iff]%orb_false_iff _]%orb_false_iff _].
  apply (all_of_mono _ _ _ digit_val_bound) in Hh.
  destruct (int_of_bound 10 s 0 ltac:(lia) Hh ltac:(lia)). lia.
Qed.

Lemma v4_range s n : parse_v4 s = Some n → ∃ a b c d,
  n = quad a b c d ∧ 0 <= a < 256 ∧ 0 <= b < 256 ∧ 0 <= c < 256 ∧ 0 <= d < 256.
Proof.
  unfold parse_v4. destruct (split "." s) as [|sa [|sb [|sc [|sd [|]]]]]; simpl; repeat case_match; try done.
  intros [= <-]. eexists _, _, _, _. split; [reflexivity|]. split_and!; eapply octet_range; eassumption.
Qed.

Definition part_ok (p : option Z * bool) : Prop := ∀ m, p.1 = Some m → hextet m.

Lemma hextets_range ps acc n : Forall part_ok ps → 0 <= acc → hextets acc ps = Some n →
  0 <= n < (acc + 1) * 65536 ^ Z.of_nat (length ps).
Proof.
  intros Hps. revert acc. induction Hps as [|[v e] ps Hp _ IH]; intros acc Hacc; [intros [= <-]; simpl; lia|].
  cbn [hextets length]. destruct v as [m|]; [|done]. cbn [mbind option_bind].
  specialize (Hp m eq_refl). unfold hextet in Hp. intros Hn.
  apply IH in Hn; [|lia]. rewrite Nat2Z.inj_succ, Z.pow_succ_r by lia.
  pose proof (Z.pow_pos_nonneg 65536 (Z.of_nat (length ps)) ltac:(lia) ltac:(lia)). nia.
Qed.

Lemma parts_range s ps : v6_parts s = Some ps → Forall part_ok ps.
Proof.
  unfold v6_parts. destruct (_ <? 3)%nat; [done|]. cbv zeta.
  assert (Hp : ∀ ws, Forall part_ok (map part ws)).
  { intros ws. apply Forall_map, Forall_true. intros w m Hm. by apply (hextet_range w). }
  destruct (has_char _ _); [|by intros [= <-]].
  destruct (parse_v4 _) as [n|] eqn:Hn; [|done]. cbn [mbind option_bind]. intros [= <-].
  apply v4_range in Hn as (a & b & c & d & -> & Ha & Hb & Hc & Hd). apply Forall_app. split; [done|].
  unfold quad. apply Forall_cons_2; [|apply Forall_cons_2; [|constructor]]; intros m [= <-]; unfold hextet.
  - rewrite Z.shiftr_div_pow2 by lia. change (2 ^ 16) with 65536. div_facts (((a * 256 + b) * 256 + c) * 256 + d) 65536. lia.
  - by apply Z.mod_pos_bound.
Qed.

Lemma v6_range s n : v6_int s = Some n → 0 <= n < 2 ^ 128.
Proof.
  unfold v6_int. destruct (v6_parts s) as [ps|] eqn:Hps; [|done]. cbn [mbind option_bind].
  apply parts_range in Hps. cbv zeta. destruct (9 <? _)%nat; [done|].
  destruct (List.filter _ _) as [|skip [|]]; [| |done].
  - destruct (Nat.eqb_spec (length ps) 8) as [H8|]; [|done]. destruct (_ || _); [done|]. intros Hn.
    apply hextets_range in Hn; [|done|lia]. rewrite H8 in Hn. change (65536 ^ Z.of_nat 8) with (2 ^ 128) in Hn. lia.
  - set (hi := if default false (empty_part <$> head ps) then _ else _).
    set (lo := if default false (empty_part <$> last ps) then _ else _).
    destruct (_ || _) eqn:Hg; [done|]. apply orb_false_iff in Hg as [_ Hg%Nat.ltb_ge].
    destruct (hextets 0 (take hi ps)) as [m|] eqn:Hm; [|done]. cbn [mbind option_bind]. intros Hn.
    apply hextets_range in Hm; [|by apply Forall_take|lia].
    rewrite Z.shiftl_mul_pow2 in Hn by lia.
    replace (2 ^ (16 * Z.of_nat (8 - (hi + lo)))) with (65536 ^ Z.of_nat (8 - (hi + lo))) in Hn
      by (rewrite Z.pow_mul_r by lia; done).
    pose proof (Z.pow_pos_nonneg 65536 (Z.of_nat (8 - (hi + lo))) ltac:(lia) ltac:(lia)) as Hk.
    apply hextets_range in Hn; [|by apply Forall_drop|nia].
    assert (65536 ^ Z.of_nat (length (take hi ps)) <= 65536 ^ Z.of_nat hi)
      by (apply Z.pow_le_mono_r; [lia|rewrite length_take; lia]).
    assert (65536 ^ Z.of_nat (length (drop (length ps - lo) ps)) <= 65536 ^ Z.of_nat lo)
      by (apply Z.pow_le_mono_r; [lia|rewrite length_drop; lia]).
    assert (H128 : 65536 ^ Z.of_nat hi * 65536 ^ Z.of_nat (8 - (hi + lo)) * 65536 ^ Z.of_nat lo = 2 ^ 128).
    { rewrite <- !Z.pow_add_r by lia. replace (_ + _ + _) with 8 by lia. done. }
    pose proof (Z.pow_pos_nonneg 65536 (Z.of_nat lo) ltac:(lia) ltac:(lia)).
    split; [lia|]. rewrite <- H128. eapply Z.lt_le_trans; [apply Hn|].
    apply Z.mul_le_mono_nonneg; [nia|nia|lia|done].
Qed.

(** ** The stored address *)

(** What [ip_address] accepts, and its scope. *)
Definition ip_ok (a : ip) : Prop :=
  match a with IPv4Address n => 0 <= n < 2 ^ 32 | IPv6Address n => 0 <= n < 2 ^ 128 end.

Lemma ip_range s a : ip_address s = Some a → ip_ok a.
Proof.
  unfold ip_address. destruct (has_char _ _); [done|]. destruct (parse_v4 s) as [n|] eqn:Hn.
  - intros [= <-]. apply v4_range in Hn as (a & b & c & d & -> & Ha & Hb & Hc & Hd). simpl. unfold quad. lia.
  - unfold parse_v6. destruct (partition "%" s) as [[addr sep] scope]. destruct (_ && _); [done|].
    destruct (v6_int addr) as [n|] eqn:Hv; [|done]. intros [= <-]. by apply v6_range in Hv.
Qed.

Lemma partition_cut c s t : has_char c s = false → partition c (s +:+ String c t) = (s, true, t).
Proof.
  induction s as [|a s IH]; [simpl; by rewrite Ascii.eqb_refl|]. rewrite has_char_cons, app_cons. simpl.
  intros [Ha Hs]%orb_false_iff. by rewrite Ha, IH.
Qed.

(** A scope that a written address can carry. *)
Definition scope_ok (scope : string) : Prop := has_char "%" scope = false ∧ has_char "/" scope = false.

Lemma v4_reads n : 0 <= n < 2 ^ 32 → ip_address (v4_str n) = Some (IPv4Address n) ∧ all_of host_char (v4_str n) = true.
Proof.
  intros Hn. unfold v4_str. div_facts n 16777216. div_facts n 65536. div_facts n 256.
  div_facts (n / 65536) 256. div_facts (n / 256) 256.
  assert (n / 65536 / 256 = n / 16777216) by (by rewrite Z.div_div by lia).
  assert (n / 256 / 256 = n / 65536) by (by rewrite Z.div_div by lia).
  rewrite dotted_address, dotted_chars by lia. split; [|done]. do 2 f_equal. unfold quad. lia.
Qed.

Lemma v6_has n c : 0 <= n < 2 ^ 128 → v6_char c = false → has_char c (v6_str n) = false.
Proof. intros Hn Hc. apply (has_char_of v6_char); [by apply v6_written|done]. Qed.

Lemma has_char_app c s t : has_char c (s +:+ t) = has_char c s || has_char c t.
Proof. induction s as [|a s IH]; [done|]. by rewrite app_cons, !has_char_cons, IH, orb_assoc. Qed.

Lemma has_char_split c d s :
  c ≠ d → has_char c s = true → Exists (λ w, has_char c w = true) (split d s).
Proof.
  intros Hcd. induction s as [|a s IH]; [done|]. rewrite has_char_cons. cbn [split]. intros Hs.
  destruct (Ascii.eqb_spec a d) as [->|Had].
  - apply Exists_cons_tl, IH. destruct (Ascii.eqb_spec d c); [congruence|done].
  - apply orb_true_iff in Hs as [Ha|Hs].
    + destruct (split d s); apply Exists_cons_hd; by rewrite has_char_cons, Ha.
    + destruct (split d s) as [|w ws] eqn:Hw; [by specialize (IH Hs); inversion IH|].
      specialize (IH Hs). inversion IH as [? ? Hh|? ? Ht]; subst; [|by apply Exists_cons_tl].
      apply Exists_cons_hd. rewrite has_char_cons, Hh. apply orb_true_r.
Qed.

(** Only digits and dots are in a dotted address. *)
Lemma no_v4 c s : is_digit c = false → c ≠ "."%char → has_char c s = true → parse_v4 s = None.
Proof.
  intros Hc Hdot Hs. unfold parse_v4. apply (has_char_split _ "."%char) in Hs; [|done].
  assert (Hnone : Exists (λ o, o = None) (map parse_octet (split "." s))).
  { apply Exists_fmap. eapply Exists_impl; [exact Hs|]. intros w Hw. simpl in *. unfold parse_octet.
    assert (all_of is_digit w = false) as ->; [|by rewrite !orb_true_r].
    apply not_true_iff_false. intros Hd. by rewrite (has_char_of is_digit) in Hw. }
  destruct (map _ _) as [|oa [|ob [|oc [|od [|]]]]]; try done; repeat case_match; try done.
  all: subst; repeat (inversion_clear Hnone as [? ? Hx|? ? Hnone']; [done|rename Hnone' into Hnone]);
    inversion Hnone.
Qed.

Lemma v6_colon n : 0 <= n < 2 ^ 128 → has_char ":" (v6_str n) = true.
Proof.
  intros Hn. destruct (v6_written n Hn) as (Hr & _ & _). apply not_false_iff_true. intros Hc.
  unfold v6_int, v6_parts in Hr. by rewrite split_none in Hr.
Qed.

(** Reading back what was written. *)
Lemma ip_roundtrip a scope : ip_ok a → scope_ok scope → (∀ n, a = IPv4Address n → scope = "") →
  ip_address (ip_str a scope) = Some a ∧ scope_id (ip_str a scope) = scope.
Proof.
  intros Ha [Hs1 Hs2] Hv4. destruct a as [n|n]; simpl in Ha.
  - specialize (Hv4 n eq_refl) as ->. destruct (v4_reads n Ha) as [Hr Hc]. split; [done|].
    unfold scope_id. simpl. by rewrite partition_none by (by apply (has_char_of host_char)).
  - unfold ip_str. assert (Hper := v6_has n "%" Ha eq_refl). assert (Hsl := v6_has n "/" Ha eq_refl).
    destruct (v6_written n Ha) as (Hr & _ & _). pose proof (v6_colon n Ha) as Hcol.
    unfold ip_address, scope_id, parse_v6. destruct (String.eqb_spec scope "") as [->|Hne].
    + rewrite Hsl, (no_v4 ":"), partition_none by done. simpl. by rewrite Hr.
    + rewrite has_char_app, has_char_cons, Hsl, Hs2. change (Ascii.eqb "%" "/") with false. simpl orb. cbv iota.
      rewrite (no_v4 ":"), partition_cut by (done || by rewrite has_char_app, Hcol). cbv beta iota zeta.
      apply String.eqb_neq in Hne. rewrite Hne, Hs1. simpl. by rewrite Hr.
Qed.

Lemma partition_spec c s :
  let '(b, found, a) := partition c s in if found then s = b +:+ String c a else s = b ∧ a = "".
Proof.
  induction s as [|x s IH]; [done|]. simpl. destruct (Ascii.eqb_spec x c) as [->|]; [done|].
  destruct (partition c s) as [[b []] a]; simpl in *; [by rewrite app_cons, <- IH|]. by destruct IH as [-> ->].
Qed.

Lemma read_scope s a : ip_address s = Some a →
  scope_ok (scope_id s) ∧ (∀ n, a = IPv4Address n → scope_id s = "") ∧
  (scope_id s = "" ∨ ∃ b, s = b +:+ String "%" (scope_id s)).
Proof.
  unfold ip_address. destruct (has_char "/" s) eqn:Hsl; [done|]. unfold scope_id, parse_v6, scope_ok.
  pose proof (partition_spec "%" s) as Hp. destruct (partition "%" s) as [[b []] sc]; cbn [snd].
  - rewrite (no_v4 "%") by (done || by rewrite Hp, has_char_app, has_char_cons, orb_true_r).
    simpl. destruct (_ || _) eqn:Hg; [done|]. apply orb_false_iff in Hg as [_ Hg].
    destruct (v6_int b); [|done]. intros [= <-]. rewrite Hp, has_char_app, has_char_cons in Hsl.
    apply orb_false_iff in Hsl as [_ [_ Hsl]%orb_false_iff]. split_and!; [done..|]. right. by exists b.
  - destruct Hp as [_ ->]. intros _. split_and!; [done..|by left].
Qed.

(** Text without white space at its ends. *)
Definition tight (s : string) : Prop := lstrip s = s ∧ lstrip (String.rev s) = String.rev s.

Lemma strip_id s : tight s → strip s = s.
Proof. intros [H1 H2]. unfold strip. by rewrite H1, H2, rev_involutive. Qed.

Lemma lstrip_head c s : is_space c = false → lstrip (String c s) = String c s.
Proof. intros Hc. simpl. by rewrite Hc. Qed.

Lemma lstrip_cut s : (∃ p, s = p +:+ lstrip s) ∧ (lstrip s = "" ∨ ∃ c t, lstrip s = String c t ∧ is_space c = false).
Proof.
  induction s as [|c s [[p Hp] IH]]; [split; [by exists ""|by left]|]. simpl. destruct (is_space c) eqn:Hc.
  - split; [|done]. exists (String c p). by rewrite app_cons, <- Hp.
  - split; [by exists ""|]. right. by exists c, s.
Qed.

Lemma lstrip_twice s : lstrip (lstrip s) = lstrip s.
Proof. destruct (lstrip_cut s) as [_ [->|(c & t & -> & Hc)]]; [done|]. by apply lstrip_head. Qed.

Lemma strip_tight s : tight (strip s).
Proof.
  unfold strip. split; [|by rewrite rev_involutive, lstrip_twice].
  destruct (lstrip_cut (String.rev (lstrip s))) as [[p Hp] _].
  set (t := lstrip (String.rev (lstrip s))) in *. destruct (lstrip_cut s) as [_ [H0|(c & u & Hu & Hc)]].
  - unfold t. by rewrite H0.
  - assert (Hs : lstrip s = String.rev t +:+ String.rev p).
    { by rewrite <- rev_app, <- Hp, rev_involutive. }
    rewrite Hu in Hs. destruct (String.rev t) as [|x r]; [done|]. rewrite app_cons in Hs.
    injection Hs as <- _. by apply lstrip_head.
Qed.

Definition no_space (s : string) : Prop := all_of (λ c, negb (is_space c)) s = true.

Lemma lstrip_no_space s t : no_space s → s ≠ "" → lstrip (s +:+ t) = s +:+ t.
Proof.
  unfold no_space. destruct s as [|c s]; [done|]. simpl. intros [Hc%negb_true_iff _]%andb_true_iff _.
  rewrite app_cons. by apply lstrip_head.
Qed.

Lemma tight_no_space s : no_space s → tight s.
Proof.
  intros Hs. destruct (String.eqb_spec s "") as [->|Hne]; [done|]. split.
  - rewrite <- (str_app_nil s). by apply lstrip_no_space.
  - rewrite <- (str_app_nil (String.rev s)). apply lstrip_no_space; [unfold no_space; by rewrite all_of_rev|].
    intros H. apply Hne. by rewrite <- (rev_involutive s), H.
Qed.

(** A scope keeps the end it had. *)
Lemma lstrip_rev_end b s t :
  s ≠ "" → lstrip (String.rev (b +:+ s)) = String.rev (b +:+ s) → lstrip (String.rev (t +:+ s)) = String.rev (t +:+ s).
Proof.
  intros Hs. rewrite !rev_app. destruct (String.rev s) as [|c r] eqn:Hr.
  { destruct Hs. by rewrite <- (rev_involutive s), Hr. }
  rewrite !app_cons. intros Hb. destruct (is_space c) eqn:Hc; [|by apply lstrip_head].
  exfalso. destruct (lstrip_cut (String c (r +:+ String.rev b))) as [_ [H0|(x & u & Hu & Hx)]].
  - by rewrite Hb in H0.
  - rewrite Hb in Hu. injection Hu as -> _. congruence.
Qed.

Definition address_char (c : ascii) : bool := is_alnum c || bool_decide (code c ∈ [45; 46; 58]).

Lemma is_space_code c : is_space c = ((9 <=? code c) && (code c <=? 13)) || ((28 <=? code c) && (code c <=? 32)).
Proof.
  unfold is_space, code. set (n := Ascii.nat_of_ascii c).
  apply Bool.eq_iff_eq_true. rewrite !orb_true_iff, !andb_true_iff, !Nat.leb_le, !Z.leb_le. lia.
Qed.

Lemma address_no_space s : all_of address_char s = true → no_space s.
Proof.
  apply all_of_mono. intros c Hc. rewrite is_space_code. unfold address_char, is_alnum, is_alpha, is_digit, between in Hc.
  rewrite !orb_true_iff, !andb_true_iff, !Z.leb_le, bool_decide_eq_true, !elem_of_cons, elem_of_nil in Hc.
  apply negb_true_iff, not_true_iff_false. rewrite orb_true_iff, !andb_true_iff, !Z.leb_le. lia.
Qed.

Lemma octet_length n : 0 <= n < 256 → (String.length (octet n) <= 3)%nat.
Proof.
  intros Hn. destruct (octet_facts n Hn) as [Ho _]. unfold parse_octet in Ho.
  destruct (3 <? String.length (octet n))%nat eqn:Hl; [|by apply Nat.ltb_ge].
  by rewrite orb_true_r in Ho.
Qed.

Lemma host_address c : host_char c = true → address_char c = true.
Proof.
  unfold host_char, address_char, is_alnum. intros [->|Hd%Ascii.eqb_eq]%orb_true_iff; [by rewrite orb_true_r|by subst].
Qed.

Lemma v6_address c : v6_char c = true → address_char c = true.
Proof.
  unfold v6_char, address_char, is_alnum, is_hex, is_alpha, is_digit, between.
  intros [H|H%Ascii.eqb_eq]%orb_true_iff; [|by subst].
  rewrite !orb_true_iff, !andb_true_iff, !Z.leb_le in *. lia.
Qed.

Lemma hostname_address c : hostname_char c = true → address_char c = true.
Proof.
  unfold hostname_char, address_char. intros [->|H%bool_decide_eq_true]%orb_true_iff; [done|].
  apply orb_true_iff. right. apply bool_decide_eq_true. set_solver.
Qed.

(** The characters of a written address without a scope, and its length. *)
Lemma ip_text a : ip_ok a → all_of address_char (ip_str a "") = true ∧ (String.length (ip_str a "") <= 45)%nat.
Proof.
  destruct a as [n|n]; simpl; intros Hn.
  - destruct (v4_reads n Hn) as [_ Hc]. split; [by eapply all_of_mono; [apply host_address|]|].
    unfold v4_str, dotted. rewrite !str_length_app. cbn [String.length]. rewrite !str_length_app. cbn [String.length].
    rewrite !str_length_app. cbn [String.length]. div_facts n 256. div_facts (n / 65536) 256. div_facts (n / 256) 256.
    div_facts n 16777216.
    pose proof (octet_length (n / 16777216) ltac:(lia)). pose proof (octet_length (n / 65536 mod 256) ltac:(lia)).
    pose proof (octet_length (n / 256 mod 256) ltac:(lia)). pose proof (octet_length (n mod 256) ltac:(lia)). lia.
  - destruct (v6_written n Hn) as (_ & Hc & Hl). split; [by eapply all_of_mono; [apply v6_address|]|lia].
Qed.

Lemma ip_tight s a : tight s → ip_address s = Some a → tight (ip_str a (scope_id s)).
Proof.
  intros [_ Hend] Ha. destruct (read_scope s a Ha) as (_ & Hv4 & Hcut). pose proof (ip_range s a Ha) as Hok.
  destruct (String.eqb_spec (scope_id s) "") as [He|Hne].
  { rewrite He. by apply tight_no_space, address_no_space, ip_text. }
  destruct Hcut as [|[b Hb]]; [done|]. destruct a as [n|n]; [by specialize (Hv4 n eq_refl)|].
  unfold ip_str. apply String.eqb_neq in Hne as Heq. rewrite Heq.
  destruct (v6_written n Hok) as (_ & Hc & _). pose proof (v6_colon n Hok) as Hcol. split.
  - apply lstrip_no_space; [|by intros H; rewrite H in Hcol].
    by apply address_no_space; eapply all_of_mono; [apply v6_address|].
  - rewrite Hb in Hend. change (String "%" ?x) with ("%" +:+ x) in *. rewrite <- str_app_assoc in Hend |- *.
    by apply (lstrip_rev_end (b +:+ "%")).
Qed.

(** C24: what is stored is a spelling the check accepts unchanged, of the address that
    was typed; it holds no slash, so no path and no scheme; and without a scope it
    is letters, digits, dots, dashes and colons, and fits its column. *)
Theorem local_ip_correct v c :
  validate_local_ip v = Some c →
  validate_local_ip c = Some c ∧ ip_address c = ip_address (strip v) ∧ has_char "/" c = false ∧
  (has_char "%" c = false → all_of address_char c = true ∧ (String.length c <= 45)%nat).
Proof.
  unfold validate_local_ip at 1. cbv zeta. pose proof (strip_tight v) as Ht. set (s := strip v) in *.
  destruct (String.eqb_spec s "") as [|Hne]; [done|]. destruct (ip_address s) as [a|] eqn:Ha.
  - intros [= <-]. destruct (read_scope s a Ha) as (Hsc & Hv4 & _). pose proof (ip_range s a Ha) as Hok.
    destruct (ip_roundtrip a (scope_id s) Hok Hsc Hv4) as [Hr Hsid].
    unfold validate_local_ip. rewrite (strip_id _ (ip_tight s a Ht Ha)), Hr, Hsid.
    destruct (String.eqb_spec (ip_str a (scope_id s)) "") as [He|_]; [by rewrite He in Hr|].
    split_and!; [done..| |].
    + apply not_true_iff_false. intros Hsl. unfold ip_address in Hr. by rewrite Hsl in Hr.
    + intros Hper. assert (Hno : scope_id s = "").
      { rewrite <- Hsid. unfold scope_id at 1. by rewrite partition_none. }
      rewrite Hno. by apply ip_text.
  - destruct (hostname_re s) eqn:Hh; [|done]. intros [= <-].
    unfold validate_local_ip. rewrite (strip_id s Ht), Ha, Hh.
    destruct (String.eqb_spec s "") as [|_]; [done|].
    unfold hostname_re in Hh. apply andb_true_iff in Hh as [[[Hc Hl%Nat.leb_le]%andb_true_iff _]%andb_true_iff _].
    assert (Hadd : all_of address_char s = true) by (by eapply all_of_mono; [apply hostname_address|]).
    split_and!; [done..|by apply (has_char_of address_char)|done].
Qed.

(** What a scope lets through: white space, quotes and line breaks within it, which
    the comment above the expression for host names says are rejected, and a text
    one character longer than its column. *)
Theorem scopes_pass :
  validate_local_ip "fe80::1%a b" = Some "fe80::1%a b"%string ∧
  validate_local_ip ("fe80::1%" +:+ String "034" (String "010" "x")) = Some ("fe80::1%" +:+ String "034" (String "010" "x")) ∧
  (let typed := "1111::3333:4444:5555:6666:7777:8888%abcdefghi"%string in
   String.length typed = 45%nat ∧ String.length <$> validate_local_ip typed = Some 46%nat).
Proof. vm_compute. split_and!; reflexivity. Qed.

Lemma has_char_rev c s : has_char c (String.rev s) = has_char c s.
Proof.
  induction s as [|a s IH]; [done|]. rewrite rev_cons, has_char_app, IH, !has_char_cons.
  change (has_char c "") with false. by rewrite orb_false_r, orb_comm.
Qed.

Lemma has_char_strip c s : has_char c s = false → has_char c (strip s) = false.
Proof.
  assert (Hl : ∀ t, has_char c t = false → has_char c (lstrip t) = false).
  { intros t Ht. destruct (lstrip_cut t) as [[p Hp] _]. rewrite Hp, has_char_app in Ht.
    by apply orb_false_iff in Ht as [_ ?]. }
  intros Hs. unfold strip. rewrite has_char_rev. apply Hl. rewrite has_char_rev. by apply Hl.
Qed.

(** An address typed without a scope fits its column. *)
Lemma unscoped_fits v c :
  validate_local_ip v = Some c → has_char "%" v = false → (String.length c <= 45)%nat.
Proof.
  intros Hc Hv. pose proof (has_char_strip _ _ Hv) as Hs. revert Hc. unfold validate_local_ip. cbv zeta.
  destruct (String.eqb (strip v) ""); [done|]. destruct (ip_address (strip v)) as [a|] eqn:Ha.
  - intros [= <-]. unfold scope_id. rewrite partition_none by done. apply ip_text. by eapply ip_range.
  - destruct (hostname_re (strip v)) eqn:Hh; [|done]. intros [= <-]. unfold hostname_re in Hh.
    by apply andb_true_iff in Hh as [[[_ Hl%Nat.leb_le]%andb_true_iff _]%andb_true_iff _].
Qed.
