(* ===== verification/Workspace.v ===== *)
(** * routers/cpo/_profile.py, _events.py, _reservations.py; push subscriptions

    How a driver becomes an operator, the settings of a tenant, its alerts, its
    gateways' log lines and its bookings, and the browsers a user is notified in
    (routers/notifications.py; the notifications themselves are effects).  A
    paginated list is the size of the whole and a page of it.  The times at
    which alerts were stored, which only their list reads, are an argument.  The
    list of audit rows is left. *)

From stdpp Require Import sorting.
From S2P Require Import Prelude Rounding PyNum Money Models Config TelemetryStore World Hoare.
From S2P Require Import PyString PyJson Auth Caps Reservations Lifecycle Accounts Payouts Tariffs.
From S2P Require Import Groups Plugs Fleet PushGuard.

(** schemas.py: CpoProfileUpdateRequest. *)
Record CpoProfileUpdateRequest := mkprofile_update {
  pr_queued_charging_enabled : option bool;
  pr_auto_start_delay_min : option Z;
  pr_queue_ttl_min : option Z;
  pr_gstin : option string;
  pr_legal_name : option string;
  pr_invoice_prefix : option string }.

(** [ReservationStatus(value)]. *)
Definition reservation_status_of (s : string) : option ReservationStatus :=
  if String.eqb s "booked" then Some BOOKED
  else if String.eqb s "cancelled" then Some RES_CANCELLED
  else if String.eqb s "fulfilled" then Some FULFILLED
  else if String.eqb s "expired" then Some EXPIRED
  else None.

Section Workspace.
Context `{cfg : Config}.
Implicit Types (d : db) (user : User.t) (now uid : Z).

(** ** POST /api/cpo/setup *)

Definition named (name : string) (t : Tenant.t) : bool := String.eqb (Tenant.name t) name.

(** The columns' defaults. *)
Definition new_tenant (name : string) : Tenant.t :=
  Tenant.mk name None None None None 1 "Asia/Kolkata" false 2 720.

(** What the request reads and decides ... *)
Definition setup_check user (tenant_name : string) : M unit :=
  refuse (bool_decide (is_Some (User.tenant_id user))) 400
    "You are already associated with a tenant. Cannot create another.";;
  rows ← query (λ d, select (λ _, named tenant_name) (tenants d));
  existing ← one_or_none rows;
  refuse (bool_decide (is_Some existing)) 400 "A tenant with the name already exists.".

(** [tenants.name] is UNIQUE. *)
Definition insert_tenant (tenant_name : string) : M Z :=
  clash ← query (λ d, exists_row (λ _, named tenant_name) (tenants d));
  when clash (raise IntegrityError);;
  i ← fresh;
  modify (λ d, d <| tenants ::= <[i := new_tenant tenant_name]> |>);;
  mret i.

(** ... and what it writes, with no lock in between. *)
Definition setup_store uid (tenant_name : string) : M Z :=
  on_conflict
    (i ← insert_tenant tenant_name;
     modify (λ d, d <| users ::= alter (λ u,
       u <| User.role := CPO |> <| User.tenant_id := Some i |>) uid |>);;
     commit;;
     mret i)
    (rollback;; raise (HTTPException 400 "A tenant with the name already exists.")).

Definition cpo_setup uid user (tenant_name : string) : M Z :=
  setup_check user tenant_name;;
  setup_store uid tenant_name.

(** ** The profile *)

Definition load_tenant user : M (Z * Tenant.t) :=
  tenant ← query (λ d, tid ← User.tenant_id user; t ← tenants d !! tid; Some (tid, t));
  or_raise tenant 404 "Tenant not found.".

(** The tenant, and its gateways, plugs and groups. *)
Definition cpo_profile user : M (Tenant.t * Z * Z * Z) :=
  '(tid, tenant) ← load_tenant user;
  query (λ d, (tenant,
    Z.of_nat (length (List.filter (λ r, bool_decide (Gateway.tenant_id r.2 = Some tid))
                        (map_to_list (gateways d)))),
    count (λ p, bool_decide (gateway_owner d (Plug.gateway_id p) = Some tid)) (plugs d),
    count (λ g, ChargerGroup.tenant_id g =? tid) (groups d))).

(** [value.strip() or None]. *)
Definition trimmed (s : string) : option string := str_or_none (strip s).

Definition edited_tenant (req : CpoProfileUpdateRequest) (t : Tenant.t) : Tenant.t :=
  t <| Tenant.queued_charging_enabled ::= replaced (pr_queued_charging_enabled req) |>
    <| Tenant.auto_start_delay_min ::= replaced (pr_auto_start_delay_min req) |>
    <| Tenant.queue_ttl_min ::= replaced (pr_queue_ttl_min req) |>
    <| Tenant.gstin ::= replaced (trimmed <$> pr_gstin req) |>
    <| Tenant.legal_name ::= replaced (trimmed <$> pr_legal_name req) |>
    <| Tenant.invoice_prefix ::= replaced (trimmed <$> pr_invoice_prefix req) |>.

Definition cpo_update_profile user (req : CpoProfileUpdateRequest) : M unit :=
  '(tid, _) ← load_tenant user;
  modify (λ d, d <| tenants ::= alter (edited_tenant req) tid |>);;
  commit.

(** ** POST /api/cpo/events/{event_id}/ack *)

Definition acknowledged_event (e : GatewayEvent.t) : GatewayEvent.t :=
  GatewayEvent.mk (GatewayEvent.tenant_id e) (GatewayEvent.gateway_id e) (GatewayEvent.plug_id e)
    (GatewayEvent.event_type e) (GatewayEvent.severity e) true.

Definition cpo_acknowledge_event user (event_id : Z) : M unit :=
  event ← query (λ d, e ← gateway_events d !! event_id;
    if bool_decide (Some (GatewayEvent.tenant_id e) = User.tenant_id user) then Some e else None);
  _ ← or_raise event 404 "Event not found or access denied.";
  modify (λ d, d <| gateway_events ::= alter acknowledged_event event_id |>);;
  commit.

(** ** GET /api/cpo/events, /gateways/{gateway_id}/logs, /reservations *)

(** [max(1, min(limit, 200)), max(0, offset)] of the rows in their order: how
    many there are, and the page. *)
Definition page {A} (limit offset : Z) (rows : list A) : Z * list A :=
  (Z.of_nat (length rows), window (Z.max 1 (Z.min limit 200)) (Z.max 0 offset) rows).

(** [if value: conditions.append(column == value)]. *)
Definition matches (value : option string) (column : string) : bool :=
  negb (truthy_str value) || bool_decide (value = Some column).

Definition tenant_event user (unacknowledged_only : bool) (severity : option string)
    (e : GatewayEvent.t) : bool :=
  bool_decide (Some (GatewayEvent.tenant_id e) = User.tenant_id user) &&
  (negb unacknowledged_only || negb (GatewayEvent.acknowledged e)) &&
  matches severity (GatewayEvent.severity e).

Definition cpo_list_events user (limit offset : Z) (unacknowledged_only : bool)
    (severity : option string) (created_at : Z → datetime) : M (Z * list (Z * GatewayEvent.t)) :=
  query (λ d, page limit offset
    (order_by2 (λ r, - created_at r.1) (λ r, - r.1)
      (select (λ _, tenant_event user unacknowledged_only severity) (gateway_events d)))).

Definition gateway_line (gateway_id : string) (level : option string) (l : GatewayLog.t) : bool :=
  String.eqb (GatewayLog.gateway_id l) gateway_id && matches level (GatewayLog.level l).

Definition cpo_gateway_logs user (gateway_id : string) (limit offset : Z) (level : option string)
    : M (Z * list (Z * GatewayLog.t)) :=
  gateway ← query (λ d, g ← gateways d !! gateway_id;
    if bool_decide (is_Some (Gateway.tenant_id g) ∧ Gateway.tenant_id g = User.tenant_id user)
    then Some g else None);
  _ ← or_raise gateway 404 "Gateway not found or access denied.";
  query (λ d, page limit offset
    (order_by2 (λ r, - GatewayLog.created_at r.2) (λ r, - r.1)
      (select (λ _, gateway_line gateway_id level) (gateway_logs d)))).

Definition of_tenant (tenant_id : Z) (r : Reservation.t) : bool := Reservation.tenant_id r =? tenant_id.

Definition booking_listed (tenant_id : Z) (status : option ReservationStatus) (upcoming_only : bool)
    now (r : Reservation.t) : bool :=
  of_tenant tenant_id r && given (λ s, bool_decide (Reservation.status r = s)) status &&
  (negb upcoming_only || is_booked r && (now <? Reservation.end_at r)).

(** A row: reservation, plug name, the driver's email and name; the latest
    window first. *)
Definition tenant_reservations d (tenant_id : Z) (status : option ReservationStatus)
    (upcoming_only : bool) now : list (Z * Reservation.t * string * string * string) :=
  omap (λ r, p ← plugs d !! Reservation.plug_id r.2; u ← users d !! Reservation.user_id r.2;
             Some (r, Plug.name p, User.email u, User.full_name u))
    (order_by2 (λ r, - Reservation.start_at r.2) (λ r, - r.1)
      (select (λ _, booking_listed tenant_id status upcoming_only now) (reservations d))).

Definition cpo_list_reservations user (status : option string) (upcoming_only : bool)
    (limit offset : Z) now : M (Z * list (Z * Reservation.t * string * string * string)) :=
  tenant_id ← require_tenant_id user;
  let limit := Z.max 1 (Z.min limit 200) in
  let offset := Z.max 0 offset in
  expired ← expire_lapsed_reservations (of_tenant tenant_id) now;
  when (negb (expired =? 0)) commit;;
  st ← match status with
    | None => mret None
    | Some s => x ← or_raise (reservation_status_of s) 400 "Invalid status"; mret (Some x)
    end;
  total ← query (λ d, count (booking_listed tenant_id st upcoming_only now) (reservations d));
  rows ← query (λ d, window limit offset (tenant_reservations d tenant_id st upcoming_only now));
  mret (total, rows).

(** ** routers/notifications.py: push subscriptions *)

Definition at_endpoint (endpoint : string) (s : PushSubscription.t) : bool :=
  String.eqb (PushSubscription.endpoint s) endpoint.

(** [endpoint] is UNIQUE.  Between the look and the insert another request may
    have stored it: the race is lost quietly. *)
Definition insert_subscription uid (endpoint p256dh auth : string) : M unit :=
  on_conflict
    (clash ← query (λ d, exists_row (λ _, at_endpoint endpoint) (push_subscriptions d));
     when clash (raise IntegrityError);;
     i ← fresh;
     modify (λ d, d <| push_subscriptions ::=
       <[i := PushSubscription.mk uid endpoint p256dh auth]> |>);;
     commit)
    rollback.

Definition push_subscribe uid (endpoint p256dh auth : string) : M unit :=
  rows ← query (λ d, select (λ _, at_endpoint endpoint) (push_subscriptions d));
  existing ← one_or_none rows;
  match existing with
  | Some (i, _) =>
      modify (λ d, d <| push_subscriptions ::=
        <[i := PushSubscription.mk uid endpoint p256dh auth]> |>);;
      commit
  | None =>
      sub_count ← query (λ d, count (λ s, PushSubscription.user_id s =? uid) (push_subscriptions d));
      refuse (MAX_PUSH_SUBSCRIPTIONS_PER_USER <=? sub_count) 429 "Too many push subscriptions";;
      insert_subscription uid endpoint p256dh auth
  end.

(** schemas.py: PushSubscribeRequest. *)
Definition subscription_valid (endpoint p256dh auth : string) : bool :=
  in_range 1 1024 (str_len endpoint) && is_safe_push_endpoint endpoint &&
  in_range 1 255 (str_len p256dh) && in_range 1 64 (str_len auth).

Definition serve_push_subscribe uid (endpoint p256dh auth : string) : M unit :=
  refuse (negb (subscription_valid endpoint p256dh auth)) 422 "";;
  push_subscribe uid endpoint p256dh auth.

Definition push_unsubscribe uid (endpoint : string) : M unit :=
  modify (λ d, d <| push_subscriptions ::= delete_where (λ _ s,
    at_endpoint endpoint s && (PushSubscription.user_id s =? uid)) |>);;
  commit.

(** ** Names and endpoints are unique *)

Record workspace_ok d : Prop := {
  ws_names : ∀ i j t u, tenants d !! i = Some t → tenants d !! j = Some u →
    Tenant.name t = Tenant.name u → i = j;
  ws_endpoints : ∀ i j s t, push_subscriptions d !! i = Some s → push_subscriptions d !! j = Some t →
    PushSubscription.endpoint s = PushSubscription.endpoint t → i = j;
  ws_ids : ∀ i, next_id d <= i → tenants d !! i = None;
  ws_sub_ids : ∀ i, next_id d <= i → push_subscriptions d !! i = None }.

(** The tenant a setup leaves behind. *)
Definition set_up uid (tenant_name : string) d : db :=
  d <| next_id ::= Z.succ |> <| tenants ::= <[next_id d := new_tenant tenant_name]> |>
    <| users ::= alter (λ u, u <| User.role := CPO |> <| User.tenant_id := Some (next_id d) |>) uid |>.

Definition name_taken (tenant_name : string) d : Prop :=
  ∃ j t, tenants d !! j = Some t ∧ Tenant.name t = tenant_name.

(** The write alone, whatever has happened since the check: the constraint
    decides between two requests for the same name. *)
Lemma wp_setup_store uid tenant_name (Q : result Z → world → Prop) w :
  com w = cur w →
  (¬ name_taken tenant_name (cur w) →
     ∀ w', cur w' = com w' → com w' = set_up uid tenant_name (cur w) → evs w' = evs w → Q (Ok (next_id (cur w))) w') →
  (name_taken tenant_name (cur w) →
     Q (Raise (HTTPException 400 "A tenant with the name already exists.")) w) →
  wp (setup_store uid tenant_name) Q w.
Proof.
  intros Hcc HO HE. unfold setup_store, on_conflict, insert_tenant. repeat wp_step.
  - apply exists_row_true in H as (j & t & Hj & Hn). apply String.eqb_eq in Hn. 
    replace (w <| cur := com w |>) with w by (rewrite Hcc; by destruct w). apply HE. by exists j, t.
  - apply HO; try done. intros (j & t & Hj & Hn). 
    assert (Hf : exists_row (λ _, named tenant_name) (tenants (cur w)) = true).
    { apply exists_row_true. exists j, t. split; [done|]. by apply String.eqb_eq. }
    by rewrite Hf in H.
Qed.

Lemma set_up_ok uid tenant_name d :
  workspace_ok d → ¬ name_taken tenant_name d → workspace_ok (set_up uid tenant_name d).
Proof.
  intros [Hn He Hi Hs] Hfree. split; simpl; [|done|..].
  - intros i j t u. rewrite !lookup_insert_Some. intros [[<- <-]|[? Ht]] [[<- <-]|[? Hu]] Hnm; try done.
    + exfalso. apply Hfree. by exists j, u.
    + exfalso. apply Hfree. by exists i, t.
    + eauto.
  - intros i Hle. rewrite lookup_insert_ne by lia. apply Hi. lia.
  - intros i Hle. apply Hs. lia.
Qed.

(** A driver becomes an operator once: of a new tenant of a name nobody has;
    nobody else is touched, and a refusal leaves nothing. *)
Theorem setup_correct uid user tenant_name w :
  com w = cur w → workspace_ok (cur w) → users (cur w) !! uid = Some user →
  let '(out, w') := run_request (cpo_setup uid user tenant_name) w in
  workspace_ok (com w') ∧
  match out with
  | Ok i => User.tenant_id user = None ∧ ¬ name_taken tenant_name (cur w) ∧
      com w' = set_up uid tenant_name (cur w) ∧ tenants (cur w) !! i = None ∧
      tenants (com w') !! i = Some (new_tenant tenant_name) ∧
      users (com w') !! uid = Some (user <| User.role := CPO |> <| User.tenant_id := Some i |>)
  | Raise e => com w' = com w ∧ (∃ c, e = HTTPException 400 c) ∧
      (is_Some (User.tenant_id user) ∨ name_taken tenant_name (cur w))
  end.
Proof.
  intros Hcc Hok Hu. apply run_request_wp. unfold cpo_setup, setup_check.
  assert (Hws : workspace_ok (com w)) by (by rewrite Hcc).
  do 3 wp_step. { split; [done|]. split; [done|]. split; [by eexists|]. left. by passed. }
  passed. do 3 wp_step.
  destruct (select_unique (λ _, named tenant_name) (tenants (cur w))) as [->|(j & t & -> & Hj & Hn)].
  { intros i j x y Hx Hy Hi%String.eqb_eq Hj%String.eqb_eq. apply (ws_names _ Hok i j x y Hx Hy). congruence. }
  all: cbn [one_or_none]; wp_step.
  2: { wp_step; [|done]. apply String.eqb_eq in Hn. split; [done|]. split; [done|]. split; [by eexists|].
       right. by exists j, t. }
  wp_step; [done|]. apply wp_setup_store; [done| |].
  - intros Hfree w' Hc Hset _. simpl. rewrite Hset. split; [by apply set_up_ok|].
    split; [by apply eq_None_not_Some|]. split; [done|]. split; [done|]. split; [apply (ws_ids _ Hok); lia|].
    unfold set_up. simpl. by rewrite lookup_insert_eq, lookup_alter_eq, Hu.
  - intros Ht. split; [done|]. split; [done|]. split; [by eexists|by right].
Qed.

(** ** Settings, alerts *)

(** The settings of one's own tenant change, and of its row the fields that are
    settings: not its name, its tariff, its invoice counter or its zone. *)
Theorem profile_own user req w :
  com w = cur w →
  let '(out, w') := run_request (cpo_update_profile user req) w in
  match out with
  | Ok _ => ∃ tid t, User.tenant_id user = Some tid ∧ tenants (cur w) !! tid = Some t ∧
      com w' = (cur w) <| tenants ::= <[tid := edited_tenant req t]> |> ∧
      Tenant.name (edited_tenant req t) = Tenant.name t ∧
      Tenant.default_tariff_id (edited_tenant req t) = Tenant.default_tariff_id t ∧
      Tenant.next_invoice_seq (edited_tenant req t) = Tenant.next_invoice_seq t ∧
      Tenant.timezone (edited_tenant req t) = Tenant.timezone t
  | Raise e => com w' = com w ∧ e = HTTPException 404 "Tenant not found."
  end.
Proof.
  intros Hcc. apply run_request_wp. unfold cpo_update_profile, load_tenant. do 4 wp_step; [|by split].
  destruct (User.tenant_id user) as [tid|] eqn:Htid; [|done]. simpl in *.
  destruct (tenants (cur w) !! tid) as [t|] eqn:Ht; [|done]. simpl in *. simplify_eq. cbv beta iota.
  repeat wp_step. exists tid, t. split; [done|]. split; [done|]. split; [|done]. simpl.
  assert (Heq : alter (edited_tenant req) tid (tenants (cur w)) = <[tid := edited_tenant req t]> (tenants (cur w))).
  { apply map_eq. intros j. destruct (decide (tid = j)) as [<-|Hne].
    - by rewrite lookup_alter_eq, lookup_insert_eq, Ht.
    - by rewrite lookup_alter_ne, lookup_insert_ne. }
  by destruct (cur w); simpl in *; rewrite Heq.
Qed.

(** ** Push subscriptions *)

Definition subscriptions uid d : Z := count (λ s, PushSubscription.user_id s =? uid) (push_subscriptions d).

Lemma count_insert_new {A} (p : A → bool) m (i : Z) x :
  m !! i = None → count p (<[i := x]> m) = (if p x then 1 else 0) + count p m.
Proof. intros Hi. unfold count. by rewrite msum_insert_None. Qed.

(** A browser's endpoint has one row, which goes to the user who subscribed
    last; a new row is refused at the cap and never takes a user past it. *)
Theorem subscribe_correct uid endpoint p256dh auth w :
  com w = cur w → workspace_ok (cur w) →
  let '(out, w') := run_request (push_subscribe uid endpoint p256dh auth) w in
  workspace_ok (com w') ∧
  match out with
  | Ok _ => ∃ i, push_subscriptions (com w') =
        <[i := PushSubscription.mk uid endpoint p256dh auth]> (push_subscriptions (cur w)) ∧
      (push_subscriptions (cur w) !! i = None ∧
         subscriptions uid (com w') = subscriptions uid (cur w) + 1 ∧
         subscriptions uid (com w') <= MAX_PUSH_SUBSCRIPTIONS_PER_USER ∨
       ∃ s, push_subscriptions (cur w) !! i = Some s ∧ PushSubscription.endpoint s = endpoint)
  | Raise e => com w' = com w ∧ (∃ c, e = HTTPException 429 c) ∧
      MAX_PUSH_SUBSCRIPTIONS_PER_USER <= subscriptions uid (cur w) ∧
      ∀ i s, push_subscriptions (cur w) !! i = Some s → PushSubscription.endpoint s ≠ endpoint
  end.
Proof.
  intros Hcc Hok. apply run_request_wp. unfold push_subscribe. do 3 wp_step.
  assert (Hput : ∀ i d', push_subscriptions d' =
      <[i := PushSubscription.mk uid endpoint p256dh auth]> (push_subscriptions (cur w)) →
    (∀ j s, push_subscriptions (cur w) !! j = Some s → PushSubscription.endpoint s = endpoint → j = i) →
    tenants d' = tenants (cur w) → next_id (cur w) <= next_id d' → i < next_id d' → workspace_ok d').
  { intros i d' Hp Hone Ht Hn Hi. destruct Hok as [H1 H2 H3 H4]. split; rewrite ?Ht, ?Hp; try done.
    - intros j k s t. rewrite !lookup_insert_Some. intros [[<- <-]|[? Hs]] [[<- <-]|[? Hu]] He; try done.
      + symmetry. by apply (Hone k t).
      + by apply (Hone j s).
      + eauto.
    - intros j Hj. apply H3. lia.
    - intros j Hj. rewrite lookup_insert_ne by lia. apply H4. lia. }
  destruct (select_unique (λ _, at_endpoint endpoint) (push_subscriptions (cur w))) as [Hnone|(j & t & -> & Hj & Hn)].
  { intros i j x y Hx Hy Hi%String.eqb_eq Hj%String.eqb_eq. apply (ws_endpoints _ Hok i j x y Hx Hy). congruence. }
  - rewrite Hnone. cbn [one_or_none]. do 4 wp_step.
    assert (Hnew : ∀ i s, push_subscriptions (cur w) !! i = Some s → PushSubscription.endpoint s ≠ endpoint).
    { intros i s Hs He. assert (Hin : (i, s) ∈ select (λ _, at_endpoint endpoint) (push_subscriptions (cur w))).
      { apply elem_of_select. split; [done|]. by apply String.eqb_eq. }
      rewrite Hnone in Hin. by apply not_elem_of_nil in Hin. }
    wp_step; [passed; simpl; rewrite Hcc; split; [done|]; split; [done|]; split; [by eexists|done]|]. passed.
    assert (Hclash : exists_row (λ _, at_endpoint endpoint) (push_subscriptions (cur w)) = false).
    { unfold exists_row. by rewrite Hnone, bool_decide_eq_true_2. }
    unfold insert_subscription, on_conflict. do 3 wp_step. rewrite Hclash. do 2 wp_step; [done|].
    repeat wp_step. simpl. pose proof (ws_sub_ids _ Hok (next_id (cur w)) ltac:(lia)) as Hfree. split.
    + apply (Hput (next_id (cur w))); simpl; try done; try lia. intros j s Hs He. by destruct (Hnew j s).
    + exists (next_id (cur w)). split; [done|]. left. split; [done|]. unfold subscriptions in *. simpl.
      rewrite count_insert_new by done. simpl. rewrite Z.eqb_refl. lia.
  - cbn [one_or_none]. repeat wp_step. simpl. apply String.eqb_eq in Hn. split.
    + apply (Hput j); simpl; try done.
      * intros k s Hs He. apply (ws_endpoints _ Hok k j s t Hs Hj). congruence.
      * destruct (Z.lt_ge_cases j (next_id (cur w))) as [|Hge]; [done|]. by rewrite (ws_sub_ids _ Hok) in Hj.
    + exists j. split; [done|]. right. by exists t.
Qed.

(** No endpoint is stored that the guard refuses. *)
Theorem endpoints_safe uid endpoint p256dh auth w :
  com w = cur w → workspace_ok (cur w) →
  (∀ i s, push_subscriptions (cur w) !! i = Some s → is_safe_push_endpoint (PushSubscription.endpoint s) = true) →
  let '(_, w') := run_request (serve_push_subscribe uid endpoint p256dh auth) w in
  ∀ i s, push_subscriptions (com w') !! i = Some s →
    is_safe_push_endpoint (PushSubscription.endpoint s) = true.
Proof.
  intros Hcc Hok Hsafe. unfold serve_push_subscribe.
  destruct (subscription_valid endpoint p256dh auth) eqn:Hv.
  2: { unfold run_request. simpl. by rewrite Hcc. }
  unfold subscription_valid in Hv. rewrite !andb_true_iff in Hv. destruct Hv as [[[_ Hsafe'] _] _].
  pose proof (subscribe_correct uid endpoint p256dh auth w Hcc Hok) as H.
  change (run_request (refuse (negb true) 422 "";; push_subscribe uid endpoint p256dh auth) w)
    with (run_request (push_subscribe uid endpoint p256dh auth) w).
  destruct (run_request _ w) as [[[]|e] w'].
  - destruct H as (_ & j & Hp & _). intros i s. rewrite Hp, lookup_insert_Some. intros [[_ <-]|[_ Hs]]; eauto.
  - destruct H as (_ & Hcom & _). rewrite Hcom, Hcc. done.
Qed.

(** ** Bookings *)

Lemma expire_none scope now d :
  count (λ r, lapsed now r && scope r) (reservations d) = 0 → expire_in scope now d = d.
Proof.
  intros Hc. unfold expire_in.
  assert (Heq : update_where (λ r, lapsed now r && scope r) (λ r, r <| Reservation.status := EXPIRED |>)
    (reservations d) = reservations d).
  { apply map_eq. intros i. rewrite lookup_update_where. destruct (reservations d !! i) as [r|] eqn:Hr; [|done].
    simpl. destruct (lapsed now r && scope r) eqn:Hl; [exfalso|done]. unfold count in Hc.
    pose proof (msum_elem_le (λ r, if lapsed now r && scope r then 1 else 0) (reservations d) i r) as Hle.
    cbv beta in Hle. rewrite Hl, Hc in Hle. enough (1 <= 0) by lia. apply Hle; [|done].
    intros j x _. by destruct (lapsed now x && scope x). }
  destruct d. simpl in *. by rewrite Heq.
Qed.

Lemma listed_row d tid st upcoming now lim off i r n e f :
  (i, r, n, e, f) ∈ window lim off (tenant_reservations d tid st upcoming now) →
  reservations d !! i = Some r ∧ of_tenant tid r = true.
Proof.
  unfold window, tenant_reservations. intros Hin.
  match type of Hin with _ ∈ take ?m (drop ?k ?l) =>
    assert (Hin' : (i, r, n, e, f) ∈ l) by
      (rewrite <- (take_drop k l); apply elem_of_app; right;
       rewrite <- (take_drop m (drop k l)); apply elem_of_app; by left) end.
  apply list_elem_of_omap in Hin' as ([j s] & Hj & Hr). clear Hin. rename Hj into Hin. unfold order_by2 in Hin.
  rewrite merge_sort_Permutation in Hin. apply elem_of_select in Hin as [Hj Hp]. simpl in Hr.
  destruct (plugs d !! _); [|done]. simpl in Hr. destruct (users d !! _); [|done]. simpl in Hr. simplify_eq.
  unfold booking_listed in Hp. passed. by repeat split.
Qed.

Lemma expired_not_lapsed tid now d i r :
  reservations (expire_in (of_tenant tid) now d) !! i = Some r → of_tenant tid r = true → lapsed now r = false.
Proof.
  unfold expire_in. simpl. rewrite lookup_update_where. destruct (reservations d !! i) as [r0|]; [|done].
  simpl. intros [= <-]. destruct (lapsed now r0 && of_tenant tid r0) eqn:Hl; [done|].
  intros Ht. by rewrite Ht, andb_true_r in Hl.
Qed.

(** The operator sees bookings of the tenant only, none of them lapsed, and the
    request has done nothing but let lapsed bookings of the tenant expire. *)
Theorem listed_reservations user status upcoming limit offset now w :
  com w = cur w →
  let '(out, w') := run_request (cpo_list_reservations user status upcoming limit offset now) w in
  (com w' = com w ∨ ∃ tid, User.tenant_id user = Some tid ∧ com w' = expire_in (of_tenant tid) now (com w)) ∧
  match out with
  | Ok (_, l) => ∀ i r n e f, (i, r, n, e, f) ∈ l →
      reservations (com w') !! i = Some r ∧ Some (Reservation.tenant_id r) = User.tenant_id user ∧
      lapsed now r = false
  | Raise e => ∃ c, e = HTTPException 400 c
  end.
Proof.
  intros Hcc. apply run_request_wp. unfold cpo_list_reservations, require_tenant_id.
  do 2 wp_step; [|split; [by left|by eexists]]. rename a into tid.
  match goal with H : User.tenant_id user = _ |- _ => rename H into Htid end.
  unfold expire_lapsed_reservations. do 6 wp_step.
  set (d' := expire_in (of_tenant tid) now (cur w)). apply wp_bind.
  apply (wp_mono _ (λ out w1, out = Ok tt ∧ cur w1 = d' ∧ com w1 = d')).
  2: { wp_step; [by wp_step|]. split; [done|]. split; [done|]. simpl. passed. rewrite Hcc.
       symmetry. by apply expire_none. }
  intros out w1 (-> & Hc1 & Hm1). cbv beta iota.
  assert (Hd : com w1 = com w ∨ ∃ tid, User.tenant_id user = Some tid ∧ com w1 = expire_in (of_tenant tid) now (com w))
    by (right; exists tid; by rewrite Hm1, Hcc).
  repeat wp_step; (split; [exact Hd|]); try (by eexists); intros i r n e f Hin%listed_row; simpl;
    rewrite Hm1; rewrite Hc1 in Hin; destruct Hin as [Hi Ht]; (split; [done|]);
    (split; [rewrite Htid; unfold of_tenant in Ht; by passed; subst|by eapply expired_not_lapsed]).
Qed.

(** ** Pages *)

(** The pages one after another, as a client reads them. *)
Definition pages {A} (limit n : Z) (rows : list A) : list A :=
  concat (map (λ k, (page limit (k * limit) rows).2) (seqZ 0 n)).

Lemma pages_take {A} limit (n : nat) (rows : list A) :
  1 <= limit <= 200 → pages limit (Z.of_nat n) rows = take (n * Z.to_nat limit) rows.
Proof.
  intros Hl. unfold pages. induction n as [|n IH]; [done|].
  replace (Z.of_nat (S n)) with (Z.of_nat n + 1) by lia.
  rewrite seqZ_app, map_app, concat_app, IH by lia. unfold seqZ at 1. simpl.
  rewrite app_nil_r. unfold window. rewrite (Z.min_l limit 200), !Z.max_r by lia.
  match goal with |- context [drop ?k] => replace k with (n * Z.to_nat limit)%nat by lia end.
  rewrite take_take_drop. f_equal. lia.
Qed.

(** Read to the end, the pages are the rows: none twice, none left out. *)
Lemma pages_tile {A} limit n (rows : list A) :
  1 <= limit <= 200 → 0 <= n → Z.of_nat (length rows) <= n * limit → pages limit n rows = rows.
Proof.
  intros Hl Hn Hlen. replace n with (Z.of_nat (Z.to_nat n)) by lia. rewrite pages_take by done.
  apply take_ge. lia.
Qed.

(** Rows of a paginated list: those of the table that pass, once each, by a
    time, latest first. *)
Record listing {A} (m : gmap Z A) (p : A → bool) (time : Z * A → Z) (rows : list (Z * A)) : Prop := {
  li_rows : ∀ i x, (i, x) ∈ rows ↔ m !! i = Some x ∧ p x = true;
  li_once : NoDup rows;
  li_sorted : StronglySorted (λ a b, time b <= time a) rows }.

Lemma NoDup_select {A} (p : Z → A → bool) m : NoDup (select p m).
Proof.
  unfold select. apply NoDup_ListNoDup, List.NoDup_filter, NoDup_ListNoDup, NoDup_map_to_list.
Qed.

Lemma listed_all {A} (m : gmap Z A) p (time : Z * A → Z) :
  listing m p time (order_by2 (λ r, - time r) (λ r, - r.1) (select (λ _, p) m)).
Proof.
  split.
  - intros i x. unfold order_by2. rewrite merge_sort_Permutation. apply elem_of_select.
  - unfold order_by2. rewrite merge_sort_Permutation. apply NoDup_select.
  - assert (Hs := order_by2_sorted (λ r : Z * A, - time r) (λ r, - r.1) (select (λ _, p) m)).
    revert Hs. generalize (order_by2 (λ r : Z * A, - time r) (λ r, - r.1) (select (λ _, p) m)).
    induction 1 as [|a l Hl IH Ha]; constructor; [done|]. eapply Forall_impl; [exact Ha|].
    unfold key2_le. intros b. lia.
Qed.

(** Alerts: the pages, read one after another, are the alerts of the tenant that
    pass the filters, none of another's, and every page tells their number. *)
Theorem alerts_paged user limit unack severity created_at n w :
  1 <= limit <= 200 → 0 <= n →
  ∃ rows, listing (gateway_events (cur w)) (tenant_event user unack severity)
      (λ r, created_at r.1) rows ∧
    (∀ offset, cpo_list_events user limit offset unack severity created_at w =
       (Ok (page limit offset rows), w)) ∧
    (Z.of_nat (length rows) <= n * limit → pages limit n rows = rows).
Proof.
  intros Hl Hn.
  exists (order_by2 (λ r, - created_at r.1) (λ r, - r.1)
    (select (λ _, tenant_event user unack severity) (gateway_events (cur w)))).
  split; [apply (listed_all _ _ (λ r, created_at r.1))|]. split; [done|]. by apply pages_tile.
Qed.

(** Log lines likewise, of a gateway of the tenant only. *)
Theorem logs_paged user gateway_id limit level n w :
  1 <= limit <= 200 → 0 <= n →
  (∃ g t, gateways (cur w) !! gateway_id = Some g ∧ Gateway.tenant_id g = Some t ∧
     User.tenant_id user = Some t ∧
     ∃ rows, listing (gateway_logs (cur w)) (gateway_line gateway_id level)
         (λ r, GatewayLog.created_at r.2) rows ∧
       (∀ offset, cpo_gateway_logs user gateway_id limit offset level w = (Ok (page limit offset rows), w)) ∧
       (Z.of_nat (length rows) <= n * limit → pages limit n rows = rows)) ∨
  (∀ offset, cpo_gateway_logs user gateway_id limit offset level w =
     (Raise (HTTPException 404 "Gateway not found or access denied."), w)) ∧
  ∀ g t, gateways (cur w) !! gateway_id = Some g → Gateway.tenant_id g = Some t →
    User.tenant_id user ≠ Some t.
Proof.
  intros Hl Hn. unfold cpo_gateway_logs. cbv [query mbind M_bind].
  destruct (gateways (cur w) !! gateway_id) as [g|] eqn:Hg; [|right; by split].
  simpl. destruct (bool_decide_reflect (is_Some (Gateway.tenant_id g) ∧ Gateway.tenant_id g = User.tenant_id user))
    as [[[t Ht] Heq]|Hno].
  - left. exists g, t. split; [done|]. split; [done|]. split; [congruence|].
    exists (order_by2 (λ r, - GatewayLog.created_at r.2) (λ r, - r.1)
      (select (λ _, gateway_line gateway_id level) (gateway_logs (cur w)))).
    split; [apply (listed_all _ _ (λ r, GatewayLog.created_at r.2))|]. split; [done|]. by apply pages_tile.
  - right. split; [done|]. intros g' t [= <-] Ht Hu. apply Hno. rewrite Ht, Hu. by split.
Qed.
End Workspace.
