(* ===== verification/RateRules.v ===== *)
(** * services/rate_limit.py: the rules, and who applies them

    The rules come from environment variables; [getenv] is [os.getenv].  A rule
    is an attempt count and a window, which Python reads with [float] and so may
    be infinite or NaN; the limiters of RateLimit.v have finite windows.  The
    dependencies in front of a route ask a limiter and refuse with 429. *)

From stdpp Require Import pretty strings.
From Stdlib Require Import Ascii Sorted.
From S2P Require Import Prelude Rounding PyNum Money Models Config RateLimit TelemetryStore.
From S2P Require Import World Hoare PyString PyJson PushGuard.

Class Environment := getenv : string → option string.

(** Nothing set. *)
Definition no_environment : Environment := λ _, None.

Section Rules.
Context `{env : Environment}.
Implicit Types (name dflt raw : string).

(** [os.getenv(name, default)] *)
Definition getenv_or name dflt : string := default dflt (getenv name).

Definition DEFAULT_TRUSTED_PROXY_HOPS : Z := 2.

Definition trusted_proxy_hops : nat :=
  match int_of_str (strip (getenv_or "TRUSTED_PROXY_HOPS" "2")) with
  | None => Z.to_nat DEFAULT_TRUSTED_PROXY_HOPS
  | Some hops => if 1 <=? hops then Z.to_nat hops else 1%nat
  end.

(** [attempts_s, window_s = raw.split("/", 1)], then [int] and [float]. *)
Definition parse_rule raw : option (Z * pynum) :=
  let '(attempts_s, found, window_s) := partition "/" raw in
  if found then
    attempts ← int_of_str attempts_s; window ← float_of_string window_s; Some (attempts, window)
  else None.

(** [window <= 0] *)
Definition not_positive (window : pynum) : bool :=
  match window with
  | PInt n => n <=? 0
  | PFloat w => w <=? 0
  | PDec d => dcoef d <=? 0
  | PInf negative => negative
  | PNaN => false
  end.

Definition rule_from_env name dflt : result (Z * pynum) :=
  let by_default := match parse_rule dflt with Some r => Ok r | None => Raise ValueError end in
  match parse_rule (getenv_or name dflt) with
  | Some (attempts, window) =>
      if (attempts <? 1) || not_positive window then by_default else Ok (attempts, window)
  | None => by_default
  end.

Definition optional_limiter name dflt : result (option (Z * pynum)) :=
  let raw := lower (strip (getenv_or name dflt)) in
  if bool_decide (raw ∈ ["off"; "0"; "none"; "disabled"]%string) then Ok None
  else match rule_from_env name dflt with Ok r => Ok (Some r) | Raise e => Raise e end.

(** The limiters of the process, by the variable that sets them. *)
Definition rules : list (string * string) := [
  ("LOGIN_RATE_LIMIT", "10/60"); ("REGISTER_RATE_LIMIT", "10/3600");
  ("FORGOT_PASSWORD_RATE_LIMIT", "5/3600"); ("RESET_PASSWORD_RATE_LIMIT", "10/3600");
  ("FORGOT_PASSWORD_EMAIL_RATE_LIMIT", "3/3600"); ("VERIFY_EMAIL_RATE_LIMIT", "10/3600");
  ("RESEND_VERIFICATION_RATE_LIMIT", "5/3600");
  ("RESEND_VERIFICATION_EMAIL_RATE_LIMIT", "3/3600"); ("PUBLIC_MAP_RATE_LIMIT", "60/60");
  ("SOCKETIO_CONNECT_RATE_LIMIT", "60/60"); ("DATA_EXPORT_ACCOUNT_RATE_LIMIT", "5/3600");
  ("DELETE_ACCOUNT_ACCOUNT_RATE_LIMIT", "5/3600"); ("SESSION_START_ACCOUNT_RATE_LIMIT", "20/60");
  ("SESSION_STOP_ACCOUNT_RATE_LIMIT", "20/60");
  ("PAYMENTS_CREATE_ORDER_ACCOUNT_RATE_LIMIT", "10/60");
  ("CPO_TOPUP_ACCOUNT_RATE_LIMIT", "20/60"); ("LOGIN_ACCOUNT_RATE_LIMIT", "10/60");
  ("CPO_GATEWAY_CLAIM_ACCOUNT_RATE_LIMIT", "10/60"); ("GROUP_JOIN_ACCOUNT_RATE_LIMIT", "10/60");
  ("CPO_SETUP_ACCOUNT_RATE_LIMIT", "5/300")]%string.

(** The address a request is limited by: its header and its peer. *)
Definition client_ip (forwarded_for peer : option string) : string :=
  client_ip_from_forwarded trusted_proxy_hops (default ""%string forwarded_for) peer.

(** [int(retry_after) + 1] *)
Definition retry_seconds (retry_after : float) : Z := ftrunc retry_after + 1.

(** 429 with the seconds to wait, or on to the route; [IndexError] for a limiter
    without attempts, which no rule gives. *)
Inductive admission := Passed | TooMany (retry : Z) | Crashed.

Definition admit_of (v : verdict) : admission :=
  match v with
  | Allowed => Passed
  | Blocked retry_after => TooMany (retry_seconds retry_after)
  | NoAttempts => Crashed
  end.

Definition rate_limit_dependency (l : limiter) (forwarded_for peer : option string) (now : float)
    : admission * limiter :=
  let '(v, l) := check (client_ip forwarded_for peer) now l in (admit_of v, l).

Definition account_key (user_id : Z) : string := ("user:" +:+ pretty user_id)%string.

Definition account_rate_limit_dependency (l : limiter) (user_id : Z) (now : float)
    : admission * limiter :=
  let '(v, l) := check (account_key user_id) now l in (admit_of v, l).

(** ** Every rule is usable *)

Lemma trusted_proxy_hops_positive : (1 <= trusted_proxy_hops)%nat.
Proof.
  unfold trusted_proxy_hops, DEFAULT_TRUSTED_PROXY_HOPS. destruct (int_of_str _); [|lia].
  destruct (Z.leb_spec 1 z); lia.
Qed.

Definition usable (r : Z * pynum) : Prop := 1 <= r.1 ∧ not_positive r.2 = false.

Lemma rule_from_env_usable name dflt r :
  parse_rule dflt = Some r → usable r →
  ∃ r', rule_from_env name dflt = Ok r' ∧ usable r'.
Proof.
  intros Hd Hr. unfold rule_from_env. rewrite Hd.
  destruct (parse_rule (getenv_or name dflt)) as [[a w]|]; [|by exists r].
  destruct (_ || _) eqn:Hb; [by exists r|]. exists (a, w). split; [done|].
  apply orb_false_iff in Hb as [Ha Hw]. apply Z.ltb_ge in Ha. by split.
Qed.

(** Whatever the environment holds, the process comes up with all its limiters,
    each with a limit of at least one attempt; the floor under [/api/] is only
    off when its variable says so. *)
Theorem rules_usable :
  (∀ name dflt, (name, dflt) ∈ rules → ∃ r, rule_from_env name dflt = Ok r ∧ usable r) ∧
  (∃ o, optional_limiter "API_RATE_LIMIT" "300/60" = Ok o ∧
    match o with
    | Some r => usable r
    | None => ∃ raw, getenv "API_RATE_LIMIT" = Some raw ∧
        lower (strip raw) ∈ ["off"; "0"; "none"; "disabled"]%string
    end).
Proof.
  split.
  - assert (Hall : Forall (λ p, match parse_rule p.2 with
        | Some (a, w) => (1 <=? a) && negb (not_positive w) | None => false end = true) rules).
    { unfold rules. repeat (apply Forall_cons; split; [vm_compute; reflexivity|]). done. }
    intros name dflt Hin. rewrite Forall_forall in Hall. specialize (Hall _ Hin). simpl in Hall.
    destruct (parse_rule dflt) as [[a w]|] eqn:Hp; [|done]. apply andb_true_iff in Hall as [Ha Hw].
    apply Z.leb_le in Ha. apply negb_true_iff in Hw. by apply (rule_from_env_usable name dflt (a, w)).
  - unfold optional_limiter. destruct (bool_decide _) eqn:Hoff.
    + exists None. split; [done|]. apply bool_decide_eq_true_1 in Hoff.
      unfold getenv_or in Hoff. destruct (getenv "API_RATE_LIMIT") as [raw|]; [by exists raw|].
      exfalso. revert Hoff. by vm_compute; intros H; repeat (inversion H as [|? ? ? H']; subst; clear H; rename H' into H).
    + destruct (rule_from_env_usable "API_RATE_LIMIT" "300/60" (300, PFloat (fint 60))) as (r & -> & Hr);
        [by vm_compute | by vm_compute | by exists (Some r)].
Qed.
End Rules.

(** ** Retry-After is honest *)

(** What a limiter holds at [start]. *)
Record tidy (start : float) (l : limiter) : Prop := {
  td_sorted : ∀ key, StronglySorted Z.le (kept key l);
  td_bound : ∀ key h, h ∈ kept key l → h <= start ∧ is_float h;
  td_size : ∀ key, Z.of_nat (length (kept key l)) <= max_attempts l }.

Lemma new_limiter_tidy attempts window start created :
  0 <= attempts → tidy start (new_limiter attempts window created).
Proof.
  intros Ha. split; intros key; unfold kept; simpl; rewrite lookup_empty; simpl; [constructor | | lia].
  intros h Hh. by apply not_elem_of_nil in Hh.
Qed.

Lemma above_length cutoff (dq : list float) : (length (above cutoff dq) <= length dq)%nat.
Proof. apply filter_length_le. Qed.

Lemma elem_pruned cutoff (dq : list float) x :
  StronglySorted Z.le dq → x ∈ prune cutoff dq → x ∈ dq.
Proof. intros Hs. rewrite prune_above by done. apply elem_above. Qed.

(** The queues of a sweep are those of before, pruned. *)
Lemma kept_sweep now l key :
  kept key (maybe_sweep now l) = kept key l ∨
  kept key (maybe_sweep now l) = prune (fsub now (window_sec l)) (kept key l).
Proof.
  unfold maybe_sweep. case_match; [by left|]. right. unfold kept. simpl. rewrite lookup_omap.
  destruct (hits l !! key) as [dq|]; simpl; [|done]. by destruct (prune _ dq).
Qed.

Lemma tidy_sweep now l : tidy now l → tidy now (maybe_sweep now l).
Proof.
  intros [Hs Hb Hn].
  assert (Hm : max_attempts (maybe_sweep now l) = max_attempts l) by (unfold maybe_sweep; by case_match).
  split; intros key; destruct (kept_sweep now l key) as [-> | ->]; rewrite ?Hm; eauto.
  - rewrite prune_above by done. by apply above_sorted.
  - intros h Hh%elem_pruned; [|done]. by apply (Hb key).
  - rewrite prune_above by done. specialize (Hn key). pose proof (above_length (fsub now (window_sec l)) (kept key l)). lia.
Qed.

Lemma kept_insert key k dq l :
  kept k (l <| hits ::= <[key := dq]> |>) = if decide (key = k) then dq else kept k l.
Proof.
  unfold kept. simpl. case_decide as Hk; [subst; by rewrite lookup_insert_eq | by rewrite lookup_insert_ne].
Qed.

Lemma tidy_check start key now l :
  tidy start l → start <= now → is_float now → tidy now (check key now l).2.
Proof.
  intros [Hs Hb Hn] Hle Hnow. unfold check. fold (kept key l).
  set (c := fsub now (window_sec l)). rewrite (prune_above c _ (Hs key)).
  assert (Hb' : ∀ k h, h ∈ kept k l → h <= now ∧ is_float h).
  { intros k h Hh. destruct (Hb k h Hh). split; [lia | done]. }
  destruct (Z.leb_spec (max_attempts l) (Z.of_nat (length (above c (kept key l))))) as [Hfull|Hroom].
  - cbn [snd]. split; intros k; rewrite kept_insert; case_decide as Hk; eauto.
    + by apply above_sorted.
    + intros h Hh%elem_above. by apply (Hb' key).
    + specialize (Hn key). pose proof (above_length c (kept key l)). simpl. lia.
  - cbn [snd]. apply tidy_sweep. split; intros k; rewrite kept_insert; case_decide as Hk; eauto.
    + apply sorted_snoc; [by apply above_sorted|]. intros h Hh%elem_above. by apply (Hb' key).
    + intros h [Hh%elem_above|Hh%list_elem_of_singleton]%elem_of_app; [by apply (Hb' key)|].
      subst. split; [lia | done].
    + rewrite length_app. simpl. lia.
Qed.

(** A float that is not above the exact sum is not above its rounding away. *)
Lemma fsub_ge a b c : is_float c → c <= a - b → c <= fsub a b.
Proof. intros Hc Hle. rewrite <- (frnd_float c Hc). apply frnd_mono; lia. Qed.

Lemma fadd_below a b c : is_float c → fadd a b < c → a + b <= c.
Proof.
  intros Hc Hlt. apply Z.nlt_ge. intros Hgt.
  assert (c <= fadd a b); [|lia]. rewrite <- (frnd_float c Hc). apply frnd_mono; lia.
Qed.

Lemma fint_is_float k : Z.abs k <= 2 ^ 53 → is_float (k * FU).
Proof. intros Hk. rewrite <- (fint_exact k Hk). by apply flit_is_float. Qed.

(** The difference is less than the seconds told. *)
Lemma retry_exceeds a now :
  now <= a → ftrunc (fsub a now) < 2 ^ 53 → a < now + retry_seconds (fsub a now) * FU.
Proof.
  intros Hle Hr. unfold retry_seconds. set (r := fsub a now) in *.
  assert (0 <= r) by (by apply fsub_nonneg). pose proof FU_pos as HF.
  unfold ftrunc in *. rewrite Z.quot_div_nonneg in * by lia. div_facts r FU.
  assert (0 <= r / FU) by (apply Z.div_pos; lia).
  apply Z.nle_gt. intros Hge.
  assert ((r / FU + 1) * FU <= r); [|lia].
  apply fsub_ge; [apply fint_is_float; lia | lia].
Qed.

(** A client told to come back in [n] seconds that does, not a moment before
    and with nothing else tried under its key, is let in; the wait is at least a
    second.  The bound is on the wait, which the code turns into an [int]. *)
Theorem retry_after_honest start key now later l l' r :
  1 <= max_attempts l → tidy start l → start <= now → is_float now → is_float later →
  check key now l = (Blocked r, l') → ftrunc r < 2 ^ 53 →
  now + retry_seconds r * FU <= later →
  1 <= retry_seconds r ∧ (check key later l').1 = Allowed.
Proof.
  intros Hmax Htidy Hle Hnow Hlater Hc Hr Hwait.
  pose proof Htidy as [Hs Hb Hn]. unfold check in Hc. fold (kept key l) in Hc.
  set (c := fsub now (window_sec l)) in Hc. rewrite (prune_above c _ (Hs key)) in Hc.
  pose proof (above_length c (kept key l)) as Hlen. specialize (Hn key).
  assert (Habove : ∀ x, x ∈ above c (kept key l) → c < x ∧ x ∈ kept key l).
  { intros x Hx. split; [|by apply elem_above in Hx]. unfold above in Hx.
    rewrite list_elem_of_In, filter_In in Hx. by apply Z.ltb_lt, Hx. }
  destruct (Z.leb_spec (max_attempts l) (Z.of_nat (length (above c (kept key l))))) as [Hfull|]; [|discriminate].
  pose proof (above_sorted c _ (Hs key)) as Hsd.
  destruct (above c (kept key l)) as [|h dq] eqn:Hdq; [discriminate|]. injection Hc as <- <-.
  destruct (Habove h) as [Hch Hin]; [left|]. destruct (Hb key h Hin) as [_ Hfl].
  assert (Hfwd : now <= fadd h (window_sec l)).
  { apply Z.nlt_ge. intros Hlt. pose proof (fadd_below _ _ _ Hnow Hlt).
    assert (h <= c) by (apply fsub_ge; [done | lia]). lia. }
  pose proof (retry_exceeds _ _ Hfwd Hr) as Hx. split.
  { unfold retry_seconds. pose proof (fsub_nonneg _ _ Hfwd). pose proof FU_pos.
    unfold ftrunc. rewrite Z.quot_div_nonneg by lia.
    pose proof (Z.div_pos (fsub (fadd h (window_sec l)) now) FU). lia. }
  assert (Hgone : h <= fsub later (window_sec l)).
  { apply fsub_ge; [done|]. pose proof (fadd_below h (window_sec l) later Hlater ltac:(lia)). lia. }
  unfold check. fold (kept key (l <| hits ::= <[key := h :: dq]> |>)). rewrite kept_insert, decide_True by done.
  change (window_sec (l <| _ ::= _ |>)) with (window_sec l).
  change (max_attempts (l <| _ ::= _ |>)) with (max_attempts l). rewrite prune_above by done. unfold above at 1. cbn [List.filter].
  rewrite (proj2 (Z.ltb_ge _ _)) by done. fold (above (fsub later (window_sec l)) dq).
  pose proof (above_length (fsub later (window_sec l)) dq). simpl in Hlen, Hfull.
  rewrite (proj2 (Z.leb_gt _ _)) by lia. done.
Qed.
