(* ===== verification/Http.v ===== *)
(** * main.py: the layers around every route

    The application is the composition of its middlewares, the one registered
    last outermost.  A layer takes the rest of the application, [app], and is an
    [app]; the state they share with the routes is the blanket limiter and the
    correlation id, the rest is [rest].  Header names are in lower case, as they
    compare, and one value is kept of each.  Starlette's CORS middleware is a
    parameter with the laws of its documentation ([CorsLaws]): it answers a
    preflight itself and otherwise adds headers of its own to the answer of the
    layers inside.  [None] is an exception: it passes all the layers, and the server
    answers with a bare 500 of its own. *)

From stdpp Require Import pretty strings gmap.
From Stdlib Require Import Ascii.
From S2P Require Import Prelude Rounding PyNum Money Models Config RateLimit TelemetryStore.
From S2P Require Import World Hoare PyString PyJson PushGuard RateRules.

Record request := mkrequest {
  method : string;
  path : string;
  request_headers : gmap string string;
  peer : option string;
  (* the monotonic clock when the limiter is asked *)
  arrived : float;
  (* [uuid.uuid4().hex[:12]], drawn when the caller sent no id *)
  drawn_id : string }.

Record response := mkresponse {
  status_code : Z;
  response_headers : gmap string string;
  body : string }.

#[export] Instance eta_response : Eta response := fun r =>
  mkresponse (status_code r) (response_headers r) (body r).

(** ** Origins *)

Definition prod_allowed_origins : list string := ["https://amphive.app"; "https://cpo.amphive.app"]%string.

Definition add_origin (origins : list string) (raw : string) : list string :=
  let origin := strip raw in
  if String.eqb origin "" || bool_decide (origin ∈ origins) then origins else origins ++ [origin].

Definition cors_allowed_origins `{Environment} : list string :=
  foldl add_origin prod_allowed_origins (split "," (getenv_or "CORS_EXTRA_ORIGINS" "")).

Section Http.
Context `{env : Environment}.
Context {rest : Type}.
Implicit Types (r : request).

Record state := mkstate {
  (* [None]: [API_RATE_LIMIT=off] *)
  api_rate_limiter : option limiter;
  correlation_id : string;
  others : rest }.

Definition app : Type := request → state → option response * state.

Implicit Types (inner : app) (s : state).

(** ** Settings *)

(** [int(os.getenv(...))], read once. *)
Context (MAX_REQUEST_BODY_BYTES FIRMWARE_UPLOAD_MAX_BYTES : Z).

Definition FIRMWARE_UPLOAD_PATH : string := "/api/admin/firmware-releases/upload".
Definition API_RATE_LIMIT_EXEMPT_PATHS : list string := ["/api/health"]%string.

(** Where the interactive documentation and the schema are, if anywhere. *)
Definition api_docs_enabled : bool :=
  bool_decide (lower (strip (getenv_or "ENABLE_API_DOCS" "")) ∈ ["1"; "true"; "yes"; "on"]%string).
Definition docs_paths : list string :=
  if api_docs_enabled then ["/docs"; "/redoc"; "/openapi.json"]%string else [].

(** ** The layers *)

Definition json_response (status : Z) (detail : string) (headers : gmap string string) : response :=
  mkresponse status (<["content-type" := "application/json"%string]> headers) detail.

(** Whether the blanket limiter looks at a path. *)
Definition limited_path (p : string) : bool :=
  prefix_of "/api/" p && negb (bool_decide (p ∈ API_RATE_LIMIT_EXEMPT_PATHS)).

Definition request_ip r : string := client_ip (request_headers r !! "x-forwarded-for"%string) (peer r).

Definition too_many (seconds : Z) : response :=
  json_response 429 ("Too many requests. Try again in " +:+ pretty seconds +:+ " s.")
    {["retry-after"%string := pretty seconds]}.

Definition api_rate_limit_middleware inner : app := λ r s,
  match api_rate_limiter s with
  | None => inner r s
  | Some l =>
      if negb (limited_path (path r)) then inner r s
      else
        let '(v, l) := check (request_ip r) (arrived r) l in
        let s := mkstate (Some l) (correlation_id s) (others s) in
        match v with
        | Allowed => inner r s
        | Blocked retry_after => (Some (too_many (retry_seconds retry_after)), s)
        | NoAttempts => (None, s)
        end
  end.

Definition body_cap r : Z :=
  if String.eqb (path r) FIRMWARE_UPLOAD_PATH then FIRMWARE_UPLOAD_MAX_BYTES
  else MAX_REQUEST_BODY_BYTES.

(** The declared length, when there is one that [int] reads. *)
Definition declared_length r : option Z :=
  text ← request_headers r !! "content-length"%string; int_of_str text.

Definition too_large (declared cap : Z) : response :=
  json_response 413 ("Request body too large (" +:+ pretty declared +:+ " bytes; max " +:+
    pretty cap +:+ " bytes).") ∅.

Definition max_body_size_middleware inner : app := λ r s,
  match declared_length r with
  | Some n => if body_cap r <? n then (Some (too_large n (body_cap r)), s) else inner r s
  | None => inner r s
  end.

(** [request.headers.get("X-Request-ID") or uuid.uuid4().hex[:12]] *)
Definition request_id r : string :=
  match request_headers r !! "x-request-id"%string with
  | Some sent => if String.eqb sent "" then drawn_id r else sent
  | None => drawn_id r
  end.

Definition set_header (name value : string) (a : response) : response :=
  a <| response_headers ::= <[name := value]> |>.

Definition correlation_id_middleware inner : app := λ r s,
  let '(a, s) := inner r (mkstate (api_rate_limiter s) (request_id r) (others s)) in
  (set_header "x-request-id" (request_id r) <$> a, s).

Definition SECURITY_HEADERS : list (string * string) := [
  ("x-content-type-options", "nosniff"); ("x-frame-options", "DENY");
  ("referrer-policy", "strict-origin-when-cross-origin");
  ("content-security-policy",
   "default-src 'none'; frame-ancestors 'none'; base-uri 'none'; form-action 'none'");
  ("permissions-policy",
   "geolocation=(), camera=(), microphone=(), usb=(), payment=(), interest-cohort=()");
  ("cache-control", "no-store")]%string.

Definition HTML_CSP : string :=
  "default-src 'none'; style-src 'unsafe-inline'; img-src 'self' data:; frame-ancestors 'none'; base-uri 'none'; form-action 'none'".

Definition set_default (a : response) (h : string * string) : response :=
  match response_headers a !! h.1 with Some _ => a | None => set_header h.1 h.2 a end.

Definition is_html (a : response) : bool :=
  prefix_of "text/html" (default ""%string (response_headers a !! "content-type"%string)).

Definition secure (a : response) : response :=
  let a := foldl set_default a SECURITY_HEADERS in
  if is_html a then set_header "content-security-policy" HTML_CSP a else a.

Definition security_headers_middleware inner : app := λ r s,
  let '(a, s) := inner r s in (secure <$> a, s).

(** The order of registration, innermost first. *)
Definition stack (CORSMiddleware : app → app) (routes : app) : app :=
  security_headers_middleware (correlation_id_middleware (CORSMiddleware
    (max_body_size_middleware (api_rate_limit_middleware routes)))).

(** ** The CORS middleware, as documented *)

Definition is_preflight r : bool :=
  String.eqb (method r) "OPTIONS" && bool_decide (is_Some (request_headers r !! "origin"%string)) &&
  bool_decide (is_Some (request_headers r !! "access-control-request-method"%string)).

Definition cors_header (name : string) : bool :=
  prefix_of "access-control-" name || String.eqb name "vary".

Definition with_headers (extra : gmap string string) (a : response) : response :=
  a <| response_headers ::= (λ h, extra ∪ h) |>.

Class CorsLaws (CORSMiddleware : app → app) : Prop := {
  cors_preflight : ∀ inner r s, is_preflight r = true → (CORSMiddleware inner r s).2 = s;
  cors_simple : ∀ inner r s, is_preflight r = false →
    ∃ extra, (∀ k v, extra !! k = Some v → cors_header k = true) ∧
      CORSMiddleware inner r s = (with_headers extra <$> (inner r s).1, (inner r s).2) }.

(** ** What a response leaves with *)

Fixpoint header_of (name : string) (l : list (string * string)) : option string :=
  match l with
  | [] => None
  | h :: l => if String.eqb h.1 name then Some h.2 else header_of name l
  end.

Lemma set_header_lookup n v a name :
  response_headers (set_header n v a) !! name =
  if String.eqb n name then Some v else response_headers a !! name.
Proof.
  unfold set_header. simpl. destruct (String.eqb_spec n name) as [->|];
    [apply lookup_insert_eq | by apply lookup_insert_ne].
Qed.

Lemma set_defaults_lookup l a name :
  response_headers (foldl set_default a l) !! name =
  match response_headers a !! name with Some v => Some v | None => header_of name l end.
Proof.
  revert a. induction l as [|[n v] l IH]; intros a; simpl; [by destruct (_ !! _)|].
  rewrite IH. unfold set_default. simpl.
  destruct (response_headers a !! n) as [old|] eqn:Ho; rewrite ?set_header_lookup;
    destruct (String.eqb_spec n name) as [->|]; by rewrite ?Ho.
Qed.

Lemma set_defaults_rest l a :
  status_code (foldl set_default a l) = status_code a ∧ body (foldl set_default a l) = body a.
Proof.
  revert a. induction l as [|[n v] l IH]; intros a; simpl; [done|].
  destruct (IH (set_default a (n, v))) as [-> ->]. unfold set_default. simpl. by destruct (_ !! n).
Qed.

Lemma is_html_defaults a : is_html (foldl set_default a SECURITY_HEADERS) = is_html a.
Proof. unfold is_html. rewrite set_defaults_lookup. by destruct (_ !! _). Qed.

(** The header of an answer that the layers inside set stands, but for the policy
    of a document. *)
Lemma secure_lookup a name :
  response_headers (secure a) !! name =
  if is_html a && String.eqb name "content-security-policy" then Some HTML_CSP
  else match response_headers a !! name with
       | Some v => Some v
       | None => header_of name SECURITY_HEADERS
       end.
Proof.
  unfold secure. rewrite is_html_defaults, <- set_defaults_lookup. destruct (is_html a); [|done].
  rewrite set_header_lookup, (String.eqb_sym name). by destruct (String.eqb _ name).
Qed.

Lemma secure_rest a : status_code (secure a) = status_code a ∧ body (secure a) = body a.
Proof.
  unfold secure. destruct (set_defaults_rest SECURITY_HEADERS a) as [H1 H2].
  by destruct (is_html _).
Qed.

(** ** Who answers a request *)

Section Stack.
Context (CORSMiddleware : app → app) `{laws : !CorsLaws CORSMiddleware} (routes : app).

Definition carries_id r s : state := mkstate (api_rate_limiter s) (request_id r) (others s).
Definition identified r (a : response) : response := set_header "x-request-id" (request_id r) a.

Definition oversized r : bool :=
  match declared_length r with Some n => body_cap r <? n | None => false end.

(** The layers inside CORS, as a list of decisions. *)
Definition decided r s : option response * state :=
  if oversized r then (Some (too_large (default 0 (declared_length r)) (body_cap r)), s)
  else
    match api_rate_limiter s with
    | Some l =>
        if limited_path (path r) then
          let spent := mkstate (Some (check (request_ip r) (arrived r) l).2) (correlation_id s) (others s) in
          match (check (request_ip r) (arrived r) l).1 with
          | Allowed => routes r spent
          | Blocked retry_after => (Some (too_many (retry_seconds retry_after)), spent)
          | NoAttempts => (None, spent)
          end
        else routes r s
    | None => routes r s
    end.

Lemma inner_decided r s :
  max_body_size_middleware (api_rate_limit_middleware routes) r s = decided r s.
Proof.
  unfold max_body_size_middleware, decided, oversized, api_rate_limit_middleware.
  destruct (declared_length r) as [n|]; [destruct (_ <? n); [done|]|];
    destruct (api_rate_limiter s) as [l|]; try done; destruct (limited_path _); try done; simpl;
    by destruct (check _ _ l) as [[] l'].
Qed.

Lemma stack_simple r s :
  is_preflight r = false →
  ∃ extra, (∀ k v, extra !! k = Some v → cors_header k = true) ∧
    stack CORSMiddleware routes r s =
      (secure ∘ identified r ∘ with_headers extra <$> (decided r (carries_id r s)).1,
       (decided r (carries_id r s)).2).
Proof using laws.
  intros Hp. unfold stack, security_headers_middleware, correlation_id_middleware.
  destruct (cors_simple (max_body_size_middleware (api_rate_limit_middleware routes)) r
    (carries_id r s) Hp) as (extra & He & Hc).
  exists extra. split; [done|]. fold (carries_id r s). rewrite Hc, inner_decided.
  by destruct (decided r (carries_id r s)) as [[a|] t].
Qed.

(** Whatever route answers, or none of them: the answer carries the id of the
    request and the six security headers, as the layers inside set them if they
    did; a document always has the policy of documents. *)
Theorem answers_guarded r s a :
  (stack CORSMiddleware routes r s).1 = Some a →
  response_headers a !! "x-request-id"%string = Some (request_id r) ∧
  (∀ name value, (name, value) ∈ SECURITY_HEADERS → is_Some (response_headers a !! name)) ∧
  (is_html a = true → response_headers a !! "content-security-policy"%string = Some HTML_CSP).
Proof.
  unfold stack, security_headers_middleware, correlation_id_middleware.
  destruct (CORSMiddleware _ _ _) as [[b|] s']; [|done]. intros [= <-].
  set (c := set_header _ _ b). split_and!.
  - rewrite secure_lookup, andb_false_r. unfold c. by rewrite set_header_lookup.
  - intros name value Hin. rewrite secure_lookup. destruct (_ && _); [by eexists|].
    destruct (response_headers c !! name); [by eexists|].
    unfold SECURITY_HEADERS in Hin |- *. repeat (apply elem_of_cons in Hin as [[= -> ->]|Hin]; [by eexists|]).
    by apply not_elem_of_nil in Hin.
  - intros Hh. rewrite secure_lookup, String.eqb_refl, andb_true_r.
    assert (is_html c = true) as ->; [|done]. rewrite <- Hh. unfold is_html.
    rewrite secure_lookup, andb_false_r. by destruct (response_headers c !! _).
Qed.

(** What is not the layers' own in an answer comes from inside. *)
Lemma dressed_lookup r extra a name :
  (∀ k v, extra !! k = Some v → cors_header k = true) →
  cors_header name = false → name ≠ "x-request-id"%string →
  header_of name SECURITY_HEADERS = None →
  response_headers (secure (identified r (with_headers extra a))) !! name = response_headers a !! name.
Proof.
  intros He Hc Hn Hs. rewrite secure_lookup. destruct (String.eqb_spec name "content-security-policy") as [->|].
  { done. }
  rewrite andb_false_r. unfold identified. rewrite set_header_lookup, Hs.
  rewrite (proj2 (String.eqb_neq _ _)) by done. unfold with_headers. simpl.
  rewrite lookup_union. destruct (extra !! name) as [v|] eqn:Hv; [apply He in Hv; congruence|].
  destruct (response_headers a !! name); done.
Qed.

Lemma dressed_rest r extra a :
  status_code (secure (identified r (with_headers extra a))) = status_code a ∧
  body (secure (identified r (with_headers extra a))) = body a.
Proof. by destruct (secure_rest (identified r (with_headers extra a))) as [-> ->]. Qed.

Definition same_content (a : option response) (b : option response) : Prop :=
  (λ x, (status_code x, body x)) <$> a = (λ x, (status_code x, body x)) <$> b.

(** C18: one place answers each request.  A preflight costs nothing and reaches no
    route; a body declared too long is refused before it costs anything; under
    [/api/] one attempt is spent, and a request over the limit is told how long to
    wait and reaches no route; every other request gets its route's answer, in the
    state that the layers have left as it was but for the attempt and the id. *)
Theorem stack_correct r s :
  let '(a, s') := stack CORSMiddleware routes r s in
  let served s0 := same_content a (routes r s0).1 ∧ s' = (routes r s0).2 in
  (is_preflight r = true → s' = carries_id r s) ∧
  (is_preflight r = false → oversized r = true →
    (status_code <$> a) = Some 413 ∧ s' = carries_id r s) ∧
  (is_preflight r = false → oversized r = false →
    match api_rate_limiter s with
    | Some l =>
        if limited_path (path r) then
          let (v, l') := check (request_ip r) (arrived r) l in
          let spent := mkstate (Some l') (request_id r) (others s) in
          match v with
          | Allowed => served spent
          | Blocked wait => s' = spent ∧ ∃ b, a = Some b ∧ status_code b = 429 ∧
              response_headers b !! "retry-after"%string = Some (pretty (retry_seconds wait))
          | NoAttempts => a = None
          end
        else served (carries_id r s)
    | None => served (carries_id r s)
    end).
Proof using laws.
  destruct (is_preflight r) eqn:Hp.
  { unfold stack, security_headers_middleware, correlation_id_middleware. fold (carries_id r s).
    pose proof (cors_preflight (max_body_size_middleware (api_rate_limit_middleware routes)) r (carries_id r s) Hp) as Hs.
    destruct (CORSMiddleware _ r (carries_id r s)) as [b t]. simpl in Hs. by subst. }
  destruct (stack_simple r s Hp) as (extra & He & ->).
  assert (Hsame : ∀ o, same_content (secure ∘ identified r ∘ with_headers extra <$> o) o).
  { intros [b|]; [|done]. unfold same_content. cbn [fmap option_fmap option_map]. unfold compose.
    by destruct (dressed_rest r extra b) as [-> ->]. }
  split; [done|]. split; intros _ Ho; unfold decided; rewrite Ho.
  { split; [|done]. cbn [fst fmap option_fmap option_map]. unfold compose.
    by destruct (dressed_rest r extra (too_large (default 0 (declared_length r)) (body_cap r))) as [-> _]. }
  cbn [api_rate_limiter carries_id]. destruct (api_rate_limiter s) as [l|]; [|by split].
  destruct (limited_path _); [|by split].
  destruct (check _ _ l) as [[|wait|] l']; cbn [fst snd correlation_id others carries_id];
    [by split | | done].
  split; [done|]. eexists. split; [done|]. unfold compose.
  rewrite (proj1 (dressed_rest _ _ _)), dressed_lookup by done. done.
Qed.
End Stack.
End Http.
Arguments state : clear implicits.
Arguments app : clear implicits.

(** ** The public endpoints *)

Section Config.
Context `{env : Environment, cfg : Config}.

Record health := mkhealth { h_status : string; h_service : string; h_version : string }.
Definition health_check : health := mkhealth "healthy" "amphive-backend" "2.0.0".

Record public := mkpublic {
  pc_coins_per_kwh : float;
  pc_min_start_balance_coins : float;
  pc_coin_inr_rate : float;
  pc_currency : string;
  pc_google_login_enabled : bool }.

Definition public_config : public :=
  mkpublic COINS_PER_KWH MIN_START_BALANCE_COINS (fint 1) "INR"
    (negb (String.eqb (getenv_or "GOOGLE_CLIENT_ID" "") "")).
End Config.

(** ** Origins *)

Section Origins.
Context `{env : Environment}.

Lemma add_origins_spec raws origins :
  NoDup origins →
  NoDup (foldl add_origin origins raws) ∧
  ∀ o, o ∈ foldl add_origin origins raws ↔
    o ∈ origins ∨ (o ≠ ""%string ∧ ∃ raw, raw ∈ raws ∧ strip raw = o).
Proof.
  revert origins. induction raws as [|raw raws IH]; intros origins Hnd; simpl.
  - split; [done|]. intros o. split; [by left|]. intros [?|(_ & r & Hr & _)]; [done|].
    by apply not_elem_of_nil in Hr.
  - unfold add_origin at 2 4. set (x := strip raw).
    assert (Hstep : NoDup (if String.eqb x "" || bool_decide (x ∈ origins) then origins else origins ++ [x]) ∧
      ∀ o, o ∈ (if String.eqb x "" || bool_decide (x ∈ origins) then origins else origins ++ [x]) ↔
        o ∈ origins ∨ (o ≠ ""%string ∧ x = o)).
    { destruct (String.eqb_spec x "") as [Hx|Hx]; simpl; [|case_bool_decide as Hin].
      - split; [done|]. intros o. split; [by left|]. intros [?|[? ?]]; [done | congruence].
      - split; [done|]. intros o. split; [by left|]. intros [?|[_ <-]]; done.
      - split; [apply NoDup_app; repeat split; [done | intros y Hy Hx'%list_elem_of_singleton; by subst | apply NoDup_singleton]|].
        intros o. rewrite elem_of_app, list_elem_of_singleton.
        split; (intros [?|Ho]; [by left | right]); [by subst | by destruct Ho]. }
    destruct Hstep as [Hnd' Hm]. destruct (IH _ Hnd') as [H1 H2]. split; [done|].
    intros o. rewrite H2, Hm. split.
    + intros [[?|[Hne Hx]]|(Hne & r & Hr & Hs)]; [by left | right; split; [done|] ..].
      * exists raw. split; [left | done].
      * exists r. split; [by right | done].
    + intros [?|(Hne & r & [->|Hr]%elem_of_cons & Hs)]; [by do 2 left | by left; right | right].
      split; [done | by exists r].
Qed.

(** The allowed origins: the two of production, always, and what the variable
    lists, each once; a page served from anywhere else is trusted only by a
    deployment that names it. *)
Theorem origins_listed :
  NoDup cors_allowed_origins ∧
  (∀ o, o ∈ prod_allowed_origins → o ∈ cors_allowed_origins) ∧
  (∀ o, o ∈ cors_allowed_origins → o ∈ prod_allowed_origins ∨
    ∃ raw, raw ∈ split "," (getenv_or "CORS_EXTRA_ORIGINS" "") ∧ strip raw = o ∧ o ≠ ""%string) ∧
  (getenv "CORS_EXTRA_ORIGINS" = None → cors_allowed_origins = prod_allowed_origins).
Proof.
  destruct (add_origins_spec (split "," (getenv_or "CORS_EXTRA_ORIGINS" "")) prod_allowed_origins)
    as [Hnd Hm]; [by apply (bool_decide_unpack _); vm_compute|].
  unfold cors_allowed_origins. split_and!.
  - done.
  - intros o Ho. apply Hm. by left.
  - intros o Ho. apply Hm in Ho as [Ho|(Hne & raw & Hin & Hr)]; [by left | right; by exists raw].
  - unfold getenv_or. intros ->. done.
Qed.
End Origins.
