(* ===== verification/Sockets.v ===== *)
(** * services/socketio_manager.py: live connections

    The python-socketio server is outside the repository: [SocketIO] lists what
    the code calls of it, [SocketIOLaws] what its documentation says of rooms and
    of saved sessions.  A [live] is the server, the stream tasks, the limiter of
    the handshake, the messages sent, and the world of the other handlers.  The
    handlers run between two turns of the event loop as one step; a stream task
    is cut where it waits: before it starts, between two snapshots, between the
    end of the loop and its clean-up, and inside the clean-up.  An exception in
    the database layer of a task is left. *)

From stdpp Require Import pretty strings gmap sets.
From S2P Require Import Prelude Rounding PyNum Money Models Config RateLimit TelemetryStore.
From S2P Require Import World Hoare PyString PyJson Auth Commands Wallet Caps Pricing.
From S2P Require Import Reservations Lifecycle PushGuard RateRules.

(** What [save_session] keeps of a connection. *)
Record saved := mksaved { saved_user_id : Z; saved_tv : Z }.

Class SocketIO := {
  server : Type;
  save_session : string → saved → server → server;
  get_session : string → server → option saved;
  enter_room : string → string → server → server;
  leave_room : string → string → server → server;
  disconnect : string → server → server;
  (* [sio.manager.rooms["/"].get(room)] *)
  participants : string → server → list string;
  everyone : server → list string;
  (* before anyone has connected *)
  nobody : server }.

Class SocketIOLaws `{SocketIO} : Prop := {
  get_save : ∀ sid sid' v io,
    get_session sid' (save_session sid v io) = if String.eqb sid sid' then Some v else get_session sid' io;
  get_enter : ∀ sid sid' room io, get_session sid' (enter_room sid room io) = get_session sid' io;
  get_leave : ∀ sid sid' room io, get_session sid' (leave_room sid room io) = get_session sid' io;
  get_disconnect : ∀ sid sid' io, sid' ≠ sid → get_session sid' (disconnect sid io) = get_session sid' io;
  in_save : ∀ sid sid' v room io,
    sid' ∈ participants room (save_session sid v io) ↔ sid' ∈ participants room io;
  in_enter : ∀ sid sid' room room' io,
    sid' ∈ participants room' (enter_room sid room io) ↔
    (sid' = sid ∧ room' = room) ∨ sid' ∈ participants room' io;
  in_leave : ∀ sid sid' room room' io,
    sid' ∈ participants room' (leave_room sid room io) ↔
    ¬ (sid' = sid ∧ room' = room) ∧ sid' ∈ participants room' io;
  in_disconnect : ∀ sid sid' room io,
    sid' ∈ participants room (disconnect sid io) ↔ sid' ≠ sid ∧ sid' ∈ participants room io;
  in_nobody : ∀ sid room, sid ∉ participants room nobody }.

Inductive target := Everyone | Room (name : string) | To (sid : string).

Inductive message :=
  | MPlugStatus (plug_id : Z) (status : PlugStatus)
  | MPlugConnectivity (plug_id : Z) (gateway_online : bool)
  | MNotification (user_id : Z) (type : string)
  | MGatewayAlarm (gateway_id : string) (event_type : string)
  | MTelemetry (plug_id : Z) (snapshot : TelemetryStore.TelemetrySnapshot) (is_stale : bool)
  | MSubscribed (session_id : Z)
  | MSubscriptionError (detail : string).

(** Where a stream task waits. *)
Inductive phase := Created | Streaming | Ending | Leaving.
#[export] Instance phase_eq_dec : EqDecision phase. Proof. solve_decision. Defined.

Record stream_task := mktask { t_plug_id : Z; t_phase : phase }.

Definition user_room (uid : Z) : string := ("user_" +:+ pretty uid)%string.
Definition session_room (sid : Z) : string := ("session_" +:+ pretty sid)%string.

Section Sockets.
Context `{cfg : Config, env : Environment, cr : Crypto, sio : SocketIO}.
Implicit Types (sid : string) (uid session_id plug_id now : Z) (data : option payload).

Record live := mklive {
  io : server;
  active_streams : gmap Z stream_task;
  connect_limiter : limiter;
  (* who a message went to, when it was sent *)
  sent : list (list string * target * message);
  wld : world }.

#[export] Instance eta_live : Eta live := fun r =>
  mklive (io r) (active_streams r) (connect_limiter r) (sent r) (wld r).

(** ** The monad of the handlers *)

Definition S (A : Type) : Type := live → result A * live.
#[export] Instance S_ret : MRet S := λ A a l, (Ok a, l).
#[export] Instance S_bind : MBind S := λ A B k m l,
  match m l with
  | (Ok a, l') => k a l'
  | (Raise e, l') => (Raise e, l')
  end.

Definition fail_with {A} (e : exn) : S A := λ l, (Raise e, l).
Definition ask {A} (f : live → A) : S A := λ l, (Ok (f l), l).
Definition change (f : live → live) : S unit := λ l, (Ok tt, f l).
Definition on_server (f : server → server) : S unit := change (λ l, l <| io ::= f |>).

(** [async with async_session_factory() as db: m] *)
Definition in_db {A} (m : M A) : S A := λ l,
  let '(a, w) := scope m (wld l) in (a, l <| wld := w |>).

(** The sockets a message reaches. *)
Definition recipients (to : target) (s : server) : list string :=
  match to with Everyone => everyone s | Room name => participants name s | To sid => [sid] end.

Definition sio_emit (to : target) (m : message) : S unit :=
  change (λ l, l <| sent ::= (λ ms, ms ++ [(recipients to (io l), to, m)]) |>).

(** ** What the other handlers emit *)

Definition emit_plug_status plug_id (status : PlugStatus) : S unit :=
  sio_emit Everyone (MPlugStatus plug_id status).
Definition emit_plug_connectivity plug_id (gateway_online : bool) : S unit :=
  sio_emit Everyone (MPlugConnectivity plug_id gateway_online).
Definition emit_notification uid (type : string) : S unit :=
  sio_emit (Room (user_room uid)) (MNotification uid type).
Definition emit_gateway_alarm (gateway_id event_type : string) : S unit :=
  sio_emit Everyone (MGatewayAlarm gateway_id event_type).

(** ** Connections *)

(** What is read of the WSGI environment of a handshake. *)
Record environ := mkenviron {
  scope_client : option string;
  http_x_forwarded_for : option string;
  remote_addr : option string }.

(** [peer or env.get("REMOTE_ADDR")] *)
Definition peer_of (e : environ) : option string :=
  match scope_client e with
  | Some p => if String.eqb p "" then remote_addr e else Some p
  | None => remote_addr e
  end.

Definition handshake_ip (e : environ) : string :=
  client_ip_from_forwarded trusted_proxy_hops (default ""%string (http_x_forwarded_for e)) (peer_of e).

Definition check_connect (ip : string) (clock : float) : S verdict := λ l,
  let '(v, lim) := check ip clock (connect_limiter l) in (Ok v, l <| connect_limiter := lim |>).

(** The claims of a token that the handler goes on with. *)
Definition token_identity (token : string) now : option (Z * Z) :=
  payload ← decode_access_token token now;
  sub ← payload_sub payload;
  if String.eqb sub "" then None
  else user_id ← int_of_str sub; Some (user_id, default 0 (payload_tv payload)).

(** [auth]: the auth payload, when it is a dict; its token, when it is a string
    (any other is refused by the decoder).  [False] refuses the connection. *)
Definition connect sid (e : environ) (token : option string) (clock : float) now : S bool :=
  v ← check_connect (handshake_ip e) clock;
  match v with
  | NoAttempts => fail_with IndexError
  | Blocked _ => mret false
  | Allowed =>
      match token with
      | None | Some EmptyString => mret false
      | Some token =>
          match token_identity token now with
          | None => mret false
          | Some (user_id, token_tv) =>
              user ← in_db (query (λ d, users d !! user_id));
              match user with
              | None => mret false
              | Some user =>
                  if token_tv =? User.token_version user then
                    on_server (save_session sid (mksaved user_id token_tv));;
                    on_server (enter_room sid (user_room user_id));;
                    mret true
                  else mret false
              end
          end
      end
  end.

(** Whether the account behind a socket may still act; the row's columns are
    those of the moment. *)
Definition socket_user_still_valid sid : S bool :=
  session ← ask (λ l, get_session sid (io l));
  match session with
  | None => mret false
  | Some session =>
      if saved_user_id session =? 0 then mret false
      else
        user ← in_db (query (λ d, users d !! saved_user_id session));
        mret match user with
             | None => false
             | Some user => negb (User.is_disabled user) && (User.token_version user =? saved_tv session)
             end
  end.

(** ** The subscription of a session *)

Definition subscription_error sid (detail : string) : S unit :=
  sio_emit (To sid) (MSubscriptionError detail).

Definition start_stream session_id plug_id : S unit :=
  change (λ l, match active_streams l !! session_id with
               | Some _ => l
               | None => l <| active_streams ::= <[session_id := mktask plug_id Created]> |>
               end).

(** [data]: the event's argument, when it is a dict. *)
Definition subscribe_session sid data : S unit :=
  valid ← socket_user_still_valid sid;
  if negb valid then on_server (disconnect sid)
  else
    match data ≫= vassoc "session_id" with
    | None => subscription_error sid "Invalid parameters"
    | Some v =>
        match vint v with
        | Raise OverflowError => fail_with OverflowError
        | Raise _ => subscription_error sid "Invalid session_id"
        | Ok session_id =>
            socket_session ← ask (λ l, get_session sid (io l));
            match socket_session with
            | None => subscription_error sid "Unauthenticated"
            | Some socket_session =>
                let user_id := saved_user_id socket_session in
                if user_id =? 0 then subscription_error sid "Unauthenticated" else
                row ← in_db (query (λ d, s ← sessions d !! session_id;
                  if ChargingSession.user_id s =? user_id then Some s else None));
                match row with
                | None => subscription_error sid "Session not found or unauthorized"
                | Some s =>
                    on_server (enter_room sid (session_room session_id));;
                    sio_emit (To sid) (MSubscribed session_id);;
                    start_stream session_id (ChargingSession.plug_id s)
                end
            end
        end
    end.

Definition unsubscribe_session sid data : S unit :=
  valid ← socket_user_still_valid sid;
  if negb valid then on_server (disconnect sid)
  else
    match data ≫= vassoc "session_id" with
    | None => mret tt
    | Some v =>
        match vint v with
        | Raise OverflowError => fail_with OverflowError
        | Raise _ => mret tt
        | Ok session_id => on_server (leave_room sid (session_room session_id))
        end
    end.

(** ** The stream task of a session *)

Definition set_phase session_id (p : phase) : S unit :=
  change (λ l, l <| active_streams ::= alter (λ t, mktask (t_plug_id t) p) session_id |>).

Definition stream_start session_id plug_id : S unit :=
  in_db (with_store (λ st, TelemetryStore.increment_listeners st plug_id);;
         set_plug_telemetry_interval plug_id 1000);;
  set_phase session_id Streaming.

(** One turn of the loop; [clock] is [time.time()].  Without a snapshot the
    generator yields nothing, and the loop's body does not run. *)
Definition stream_turn session_id plug_id (clock : float) : S unit :=
  frame ← ask (λ l, TelemetryStore.stream_frame (store (wld l)) clock plug_id);
  match frame with
  | None => mret tt
  | Some (snapshot, is_stale, completed) =>
      listeners ← ask (λ l, participants (session_room session_id) (io l));
      match listeners with
      | [] => set_phase session_id Ending
      | _ =>
          sio_emit (Room (session_room session_id)) (MTelemetry plug_id snapshot is_stale);;
          if completed : bool then set_phase session_id Ending else mret tt
      end
  end.

(** [finally:], up to the first await and after the last. *)
Definition stream_cleanup session_id plug_id : S unit :=
  in_db (with_store (λ st, TelemetryStore.decrement_listeners st plug_id);;
         listeners ← read_store (λ st, default 0 (TelemetryStore.active_listeners st !! plug_id));
         when (listeners =? 0) (set_plug_telemetry_interval plug_id 10000));;
  set_phase session_id Leaving.

Definition stream_end session_id : S unit :=
  change (λ l, l <| active_streams ::= delete session_id |>).

(** The next step of a task. *)
Definition stream_telemetry_task session_id (clock : float) : S unit :=
  task ← ask (λ l, active_streams l !! session_id);
  match task with
  | None => mret tt
  | Some (mktask plug_id Created) => stream_start session_id plug_id
  | Some (mktask plug_id Streaming) => stream_turn session_id plug_id clock
  | Some (mktask plug_id Ending) => stream_cleanup session_id plug_id
  | Some (mktask _ Leaving) => stream_end session_id
  end.

(** ** Runs *)

Inductive event :=
  | Connect sid (e : environ) (token : option string) (clock : float) now
  | Disconnected sid
  | Subscribe sid data
  | Unsubscribe sid data
  | Turn session_id (clock : float)
  | Notified uid (type : string).

(** A connection that its handler refuses, or fails on, is closed by the server. *)
Definition react (ev : event) (l : live) : live :=
  match ev with
  | Connect sid e token clock now =>
      match connect sid e token clock now l with
      | (Ok true, l') => l'
      | (_, l') => l' <| io ::= disconnect sid |>
      end
  | Disconnected sid => l <| io ::= disconnect sid |>
  | Subscribe sid data => (subscribe_session sid data l).2
  | Unsubscribe sid data => (unsubscribe_session sid data l).2
  | Turn session_id clock => (stream_telemetry_task session_id clock l).2
  | Notified uid type => (emit_notification uid type l).2
  end.

(** The server gives a new connection an id that is in no room. *)
Definition possible (ev : event) (l : live) : Prop :=
  match ev with Connect sid _ _ _ _ => ∀ room, sid ∉ participants room (io l) | _ => True end.

(** What this part relies on of the others: they leave no transaction open, a
    session stays its driver's and its plug's, and the listeners are counted here
    only. *)
Record elsewhere (w w' : world) : Prop := {
  el_sync : cur w' = com w';
  el_sessions : ∀ n s, sessions (com w) !! n = Some s → ∃ s', sessions (com w') !! n = Some s' ∧
    ChargingSession.user_id s' = ChargingSession.user_id s ∧
    ChargingSession.plug_id s' = ChargingSession.plug_id s;
  el_listeners : TelemetryStore.active_listeners (store w') = TelemetryStore.active_listeners (store w) }.

Inductive step (l : live) : live → Prop :=
  | step_event ev : possible ev l → step l (react ev l)
  | step_elsewhere w : elsewhere (wld l) w → step l (l <| wld := w |>).

Definition boot (lim : limiter) (d : db) : live := mklive nobody ∅ lim [] (world_of d).
Definition reachable (l : live) : Prop := ∃ lim d, rtc step (boot lim d) l.

(** ** What holds in every run *)

Definition owns (w : world) (s : saved) (n : Z) : Prop :=
  ∃ row, sessions (com w) !! n = Some row ∧ ChargingSession.user_id row = saved_user_id s.

Record rooms_ok (i : server) (w : world) : Prop := {
  ro_user : ∀ sid uid, sid ∈ participants (user_room uid) i →
    ∃ s, get_session sid i = Some s ∧ saved_user_id s = uid;
  ro_session : ∀ sid n, sid ∈ participants (session_room n) i →
    ∃ s, get_session sid i = Some s ∧ owns w s n }.

Definition counted plug_id (t : stream_task) : Z :=
  if (t_plug_id t =? plug_id) && bool_decide (t_phase t ∈ [Streaming; Ending]) then 1 else 0.

Definition listeners_of plug_id (w : world) : Z :=
  default 0 (TelemetryStore.active_listeners (store w) !! plug_id).

Record streams_ok (ts : gmap Z stream_task) (w : world) : Prop := {
  so_count : ∀ plug_id, listeners_of plug_id w = msum (counted plug_id) ts;
  so_plug : ∀ n t, ts !! n = Some t →
    ∃ row, sessions (com w) !! n = Some row ∧ ChargingSession.plug_id row = t_plug_id t }.

Record live_ok (l : live) : Prop := {
  lo_rooms : rooms_ok (io l) (wld l);
  lo_streams : streams_ok (active_streams l) (wld l);
  lo_sync : cur (wld l) = com (wld l) }.

(** *** Reasoning about the handlers *)

Definition swp {A} (m : S A) (Q : result A → live → Prop) (l : live) : Prop := Q (m l).1 (m l).2.

Lemma swp_bind {A B} (m : S A) (k : A → S B) Q l :
  swp m (λ r l', match r with Ok a => swp (k a) Q l' | Raise e => Q (Raise e) l' end) l →
  swp (m ≫= k) Q l.
Proof. unfold swp, mbind, S_bind. by destruct (m l) as [[]]. Qed.
Lemma swp_ret {A} (a : A) (Q : result A → live → Prop) l : Q (Ok a) l → swp (mret a) Q l.
Proof. done. Qed.
Lemma swp_fail {A} e (Q : result A → live → Prop) l : Q (Raise e) l → swp (fail_with e) Q l.
Proof. done. Qed.
Lemma swp_ask {A} (f : live → A) (Q : result A → live → Prop) l : Q (Ok (f l)) l → swp (ask f) Q l.
Proof. done. Qed.
Lemma swp_change f (Q : result unit → live → Prop) l : Q (Ok tt) (f l) → swp (change f) Q l.
Proof. done. Qed.
(** A query sees the committed rows and changes nothing. *)
Lemma swp_query {A} (f : db → A) (Q : result A → live → Prop) l :
  cur (wld l) = com (wld l) → Q (Ok (f (com (wld l)))) l → swp (in_db (query f)) Q l.
Proof.
  intros Hs HQ. unfold swp, in_db, scope, run_request, query. simpl. rewrite Hs.
  destruct l as [? ? ? ? [? ? ? ? ?]]. simpl in *. by subst.
Qed.
End Sockets.
Arguments live {_}.
Arguments S {_} _.

Ltac s_step :=
  lazymatch goal with
  | |- swp (mbind _ _) _ _ => apply swp_bind
  | |- swp (mret _) _ _ => apply swp_ret
  | |- swp (fail_with _) _ _ => apply swp_fail
  | |- swp (ask _) _ _ => apply swp_ask
  | |- swp (change _) _ _ => apply swp_change
  | |- swp (on_server _) _ _ => apply swp_change
  | |- swp (sio_emit _ _) _ _ => apply swp_change
  | |- swp (subscription_error _ _) _ _ => apply swp_change
  | |- swp (set_phase _ _) _ _ => apply swp_change
  | |- swp (in_db (query _)) _ _ => apply swp_query; [first [assumption | done] |]
  | |- swp (match ?x with _ => _ end) _ _ => destruct x eqn:?
  end; cbv beta iota.
