(* ===== verification/SocketSafety.v ===== *)
(** * What the sockets promise

    Rooms and stream tasks keep their invariant ([live_ok]) in every run of the
    events of Sockets.v with the other handlers; from it, who hears what, what a
    revoked socket still gets, and when a subscriber is served. *)

From stdpp Require Import pretty strings gmap sets.
From S2P Require Import Prelude Rounding PyNum Money Models Config RateLimit TelemetryStore.
From S2P Require Import World Hoare PyString PyJson Auth Commands Wallet Caps Pricing.
From S2P Require Import Reservations Lifecycle PushGuard RateRules Sockets.

Section Rooms.
Context `{cfg : Config, env : Environment, cr : Crypto, sio : SocketIO, laws : !SocketIOLaws}.
Implicit Types (sid : string) (uid session_id plug_id now : Z) (data : option payload).

Lemma user_room_inj u v : user_room u = user_room v → u = v.
Proof. unfold user_room. by intros H%(inj (String.app _))%(inj pretty). Qed.
Lemma session_room_inj m n : session_room m = session_room n → m = n.
Proof. unfold session_room. by intros H%(inj (String.app _))%(inj pretty). Qed.
Lemma rooms_differ u n : user_room u ≠ session_room n.
Proof. unfold user_room, session_room. rewrite !app_cons. congruence. Qed.

(** *** The moves of the rooms *)

Lemma rooms_disconnect sid i w : rooms_ok i w → rooms_ok (disconnect sid i) w.
Proof using laws.
  intros [Hu Hs]. split; intros s x [Hne Hin]%in_disconnect; rewrite get_disconnect by done; eauto.
Qed.

Lemma rooms_leave sid room i w : rooms_ok i w → rooms_ok (leave_room sid room i) w.
Proof using laws.
  intros [Hu Hs]. split; intros s x [_ Hin]%in_leave; rewrite get_leave; eauto.
Qed.

Lemma rooms_enter_session sid n s i w :
  rooms_ok i w → get_session sid i = Some s → owns w s n → rooms_ok (enter_room sid (session_room n) i) w.
Proof using laws.
  intros [Hu Hs] Hg Ho. split; intros k x Hin%in_enter; rewrite get_enter; destruct Hin as [[-> Hr]|Hin]; eauto.
  - by apply rooms_differ in Hr.
  - apply session_room_inj in Hr as ->. eauto.
Qed.

Lemma rooms_connect sid v i w :
  rooms_ok i w → (∀ room, sid ∉ participants room i) →
  rooms_ok (enter_room sid (user_room (saved_user_id v)) (save_session sid v i)) w.
Proof using laws.
  intros [Hu Hs] Hfresh. split; intros k x Hin%in_enter; rewrite get_enter, get_save;
    destruct Hin as [[-> Hr]|Hin%in_save].
  - apply user_room_inj in Hr as ->. rewrite String.eqb_refl. eauto.
  - destruct (String.eqb_spec sid k) as [->|]; [by apply Hfresh in Hin | eauto].
  - by apply (eq_sym) , rooms_differ in Hr.
  - destruct (String.eqb_spec sid k) as [->|]; [by apply Hfresh in Hin | eauto].
Qed.

(** *** The moves of the streams *)

Lemma msum_alter f (g : stream_task → stream_task) (m : gmap Z stream_task) n t :
  m !! n = Some t → msum f (alter g n m) = msum f m - f t + f (g t).
Proof.
  intros Hn. assert (alter g n m = <[n := g t]> m) as ->; [|by apply msum_update].
  apply map_eq. intros i. destruct (decide (n = i)) as [<-|Hne].
  - by rewrite lookup_alter_eq, lookup_insert_eq, Hn.
  - by rewrite lookup_alter_ne, lookup_insert_ne.
Qed.

(** A task moves on while the listeners of its plug move with it. *)
Lemma streams_phase ts w w' n t p :
  ts !! n = Some t → com w' = com w →
  (∀ plug_id, listeners_of plug_id w' =
    listeners_of plug_id w - counted plug_id t + counted plug_id (mktask (t_plug_id t) p)) →
  streams_ok ts w → streams_ok (alter (λ t, mktask (t_plug_id t) p) n ts) w'.
Proof.
  intros Hn Hc Hl [Hcount Hplug]. split.
  - intros plug_id. by rewrite Hl, Hcount, (msum_alter _ _ _ _ t).
  - intros m u. rewrite Hc. destruct (decide (n = m)) as [<-|Hne].
    + rewrite lookup_alter_eq, Hn. intros [= <-]. apply (Hplug n t Hn).
    + rewrite lookup_alter_ne by done. apply Hplug.
Qed.

Lemma streams_created ts w n row :
  sessions (com w) !! n = Some row → ts !! n = None →
  streams_ok ts w → streams_ok (<[n := mktask (ChargingSession.plug_id row) Created]> ts) w.
Proof.
  intros Hr Hn [Hcount Hplug]. split.
  - intros plug_id. rewrite Hcount, msum_insert_None by done.
    unfold counted at 2. cbn [t_phase]. change (bool_decide (Created ∈ [Streaming; Ending])) with false.
    by rewrite andb_false_r.
  - intros m u [[<- <-]|[_ Hm]]%lookup_insert_Some; [by exists row | by apply Hplug].
Qed.

Lemma streams_left ts w n t :
  ts !! n = Some t → t_phase t = Leaving → streams_ok ts w → streams_ok (delete n ts) w.
Proof.
  intros Hn Hp [Hcount Hplug]. split.
  - intros plug_id. rewrite Hcount, (msum_delete _ ts n t Hn). unfold counted at 1. rewrite Hp.
    change (bool_decide (Leaving ∈ [Streaming; Ending])) with false. by rewrite andb_false_r.
  - intros m u [_ Hm]%lookup_delete_Some. by apply Hplug.
Qed.

(** *** The other parts *)

Lemma rooms_elsewhere i w w' : elsewhere w w' → rooms_ok i w → rooms_ok i w'.
Proof.
  intros He [Hu Hs]. split; [done|]. intros s n Hin. destruct (Hs s n Hin) as (v & Hg & row & Hr & Ho).
  destruct (el_sessions _ _ He n row Hr) as (row' & Hr' & Hu' & _).
  exists v. split; [done|]. exists row'. split; congruence.
Qed.

Lemma live_elsewhere l w : elsewhere (wld l) w → live_ok l → live_ok (l <| wld := w |>).
Proof.
  intros He [Hr [Hcount Hplug] Hs]. split; simpl; [by eapply rooms_elsewhere | | by destruct He].
  split; intros.
  - unfold listeners_of. rewrite (el_listeners _ _ He). apply Hcount.
  - destruct (Hplug n t) as (row & Hn & Hp); [done|].
    destruct (el_sessions _ _ He n row Hn) as (row' & Hr' & _ & Hp'). exists row'. split; congruence.
Qed.

(** A change of the cadence concerns the plug's interval and the broker only. *)
Definition quiet (w w' : world) : Prop :=
  cur w' = cur w ∧ com w' = com w ∧
  TelemetryStore.active_listeners (store w') = TelemetryStore.active_listeners (store w) ∧
  TelemetryStore.data (store w') = TelemetryStore.data (store w).

Lemma interval_quiet plug_id ms w0 : safe (quiet w0) (set_plug_telemetry_interval plug_id ms).
Proof.
  unfold set_plug_telemetry_interval, send_plug_interval, publish. repeat safe_step;
    apply safe_effect; (done || (intros w (? & ? & ? & ?); by split_and!)).
Qed.

(** *** Every step *)

Lemma valid_swp sid (Q : result bool → live → Prop) l :
  cur (wld l) = com (wld l) →
  (∀ s u, get_session sid (io l) = Some s → saved_user_id s ≠ 0 →
    users (com (wld l)) !! saved_user_id s = Some u → User.is_disabled u = false →
    User.token_version u = saved_tv s → Q (Ok true) l) →
  ((∀ s u, get_session sid (io l) = Some s → users (com (wld l)) !! saved_user_id s = Some u →
    User.is_disabled u = false → User.token_version u = saved_tv s → saved_user_id s = 0) →
    Q (Ok false) l) →
  swp (socket_user_still_valid sid) Q l.
Proof.
  intros Hs Ht Hf. unfold socket_user_still_valid. s_step. s_step. s_step.
  2:{ s_step. apply Hf. intros. congruence. }
  s_step.
  { s_step. apply Hf. passed. intros. congruence. }
  s_step. s_step. s_step.
  destruct (users (com (wld l)) !! saved_user_id s) as [u|] eqn:Hu; [|apply Hf; intros; congruence].
  destruct (User.is_disabled u) eqn:Hd; [apply Hf; intros; congruence|]. cbn [negb andb].
  destruct (Z.eqb_spec (User.token_version u) (saved_tv s)); [|apply Hf; intros; congruence].
  passed. eapply Ht; eauto.
Qed.

Lemma live_io l i : rooms_ok i (wld l) → live_ok l → live_ok (l <| io := i |>).
Proof. intros Hi [Hr Hs Hy]. by split. Qed.

Lemma live_sent l ms : live_ok l → live_ok (l <| sent := ms |>).
Proof. intros [Hr Hs Hy]. by split. Qed.

Lemma live_limiter l lim : live_ok l → live_ok (l <| connect_limiter := lim |>).
Proof. intros [Hr Hs Hy]. by split. Qed.

(** A handshake that is let in names an account and carries its present epoch;
    any other leaves everything but the limiter as it was. *)
Lemma connect_swp sid e token clock now (Q : result bool → live → Prop) l :
  cur (wld l) = com (wld l) →
  let lim := (check (handshake_ip e) clock (connect_limiter l)).2 in
  let l1 := l <| connect_limiter := lim |> in
  (∀ t v u, (check (handshake_ip e) clock (connect_limiter l)).1 = Allowed →
    token = Some t → token_identity t now = Some (saved_user_id v, saved_tv v) →
    users (com (wld l)) !! saved_user_id v = Some u → saved_tv v = User.token_version u →
    Q (Ok true) (l1 <| io := enter_room sid (user_room (saved_user_id v)) (save_session sid v (io l)) |>)) →
  (∀ r, r ≠ Ok true → Q r l1) →
  swp (connect sid e token clock now) Q l.
Proof.
  intros Hs lim l1 Ht Hf. unfold connect. s_step. unfold check_connect, swp at 1.
  destruct (check (handshake_ip e) clock (connect_limiter l)) as [v lim'] eqn:Hc.
  cbn [fst snd]. subst lim l1. cbn [snd] in *.
  destruct v; [|by s_step; apply Hf|by s_step; apply Hf].
  destruct token as [t|]; [|by s_step; apply Hf].
  destruct t as [|c t]; [by s_step; apply Hf|].
  destruct (token_identity _ now) as [[uid tv]|] eqn:Hid; [|by s_step; apply Hf].
  s_step. s_step. destruct (users (com (wld l)) !! uid) as [u|] eqn:Hu.
  2:{ change (com (wld (l <| connect_limiter := lim' |>))) with (com (wld l)). rewrite Hu.
      s_step. by apply Hf. }
  change (com (wld (l <| connect_limiter := lim' |>))) with (com (wld l)). rewrite Hu.
  destruct (Z.eqb_spec tv (User.token_version u)) as [Htv|]; [|by s_step; apply Hf].
  do 5 s_step. by apply (Ht (String c t) (mksaved uid tv) u).
Qed.

Lemma connect_ok sid e token clock now l :
  live_ok l → (∀ room, sid ∉ participants room (io l)) →
  live_ok (react (Connect sid e token clock now) l).
Proof using laws.
  intros Hok Hfresh. simpl.
  assert (H : swp (connect sid e token clock now) (λ r l',
    live_ok match r with Ok true => l' | _ => l' <| io ::= disconnect sid |> end) l).
  { apply connect_swp; [apply lo_sync, Hok | |].
    - intros t v u _ _ _ _ _. apply (live_io (l <| connect_limiter := _ |>)); [|by apply live_limiter].
      apply rooms_connect; [exact (lo_rooms _ Hok) | done].
    - intros r Hr. assert (live_ok (l <| connect_limiter := (check (handshake_ip e) clock (connect_limiter l)).2 |>
        <| io ::= disconnect sid |>)).
      { apply (live_io (l <| connect_limiter := _ |>)); [|by apply live_limiter].
        apply rooms_disconnect. exact (lo_rooms _ Hok). }
      by destruct r as [[]|]. }
  unfold swp in H. by destruct (connect _ _ _ _ _ l) as [[[]|] l'].
Qed.

(** What an accepted subscription changes. *)
Definition subscribed sid n (row : ChargingSession.t) (l : live) : live :=
  let l := l <| io ::= enter_room sid (session_room n) |> in
  let l := l <| sent ::= (λ ms, ms ++ [([sid], To sid, MSubscribed n)]) |> in
  match active_streams l !! n with
  | Some _ => l
  | None => l <| active_streams ::= <[n := mktask (ChargingSession.plug_id row) Created]> |>
  end.

(** The socket's account is in order: it exists, is not disabled, and the epoch is
    the one of the handshake. *)
Definition in_order sid (l : live) : Prop :=
  ∃ s u, get_session sid (io l) = Some s ∧ saved_user_id s ≠ 0 ∧
    users (com (wld l)) !! saved_user_id s = Some u ∧ User.is_disabled u = false ∧
    User.token_version u = saved_tv s.

(** The event asks for a session of the socket's user. *)
Definition entitled sid data (l : live) (n : Z) (row : ChargingSession.t) : Prop :=
  ∃ v s, data ≫= vassoc "session_id" = Some v ∧ vint v = Ok n ∧ get_session sid (io l) = Some s ∧
    sessions (com (wld l)) !! n = Some row ∧ ChargingSession.user_id row = saved_user_id s.

Definition told sid (d : string) (l : live) : live :=
  l <| sent ::= (λ ms, ms ++ [([sid], To sid, MSubscriptionError d)]) |>.

Lemma subscribe_swp sid data (Q : result unit → live → Prop) l :
  cur (wld l) = com (wld l) →
  (¬ in_order sid l → Q (Ok tt) (l <| io ::= disconnect sid |>)) →
  (∀ d, in_order sid l → (∀ n row, ¬ entitled sid data l n row) → Q (Ok tt) (told sid d l)) →
  (in_order sid l → (∀ n row, ¬ entitled sid data l n row) → Q (Raise OverflowError) l) →
  (∀ n row, in_order sid l → entitled sid data l n row → Q (Ok tt) (subscribed sid n row l)) →
  swp (subscribe_session sid data) Q l.
Proof.
  intros Hs Hout Hno Hcrash Hyes. unfold subscribe_session. s_step. apply valid_swp; [done | |].
  2:{ intros Hn. cbn [negb]. s_step. apply Hout. intros (s & u & ? & Hz & ? & ? & ?). apply Hz. eauto. }
  intros s u Hg Hz Hu Hd Htv. cbn [negb].
  assert (Hin : in_order sid l) by (by exists s, u).
  destruct (data ≫= vassoc "session_id") as [v|] eqn:Hv.
  2:{ s_step. apply Hno; [done|]. intros n row (v & s' & Hv' & _). congruence. }
  destruct (vint v) as [n|x] eqn:Hn.
  2:{ assert (∀ n row, ¬ entitled sid data l n row)
        by (intros n row (v' & s' & Hv' & Hn' & _); congruence).
      destruct x; s_step; solve [by apply Hno | by apply Hcrash]. }
  s_step. s_step. rewrite Hg. rewrite (proj2 (Z.eqb_neq _ _)) by done.
  s_step. s_step. destruct (sessions (com (wld l)) !! n) as [row|] eqn:Hr; simpl.
  2:{ s_step. apply Hno; [done|]. intros n' row (v' & s' & ? & ? & ? & ? & ?). congruence. }
  destruct (Z.eqb_spec (ChargingSession.user_id row) (saved_user_id s)).
  2:{ s_step. apply Hno; [done|]. intros n' row' (v' & s' & ? & ? & ? & ? & ?). congruence. }
  do 4 s_step. unfold start_stream. s_step. apply (Hyes n row); [done|]. by exists v, s.
Qed.

Lemma subscribed_ok sid n s row l :
  live_ok l → get_session sid (io l) = Some s → sessions (com (wld l)) !! n = Some row →
  ChargingSession.user_id row = saved_user_id s → live_ok (subscribed sid n row l).
Proof using laws.
  intros Hok Hg Hr Ho.
  assert (H1 : live_ok (l <| io ::= enter_room sid (session_room n) |>)).
  { apply live_io; [|done]. apply (rooms_enter_session _ _ s); [apply Hok | done | by exists row]. }
  unfold subscribed. set (l2 := _ <| sent ::= _ |>).
  assert (H2 : live_ok l2) by (by apply live_sent).
  assert (Hr2 : sessions (com (wld l2)) !! n = Some row) by done. clearbody l2.
  destruct (active_streams l2 !! n) eqn:Ha; [done|]. destruct H2 as [? Hst ?]. split; try done.
  by apply streams_created.
Qed.

(** A task's transaction on the telemetry store and the cadence. *)
Lemma in_db_quiet f (m : M unit) (Q : result unit → live → Prop) l :
  (∀ w, safe (quiet w) m) → cur (wld l) = com (wld l) →
  (∀ w, com w = com (wld l) → cur w = com w →
    TelemetryStore.data (store w) = TelemetryStore.data (f (store (wld l))) →
    TelemetryStore.active_listeners (store w) = TelemetryStore.active_listeners (f (store (wld l))) →
    Q (Ok tt) (l <| wld := w |>)) →
  swp (in_db (with_store f;; m)) Q l.
Proof.
  intros Hm Hs HQ. unfold swp, in_db, scope, run_request, mbind, M_bind, with_store. cbv beta iota.
  set (w := (wld l) <| store ::= f |>). destruct (Hm w w) as [Hok (Hc1 & Hc2 & Hl & Hd)]; [by split_and!|].
  destruct (m w) as [[[]|] w'] eqn:Hr; [|done]. simpl in Hc1, Hc2, Hl, Hd |- *.
  apply HQ; simpl; [done | done | by rewrite Hd | by rewrite Hl].
Qed.

Lemma cleanup_quiet plug_id w :
  safe (quiet w) (listeners ← read_store (λ st, default 0 (TelemetryStore.active_listeners st !! plug_id));
    when (listeners =? 0) (set_plug_telemetry_interval plug_id 10000)).
Proof. repeat safe_step. apply interval_quiet. Qed.

Lemma listeners_increment plug_id p w w' :
  TelemetryStore.active_listeners (store w') =
    TelemetryStore.active_listeners (TelemetryStore.increment_listeners (store w) plug_id) →
  listeners_of p w' = listeners_of p w + (if plug_id =? p then 1 else 0).
Proof.
  unfold listeners_of. intros ->. simpl. destruct (Z.eqb_spec plug_id p) as [->|Hne].
  - by rewrite lookup_insert_eq.
  - rewrite lookup_insert_ne by done. lia.
Qed.

(** The floor of a decrement is not reached by a counted listener. *)
Lemma listeners_decrement plug_id p w w' :
  0 < listeners_of plug_id w →
  TelemetryStore.active_listeners (store w') =
    TelemetryStore.active_listeners (TelemetryStore.decrement_listeners (store w) plug_id) →
  listeners_of p w' = listeners_of p w - (if plug_id =? p then 1 else 0).
Proof.
  unfold listeners_of. intros Hp ->. simpl. destruct (Z.eqb_spec plug_id p) as [->|Hne].
  - rewrite lookup_insert_eq. simpl. by rewrite (proj2 (Z.ltb_lt _ _)).
  - rewrite lookup_insert_ne by done. lia.
Qed.

Lemma counted_positive ts w n t :
  streams_ok ts w → ts !! n = Some t → t_phase t = Ending → 0 < listeners_of (t_plug_id t) w.
Proof.
  intros [Hc _] Hn Hp. rewrite Hc. assert (Hge : counted (t_plug_id t) t <= msum (counted (t_plug_id t)) ts).
  { apply (msum_elem_le _ _ n); [|done]. intros j y _. unfold counted. by destruct (_ && _). }
  unfold counted in Hge at 1. rewrite Z.eqb_refl, Hp in Hge. simpl in Hge. lia.
Qed.

(** The next step of a task keeps what holds. *)
Lemma task_ok n clock l : live_ok l → live_ok (stream_telemetry_task n clock l).2.
Proof.
  intros Hok. change (swp (stream_telemetry_task n clock) (λ _, live_ok) l).
  unfold stream_telemetry_task. s_step. s_step.
  destruct (active_streams l !! n) as [[plug p]|] eqn:Hn; [|by s_step].
  pose proof (lo_streams _ Hok) as Hst. pose proof (lo_sync _ Hok) as Hs.
  destruct p.
  - unfold stream_start. s_step. apply in_db_quiet; [intros; apply interval_quiet | done |].
    intros w Hc Hy _ Hl. s_step. destruct Hok as [Hr _ _]. split; [|simpl|done].
    + split; [exact (ro_user _ _ Hr)|]. intros s x Hin. destruct (ro_session _ _ Hr s x Hin) as (v & ? & Ho).
      exists v. split; [done|]. unfold owns in *. simpl. by rewrite Hc.
    + apply (streams_phase _ (wld l) _ _ _ _ Hn); [done | | done]. intros p.
      rewrite (listeners_increment _ _ _ _ Hl). unfold counted. simpl. destruct (plug =? p); simpl; lia.
  - unfold stream_turn. s_step. s_step.
    destruct (TelemetryStore.stream_frame _ _ _) as [[[snap stale] done]|]; [|by s_step].
    assert (Hend : live_ok (l <| active_streams ::= alter (λ t, mktask (t_plug_id t) Ending) n |>)).
    { destruct Hok as [Hr _ _]. split; [done| |done]. simpl.
      apply (streams_phase _ (wld l) _ _ _ _ Hn); [done | | done].
      intros p. unfold counted. simpl. destruct (plug =? p); simpl; lia. }
    s_step. s_step. destruct (participants _ _) as [|x xs]; [by s_step|].
    s_step. s_step. destruct done; [|s_step; by apply live_sent]. s_step.
    destruct Hend as [? ? ?]. by split.
  - unfold stream_cleanup. s_step. apply in_db_quiet; [intros; apply cleanup_quiet | done |].
    intros w Hc Hy _ Hl. s_step. pose proof (counted_positive _ _ _ _ Hst Hn eq_refl) as Hpos.
    destruct Hok as [Hr _ _]. split; [|simpl|done].
    + split; [exact (ro_user _ _ Hr)|]. intros s x Hin. destruct (ro_session _ _ Hr s x Hin) as (v & ? & Ho).
      exists v. split; [done|]. unfold owns in *. simpl. by rewrite Hc.
    + apply (streams_phase _ (wld l) _ _ _ _ Hn); [done | | done]. intros p.
      rewrite (listeners_decrement _ _ _ _ Hpos Hl). unfold counted. simpl.
      destruct (plug =? p); simpl; lia.
  - unfold stream_end. s_step. destruct Hok as [Hr _ _]. split; [done | |done].
    by apply (streams_left _ _ n (mktask plug Leaving)).
Qed.

Lemma unsubscribe_swp sid data (Q : result unit → live → Prop) l :
  cur (wld l) = com (wld l) →
  (¬ in_order sid l → Q (Ok tt) (l <| io ::= disconnect sid |>)) →
  (∀ r, in_order sid l → Q r l) →
  (∀ n, in_order sid l → Q (Ok tt) (l <| io ::= leave_room sid (session_room n) |>)) →
  swp (unsubscribe_session sid data) Q l.
Proof.
  intros Hs Hout Hno Hyes. unfold unsubscribe_session. s_step. apply valid_swp; [done | |].
  2:{ intros Hn. cbn [negb]. s_step. apply Hout. intros (s & u & ? & Hz & ? & ? & ?). apply Hz. eauto. }
  intros s u Hg Hz Hu Hd Htv. cbn [negb].
  assert (Hin : in_order sid l) by (by exists s, u).
  destruct (data ≫= vassoc "session_id") as [v|]; [|s_step; by apply Hno].
  destruct (vint v) as [n|[]]; s_step; auto.
Qed.

Lemma react_ok ev l : live_ok l → possible ev l → live_ok (react ev l).
Proof using laws.
  intros Hok Hp. destruct ev as [sid e token clock now|sid|sid data|sid data|n clock|uid type].
  - by apply connect_ok.
  - apply live_io; [|done]. apply rooms_disconnect. exact (lo_rooms _ Hok).
  - change (swp (subscribe_session sid data) (λ _, live_ok) l). apply subscribe_swp; [apply lo_sync, Hok|..].
    + intros _. apply live_io; [|done]. apply rooms_disconnect. exact (lo_rooms _ Hok).
    + intros d _ _. by apply live_sent.
    + done.
    + intros n row _ (v & s & _ & _ & Hg & Hr & Ho). by eapply subscribed_ok.
  - change (swp (unsubscribe_session sid data) (λ _, live_ok) l). apply unsubscribe_swp; [apply lo_sync, Hok|..].
    + intros _. apply live_io; [|done]. apply rooms_disconnect. exact (lo_rooms _ Hok).
    + done.
    + intros n _. apply live_io; [|done]. apply rooms_leave. exact (lo_rooms _ Hok).
  - by apply task_ok.
  - by apply live_sent.
Qed.

Lemma live_reachable_ok l : reachable l → live_ok l.
Proof using laws.
  intros (lim & d & Hr). revert Hr. apply rtc_ind_r; clear l.
  - split; [split|split|done]; simpl.
    + intros sid uid Hin. by apply in_nobody in Hin.
    + intros sid n Hin. by apply in_nobody in Hin.
    + intros plug_id. by rewrite msum_empty.
    + intros n t Hn. by rewrite lookup_empty in Hn.
  - intros l l' _ Hstep Hok. destruct Hstep as [ev Hp|w He]; [by apply react_ok | by apply live_elsewhere].
Qed.

(** ** What the clients see *)





(** A plug has as many listeners as tasks that have begun and not cleaned up, so no
    decrement is cut off at zero and the cadence goes back when the last one ends. *)
Theorem listeners_counted l plug_id :
  reachable l → listeners_of plug_id (wld l) = msum (counted plug_id) (active_streams l).
Proof using laws. intros Hok%live_reachable_ok. by destruct Hok as [_ [Hc _] _]. Qed.

(** A connection comes in through the limiter and with a token that names an
    account and carries its present epoch; it is then in its user's room and no
    other.  A connection that does not come in is in no room. *)
Theorem handshake_correct sid e token clock now l :
  reachable l → (∀ room, sid ∉ participants room (io l)) →
  let l' := react (Connect sid e token clock now) l in
  active_streams l' = active_streams l ∧ wld l' = wld l ∧
  ((∃ t s u, (check (handshake_ip e) clock (connect_limiter l)).1 = Allowed ∧
      token = Some t ∧ token_identity t now = Some (saved_user_id s, saved_tv s) ∧
      users (com (wld l)) !! saved_user_id s = Some u ∧ User.token_version u = saved_tv s ∧
      get_session sid (io l') = Some s ∧
      ∀ room, sid ∈ participants room (io l') ↔ room = user_room (saved_user_id s)) ∨
   ∀ room, sid ∉ participants room (io l')).
Proof using laws.
  intros Hok%live_reachable_ok Hfresh l'.
  assert (H : swp (connect sid e token clock now) (λ r l1,
    let l2 := match r with Ok true => l1 | _ => l1 <| io ::= disconnect sid |> end in
    active_streams l2 = active_streams l ∧ wld l2 = wld l ∧
    ((∃ t s u, (check (handshake_ip e) clock (connect_limiter l)).1 = Allowed ∧
      token = Some t ∧ token_identity t now = Some (saved_user_id s, saved_tv s) ∧
      users (com (wld l)) !! saved_user_id s = Some u ∧ User.token_version u = saved_tv s ∧
      get_session sid (io l2) = Some s ∧
      ∀ room, sid ∈ participants room (io l2) ↔ room = user_room (saved_user_id s)) ∨
     ∀ room, sid ∉ participants room (io l2))) l).
  { apply connect_swp; [apply lo_sync, Hok| |].
    - intros t v u Hc Ht Hid Hu Htv. split; [done|]. split; [done|]. left. exists t, v, u.
      split_and!; try done.
      + simpl. by rewrite get_enter, get_save, String.eqb_refl.
      + intros room. simpl. rewrite in_enter, in_save. split.
        * intros [[_ ->]|Hin]; [done|]. by apply Hfresh in Hin.
        * intros ->. by left.
    - intros r Hr. assert (Hd : ∀ room, sid ∉ participants room (disconnect sid (io l)))
        by (by intros room [Hne _]%in_disconnect).
      destruct r as [[]|]; [done|..]; (split; [done|]; split; [done | by right]). }
  subst l'. unfold swp in H. simpl. by destruct (connect _ _ _ _ _ l) as [[[]|] l1].
Qed.

(** A socket whose account has been disabled, removed or signed out everywhere is
    put out of every room by its next event, which does nothing else. *)
Theorem revoked_booted sid data ev l :
  reachable l → ¬ in_order sid l → ev = Subscribe sid data ∨ ev = Unsubscribe sid data →
  (∀ room, sid ∉ participants room (io (react ev l))) ∧
  active_streams (react ev l) = active_streams l ∧ sent (react ev l) = sent l ∧
  wld (react ev l) = wld l.
Proof using laws.
  intros Hok%live_reachable_ok Hno Hev. pose proof (lo_sync _ Hok) as Hs.
  assert (Hout : react ev l = l <| io ::= disconnect sid |>).
  { destruct Hev as [-> | ->].
    - change (swp (subscribe_session sid data) (λ _ l', l' = l <| io ::= disconnect sid |>) l).
      by apply subscribe_swp.
    - change (swp (unsubscribe_session sid data) (λ _ l', l' = l <| io ::= disconnect sid |>) l).
      by apply unsubscribe_swp. }
  rewrite Hout. split; [|done]. by intros room [Hne _]%in_disconnect.
Qed.

(** A subscription to one's own session puts the socket in its room, next to a
    task for its plug; one to anything else changes no room and no task. *)
Theorem socket_subscribe_correct sid data l :
  reachable l → in_order sid l →
  let l' := react (Subscribe sid data) l in
  (∀ n row, entitled sid data l n row →
    sid ∈ participants (session_room n) (io l') ∧
    ∃ t, active_streams l' !! n = Some t ∧ t_plug_id t = ChargingSession.plug_id row) ∧
  ((∀ n row, ¬ entitled sid data l n row) →
    io l' = io l ∧ active_streams l' = active_streams l ∧ wld l' = wld l).
Proof using laws.
  intros Hok%live_reachable_ok Hin l'.
  change (swp (subscribe_session sid data) (λ _ l',
    (∀ n row, entitled sid data l n row →
      sid ∈ participants (session_room n) (io l') ∧
      ∃ t, active_streams l' !! n = Some t ∧ t_plug_id t = ChargingSession.plug_id row) ∧
    ((∀ n row, ¬ entitled sid data l n row) →
      io l' = io l ∧ active_streams l' = active_streams l ∧ wld l' = wld l)) l).
  clear l'. apply subscribe_swp; [apply lo_sync, Hok | done | | |].
  - intros d _ Hne. split; [|done]. intros n row He. by apply Hne in He.
  - intros _ Hne. split; [|done]. intros n row He. by apply Hne in He.
  - intros n row _ He. split; [|intros Hne; by apply Hne in He].
    intros n' row' (v' & s' & Hv' & Hn' & _ & Hr' & _). destruct He as (v & s & Hv & Hn & _ & Hr & _).
    assert (n' = n) as -> by congruence. assert (row' = row) as -> by congruence.
    unfold subscribed. simpl. destruct (active_streams l !! n) as [t|] eqn:Ht; simpl.
    + split; [apply in_enter; by left|]. exists t. split; [done|].
      destruct (so_plug _ _ (lo_streams _ Hok) _ _ Ht) as (row2 & ? & ?). congruence.
    + split; [apply in_enter; by left|]. eexists. split; [apply lookup_insert_eq | done].
Qed.

(** A task on a plug the store has no snapshot of stays where it is, whether or not
    anybody listens. *)
Theorem silent_plug_waits n plug_id clock l :
  active_streams l !! n = Some (mktask plug_id Streaming) →
  TelemetryStore.data (store (wld l)) !! plug_id = None →
  react (Turn n clock) l = l.
Proof.
  intros Hn Hd. change (swp (stream_telemetry_task n clock) (λ _ l', l' = l) l).
  unfold stream_telemetry_task. s_step. s_step. rewrite Hn. unfold stream_turn. s_step. s_step.
  unfold TelemetryStore.stream_frame, TelemetryStore.get_latest. rewrite Hd. by s_step.
Qed.

(** One turn of a task that streams: somebody listens, and there is a snapshot. *)
Lemma turn_sends n plug_id clock l sid :
  active_streams l !! n = Some (mktask plug_id Streaming) →
  is_Some (TelemetryStore.data (store (wld l)) !! plug_id) →
  sid ∈ participants (session_room n) (io l) →
  ∃ rs snap stale, (rs, Room (session_room n), MTelemetry plug_id snap stale) ∈ sent (react (Turn n clock) l) ∧
    sid ∈ rs.
Proof.
  intros Hn [d Hd] Hin.
  change (swp (stream_telemetry_task n clock) (λ _ l', ∃ rs snap stale,
    (rs, Room (session_room n), MTelemetry plug_id snap stale) ∈ sent l' ∧ sid ∈ rs) l).
  unfold stream_telemetry_task. s_step. s_step. rewrite Hn. unfold stream_turn. s_step. s_step.
  unfold TelemetryStore.stream_frame, TelemetryStore.get_latest. rewrite Hd. cbv zeta.
  s_step. s_step. destruct (participants (session_room n) (io l)) as [|x xs] eqn:Hp.
  { by apply not_elem_of_nil in Hin. }
  assert (Hsent : ∀ snap stale, (participants (session_room n) (io l), Room (session_room n),
      MTelemetry plug_id snap stale) ∈ sent l ++ [(participants (session_room n) (io l), Room (session_room n),
      MTelemetry plug_id snap stale)]) by (intros; apply elem_of_app; right; left).
  s_step. s_step. case_bool_decide; s_step; do 3 eexists; (split; [apply Hsent | by rewrite Hp]).
Qed.

(** The first step of a task changes neither the rooms nor the snapshots. *)
Lemma turn_starts n plug_id clock l :
  cur (wld l) = com (wld l) → active_streams l !! n = Some (mktask plug_id Created) →
  let l' := react (Turn n clock) l in
  active_streams l' !! n = Some (mktask plug_id Streaming) ∧ io l' = io l ∧ sent l' = sent l ∧
  TelemetryStore.data (store (wld l')) = TelemetryStore.data (store (wld l)).
Proof.
  intros Hs Hn. change (swp (stream_telemetry_task n clock) (λ _ l',
    active_streams l' !! n = Some (mktask plug_id Streaming) ∧ io l' = io l ∧ sent l' = sent l ∧
    TelemetryStore.data (store (wld l')) = TelemetryStore.data (store (wld l))) l).
  unfold stream_telemetry_task. s_step. s_step. rewrite Hn. unfold stream_start. s_step.
  apply in_db_quiet; [intros; apply interval_quiet | done |].
  intros w _ _ Hd _. s_step. split; [|done]. simpl. by rewrite lookup_alter_eq, Hn.
Qed.

(** A subscriber gets a frame of its plug within two turns of its session's task,
    when the store has a snapshot, unless the task was already on its way out when
    the subscription came. *)
Theorem subscription_served sid data l n row clock :
  reachable l → in_order sid l → entitled sid data l n row →
  is_Some (TelemetryStore.data (store (wld l)) !! ChargingSession.plug_id row) →
  (∀ t, active_streams l !! n = Some t → t_phase t ≠ Ending ∧ t_phase t ≠ Leaving) →
  let l1 := react (Subscribe sid data) l in
  let l2 := react (Turn n clock) l1 in
  let l3 := react (Turn n clock) l2 in
  ∃ rs snap stale, (rs, Room (session_room n), MTelemetry (ChargingSession.plug_id row) snap stale)
    ∈ sent l2 ++ sent l3 ∧ sid ∈ rs.
Proof using laws.
  intros Hreach Hin He Hd Hphase. cbv zeta. pose proof (live_reachable_ok _ Hreach) as Hok.
  pose proof (react_ok (Subscribe sid data) l Hok I) as Hok1.
  destruct (socket_subscribe_correct sid data l Hreach Hin) as [Hyes _].
  destruct (Hyes n row He) as [Hroom (t & Ht & Hplug)]. clear Hyes.
  assert (H1 : t_phase t ≠ Ending ∧ t_phase t ≠ Leaving ∧
    store (wld (react (Subscribe sid data) l)) = store (wld l)).
  { revert t Ht Hplug. change (swp (subscribe_session sid data) (λ _ l', ∀ t, active_streams l' !! n = Some t →
      t_plug_id t = ChargingSession.plug_id row →
      t_phase t ≠ Ending ∧ t_phase t ≠ Leaving ∧ store (wld l') = store (wld l)) l).
    apply subscribe_swp; [apply lo_sync, Hok | done | naive_solver..|].
    intros n' row' _ He' t. unfold subscribed. simpl.
    destruct (active_streams l !! n') eqn:Hn'; simpl; [naive_solver|].
    intros [[-> <-]|[_ Ht]]%lookup_insert_Some _; [done | naive_solver]. }
  destruct H1 as (Hp1 & Hp2 & Hst). set (l1 := react (Subscribe sid data) l) in *.
  rewrite <- Hst in Hd. rewrite <- Hplug in Hd |- *. destruct t as [plug p]. simpl in *. destruct p; try done.
  - destruct (turn_starts n plug clock l1 (lo_sync _ Hok1) Ht) as (Ht2 & Hio & _ & Hd2).
    destruct (turn_sends n plug clock (react (Turn n clock) l1) sid) as (rs & snap & stale & ? & ?).
    { done. } { by rewrite Hd2. } { by rewrite Hio. }
    exists rs, snap, stale. split; [apply elem_of_app; by right | done].
  - destruct (turn_sends n plug clock l1 sid) as (rs & snap & stale & ? & ?); [done..|].
    exists rs, snap, stale. split; [apply elem_of_app; by left | done].
Qed.
End Rooms.
