(* ===== verification/Notifications.v ===== *)
(** * services/notifications.py, routers/notifications.py: the feed and its delivery

    A [desk] is the live connections with the world behind them, which holds the
    feed, and what was posted to push services.  The push service is a parameter
    ([WebPush], the answer of pywebpush).  [notify] runs as one step: its
    transactions are its own, and what the other handlers do while a post is on
    its way is left.  [deliver] runs the effects of the other handlers, which
    hold no texts: [wording] gives them. *)

From stdpp Require Import pretty strings gmap sorting.
From Stdlib Require Import Sorted.
From S2P Require Import Prelude Rounding PyNum Money Models Config RateLimit TelemetryStore.
From S2P Require Import World Hoare PyString PyJson Auth Commands Wallet Caps Pricing.
From S2P Require Import Reservations Lifecycle PushGuard Plugs Workspace RateRules Sockets.

(** [PushGone]: 404 or 410. *)
Inductive push_answer := PushTaken | PushGone | PushFailed.

Class WebPush := webpush : PushSubscription.t → Z → push_answer.

Section Notifications.
Context `{cfg : Config, env : Environment, cr : Crypto, sio : SocketIO, wp : WebPush}.
Implicit Types (uid now : Z).

Record desk := mkdesk {
  clients : live;
  (* endpoint and notification of each post *)
  posted : list (string * Z) }.

#[export] Instance eta_desk : Eta desk := fun r => mkdesk (clients r) (posted r).

Implicit Types (k : desk).

Definition office k : world := wld (clients k).
Definition feed k : gmap Z Notification.t := notifications (com (office k)).
Definition next_note k : Z := next_id (com (office k)).

(** Run on the connections; in a transaction of its own. *)
Definition on_clients {A} (m : S A) k : desk := k <| clients := (m (clients k)).2 |>.
Definition writes (f : db → db) k : desk := on_clients (in_db (modify f;; commit)) k.

(** ** Web push *)

Definition VAPID_PRIVATE_KEY : string := getenv_or "VAPID_PRIVATE_KEY" "".
Definition push_enabled : bool := negb (String.eqb VAPID_PRIVATE_KEY "").

(** Whether the subscription is gone; an unsafe endpoint is not posted to. *)
Definition send_one_push (sub : PushSubscription.t) (n : Z) k : bool * desk :=
  if negb (is_safe_push_endpoint (PushSubscription.endpoint sub)) then (false, k)
  else
    (match webpush sub n with PushGone => true | _ => false end,
     k <| posted ::= (λ l, l ++ [(PushSubscription.endpoint sub, n)]) |>).

Fixpoint send_pushes (subs : list (Z * PushSubscription.t)) (n : Z) k : list Z * desk :=
  match subs with
  | [] => ([], k)
  | (i, sub) :: subs =>
      let '(gone, k) := send_one_push sub n k in
      let '(dead, k) := send_pushes subs n k in
      (if gone then i :: dead else dead, k)
  end.

Definition push_to_user uid (n : Z) k : desk :=
  if negb push_enabled then k
  else
    let subs := select (λ _ s, PushSubscription.user_id s =? uid) (push_subscriptions (com (office k))) in
    let '(dead, k) := send_pushes subs n k in
    match dead with
    | [] => k
    | _ => writes (λ d, d <| push_subscriptions ::= delete_where (λ i _, bool_decide (i ∈ dead)) |>) k
    end.

(** ** notify *)

Definition refers {A} (m : gmap Z A) (o : option Z) : bool :=
  match o with Some i => bool_decide (is_Some (m !! i)) | None => true end.

(** The foreign keys of the row. *)
Definition storable uid (plug_id session_id : option Z) (d : db) : bool :=
  bool_decide (is_Some (users d !! uid)) && refers (plugs d) plug_id && refers (sessions d) session_id.

Definition note_of uid (type title body severity : string) (plug_id session_id : option Z) now
    : Notification.t :=
  Notification.mk uid (str_take 32 type) (str_take 16 severity)
    (str_take 120 title) (str_take 500 body) plug_id session_id false now.

Definition with_note (x : Notification.t) (d : db) : db :=
  d <| notifications ::= <[next_id d := x]> |> <| next_id ::= Z.succ |>.

(** [None] when the row was not stored: nothing else is tried then. *)
Definition notify uid (type title body severity : string) (plug_id session_id : option Z) now k
    : option Z * desk :=
  if storable uid plug_id session_id (com (office k)) then
    let n := next_note k in
    let note := note_of uid type title body severity plug_id session_id now in
    let k := writes (with_note note) k in
    let k := on_clients (emit_notification uid (Notification.type note)) k in
    (Some n, push_to_user uid n k)
  else (None, k).

(** ** The routes *)

Definition unread_of uid (x : Notification.t) : bool :=
  (Notification.user_id x =? uid) && negb (Notification.read x).

Definition feed_filter uid (unread_only : bool) (x : Notification.t) : bool :=
  (Notification.user_id x =? uid) && (negb unread_only || negb (Notification.read x)).

Definition list_notifications uid (unread_only : bool) (limit : Z) k : list (Z * Notification.t) * Z :=
  (take (Z.to_nat (Z.max 1 (Z.min limit 200)))
     (order_by2 (λ r, - Notification.created_at r.2) (λ r, - r.1)
        (select (λ _, feed_filter uid unread_only) (feed k))),
   count (unread_of uid) (feed k)).

Definition read_note (x : Notification.t) : Notification.t := x <| Notification.read := true |>.

Definition mark_notification_read uid (notification_id : Z) k : result unit * desk :=
  match feed k !! notification_id with
  | Some x =>
      if Notification.user_id x =? uid then
        (Ok tt, writes (λ d, d <| notifications ::= <[notification_id := read_note x]> |>) k)
      else (Raise (HTTPException 404 "Notification not found."), k)
  | None => (Raise (HTTPException 404 "Notification not found."), k)
  end.

Definition mark_all_notifications_read uid k : Z * desk :=
  (count (unread_of uid) (feed k), writes (λ d, d <| notifications ::= update_where (unread_of uid) read_note |>) k).

(** [py_vapid] derives the key; the empty key when push is off or that fails. *)
Definition get_push_public_key (derive : string → option string) : bool * string :=
  let key := if push_enabled then default ""%string (derive VAPID_PRIVATE_KEY) else ""%string in
  (negb (String.eqb key ""), key).

(** ** Delivery *)

Record desk_ok (k : desk) : Prop := {
  dk_fresh : ∀ i x, feed k !! i = Some x → i < next_note k;
  dk_sync : cur (office k) = com (office k) }.

Definition postable (r : Z * PushSubscription.t) : bool :=
  is_safe_push_endpoint (PushSubscription.endpoint r.2).
Definition is_gone (a : push_answer) : bool := match a with PushGone => true | _ => false end.
Definition gone_of (n : Z) (r : Z * PushSubscription.t) : bool := postable r && is_gone (webpush r.2 n).

Lemma send_pushes_spec subs n k :
  send_pushes subs n k =
  (map fst (List.filter (gone_of n) subs),
   k <| posted ::= (λ l, l ++ map (λ r, (PushSubscription.endpoint r.2, n)) (List.filter postable subs)) |>).
Proof.
  revert k. induction subs as [|[i sub] subs IH]; intros k.
  { destruct k. simpl. by rewrite app_nil_r. }
  cbn [send_pushes List.filter]. unfold send_one_push.
  change (is_safe_push_endpoint (PushSubscription.endpoint sub)) with (postable (i, sub)).
  assert (Hg : gone_of n (i, sub) = postable (i, sub) && is_gone (webpush sub n)) by done. rewrite Hg.
  destruct (postable (i, sub)); cbn [negb andb].
  - rewrite IH. fold (is_gone (webpush sub n)). destruct k as [c p].
    destruct (is_gone (webpush sub n)); simpl; by rewrite <- app_assoc.
  - by rewrite IH.
Qed.

(** What a push of the notification [n] leaves of the subscriptions. *)
Definition pruned uid (n : Z) (m : gmap Z PushSubscription.t) : gmap Z PushSubscription.t :=
  if push_enabled then delete_where (λ i s, (PushSubscription.user_id s =? uid) && gone_of n (i, s)) m
  else m.

Definition with_db (f : db → db) (l : live) : live :=
  l <| wld ::= (λ w, w <| cur ::= f |> <| com ::= f |>) |>.
Abbreviation with_subscriptions h := (with_db (λ d, d <| push_subscriptions ::= h |>)).

(** A transaction of its own writes what it writes, when none is open. *)
Lemma writes_spec f k : cur (office k) = com (office k) → writes f k = k <| clients ::= with_db f |>.
Proof.
  intros Hs. unfold writes, on_clients, with_db. destruct k as [[i a c s [cu co st me ev]] q].
  unfold office in Hs. simpl in *. by subst cu.
Qed.

Lemma with_db_ext f g (l : live) :
  cur (wld l) = com (wld l) → f (com (wld l)) = g (com (wld l)) → with_db f l = with_db g l.
Proof.
  unfold with_db. intros Hs Hh. destruct l as [i a c s [cu co st me ev]]. simpl in *. subst cu.
  by rewrite Hh.
Qed.

Lemma with_db_same f (l : live) : cur (wld l) = com (wld l) → f (com (wld l)) = com (wld l) → with_db f l = l.
Proof.
  unfold with_db. intros Hs Hh. destruct l as [i a c s [cu co st me ev]]. simpl in *. subst cu. by rewrite Hh.
Qed.

Lemma same_subscriptions h h' d :
  h (push_subscriptions d) = h' (push_subscriptions d) →
  d <| push_subscriptions ::= h |> = d <| push_subscriptions ::= h' |>.
Proof. destruct d. simpl. by intros ->. Qed.

Lemma kept_subscriptions h d :
  h (push_subscriptions d) = push_subscriptions d → d <| push_subscriptions ::= h |> = d.
Proof. destruct d. simpl. by intros ->. Qed.

Lemma clients_same (f : live → live) k : f (clients k) = clients k → k <| clients ::= f |> = k.
Proof. destruct k. simpl. by intros ->. Qed.

Lemma posted_none k : k <| posted ::= (λ l, l ++ []) |> = k.
Proof. destruct k. simpl. by rewrite app_nil_r. Qed.

Lemma clients_ext (f g : live → live) k :
  f (clients k) = g (clients k) → k <| clients ::= f |> = k <| clients ::= g |>.
Proof. destruct k. simpl. by intros ->. Qed.

Lemma push_to_user_spec uid n k :
  cur (office k) = com (office k) →
  let subs := select (λ _ s, PushSubscription.user_id s =? uid) (push_subscriptions (com (office k))) in
  push_to_user uid n k =
  k <| posted ::= (λ l, l ++ if push_enabled then
      map (λ r, (PushSubscription.endpoint r.2, n)) (List.filter postable subs) else []) |>
    <| clients ::= with_subscriptions (pruned uid n) |>.
Proof.
  intros Hs subs. unfold push_to_user.
  assert (Hsame : ∀ h, h (push_subscriptions (com (office k))) = push_subscriptions (com (office k)) →
    with_subscriptions h (clients k) = clients k)
    by (intros; apply with_db_same; [done | by apply kept_subscriptions]).
  unfold pruned. destruct push_enabled; cbn [negb].
  2:{ rewrite posted_none, clients_same; [done | by apply Hsame]. }
  rewrite send_pushes_spec. fold subs.
  assert (Hin : ∀ i s, push_subscriptions (com (office k)) !! i = Some s →
    bool_decide (i ∈ map fst (List.filter (gone_of n) subs)) =
    (PushSubscription.user_id s =? uid) && gone_of n (i, s)).
  { intros i s Hi. apply Bool.eq_iff_eq_true. rewrite bool_decide_eq_true, andb_true_iff.
    rewrite list_elem_of_In, in_map_iff. split.
    - intros ([j t] & <- & [Hj Hg]%filter_In). apply list_elem_of_In, elem_of_select in Hj as [Hj Hu].
      simpl in *. simplify_eq. done.
    - intros [Hu Hg]. exists (i, s). split; [done|]. apply filter_In. split; [|done].
      apply list_elem_of_In, elem_of_select. done. }
  set (dead := map fst _) in *.
  assert (Hdel : delete_where (λ i _, bool_decide (i ∈ dead)) (push_subscriptions (com (office k))) =
    delete_where (λ i s, (PushSubscription.user_id s =? uid) && gone_of n (i, s))
      (push_subscriptions (com (office k)))).
  { apply map_eq. intros i. apply option_eq. intros s. rewrite !lookup_delete_where.
    split; intros [Hi Hd]; (split; [done|]); [by rewrite <- (Hin i s Hi) | by rewrite (Hin i s Hi)]. }
  destruct dead as [|i0 dead'] eqn:Hdead.
  - symmetry. apply clients_same, Hsame. rewrite <- Hdel. apply map_eq. intros i. apply option_eq. intros s.
    rewrite lookup_delete_where. split; [by intros [? _]|]. intros Hi. split; [done|].
    apply bool_decide_eq_false. apply not_elem_of_nil.
  - rewrite <- Hdead in Hdel |- *. rewrite writes_spec by done.
    apply clients_ext, with_db_ext; [done | by apply same_subscriptions].
Qed.

(** ** The effects of the other handlers *)

Context (wording : effect → string * string).

Definition deliver1 now (k : desk) (e : effect) : desk :=
  match e with
  | Notify uid type severity plug_id session_id =>
      (notify uid type (wording e).1 (wording e).2 severity plug_id session_id now k).2
  | EmitPlugStatus plug_id status => on_clients (emit_plug_status plug_id status) k
  | EmitPlugConnectivity plug_id online => on_clients (emit_plug_connectivity plug_id online) k
  | EmitGatewayAlarm gateway_id _ event_type _ => on_clients (emit_gateway_alarm gateway_id event_type) k
  | _ => k
  end.

Definition deliver now (es : list effect) (k : desk) : desk := foldl (deliver1 now) k es.

(** The transactions of [notify], as one. *)
Lemma notify_spec uid type title body severity plug_id session_id now k :
  desk_ok k → storable uid plug_id session_id (com (office k)) = true →
  let note := note_of uid type title body severity plug_id session_id now in
  let k' := (notify uid type title body severity plug_id session_id now k).2 in
  com (office k') = (with_note note (com (office k))) <| push_subscriptions ::= pruned uid (next_note k) |> ∧
  cur (office k') = com (office k').
Proof.
  intros [Hf Hs] Hst note. unfold notify. rewrite Hst. cbn [snd]. fold note.
  rewrite writes_spec by done. unfold on_clients.
  rewrite push_to_user_spec; unfold office in *; simpl; rewrite Hs; [by split | done].
Qed.

Lemma desk_notify uid type title body severity plug_id session_id now k :
  desk_ok k → desk_ok (notify uid type title body severity plug_id session_id now k).2.
Proof.
  intros Hok. destruct (storable uid plug_id session_id (com (office k))) eqn:Hst.
  2:{ unfold notify. by rewrite Hst. }
  destruct (notify_spec uid type title body severity plug_id session_id now k Hok Hst) as [Hc Hs].
  destruct Hok as [Hf _]. split; [|done]. unfold feed, next_note in *. rewrite Hc. simpl.
  intros i x [[<- _]|[_ Hi]]%lookup_insert_Some; [lia | specialize (Hf i x Hi); lia].
Qed.

(** A notification is one new row, unread and cut to its columns; it goes live to
    the sockets in its user's room, and by push to the safe endpoints of its
    user's devices; the devices that are gone are forgotten, and nothing else
    changes.  One that cannot be stored goes nowhere. *)
Theorem notify_correct uid type title body severity plug_id session_id now k :
  desk_ok k →
  let '(out, k') := notify uid type title body severity plug_id session_id now k in
  if storable uid plug_id session_id (com (office k)) then
    out = Some (next_note k) ∧ feed k !! next_note k = None ∧
    feed k' = <[next_note k := note_of uid type title body severity plug_id session_id now]> (feed k) ∧
    sent (clients k') = sent (clients k) ++
      [(participants (user_room uid) (io (clients k)), Room (user_room uid),
        MNotification uid (str_take 32 type))] ∧
    io (clients k') = io (clients k) ∧
    (∃ new, posted k' = posted k ++ new ∧ ∀ endpoint n, (endpoint, n) ∈ new →
      n = next_note k ∧ is_safe_push_endpoint endpoint = true ∧
      ∃ i s, push_subscriptions (com (office k)) !! i = Some s ∧ PushSubscription.user_id s = uid ∧
        PushSubscription.endpoint s = endpoint) ∧
    com (office k') =
      (with_note (note_of uid type title body severity plug_id session_id now) (com (office k)))
        <| push_subscriptions ::= pruned uid (next_note k) |>
  else out = None ∧ k' = k.
Proof.
  intros [Hf Hs]. unfold notify. destruct (storable _ _ _ _); [|done]. rewrite writes_spec by done.
  unfold on_clients. rewrite push_to_user_spec by (unfold office in *; simpl; by rewrite Hs). split_and!; try done.
  - apply eq_None_not_Some. intros [x Hx]. specialize (Hf _ _ Hx). lia.
  - eexists. split; [done|]. intros endpoint n Hin. destruct push_enabled; [|by apply not_elem_of_nil in Hin].
    apply list_elem_of_In, in_map_iff in Hin as ([i s] & [= <- <-] & [Hi Hp]%filter_In).
    apply list_elem_of_In, elem_of_select in Hi as [Hi Hu]. apply Z.eqb_eq in Hu.
    split; [done|]. split; [done|]. by exists i, s.
Qed.

(** What a user reads: the own rows, or the own unread ones, latest first, as many
    as asked for up to 200, and the number of the unread ones whatever is asked. *)
Theorem feed_listed uid unread_only limit k :
  ∃ rows, listing (feed k) (feed_filter uid unread_only) (λ r, Notification.created_at r.2) rows ∧
    (list_notifications uid unread_only limit k).1 = take (Z.to_nat (Z.max 1 (Z.min limit 200))) rows ∧
    (list_notifications uid unread_only limit k).2 =
      count (feed_filter uid true) (feed k).
Proof. eexists. split; [apply (listed_all _ _ (λ r, Notification.created_at r.2))|]. done. Qed.

Lemma feed_written h k :
  feed (k <| clients ::= with_db (λ d, d <| notifications ::= h |>) |>) = h (feed k).
Proof. done. Qed.

(** What a write to the feed leaves. *)
Definition feed_only (k k' : desk) : Prop :=
  (∃ h, com (office k') = (com (office k)) <| notifications ::= h |>) ∧
  io (clients k') = io (clients k) ∧ sent (clients k') = sent (clients k) ∧ posted k' = posted k.

(** A row is marked by its user only, and only its mark changes. *)
Theorem mark_read_own uid n k :
  desk_ok k →
  let '(out, k') := mark_notification_read uid n k in
  (out = Ok tt ↔ ∃ x, feed k !! n = Some x ∧ Notification.user_id x = uid) ∧
  (∀ i x, feed k !! i = Some x →
     feed k' !! i = Some (if bool_decide (i = n ∧ Notification.user_id x = uid) then read_note x else x)) ∧
  feed_only k k'.
Proof.
  intros [_ Hs]. assert (Hsame : feed_only k k).
  { split; [|done]. exists id. by destruct (com (office k)). }
  unfold mark_notification_read.
  assert (Hskip : ∀ i x, feed k !! i = Some x → ¬ (i = n ∧ Notification.user_id x = uid) →
    feed k !! i = Some (if bool_decide (i = n ∧ Notification.user_id x = uid) then read_note x else x)).
  { intros i x Hi Hn. by rewrite bool_decide_eq_false_2. }
  destruct (feed k !! n) as [x|] eqn:Hx.
  2:{ split; [split; [done | by intros (? & ? & _)] | split; [|exact Hsame]]. intros i y Hi. apply Hskip; [done|].
      intros [-> _]. congruence. }
  destruct (Z.eqb_spec (Notification.user_id x) uid) as [Hu|Hu].
  - rewrite writes_spec by done. split; [split; [by exists x | done] | split; [|by split; [eexists|]]]. intros i y Hi. rewrite feed_written.
    destruct (decide (n = i)) as [<-|Hne].
    + rewrite lookup_insert_eq. assert (y = x) as -> by congruence. by rewrite bool_decide_eq_true_2.
    + rewrite lookup_insert_ne by done. apply Hskip; [done|]. by intros [-> _].
  - split; [split; [done | by intros (y & [= <-] & ?)] | split; [|exact Hsame]]. intros i y Hi. apply Hskip; [done|].
    intros [-> Huy]. congruence.
Qed.

(** After reading all, none is unread, and the answer is how many were. *)
Theorem mark_all_reads uid k :
  desk_ok k →
  let '(n, k') := mark_all_notifications_read uid k in
  n = count (unread_of uid) (feed k) ∧ count (unread_of uid) (feed k') = 0 ∧
  (∀ i x, feed k !! i = Some x → Notification.user_id x ≠ uid → feed k' !! i = Some x) ∧ feed_only k k'.
Proof.
  intros [_ Hs]. unfold mark_all_notifications_read. rewrite writes_spec by done.
  split; [done|split; [|split; [|by split; [eexists|]]]].
  - apply msum_zero. intros i x. rewrite feed_written, lookup_update_where.
    destruct (feed k !! i) as [y|]; [|done]. intros [= <-].
    destruct (unread_of uid y) eqn:Hy; [|by rewrite Hy]. unfold unread_of. simpl. by rewrite andb_false_r.
  - intros i x Hi Hu. rewrite feed_written, lookup_update_where, Hi. simpl. unfold unread_of.
    by rewrite (proj2 (Z.eqb_neq _ _)).
Qed.

(** *** The effects of a handler, in their order *)

Definition stored_note (d : db) now (e : effect) : option Notification.t :=
  match e with
  | Notify uid type severity plug_id session_id =>
      if storable uid plug_id session_id d then
        Some (note_of uid type (wording e).1 (wording e).2 severity plug_id session_id now)
      else None
  | _ => None
  end.

(** What the foreign keys look at. *)
Definition same_refs (d d' : db) : Prop :=
  users d' = users d ∧ plugs d' = plugs d ∧ sessions d' = sessions d.

Lemma stored_note_refs d d' now e : same_refs d d' → stored_note d' now e = stored_note d now e.
Proof. intros (Hu & Hp & Hs). unfold stored_note, storable. destruct e; by rewrite ?Hu, ?Hp, ?Hs. Qed.

Lemma stored_notes_refs d d' now (es : list effect) :
  same_refs d d' → omap (stored_note d' now) es = omap (stored_note d now) es.
Proof. intros Hr. induction es as [|e es IH]; [done|]. csimpl. by rewrite (stored_note_refs d), IH by done. Qed.

Fixpoint number (n : Z) (l : list Notification.t) (m : gmap Z Notification.t) : gmap Z Notification.t :=
  match l with [] => m | x :: l => number (n + 1) l (<[n := x]> m) end.

Lemma deliver1_spec now e k :
  desk_ok k →
  let k' := deliver1 now k e in
  desk_ok k' ∧ same_refs (com (office k)) (com (office k')) ∧
  match stored_note (com (office k)) now e with
  | Some x => feed k' = <[next_note k := x]> (feed k) ∧ next_note k' = next_note k + 1
  | None => feed k' = feed k ∧ next_note k' = next_note k
  end.
Proof.
  intros Hok k'. assert (Hplain : ∀ m : message, ∀ to,
    desk_ok (on_clients (sio_emit to m) k)) by (intros; destruct Hok; by split).
  destruct e; try (by split_and!); try (split; [apply Hplain | by split]).
  pose proof (desk_notify user_id type (wording (Notify user_id type severity plug_id session_id)).1
    (wording (Notify user_id type severity plug_id session_id)).2 severity plug_id session_id now k Hok) as Hk.
  split; [exact Hk|]. subst k'. unfold deliver1, stored_note.
  destruct (storable user_id plug_id session_id (com (office k))) eqn:Hst.
  2:{ unfold notify. by rewrite Hst. }
  destruct (notify_spec user_id type (wording (Notify user_id type severity plug_id session_id)).1
    (wording (Notify user_id type severity plug_id session_id)).2 severity plug_id session_id now k Hok Hst)
    as [Hc _].
  unfold same_refs. cbv [feed next_note]. rewrite Hc. split; [done|]. split; [done|]. simpl. lia.
Qed.

(** The feed after a run of effects: what was there, and one new row for each
    notification that could be stored, numbered in the order they were sent. *)
Theorem deliver_complete now es k :
  desk_ok k →
  let k' := deliver now es k in
  let notes := omap (stored_note (com (office k)) now) es in
  feed k' = number (next_note k) notes (feed k) ∧
  next_note k' = next_note k + Z.of_nat (length notes).
Proof.
  cbv zeta. revert k. induction es as [|e es IH]; intros k Hok; csimpl; [split; [done|lia]|].
  destruct (deliver1_spec now e k Hok) as (Hok1 & Hr & Hx).
  destruct (IH _ Hok1) as [H1 H2]. unfold deliver in *. cbn [foldl].
  rewrite H1, H2, (stored_notes_refs _ _ now es Hr).
  destruct (stored_note (com (office k)) now e) as [x|]; destruct Hx as [-> ->]; [|done].
  split; [done | simpl; lia].
Qed.

End Notifications.
Arguments desk {_}.
