(* ===== verification/Reliability.v ===== *)
(** * services/reliability.py: the share of hours in which a plug was heard of

    Hours are those of the clock in UTC, the zone of the database.  The time a
    plug was created, which nothing else reads, is an argument. *)

From S2P Require Import Prelude Rounding PyNum Money Models Config TelemetryStore World Hoare.
From S2P Require Import Caps Groups Plugs.

Section Reliability.
Context `{cfg : Config}.
Implicit Types (d : db) (now plug_id uid : Z).

Definition HOUR : Z := minutes 60.
Definition DEFAULT_WINDOW_DAYS : Z := 7.
Definition MIN_SAMPLE_HOURS : Z := 3.

Definition effective_window now (plug_created : option datetime) (retention_days : Z) : datetime :=
  let window_days := if 0 <? retention_days then Z.min DEFAULT_WINDOW_DAYS retention_days
                     else DEFAULT_WINDOW_DAYS in
  let window_start := now - days window_days in
  match plug_created with
  | Some created => Z.max window_start created
  | None => window_start
  end.

(** [math.ceil(x)]. *)
Definition fceil (x : float) : Z := - ((- x) / FU).

Definition possible_buckets (elapsed_hours : float) : Z := Z.max 1 (fceil elapsed_hours).

(** Before the [min] with 100. *)
Definition raw_pct (buckets_with_data : Z) (elapsed_hours : float) : float :=
  fmul (flit buckets_with_data (possible_buckets elapsed_hours)) (fint 100).

Definition uptime_pct (buckets_with_data : Z) (elapsed_hours : float) : float :=
  fround 1 (Z.min (fint 100) (raw_pct buckets_with_data elapsed_hours)).

(** [(now - cutoff).total_seconds() / 3600.0], not below zero. *)
Definition elapsed_hours_of (elapsed : Z) : float := Z.max 0 (fdiv (flit elapsed 1000000) (fint 3600)).

(** [date_trunc('hour', recorded_at)]. *)
Definition hour_of (t : datetime) : Z := t / HOUR.

Definition reading_hours d plug_id (cutoff : datetime) : list Z :=
  remove_dups (map (λ r, hour_of (Sample.recorded_at (TelemetryReading.sample r.2)))
    (select (λ _ r, (Sample.plug_id (TelemetryReading.sample r) =? plug_id) &&
                    (cutoff <=? Sample.recorded_at (TelemetryReading.sample r))) (readings d))).

(** The percentage, the window in days, when the plug was last heard of. *)
Definition plug_uptime_7d d plug_id (plug : Plug.t) (plug_created : option datetime) now
    : option float * float * option datetime :=
  let cutoff := effective_window now plug_created RETENTION_DAYS in
  let elapsed_hours := elapsed_hours_of (now - cutoff) in
  (if elapsed_hours <? fint MIN_SAMPLE_HOURS then None
   else Some (uptime_pct (Z.of_nat (length (reading_hours d plug_id cutoff))) elapsed_hours),
   fround 3 (fdiv elapsed_hours (fint 24)),
   Plug.last_telemetry_at plug).

(** routers/plugs.py: GET /api/plugs/{plug_id}/reliability. *)
Definition get_plug_reliability plug_id uid (plug_created : option datetime) now
    : M (option float * float * option datetime) :=
  '(plug, _) ← visible_plug plug_id uid;
  query (λ d, plug_uptime_7d d plug_id plug plug_created now).

(** ** The window *)

(** It ends now, lasts at most a week and at most what is kept, and does not
    reach back before the plug. *)
Lemma window_bounds now created retention :
  match created with Some c => c <= now | None => True end →
  let cutoff := effective_window now created retention in
  0 <= now - cutoff <= days 7 ∧ (0 < retention → now - cutoff <= days retention) ∧
  match created with Some c => c <= cutoff | None => True end.
Proof.
  unfold effective_window, DEFAULT_WINDOW_DAYS, days, minutes, seconds.
  destruct (Z.ltb_spec 0 retention), created as [c|]; cbv zeta; lia.
Qed.

(** ** The ratio *)

Lemma fint_100 : fint 100 = 100 * FU. Proof. apply fint_exact. lia. Qed.
Lemma fint_3600 : fint 3600 = 3600 * FU. Proof. apply fint_exact. lia. Qed.

Lemma fround_bounds k x m :
  0 <= k → 0 <= m → Z.abs m <= 2 ^ 53 → 0 <= x <= m * FU → 0 <= fround k x <= m * FU.
Proof.
  intros Hk Hm Hb Hx. unfold fround. pose proof FU_pos. pose proof (pow10_pos k Hk).
  rewrite rne_red_eq by done. split.
  - apply flit_nonneg; [done|]. apply rne_ge; nia.
  - rewrite <- (fint_exact m) by done. apply flit_mono; [done|lia|]. rewrite Z.mul_1_r.
    apply rne_le; nia.
Qed.

Lemma fround_100 k : 0 <= k → fround k (fint 100) = fint 100.
Proof.
  intros Hk. unfold fround. pose proof FU_pos. pose proof (pow10_pos k Hk). rewrite rne_red_eq by done.
  rewrite fint_100, (Z.mul_comm (100 * FU)), Z.mul_assoc, rne_exact by done.
  rewrite <- fint_100. apply frnd_eq; lia.
Qed.

(** A float is not rounded past a whole number. *)
Lemma fceil_elapsed e n : 0 <= n <= 2 ^ 40 → e <= n * HOUR → fceil (elapsed_hours_of e) <= n.
Proof.
  intros Hn He. pose proof FU_pos. assert (HH : HOUR = 3600 * 1000000) by done.
  assert (Hle : elapsed_hours_of e <= n * FU).
  { unfold elapsed_hours_of. apply Z.max_lub; [lia|].
    rewrite <- (fint_exact n) by lia. unfold fint at 2, flit at 2, fdiv. rewrite fint_3600.
    assert (Hs : flit e 1000000 <= n * 3600 * FU).
    { rewrite <- (fint_exact (n * 3600)) by lia. apply flit_mono; lia. }
    apply frnd_mono; nia. }
  unfold fceil. pose proof (Z.div_le_lower_bound (- elapsed_hours_of e) FU (- n)). lia.
Qed.

Lemma elapsed_hours_mono e e' : e <= e' → elapsed_hours_of e <= elapsed_hours_of e'.
Proof.
  intros He. unfold elapsed_hours_of. apply Z.max_le_compat_l. pose proof FU_pos.
  unfold fdiv. rewrite fint_3600.
  pose proof (flit_mono e 1000000 e' 1000000 ltac:(lia) ltac:(lia) ltac:(lia)).
  apply frnd_mono; nia.
Qed.

(** Three hours to the microsecond, in spite of the division of floats. *)
Lemma sample_exact e : (elapsed_hours_of e <? fint MIN_SAMPLE_HOURS) = (e <? 3 * HOUR).
Proof.
  destruct (Z.ltb_spec e (3 * HOUR)) as [Hlt|Hge].
  - apply Z.ltb_lt. apply (Z.le_lt_trans _ (elapsed_hours_of (3 * HOUR - 1))).
    + apply elapsed_hours_mono. lia.
    + apply Z.ltb_lt. vm_compute. reflexivity.
  - apply Z.ltb_ge. transitivity (elapsed_hours_of (3 * HOUR)); [|by apply elapsed_hours_mono].
    apply Z.leb_le. vm_compute. reflexivity.
Qed.

Lemma possible_pos x : 0 < possible_buckets x.
Proof. unfold possible_buckets. lia. Qed.

Lemma uptime_bounds b x : 0 <= b → 0 <= uptime_pct b x <= fint 100.
Proof.
  intros Hb. unfold uptime_pct, raw_pct. rewrite fint_100. pose proof FU_pos. pose proof (possible_pos x).
  apply fround_bounds; [done..|]. split; [|lia]. apply Z.min_glb; [lia|].
  unfold fmul. apply frnd_nonneg; [done|]. pose proof (flit_nonneg b (possible_buckets x)). nia.
Qed.

Lemma uptime_0 x : uptime_pct 0 x = 0.
Proof.
  unfold uptime_pct, raw_pct, fmul, flit. pose proof FU_pos. pose proof (possible_pos x).
  rewrite Z.mul_0_l, frnd_0, Z.mul_0_l, frnd_0 by done. rewrite fint_100, Z.min_r by lia.
  unfold fround. rewrite Z.mul_0_l, rne_red_eq by done.
  change 0 with (0 * FU) at 1. rewrite rne_exact by done. unfold flit. by rewrite Z.mul_0_l, frnd_0.
Qed.

Lemma uptime_100 b x : possible_buckets x <= b → uptime_pct b x = fint 100.
Proof.
  intros Hb. unfold uptime_pct. pose proof FU_pos. pose proof (possible_pos x).
  rewrite Z.min_l; [by apply fround_100|]. unfold raw_pct. rewrite fint_100.
  rewrite <- fint_100 at 1. unfold fint at 1, flit at 1, fmul.
  pose proof (flit_mono 1 1 b (possible_buckets x) ltac:(lia) ltac:(lia) ltac:(lia)) as H1.
  change (flit 1 1) with (fint 1) in H1. rewrite (fint_exact 1) in H1 by done.
  apply frnd_mono; nia.
Qed.

Lemma uptime_mono b b' x : b <= b' → uptime_pct b x <= uptime_pct b' x.
Proof.
  intros Hb. unfold uptime_pct, fround. pose proof FU_pos. pose proof (possible_pos x).
  rewrite !rne_red_eq by done. apply flit_mono; [done..|]. apply Z.mul_le_mono_nonneg_r; [done|].
  apply rne_mono; [done|]. apply Z.mul_le_mono_nonneg_r; [done|]. apply Z.min_le_compat_l.
  unfold raw_pct, fmul. apply frnd_mono; [done..|]. apply Z.mul_le_mono_nonneg_r; [lia|].
  rewrite fint_100. apply Z.mul_le_mono_nonneg_r; [lia|]. apply flit_mono; nia.
Qed.

(** ** The hours heard *)

(** In the hour [h] the plug was heard of, at [cutoff] or after. *)
Definition heard d plug_id (cutoff : datetime) (h : Z) : Prop :=
  ∃ i r, readings d !! i = Some r ∧ Sample.plug_id (TelemetryReading.sample r) = plug_id ∧
    cutoff <= Sample.recorded_at (TelemetryReading.sample r) ∧
    hour_of (Sample.recorded_at (TelemetryReading.sample r)) = h.

Lemma elem_of_reading_hours d plug_id cutoff h :
  h ∈ reading_hours d plug_id cutoff ↔ heard d plug_id cutoff h.
Proof.
  unfold reading_hours, heard. rewrite elem_of_remove_dups, list_elem_of_fmap. split.
  - intros ([i r] & -> & [Hi Hp]%elem_of_select). passed. by exists i, r.
  - intros (i & r & Hi & Hp & Hc & <-). exists (i, r). split; [done|]. apply elem_of_select.
    split; [done|]. apply andb_true_intro. split; [by apply Z.eqb_eq|by apply Z.leb_le].
Qed.

(** The hours of the clock from one instant to another cover the time between. *)
Lemma hours_cover cutoff now :
  0 <= now - cutoff <= days 7 →
  1 <= hour_of now - hour_of cutoff + 1 <= 169 ∧ now - cutoff <= (hour_of now - hour_of cutoff + 1) * HOUR.
Proof.
  change (days 7) with (168 * 3600000000). unfold hour_of. change HOUR with 3600000000.
  intros. Z.to_euclidean_division_equations. lia.
Qed.

Lemma heard_all d plug_id cutoff now :
  0 <= now - cutoff <= days 7 →
  (∀ h, hour_of cutoff <= h <= hour_of now → heard d plug_id cutoff h) →
  possible_buckets (elapsed_hours_of (now - cutoff)) <= Z.of_nat (length (reading_hours d plug_id cutoff)).
Proof.
  intros Hw Hall. pose proof (hours_cover cutoff now Hw) as [Hn He].
  transitivity (hour_of now - hour_of cutoff + 1).
  - unfold possible_buckets. apply Z.max_lub; [lia|]. apply fceil_elapsed; lia.
  - assert (Hsub : seqZ (hour_of cutoff) (hour_of now - hour_of cutoff + 1) ⊆+ reading_hours d plug_id cutoff).
    { apply NoDup_submseteq; [apply NoDup_seqZ|]. intros h Hh%elem_of_seqZ.
      apply elem_of_reading_hours, Hall. lia. }
    apply submseteq_length in Hsub. rewrite length_seqZ in Hsub. lia.
Qed.

(** What the badge says.  Nothing under three hours, to the microsecond; a
    percentage otherwise, 0 for a plug not heard of and 100 for one heard of in
    every hour of the clock.  Only who sees the plug is told. *)
Theorem reliability_correct plug_id uid created now w :
  com w = cur w → listing_ok (cur w) → match created with Some c => c <= now | None => True end →
  let cutoff := effective_window now created RETENTION_DAYS in
  let '(out, w') := run_request (get_plug_reliability plug_id uid created now) w in
  com w' = com w ∧
  match out with
  | Ok (pct, _, seen) => ∃ plug, plugs (cur w) !! plug_id = Some plug ∧
      listed (cur w) uid plug = true ∧ seen = Plug.last_telemetry_at plug ∧
      match pct with
      | None => now - cutoff < 3 * HOUR
      | Some p => 3 * HOUR <= now - cutoff ∧ 0 <= p <= fint 100 ∧
          ((∀ h, ¬ heard (cur w) plug_id cutoff h) → p = 0) ∧
          ((∀ h, hour_of cutoff <= h <= hour_of now → heard (cur w) plug_id cutoff h) → p = fint 100)
      end
  | Raise e => match plugs (cur w) !! plug_id with
      | None => ∃ c, e = HTTPException 404 c
      | Some plug => (∃ c, e = HTTPException 403 c) ∧ listed (cur w) uid plug = false
      end
  end.
Proof.
  intros Hcc Hok Hcr cutoff. apply run_request_wp. unfold get_plug_reliability, visible_plug, load_plug.
  do 4 wp_step. destruct (plugs (cur w) !! plug_id) as [plug|] eqn:Hp; wp_step; [|by split; eauto].
  apply wp_bind. unfold wp at 1. rewrite (access_eq plug_id plug uid w Hok Hp).
  destruct (listed (cur w) uid plug) eqn:Hl; cbn [fst snd]; cbv beta iota; [|by split; eauto].
  repeat wp_step. split; [done|]. unfold plug_uptime_7d. cbv zeta. exists plug. split; [done|]. split; [done|].
  split; [done|]. rewrite sample_exact. fold cutoff. destruct (Z.ltb_spec (now - cutoff) (3 * HOUR)); [done|].
  split; [done|]. split; [apply uptime_bounds; lia|].
  pose proof (window_bounds now created RETENTION_DAYS Hcr) as (Hw & _). split; intros Hh.
  - assert (Hnil : reading_hours (cur w) plug_id cutoff = []).
    { destruct (reading_hours (cur w) plug_id cutoff) as [|h l] eqn:Hr; [done|]. destruct (Hh h).
      apply elem_of_reading_hours. rewrite Hr. left. }
    rewrite Hnil. apply uptime_0.
  - by apply uptime_100, heard_all.
Qed.
End Reliability.
