(* ===== verification/Analytics.v ===== *)
(** * routers/cpo/_analytics.py, _invoices.py: figures, charts and exports

    Sums of NUMERIC are exact and rounded once, as a float; sums of double
    precision add in the order of the rows, which SQL leaves open and the model
    takes from the map.  Dates and buckets are those of UTC, the zone of the
    database.  A CSV file is the list of its rows. *)

From stdpp Require Import sorting pretty.
From S2P Require Import Prelude Rounding PyNum Money Models Slots Config TelemetryStore World Hoare.
From S2P Require Import Caps Payouts Groups Plugs CsvSafe Fleet Workspace.

(** [SessionStatus(value)]. *)
Definition session_status_of (s : string) : option SessionStatus :=
  if String.eqb s "active" then Some ACTIVE
  else if String.eqb s "completed" then Some COMPLETED
  else if String.eqb s "paid" then Some PAID
  else if String.eqb s "cancelled" then Some CANCELLED
  else None.

Record Totals := mktotals { t_count : Z; t_energy : float; t_revenue : float }.

Record Overview := mkoverview {
  o_plugs : Z; o_online : Z; o_gateways : Z; o_active : Z; o_today : Totals; o_all_time : Totals }.

Record SessionItem := mkitem {
  si_id : Z; si_session : ChargingSession.t; si_plug_name : string; si_user_email : string;
  si_duration_minutes : option float; si_energy_kwh : float; si_coins_spent : money }.

Record SessionLine := mkline {
  sl_id : Z; sl_plug_id : Z; sl_plug_name : string; sl_user_email : string;
  sl_started_at : datetime; sl_ended_at : option datetime; sl_duration_minutes : option float;
  sl_energy_kwh : float; sl_coins_spent : float; sl_status : SessionStatus }.

Record Bucket := mkbucket {
  b_timestamp : datetime; b_avg_power_w : float; b_max_power_w : float; b_energy_kwh : float;
  b_avg_current_a : float; b_max_current_a : float; b_sample_count : Z }.

Record InvoiceLine := mkinvoice_line {
  il_invoice_number : string; il_issued_at : datetime; il_session_id : Z; il_driver_user_id : Z;
  il_energy_kwh : float; il_rate : float; il_amount : float; il_taxable : float; il_gst_rate : float;
  il_gst_amount : float; il_total : float; il_seller_legal_name : string; il_seller_gstin : string }.

Section Analytics.
Context `{cfg : Config}.
Implicit Types (d : db) (user : User.t) (now : Z) (s : ChargingSession.t).

Definition MAX_LOOKBACK_DAYS : Z := 3660.
Definition clamp_days (n : Z) : Z := Z.max 1 (Z.min n MAX_LOOKBACK_DAYS).
Definition lookback now (n : Z) : datetime := now - days (clamp_days n).

(** [round(float(x), 2)] of a NUMERIC. *)
Definition to_coins (x : money) : float := fround 2 (flit x 100).

(** SUM, AVG and MAX of a column of floats; a group has a row. *)
Definition fsum (l : list float) : float := foldl fadd 0 l.
Definition favg (l : list float) : float := fdiv (fsum l) (fint (Z.of_nat (length l))).
Definition fmax (l : list float) : float := match l with [] => 0 | x :: l => foldl Z.max x l end.

Definition cents_of (rows : list (Z * ChargingSession.t)) : money :=
  lsum (map (λ r, ChargingSession.coins_spent r.2) rows).
Definition energy_of (rows : list (Z * ChargingSession.t)) : float :=
  fsum (map (λ r, ChargingSession.energy_kwh r.2) rows).

Definition totals_of (rows : list (Z * ChargingSession.t)) : Totals :=
  {| t_count := Z.of_nat (length rows); t_energy := fround 3 (energy_of rows);
     t_revenue := to_coins (cents_of rows) |}.

Definition own_session user s : bool :=
  bool_decide (Some (ChargingSession.tenant_id s) = User.tenant_id user).

Definition earned_since user (cutoff : datetime) s : bool :=
  own_session user s && (cutoff <=? ChargingSession.started_at s) && finished s.

(** [GROUP BY key ORDER BY key]. *)
Definition grouped {A} (key : A → Z) (rows : list A) : list (Z * list A) :=
  map (λ k, (k, List.filter (λ r, key r =? k) rows)) (order_by id (remove_dups (map key rows))).

(** ** GET /api/cpo/analytics/overview *)

Definition cpo_analytics_overview user now : M Overview :=
  query (λ d,
    let own_gateway g := bool_decide (is_Some (Gateway.tenant_id g) ∧ Gateway.tenant_id g = User.tenant_id user) in
    let gateways_of p := Z.of_nat (length (List.filter (λ r : string * Gateway.t, own_gateway r.2 && p r.2)
                                             (map_to_list (gateways d)))) in
    let today_start := now / DAY * DAY in
    {| o_plugs := count (λ p, match gateways d !! Plug.gateway_id p with
                              | Some g => own_gateway g | None => false end) (plugs d);
       o_online := gateways_of (λ g, bool_decide (Gateway.status g = ONLINE));
       o_gateways := gateways_of (λ _, true);
       o_active := count (λ s, own_session user s && bool_decide (ChargingSession.status s = ACTIVE))
                     (sessions d);
       o_today := totals_of (select (λ _, earned_since user today_start) (sessions d));
       o_all_time := totals_of (select (λ _ s, own_session user s && finished s) (sessions d)) |}).

(** ** GET /api/cpo/analytics/sessions, .csv *)

(** [status_filter], when it is given and not empty. *)
Definition status_of_filter (status_filter : option string) : M (option SessionStatus) :=
  match status_filter with
  | Some v => if truthy_str status_filter
              then x ← or_raise (session_status_of v) 400 "Invalid status filter"; mret (Some x)
              else mret None
  | None => mret None
  end.

Definition session_matches user (plug_id : option Z) (status : option SessionStatus) (cutoff : datetime)
    s : bool :=
  own_session user s &&
  (negb (truthy_id plug_id) || bool_decide (plug_id = Some (ChargingSession.plug_id s))) &&
  match status with Some x => bool_decide (ChargingSession.status s = x) | None => true end &&
  (cutoff <=? ChargingSession.started_at s).

Definition duration_minutes s : option float :=
  ended ← ChargingSession.ended_at s;
  Some (fround 1 (fdiv (flit (ended - ChargingSession.started_at s) 1000000) (fint 60))).

Definition plug_name_of d s : string :=
  match plugs d !! ChargingSession.plug_id s with
  | Some p => Plug.name p
  | None => "Plug #" +:+ pretty (ChargingSession.plug_id s)
  end.

Definition user_email_of d s : string :=
  match users d !! ChargingSession.user_id s with Some u => User.email u | None => "unknown" end.

Definition session_item d (r : Z * ChargingSession.t) : SessionItem :=
  {| si_id := r.1; si_session := r.2; si_plug_name := plug_name_of d r.2;
     si_user_email := user_email_of d r.2; si_duration_minutes := duration_minutes r.2;
     si_energy_kwh := fround 3 (ChargingSession.energy_kwh r.2);
     si_coins_spent := ChargingSession.coins_spent r.2 |}.

Definition cpo_analytics_sessions user (plug_id : option Z) (status_filter : option string)
    (n limit offset : Z) now : M (Totals * list SessionItem) :=
  status ← status_of_filter status_filter;
  let p := session_matches user plug_id status (lookback now n) in
  totals ← query (λ d, totals_of (select (λ _, p) (sessions d)));
  items ← query (λ d, map (session_item d) (page limit offset
    (order_by2 (λ r, - ChargingSession.started_at r.2) (λ r, - r.1) (select (λ _, p) (sessions d)))).2);
  mret (totals, items).

Definition session_line d (r : Z * ChargingSession.t) : SessionLine :=
  {| sl_id := r.1; sl_plug_id := ChargingSession.plug_id r.2;
     sl_plug_name := sanitize_csv_cell (Some (plug_name_of d r.2));
     sl_user_email := sanitize_csv_cell (Some (user_email_of d r.2));
     sl_started_at := ChargingSession.started_at r.2; sl_ended_at := ChargingSession.ended_at r.2;
     sl_duration_minutes := duration_minutes r.2;
     sl_energy_kwh := fround 3 (ChargingSession.energy_kwh r.2);
     sl_coins_spent := to_coins (ChargingSession.coins_spent r.2);
     sl_status := ChargingSession.status r.2 |}.

Definition EXPORT_LIMIT : nat := Z.to_nat 10000.

Definition cpo_export_sessions_csv user (plug_id : option Z) (status_filter : option string) (n : Z) now
    : M (list SessionLine) :=
  status ← status_of_filter status_filter;
  query (λ d, map (session_line d) (take EXPORT_LIMIT
    (order_by (λ r, - ChargingSession.started_at r.2)
      (select (λ _, session_matches user plug_id status (lookback now n)) (sessions d))))).

(** ** GET /api/cpo/analytics/revenue, /energy *)

(** [cast(started_at, Date)]. *)
Definition date_of (t : datetime) : Z := t / DAY.
Definition start_date (r : Z * ChargingSession.t) : Z := date_of (ChargingSession.started_at r.2).

Definition daily d user (n : Z) now : list (Z * list (Z * ChargingSession.t)) :=
  grouped start_date (select (λ _, earned_since user (lookback now n)) (sessions d)).

Definition cpo_analytics_revenue user (n : Z) now : M (list (Z * float * Z)) :=
  query (λ d, map (λ g, (g.1, to_coins (cents_of g.2), Z.of_nat (length g.2))) (daily d user n now)).

Definition cpo_analytics_energy user (n : Z) now : M (list (Z * float * Z)) :=
  query (λ d, map (λ g, (g.1, fround 3 (energy_of g.2), Z.of_nat (length g.2))) (daily d user n now)).

(** ** GET /api/cpo/analytics/telemetry *)

(** The length of a bucket of [date_trunc]. *)
Definition bucket_length (bucket : string) : option Z :=
  if String.eqb bucket "minute" then Some (minutes 1)
  else if String.eqb bucket "hour" then Some (minutes 60)
  else if String.eqb bucket "day" then Some DAY
  else None.

Definition reading_matches user (plug_id : option Z) (cutoff : datetime) (x : TelemetryReading.t) : bool :=
  bool_decide (Some (TelemetryReading.tenant_id x) = User.tenant_id user) &&
  (cutoff <=? Sample.recorded_at (TelemetryReading.sample x)) &&
  match plug_id with
  | Some p => Sample.plug_id (TelemetryReading.sample x) =? p
  | None => true
  end.

Definition bucket_of (u : Z) (r : Z * TelemetryReading.t) : Z :=
  Sample.recorded_at (TelemetryReading.sample r.2) / u.

Definition bucket_row (u : Z) (g : Z * list (Z * TelemetryReading.t)) : Bucket :=
  let column (f : Sample.t → float) := map (λ r, f (TelemetryReading.sample r.2)) g.2 in
  {| b_timestamp := g.1 * u; b_avg_power_w := fround 1 (favg (column Sample.power_w));
     b_max_power_w := fround 1 (fmax (column Sample.power_w));
     b_energy_kwh := fround 3 (fmax (column Sample.energy_kwh));
     b_avg_current_a := fround 2 (favg (column Sample.current_a));
     b_max_current_a := fround 2 (fmax (column Sample.current_a));
     b_sample_count := Z.of_nat (length g.2) |}.

Definition cpo_analytics_telemetry user (plug_id : option Z) (n : Z) (bucket : string) now : M (list Bucket) :=
  u ← or_raise (bucket_length bucket) 400 "Invalid bucket";
  query (λ d, map (bucket_row u)
    (grouped (bucket_of u) (select (λ _, reading_matches user plug_id (lookback now n)) (readings d)))).

(** ** GET /api/cpo/invoices, .csv *)

Definition cpo_list_invoices user (limit offset : Z) : M (Z * list (Z * Invoice.t)) :=
  tenant_id ← require_tenant_id user;
  query (λ d, page limit offset
    (order_by2 (λ r, - Invoice.issued_at r.2) (λ r, - r.1)
      (select (λ _ x, Invoice.tenant_id x =? tenant_id) (invoices d)))).

Definition invoice_line (r : Z * Invoice.t) : InvoiceLine :=
  let x := r.2 in
  {| il_invoice_number := sanitize_csv_cell (Some (Invoice.invoice_number x));
     il_issued_at := Invoice.issued_at x; il_session_id := Invoice.session_id x;
     il_driver_user_id := Invoice.driver_user_id x; il_energy_kwh := fround 3 (Invoice.energy_kwh x);
     il_rate := to_coins (Invoice.rate_coins_per_kwh x); il_amount := to_coins (Invoice.amount_coins x);
     il_taxable := to_coins (Invoice.taxable_value_inr x); il_gst_rate := to_coins (Invoice.gst_rate_pct x);
     il_gst_amount := to_coins (Invoice.gst_amount_inr x); il_total := to_coins (Invoice.total_inr x);
     il_seller_legal_name := sanitize_csv_cell (Some (default "" (Invoice.seller_legal_name x)));
     il_seller_gstin := sanitize_csv_cell (Some (default "" (Invoice.seller_gstin x))) |}.

Definition cpo_export_invoices_csv user (n : option Z) now : M (list InvoiceLine) :=
  tenant_id ← require_tenant_id user;
  query (λ d, map invoice_line (take EXPORT_LIMIT
    (order_by2 (λ r, - Invoice.issued_at r.2) (λ r, - r.1)
      (select (λ _ x, (Invoice.tenant_id x =? tenant_id) &&
                      match n with Some n => lookback now n <=? Invoice.issued_at x | None => true end)
        (invoices d))))).

(** ** Groups *)

(** [g] are the rows by their key, keys ascending, no group empty. *)
Record grouping {A} (key : A → Z) (rows : list A) (g : list (Z * list A)) : Prop := {
  gr_rows : concat (map snd g) ≡ₚ rows;
  gr_keys : StronglySorted Z.lt (map fst g);
  gr_group : ∀ k l, (k, l) ∈ g → l = List.filter (λ r, key r =? k) rows ∧ l ≠ [] }.

Lemma filter_split {A} (p q : A → bool) (l : list A) :
  (∀ x, p x = true → q x = false) →
  List.filter (λ x, p x || q x) l ≡ₚ List.filter p l ++ List.filter q l.
Proof.
  intros Hpq. induction l as [|x l IH]; simpl; [done|].
  destruct (p x) eqn:Hp; simpl.
  - rewrite (Hpq x Hp), IH. done.
  - destruct (q x); rewrite IH; [apply Permutation_middle|done].
Qed.

Lemma concat_by_key {A} (key : A → Z) (rows : list A) (ks : list Z) :
  NoDup ks →
  concat (map (λ k, List.filter (λ r, key r =? k) rows) ks) ≡ₚ
    List.filter (λ r, bool_decide (key r ∈ ks)) rows.
Proof.
  induction 1 as [|k ks Hk Hnd IH]; simpl.
  - induction rows as [|r rows IHr]; simpl; [done|exact IHr].
  - rewrite IH, <- (filter_split (λ r, key r =? k) (λ r, bool_decide (key r ∈ ks))).
    + erewrite List.filter_ext; [done|]. intros r. simpl.
      destruct (Z.eqb_spec (key r) k) as [Heq|Hne]; simpl.
      * symmetry. apply bool_decide_eq_true_2. rewrite Heq. left.
      * apply bool_decide_ext. rewrite elem_of_cons. tauto.
    + intros r Hr. passed. apply bool_decide_eq_false_2. congruence.
Qed.

#[local] Instance key_trans {A} (key : A → Z) : Transitive (key_le key).
Proof. intros a b c. unfold key_le. lia. Qed.
#[local] Instance key_total {A} (key : A → Z) : Total (key_le key).
Proof. intros a b. unfold key_le. lia. Qed.

Lemma grouped_spec {A} (key : A → Z) (rows : list A) : grouping key rows (grouped key rows).
Proof.
  unfold grouped. set (ks := order_by id (remove_dups (map key rows))).
  assert (Hnd : NoDup ks) by (unfold ks, order_by; rewrite merge_sort_Permutation; apply NoDup_remove_dups).
  assert (Hin : ∀ k, k ∈ ks ↔ ∃ r, r ∈ rows ∧ key r = k).
  { intros k. unfold ks. rewrite order_by_elem, elem_of_remove_dups, list_elem_of_fmap. split;
      [intros (r & -> & Hr); by exists r | intros (r & Hr & <-); by exists r]. }
  split.
  - rewrite map_map. simpl. rewrite concat_by_key by done.
    assert (Hall : ∀ r, r ∈ rows → bool_decide (key r ∈ ks) = true).
    { intros r Hr. apply bool_decide_eq_true_2, Hin. eauto. }
    revert Hall. generalize ks. clear. intros ks. induction rows as [|r rows IH]; intros Hall; simpl; [done|].
    rewrite Hall by left. constructor. apply IH. intros. apply Hall. by right.
  - rewrite map_map. simpl. rewrite map_id.
    assert (Hs : StronglySorted (key_le id) ks).
    { apply (StronglySorted_merge_sort _). }
    revert Hnd Hs. generalize ks. clear. induction ks as [|k ks IH]; [constructor|].
    intros [Hk Hnd]%NoDup_cons [Hs Ha]%StronglySorted_inv. constructor; [by apply IH|].
    rewrite Forall_forall in *. intros x Hx. specialize (Ha x Hx). unfold key_le, id in Ha.
    assert (x ≠ k) by congruence. lia.
  - intros k l Hkl. apply list_elem_of_fmap in Hkl as (k' & [= -> ->] & Hk). split; [done|].
    apply Hin in Hk as (r & Hr & Hkey). intros Hnil.
    assert (Hf : r ∈ List.filter (λ r, key r =? k') rows).
    { apply list_elem_of_In, filter_In. split; [by apply list_elem_of_In|]. by apply Z.eqb_eq. }
    rewrite Hnil in Hf. by apply not_elem_of_nil in Hf.
Qed.

Lemma lsum_app l k : lsum (l ++ k) = lsum l + lsum k.
Proof. induction l as [|x l IH]; simpl; [done|]. rewrite IH. lia. Qed.

Lemma lsum_perm l k : l ≡ₚ k → lsum l = lsum k.
Proof. induction 1; simpl; lia. Qed.

(** What is added up within the groups is added up in all. *)
Lemma grouping_sum {A} (key : A → Z) rows g (f : A → Z) :
  grouping key rows g → lsum (map (λ x, lsum (map f x.2)) g) = lsum (map f rows).
Proof.
  intros [Hp _ _]. rewrite <- (lsum_perm _ _ (Permutation_map f Hp)). clear.
  induction g as [|[k l] g IH]; simpl; [done|]. by rewrite IH, map_app, lsum_app.
Qed.

Lemma lsum_ones {A} (l : list A) : lsum (map (λ _, 1) l) = Z.of_nat (length l).
Proof. induction l as [|x l IH]; simpl; [done|]. rewrite IH. lia. Qed.

Lemma grouping_count {A} (key : A → Z) rows g :
  grouping key rows g → lsum (map (λ x, Z.of_nat (length x.2)) g) = Z.of_nat (length rows).
Proof.
  intros Hg. rewrite <- !lsum_ones, <- (grouping_sum key rows g (λ _, 1) Hg). f_equal.
  apply map_ext. intros x. by rewrite lsum_ones.
Qed.

Lemma select_refine {A} (p q f : A → bool) (m : gmap Z A) :
  (∀ i x, m !! i = Some x → p x = q x && f x) →
  select (λ _, p) m = List.filter (λ r, f r.2) (select (λ _, q) m).
Proof.
  intros Hpq. unfold select.
  assert (Hl : ∀ r, r ∈ map_to_list m → p r.2 = q r.2 && f r.2).
  { intros [i x] Hr%elem_of_map_to_list. by apply (Hpq i). }
  revert Hl. induction (map_to_list m) as [|r l IH]; intros Hl; simpl; [done|].
  rewrite (Hl r (list_elem_of_here _ _)), IH by (intros x Hx; apply Hl; by right).
  destruct (q r.2); simpl; by destruct (f r.2).
Qed.

(** ** The charts *)

(** Both charts have the same days, in order, each with a session; the sessions
    of the days are those of the window, so the coins and the counts add up to
    the window's; and the overview's today is the chart's last day. *)
Theorem charts_agree user n now w :
  (∀ i s, sessions (cur w) !! i = Some s → ChargingSession.started_at s <= now) →
  let rows := select (λ _, earned_since user (lookback now n)) (sessions (cur w)) in
  ∃ g, grouping start_date rows g ∧
    cpo_analytics_revenue user n now w =
      (Ok (map (λ x, (x.1, to_coins (cents_of x.2), Z.of_nat (length x.2))) g), w) ∧
    cpo_analytics_energy user n now w =
      (Ok (map (λ x, (x.1, fround 3 (energy_of x.2), Z.of_nat (length x.2))) g), w) ∧
    lsum (map (λ x, cents_of x.2) g) = cents_of rows ∧
    lsum (map (λ x, Z.of_nat (length x.2)) g) = Z.of_nat (length rows) ∧
    ∃ o, cpo_analytics_overview user now w = (Ok o, w) ∧
      (∀ l, (date_of now, l) ∈ g → o_today o = totals_of l) ∧
      (date_of now ∉ map fst g → o_today o = totals_of []).
Proof.
  intros Hpast rows. exists (daily (cur w) user n now).
  pose proof (grouped_spec start_date rows) as Hg. unfold daily. fold rows.
  split; [done|]. split; [done|]. split; [done|].
  split; [by apply (grouping_sum _ _ _ (λ r, ChargingSession.coins_spent r.2) Hg)|].
  split; [by apply (grouping_count _ _ _ Hg)|]. eexists. split; [done|]. simpl.
  assert (Htoday : select (λ _, earned_since user (now / DAY * DAY)) (sessions (cur w)) =
                   List.filter (λ r, start_date r =? date_of now) rows).
  { apply (select_refine _ _ (λ s, date_of (ChargingSession.started_at s) =? date_of now)).
    intros i s Hs. specialize (Hpast i s Hs). unfold earned_since, lookback, clamp_days, MAX_LOOKBACK_DAYS, date_of.
    assert (HD : DAY = 86400000000) by done.
    assert (Hk : days (Z.max 1 (Z.min n 3660)) >= DAY) by (rewrite HD; unfold days, minutes, seconds; lia).
    destruct (own_session user s), (finished s); rewrite ?andb_false_r; try done. rewrite !andb_true_l, !andb_true_r.
    apply eq_bool_prop_intro. rewrite andb_True, !Is_true_true, !Z.leb_le, Z.eqb_eq.
    rewrite HD in *. Z.to_euclidean_division_equations. lia. }
  rewrite Htoday. split.
  - intros l Hl. apply (gr_group _ _ _ Hg) in Hl as [-> _]. done.
  - intros Hno. f_equal. destruct (List.filter _ rows) as [|r l] eqn:Hf; [done|]. destruct Hno.
    assert (Hr : r ∈ List.filter (λ r, start_date r =? date_of now) rows) by (rewrite Hf; left).
    apply list_elem_of_In, filter_In in Hr as [Hr%list_elem_of_In Hd]. passed.
    assert (Hc : r ∈ concat (map snd (grouped start_date rows))) by (by rewrite (gr_rows _ _ _ Hg)).
    apply list_elem_of_In, in_concat in Hc as (x & Hx & Hrx). apply in_map_iff in Hx as ([k y] & <- & Hky).
    apply list_elem_of_fmap. exists (k, y). split; [|by apply list_elem_of_In]. simpl in *.
    apply list_elem_of_In, (gr_group _ _ _ Hg) in Hky as [-> _].
    apply filter_In in Hrx as [_ Hrk]. passed. congruence.
Qed.

Lemma never_runs value : runs (sanitize_csv_cell value) = false.
Proof. apply sanitized. Qed.

(** ** The history and its export *)

(** Whatever the filters: the pages are the sessions of the tenant that pass,
    latest first; every page tells the totals of all of them; the export has the
    same sessions (up to its limit), and no cell a spreadsheet would run.  A
    status that is none is refused by both. *)
Theorem history_agrees user plug_id status_filter n limit k now w :
  1 <= limit <= 200 → 0 <= k →
  match (status_of_filter status_filter w).1 with
  | Ok status => ∃ rows totals lines,
      listing (sessions (cur w)) (session_matches user plug_id status (lookback now n))
        (λ r, ChargingSession.started_at r.2) rows ∧
      (∀ offset, cpo_analytics_sessions user plug_id status_filter n limit offset now w =
         (Ok (totals, map (session_item (cur w)) (page limit offset rows).2), w)) ∧
      t_count totals = Z.of_nat (length rows) ∧ t_revenue totals = to_coins (cents_of rows) ∧
      (Z.of_nat (length rows) <= k * limit → pages limit k rows = rows) ∧
      cpo_export_sessions_csv user plug_id status_filter n now w = (Ok lines, w) ∧
      (Z.of_nat (length rows) <= 10000 → lines ≡ₚ map (session_line (cur w)) rows) ∧
      Forall (λ l, runs (sl_plug_name l) = false ∧ runs (sl_user_email l) = false) lines
  | Raise e =>
      (∀ offset, cpo_analytics_sessions user plug_id status_filter n limit offset now w = (Raise e, w)) ∧
      cpo_export_sessions_csv user plug_id status_filter n now w = (Raise e, w)
  end.
Proof.
  intros Hl Hk. unfold cpo_analytics_sessions, cpo_export_sessions_csv. cbv [mbind M_bind query].
  assert (Hw : (status_of_filter status_filter w).2 = w).
  { unfold status_of_filter. destruct status_filter as [v|]; [|done]. destruct (truthy_str (Some v)); [|done].
    by destruct (session_status_of v). }
  destruct (status_of_filter status_filter w) as [[status|e] w'] eqn:Hs; simpl in *; subst w'; [|done].
  set (p := session_matches user plug_id status (lookback now n)).
  set (rows := order_by2 (λ r : Z * ChargingSession.t, - ChargingSession.started_at r.2) (λ r, - r.1)
                 (select (λ _, p) (sessions (cur w)))).
  assert (Hp : rows ≡ₚ select (λ _, p) (sessions (cur w))) by apply merge_sort_Permutation.
  do 3 eexists. split; [apply (listed_all _ _ (λ r, ChargingSession.started_at r.2))|]. fold rows.
  split; [intros; reflexivity|]. simpl. split; [by rewrite Hp|].
  split. { f_equal. unfold cents_of. apply lsum_perm. by rewrite Hp. }
  split; [by apply pages_tile|]. split; [reflexivity|]. split.
  - intros Hlen. rewrite take_ge.
    + rewrite Hp. apply Permutation_map, merge_sort_Permutation.
    + unfold order_by. rewrite merge_sort_Permutation, <- Hp. unfold EXPORT_LIMIT. lia.
  - apply Forall_forall. intros l Hin. apply list_elem_of_fmap in Hin as (r & -> & _).
    split; apply never_runs.
Qed.

(** Every reading of the window is in one bucket, which is full of it. *)
Theorem buckets_partition user plug_id n bucket now w :
  match bucket_length bucket with
  | Some u => 0 < u ∧ ∃ g,
      grouping (bucket_of u)
        (select (λ _, reading_matches user plug_id (lookback now n)) (readings (cur w))) g ∧
      cpo_analytics_telemetry user plug_id n bucket now w = (Ok (map (bucket_row u) g), w) ∧
      (∀ k l r, (k, l) ∈ g → r ∈ l →
         k * u <= Sample.recorded_at (TelemetryReading.sample r.2) < k * u + u ∧
         Sample.power_w (TelemetryReading.sample r.2) <=
           fmax (map (λ r, Sample.power_w (TelemetryReading.sample r.2)) l))
  | None => cpo_analytics_telemetry user plug_id n bucket now w =
      (Raise (HTTPException 400 "Invalid bucket"), w)
  end.
Proof.
  unfold cpo_analytics_telemetry. destruct (bucket_length bucket) as [u|] eqn:Hu; [|done].
  assert (Hpos : 0 < u).
  { unfold bucket_length in Hu. repeat case_match; simplify_eq; done. }
  split; [done|]. eexists. split; [apply grouped_spec|]. split; [done|].
  intros k l r Hkl Hr. split.
  - apply (gr_group _ _ _ (grouped_spec _ _)) in Hkl as [-> _].
    apply list_elem_of_In, filter_In in Hr as [_ Hb]. unfold bucket_of in Hb. passed. subst k.
    div_facts (Sample.recorded_at (TelemetryReading.sample r.2)) u. lia.
  - assert (Hin : Sample.power_w (TelemetryReading.sample r.2) ∈
                  map (λ r : Z * TelemetryReading.t, Sample.power_w (TelemetryReading.sample r.2)) l)
      by (apply list_elem_of_fmap; by exists r).
    revert Hin. destruct l as [|y l]; [by intros ?%not_elem_of_nil|]. simpl. intros [->|Hin]%elem_of_cons;
      [apply (proj1 (foldl_max_ge _ _)) | by apply (proj2 (foldl_max_ge _ _))].
Qed.

(** Invoices: the pages are those of the tenant; the export has them all up to
    its limit, latest first, and no cell a spreadsheet would run. *)
Theorem invoices_agree user limit k now w :
  1 <= limit <= 200 → 0 <= k →
  match User.tenant_id user with
  | Some tid => ∃ rows,
      listing (invoices (cur w)) (λ x, Invoice.tenant_id x =? tid) (λ r, Invoice.issued_at r.2) rows ∧
      (∀ offset, cpo_list_invoices user limit offset w = (Ok (page limit offset rows), w)) ∧
      (Z.of_nat (length rows) <= k * limit → pages limit k rows = rows) ∧
      (∃ lines, cpo_export_invoices_csv user None now w = (Ok lines, w) ∧
         (Z.of_nat (length rows) <= 10000 → lines = map invoice_line rows) ∧
         Forall (λ l, runs (il_invoice_number l) = false ∧ runs (il_seller_legal_name l) = false ∧
                      runs (il_seller_gstin l) = false) lines)
  | None => ∀ offset, is_ok (cpo_list_invoices user limit offset w).1 = false ∧
      is_ok (cpo_export_invoices_csv user None now w).1 = false
  end.
Proof.
  intros Hl Hk. unfold cpo_list_invoices, cpo_export_invoices_csv, require_tenant_id. cbv [mbind M_bind query].
  destruct (User.tenant_id user) as [tid|]; simpl; [|done].
  eexists. split; [apply (listed_all _ _ (λ r, Invoice.issued_at r.2))|]. split; [done|].
  split; [by apply pages_tile|]. eexists. split; [reflexivity|].
  assert (Heq : select (λ _ x, (Invoice.tenant_id x =? tid) && true) (invoices (cur w)) =
                select (λ _ x, Invoice.tenant_id x =? tid) (invoices (cur w))).
  { unfold select. apply List.filter_ext. intros r. apply andb_true_r. }
  rewrite Heq. split.
  - intros Hlen. rewrite take_ge; [done|]. unfold EXPORT_LIMIT. lia.
  - apply Forall_forall. intros l Hin. apply list_elem_of_fmap in Hin as (r & -> & _).
    repeat split; apply never_runs.
Qed.
End Analytics.
