(* ===== verification/Disputes.v ===== *)
(** * routers/cpo/_disputes.py: refunds of disputed sessions

    Approving a dispute credits the driver, books the refund and brings the
    session's invoice down; the session's own [coins_spent] is never changed.
    All refunds of a session together never exceed what it collected. *)

From S2P Require Import Prelude Rounding PyNum Money Models Config TelemetryStore World Hoare.
From S2P Require Import Billing Wallet Lifecycle Invoices Payouts.

Section Disputes.
Context `{cfg : Config}.
Implicit Types (d : db) (now tid uid sid : Z) (x : SessionDispute.t).

(** [SessionDispute.tenant_id == user.tenant_id] *)
Definition of_tenant (user : User.t) x : bool :=
  bool_decide (User.tenant_id user = Some (SessionDispute.tenant_id x)).

Definition dispute_status_of (s : string) : option DisputeStatus :=
  if String.eqb s "open" then Some D_OPEN
  else if String.eqb s "approved" then Some D_APPROVED
  else if String.eqb s "rejected" then Some D_REJECTED
  else None.

Definition cpo_list_disputes (user : User.t) (status_filter : option string) (limit : Z)
    : M (list (Z * SessionDispute.t)) :=
  let limit := Z.max 1 (Z.min limit 500) in
  let listing (p : SessionDispute.t → bool) :=
    query (λ d, take (Z.to_nat limit)
      (order_by2 (λ r, - SessionDispute.created_at r.2) (λ r, - r.1)
         (select (λ _ x, of_tenant user x && p x) (disputes d)))) in
  match status_filter with
  | None => listing (λ _, true)
  | Some f =>
      if String.eqb f "" then listing (λ _, true)
      else
        st ← or_raise (dispute_status_of f) 400 "Invalid status_filter";
        listing (λ x, bool_decide (SessionDispute.status x = st))
  end.

Definition set_dispute (did : Z) (f : SessionDispute.t → SessionDispute.t) : M unit :=
  modify (λ d, d <| disputes ::= alter f did |>).

Definition is_approved_of sid x : bool :=
  (SessionDispute.session_id x =? sid) && bool_decide (SessionDispute.status x = D_APPROVED).

(** [SUM(refund_coins)] of the session's approved disputes. *)
Definition refunded d sid : money :=
  msum (λ x, if is_approved_of sid x then default 0 (SessionDispute.refund_coins x) else 0)
       (disputes d).

(** What an approval refunds: the amount given, else the whole cost. *)
Definition refund_amount_of (refund_coins : option pynum) (session_cost : money) : M money :=
  match refund_coins with
  | Some r => mret (to_money r)
  | None =>
      if ZERO_MONEY <? session_cost then mret session_cost
      else raise (HTTPException 400 "This session cost 0 coins.")
  end.

Definition approve (did : Z) x (refund_coins : option pynum) : M unit :=
  let sid := SessionDispute.session_id x in
  let uid := SessionDispute.driver_user_id x in
  session ← query (λ d, sessions d !! sid);
  session ← or_raise session 404 "The disputed session no longer exists.";
  let session_cost := to_money_amount (ChargingSession.coins_spent session) in
  refund_amount ← refund_amount_of refund_coins session_cost;
  refuse (refund_amount <=? ZERO_MONEY) 400 "refund_coins must be greater than 0.";;
  already ← query (λ d, refunded d sid);
  let already_refunded := to_money_amount already in
  refuse (session_cost <? already_refunded + refund_amount) 400 "exceeds the session's cost";;
  new_balance ← credit_wallet uid refund_amount;
  new_balance ← or_raise new_balance 404 "The disputing driver's account no longer exists.";
  add_ledger (LedgerTransaction.mk uid (Some sid) refund_amount REFUND None new_balance);;
  _ ← adjust_invoice_for_session_refund sid session_cost (already_refunded + refund_amount);
  set_dispute did (λ x, x <| SessionDispute.status := D_APPROVED |>
                          <| SessionDispute.refund_coins := Some refund_amount |>);;
  commit.

Definition cpo_resolve_dispute (uid : Z) (user : User.t) (did : Z) (action : string)
    (refund_coins : option pynum) (note : option string) now : M unit :=
  refuse (negb (String.eqb action "approve" || String.eqb action "reject")) 400 "Invalid action";;
  dispute ← query (λ d, disputes d !! did);
  dispute ← or_raise dispute 404 "Dispute not found or access denied.";
  refuse (negb (of_tenant user dispute)) 404 "Dispute not found or access denied.";;
  refuse (negb (bool_decide (SessionDispute.status dispute = D_OPEN))) 409 "already resolved";;
  set_dispute did (λ x, x <| SessionDispute.resolution_note := note |>
                          <| SessionDispute.resolved_at := Some now |>
                          <| SessionDispute.resolved_by_user_id := Some uid |>);;
  if String.eqb action "reject" then
    set_dispute did (λ x, x <| SessionDispute.status := D_REJECTED |>);;
    commit
  else approve did dispute refund_coins.

(** ** What a resolution does *)

(** No session has been refunded more than it collected. *)
Definition refunds_ok d : Prop := ∀ sid s, sessions d !! sid = Some s →
  refunded d sid <= ChargingSession.coins_spent s.

Definition resolved uid now (note : option string) (st : DisputeStatus) (refund : option money) x
    : SessionDispute.t :=
  x <| SessionDispute.resolution_note := note |> <| SessionDispute.resolved_at := Some now |>
    <| SessionDispute.resolved_by_user_id := Some uid |>
    <| SessionDispute.status := st |> <| SessionDispute.refund_coins := refund |>.

Definition rejected_db d did uid now note x : db :=
  d <| disputes ::= <[did := resolved uid now note D_REJECTED (SessionDispute.refund_coins x) x]> |>.

Definition approved_db d did uid now note x (amount b new_total : money) : db :=
  let driver := SessionDispute.driver_user_id x in
  let sid := SessionDispute.session_id x in
  d <| disputes ::= <[did := resolved uid now note D_APPROVED (Some amount) x]> |>
    <| users ::= alter (λ u, u <| User.coin_balance := b |>) driver |>
    <| ledger ::= <[next_id d := LedgerTransaction.mk driver (Some sid) amount REFUND None b]> |>
    <| next_id ::= Z.succ |>
    <| invoices ::= (λ _, refund_invoice d sid new_total) |>.

Record resolvable d (user : User.t) did x : Prop := {
  rv_row : disputes d !! did = Some x;
  rv_open : SessionDispute.status x = D_OPEN;
  rv_tenant : User.tenant_id user = Some (SessionDispute.tenant_id x) }.

(** What the approval has checked when it credits. *)
Record approvable d x s (u : User.t) amount : Prop := {
  ap_session : sessions d !! SessionDispute.session_id x = Some s;
  ap_driver : users d !! SessionDispute.driver_user_id x = Some u;
  ap_amount : 0 < amount;
  ap_cap : to_money_amount (refunded d (SessionDispute.session_id x)) + amount <=
           to_money_amount (ChargingSession.coins_spent s);
  ap_range : User.coin_balance u + amount <= MAX_MONEY }.

(** A dispute that is not approved counts for nothing. *)
Lemma refunded_alter d d' did x y sid :
  disputes d !! did = Some x → disputes d' = <[did := y]> (disputes d) →
  SessionDispute.status x = D_OPEN → SessionDispute.session_id y = SessionDispute.session_id x →
  refunded d' sid = refunded d sid +
    (if is_approved_of sid y then default 0 (SessionDispute.refund_coins y) else 0).
Proof.
  intros Hx Hd Hopen Hs. unfold refunded. rewrite Hd, (msum_update _ _ _ _ _ Hx).
  assert (is_approved_of sid x = false) as ->
    by (unfold is_approved_of; rewrite Hopen; apply andb_false_r). lia.
Qed.

Definition new_total_of d x s amount : money :=
  to_money_amount (Z.max (to_money_amount (to_money_amount (ChargingSession.coins_spent s)) -
    to_money_amount (to_money_amount (refunded d (SessionDispute.session_id x)) + amount)) ZERO_MONEY).

Definition asked refund_coins (session_cost amount : money) : Prop :=
  amount = match refund_coins with Some r => to_money r | None => session_cost end.

Lemma wp_refund_amount refund_coins cost Q w :
  (∀ amount, asked refund_coins cost amount → Q (Ok amount) w) → (∀ e, Q (Raise e) w) →
  wp (refund_amount_of refund_coins cost) Q w.
Proof.
  intros H1 H2. unfold refund_amount_of. wp_run; [by apply H1 | by apply H1 | apply H2].
Qed.

Lemma wp_approve d did uid now note x refund_coins Q w :
  com w = d → db_ok d → invoices_ok d → disputes d !! did = Some x → SessionDispute.status x = D_OPEN →
  cur w = d <| disputes ::= alter (λ x, x <| SessionDispute.resolution_note := note |>
                          <| SessionDispute.resolved_at := Some now |>
                          <| SessionDispute.resolved_by_user_id := Some uid |>) did |> →
  (∀ e w', com w' = d → Q (Raise e) w') →
  (∀ s u amount w', approvable d x s u amount →
     asked refund_coins (to_money_amount (ChargingSession.coins_spent s)) amount →
     com w' = approved_db d did uid now note x amount (User.coin_balance u + amount)
                (new_total_of d x s amount) → Q (Ok tt) w') →
  wp (approve did x refund_coins) Q w.
Proof.
  intros Hc Hok Hinv Hx Hopen Hcur HR HS. unfold approve, set_dispute.
  assert (Hsum : ∀ sid, refunded (cur w) sid = refunded d sid).
  { intros sid. rewrite Hcur. erewrite (refunded_alter d _ did x _ sid Hx);
      [|simpl; by apply alter_alt_Some |done|done].
    unfold is_approved_of. simpl. rewrite Hopen, andb_false_r. lia. }
  assert (Hu : users (cur w) = users d) by (by rewrite Hcur).
  assert (Hse : sessions (cur w) = sessions d) by (by rewrite Hcur).
  wp_run ltac:(apply wp_refund_amount; [intros amount Hasked | intros ?]); try (by apply HR).
  rewrite Hse, Hsum in *. apply wp_credit; rewrite Hu; [by intros; wp_run; apply HR|].
  intros u Hdu. pose proof (ledger_range _ (wallet_ledger _ (ok_wallet _ Hok)) _ _ Hdu).
  split; intros Hb; [|by apply HR].
  assert (Hfr : ∀ d', invoices d' = invoices d → next_id d <= next_id d' → invoices_ok d')
    by (intros; by eapply invoices_ok_frame).
  wp_run (first [apply wp_add_ledger; [done|] |
    apply wp_adjust; [apply Hfr; simpl; rewrite Hcur; simpl; done || lia | intros ?]]).
  match goal with H : sessions d !! _ = Some ?s |- _ => apply (HS s u amount) end;
    [split; try done; unfold ZERO_MONEY in *; lia | done |].
  unfold approved_db, new_total_of, refund_invoice, invoices_of. simpl. rewrite Hcur. simpl.
  by rewrite alter_alter_eq, (alter_alt_Some _ _ _ _ Hx).
Qed.

Lemma wp_resolve uid user did action refund_coins note now Q w :
  com w = cur w → db_ok (cur w) → invoices_ok (cur w) →
  (∀ e w', com w' = com w → Q (Raise e) w') →
  (∀ x w', resolvable (cur w) user did x → action = "reject"%string →
     com w' = rejected_db (cur w) did uid now note x → Q (Ok tt) w') →
  (∀ x s u amount w', resolvable (cur w) user did x → action = "approve"%string →
     approvable (cur w) x s u amount →
     asked refund_coins (to_money_amount (ChargingSession.coins_spent s)) amount →
     com w' = approved_db (cur w) did uid now note x amount (User.coin_balance u + amount)
                (new_total_of (cur w) x s amount) → Q (Ok tt) w') →
  wp (cpo_resolve_dispute uid user did action refund_coins note now) Q w.
Proof.
  intros Hcc Hok Hinv HR HJ HA. unfold cpo_resolve_dispute, set_dispute.
  assert (Hrv : ∀ x, disputes (cur w) !! did = Some x → negb (of_tenant user x) = false →
    negb (bool_decide (SessionDispute.status x = D_OPEN)) = false → resolvable (cur w) user did x).
  { intros x Hx Ht%negb_false_iff%bool_decide_eq_true_1 Ho%negb_false_iff%bool_decide_eq_true_1.
    by split. }
  wp_run; try (by apply HR).
  - apply (HJ a); [auto | by apply String.eqb_eq |].
    unfold rejected_db. simpl. rewrite alter_alter_eq.
    match goal with H : disputes _ !! _ = Some _ |- _ => by rewrite (alter_alt_Some _ _ _ _ H) end.
  - assert (Hr : resolvable (cur w) user did a) by auto.
    apply (wp_approve (cur w) did uid now note a); try done; [apply Hr | |].
    + intros e w' Hc. apply HR. congruence.
    + intros s u amount w' Ha Hasked Hc. apply (HA a s u amount); [done | | done..].
      match goal with H : negb (_ || _) = false |- _ =>
        apply negb_false_iff, orb_true_iff in H as [H|?]; [by apply String.eqb_eq in H | done] end.
Qed.

Lemma refunded_nonneg d sid : amounts_ok d → 0 <= refunded d sid.
Proof.
  intros Ham. apply msum_nonneg. intros i x Hx. pose proof (am_disputes d Ham i x Hx).
  destruct (is_approved_of sid x); lia.
Qed.

Section Approved.
Context (d : db) (did uid now : Z) (note : option string) (user : User.t) (x : SessionDispute.t)
  (s : ChargingSession.t) (u : User.t) (amount : money).
Context (Hok : db_ok d) (Ham : amounts_ok d) (Hrefunds : refunds_ok d) (Hinv : invoices_ok d).
Context (Hx : resolvable d user did x) (Ha : approvable d x s u amount).
Let sid := SessionDispute.session_id x.
Let d' := approved_db d did uid now note x amount (User.coin_balance u + amount)
            (new_total_of d x s amount).

Lemma approved_room :
  0 <= refunded d sid ∧ refunded d sid + amount <= ChargingSession.coins_spent s <= MAX_MONEY.
Proof using Ham Ha Hrefunds.
  destruct Ha as [Hs _ Hpos Hcap _]. fold sid in Hs, Hcap.
  pose proof (refunded_nonneg d sid Ham). pose proof (Hrefunds sid s Hs).
  pose proof (am_sessions d Ham sid s Hs).
  rewrite !to_money_amount_ok in Hcap by (unfold money_ok, MAX_MONEY in *; lia). lia.
Qed.

Lemma approved_refunded sid' :
  refunded d' sid' = refunded d sid' + (if sid' =? sid then amount else 0).
Proof using Hx.
  destruct Hx as [Hrow Hopen _].
  erewrite (refunded_alter d d' did x _ sid' Hrow eq_refl Hopen) by done.
  unfold is_approved_of. simpl. rewrite andb_true_r. fold sid. rewrite (Z.eqb_sym sid' sid).
  by destruct (sid =? sid').
Qed.

Lemma approved_ok : db_ok d' ∧ amounts_ok d' ∧ refunds_ok d'.
Proof using Hok Ham Hx Ha Hrefunds.
  pose proof approved_room as Hroom. pose proof Ha as [Hs Hu Hpos _ Hr]. split_and!.
  - apply (credit_db_ok d d' (SessionDispute.driver_user_id x) u (User.coin_balance u + amount)
      (LedgerTransaction.mk (SessionDispute.driver_user_id x) (Some sid) amount REFUND None
         (User.coin_balance u + amount))); try done; [| simpl; lia | lia].
    split; [done|]. exists (next_id d). unfold d', approved_db. simpl. split; [lia | done].
  - split; [apply Ham | | apply Ham]. unfold d', approved_db. simpl.
    intros i y [[<- <-]|[_ Hy]]%lookup_insert_Some; [simpl; lia | by eapply (am_disputes d Ham)].
  - intros sid' s' Hs'. rewrite approved_refunded.
    change (sessions d') with (sessions d) in Hs'. destruct (Z.eqb_spec sid' sid) as [->|Hne].
    + fold sid in Hs. simplify_eq. lia.
    + pose proof (Hrefunds sid' s' Hs'). lia.
Qed.

Lemma approved_invoices :
  invoices_ok d' ∧ ∀ i inv, invoices d' !! i = Some inv → Invoice.session_id inv = sid →
    Invoice.total_inr inv = ChargingSession.coins_spent s - refunded d' sid.
Proof using Ham Hinv Hx Ha Hrefunds.
  pose proof approved_room as Hroom. rewrite approved_refunded, Z.eqb_refl.
  assert (Ht : new_total_of d x s amount = ChargingSession.coins_spent s - (refunded d sid + amount)).
  { pose proof (ap_amount _ _ _ _ _ Ha). unfold new_total_of. fold sid.
    rewrite !to_money_amount_clamp. unfold clamp, ZERO_MONEY, MAX_MONEY in *. lia. }
  rewrite <- Ht. apply (refund_invoice_ok d d' sid);
    [done | rewrite Ht; pose proof (ap_amount _ _ _ _ _ Ha); lia | done |].
  unfold d', approved_db. simpl. lia.
Qed.

Lemma approved_money :
  balance d' (SessionDispute.driver_user_id x) = balance d (SessionDispute.driver_user_id x) + amount ∧
  booked d' (SessionDispute.driver_user_id x) = booked d (SessionDispute.driver_user_id x) + amount ∧
  (∀ v, v ≠ SessionDispute.driver_user_id x → balance d' v = balance d v).
Proof using Hok Ha.
  destruct Ha as [_ Hu _ _ _]. split_and!.
  - unfold balance, d', approved_db. simpl. by rewrite lookup_alter_eq, Hu.
  - rewrite (booked_insert d d' _ (next_id d) _
      (ledger_ids _ (wallet_ledger _ (ok_wallet _ Hok)) (next_id d) ltac:(lia)) eq_refl).
    unfold ledger_of. cbn [LedgerTransaction.user_id LedgerTransaction.amount].
    rewrite Z.eqb_refl. apply Z.add_comm.
  - intros v Hv. unfold balance, d', approved_db. simpl. by rewrite lookup_alter_ne.
Qed.
End Approved.

Lemma rejected_refunded d did uid now note user x sid :
  resolvable d user did x → refunded (rejected_db d did uid now note x) sid = refunded d sid.
Proof.
  intros [Hrow Hopen _].
  erewrite (refunded_alter d (rejected_db d did uid now note x) did x _ sid Hrow eq_refl Hopen) by done.
  unfold is_approved_of. simpl. rewrite andb_false_r. lia.
Qed.

Lemma rejected_ok d did uid now note user x :
  resolvable d user did x → db_ok d → amounts_ok d → refunds_ok d →
  let d' := rejected_db d did uid now note x in db_ok d' ∧ amounts_ok d' ∧ refunds_ok d'.
Proof.
  intros Hx Hok Ham Hr. split_and!.
  - by apply (db_ok_frame d).
  - split; [apply Ham | | apply Ham]. unfold rejected_db. simpl.
    intros i y [[<- <-]|[_ Hy]]%lookup_insert_Some; [|by eapply (am_disputes d Ham)].
    apply (am_disputes d Ham did x), Hx.
  - intros sid s Hs. erewrite rejected_refunded by done. by apply Hr.
Qed.

(** What a resolution leaves behind. *)
Definition resolution_outcome d d' uid user did action refund_coins now : Prop :=
  ∃ x x', resolvable d user did x ∧ disputes d' !! did = Some x' ∧
    SessionDispute.resolved_at x' = Some now ∧ SessionDispute.resolved_by_user_id x' = Some uid ∧
    ((action = "reject"%string ∧ SessionDispute.status x' = D_REJECTED ∧
      users d' = users d ∧ ledger d' = ledger d) ∨
     (action = "approve"%string ∧ SessionDispute.status x' = D_APPROVED ∧
      ∃ s amount, let sid := SessionDispute.session_id x in
        let driver := SessionDispute.driver_user_id x in
        sessions d !! sid = Some s ∧
        asked refund_coins (ChargingSession.coins_spent s) amount ∧
        SessionDispute.refund_coins x' = Some amount ∧ 0 < amount ∧
        balance d' driver = balance d driver + amount ∧
        booked d' driver = booked d driver + amount ∧
        (∀ v, v ≠ driver → balance d' v = balance d v) ∧
        refunded d' sid = refunded d sid + amount ∧
        (∀ i inv, invoices d' !! i = Some inv → Invoice.session_id inv = sid →
           Invoice.total_inr inv = ChargingSession.coins_spent s - refunded d' sid))).

(** C34: disputes refund within what was collected: only the owning tenant gets
    past the 404 and only an open dispute is resolved; a rejection moves no
    money; an approval credits exactly the amount asked for (by default the whole
    cost), books it in the ledger, touches no other wallet and no session, brings
    the session's invoice down to what was kept, and all refunds of a session
    together stay within what it collected.  A failure changes nothing. *)
Theorem resolve_dispute_correct uid user did action refund_coins note now w :
  com w = cur w → db_ok (cur w) → amounts_ok (cur w) → refunds_ok (cur w) → invoices_ok (cur w) →
  let '(out, w') :=
    run_request (cpo_resolve_dispute uid user did action refund_coins note now) w in
  db_ok (com w') ∧ amounts_ok (com w') ∧ refunds_ok (com w') ∧ invoices_ok (com w') ∧
  sessions (com w') = sessions (cur w) ∧
  match out with
  | Raise _ => com w' = com w
  | Ok _ => resolution_outcome (cur w) (com w') uid user did action refund_coins now
  end.
Proof.
  intros Hcc Hok Ham Hr Hinv. apply run_request_wp. apply wp_resolve; [done..| | |].
  - intros e w' Hc. simpl. rewrite Hc, Hcc. by split_and!.
  - intros x w' Hx Haction Hc. change (com (w' <| cur := com w' |>)) with (com w'). rewrite Hc.
    destruct (rejected_ok _ did uid now note user x Hx Hok Ham Hr) as (? & ? & ?).
    split_and!; try done; [by apply (invoices_ok_frame (cur w))|].
    exists x. eexists. split; [done|]. split; [apply lookup_insert_eq|].
    split; [done|]. split; [done|]. by left.
  - intros x s u amount w' Hx Haction Ha Hasked Hc.
    change (com (w' <| cur := com w' |>)) with (com w'). rewrite Hc.
    destruct (approved_ok _ did uid now note user x s u amount Hok Ham Hr Hx Ha) as (? & ? & ?).
    destruct (approved_invoices _ did uid now note user x s u amount Ham Hr Hinv Hx Ha) as (? & ?).
    split_and!; try done. exists x. eexists. split; [done|]. split; [apply lookup_insert_eq|].
    split; [done|]. split; [done|]. right. split; [done|]. split; [done|]. exists s, amount.
    destruct (approved_money _ did uid now note x s u amount Hok Ha) as (? & ? & ?).
    pose proof (approved_room _ x s u amount Ham Hr Ha) as Hroom.
    pose proof (ap_amount _ _ _ _ _ Ha).
    rewrite to_money_amount_ok in Hasked by (unfold money_ok, MAX_MONEY in *; lia).
    split_and!; try done; [apply Ha|].
    rewrite (approved_refunded _ did uid now note user x s u amount Hx), Z.eqb_refl. done.
Qed.

(** ** Refunds and payouts *)

(** The clock has passed every settlement. *)
Definition settled_before d now : Prop :=
  ∀ pid p, payouts d !! pid = Some p → live p = true → Payout.period_end p <= now.

Section ClawBack.
Context (d : db) (did uid now : Z) (note : option string) (user : User.t) (x : SessionDispute.t)
  (s : ChargingSession.t) (u : User.t) (amount : money).
Context (Hx : resolvable d user did x) (Ha : approvable d x s u amount).
Let d' := approved_db d did uid now note x amount (User.coin_balance u + amount)
            (new_total_of d x s amount).

Lemma approved_refunds tid from till :
  msum (refund_of d' tid (Some from) (Some till)) (disputes d') =
  msum (refund_of d tid (Some from) (Some till)) (disputes d) +
  (if earned tid s && (from <=? now) && (now <? till) then amount else 0).
Proof using Hx Ha.
  destruct Hx as [Hrow Hopen _], Ha as [Hs _ _ _ _].
  assert (Hext : ∀ y, refund_of d' tid (Some from) (Some till) y =
                      refund_of d tid (Some from) (Some till) y) by done.
  rewrite (msum_ext _ _ _ (λ _ y _, Hext y)). unfold d', approved_db. simpl disputes.
  rewrite (msum_update _ _ _ _ _ Hrow).
  assert (refund_of d tid (Some from) (Some till) x = 0) as ->.
  { unfold refund_of. rewrite Hs, Hopen. by rewrite (bool_decide_eq_false_2 (D_OPEN = D_APPROVED)),
      andb_false_r by done. }
  unfold refund_of at 2. simpl. rewrite Hs. unfold earned.
  destruct (ChargingSession.tenant_id s =? tid), (finished s), (from <=? now), (now <? till); simpl; lia.
Qed.

Lemma approved_payouts_ok : payouts_ok d → settled_before d now → payouts_ok d'.
Proof using Hx Ha.
  intros [Hset Hacc Hwin Hids] Hnow. split; [done | | done |].
  - intros pid p Hp Hl. eapply accounts_frame; [by apply Hacc | done | | done].
    unfold sum_approved_refund_coins. rewrite approved_refunds.
    pose proof (Hnow pid p Hp Hl). rewrite (proj2 (Z.ltb_ge _ _)), andb_false_r by done.
    by rewrite Z.add_0_r.
  - unfold d', approved_db. simpl. intros i Hi. apply Hids. lia.
Qed.

Lemma approved_unsettled later :
  finished s = true → tenant_settlement_watermark d (ChargingSession.tenant_id s) <= now → now < later →
  amounts_ok d →
  sum_unsettled_session_coins d' (ChargingSession.tenant_id s) later =
  Z.max (sum_unsettled_session_coins d (ChargingSession.tenant_id s) later - amount) 0.
Proof using Hx Ha.
  intros Hf Hwm Hlater Ham. unfold sum_unsettled_session_coins. set (tid := ChargingSession.tenant_id s) in *.
  change (tenant_settlement_watermark d' tid) with (tenant_settlement_watermark d tid).
  change (unsettled_coins d' tid) with (unsettled_coins d tid).
  unfold sum_approved_refund_coins. rewrite approved_refunds. unfold earned. fold tid.
  rewrite Z.eqb_refl, Hf, (proj2 (Z.leb_le _ _)), (proj2 (Z.ltb_lt _ _)) by done. simpl.
  pose proof (ap_amount _ _ _ _ _ Ha).
  assert (0 <= msum (refund_of d tid (Some (tenant_settlement_watermark d tid)) (Some later)) (disputes d)).
  { apply msum_nonneg. intros i y Hy. pose proof (am_disputes d Ham i y Hy).
    unfold refund_of. destruct (sessions d !! _); [|done]. destruct (_ && _); lia. }
  rewrite !to_money_amount_clamp. fold tid. unfold clamp, ZERO_MONEY, MAX_MONEY. lia.
Qed.
End ClawBack.

(** A refund is clawed back from the CPO even when the session was settled
    long ago: an approval leaves every existing payout's books as they were and,
    the clock having passed the last settlement, reduces the tenant's unsettled
    earnings by the refund (down to nothing at worst). *)
Theorem refund_claws_back uid user did refund_coins note now w w' :
  com w = cur w → db_ok (cur w) → amounts_ok (cur w) → invoices_ok (cur w) → payouts_ok (cur w) →
  settled_before (cur w) now →
  run_request (cpo_resolve_dispute uid user did "approve" refund_coins note now) w = (Ok tt, w') →
  payouts_ok (com w') ∧ ∃ x s amount,
    disputes (cur w) !! did = Some x ∧ sessions (cur w) !! SessionDispute.session_id x = Some s ∧
    0 < amount ∧
    (finished s = true → tenant_settlement_watermark (cur w) (ChargingSession.tenant_id s) <= now →
     ∀ later, now < later →
     sum_unsettled_session_coins (com w') (ChargingSession.tenant_id s) later =
     Z.max (sum_unsettled_session_coins (cur w) (ChargingSession.tenant_id s) later - amount) 0).
Proof.
  intros Hcc Hok Ham Hinv Hpay Hnow Hrun.
  set (Q (out : result unit) (d' : db) := out = Ok tt → payouts_ok d' ∧ ∃ x s amount,
    disputes (cur w) !! did = Some x ∧ sessions (cur w) !! SessionDispute.session_id x = Some s ∧
    0 < amount ∧
    (finished s = true → tenant_settlement_watermark (cur w) (ChargingSession.tenant_id s) <= now →
     ∀ later, now < later →
     sum_unsettled_session_coins d' (ChargingSession.tenant_id s) later =
     Z.max (sum_unsettled_session_coins (cur w) (ChargingSession.tenant_id s) later - amount) 0)).
  assert (H : let '(out, w') :=
    run_request (cpo_resolve_dispute uid user did "approve" refund_coins note now) w in Q out (com w')).
  2:{ rewrite Hrun in H. by apply H. }
  apply run_request_wp. apply wp_resolve; [done..| done | done |].
  intros x s u amount w1 Hx _ Ha _ Hc _. change (com (w1 <| cur := com w1 |>)) with (com w1).
  rewrite Hc. split; [by eapply approved_payouts_ok|]. exists x, s, amount.
  split; [apply Hx|]. split; [apply Ha|]. split; [apply Ha|]. intros Hf Hwm later Hl.
  by eapply approved_unsettled.
Qed.
End Disputes.
