(* ===== verification/Console.v ===== *)
(** * routers/admin.py: the overview and the lists of the platform console

    Reads only.  The times at which tenants, accounts and gateways were created,
    which nothing else reads, are arguments, and so is the match of a search
    ([column ILIKE '%q%', true without q]).  Amounts that the code rounds as
    floats are exact sums rounded once. *)

From stdpp Require Import sorting pretty.
From S2P Require Import Prelude Rounding PyNum Money Models Slots Config TelemetryStore World Hoare.
From S2P Require Import Auth Caps Payouts Tariffs Groups Plugs Fleet Admin Workspace Disputes Analytics.

(** [PayoutStatus(value)]. *)
Definition payout_status_of (s : string) : option PayoutStatus :=
  if String.eqb s "requested" then Some P_REQUESTED
  else if String.eqb s "paid" then Some P_PAID
  else if String.eqb s "cancelled" then Some P_CANCELLED
  else None.

Record Figures := mkfigures { f_energy_kwh : float; f_revenue_coins : float }.

Record PlatformStats := mkstats {
  ps_tenants : Z;
  ps_users : Z; ps_drivers : Z; ps_cpos : Z; ps_admins : Z;
  ps_gateways : Z; ps_gateways_online : Z;
  ps_plugs : Z; ps_plugs_public : Z; ps_plugs_private : Z;
  ps_active : Z; ps_sessions_today : Z; ps_sessions : Z;
  ps_today : Figures; ps_total : Figures; ps_last_30d : Figures;
  ps_requested_count : Z; ps_requested_net_coins : float;
  ps_disputes_open : Z }.

Record TenantItem := mktenant_item {
  ti_id : Z; ti_tenant : Tenant.t; ti_user_count : Z; ti_gateway_count : Z; ti_gateways_online : Z;
  ti_plug_count : Z; ti_sessions_30d : Z; ti_revenue_30d_coins : float; ti_pending_payouts : Z }.

Record PayoutItem := mkpayout_item {
  pi_id : Z; pi_payout : Payout.t; pi_gross_coins : float; pi_platform_fee_coins : float;
  pi_net_coins : float }.

Record RecentSession := mkrecent {
  rs_id : Z; rs_session : ChargingSession.t; rs_plug_name : string; rs_user_email : string;
  rs_energy_kwh : float; rs_coins_spent : float }.

Record TenantDetail := mkdetail {
  td_item : TenantItem; td_recent_sessions : list RecentSession; td_payouts : list PayoutItem }.

Record UserItem := mkuser_item {
  ui_id : Z; ui_user : User.t; ui_tenant_name : option string; ui_coin_balance : float }.

Record DisputeItem := mkdispute_item {
  di_id : Z; di_dispute : SessionDispute.t; di_tenant_name : string; di_user_email : string;
  di_session_cost_coins : option float; di_refund_coins : option float }.

Section Console.
Context `{cfg : Config}.
Implicit Types (d : db) (now tid : Z).

(** ** GET /api/admin/stats/overview *)

Definition month_ago now : datetime := now - days 30.

(** [count(...)] over a table with text keys. *)
Definition gateways_where d (p : Gateway.t → bool) : Z :=
  Z.of_nat (length (List.filter (λ r, p r.2) (map_to_list (gateways d)))).

Definition figures_of (rows : list (Z * ChargingSession.t)) : Figures :=
  {| f_energy_kwh := fround 3 (energy_of rows); f_revenue_coins := to_coins (cents_of rows) |}.

Definition figures d (p : ChargingSession.t → bool) : Figures :=
  figures_of (select (λ _ s, p s && finished s) (sessions d)).

Definition requested (p : Payout.t) : bool := bool_decide (Payout.status p = P_REQUESTED).

Definition admin_stats_overview now : M PlatformStats :=
  query (λ d,
    let today_start := now / DAY * DAY in
    let role r := count (λ u, bool_decide (User.role u = r)) (users d) in
    let since (t : datetime) s := t <=? ChargingSession.started_at s in
    {| ps_tenants := count (λ _, true) (tenants d);
       ps_users := role DRIVER + role CPO + role ADMIN;
       ps_drivers := role DRIVER; ps_cpos := role CPO; ps_admins := role ADMIN;
       ps_gateways := gateways_where d (λ _, true);
       ps_gateways_online := gateways_where d (λ g, bool_decide (Gateway.status g = ONLINE));
       ps_plugs := count (λ _, true) (plugs d);
       ps_plugs_public := count (visibility_filter d VPublic) (plugs d);
       ps_plugs_private := count (visibility_filter d VPrivate) (plugs d);
       ps_active := count (λ s, bool_decide (ChargingSession.status s = ACTIVE)) (sessions d);
       ps_sessions_today := count (since today_start) (sessions d);
       ps_sessions := count (λ _, true) (sessions d);
       ps_today := figures d (since today_start);
       ps_total := figures d (λ _, true);
       ps_last_30d := figures d (since (month_ago now));
       ps_requested_count := count requested (payouts d);
       ps_requested_net_coins :=
         to_coins (msum (λ p, if requested p then Payout.net_coins p else 0) (payouts d));
       ps_disputes_open :=
         count (λ x, bool_decide (SessionDispute.status x = D_OPEN)) (disputes d) |}).

(** ** GET /api/admin/tenants, /tenants/{tenant_id} *)

Definition session_of tid (cutoff : datetime) (s : ChargingSession.t) : bool :=
  (ChargingSession.tenant_id s =? tid) && (cutoff <=? ChargingSession.started_at s).

Definition tenant_item d (cutoff : datetime) (r : Z * Tenant.t) : TenantItem :=
  {| ti_id := r.1; ti_tenant := r.2;
     ti_user_count := count (λ u, bool_decide (User.tenant_id u = Some r.1)) (users d);
     ti_gateway_count := gateways_where d (λ g, bool_decide (Gateway.tenant_id g = Some r.1));
     ti_gateways_online := gateways_where d (λ g, bool_decide (Gateway.tenant_id g = Some r.1) &&
                                                  bool_decide (Gateway.status g = ONLINE));
     ti_plug_count := count (λ p, bool_decide (gateway_owner d (Plug.gateway_id p) = Some r.1)) (plugs d);
     ti_sessions_30d := count (session_of r.1 cutoff) (sessions d);
     ti_revenue_30d_coins :=
       to_coins (cents_of (select (λ _ s, session_of r.1 cutoff s && finished s) (sessions d)));
     ti_pending_payouts := count (λ p, (Payout.tenant_id p =? r.1) && requested p) (payouts d) |}.

Definition admin_list_tenants (matches : string → bool) (limit offset : Z) (created_at : Z → datetime) now
    : M (Z * list TenantItem) :=
  query (λ d,
    let '(total, rows) := page limit offset (order_by2 (λ r, - created_at r.1) (λ r, - r.1)
      (select (λ _ t, matches (Tenant.name t)) (tenants d))) in
    (total, map (tenant_item d (month_ago now)) rows)).

Definition payout_item (r : Z * Payout.t) : PayoutItem :=
  {| pi_id := r.1; pi_payout := r.2; pi_gross_coins := flit (Payout.gross_coins r.2) 100;
     pi_platform_fee_coins := flit (Payout.platform_fee_coins r.2) 100;
     pi_net_coins := flit (Payout.net_coins r.2) 100 |}.

Definition recent_session d (r : Z * ChargingSession.t) : RecentSession :=
  {| rs_id := r.1; rs_session := r.2; rs_plug_name := plug_name_of d r.2;
     rs_user_email := user_email_of d r.2; rs_energy_kwh := fround 3 (ChargingSession.energy_kwh r.2);
     rs_coins_spent := to_coins (ChargingSession.coins_spent r.2) |}.

Definition admin_tenant_detail tid now : M TenantDetail :=
  row ← query (λ d, t ← tenants d !! tid; Some (tenant_item d (month_ago now) (tid, t)));
  item ← or_raise row 404 "Tenant not found.";
  query (λ d,
    {| td_item := item;
       td_recent_sessions := map (recent_session d) (take 10
         (order_by2 (λ r, - ChargingSession.started_at r.2) (λ r, - r.1)
           (select (λ _ s, ChargingSession.tenant_id s =? tid) (sessions d))));
       td_payouts := map payout_item (take 50
         (order_by2 (λ r, - Payout.requested_at r.2) (λ r, - r.1)
           (select (λ _ p, Payout.tenant_id p =? tid) (payouts d)))) |}).

(** ** GET /api/admin/users, /payouts, /gateways/inventory, /gateway-logs, /disputes *)

(** [if value:] - the enumeration's member of that value, or 400. *)
Definition enum_filter {A} (of_value : string → option A) (value : option string) (detail : string)
    : M (option A) :=
  match value with
  | Some v => if truthy_str value then x ← or_raise (of_value v) 400 detail; mret (Some x) else mret None
  | None => mret None
  end.

Definition user_item d (r : Z * User.t) : UserItem :=
  {| ui_id := r.1; ui_user := r.2;
     ui_tenant_name := (tid ← User.tenant_id r.2; t ← tenants d !! tid; Some (Tenant.name t));
     ui_coin_balance := flit (User.coin_balance r.2) 100 |}.

Definition admin_list_users (matches : string → bool) (role : option string) (limit offset : Z)
    (created_at : Z → datetime) : M (Z * list UserItem) :=
  r ← enum_filter role_of role "Invalid role";
  query (λ d,
    let '(total, rows) := page limit offset (order_by2 (λ r, - created_at r.1) (λ r, - r.1)
      (select (λ _ u, (matches (User.email u) || matches (User.full_name u)) &&
                      given (λ x, bool_decide (User.role u = x)) r) (users d))) in
    (total, map (user_item d) rows)).

(** The number of the payouts that pass, and a page of those with a tenant. *)
Definition admin_list_payouts (status : option string) (limit offset : Z)
    : M (Z * list (PayoutItem * string)) :=
  st ← enum_filter payout_status_of status "Invalid status";
  let p x := given (λ s, bool_decide (Payout.status x = s)) st in
  total ← query (λ d, count p (payouts d));
  items ← query (λ d, (page limit offset (omap (λ r,
      t ← tenants d !! Payout.tenant_id r.2; Some (payout_item r, Tenant.name t))
    (order_by2 (λ r, - Payout.requested_at r.2) (λ r, - r.1) (select (λ _, p) (payouts d))))).2);
  mret (total, items).

(** Minted gateways, newest first; ties in any order. *)
Definition admin_list_inventory_gateways (claimed : option bool) (limit offset : Z)
    (created_at : string → datetime) : M (Z * list (string * Gateway.t * bool)) :=
  query (λ d,
    let '(total, rows) := page limit offset (order_by (λ r, - created_at r.1)
      (List.filter (λ r, bool_decide (is_Some (Gateway.claim_code r.2)) &&
                         given (Bool.eqb (bool_decide (is_Some (Gateway.claimed_at r.2)))) claimed)
        (map_to_list (gateways d)))) in
    (total, map (λ r, (r, bool_decide (is_Some (Gateway.claimed_at r.2)))) rows)).

Definition log_matches (gateway_id : option string) (tenant_id : option Z) (level : option string)
    (l : GatewayLog.t) : bool :=
  matches gateway_id (GatewayLog.gateway_id l) &&
  given (Z.eqb (GatewayLog.tenant_id l)) tenant_id &&
  matches level (GatewayLog.level l).

Definition admin_list_gateway_logs (gateway_id : option string) (tenant_id : option Z)
    (level : option string) (limit offset : Z) : M (Z * list (Z * GatewayLog.t * option string)) :=
  query (λ d,
    let '(total, rows) := page limit offset
      (order_by2 (λ r, - GatewayLog.created_at r.2) (λ r, - r.1)
        (select (λ _, log_matches gateway_id tenant_id level) (gateway_logs d))) in
    (total, map (λ r, (r, Tenant.name <$> tenants d !! GatewayLog.tenant_id r.2)) rows)).

Definition dispute_item d (r : Z * SessionDispute.t) : option DisputeItem :=
  t ← tenants d !! SessionDispute.tenant_id r.2;
  Some {| di_id := r.1; di_dispute := r.2; di_tenant_name := Tenant.name t;
    di_user_email := match users d !! SessionDispute.driver_user_id r.2 with
                     | Some u => User.email u | None => "unknown" end;
    di_session_cost_coins :=
      (λ s, to_coins (ChargingSession.coins_spent s)) <$> sessions d !! SessionDispute.session_id r.2;
    di_refund_coins := (λ c, flit c 100) <$> SessionDispute.refund_coins r.2 |}.

Definition admin_list_disputes (status : option string) (limit offset : Z) : M (Z * list DisputeItem) :=
  st ← enum_filter dispute_status_of status "Invalid status";
  let p x := given (λ s, bool_decide (SessionDispute.status x = s)) st in
  total ← query (λ d, count p (disputes d));
  items ← query (λ d, (page limit offset (omap (dispute_item d)
    (order_by2 (λ r, - SessionDispute.created_at r.2) (λ r, - r.1) (select (λ _, p) (disputes d))))).2);
  mret (total, items).

(** ** The overview adds up *)

Lemma lsum_add {A} (f g : A → Z) l : lsum (map (λ x, f x + g x) l) = lsum (map f l) + lsum (map g l).
Proof. induction l as [|x l IH]; simpl; [done|]. rewrite IH. lia. Qed.

Lemma lsum_zero {A} (f : A → Z) l : (∀ x, x ∈ l → f x = 0) → lsum (map f l) = 0.
Proof.
  induction l as [|x l IH]; intros Hf; simpl; [done|].
  rewrite (Hf x), IH by (left || (intros; apply Hf; by right)). lia.
Qed.

(** One owner of many gets the share. *)
Lemma lsum_owner (ks : list Z) (o c : Z) :
  NoDup ks → o ∈ ks → lsum (map (λ k, if bool_decide (Some o = Some k) then c else 0) ks) = c.
Proof.
  induction 1 as [|k ks Hk Hnd IH]; [by intros ?%not_elem_of_nil|].
  intros [->|Ho]%elem_of_cons; simpl.
  - rewrite bool_decide_eq_true_2 by done. rewrite lsum_zero; [lia|].
    intros x Hx. rewrite bool_decide_eq_false_2; [done|congruence].
  - rewrite bool_decide_eq_false_2, IH by (done || congruence). lia.
Qed.

(** What the rows add up to, owner by owner, is what they add up to. *)
Lemma sum_by_owner {A} (owner : A → option Z) (f : A → Z) (m : gmap Z A) (ks : list Z) :
  NoDup ks →
  (∀ i x, m !! i = Some x → match owner x with Some o => o ∈ ks | None => f x = 0 end) →
  lsum (map (λ k, msum (λ x, if bool_decide (owner x = Some k) then f x else 0) m) ks) = msum f m.
Proof.
  intros Hks. induction m as [|i x m Hi IH] using map_ind; intros Hm.
  - rewrite msum_empty. apply lsum_zero. intros k _. apply msum_empty.
  - rewrite msum_insert_None by done.
    rewrite (map_ext _ (λ k, (if bool_decide (owner x = Some k) then f x else 0) +
      msum (λ x, if bool_decide (owner x = Some k) then f x else 0) m))
      by (intros k; by rewrite msum_insert_None).
    rewrite lsum_add, IH.
    + f_equal. specialize (Hm i x (lookup_insert_eq _ _ _)). destruct (owner x) as [o|].
      * by apply lsum_owner.
      * rewrite Hm. by apply lsum_zero.
    + intros j y Hj. apply (Hm j). rewrite lookup_insert_ne; [done|]. intros ->. congruence.
Qed.

Lemma cents_of_select (p : ChargingSession.t → bool) (m : gmap Z ChargingSession.t) :
  cents_of (select (λ _, p) m) = msum (λ s, if p s then ChargingSession.coins_spent s else 0) m.
Proof. unfold cents_of, select. by rewrite msum_list. Qed.

(** References the database keeps. *)
Record references_ok d : Prop := {
  rf_sessions : ∀ i s, sessions d !! i = Some s → is_Some (tenants d !! ChargingSession.tenant_id s);
  rf_payouts : ∀ i p, payouts d !! i = Some p → is_Some (tenants d !! Payout.tenant_id p);
  rf_gateways : ∀ i g t, gateways d !! i = Some g → Gateway.tenant_id g = Some t → is_Some (tenants d !! t);
  rf_groups : ∀ i p g, plugs d !! i = Some p → Plug.group_id p = Some g → is_Some (groups d !! g) }.

(** The list of tenants and the overview agree: coins of the last thirty days,
    payouts to pay and plugs of claimed gateways add up over the tenants; users
    have one role each, and a plug is public or private. *)
Theorem platform_adds_up now w :
  references_ok (cur w) →
  ∃ s, admin_stats_overview now w = (Ok s, w) ∧
  (let own (tid : Z) := select (λ _ s, session_of tid (month_ago now) s && finished s) (sessions (cur w)) in
   let rows := map_to_list (tenants (cur w)) in
   let items := map (tenant_item (cur w) (month_ago now)) rows in
   (∀ r, r ∈ rows → ti_revenue_30d_coins (tenant_item (cur w) (month_ago now) r) = to_coins (cents_of (own r.1))) ∧
   f_revenue_coins (ps_last_30d s) = to_coins (lsum (map (λ r, cents_of (own r.1)) rows)) ∧
   lsum (map ti_pending_payouts items) = ps_requested_count s ∧
   lsum (map ti_plug_count items) = count (plug_claimed (cur w)) (plugs (cur w)) ∧
   ps_users s = count (λ _, true) (users (cur w)) ∧
   ps_plugs_public s + ps_plugs_private s = ps_plugs s).
Proof.
  intros Hok. eexists. split; [reflexivity|]. simpl.
  assert (Hnd : NoDup (map fst (map_to_list (tenants (cur w))))) by apply NoDup_fst_map_to_list.
  assert (Hin : ∀ t, is_Some (tenants (cur w) !! t) → t ∈ map fst (map_to_list (tenants (cur w)))).
  { intros t [x Hx]. apply list_elem_of_fmap. exists (t, x). split; [done|]. by apply elem_of_map_to_list. }
  split; [done|]. split; [|split; [|split; [|split]]].
  - f_equal. rewrite cents_of_select.
    rewrite <- (sum_by_owner (λ s, Some (ChargingSession.tenant_id s)) _ _ _ Hnd).
    + rewrite map_map. f_equal. apply map_ext. intros [t x]. simpl. rewrite cents_of_select.
      apply msum_ext. intros i s Hs. unfold session_of. simpl.
      destruct (Z.eqb_spec (ChargingSession.tenant_id s) t) as [->|Hne]; simpl.
      * by rewrite bool_decide_eq_true_2.
      * rewrite bool_decide_eq_false_2; [done|congruence].
    + intros i s Hs. by apply Hin, (rf_sessions _ Hok i).
  - rewrite map_map. unfold count. rewrite <- (sum_by_owner (λ p, Some (Payout.tenant_id p)) _ _ _ Hnd).
    + rewrite map_map. f_equal. apply map_ext. intros [t x]. simpl. unfold count.
      apply msum_ext. intros i p Hp. simpl.
      destruct (Z.eqb_spec (Payout.tenant_id p) t) as [->|Hne]; simpl.
      * by rewrite bool_decide_eq_true_2.
      * rewrite bool_decide_eq_false_2; [done|congruence].
    + intros i p Hp. by apply Hin, (rf_payouts _ Hok i).
  - rewrite map_map. unfold count.
    rewrite <- (sum_by_owner (λ p, gateway_owner (cur w) (Plug.gateway_id p)) _ _ _ Hnd).
    + rewrite map_map. f_equal. apply map_ext. intros [t x]. simpl. unfold count.
      apply msum_ext. intros i p Hp. simpl. case_bool_decide as Ho; [|done].
      unfold plug_claimed. rewrite Ho. simpl. rewrite bool_decide_eq_true_2; [done|].
      apply bind_Some in Ho as (g & Hg & Ht). by eapply rf_gateways.
    + intros i p Hp. destruct (gateway_owner (cur w) (Plug.gateway_id p)) as [t|] eqn:Ho.
      * apply Hin. apply bind_Some in Ho as (g & Hg & Ht). by eapply rf_gateways.
      * unfold plug_claimed. by rewrite Ho.
  - unfold count. rewrite <- !msum_add. apply msum_ext. intros i u _. by destruct (User.role u).
  - unfold count. rewrite <- msum_add. apply msum_ext. intros i p Hp.
    unfold visibility_filter, plug_group. destruct (Plug.group_id p) as [gid|] eqn:Hg; [|done]. simpl.
    destruct (rf_groups _ Hok i p gid Hp Hg) as [g ->]. by destruct (ChargerGroup.is_public g).
Qed.

(** ** The lists *)

(** Payouts: with the tenants they refer to, the number is that of the rows, and
    the pages are the payouts that pass, latest request first; a status that is
    none is refused. *)
Theorem payouts_paged status limit n w :
  1 <= limit <= 200 → 0 <= n → references_ok (cur w) →
  match (enum_filter payout_status_of status "Invalid status" w).1 with
  | Ok st => ∃ rows items,
      listing (payouts (cur w)) (λ x, given (λ s, bool_decide (Payout.status x = s)) st)
        (λ r, Payout.requested_at r.2) rows ∧
      map (λ x, (pi_id x.1, pi_payout x.1)) items = rows ∧
      (∀ offset, admin_list_payouts status limit offset w = (Ok (page limit offset items), w)) ∧
      (Z.of_nat (length items) <= n * limit → pages limit n items = items)
  | Raise e => ∀ offset, admin_list_payouts status limit offset w = (Raise e, w)
  end.
Proof.
  intros Hl Hn Hok. unfold admin_list_payouts. cbv [mbind M_bind query].
  assert (Hw : (enum_filter payout_status_of status "Invalid status" w).2 = w).
  { unfold enum_filter. destruct status as [v|]; [|done]. destruct (truthy_str (Some v)); [|done].
    by destruct (payout_status_of v). }
  destruct (enum_filter payout_status_of status "Invalid status" w) as [[st|e] w']; simpl in *; subst w'; [|done].
  set (p x := given (λ s, bool_decide (Payout.status x = s)) st).
  set (rows := order_by2 (λ r : Z * Payout.t, - Payout.requested_at r.2) (λ r, - r.1)
                 (select (λ _, p) (payouts (cur w)))).
  set (joined := λ r : Z * Payout.t, t ← tenants (cur w) !! Payout.tenant_id r.2;
                   Some (payout_item r, Tenant.name t)).
  assert (Hall : ∀ r, r ∈ rows → is_Some (tenants (cur w) !! Payout.tenant_id r.2)).
  { intros [i x] Hr. unfold rows, order_by2 in Hr. rewrite merge_sort_Permutation in Hr.
    apply elem_of_select in Hr as [Hx _]. by eapply rf_payouts. }
  assert (Hmap : map (λ x, (pi_id x.1, pi_payout x.1)) (omap joined rows) = rows).
  { revert Hall. generalize rows. clear. intros rows. induction rows as [|r rows IH]; intros Hall; [done|].
    destruct (Hall r ltac:(left)) as [t Ht]. cbn [omap list_omap]. unfold joined at 1. rewrite Ht. simpl.
    rewrite IH by (intros; apply Hall; by right). by destruct r. }
  exists rows, (omap joined rows). split; [apply (listed_all _ _ (λ r, Payout.requested_at r.2))|].
  split; [done|]. split; [|by apply pages_tile]. intros offset.
  assert (Hlen : count p (payouts (cur w)) = Z.of_nat (length (omap joined rows))); [|by rewrite Hlen].
  rewrite <- (length_map (λ x, (pi_id x.1, pi_payout x.1)) (omap joined rows)), Hmap.
  unfold rows, order_by2. rewrite merge_sort_Permutation. unfold count, select.
  rewrite (msum_list p (λ _, 1)), lsum_ones. done.
Qed.
End Console.
