(* ===== verification/Export.v ===== *)
(** * services/data_export.py: the copy of one's data

    The document as a record of its collections.  What only the document shows
    (when a row was stored, texts of ledger rows) is left out of the rows; the
    times by which the ledger is ordered are an argument.  Ties in an order are in
    any order. *)

From stdpp Require Import sorting.
From S2P Require Import Prelude Rounding PyNum Money Models Config TelemetryStore World Hoare.
From S2P Require Import PushGuard Analytics.

Definition MAX_ROWS_PER_COLLECTION : nat := Z.to_nat 5000.

(** [_collect]: the rows, at most so many, and whether there were more. *)
Definition collect {A} (rows : list A) : list A * bool :=
  let rows := take (S MAX_ROWS_PER_COLLECTION) rows in
  (take MAX_ROWS_PER_COLLECTION rows, (MAX_ROWS_PER_COLLECTION <? length rows)%nat).

(** [_host_of]. *)
Definition host_of (endpoint : string) : string :=
  match urlsplit endpoint with
  | Some (_, netloc) => default "unknown"%string (hostname netloc)
  | None => "unknown"
  end.

Record Account := mkaccount {
  ac_id : Z; ac_email : string; ac_full_name : string; ac_role : UserRole; ac_auth_provider : string;
  ac_google_account_linked : bool; ac_email_verified : bool; ac_charging_credit_balance : float;
  ac_organisation_id : option Z }.

Record ExportedSession := mkexported {
  es_id : Z; es_charger : option string; es_operator : option string; es_status : SessionStatus;
  es_started_at : datetime; es_ended_at : option datetime; es_energy_kwh : float; es_coins_spent : float }.

Record ExportedEntry := mkentry {
  ee_id : Z; ee_type : TransactionType; ee_amount_coins : float; ee_balance_after_coins : float;
  ee_session_id : option Z; ee_payment_reference : option string }.

Record ExportedInvoice := mkexported_invoice {
  ei_invoice_number : string; ei_session_id : Z; ei_issued_at : datetime;
  ei_seller_legal_name : option string; ei_seller_gstin : option string }.

Record ExportedDispute := mkexported_dispute {
  ed_id : Z; ed_session_id : Z; ed_reason : string; ed_status : DisputeStatus;
  ed_resolution_note : option string; ed_refund_coins : option float; ed_created_at : datetime;
  ed_resolved_at : option datetime }.

Record ExportedReport := mkexported_report {
  er_id : Z; er_charger_id : Z; er_category : string; er_description : string;
  er_status : PlugReportStatus; er_created_at : datetime }.

Record ExportedReservation := mkexported_reservation {
  ev_id : Z; ev_charger_id : Z; ev_status : ReservationStatus; ev_start_at : datetime; ev_end_at : datetime }.

Record ExportedNotification := mkexported_notification {
  en_id : Z; en_type : string; en_severity : string; en_title : string; en_body : string;
  en_created_at : datetime; en_read : bool }.

Record Document := mkdocument {
  truncated_collections : list string;
  account : Account;
  charging_sessions : list ExportedSession;
  wallet_ledger : list ExportedEntry;
  exported_invoices : list ExportedInvoice;
  exported_disputes : list ExportedDispute;
  charger_reports : list ExportedReport;
  exported_reservations : list ExportedReservation;
  group_memberships : list (Z * option string * datetime);
  exported_favorites : list Z;
  charger_watches : list Z;
  exported_notifications : list ExportedNotification;
  push_devices : list string }.

Section DataExport.
Implicit Types (d : db) (uid : Z) (user : User.t).

Definition account_of uid user : Account :=
  {| ac_id := uid; ac_email := User.email user; ac_full_name := User.full_name user;
     ac_role := User.role user; ac_auth_provider := User.auth_provider user;
     ac_google_account_linked := bool_decide (is_Some (User.google_sub user));
     ac_email_verified := User.email_verified user;
     ac_charging_credit_balance := flit (User.coin_balance user) 100;
     ac_organisation_id := User.tenant_id user |}.

Definition exported_session d (r : Z * ChargingSession.t) : ExportedSession :=
  let plug := plugs d !! ChargingSession.plug_id r.2 in
  {| es_id := r.1; es_charger := Plug.name <$> plug;
     es_operator := (p ← plug; g ← gateways d !! Plug.gateway_id p; tid ← Gateway.tenant_id g;
                     t ← tenants d !! tid; Some (Tenant.name t));
     es_status := ChargingSession.status r.2; es_started_at := ChargingSession.started_at r.2;
     es_ended_at := ChargingSession.ended_at r.2; es_energy_kwh := ChargingSession.energy_kwh r.2;
     es_coins_spent := flit (ChargingSession.coins_spent r.2) 100 |}.

Definition exported_entry (r : Z * LedgerTransaction.t) : ExportedEntry :=
  {| ee_id := r.1; ee_type := LedgerTransaction.transaction_type r.2;
     ee_amount_coins := flit (LedgerTransaction.amount r.2) 100;
     ee_balance_after_coins := flit (LedgerTransaction.balance_after r.2) 100;
     ee_session_id := LedgerTransaction.session_id r.2;
     ee_payment_reference := LedgerTransaction.razorpay_payment_id r.2 |}.

Definition exported_invoice (r : Z * Invoice.t) : ExportedInvoice :=
  {| ei_invoice_number := Invoice.invoice_number r.2; ei_session_id := Invoice.session_id r.2;
     ei_issued_at := Invoice.issued_at r.2; ei_seller_legal_name := Invoice.seller_legal_name r.2;
     ei_seller_gstin := Invoice.seller_gstin r.2 |}.

Definition exported_dispute (r : Z * SessionDispute.t) : ExportedDispute :=
  {| ed_id := r.1; ed_session_id := SessionDispute.session_id r.2; ed_reason := SessionDispute.reason r.2;
     ed_status := SessionDispute.status r.2; ed_resolution_note := SessionDispute.resolution_note r.2;
     ed_refund_coins := (λ c, flit c 100) <$> SessionDispute.refund_coins r.2;
     ed_created_at := SessionDispute.created_at r.2; ed_resolved_at := SessionDispute.resolved_at r.2 |}.

Definition exported_report (r : Z * PlugReport.t) : ExportedReport :=
  {| er_id := r.1; er_charger_id := PlugReport.plug_id r.2; er_category := PlugReport.category r.2;
     er_description := PlugReport.description r.2; er_status := PlugReport.status r.2;
     er_created_at := PlugReport.created_at r.2 |}.

Definition exported_reservation (r : Z * Reservation.t) : ExportedReservation :=
  {| ev_id := r.1; ev_charger_id := Reservation.plug_id r.2; ev_status := Reservation.status r.2;
     ev_start_at := Reservation.start_at r.2; ev_end_at := Reservation.end_at r.2 |}.

Definition exported_notification (r : Z * Notification.t) : ExportedNotification :=
  {| en_id := r.1; en_type := Notification.type r.2; en_severity := Notification.severity r.2;
     en_title := Notification.title r.2; en_body := Notification.body r.2;
     en_created_at := Notification.created_at r.2; en_read := Notification.read r.2 |}.

Definition exported_membership d (r : Z * GroupMembership.t) : Z * option string * datetime :=
  (GroupMembership.group_id r.2, ChargerGroup.name <$> groups d !! GroupMembership.group_id r.2,
   GroupMembership.joined_at r.2).

(** The collections of the user, latest first where the code orders them. *)
Definition own_sessions d uid :=
  order_by (λ r, - ChargingSession.started_at r.2)
    (select (λ _ s, ChargingSession.user_id s =? uid) (sessions d)).
Definition own_ledger (entry_at : Z → datetime) d uid :=
  order_by (λ r, - entry_at r.1) (select (λ _ t, LedgerTransaction.user_id t =? uid) (ledger d)).
Definition own_invoices d uid :=
  order_by (λ r, - Invoice.issued_at r.2) (select (λ _ x, Invoice.driver_user_id x =? uid) (invoices d)).
Definition own_disputes d uid :=
  order_by (λ r, - SessionDispute.created_at r.2)
    (select (λ _ x, SessionDispute.driver_user_id x =? uid) (disputes d)).
Definition own_reports d uid :=
  order_by (λ r, - PlugReport.created_at r.2)
    (select (λ _ x, PlugReport.driver_user_id x =? uid) (plug_reports d)).
Definition own_reservations d uid :=
  order_by (λ r, - Reservation.start_at r.2) (select (λ _ r, Reservation.user_id r =? uid) (reservations d)).
Definition own_memberships d uid := select (λ _ m, GroupMembership.user_id m =? uid) (memberships d).
Definition own_favorites d uid := select (λ _ f, UserFavorite.user_id f =? uid) (favorites d).
Definition own_watches d uid := select (λ _ x, PlugWatch.user_id x =? uid) (watches d).
Definition own_notifications d uid :=
  order_by (λ r, - Notification.created_at r.2) (select (λ _ x, Notification.user_id x =? uid) (notifications d)).
Definition own_devices d uid := select (λ _ s, PushSubscription.user_id s =? uid) (push_subscriptions d).

(** [note] for each collection, in the order of the code. *)
Definition truncations (l : list (string * bool)) : list string :=
  map fst (List.filter snd l).

Definition build_export uid user (entry_at : Z → datetime) : M Document :=
  query (λ d,
    let '(session_rows, t1) := collect (own_sessions d uid) in
    let '(ledger_rows, t2) := collect (own_ledger entry_at d uid) in
    let '(invoice_rows, t3) := collect (own_invoices d uid) in
    let '(dispute_rows, t4) := collect (own_disputes d uid) in
    let '(report_rows, t5) := collect (own_reports d uid) in
    let '(reservation_rows, t6) := collect (own_reservations d uid) in
    let '(membership_rows, t7) := collect (own_memberships d uid) in
    let '(favorite_rows, t8) := collect (own_favorites d uid) in
    let '(watch_rows, t9) := collect (own_watches d uid) in
    let '(notification_rows, t10) := collect (own_notifications d uid) in
    let '(push_rows, t11) := collect (own_devices d uid) in
    {| truncated_collections := truncations
         [("charging_sessions", t1); ("wallet_ledger", t2); ("invoices", t3); ("disputes", t4);
          ("charger_reports", t5); ("reservations", t6); ("group_memberships", t7); ("favorites", t8);
          ("charger_watches", t9); ("notifications", t10); ("push_devices", t11)]%string;
       account := account_of uid user;
       charging_sessions := map (exported_session d) session_rows;
       wallet_ledger := map exported_entry ledger_rows;
       exported_invoices := map exported_invoice invoice_rows;
       exported_disputes := map exported_dispute dispute_rows;
       charger_reports := map exported_report report_rows;
       exported_reservations := map exported_reservation reservation_rows;
       group_memberships := map (exported_membership d) membership_rows;
       exported_favorites := map (λ r, UserFavorite.plug_id r.2) favorite_rows;
       charger_watches := map (λ r, PlugWatch.plug_id r.2) watch_rows;
       exported_notifications := map exported_notification notification_rows;
       push_devices := map (λ r, host_of (PushSubscription.endpoint r.2)) push_rows |}).

(** ** Complete, and one's own *)

Lemma collect_spec {A} (rows : list A) :
  (collect rows).1 = take MAX_ROWS_PER_COLLECTION rows ∧
  (collect rows).2 = (MAX_ROWS_PER_COLLECTION <? length rows)%nat.
Proof.
  unfold collect. cbn [fst snd]. generalize MAX_ROWS_PER_COLLECTION. intros n. split.
  - rewrite take_take. f_equal. lia.
  - rewrite length_take. apply eq_bool_prop_intro. rewrite !Is_true_true, !Nat.ltb_lt. lia.
Qed.

(** [out] shows the rows, all of them unless [name] is among the collections the
    document says it cut; those it cut at the limit. *)
Definition shows {A B} (doc : Document) (name : string) (f : A → B) (rows : list A) (out : list B) : Prop :=
  out = map f (take MAX_ROWS_PER_COLLECTION rows) ∧
  (name ∈ truncated_collections doc ↔ 5000 < Z.of_nat (length rows)) ∧
  (name ∉ truncated_collections doc → out = map f rows).

Lemma elem_of_truncations name l :
  name ∈ truncations l ↔ (name, true) ∈ l.
Proof.
  unfold truncations. rewrite list_elem_of_fmap. split.
  - intros ([n b] & -> & [Hin Hb]%list_elem_of_In%filter_In). simpl in *. subst b. by apply list_elem_of_In.
  - intros Hin. exists (name, true). split; [done|]. apply list_elem_of_In, filter_In.
    split; [by apply list_elem_of_In|done].
Qed.

Lemma shows_collect {A B} (doc : Document) name (f : A → B) (rows : list A) :
  (name ∈ truncated_collections doc ↔ (collect rows).2 = true) →
  shows doc name f rows (map f (collect rows).1).
Proof.
  destruct (collect_spec rows) as [-> ->]. intros Hin. split; [done|].
  assert (Hlt : (MAX_ROWS_PER_COLLECTION <? length rows)%nat = true ↔ 5000 < Z.of_nat (length rows)).
  { rewrite Nat.ltb_lt. unfold MAX_ROWS_PER_COLLECTION. lia. }
  split; [by rewrite Hin|]. intros Hno. rewrite take_ge; [done|].
  unfold MAX_ROWS_PER_COLLECTION. destruct (Z.lt_ge_cases 5000 (Z.of_nat (length rows))); [|lia].
  destruct Hno. by apply Hin, Hlt.
Qed.

Lemma shows_pair {A B} (doc : Document) name (f : A → B) (rows l : list A) t :
  collect rows = (l, t) → (name ∈ truncated_collections doc ↔ t = true) → shows doc name f rows (map f l).
Proof. intros Hc Ht. pose proof (shows_collect doc name f rows) as H. rewrite Hc in H. by apply H. Qed.

Lemma truncated_at l k name t :
  NoDup (map fst l) → l !! k = Some (name, t) → (name ∈ truncations l ↔ t = true).
Proof.
  intros Hnd Hk. rewrite elem_of_truncations. split.
  - intros [j Hj]%list_elem_of_lookup.
    assert (j = k) as ->; [|congruence]. apply (NoDup_lookup (map fst l) j k name Hnd).
    + change (map fst l) with (fst <$> l). by rewrite list_lookup_fmap, Hj.
    + change (map fst l) with (fst <$> l). by rewrite list_lookup_fmap, Hk.
  - intros ->. by eapply list_elem_of_lookup_2.
Qed.

Lemma elem_of_own {A} (p : A → bool) (m : gmap Z A) (key : Z * A → Z) i x :
  (i, x) ∈ order_by key (select (λ _, p) m) ↔ m !! i = Some x ∧ p x = true.
Proof. rewrite order_by_elem. apply elem_of_select. Qed.

Ltac shown k names :=
  split; [by eapply shows_pair, (truncated_at _ k); [|apply names|]|].

(** The document shows, of each table, the rows of the user and no others, and
    says which it cut. *)
Theorem export_complete uid user entry_at w :
  ∃ doc, build_export uid user entry_at w = (Ok doc, w) ∧
    shows doc "charging_sessions" (exported_session (cur w)) (own_sessions (cur w) uid) (charging_sessions doc) ∧
    shows doc "wallet_ledger" exported_entry (own_ledger entry_at (cur w) uid) (wallet_ledger doc) ∧
    shows doc "invoices" exported_invoice (own_invoices (cur w) uid) (exported_invoices doc) ∧
    shows doc "disputes" exported_dispute (own_disputes (cur w) uid) (exported_disputes doc) ∧
    shows doc "charger_reports" exported_report (own_reports (cur w) uid) (charger_reports doc) ∧
    shows doc "reservations" exported_reservation (own_reservations (cur w) uid) (exported_reservations doc) ∧
    shows doc "group_memberships" (exported_membership (cur w)) (own_memberships (cur w) uid)
      (group_memberships doc) ∧
    shows doc "notifications" exported_notification (own_notifications (cur w) uid) (exported_notifications doc) ∧
    (∀ i s, (i, s) ∈ own_sessions (cur w) uid ↔
       sessions (cur w) !! i = Some s ∧ ChargingSession.user_id s = uid) ∧
    (∀ i t, (i, t) ∈ own_ledger entry_at (cur w) uid ↔
       ledger (cur w) !! i = Some t ∧ LedgerTransaction.user_id t = uid).
Proof.
  unfold build_export, query.
  destruct (collect (own_sessions (cur w) uid)) as [l1 t1] eqn:H1.
  destruct (collect (own_ledger entry_at (cur w) uid)) as [l2 t2] eqn:H2.
  destruct (collect (own_invoices (cur w) uid)) as [l3 t3] eqn:H3.
  destruct (collect (own_disputes (cur w) uid)) as [l4 t4] eqn:H4.
  destruct (collect (own_reports (cur w) uid)) as [l5 t5] eqn:H5.
  destruct (collect (own_reservations (cur w) uid)) as [l6 t6] eqn:H6.
  destruct (collect (own_memberships (cur w) uid)) as [l7 t7] eqn:H7.
  destruct (collect (own_favorites (cur w) uid)) as [l8 t8].
  destruct (collect (own_watches (cur w) uid)) as [l9 t9].
  destruct (collect (own_notifications (cur w) uid)) as [l10 t10] eqn:H10.
  destruct (collect (own_devices (cur w) uid)) as [l11 t11].
  eexists. split; [reflexivity|]. cbn [charging_sessions wallet_ledger exported_invoices exported_disputes
    charger_reports exported_reservations group_memberships exported_notifications].
  assert (Hnames : ∀ l : list (string * bool), map fst l = ["charging_sessions"; "wallet_ledger"; "invoices";
    "disputes"; "charger_reports"; "reservations"; "group_memberships"; "favorites"; "charger_watches";
    "notifications"; "push_devices"]%string → NoDup (map fst l)).
  { intros l ->. apply (bool_decide_unpack _). vm_compute. reflexivity. }
  shown 0%nat Hnames. shown 1%nat Hnames. shown 2%nat Hnames. shown 3%nat Hnames. shown 4%nat Hnames.
  shown 5%nat Hnames. shown 6%nat Hnames. shown 9%nat Hnames.
  split; intros i s; unfold own_sessions, own_ledger; rewrite elem_of_own, Z.eqb_eq; done.
Qed.

(** ** What is not in it *)

Lemma select_fmap {A} (p : A → bool) (f : A → A) (m : gmap Z A) :
  (∀ x, p (f x) = p x) → select (λ _, p) (f <$> m) = map (λ r, (r.1, f r.2)) (select (λ _, p) m).
Proof.
  intros Hp. unfold select. rewrite map_to_list_fmap.
  induction (map_to_list m) as [|[i x] l IH]; simpl; [done|]. rewrite Hp.
  destruct (p x); simpl; by rewrite <- IH.
Qed.

Lemma collect_map {A B} (f : A → B) (rows : list A) :
  collect (map f rows) = (map f (collect rows).1, (collect rows).2).
Proof.
  unfold collect. cbn [fst snd]. generalize MAX_ROWS_PER_COLLECTION. intros n.
  by rewrite !firstn_map, length_map.
Qed.

(** Credentials are not in it: another password, other token versions, other
    push endpoints on the same services and other keys give the same document. *)
Theorem export_keeps_secrets uid user user' entry_at
    (f : PushSubscription.t → PushSubscription.t) w :
  account_of uid user' = account_of uid user →
  (∀ s, PushSubscription.user_id (f s) = PushSubscription.user_id s ∧
        host_of (PushSubscription.endpoint (f s)) = host_of (PushSubscription.endpoint s)) →
  (build_export uid user' entry_at
     (w <| cur ::= (λ d, d <| push_subscriptions ::= fmap f |>) |>)).1 =
  (build_export uid user entry_at w).1.
Proof.
  intros Hac Hf. unfold build_export, query. cbn [fst cur].
  assert (Hdev : own_devices ((cur w) <| push_subscriptions ::= fmap f |>) uid =
                 map (λ r, (r.1, f r.2)) (own_devices (cur w) uid)).
  { unfold own_devices. simpl. apply select_fmap. intros s. by rewrite (proj1 (Hf s)). }
  change (cur (w <| cur ::= (λ d, d <| push_subscriptions ::= fmap f |>) |>))
    with ((cur w) <| push_subscriptions ::= fmap f |>).
  rewrite Hdev, collect_map, Hac. set (d' := (cur w) <| push_subscriptions ::= fmap f |>).
  change (own_sessions d' uid) with (own_sessions (cur w) uid).
  change (own_ledger entry_at d' uid) with (own_ledger entry_at (cur w) uid).
  change (own_invoices d' uid) with (own_invoices (cur w) uid).
  change (own_disputes d' uid) with (own_disputes (cur w) uid).
  change (own_reports d' uid) with (own_reports (cur w) uid).
  change (own_reservations d' uid) with (own_reservations (cur w) uid).
  change (own_memberships d' uid) with (own_memberships (cur w) uid).
  change (own_favorites d' uid) with (own_favorites (cur w) uid).
  change (own_watches d' uid) with (own_watches (cur w) uid).
  change (own_notifications d' uid) with (own_notifications (cur w) uid).
  repeat (destruct (collect _) as [? ?]). cbv iota. cbn [fst snd].
  change (exported_session d') with (exported_session (cur w)).
  change (exported_membership d') with (exported_membership (cur w)).
  do 2 f_equal. rewrite map_map. apply map_ext. intros r. apply Hf.
Qed.

(** What the account holds besides: queued charges and requests for capacity.
    The document calls itself everything, and does not depend on them. *)
Theorem export_omits uid user entry_at q c w :
  (build_export uid user entry_at
     (w <| cur ::= (λ d, d <| queued := q |> <| capacity_requests := c |>) |>)).1 =
  (build_export uid user entry_at w).1.
Proof. done. Qed.
End DataExport.
