(* ===== verification/Payments.v ===== *)
(** * services/payments.py and routers/payments.py: wallet top-ups by Razorpay

    Both the client's verify call and the webhook credit a captured payment;
    the UNIQUE ledger column [razorpay_payment_id] makes either idempotent.  A
    refund webhook claws the coins back.  Razorpay itself and the parsing of its
    payloads are outside the repository ([Razorpay]). *)

From stdpp Require Import pretty.
From Stdlib Require Import Ascii.
From S2P Require Import Prelude Rounding PyNum Money Models Config TelemetryStore World Hoare.
From S2P Require Import PyJson Billing Wallet Lifecycle.

Class Razorpay := {
  (* get_razorpay_client() is not None *)
  client_configured : bool;
  (* client.utility.verify_payment_signature does not raise *)
  signature_ok : string → string → string → bool;
  (* client.payment.fetch(id); [None] when it raises *)
  payment_fetch : string → option json;
  (* client.order.create: the order id, for an amount in paise and a user *)
  order_create : Z → Z → option string;
  (* RAZORPAY_WEBHOOK_SECRET, the HMAC-SHA256 hex digest, json.loads, float(str) *)
  webhook_secret : string;
  hmac_hex : string → string → string;
  json_loads : string → option json;
  float_of_str : string → option float }.

(** [str(j) == str(uid)] *)
Definition names_user (j : json) (uid : Z) : bool :=
  match j with
  | JStr s => String.eqb s (pretty uid)
  | JInt n => n =? uid
  | _ => false
  end.

Section Payments.
Context `{cfg : Config} `{rz : Razorpay}.
Implicit Types (d : db) (uid : Z) (event : json).

(** [float(j)] *)
Definition py_float (j : json) : M float :=
  match j with
  | JInt n => match float_of_int n with Ok x => mret x | Raise e => raise e end
  | JFloat x => mret x
  | JBool b => mret (fint (if b then 1 else 0))
  | JStr s => match float_of_str s with Some x => mret x | None => raise ValueError end
  | _ => raise TypeError
  end.

(** ** services/payments.py *)

Definition calculate_coins (amount_inr : float) : float := fround 2 (fmul amount_inr COINS_PER_RUPEE).

Definition create_order (amount_inr : float) uid : option (string * Z) :=
  if client_configured then
    let paise := rne_red (fmul amount_inr (fint 100)) FU in
    order ← order_create paise uid; Some (order, paise)
  else None.

Definition verify_payment_signature (order_id payment_id signature : string) : bool :=
  client_configured && signature_ok order_id payment_id signature.

(** [float(payment.get("amount", 0)) / 100.0] *)
Definition rupees_of (entity : json) : M float :=
  amount ← jget entity "amount" (JInt 0);
  x ← py_float amount;
  mret (fdiv x (fint 100)).

(** Status, rupees and notes of the payment, as Razorpay reports them. *)
Definition fetch_captured_payment (payment_id expected_order_id : string)
    : M (option (json * float * json)) :=
  if negb client_configured then mret None
  else match payment_fetch payment_id with
  | None => mret None
  | Some payment =>
      order ← jget payment "order_id" JNull;
      if negb (jstr_eqb order expected_order_id) then mret None
      else
        status ← jget payment "status" (JStr "");
        amount_inr ← rupees_of payment;
        notes ← jget payment "notes" JNull;
        mret (Some (status, amount_inr, or_empty notes))
  end.

Definition verify_webhook_signature (body signature : string) : bool :=
  if String.eqb webhook_secret "" then false
  else String.eqb (hmac_hex webhook_secret body) signature.

(** [event.get("payload", {}).get(kind, {}).get("entity", {})] *)
Definition entity_of event (kind : string) : M json :=
  payload ← jget event "payload" (JObj []);
  part ← jget payload kind (JObj []);
  jget part "entity" (JObj []).

Record webhook_payment := mkpayment { wp_id : json; wp_user : Z; wp_coins : float }.

Definition extract_payment_from_webhook event : M (option webhook_payment) :=
  name ← jget event "event" JNull;
  if negb (jstr_eqb name "payment.captured") then mret None
  else
    entity ← entity_of event "payment";
    if negb (truthy entity) then mret None
    else
      payment_id ← jget entity "id" JNull;
      if negb (truthy payment_id) then mret None
      else
        notes ← jget entity "notes" JNull;
        user_id_raw ← jget (or_empty notes) "user_id" JNull;
        match py_int user_id_raw with
        | None => mret None
        | Some user_id =>
            amount_inr ← rupees_of entity;
            mret (Some (mkpayment payment_id user_id (calculate_coins amount_inr)))
        end.

Definition is_refund_event (name : json) : bool :=
  jstr_eqb name "refund.processed" || jstr_eqb name "refund.created" ||
  jstr_eqb name "payment.refunded".

Record webhook_refund := mkrefund { wr_id : json; wr_payment : json; wr_coins : float }.

Definition extract_refund_from_webhook event : M (option webhook_refund) :=
  name ← jget event "event" JNull;
  if negb (is_refund_event name) then mret None
  else
    entity ← entity_of event "refund";
    if negb (truthy entity) then mret None
    else
      refund_id ← jget entity "id" JNull;
      payment_id ← jget entity "payment_id" JNull;
      if negb (truthy refund_id) || negb (truthy payment_id) then mret None
      else
        amount_inr ← rupees_of entity;
        mret (Some (mkrefund refund_id payment_id (calculate_coins amount_inr))).

(** ** routers/payments.py *)

Definition has_razorpay_id (id : string) (_ : Z) (l : LedgerTransaction.t) : bool :=
  bool_decide (LedgerTransaction.razorpay_payment_id l = Some id).

Definition already_credited (id : string) : M bool :=
  query (λ d, exists_row (has_razorpay_id id) (ledger d)).

(** The commit flushes the ledger row: the UNIQUE column may refuse it. *)
Definition commit_ledger (l : LedgerTransaction.t) : M bool :=
  catch (add_ledger l;; commit;; mret true)
    (λ e, match e with IntegrityError => rollback;; mret false | e => raise e end).

Definition credit_topup uid (coins : float) (payment_id : string) : M (option money) :=
  let credit := to_money (PFloat coins) in
  new_balance ← credit_wallet uid credit;
  match new_balance with
  | None => mret None
  | Some b =>
      done ← commit_ledger (LedgerTransaction.mk uid None credit TOPUP (Some payment_id) b);
      if done : bool then emit (Notify uid "topup_credited" "info" None None);; mret (Some b)
      else mret None
  end.

(** [scalars().first()] of the rows with this id. *)
Definition topup_user_for_payment (payment_id : string) : M (option Z) :=
  query (λ d, LedgerTransaction.user_id ∘ snd <$> head (select (has_razorpay_id payment_id) (ledger d))).

Definition debit_refund uid (coins : float) (refund_id : string) : M (option money) :=
  let debit := to_money (PFloat coins) in
  '(actual_debit, new_balance) ← debit_wallet_clamped uid debit;
  done ← commit_ledger (LedgerTransaction.mk uid None (- actual_debit) REFUND (Some refund_id) new_balance);
  if done : bool then emit (Notify uid "topup_refunded" "info" None None);; mret (Some new_balance)
  else mret None.

Definition create_payment_order uid (amount_inr : float) : M (string * Z) :=
  refuse (amount_inr <? fint 10) 400 "Minimum top-up amount is 10.";;
  refuse (fint 10000 <? amount_inr) 400 "Maximum top-up amount is 10,000.";;
  or_raise (create_order amount_inr uid) 503 "Payment service is not configured.".

(** The balance, for an answer that credits nothing. *)
Definition current_balance uid : M money :=
  b ← query (λ d, User.coin_balance <$> users d !! uid); scalar_one b.

(** The coins credited and the balance. *)
Definition verify_payment uid (order_id payment_id signature : string) : M (float * money) :=
  refuse (negb (verify_payment_signature order_id payment_id signature)) 400 "Invalid signature.";;
  payment ← fetch_captured_payment payment_id order_id;
  '(status, amount_inr, notes) ← or_raise payment 502 "Could not confirm the payment.";
  refuse (negb (jstr_eqb status "captured")) 409 "Payment not captured yet.";;
  notes_user_id ← jget notes "user_id" JNull;
  refuse (match notes_user_id with JNull => true | _ => false end) 400 "missing its user attribution";;
  refuse (negb (names_user notes_user_id uid)) 403 "belongs to a different account";;
  already ← already_credited payment_id;
  if already : bool then b ← current_balance uid; mret (0, b)
  else
    let coins := calculate_coins amount_inr in
    credited ← credit_topup uid coins payment_id;
    match credited with
    | None => b ← current_balance uid; mret (0, b)
    | Some b => mret (coins, b)
    end.

(** The webhook's acknowledgements. *)
Inductive ack :=
  | Ignored | AlreadyCredited | AlreadyRefunded | PaymentNotFound | UserNotFound
  | Credited (coins : float) (b : money) | Refunded (coins : float) (b : money).

Definition handle_refund_webhook (refund : webhook_refund) : M ack :=
  refund_id ← as_str (wr_id refund);
  already ← already_credited refund_id;
  if already : bool then mret AlreadyRefunded
  else
    payment_id ← as_str (wr_payment refund);
    uid ← topup_user_for_payment payment_id;
    match uid with
    | None => mret PaymentNotFound
    | Some uid =>
        b ← debit_refund uid (wr_coins refund) refund_id;
        match b with
        | Some b => mret (Refunded (wr_coins refund) b)
        | None => again ← already_credited refund_id;
                  if again : bool then mret AlreadyRefunded else mret UserNotFound
        end
    end.

Definition handle_payment_webhook (p : webhook_payment) : M ack :=
  payment_id ← as_str (wp_id p);
  already ← already_credited payment_id;
  if already : bool then mret AlreadyCredited
  else
    b ← credit_topup (wp_user p) (wp_coins p) payment_id;
    match b with
    | Some b => mret (Credited (wp_coins p) b)
    | None => again ← already_credited payment_id;
              if again : bool then mret AlreadyCredited else mret UserNotFound
    end.

Definition razorpay_webhook (body signature : string) : M ack :=
  refuse (negb (verify_webhook_signature body signature)) 400 "Invalid webhook signature.";;
  event ← or_raise (json_loads body) 400 "Invalid JSON payload.";
  _ ← jget event "event" (JStr "");
  refund ← extract_refund_from_webhook event;
  match refund with
  | Some refund => handle_refund_webhook refund
  | None =>
      payment ← extract_payment_from_webhook event;
      match payment with
      | None => mret Ignored
      | Some p => handle_payment_webhook p
      end
  end.

(** ** The amount credited *)

Lemma to_money_hundredths n : 0 <= n <= MAX_MONEY → to_money (PFloat (flit n 100)) = n.
Proof.
  intros Hn. unfold to_money. set (k := Z.max 2 (- dexp (repr_float (flit n 100)))).
  rewrite (to_money_dec_scaled k) by lia.
  rewrite (repr_hundredths n) by (unfold MAX_MONEY in *; lia).
  apply clamp_ok. unfold money_ok. lia.
Qed.

(** The rupees of an amount in paise. *)
Lemma rupees_exact n : 0 <= n <= MAX_MONEY → fdiv (fint n) (fint 100) = flit n 100.
Proof.
  intros Hn. unfold fdiv. rewrite !fint_exact by (unfold MAX_MONEY in *; lia).
  pose proof FU_pos. unfold flit. apply frnd_eq; [lia | lia | ring].
Qed.

Lemma fmul_1_r x : is_float x → fmul x (fint 1) = x.
Proof.
  intros Hx. unfold fmul. rewrite fint_exact by lia. pose proof FU_pos.
  rewrite (frnd_eq _ FU x 1) by lia. by apply frnd_float.
Qed.

(** At the default one coin per rupee a captured payment of [n] paise credits
    exactly [n] hundredths of a coin: the trip from paise through binary64
    rupees, the conversion rate, [round(..., 2)], the decimal text and back to a
    2-dp amount loses nothing, over the whole range of the money columns. *)
Theorem paise_roundtrip n :
  COINS_PER_RUPEE = fint 1 → 0 <= n <= MAX_MONEY →
  to_money (PFloat (calculate_coins (fdiv (fint n) (fint 100)))) = n.
Proof.
  intros Hc Hn. unfold calculate_coins. rewrite Hc, rupees_exact by done.
  rewrite fmul_1_r by (apply flit_is_float; lia).
  rewrite fround_hundredths by (unfold MAX_MONEY in *; lia). by apply to_money_hundredths.
Qed.

(** ** Once per external id *)

(** The UNIQUE column. *)
Definition ledger_unique d : Prop := ∀ i j l l' id,
  ledger d !! i = Some l → ledger d !! j = Some l' →
  LedgerTransaction.razorpay_payment_id l = Some id →
  LedgerTransaction.razorpay_payment_id l' = Some id → i = j.

Definition has_id d (id : string) : bool := exists_row (has_razorpay_id id) (ledger d).

Definition ext_row uid amount ty id b : LedgerTransaction.t :=
  LedgerTransaction.mk uid None amount ty (Some id) b.

Definition ledger_moved d uid b l : db :=
  d <| users ::= alter (λ u, u <| User.coin_balance := b |>) uid |>
    <| ledger ::= <[next_id d := l]> |> <| next_id ::= Z.succ |>.

Lemma wp_commit_ledger l id Q w :
  LedgerTransaction.razorpay_payment_id l = Some id →
  (has_id (cur w) id = true → Q (Ok false) (w <| cur := com w |>)) →
  (∀ w', has_id (cur w) id = false →
     cur w' = (cur w) <| ledger ::= <[next_id (cur w) := l]> |> <| next_id ::= Z.succ |> →
     com w' = cur w' → Q (Ok true) w') →
  wp (commit_ledger l) Q w.
Proof.
  intros Hl HF HT. unfold commit_ledger, add_ledger. rewrite Hl. wp_run.
  - by apply HF.
  - by apply HT.
Qed.

Lemma has_id_inserted d uid b l id :
  LedgerTransaction.razorpay_payment_id l = Some id → has_id (ledger_moved d uid b l) id = true.
Proof.
  intros Hl. apply exists_row_true. exists (next_id d), l. unfold ledger_moved. simpl.
  rewrite lookup_insert_eq. split; [done|]. unfold has_razorpay_id. by apply bool_decide_eq_true_2.
Qed.

Lemma unique_inserted d uid b l id :
  ledger_unique d → LedgerTransaction.razorpay_payment_id l = Some id → has_id d id = false →
  ledger_unique (ledger_moved d uid b l).
Proof.
  intros Hu Hl Hno.
  assert (Hold : ∀ i x id', ledger d !! i = Some x → LedgerTransaction.razorpay_payment_id x = Some id' →
            LedgerTransaction.razorpay_payment_id l = Some id' → False).
  { intros i x id' Hi Hx Hl'. apply (proj1 (exists_row_false _ _)) with (i := i) (x := x) in Hno; [|done].
    unfold has_razorpay_id in Hno. apply bool_decide_eq_false_1 in Hno. congruence. }
  intros i j x y id'. unfold ledger_moved. simpl.
  intros [[<- <-]|[_ Hx]]%lookup_insert_Some [[<- <-]|[_ Hy]]%lookup_insert_Some Hxi Hyi; try done.
  - by destruct (Hold j y id' Hy Hyi Hxi).
  - by destruct (Hold i x id' Hx Hxi Hyi).
  - by eapply Hu.
Qed.

Lemma wp_credit_topup uid coins id Q w :
  com w = cur w → db_ok (cur w) → 0 <= coins → is_float coins →
  (∀ e w', com w' = com w → Q (Raise e) w') →
  (∀ w', com w' = com w → Q (Ok None) w') →
  (∀ u w', let credit := to_money (PFloat coins) in let b := User.coin_balance u + credit in
     users (cur w) !! uid = Some u → has_id (cur w) id = false → b <= MAX_MONEY →
     com w' = ledger_moved (cur w) uid b (ext_row uid credit TOPUP id b) → Q (Ok (Some b)) w') →
  wp (credit_topup uid coins id) Q w.
Proof.
  intros Hcc Hok Hc0 Hcf HR HN HS. unfold credit_topup. wp_step.
  apply wp_credit; [intros _; wp_step; by apply HN|]. intros u Hu. split; intros Hb; [|by apply HR].
  wp_step. eapply (wp_commit_ledger _ id); [done | |].
  - intros _. wp_run. by apply HN.
  - intros w' Hno Hcur Hcom. wp_run. eapply (HS u); [done | done | lia|].
    simpl. rewrite Hcom, Hcur. done.
Qed.

Lemma topup_credit_nonneg coins : is_float coins → 0 <= coins → 0 <= to_money (PFloat coins).
Proof. apply to_money_float_nonneg. Qed.

Lemma credited_db_ok d uid u coins id :
  db_ok d → users d !! uid = Some u → is_float coins → 0 <= coins →
  let credit := to_money (PFloat coins) in
  let b := User.coin_balance u + credit in
  b <= MAX_MONEY → db_ok (ledger_moved d uid b (ext_row uid credit TOPUP id b)).
Proof.
  intros Hok Hu Hf H0 credit b Hb. pose proof (topup_credit_nonneg coins Hf H0).
  apply (credit_db_ok d _ uid u b (ext_row uid credit TOPUP id b)); try done;
    [| unfold ext_row, b; simpl; lia | unfold b, credit in *; lia].
  split; [done|]. exists (next_id d). unfold ledger_moved. simpl. split; [lia | done].
Qed.

(** The effect of a moved wallet. *)
Lemma moved_effects d uid u b l :
  ledger_ok d → users d !! uid = Some u → LedgerTransaction.user_id l = uid →
  let d' := ledger_moved d uid b l in
  balance d' uid = b ∧ booked d' uid = booked d uid + LedgerTransaction.amount l ∧
  (∀ v, v ≠ uid → balance d' v = balance d v).
Proof.
  intros Hok Hu Hl d'. split_and!.
  - unfold balance, d', ledger_moved. simpl. by rewrite lookup_alter_eq, Hu.
  - rewrite (booked_insert d d' uid (next_id d) _ (ledger_ids _ Hok (next_id d) ltac:(lia)) eq_refl).
    unfold ledger_of. rewrite Hl, Z.eqb_refl. apply Z.add_comm.
  - intros v Hv. unfold balance, d', ledger_moved. simpl. by rewrite lookup_alter_ne.
Qed.

(** C35: a payment is credited once: crediting a payment succeeds only when no
    ledger row carries its id, and then adds exactly the amount to that one
    wallet and to its ledger under that id; every other outcome (unknown user,
    an id already there, a column overflow) leaves the database as it was.  The
    wallets keep reconciling and ids stay unique. *)
Theorem topup_credited_once uid coins id w :
  com w = cur w → db_ok (cur w) → ledger_unique (cur w) → is_float coins → 0 <= coins →
  let '(out, w') := run_request (credit_topup uid coins id) w in
  db_ok (com w') ∧ ledger_unique (com w') ∧
  match out with
  | Ok (Some b) =>
      let credit := to_money (PFloat coins) in
      has_id (cur w) id = false ∧ has_id (com w') id = true ∧
      b = balance (cur w) uid + credit ∧ balance (com w') uid = b ∧
      booked (com w') uid = booked (cur w) uid + credit ∧
      (∀ v, v ≠ uid → balance (com w') v = balance (cur w) v)
  | _ => com w' = com w
  end.
Proof.
  intros Hcc Hok Hun Hf H0. apply run_request_wp. apply wp_credit_topup; [done..| | |].
  - intros e w' Hc. simpl. rewrite Hc, Hcc. by split_and!.
  - intros w' Hc. simpl. rewrite Hc, Hcc. by split_and!.
  - intros u w' credit b Hu Hno Hb Hc. change (com (w' <| cur := com w' |>)) with (com w'). rewrite Hc.
    split; [by apply credited_db_ok|]. split; [by eapply unique_inserted|].
    destruct (moved_effects (cur w) uid u b (ext_row uid credit TOPUP id b)) as (? & ? & ?);
      [apply (ok_wallet _ Hok) | done | done |].
    split; [done|]. split; [by apply has_id_inserted|].
    split; [unfold balance; rewrite Hu; done|]. by split_and!.
Qed.

(** ** Refunds *)

Lemma wp_debit_refund uid coins id Q w :
  com w = cur w → ledger_ok (cur w) → is_float coins → 0 <= coins →
  (∀ e, users (cur w) !! uid = None → Q (Raise e) w) →
  (∀ w', com w' = com w → Q (Ok None) w') →
  (∀ u w', let actual := Z.min (to_money (PFloat coins)) (User.coin_balance u) in
     let b := User.coin_balance u - actual in
     users (cur w) !! uid = Some u → has_id (cur w) id = false →
     com w' = ledger_moved (cur w) uid b (ext_row uid (- actual) REFUND id b) → Q (Ok (Some b)) w') →
  wp (debit_refund uid coins id) Q w.
Proof.
  intros Hcc Hok Hf H0 HR HN HS. unfold debit_refund. wp_step.
  destruct (users (cur w) !! uid) as [u|] eqn:Hu.
  - apply (wp_debit _ _ u); [done | by apply (ledger_range _ Hok uid) | by apply topup_credit_nonneg |].
    cbv zeta. wp_step. eapply (wp_commit_ledger _ id); [done | |].
    + intros _. wp_run. by apply HN.
    + intros w' Hno Hcur Hcom. wp_run. eapply (HS u); [done | done |]. simpl. by rewrite Hcom, Hcur.
  - unfold debit_wallet_clamped. do 2 wp_step. rewrite Hu. simpl. by apply wp_raise, HR.
Qed.

(** Taking [a] coins out of a wallet that has them. *)
Lemma refund_ledger_ok d uid u a id :
  ledger_ok d → users d !! uid = Some u → 0 <= a <= User.coin_balance u →
  let b := User.coin_balance u - a in
  ledger_ok (ledger_moved d uid b (ext_row uid (- a) REFUND id b)).
Proof.
  intros Hok Hu Ha b. pose proof (ledger_range d Hok uid u Hu).
  eapply (moved_ledger_ok d _ uid u b (ext_row uid (- a) REFUND id b)); try done;
    [| unfold ext_row, b; simpl; lia | unfold b; lia].
  split; [done|]. exists (next_id d). unfold ledger_moved. simpl. split; [lia | done].
Qed.

Lemma refund_db_ok d uid u amount id :
  db_ok d → users d !! uid = Some u → 0 <= amount <= User.coin_balance u - held d uid →
  let b := User.coin_balance u - amount in
  db_ok (ledger_moved d uid b (ext_row uid (- amount) REFUND id b)).
Proof.
  intros Hok Hu Ha b. pose proof (ok_wallet d Hok) as Hw.
  assert (0 <= held d uid) by (apply msum_nonneg; intros; by eapply hold_of_nonneg).
  destruct Hok as [_ Hact Hids Hfree Hone]. split; try done; [split|..].
  - apply (refund_ledger_ok d uid u amount id); [apply Hw | done | lia].
  - intros v x. unfold ledger_moved, held. simpl. destruct (decide (uid = v)) as [<-|Hv].
    + rewrite lookup_alter_eq, Hu. intros [= <-]. simpl. unfold held in *. unfold b. lia.
    + rewrite lookup_alter_ne by done. apply (wallet_held d Hw).
  - intros sid s Hs Hsa. destruct (wallet_holds d Hw sid s Hs Hsa). split; [done|].
    unfold ledger_moved. simpl. by apply lookup_alter_is_Some.
  - intros i Hi. apply Hids. unfold ledger_moved in Hi. simpl in Hi. lia.
Qed.

(** A refund takes back what it can, once: a successful claw-back carries an
    id no ledger row had, takes the smaller of the refunded coins and the wallet
    from that one wallet, never driving it negative, and books exactly what it
    took; the wallets keep reconciling, and when the coins are not held by a
    running session every hold stays covered.  Any other outcome changes
    nothing. *)
Theorem refund_claws_once uid coins id w :
  com w = cur w → db_ok (cur w) → ledger_unique (cur w) → is_float coins → 0 <= coins →
  let '(out, w') := run_request (debit_refund uid coins id) w in
  ledger_ok (com w') ∧ ledger_unique (com w') ∧
  match out with
  | Ok (Some b) =>
      let actual := Z.min (to_money (PFloat coins)) (balance (cur w) uid) in
      has_id (cur w) id = false ∧ has_id (com w') id = true ∧
      b = balance (cur w) uid - actual ∧ 0 <= b ∧ balance (com w') uid = b ∧
      booked (com w') uid = booked (cur w) uid - actual ∧
      (∀ v, v ≠ uid → balance (com w') v = balance (cur w) v) ∧
      (to_money (PFloat coins) <= balance (cur w) uid - held (cur w) uid → db_ok (com w'))
  | _ => com w' = com w
  end.
Proof.
  intros Hcc Hok Hun Hf H0. pose proof (wallet_ledger _ (ok_wallet _ Hok)) as Hl.
  pose proof (topup_credit_nonneg coins Hf H0) as Hm.
  apply run_request_wp. apply wp_debit_refund; [done..| | |].
  - intros e _. simpl. rewrite Hcc. by split_and!.
  - intros w' Hc. simpl. rewrite Hc, Hcc. by split_and!.
  - intros u w' actual b Hu Hno Hc. change (com (w' <| cur := com w' |>)) with (com w'). rewrite Hc.
    pose proof (ledger_range _ Hl uid u Hu) as Hr.
    destruct (moved_effects (cur w) uid u b (ext_row uid (- actual) REFUND id b)) as (? & Hbk & ?);
      [done..|].
    assert (Hbal : balance (cur w) uid = User.coin_balance u) by (unfold balance; by rewrite Hu).
    rewrite Hbal in *. split; [apply refund_ledger_ok; [done..|unfold actual; lia]|]. split; [by eapply unique_inserted|].
    split; [done|]. split; [by apply has_id_inserted|]. split; [done|].
    split; [unfold b, actual; lia|]. split; [done|].
    split; [rewrite Hbk; exact eq_refl|]. split; [done|].
    intros Hcov. assert (0 <= held (cur w) uid)
      by (apply msum_nonneg; intros; eapply hold_of_nonneg; [apply (ok_wallet _ Hok) | done]).
    unfold b. assert (actual = to_money (PFloat coins)) as -> by (unfold actual; lia).
    apply refund_db_ok; [done | done | lia].
Qed.

(** ** Redelivery *)

Definition pure {A} (m : M A) : Prop := ∃ r, ∀ w, m w = (r, w).

Lemma pure_ret {A} (a : A) : pure (mret a).
Proof. by eexists. Qed.
Lemma pure_raise {A} e : pure (@raise A e).
Proof. by eexists. Qed.
Lemma pure_bind {A B} (m : M A) (k : A → M B) : pure m → (∀ a, pure (k a)) → pure (m ≫= k).
Proof.
  intros [[a|e] Hm] Hk; [destruct (Hk a) as [r Hr]; exists r | exists (Raise e)];
    intros w; unfold mbind, M_bind; by rewrite Hm.
Qed.

Ltac pure_step :=
  lazymatch goal with
  | |- pure (mbind _ _) => apply pure_bind; [|intros ?]
  | |- pure (mret _) => apply pure_ret
  | |- pure (raise _) => apply pure_raise
  | |- pure (match ?x with _ => _ end) => destruct x
  end.

Lemma pure_jget j k dflt : pure (jget j k dflt).
Proof. unfold jget. repeat pure_step. Qed.
Lemma pure_py_float j : pure (py_float j).
Proof. unfold py_float. repeat pure_step. Qed.
Lemma pure_rupees_of j : pure (rupees_of j).
Proof. unfold rupees_of. repeat first [pure_step | apply pure_jget | apply pure_py_float]. Qed.
Lemma pure_entity_of j k : pure (entity_of j k).
Proof. unfold entity_of. repeat first [pure_step | apply pure_jget]. Qed.
Lemma pure_extract_payment event : pure (extract_payment_from_webhook event).
Proof.
  unfold extract_payment_from_webhook.
  repeat first [pure_step | apply pure_jget | apply pure_rupees_of | apply pure_entity_of].
Qed.
Lemma pure_extract_refund event : pure (extract_refund_from_webhook event).
Proof.
  unfold extract_refund_from_webhook.
  repeat first [pure_step | apply pure_jget | apply pure_rupees_of | apply pure_entity_of].
Qed.

(** What a delivery amounts to, which the delivered bytes alone decide. *)
Definition delivers (m : M ack) : Prop :=
  pure m ∨ (∃ refund, ∀ w, m w = handle_refund_webhook refund w) ∨
  (∃ p, ∀ w, m w = handle_payment_webhook p w).

Lemma delivers_bind {A} (m : M A) k : pure m → (∀ a, delivers (k a)) → delivers (m ≫= k).
Proof.
  intros [[a|e] Hm] Hk.
  - assert (Heq : ∀ w, (m ≫= k) w = k a w) by (intros w; unfold mbind, M_bind; by rewrite Hm).
    destruct (Hk a) as [[r Hr]|[[x Hx]|[x Hx]]].
    + left. exists r. intros w. by rewrite Heq.
    + right; left. exists x. intros w. by rewrite Heq.
    + do 2 right. exists x. intros w. by rewrite Heq.
  - left. exists (Raise e). intros w. unfold mbind, M_bind. by rewrite Hm.
Qed.

Lemma webhook_delivers body signature : delivers (razorpay_webhook body signature).
Proof.
  unfold razorpay_webhook. apply delivers_bind; [unfold refuse; by pure_step; pure_step|]. intros [].
  apply delivers_bind; [unfold or_raise; by repeat pure_step|]. intros event.
  apply delivers_bind; [apply pure_jget|]. intros _.
  apply delivers_bind; [apply pure_extract_refund|]. intros [refund|]; [by right; left; eexists|].
  apply delivers_bind; [apply pure_extract_payment|]. intros [p|]; [by do 2 right; eexists|].
  left. apply pure_ret.
Qed.

Lemma keeps_write_balance uid b : keeps com (write_balance uid b).
Proof. intros w. unfold write_balance. by destruct (_ && _). Qed.

Lemma keeps_credit_wallet uid b : keeps com (credit_wallet uid b).
Proof.
  apply keeps_preserves. intros v. unfold credit_wallet. preserve.
  apply (preserves_keeps com (λ c, c = v)), keeps_write_balance.
Qed.

Lemma keeps_debit_wallet uid b : keeps com (debit_wallet_clamped uid b).
Proof.
  apply keeps_preserves. intros v. unfold debit_wallet_clamped. preserve.
  apply (preserves_keeps com (λ c, c = v)), keeps_write_balance.
Qed.

Lemma commit_ledger_marks l id Q w :
  LedgerTransaction.razorpay_payment_id l = Some id →
  (∀ w', com w' = com w → Q (Ok false) w') → (∀ w', has_id (com w') id = true → Q (Ok true) w') →
  wp (commit_ledger l) Q w.
Proof.
  intros Hl HF HT. apply (wp_commit_ledger l id); [done | by intros _; apply HF|].
  intros w' _ Hcur Hcom. apply HT. rewrite Hcom, Hcur. apply exists_row_true.
  exists (next_id (cur w)), l. simpl. rewrite lookup_insert_eq. split; [done|].
  unfold has_razorpay_id. by apply bool_decide_eq_true_2.
Qed.

(** A handler that commits anything leaves its external id in the ledger. *)
Lemma credit_topup_marks uid coins id Q w :
  (∀ r w', com w' = com w ∨ has_id (com w') id = true → Q r w') → wp (credit_topup uid coins id) Q w.
Proof.
  intros HQ. unfold credit_topup. wp_step.
  eapply wp_mono; [|apply (wp_keeps com), keeps_credit_wallet]. intros [[b|]|e] w1 Hw1; cbv beta iota.
  - wp_step. apply (commit_ledger_marks _ id); [done | |]; intros w2 Hw2; wp_run; apply HQ;
      [left; congruence | by right].
  - wp_step. apply HQ. by left.
  - apply HQ. by left.
Qed.

Lemma debit_refund_marks uid coins id Q w :
  (∀ r w', com w' = com w ∨ has_id (com w') id = true → Q r w') → wp (debit_refund uid coins id) Q w.
Proof.
  intros HQ. unfold debit_refund. wp_step.
  eapply wp_mono; [|apply (wp_keeps com), keeps_debit_wallet]. intros [[a b]|e] w1 Hw1; cbv beta iota.
  - wp_step. apply (commit_ledger_marks _ id); [done | |]; intros w2 Hw2; wp_run; apply HQ;
      [left; congruence | by right].
  - apply HQ. by left.
Qed.

(** A handler that commits something leaves nothing to do for a later run, as
    long as the ledger's rows stay. *)
Definition once (m : M ack) : Prop := ∀ w,
  com (m w).2 = com w ∨
  ∀ w', ledger (com (m w).2) ⊆ ledger (cur w') → com (m w').2 = com w'.

Lemma has_id_mono d d' id : ledger d ⊆ ledger d' → has_id d id = true → has_id d' id = true.
Proof.
  intros Hs (i & l & Hl & Hp)%exists_row_true. apply exists_row_true. exists i, l.
  split; [by eapply lookup_weaken | done].
Qed.

(** The lookup of the id, and the rest of the handler. *)
Lemma guarded_once id (a : ack) (m : M ack) :
  (∀ w, wp m (λ _ w', com w' = com w ∨ has_id (com w') id = true) w) →
  once (already ← already_credited id; if already : bool then mret a else m).
Proof.
  intros Hm w. unfold already_credited, mbind, M_bind, query.
  change (exists_row (has_razorpay_id id) (ledger ?c)) with (has_id c id).
  destruct (has_id (cur w) id) eqn:E; [by left|].
  destruct (Hm w) as [H|H]; [by left | right]. intros w' Hs.
  change (exists_row (has_razorpay_id id) (ledger ?c)) with (has_id c id).
  by rewrite (has_id_mono _ _ id Hs H).
Qed.

Lemma payment_once p : once (handle_payment_webhook p).
Proof.
  unfold handle_payment_webhook. destruct (wp_id p) as [| | | |id| |]; try by left.
  apply (guarded_once id). intros w. unfold already_credited.
  wp_run ltac:(apply credit_topup_marks; intros [[]|] w1 Hw1); first [done | by left].
Qed.

Lemma refund_once refund : once (handle_refund_webhook refund).
Proof.
  unfold handle_refund_webhook. destruct (wr_id refund) as [| | | |id| |]; try by left.
  apply (guarded_once id). intros w. unfold as_str, already_credited, topup_user_for_payment.
  wp_run ltac:(apply debit_refund_marks; intros [[]|] w1 Hw1); first [done | by left].
Qed.

(** A webhook delivery takes effect at most once: when handling a delivery
    committed anything, handling the same bytes again later commits nothing,
    whatever happened in between, as long as no ledger row was removed. *)
Theorem webhook_idempotent body signature w w2 :
  ledger (com (run_request (razorpay_webhook body signature) w).2) ⊆ ledger (cur w2) →
  com (run_request (razorpay_webhook body signature) w).2 = com w ∨
  com (run_request (razorpay_webhook body signature) w2).2 = com w2.
Proof.
  assert (H : once (razorpay_webhook body signature)).
  { destruct (webhook_delivers body signature) as [[r Hr]|[[x Hx]|[x Hx]]].
    - intros v. left. by rewrite Hr.
    - intros v. rewrite Hx. destruct (refund_once x v) as [|Hs]; [by left | right].
      intros v'. rewrite Hx. apply Hs.
    - intros v. rewrite Hx. destruct (payment_once x v) as [|Hs]; [by left | right].
      intros v'. rewrite Hx. apply Hs. }
  assert (Hrun : ∀ v, com (run_request (razorpay_webhook body signature) v).2 =
            com (razorpay_webhook body signature v).2)
    by (intros v; unfold run_request; by destruct (razorpay_webhook body signature v)).
  rewrite !Hrun. intros Hs. destruct (H w) as [|Ho]; [by left | right; by apply Ho].
Qed.
End Payments.
