(* ===== verification/PyFormat.v ===== *)
(** * Python's formats of numbers and dates, and its text as bytes

    Zero padding, a fixed number of places, the day of an instant; and that a
    figure so written reads back as itself.  UTF-8 and its round trip. *)

From stdpp Require Import pretty.
From Stdlib Require Import Ascii.
From S2P Require Import Prelude Rounding PyNum Money Models Slots Config PyString Billing.
From S2P Require Import TelemetryStore World Hoare Wallet Pricing Invoices PushGuard.

#[local] Open Scope string_scope.

Fixpoint zeros (k : nat) : string := match k with O => "" | S k => String "0" (zeros k) end.
(** [f"{n:0kd}"] of a non-negative number. *)
Definition zpad (k : nat) (n : Z) : string := let s := pretty n in zeros (k - String.length s) +:+ s.

(** [f"{d:.kf}"] of a decimal with at most [k] places, in units of [10^-k]. *)
Definition fixed (k : nat) (n : Z) : string :=
  let m := Z.abs n in
  (if Z.ltb n 0 then "-" else "") +:+ pretty (m / 10 ^ Z.of_nat k)%Z +:+ "." +:+ zpad k (m mod 10 ^ Z.of_nat k).

(** The same of a float: its exact value, rounded half to even. *)
Definition float_fixed (k : nat) (x : float) : string :=
  (if Z.ltb x 0 then "-" else "") +:+ fixed k (rne_red (Z.abs x * 10 ^ Z.of_nat k) FU).

(** The day of the month, beside [civil]. *)
Definition civil_day (at_ : datetime) : Z :=
  let z := (at_ / days 1 + 719468)%Z in
  let doe := (z mod 146097)%Z in
  let yoe := ((doe - doe / 1460 + doe / 36524 - doe / 146096) / 365)%Z in
  let doy := (doe - (365 * yoe + yoe / 4 - yoe / 100))%Z in
  let mp := ((5 * doy + 2) / 153)%Z in
  (doy - (153 * mp + 2) / 5 + 1)%Z.

Definition month_name (m : Z) : string :=
  String.substring (Z.to_nat (3 * (m - 1))%Z) 3 "JanFebMarAprMayJunJulAugSepOctNovDec".

(** [strftime("%d %b %Y, %H:%M UTC")] *)
Definition issued_on (at_ : datetime) : string :=
  let '(year, month) := civil at_ in
  let minute := ((at_ / (60 * 10 ^ 6)) mod 1440)%Z in
  zpad 2 (civil_day at_) +:+ " " +:+ month_name month +:+ " " +:+ pretty year +:+ ", " +:+
  zpad 2 (minute / 60)%Z +:+ ":" +:+ zpad 2 (minute mod 60)%Z +:+ " UTC".

(** ** Reading digits back *)

Section Digits.
Implicit Types (s t : string) (n acc : Z).

(** The number that the digits of a text make, whatever else stands in it. *)
Fixpoint digits_value acc s : Z :=
  match s with
  | EmptyString => acc
  | String c s => digits_value (if is_digit c then 10 * acc + (code c - 48) else acc)%Z s
  end.

Lemma digits_value_app acc s t : digits_value acc (s +:+ t) = digits_value (digits_value acc s) t.
Proof. revert acc. induction s as [|c s IH]; intros acc; [done|]. rewrite app_cons. simpl. apply IH. Qed.

Lemma digits_value_skip acc s t : all_of (λ c, negb (is_digit c)) s = true → digits_value acc (s +:+ t) = digits_value acc t.
Proof.
  induction s as [|c s IH]; [done|]. rewrite app_cons. simpl. intros [Hc Hs]%andb_true_iff.
  apply negb_true_iff in Hc. rewrite Hc. auto.
Qed.

Lemma pretty_char_digit (x : N) : is_digit (pretty_N_char x) = true.
Proof. unfold pretty_N_char. by repeat case_match. Qed.

Lemma pretty_char_code (x : N) : (x < 10)%N → (code (pretty_N_char x) - 48 = Z.of_N x)%Z.
Proof.
  intros Hx. assert (x = 0 ∨ x = 1 ∨ x = 2 ∨ x = 3 ∨ x = 4 ∨ x = 5 ∨ x = 6 ∨ x = 7 ∨ x = 8 ∨ x = 9)%N as Hc by lia.
  by repeat (destruct Hc as [->|Hc] || subst).
Qed.

Lemma pretty_go_digits (x : N) s : all_of is_digit s = true → all_of is_digit (pretty_N_go x s) = true.
Proof.
  revert s. induction (N.lt_wf_0 x) as [x _ IH]. intros s Hs. destruct (decide (x = 0)%N) as [->|]; [done|].
  rewrite pretty_N_go_step by lia. apply IH; [apply N.div_lt; lia|]. simpl. by rewrite pretty_char_digit.
Qed.

Lemma pretty_go_value (x : N) s : digits_value 0 (pretty_N_go x s) = digits_value (Z.of_N x) s.
Proof.
  revert s. induction (N.lt_wf_0 x) as [x _ IH]. intros s. destruct (decide (x = 0)%N) as [->|]; [done|].
  rewrite pretty_N_go_step by lia. rewrite IH by (apply N.div_lt; lia). cbn [digits_value].
  rewrite pretty_char_digit, pretty_char_code by (apply N.mod_lt; lia).
  f_equal. rewrite N2Z.inj_div, N2Z.inj_mod. pose proof (Z.div_mod (Z.of_N x) 10). lia.
Qed.

Lemma pretty_go_length (x : N) s (k : nat) : (x < 10 ^ N.of_nat k)%N → (String.length (pretty_N_go x s) <= k + String.length s)%nat.
Proof.
  revert x s. induction k as [|k IH]; intros x s Hx; [replace x with 0%N by (change (10 ^ N.of_nat 0)%N with 1%N in Hx; lia); change (pretty_N_go 0 s) with s; lia|].
  destruct (decide (x = 0)%N) as [->|]; [change (pretty_N_go 0 s) with s; lia|].
  rewrite pretty_N_go_step by lia. rewrite Nat2N.inj_succ, N.pow_succ_r' in Hx.
  specialize (IH (x / 10)%N (String (pretty_N_char (x mod 10)) s)). cbn [String.length] in IH.
  assert (x / 10 < 10 ^ N.of_nat k)%N by (apply N.Div0.div_lt_upper_bound; lia). lia.
Qed.

(** [str] of a non-negative number: digits, of its value. *)
Lemma pretty_facts n : (0 <= n)%Z → all_of is_digit (pretty n) = true ∧ digits_value 0 (pretty n) = n ∧
  ∀ k : nat, (0 < k)%nat → (n < 10 ^ Z.of_nat k)%Z → (String.length (pretty n) <= k)%nat.
Proof.
  intros Hn. assert (pretty n = pretty (Z.to_N n)) as -> by (destruct n; [done..|lia]).
  unfold pretty, pretty_N. case_decide as H0.
  - replace n with 0%Z by lia. split_and!; [done..|]. intros k Hk _. simpl. lia.
  - split_and!; [by apply pretty_go_digits|rewrite pretty_go_value; simpl; lia|].
    intros k _ Hk. rewrite pretty_go_length with (k := k); simpl; [lia|].
    apply N2Z.inj_lt. rewrite N2Z.inj_pow, Z2N.id, nat_N_Z by done. done.
Qed.

Lemma zeros_digits (k : nat) : all_of is_digit (zeros k) = true.
Proof. by induction k. Qed.
Lemma zeros_length (k : nat) : String.length (zeros k) = k.
Proof. induction k as [|k IH]; [done|]. simpl. by rewrite IH. Qed.
Lemma zeros_value acc (k : nat) : digits_value acc (zeros k) = (acc * 10 ^ Z.of_nat k)%Z.
Proof.
  revert acc. induction k as [|k IH]; intros acc; [simpl; lia|].
  simpl zeros. cbn [digits_value]. change (is_digit "0") with true. cbn iota. rewrite IH.
  change (code "0" - 48)%Z with 0%Z. rewrite Nat2Z.inj_succ, Z.pow_succ_r by lia. ring.
Qed.

Lemma digits_value_split acc s : all_of is_digit s = true →
  digits_value acc s = (acc * 10 ^ Z.of_nat (String.length s) + digits_value 0 s)%Z.
Proof.
  revert acc. induction s as [|c s IH]; intros acc Hs; [simpl; lia|].
  cbn [all_of] in Hs. apply andb_true_iff in Hs as [Hc Hs]. cbn [digits_value]. rewrite Hc.
  rewrite IH by done. rewrite (IH (10 * 0 + _)%Z) by done.
  change (String.length (String c s)) with (S (String.length s)). rewrite Nat2Z.inj_succ, Z.pow_succ_r by lia. ring.
Qed.

Lemma zpad_facts (k : nat) n : (0 < k)%nat → (0 <= n < 10 ^ Z.of_nat k)%Z →
  all_of is_digit (zpad k n) = true ∧ ∀ acc, digits_value acc (zpad k n) = (acc * 10 ^ Z.of_nat k + n)%Z.
Proof.
  intros Hk Hn. destruct (pretty_facts n) as (H1 & H2 & H3); [lia|]. specialize (H3 k Hk ltac:(lia)). unfold zpad.
  split; [by rewrite all_of_app, zeros_digits, H1|]. intros acc.
  rewrite digits_value_app, zeros_value, digits_value_split, H2 by done. f_equal.
  rewrite <- Z.mul_assoc, <- Z.pow_add_r by lia. do 2 f_equal. lia.
Qed.

(** A figure with a fixed number of places reads back as itself. *)
Lemma fixed_value (k : nat) n : (0 < k)%nat → digits_value 0 (fixed k n) = Z.abs n.
Proof.
  intros Hk. pose proof (Z.pow_pos_nonneg 10 (Z.of_nat k) ltac:(lia) ltac:(lia)) as Hp. unfold fixed.
  destruct (pretty_facts (Z.abs n / 10 ^ Z.of_nat k)) as (H1 & H2 & _); [apply Z.div_pos; lia|].
  destruct (zpad_facts k (Z.abs n mod 10 ^ Z.of_nat k) Hk) as [H3 H4]; [apply Z.mod_pos_bound; lia|].
  rewrite digits_value_skip by by destruct (Z.ltb n 0).
  rewrite digits_value_app, H2, digits_value_skip, H4 by done. pose proof (Z.div_mod (Z.abs n) (10 ^ Z.of_nat k)). lia.
Qed.

Section Chars.
Context (p : ascii → bool) (p_digit : ∀ c, is_digit c = true → p c = true) (p_dash : p "-"%char = true).

Lemma pretty_chars n : all_of p (pretty n) = true.
Proof using p_digit p_dash.
  destruct (Z_le_dec 0 n) as [Hn|Hn]; [by apply (all_of_mono is_digit), pretty_facts|].
  destruct n as [|m|m]; [lia..|]. change (pretty (Z.neg m)) with ("-" +:+ pretty (Z.pos m)).
  rewrite all_of_app. simpl. rewrite p_dash. simpl. by apply (all_of_mono is_digit), (pretty_facts (Z.pos m)).
Qed.

Lemma zpad_chars (k : nat) n : all_of p (zpad k n) = true.
Proof using p_digit p_dash.
  unfold zpad. rewrite all_of_app, pretty_chars, andb_true_r. apply (all_of_mono is_digit); [done|apply zeros_digits].
Qed.

Lemma fixed_chars (k : nat) n : p "."%char = true → all_of p (fixed k n) = true.
Proof using p_digit p_dash.
  intros Hdot. unfold fixed. rewrite !all_of_app, pretty_chars, zpad_chars. simpl. rewrite Hdot.
  destruct (Z.ltb n 0); simpl; by rewrite ?p_dash.
Qed.

Lemma float_fixed_chars (k : nat) (x : float) : p "."%char = true → all_of p (float_fixed k x) = true.
Proof using p_digit p_dash.
  intros Hdot. unfold float_fixed. rewrite all_of_app, fixed_chars by done.
  destruct (Z.ltb x 0); simpl; by rewrite ?p_dash.
Qed.
End Chars.

Lemma substring_chars (p : ascii → bool) (k m : nat) s : all_of p s = true → all_of p (String.substring k m s) = true.
Proof.
  revert k m. induction s as [|c s IH]; intros k m Hs; [by destruct k, m|]. simpl in Hs. apply andb_true_iff in Hs as [Hc Hs].
  destruct k as [|k]; simpl; [|by apply IH]. destruct m; simpl; [done|]. by rewrite Hc, IH.
Qed.
End Digits.

(** ** Bytes and UTF-8

    Text is its bytes; [utf8_decode] gives the characters, of well-formed text. *)


Definition byte (n : Z) : ascii := ascii_of_N (Z.to_N n).

Section Utf8.
Local Open Scope Z_scope.
Implicit Types (c : Z) (l : list Z).

Definition tail_byte c : ascii := byte (128 + c mod 64).
Definition utf8_char c : string :=
  if c <? 128 then String (byte c) ""
  else if c <? 2048 then String (byte (192 + c / 64)) (String (tail_byte c) "")
  else if c <? 65536 then
    String (byte (224 + c / 4096)) (String (tail_byte (c / 64)) (String (tail_byte c) ""))
  else String (byte (240 + c / 262144)) (String (tail_byte (c / 4096))
         (String (tail_byte (c / 64)) (String (tail_byte c) ""))).
Definition utf8_encode l : string := foldr (λ c s, utf8_char c +:+ s) "" l.

Fixpoint utf8_decode (s : string) : list Z :=
  let low b := code b - 128 in
  match s with
  | EmptyString => []
  | String a s =>
      let n := code a in
      if n <? 128 then n :: utf8_decode s
      else if n <? 224 then
        match s with
        | String b s => ((n - 192) * 64 + low b) :: utf8_decode s
        | _ => []
        end
      else if n <? 240 then
        match s with
        | String b (String c s) => ((n - 224) * 4096 + low b * 64 + low c) :: utf8_decode s
        | _ => []
        end
      else
        match s with
        | String b (String c (String d s)) =>
            ((n - 240) * 262144 + low b * 4096 + low c * 64 + low d) :: utf8_decode s
        | _ => []
        end
  end.

Lemma code_byte n : 0 <= n < 256 → code (byte n) = n.
Proof.
  intros Hn. unfold code, byte, Ascii.nat_of_ascii. rewrite N_ascii_embedding by lia. lia.
Qed.

Lemma utf8_decode_char c s : 0 <= c < 1114112 → utf8_decode (utf8_char c +:+ s) = c :: utf8_decode s.
Proof.
  intros Hc. unfold utf8_char, tail_byte.
  pose proof (Z.div_mod c 64). pose proof (Z.div_mod (c / 64) 64). pose proof (Z.div_mod (c / 4096) 64).
  assert (c / 64 / 64 = c / 4096 ∧ c / 4096 / 64 = c / 262144) as [E1 E2] by (rewrite !Z.div_div by lia; done).
  rewrite E1, E2 in *.
  pose proof (Z.mod_pos_bound c 64). pose proof (Z.mod_pos_bound (c / 64) 64). pose proof (Z.mod_pos_bound (c / 4096) 64).
  repeat case_match; rewrite ?Z.ltb_lt, ?Z.ltb_ge in *; rewrite !app_cons; change ("" +:+ s) with s; cbn [utf8_decode];
    rewrite !code_byte by lia.
  all: repeat match goal with |- context [?a <? ?b] =>
    first [rewrite (proj2 (Z.ltb_lt a b)) by lia | rewrite (proj2 (Z.ltb_ge a b)) by lia] end.
  all: done || (f_equal; lia).
Qed.

Lemma utf8_round_trip l : Forall (λ c, 0 <= c < 1114112) l → utf8_decode (utf8_encode l) = l.
Proof. induction 1 as [|c l Hc _ IH]; [done|]. simpl. by rewrite utf8_decode_char, IH. Qed.

(** A byte below 128 stands for a character of its own. *)
Lemma utf8_char_ascii c p : 0 <= c < 1114112 → (∀ n, 128 <= n < 256 → p (byte n) = true) →
  (c < 128 → p (byte c) = true) → all_of p (utf8_char c) = true.
Proof.
  intros Hc Hp Hlow. unfold utf8_char, tail_byte.
  pose proof (Z.mod_pos_bound c 64). pose proof (Z.mod_pos_bound (c / 64) 64). pose proof (Z.mod_pos_bound (c / 4096) 64).
  assert (0 <= c / 262144 < 5 ∧ 0 <= c / 4096 < 272 ∧ 0 <= c / 64 < 17408) as (B1 & B2 & B3).
  { split_and!; try (apply Z.div_pos; lia); apply Z.div_lt_upper_bound; lia. }
  pose proof (Z.div_mod c 64). pose proof (Z.div_mod c 4096). pose proof (Z.div_mod c 262144).
  pose proof (Z.mod_pos_bound c 4096). pose proof (Z.mod_pos_bound c 262144).
  repeat case_match; rewrite ?Z.ltb_lt, ?Z.ltb_ge in *; cbn [all_of].
  { by rewrite Hlow. }
  all: by rewrite !Hp by lia.
Qed.
End Utf8.
