(* ===== verification/InvoicePage.v ===== *)
(** * services/invoices.py: an invoice as JSON and as a page to print

    A page is fixed text around what the database holds: names and numbers that
    users typed are escaped, figures are written with two or three decimals.  A
    backquote in the text of the page stands for a double quote. *)

From stdpp Require Import pretty.
From Stdlib Require Import Ascii.
From S2P Require Import Prelude Rounding PyNum Money Models Config TelemetryStore World Hoare.
From S2P Require Import PyString PushGuard Billing Invoices PyFormat.

#[local] Open Scope string_scope.

(** ** html.escape *)

Definition quote_char : ascii := ascii_of_nat 34.
Definition escape_char (c : ascii) : string :=
  if Ascii.eqb c "&" then "&amp;" else if Ascii.eqb c "<" then "&lt;" else if Ascii.eqb c ">" then "&gt;"
  else if Ascii.eqb c quote_char then "&quot;" else if Ascii.eqb c "'" then "&#x27;" else String c "".
Fixpoint escape (s : string) : string :=
  match s with EmptyString => "" | String c s => escape_char c +:+ escape s end.

(** ** invoice_to_dict *)

Record InvoiceDict := mkinvoice_dict {
  iv_id : Z; iv_invoice_number : string; iv_tenant_id : Z; iv_session_id : Z; iv_driver_user_id : Z;
  iv_issued_at : datetime; iv_legal_name : option string; iv_gstin : option string; iv_description : string;
  iv_energy_kwh : float; iv_rate_coins_per_kwh : float; iv_amount_coins : float; iv_taxable_value_inr : float;
  iv_gst_rate_pct : float; iv_gst_amount_inr : float; iv_total_inr : float }.

Definition session_line (inv : Invoice.t) : string := "EV charging session #" +:+ pretty (Invoice.session_id inv).

Definition invoice_to_dict (id : Z) (inv : Invoice.t) : InvoiceDict :=
  let coins m := TelemetryStore.float_of_money m in
  mkinvoice_dict id (Invoice.invoice_number inv) (Invoice.tenant_id inv) (Invoice.session_id inv)
    (Invoice.driver_user_id inv) (Invoice.issued_at inv) (Invoice.seller_legal_name inv) (Invoice.seller_gstin inv)
    (session_line inv) (fround 3 (Invoice.energy_kwh inv)) (coins (Invoice.rate_coins_per_kwh inv))
    (coins (Invoice.amount_coins inv)) (coins (Invoice.taxable_value_inr inv)) (coins (Invoice.gst_rate_pct inv))
    (coins (Invoice.gst_amount_inr inv)) (coins (Invoice.total_inr inv)).

(** ** render_invoice_html *)

Fixpoint quoted (s : string) : string :=
  match s with
  | EmptyString => ""
  | String c s => String (if Ascii.eqb c "`" then quote_char else c) (quoted s)
  end.

Definition page_head : string := "</title>
<style>
  body { font-family: Arial, Helvetica, sans-serif; color: #1a1a1a; max-width: 720px;
         margin: 40px auto; padding: 0 20px; }
  h1 { font-size: 20px; border-bottom: 2px solid #333; padding-bottom: 8px; }
  .meta { display: flex; justify-content: space-between; margin: 16px 0; font-size: 14px; }
  .meta .right { text-align: right; }
  table { width: 100%; border-collapse: collapse; margin-top: 16px; }
  th, td { border: 1px solid #ccc; padding: 8px; text-align: left; font-size: 13px; }
  th { background: #f2f2f2; }
  .totals { margin-top: 8px; width: auto; margin-left: auto; }
  .totals td { border: none; padding: 3px 8px; font-size: 13px; }
  .totals .label { text-align: right; color: #444; }
  .totals .grand td { font-weight: bold; border-top: 1px solid #999; padding-top: 6px; }
  .footer { margin-top: 28px; font-size: 11px; color: #666; line-height: 1.5; }
  @media print { body { margin: 0; } }
</style>
</head>
<body>
  <h1>Tax Invoice</h1>
  <div class=`meta`>
    <div>
      <strong>".

Definition page_footer : string := "</td></tr>
  </table>
  <div class=`footer`>
    1 coin = Rs. 1. Amounts above are GST-inclusive of the total already
    collected from the driver's wallet at session end -- issuing this
    invoice does not charge anything further. This invoice reflects a
    single intra-state GST rate; CGST/SGST vs. IGST is not itemized
    separately. Generated by AmpHive.
  </div>
</body>
</html>
".

(** Fixed text and what is filled in, by turns. *)
Inductive piece := Text (s : string) | Hole (s : string).
Definition piece_text (p : piece) : string := match p with Text s => quoted s | Hole s => s end.
Definition page_of (l : list piece) : string := foldr (λ p s, piece_text p +:+ s) "" l.

Definition or_missing (missing : string) (o : option string) : string :=
  match o with None | Some "" => missing | Some s => escape s end.

(** [driver]: the row of the invoice's driver, if there is one. *)
Definition render_invoice_html (driver : option User.t) (inv : Invoice.t) : list piece :=
  let money m := fixed 2 m in
  let gst_pct := money (Invoice.gst_rate_pct inv) in
  let number := escape (Invoice.invoice_number inv) in
  [Text "<!doctype html>
<html>
<head>
<meta charset=`utf-8`>
<title>Invoice "; Hole number; Text page_head;
   Hole (or_missing "(legal name not configured)" (Invoice.seller_legal_name inv)); Text "</strong><br>
      GSTIN: "; Hole (or_missing "(GSTIN not configured)" (Invoice.seller_gstin inv)); Text "
    </div>
    <div class=`right`>
      Invoice No: <strong>"; Hole number; Text "</strong><br>
      Date: "; Hole (issued_on (Invoice.issued_at inv)); Text "
    </div>
  </div>
  <div>Bill To: "; Hole (match driver with Some u => escape (User.full_name u) | None => "Driver" end); Text " (";
   Hole (match driver with Some u => escape (User.email u) | None => "" end); Text ")</div>
  <table>
    <thead>
      <tr>
        <th>Description</th>
        <th>Energy (kWh)</th>
        <th>Rate (coins/kWh)</th>
        <th>Taxable Value (Rs.)</th>
        <th>GST ("; Hole gst_pct; Text "%) (Rs.)</th>
        <th>Total (Rs.)</th>
      </tr>
    </thead>
    <tbody>
      <tr>
        <td>"; Hole (session_line inv); Text "</td>
        <td>"; Hole (float_fixed 3 (Invoice.energy_kwh inv)); Text "</td>
        <td>"; Hole (money (Invoice.rate_coins_per_kwh inv)); Text "</td>
        <td>"; Hole (money (Invoice.taxable_value_inr inv)); Text "</td>
        <td>"; Hole (money (Invoice.gst_amount_inr inv)); Text "</td>
        <td>"; Hole (money (Invoice.total_inr inv)); Text "</td>
      </tr>
    </tbody>
  </table>
  <table class=`totals`>
    <tr><td class=`label`>Taxable Value:</td><td>Rs. "; Hole (money (Invoice.taxable_value_inr inv)); Text "</td></tr>
    <tr><td class=`label`>GST ("; Hole gst_pct; Text "%):</td><td>Rs. "; Hole (money (Invoice.gst_amount_inr inv));
   Text "</td></tr>
    <tr class=`grand`><td class=`label`>Total:</td><td>Rs. "; Hole (money (Invoice.total_inr inv)); Text page_footer].

(** ** What a page can hold *)

Section Page.
Implicit Types (s t : string) (c : ascii) (n : Z).

(** What opens or closes a tag or an attribute. *)
Definition markup_char c : bool :=
  Ascii.eqb c "<" || Ascii.eqb c ">" || Ascii.eqb c quote_char || Ascii.eqb c "'".
Fixpoint markup s : string :=
  match s with
  | EmptyString => ""
  | String c s => if markup_char c then String c (markup s) else markup s
  end.

Lemma markup_app s t : markup (s +:+ t) = markup s +:+ markup t.
Proof. induction s as [|c s IH]; [done|]. rewrite app_cons. simpl. rewrite IH. by case_match. Qed.

Lemma markup_plain s : all_of (λ c, negb (markup_char c)) s = true → markup s = "".
Proof. induction s as [|c s IH]; [done|]. simpl. intros [Hc Hs]%andb_true_iff. apply negb_true_iff in Hc. rewrite Hc. auto. Qed.

Lemma markup_escape s : markup (escape s) = "".
Proof.
  induction s as [|c s IH]; [done|]. simpl. rewrite markup_app, IH, str_app_nil. unfold escape_char.
  repeat (case_match; [done|]). simpl. unfold markup_char.
  by repeat (match goal with H : Ascii.eqb _ _ = false |- _ => rewrite H; clear H end).
Qed.

Lemma digit_plain c : is_digit c = true → negb (markup_char c) = true.
Proof.
  intros Hc. apply negb_true_iff, not_true_iff_false. unfold markup_char. rewrite !orb_true_iff, !Ascii.eqb_eq.
  by intros [[[->| ->]| ->]| ->].
Qed.

(** A browser turns the entities back. *)
Definition entities : list (string * ascii) :=
  [("&amp;", "&"%char); ("&lt;", "<"%char); ("&gt;", ">"%char); ("&quot;", quote_char); ("&#x27;", "'"%char)].
Fixpoint after_prefix e s : option string :=
  match e, s with
  | EmptyString, _ => Some s
  | String a e, String b s => if Ascii.eqb a b then after_prefix e s else None
  | _, _ => None
  end.
Fixpoint entity_at (l : list (string * ascii)) s : option (ascii * string) :=
  match l with
  | [] => None
  | (e, c) :: l => match after_prefix e s with Some rest => Some (c, rest) | None => entity_at l s end
  end.
Fixpoint unescape (fuel : nat) s : string :=
  match fuel, s with
  | S fuel, String c rest =>
      match entity_at entities s with
      | Some (c, rest) => String c (unescape fuel rest)
      | None => String c (unescape fuel rest)
      end
  | _, _ => ""
  end.

Lemma unescape_entity e c t (fuel : nat) : entity_at entities (e +:+ t) = Some (c, t) → e ≠ "" →
  unescape (S fuel) (e +:+ t) = String c (unescape fuel t).
Proof. intros He Hne. destruct e as [|a e]; [done|]. rewrite app_cons in *. cbn [unescape]. by rewrite He. Qed.

(** What is shown is what is stored. *)
Lemma unescape_escape s (fuel : nat) : (String.length s <= fuel)%nat → unescape fuel (escape s) = s.
Proof.
  revert fuel. induction s as [|c s IH]; intros [|fuel] Hf; simpl in Hf; [done..|lia|].
  specialize (IH fuel ltac:(lia)). simpl escape. unfold escape_char.
  destruct (Ascii.eqb_spec c "&") as [->|H1]; [by rewrite (unescape_entity _ "&"), IH|].
  destruct (Ascii.eqb_spec c "<") as [->|H2]; [by rewrite (unescape_entity _ "<"), IH|].
  destruct (Ascii.eqb_spec c ">") as [->|H3]; [by rewrite (unescape_entity _ ">"), IH|].
  destruct (Ascii.eqb_spec c quote_char) as [->|H4]; [by rewrite (unescape_entity _ quote_char), IH|].
  destruct (Ascii.eqb_spec c "'") as [->|H5]; [by rewrite (unescape_entity _ "'"), IH|].
  rewrite app_cons. cbn [unescape]. change ("" +:+ escape s) with (escape s).
  assert (entity_at entities (String c (escape s)) = None) as ->; [|by rewrite IH].
  cbn [entity_at entities after_prefix]. by rewrite (proj2 (Ascii.eqb_neq "&" c)) by congruence.
Qed.

Lemma markup_holes l l' : Forall2 (λ p q, match p, q with
    | Text s, Text t => s = t | Hole s, Hole t => markup s = "" ∧ markup t = "" | _, _ => False end) l l' →
  markup (page_of l) = markup (page_of l').
Proof.
  induction 1 as [|p q l l' H _ IH]; [done|]. simpl. rewrite !markup_app, IH. f_equal.
  destruct p, q; simpl in *; [by subst|done..|]. by destruct H as [-> ->].
Qed.

Ltac plain := apply markup_plain; auto using pretty_chars, fixed_chars, float_fixed_chars, zpad_chars, digit_plain.

Lemma markup_issued at_ : markup (issued_on at_) = "".
Proof.
  unfold issued_on. destruct (civil at_) as [year month]. apply markup_plain.
  rewrite !all_of_app, !zpad_chars, !pretty_chars by (done || apply digit_plain).
  unfold month_name. by rewrite substring_chars.
Qed.

Lemma markup_missing missing o : markup missing = "" → markup (or_missing missing o) = "".
Proof. intros H. destruct o as [[|c s]|]; [done|apply markup_escape|done]. Qed.

Lemma markup_line inv : markup (session_line inv) = "".
Proof. unfold session_line. rewrite markup_app. change (markup "EV charging session #") with "". plain. Qed.

Lemma markup_driver (f : User.t → string) dflt driver : markup dflt = "" →
  markup (match driver with Some u => escape (f u) | None => dflt end) = "".
Proof. intros H. destruct driver; [apply markup_escape|done]. Qed.

(** Every page has the same markup: nothing that a driver, an operator or a device
    put into the database opens or closes a tag or an attribute of it. *)
Theorem page_markup driver inv driver' inv' :
  markup (page_of (render_invoice_html driver inv)) = markup (page_of (render_invoice_html driver' inv')).
Proof.
  apply markup_holes. unfold render_invoice_html. repeat (apply Forall2_cons; split).
  all: try done; split; try apply markup_escape; try apply markup_issued; try apply markup_line; try (by apply markup_missing).
  all: try (by apply (markup_driver User.full_name)); try (by apply (markup_driver User.email)); plain.
Qed.

(** The printed parts of an invoice make its printed total. *)
Theorem printed_figures_foot d i inv : invoices_ok d → invoices d !! i = Some inv →
  (digits_value 0 (fixed 2 (Invoice.taxable_value_inr inv)) + digits_value 0 (fixed 2 (Invoice.gst_amount_inr inv)) =
   digits_value 0 (fixed 2 (Invoice.total_inr inv)))%Z.
Proof.
  intros Hd Hi. destruct (inv_foots _ Hd i inv Hi) as [[H1 H2] _]. simpl in *. rewrite !fixed_value by lia. lia.
Qed.
End Page.
