(* ===== verification/Mail.v ===== *)
(** * services/email.py, services/billing_emails.py: mail and what is logged of it

    A mail goes out over SMTP, whose outcome is an argument, or is logged; the
    senders write its text.  [Logged] is a line of the log with its fields.  The
    character classes of Unicode are a parameter with Python's documented laws. *)

From stdpp Require Import pretty.
From Stdlib Require Import Ascii.
From S2P Require Import Prelude Rounding PyNum Money Models Config TelemetryStore World Hoare.
From S2P Require Import PyString PyJson PushGuard RateRules Billing Lifecycle PyFormat.

#[local] Open Scope string_scope.

(** ** Characters

    [str.isspace] and [str.isprintable] of one character: a space is the only white
    space that prints, and control characters do not print. *)
Class CharData := { isspace : Z → bool; isprintable : Z → bool }.
Class CharLaws `{CharData} : Prop := {
  space_prints : ∀ c, isspace c = true → isprintable c = true → c = 32%Z;
  control_hidden : ∀ c, isprintable c = true → (32 <= c < 1114112 ∧ c ≠ 127)%Z }.

(** ** services/email.py *)

Record mail := mkmail { m_to : string; m_subject : string; m_body : string }.
Record smtp_message := mksmtp {
  sm_host : string; sm_port : Z; sm_login : option (string * string); sm_from : string; sm_mail : mail }.

Inductive mail_event :=
  | Delivered (m : smtp_message)
  | Logged (level text : string) (fields : list (string * string)).

Definition newline : ascii := ascii_of_nat 10.
Definition carriage_return : ascii := ascii_of_nat 13.
(** [EmailMessage] refuses a header that holds a line break. *)
Definition inline (c : ascii) : bool := negb (Ascii.eqb c newline || Ascii.eqb c carriage_return).
Definition header_ok (s : string) : bool := all_of inline s.

Section Email.
Context `{env : Environment}.
Implicit Types (m : mail).

Definition frontend_origin : string := rstrip_of (Ascii.eqb "/") (getenv_or "FRONTEND_ORIGIN" "https://amphive.app").

(** [up]: the connection, STARTTLS, the login and the sending succeed.  [None]: it
    raises. *)
Definition send_via_smtp (up : bool) (host : string) m : option smtp_message :=
  port ← int_of_str (getenv_or "SMTP_PORT" "587");
  let user := getenv_or "SMTP_USER" "" in
  let sender := getenv_or "SMTP_FROM" (if String.eqb user "" then "noreply@amphive.local" else user) in
  if negb (header_ok sender && header_ok (m_to m) && header_ok (m_subject m) && up) then None
  else Some (mksmtp host port (if String.eqb user "" then None else Some (user, getenv_or "SMTP_PASSWORD" "")) sender m).

Definition console_fallback_shows_body : bool :=
  bool_decide (lower (strip (getenv_or "EMAIL_CONSOLE_FALLBACK" "")) ∈ ["full"; "1"; "true"; "yes"; "on"]).

Definition send_email (up : bool) m : list mail_event :=
  let fields := [("to", m_to m); ("subject", m_subject m)] in
  let host := getenv_or "SMTP_HOST" "" in
  if negb (String.eqb host "") then
    match send_via_smtp up host m with
    | Some sent => [Delivered sent; Logged "INFO" "Email sent via SMTP" fields]
    | None => [Logged "ERROR" "SMTP send failed" fields]
    end
  else if console_fallback_shows_body then
    [Logged "WARNING" ("SMTP not configured (SMTP_HOST unset) — email NOT sent. To: " +:+ m_to m +:+
       " | Subject: " +:+ m_subject m +:+ " | Body:" +:+ String newline (m_body m)) []]
  else
    [Logged "WARNING" ("SMTP not configured (SMTP_HOST unset) — email NOT sent. To: " +:+ m_to m +:+
       " | Subject: " +:+ m_subject m +:+ " | Body REDACTED (it can contain a live single-use token). " +:+
       "Set EMAIL_CONSOLE_FALLBACK=full to print it for local development.") []].

Definition lines (l : list string) : string := String.concat (String newline "") l.

Definition send_password_reset (to_addr reset_link : string) (ttl_min : Z) : mail :=
  mkmail to_addr "AmpHive password reset" (lines [
    "Someone (hopefully you) requested a password reset for your AmpHive account."; "";
    "Reset your password here (link expires in " +:+ pretty ttl_min +:+ " minutes, single use):"; "";
    reset_link; "";
    "If you didn't request this, you can safely ignore this email — your password is unchanged."]).

Definition send_email_verification (to_addr verify_link : string) : mail :=
  mkmail to_addr "Verify your AmpHive email address" (lines [
    "Welcome to AmpHive! Please confirm this is your email address to finish creating your account."; "";
    "Verify your email here (single use):"; ""; verify_link; "";
    "If you didn't create an AmpHive account, you can safely ignore this email."]).
End Email.

(** ** services/billing_emails.py *)

(** [f"{x:g}"] of a positive number from 10^-5 below 10^16: six digits, without the
    zeros at their end. *)
Fixpoint six_digits (fuel : nat) (x : float) (e : Z) : Z * Z :=
  let m := rne_red (x * 10 ^ (5 - Z.min e 5))%Z (FU * 10 ^ (Z.max e 5 - 5))%Z in
  match fuel with
  | O => (m, e)
  | S fuel => if Z.ltb m (10 ^ 6) then (m, e) else six_digits fuel x (Z.succ e)
  end.
Definition strip_zeros (s : string) : string := rstrip_of (Ascii.eqb ".") (rstrip_of (Ascii.eqb "0") s).
Definition general (x : float) : string :=
  let '(m, e) := six_digits 20 x (-5) in
  if Z.ltb e (-4) || Z.leb 6 e then
    strip_zeros (fixed 5 m) +:+ (if Z.ltb e 0 then "e-" else "e+") +:+ zpad 2 (Z.abs e)
  else if Z.eqb e 5 then pretty m
  else strip_zeros (fixed (Z.to_nat (5 - e)) m).

Section Billing.
Context `{env : Environment}.
Implicit Types (r : receipt) (l : list Z).

Definition billing_emails_enabled : bool :=
  negb (bool_decide (lower (strip (getenv_or "BILLING_EMAILS" "on")) ∈ ["off"; "0"; "false"; "disabled"])).

(** [running]: there is an event loop to run the send in. *)
Definition schedule (running up : bool) (m : option mail) : list mail_event :=
  match m with
  | Some m => if billing_emails_enabled && running then send_email up m else []
  | None => []
  end.

Definition fmt_duration (duration_sec : option Z) : string :=
  let minutes := (default 0%Z duration_sec / 60)%Z in
  if Z.leb 60 minutes then pretty (minutes / 60)%Z +:+ " h " +:+ pretty (minutes mod 60)%Z +:+ " min"
  else pretty minutes +:+ " min".

Definition or_there (full_name : string) : string := if String.eqb full_name "" then "there" else full_name.

(** [row]: the address and the name of the user.  The plug's name and the times are
    those of the receipt's JSON. *)
Definition send_session_bill (row : option (string * string)) r (plug_name : string)
    (started_at ended_at : option string) : option mail :=
  '(to_addr, full_name) ← row;
  if String.eqb to_addr "" then None
  else
    let coins := fixed 2 (r_coins_spent r) in
    let energy := float_fixed 3 (r_energy_kwh r) in
    let plug_name := if String.eqb plug_name "" then "plug " +:+ pretty (r_plug_id r) else plug_name in
    let opt label o := match o with None | Some "" => [] | Some s => [label +:+ s] end in
    Some (mkmail to_addr ("AmpHive charging bill — " +:+ coins +:+ " coins (" +:+ energy +:+ " kWh)") (lines (
      ["Hi " +:+ or_there full_name +:+ ","; "";
       "Here's your bill for the charging session that just ended."; "";
       "  Charger:        " +:+ plug_name;
       "  Energy:         " +:+ energy +:+ " kWh";
       "  Duration:       " +:+ fmt_duration (r_duration_sec r)] ++
      (if Z.eqb (r_price_per_kwh r) 0 then []
       else ["  Rate:           " +:+ general (r_price_per_kwh r) +:+ " coins/kWh"]) ++
      ["  Amount billed:  " +:+ coins +:+ " coins";
       "  Credit left:    " +:+ fixed 2 (r_balance_remaining r) +:+ " coins"] ++
      opt "  Started:        " started_at ++ opt "  Ended:          " ended_at ++
      ["";
       "Session #" +:+ pretty (r_session_id r) +:+ " — full history and GST invoices: " +:+ frontend_origin +:+ "/activity";
       ""; "Thanks for charging with AmpHive."]))).
End Billing.

Section Note.
Context `{CharData}.
Implicit Types (l cur : list Z).

(** [str.split()] *)
Fixpoint words cur l : list (list Z) :=
  match l with
  | [] => match cur with [] => [] | _ => [cur] end
  | c :: l =>
      if isspace c then match cur with [] => words [] l | _ => cur :: words [] l end
      else words (cur ++ [c]) l
  end.
Fixpoint join (ws : list (list Z)) : list Z :=
  match ws with
  | [] => []
  | [w] => w
  | w :: ws => w ++ 32%Z :: join ws
  end.
Fixpoint lstrip_chars l : list Z := match l with c :: l' => if isspace c then lstrip_chars l' else l | [] => [] end.
Definition rstrip_chars l : list Z := rev (lstrip_chars (rev l)).

Definition MAX_NOTE_CHARS : nat := 200.
Definition ellipsis : Z := 8230.

Definition sanitize_chars l : list Z :=
  let flat := filter (λ c, isprintable c = true) (join (words [] l)) in
  if (MAX_NOTE_CHARS <? length flat)%nat then rstrip_chars (take MAX_NOTE_CHARS flat) ++ [ellipsis] else flat.
Definition sanitize_operator_note (note : string) : string := utf8_encode (sanitize_chars (utf8_decode note)).

Definition send_topup_receipt `{env : Environment} (to_addr full_name : string) (amount_coins new_balance : float)
    (credited_by : string) (note : option string) : mail :=
  let amount := float_fixed 2 amount_coins in
  let safe_note := match note with None | Some "" => "" | Some s => sanitize_operator_note s end in
  mkmail to_addr ("AmpHive top-up receipt — " +:+ amount +:+ " coins") (lines (
    ["Hi " +:+ or_there full_name +:+ ","; "";
     credited_by +:+ " added " +:+ amount +:+ " coins of charging credit to your AmpHive account (cash payment)."; "";
     "  Amount:      " +:+ amount +:+ " coins";
     "  New balance: " +:+ float_fixed 2 new_balance +:+ " coins"] ++
    (if String.eqb safe_note "" then [] else ["  Operator note: " +:+ safe_note]) ++
    [""; "View your credit and history: " +:+ frontend_origin +:+ "/credit"; ""; "Thanks for charging with AmpHive."])).
End Note.

Example general_examples : general (flit 125 10) = "12.5" ∧ general (fint 12) = "12" ∧ general (flit 1 10000) = "0.0001" ∧
  general (fint 123456) = "123456" ∧ general (fint 1234567) = "1.23457e+06" ∧ general (flit 9999996 10) = "1e+06" ∧
  general (flit 1 100) = "0.01".
Proof. by vm_compute. Qed.

(** ** What is logged and what is sent *)

Section Sending.
Context `{env : Environment}.
Implicit Types (m : mail).

Definition logged (l : list mail_event) : list mail_event :=
  omap (λ e, match e with Delivered _ => None | _ => Some e end) l.
Definition sent (l : list mail_event) : list smtp_message :=
  omap (λ e, match e with Delivered x => Some x | _ => None end) l.

(** Whatever happens to a mail, the log is the same for every body, so that no token
    of a link reaches it, unless the console fallback was asked to show bodies. *)
Theorem log_blind up to_addr subject body body' : getenv_or "SMTP_HOST" "" ≠ "" ∨ console_fallback_shows_body = false →
  logged (send_email up (mkmail to_addr subject body)) = logged (send_email up (mkmail to_addr subject body')).
Proof.
  intros Hc. unfold send_email. destruct (String.eqb_spec (getenv_or "SMTP_HOST" "") "") as [E|E]; simpl.
  - destruct Hc as [Hc|Hc]; [by destruct Hc|by rewrite Hc].
  - unfold send_via_smtp. destruct (int_of_str _); [|done]. simpl.
    by match goal with |- context [if negb ?b then _ else _] => destruct b end.
Qed.

(** At most one message is sent, of the mail itself, by one who accepts it: to a
    header with a line break nothing is sent. *)
Theorem send_email_once up m : ∃ l, sent (send_email up m) = l ∧ (length l <= 1)%nat ∧
  Forall (λ x, sm_mail x = m ∧ sm_host x = getenv_or "SMTP_HOST" "" ∧ sm_host x ≠ "" ∧
    header_ok (m_to m) = true ∧ header_ok (m_subject m) = true ∧ up = true) l.
Proof.
  eexists. split; [done|]. unfold send_email.
  destruct (String.eqb_spec (getenv_or "SMTP_HOST" "") "") as [E|E]; simpl.
  { destruct console_fallback_shows_body; (split; [simpl; lia|constructor]). }
  destruct (send_via_smtp up _ m) as [x|] eqn:Hx; simpl; [|split; [lia|constructor]]. split; [lia|]. apply Forall_singleton.
  unfold send_via_smtp in Hx. destruct (int_of_str _) as [port|]; [|done]. simpl in Hx. case_match eqn:Hb; [done|].
  injection Hx as <-. apply negb_false_iff in Hb. rewrite !andb_true_iff in Hb. naive_solver.
Qed.

Lemma inline_digit c : is_digit c = true → inline c = true.
Proof.
  intros Hc. apply negb_true_iff, not_true_iff_false. rewrite orb_true_iff, !Ascii.eqb_eq. by intros [->| ->].
Qed.

(** Mail about money is never refused for its subject, and its subject shows the sum
    that was billed. *)
Theorem bill_subject row r plug_name started ended m : send_session_bill row r plug_name started ended = Some m →
  header_ok (m_subject m) = true ∧ (∃ name, row = Some (m_to m, name)) ∧
  ∃ before after, m_subject m = before +:+ fixed 2 (r_coins_spent r) +:+ after ∧
    digits_value 0 (fixed 2 (r_coins_spent r)) = Z.abs (r_coins_spent r).
Proof.
  unfold send_session_bill. destruct row as [[to_addr full_name]|]; simpl; [|done]. case_match; [done|].
  intros [= <-]. simpl. split_and!; [|by eexists|].
  - unfold header_ok. rewrite !all_of_app, fixed_chars, float_fixed_chars by (done || apply inline_digit). done.
  - eexists _, _. split; [done|]. apply fixed_value. lia.
Qed.
End Sending.

Section NoteSafe.
Context `{CharLaws}.
Implicit Types (l cur w : list Z) (c : Z).

Lemma join_chars P ws : P 32%Z → Forall (Forall P) ws → Forall P (join ws).
Proof.
  intros HP. induction 1 as [|w ws Hw Hws IH]; [constructor|]. simpl. destruct ws; [done|].
  apply Forall_app. split; [done|]. by constructor.
Qed.

Lemma lstrip_chars_suffix l : ∃ k : list Z, l = (k ++ lstrip_chars l)%list.
Proof.
  induction l as [|c l [k IH]]; [by exists []|]. simpl. case_match; [|by exists []]. exists (c :: k). simpl. by rewrite <- IH.
Qed.

Lemma rstrip_chars_prefix l : ∃ k : list Z, l = (rstrip_chars l ++ k)%list.
Proof.
  destruct (lstrip_chars_suffix (rev l)) as [k Hk]. exists (rev k). unfold rstrip_chars. rewrite <- rev_app_distr, <- Hk.
  symmetry. apply List.rev_involutive.
Qed.

(** An operator's note is one line of a receipt: two hundred characters and an
    ellipsis at most, every one of which prints. *)
Lemma sanitize_shape l : (length (sanitize_chars l) <= 201)%nat ∧
  Forall (λ c, isprintable c = true ∨ c = ellipsis) (sanitize_chars l).
Proof.
  unfold sanitize_chars. set (flat := filter _ _).
  assert (Hflat : Forall (λ c, isprintable c = true ∨ c = ellipsis) flat).
  { apply Forall_forall. intros c [Hc _]%list_elem_of_filter. by left. }
  destruct (Nat.ltb_spec MAX_NOTE_CHARS (length flat)) as [Hl|Hl]; [|split; [unfold MAX_NOTE_CHARS in Hl; lia|done]].
  destruct (rstrip_chars_prefix (take MAX_NOTE_CHARS flat)) as [k Hk].
  assert (Ht : Forall (λ c, isprintable c = true ∨ c = ellipsis) (take MAX_NOTE_CHARS flat)) by by apply Forall_take.
  rewrite Hk in Ht. apply Forall_app in Ht as [Ht _]. split; [|apply Forall_app; split; [done|]; apply Forall_singleton; by right].
  rewrite length_app. apply (f_equal length) in Hk. rewrite length_app, length_take in Hk. simpl. unfold MAX_NOTE_CHARS in *. lia.
Qed.

Lemma utf8_encode_chars (p : ascii → bool) l : (∀ n, 128 <= n < 256 → p (byte n) = true)%Z →
  Forall (λ c, (0 <= c < 1114112)%Z ∧ ((c < 128)%Z → p (byte c) = true)) l → all_of p (utf8_encode l) = true.
Proof.
  intros Hp. induction 1 as [|c l [Hc Hlow] _ IH]; [done|]. simpl. by rewrite all_of_app, IH, utf8_char_ascii.
Qed.

Theorem note_is_a_line note : header_ok (sanitize_operator_note note) = true ∧
  (length (utf8_decode (sanitize_operator_note note)) <= 201)%nat.
Proof using Type*.
  destruct (sanitize_shape (utf8_decode note)) as [H1 H2]. unfold sanitize_operator_note.
  assert (Hr : Forall (λ c, 32 <= c < 1114112)%Z (sanitize_chars (utf8_decode note))).
  { eapply Forall_impl; [exact H2|]. intros c [Hc| ->]; [by destruct (control_hidden c Hc)|unfold ellipsis; lia]. }
  split; [|rewrite utf8_round_trip; [done|]; eapply Forall_impl; [exact Hr|]; simpl; lia].
  assert (Hin : ∀ n, (32 <= n < 256)%Z → inline (byte n) = true).
  { intros n Hn. unfold inline. apply negb_true_iff, not_true_iff_false. rewrite orb_true_iff, !Ascii.eqb_eq.
    intros [E|E]; apply (f_equal code) in E; rewrite code_byte in E by lia; vm_compute in E; lia. }
  apply utf8_encode_chars; [intros; apply Hin; lia|]. eapply Forall_impl; [exact Hr|]. simpl. intros c Hc. split; [lia|].
  intros Hlow. apply Hin. lia.
Qed.
End NoteSafe.
