(* ===== verification/P110.v ===== *)
(** * tools/p110_sim/plug.py, state.py: a simulated smart plug

    What a plug measures and remembers, and the four methods it answers.  A [plug]
    is a SimulatedPlug; [noise] arguments are the draws of [random.uniform], and a
    tick reads the wall clock once.  A power factor is not 0.  The identity of a
    device (its uuid, base64) is given. *)

From stdpp Require Import gmap.
From S2P Require Import Prelude Rounding PyNum Money Models Config TelemetryStore World Hoare.
From S2P Require Import PyString PyJson PushGuard Lifecycle.

Record PlugConfig := mkplug_config {
  c_plug_id : Z;
  c_host : string;
  c_watts : float;
  c_jitter : float;
  c_voltage : float;
  c_power_factor : float;
  c_start_kwh : float;
  c_drop_rate : float;
  c_reset_after_s : option float;
  c_reset_value_kwh : float;
  c_daily_reset_after_s : option float }.

(** A row of the state file: the calendar counters are missing in old ones. *)
Record persisted := mkpersisted {
  p_energy_wh : float;
  p_device_on : bool;
  p_on_time_s : float;
  p_today_energy_wh : option float;
  p_month_energy_wh : option float }.

Record plug := mkplug {
  energy_wh : float;
  device_on : bool;
  on_time_s : float;
  today_energy_wh : float;
  month_energy_wh : float;
  last_tick : float;
  reset_deadline : option float;
  reset_fired : bool;
  daily_reset_deadline : option float;
  daily_reset_fired : bool }.

#[export] Instance eta_plug : Eta plug := fun r =>
  mkplug (energy_wh r) (device_on r) (on_time_s r) (today_energy_wh r) (month_energy_wh r) (last_tick r)
    (reset_deadline r) (reset_fired r) (daily_reset_deadline r) (daily_reset_fired r).

Section P110.
Context (cfg : PlugConfig).
Implicit Types (p : plug) (noise now : float).

Definition new_plug (initial : option persisted) (now_mono now_wall : float) : plug :=
  let deadline := fmap (fadd now_wall) in
  match initial with
  | Some st =>
      mkplug (p_energy_wh st) (p_device_on st) (p_on_time_s st)
        (default (p_energy_wh st) (p_today_energy_wh st)) (default (p_energy_wh st) (p_month_energy_wh st))
        now_mono (deadline (c_reset_after_s cfg)) false (deadline (c_daily_reset_after_s cfg)) false
  | None =>
      let e := fmul (c_start_kwh cfg) (fint 1000) in
      mkplug e false 0 e e now_mono (deadline (c_reset_after_s cfg)) false (deadline (c_daily_reset_after_s cfg)) false
  end.

Definition snapshot p : persisted :=
  mkpersisted (energy_wh p) (device_on p) (on_time_s p) (Some (today_energy_wh p)) (Some (month_energy_wh p)).

Definition jittered_watts noise : float :=
  if c_jitter cfg <=? 0 then c_watts cfg else fmul (c_watts cfg) (fadd (fint 1) noise).

Definition due (fired : bool) (deadline : option float) (now_wall : float) : bool :=
  negb fired && match deadline with Some t => t <=? now_wall | None => false end.

(** Which of the callbacks are owed. *)
Record owed := mkowed { counter_reset : bool; daily_reset : bool }.

Definition integrate (now_mono noise : float) p : plug :=
  let dt_h := fdiv (fsub now_mono (last_tick p)) (fint 3600) in
  let p := p <| last_tick := now_mono |> in
  if device_on p && (0 <? dt_h) then
    let wh := fmul (jittered_watts noise) dt_h in
    p <| energy_wh := fadd (energy_wh p) wh |> <| today_energy_wh := fadd (today_energy_wh p) wh |>
      <| month_energy_wh := fadd (month_energy_wh p) wh |>
      <| on_time_s := fadd (on_time_s p) (fmul dt_h (fint 3600)) |>
  else p.

Definition reset_counters (now_wall : float) p : plug :=
  if due (reset_fired p) (reset_deadline p) now_wall then
    let e := fmul (c_reset_value_kwh cfg) (fint 1000) in
    p <| reset_fired := true |> <| energy_wh := e |> <| today_energy_wh := e |> <| month_energy_wh := e |>
  else p.

Definition reset_daily (now_wall : float) p : plug :=
  if due (daily_reset_fired p) (daily_reset_deadline p) now_wall then
    p <| daily_reset_fired := true |> <| today_energy_wh := 0 |>
  else p.

Definition tick (now_mono now_wall noise : float) p : plug * owed :=
  let p := integrate now_mono noise p in
  let q := reset_counters now_wall p in
  (reset_daily now_wall q,
   mkowed (due (reset_fired p) (reset_deadline p) now_wall)
          (due (daily_reset_fired q) (daily_reset_deadline q) now_wall)).

(** ** What it measures *)

(** [round(x)] *)
Definition round_int (x : float) : Z := rne_red x FU.

Definition current_power_mw noise p : Z :=
  let watts := if device_on p then jittered_watts noise else 0 in
  Z.max 0 (round_int (fmul watts (fint 1000))).
Definition voltage_mv noise : Z := Z.max 0 (round_int (fmul (fmul (c_voltage cfg) (fadd (fint 1) noise)) (fint 1000))).
Definition current_ma (power_mw voltage_mv : Z) p : Z :=
  if (voltage_mv <=? 0) || negb (device_on p) then 0
  else
    let power_w := fdiv (fint power_mw) (fint 1000) in
    let voltage_v := fdiv (fint voltage_mv) (fint 1000) in
    Z.max 0 (round_int (fmul (fdiv power_w (fmul voltage_v (c_power_factor cfg))) (fint 1000))).

(** [int(on_time_s // 60)] *)
Definition runtime_minutes p : Z := on_time_s p / (60 * FU).

(** ** The methods *)

Record device := mkdevice { d_id : string; d_mac : string; d_nickname : string; d_ssid : string }.
Context (dev : device).

Definition get_device_info p : json :=
  JObj ([("device_id", JStr (d_id dev)); ("fw_ver", JStr "1.2.5 Build 240328 Rel.170053"); ("hw_ver", JStr "1.0");
    ("type", JStr "SMART.TAPOPLUG"); ("model", JStr "P110"); ("mac", JStr (d_mac dev));
    ("hw_id", JStr (String.substring 0 16 (d_id dev))); ("fw_id", JStr "0000000000000000");
    ("oem_id", JStr (String.substring 16 16 (d_id dev))); ("specs", JStr "");
    ("device_on", JBool (device_on p)); ("on_time", JInt (ftrunc (on_time_s p))); ("overheated", JBool false);
    ("nickname", JStr (d_nickname dev)); ("location", JStr ""); ("avatar", JStr "plug");
    ("longitude", JInt 0); ("latitude", JInt 0); ("has_set_location_info", JBool false);
    ("ip", JStr (c_host cfg)); ("ssid", JStr (d_ssid dev)); ("signal_level", JInt 3); ("rssi", JInt (-45));
    ("region", JStr "Asia/Kolkata"); ("time_diff", JInt 330); ("lang", JStr "en_US");
    ("overheat_status", JStr "normal"); ("overcurrent_status", JStr "normal");
    ("power_protection_status", JStr "normal"); ("charging_status", JStr "normal");
    ("default_states", JObj [("type", JStr "last_states"); ("state", JObj [])])])%string.

(** Draws for the power and the voltage, and the local time as text. *)
Record draws := mkdraws { n_power : float; n_voltage : float; n_local_time : string }.

Definition get_energy_usage (n : draws) p : json :=
  let power_mw := current_power_mw (n_power n) p in
  let voltage_mv := voltage_mv (n_voltage n) in
  JObj ([("today_runtime", JInt (runtime_minutes p)); ("month_runtime", JInt (runtime_minutes p));
    ("today_energy", JInt (round_int (today_energy_wh p))); ("month_energy", JInt (round_int (month_energy_wh p)));
    ("local_time", JStr (n_local_time n)); ("electricity_charge", JArr [JInt 0; JInt 0; JInt 0]);
    ("current_power", JInt power_mw); ("current_ma", JInt (current_ma power_mw voltage_mv p));
    ("voltage_mv", JInt voltage_mv)])%string.

Definition get_current_power (n : draws) p : json :=
  JObj [("current_power", JInt (current_power_mw (n_power n) p))]%string.

(** [key in params], and then [params[key]]: [None] when either raises. *)
Definition lookup_param (key : string) (params : json) : option (option json) :=
  match params with
  | JObj kvs => Some (assoc key kvs)
  | JArr l => if existsb (λ j, jstr_eqb j key) l then None else Some None
  | JStr s => if contains key s then None else Some None
  | _ => None
  end.

Definition set_device_on (on : bool) p : plug := p <| device_on := on |>.

(** The result, and the plug; [None] when it raises. *)
Definition set_device_info (params : json) p : option (json * plug) :=
  v ← lookup_param "device_on" params;
  let p := match v with Some v => set_device_on (truthy v) p | None => p end in
  Some (JObj [("response", JStr "")]%string, p).

Definition answer (result : json) : json := JObj [("error_code", JInt 0); ("result", result)]%string.

Definition dispatch (n : draws) (method params : json) p : option (json * plug) :=
  if jstr_eqb method "get_device_info" then Some (answer (get_device_info p), p)
  else if jstr_eqb method "get_energy_usage" then Some (answer (get_energy_usage n p), p)
  else if jstr_eqb method "get_current_power" then Some (answer (get_current_power n p), p)
  else if jstr_eqb method "set_device_info" then '(r, p) ← set_device_info params p; Some (answer r, p)
  else Some (JObj [("error_code", JInt (-1001))]%string, p).
End P110.

(** ** What a tick does *)

Section Counters.
Context (cfg : PlugConfig).
Implicit Types (p q : plug) (noise now : float).

Record config_ok : Prop := {
  cf_watts : 0 <= c_watts cfg;
  cf_jitter : c_jitter cfg <= fint 1;
  cf_start : 0 <= c_start_kwh cfg;
  cf_reset : 0 <= c_reset_value_kwh cfg }.
Hypothesis cfg_ok : config_ok.

(** The draws of [random.uniform(-jitter, jitter)]. *)
Definition drawn noise : Prop := - fint 1 <= noise.

(** The calendar's counters: a day's is no more than its month's. *)
Record counters_ok p : Prop := {
  ct_energy : is_float (energy_wh p) ∧ 0 <= energy_wh p;
  ct_today : is_float (today_energy_wh p) ∧ 0 <= today_energy_wh p;
  ct_month : is_float (month_energy_wh p) ∧ today_energy_wh p <= month_energy_wh p }.

Lemma fmul_nonneg a b : 0 <= a → 0 <= b → 0 <= fmul a b.
Proof. intros. apply frnd_nonneg; [apply FU_pos|nia]. Qed.
Lemma fmul_is_float a b : is_float (fmul a b).
Proof. apply frnd_is_float, FU_pos. Qed.

Lemma fint_1000 : 0 <= fint 1000.
Proof. apply flit_nonneg; lia. Qed.

Lemma kwh_counters k : 0 <= k → is_float (fmul k (fint 1000)) ∧ 0 <= fmul k (fint 1000).
Proof. intros. split; [apply fmul_is_float|apply fmul_nonneg; [done|apply fint_1000]]. Qed.

Lemma watts_nonneg noise : drawn noise → 0 <= jittered_watts cfg noise.
Proof using cfg_ok.
  intros Hn. unfold jittered_watts. destruct (_ <=? _); [apply cfg_ok|]. apply fmul_nonneg; [apply cfg_ok|].
  apply frnd_nonneg; [lia|]. unfold drawn in Hn. lia.
Qed.

Lemma integrate_forward now_mono noise p : drawn noise → counters_ok p →
  let q := integrate cfg now_mono noise p in
  counters_ok q ∧ device_on q = device_on p ∧
  energy_wh p <= energy_wh q ∧ today_energy_wh p <= today_energy_wh q ∧ month_energy_wh p <= month_energy_wh q.
Proof using cfg_ok.
  intros Hn [[E1 E2] [T1 T2] [M1 M2]] q. subst q. unfold integrate. cbn zeta. set (dt_h := fdiv _ _).
  change (device_on (p <| last_tick := now_mono |>)) with (device_on p).
  destruct (device_on p && (0 <? dt_h)) eqn:Hd; [|split_and!; try done; by split].
  apply andb_true_iff in Hd as [_ Hd%Z.ltb_lt]. pose proof (watts_nonneg noise Hn) as Hw.
  assert (Hwh : 0 <= fmul (jittered_watts cfg noise) dt_h) by (apply fmul_nonneg; lia).
  pose proof (fadd_ge_l _ _ E1 Hwh). pose proof (fadd_ge_l _ _ T1 Hwh). pose proof (fadd_ge_l _ _ M1 Hwh).
  split_and!; try done. split; simpl; (split; [apply fadd_is_float|]); [lia..|by apply fadd_mono].
Qed.

Lemma due_once fired deadline now : due fired deadline now = true → fired = false.
Proof. unfold due. by destruct fired. Qed.

(** Counters never go back but for a reset that is due, which fires once; a daily one
    clears the day's counter and leaves the month's. *)
Theorem tick_forward now_mono now_wall noise p : drawn noise → counters_ok p →
  let '(q, o) := tick cfg now_mono now_wall noise p in
  counters_ok q ∧ device_on q = device_on p ∧
  (if counter_reset o then reset_fired p = false ∧ reset_fired q = true ∧ energy_wh q = fmul (c_reset_value_kwh cfg) (fint 1000)
   else reset_fired q = reset_fired p ∧ energy_wh p <= energy_wh q ∧ month_energy_wh p <= month_energy_wh q) ∧
  (if daily_reset o then daily_reset_fired p = false ∧ daily_reset_fired q = true ∧ today_energy_wh q = 0
   else daily_reset_fired q = daily_reset_fired p ∧ (counter_reset o = false → today_energy_wh p <= today_energy_wh q)).
Proof using cfg_ok.
  intros Hn Hp. unfold tick. destruct (integrate_forward now_mono noise p Hn Hp) as (Hq & Ha & He & Ht & Hm).
  assert (Hf : reset_fired (integrate cfg now_mono noise p) = reset_fired p ∧
               daily_reset_fired (integrate cfg now_mono noise p) = daily_reset_fired p)
    by (unfold integrate; cbn zeta; by case_match).
  destruct Hf as [Hf1 Hf2]. revert Hq Ha He Ht Hm Hf1 Hf2. generalize (integrate cfg now_mono noise p). clear Hp.
  intros q [[E1 E2] [T1 T2] [M1 M2]] Ha He Ht Hm Hf1 Hf2.
  destruct (kwh_counters (c_reset_value_kwh cfg)) as [K1 K2]; [apply cfg_ok|].
  unfold reset_daily, reset_counters. destruct (due (reset_fired q) _ now_wall) eqn:D1; simpl;
    (destruct (due (daily_reset_fired q) _ now_wall) eqn:D2; simpl).
  all: try apply due_once in D1; try apply due_once in D2.
  all: split_and!; try done; try congruence; try (split; simpl; split; done || lia || apply is_float_0).
Qed.

(** A plug that is started again goes on where its state file left it. *)
Theorem restart_resumes now_mono now_wall p : let q := new_plug cfg (Some (snapshot p)) now_mono now_wall in
  snapshot q = snapshot p ∧ (counters_ok p → counters_ok q).
Proof. split; [done|]. by intros [H1 H2 H3]. Qed.

Lemma new_plug_ok now_mono now_wall : counters_ok (new_plug cfg None now_mono now_wall).
Proof using cfg_ok. destruct (kwh_counters (c_start_kwh cfg)); [apply cfg_ok|]. by split. Qed.

(** Only a [set_device_info] that names the relay moves it, and nothing else. *)
Lemma dispatch_relay dev n method params p r q : dispatch cfg dev n method params p = Some (r, q) →
  q = p ∨ (jstr_eqb method "set_device_info" = true ∧
    ∃ v, lookup_param "device_on" params = Some (Some v) ∧ q = set_device_on (truthy v) p).
Proof.
  unfold dispatch. repeat (case_match; [by intros [= <- <-]; left|]). case_match; [|by intros [= <- <-]; left].
  unfold set_device_info. destruct (lookup_param "device_on" params) as [[v|]|]; simpl; [|by intros [= <- <-]; left|done].
  intros [= <- <-]. right. split; [done|]. by exists v.
Qed.

Lemma round_int_mono x y : x <= y → round_int x <= round_int y.
Proof. intros. pose proof FU_pos. unfold round_int. rewrite !rne_red_eq by done. by apply rne_mono. Qed.

(** What the plug tells of its calendar: a day's energy is no more than the month's,
    and no figure is negative. *)
Theorem usage_reported dev n p : counters_ok p → ∃ today month power current volts rest,
  dispatch cfg dev n (JStr "get_energy_usage") (JObj []) p = Some (answer (JObj rest), p) ∧
  assoc "today_energy" rest = Some (JInt today) ∧ assoc "month_energy" rest = Some (JInt month) ∧
  assoc "current_power" rest = Some (JInt power) ∧ assoc "current_ma" rest = Some (JInt current) ∧
  assoc "voltage_mv" rest = Some (JInt volts) ∧
  0 <= today <= month ∧ 0 <= power ∧ 0 <= current ∧ 0 <= volts ∧ (device_on p = false → power = 0 ∧ current = 0).
Proof.
  intros [_ [_ T] [_ M]]. eexists _, _, _, _, _, _. split; [done|]. split_and!; try done.
  - change 0 with (round_int 0). by apply round_int_mono.
  - by apply round_int_mono.
  - unfold current_power_mw. lia.
  - unfold current_ma. case_match; lia.
  - unfold voltage_mv. lia.
  - intros Ho. unfold current_power_mw, current_ma. rewrite Ho, orb_true_r. split; [by vm_compute|done].
Qed.
End Counters.
