(* ===== verification/Klap.v ===== *)
(** * tools/p110_sim/crypto.py, server.py, tools/klap_probe.py: the KLAP protocol

    A plug's server and the probe that talks to it.  Both derive a session from two
    seeds and a hash of the account; a request is signed and encrypted under it.
    Bytes are strings; hashes, AES, padding and JSON are parameters, with the laws
    of their documentation in [KlapLaws].  A request is what http.server hands
    over: path, body, cookie header, and the first [seq] of the query as an int. *)

From stdpp Require Import gmap strings.
From Stdlib Require Import Ascii.
From S2P Require Import Prelude Rounding PyNum Money Models Config TelemetryStore World Hoare.
From S2P Require Import PyString PyJson PushGuard LocalIp PyFormat P110.

#[local] Open Scope string_scope.

(** A dict names a key once. *)
Fixpoint unique_keys (j : json) : bool :=
  match j with
  | JArr l => forallb unique_keys l
  | JObj kvs => bool_decide (NoDup (map fst kvs)) && forallb (λ kv, unique_keys kv.2) kvs
  | _ => true
  end.

Inductive loaded := Loaded (j : json) | NotJson | NotText.

Class KlapCrypto := {
  sha1 : string → string;
  sha256 : string → string;
  md5 : string → string;
  aes_cbc_encrypt : string → string → string → string;
  aes_cbc_decrypt : string → string → string → string;
  pkcs7_pad : string → string;
  (* [None]: ValueError *)
  pkcs7_unpad : string → option string;
  json_dumps : json → string;
  json_loads : string → loaded }.

Class KlapLaws `{KlapCrypto} : Prop := {
  sha256_length : ∀ s, String.length (sha256 s) = 32%nat;
  pad_blocks : ∀ s, (String.length (pkcs7_pad s) mod 16 = 0)%nat;
  unpad_pad : ∀ s, pkcs7_unpad (pkcs7_pad s) = Some s;
  aes_length : ∀ key iv s, String.length (aes_cbc_encrypt key iv s) = String.length s;
  aes_round_trip : ∀ key iv s, String.length key = 16%nat → String.length iv = 16%nat →
    (String.length s mod 16 = 0)%nat → aes_cbc_decrypt key iv (aes_cbc_encrypt key iv s) = s;
  loads_dumps : ∀ j, unique_keys j = true → json_loads (json_dumps j) = Loaded j }.

(** ** struct.Struct(">i"): four bytes, big-endian, signed *)

Definition SEQ_LIMIT : Z := 2 ^ 31.
(** [None]: struct.error, which is not a ValueError. *)
Definition pack_seq (n : Z) : option string :=
  if Z.leb (- SEQ_LIMIT) n && Z.ltb n SEQ_LIMIT then
    let m := (n mod 2 ^ 32)%Z in
    Some (String (byte (m / 2 ^ 24)%Z) (String (byte (m / 2 ^ 16 mod 256)%Z)
         (String (byte (m / 2 ^ 8 mod 256)%Z) (String (byte (m mod 256)%Z) ""))))
  else None.
Definition unpack_seq (s : string) : Z :=
  match s with
  | String a (String b (String c (String d _))) =>
      let m := (code a * 2 ^ 24 + code b * 2 ^ 16 + code c * 2 ^ 8 + code d)%Z in
      if Z.ltb m SEQ_LIMIT then m else (m - 2 ^ 32)%Z
  | _ => 0%Z
  end.

(** ** crypto.py *)

Record KlapSession := mksession { key : string; iv : string; sig : string; seq0 : Z }.

Inductive opened := Plaintext (s : string) | BadRequest | StructError.

Section Crypto.
Context `{KlapCrypto}.
Implicit Types (local_seed remote_seed auth : string) (seq : Z).

Definition auth_hash (email password : string) : string := sha256 (sha1 email +:+ sha1 password).

Definition derive local_seed remote_seed auth : KlapSession :=
  let s := local_seed +:+ remote_seed +:+ auth in
  let iv_seed := sha256 ("iv" +:+ s) in
  mksession (String.substring 0 16 (sha256 ("lsk" +:+ s))) (String.substring 0 12 iv_seed)
    (String.substring 0 28 (sha256 ("ldk" +:+ s))) (unpack_seq (String.substring 28 4 iv_seed)).

Definition seal (ks : KlapSession) seq (plaintext : string) : option string :=
  n ← pack_seq seq;
  let ct := aes_cbc_encrypt (key ks) (iv ks +:+ n) (pkcs7_pad plaintext) in
  Some (sha256 (sig ks +:+ n +:+ ct) +:+ ct).

Definition from_byte (n : nat) (s : string) : string := String.substring n (String.length s) s.

Definition verify_and_open (ks : KlapSession) seq (body : string) : opened :=
  if (String.length body <? 32)%nat || negb ((String.length body - 32) mod 16 =? 0)%nat then BadRequest
  else
    let sig_in := String.substring 0 32 body in
    let ct := from_byte 32 body in
    match pack_seq seq with
    | None => StructError
    | Some n =>
        if negb (String.eqb (sha256 (sig ks +:+ n +:+ ct)) sig_in) then BadRequest
        else match pkcs7_unpad (aes_cbc_decrypt (key ks) (iv ks +:+ n) ct) with
             | Some s => Plaintext s
             | None => BadRequest
             end
    end.

Definition handshake1_server_hash local_seed remote_seed auth : string := sha256 (local_seed +:+ remote_seed +:+ auth).
Definition handshake2_expected local_seed remote_seed auth : string := sha256 (remote_seed +:+ local_seed +:+ auth).
End Crypto.

(** ** server.py *)

Record server := mkserver {
  the_plug : plug;
  pending : gmap string (string * string);
  sessions : gmap string KlapSession;
  saved : gmap Z persisted }.

#[export] Instance eta_server : Eta server := fun r => mkserver (the_plug r) (pending r) (sessions r) (saved r).

Record request := mkrequest { rq_path : string; rq_body : string; rq_cookie : option string; rq_seq : option Z }.
Record response := mkresponse { status : Z; content : string; set_cookie : option string }.

Definition reply (n : Z) : response := mkresponse n "" None.

(** After the first [TP_SESSIONID=], up to a semicolon. *)
Fixpoint after_mark (mark s : string) : option string :=
  if String.prefix mark s then Some (from_byte (String.length mark) s)
  else match s with String _ s => after_mark mark s | EmptyString => None end.
Definition extract_cookie_token (cookie_header : option string) : option string :=
  rest ← after_mark "TP_SESSIONID=" (default "" cookie_header);
  let token := strip (partition ";" rest).1.1 in
  if String.eqb token "" then None else Some token.

Section Server.
Context `{KlapCrypto} (cfg : PlugConfig) (dev : device) (auth : string).
Implicit Types (sv : server) (body token : string).

Definition reset_sessions sv : server := sv <| pending := ∅ |> <| sessions := ∅ |>.
Definition save sv : server := sv <| saved ::= <[c_plug_id cfg := snapshot (the_plug sv)]> |>.

(** What the process draws for a request, and the clocks. *)
Record chance := mkchance {
  dropped : bool; mono : float; wall : float; load_noise : float; draws_of : draws;
  fresh_seed : string; fresh_token : string }.

Definition handshake1 (ch : chance) (local_seed : string) sv : response * server :=
  if negb (String.length local_seed =? 16)%nat then (reply 400, sv)
  else
    let remote_seed := fresh_seed ch in
    (mkresponse 200 (remote_seed +:+ handshake1_server_hash local_seed remote_seed auth) (Some (fresh_token ch)),
     sv <| pending ::= <[fresh_token ch := (local_seed, remote_seed)]> |>).

Definition handshake2 (cookie : option string) body sv : response * server :=
  match extract_cookie_token cookie with
  | None => (reply 403, sv)
  | Some token =>
      let found := pending sv !! token in
      let sv := sv <| pending ::= delete token |> in
      match found with
      | None => (reply 403, sv)
      | Some (local_seed, remote_seed) =>
          if negb (String.length body =? 32)%nat ||
             negb (String.eqb (handshake2_expected local_seed remote_seed auth) body)
          then (reply 403, sv)
          else (reply 200, sv <| sessions ::= <[token := derive local_seed remote_seed auth]> |>)
      end
  end.

(** [self.on_state_changed]: the state file, when the relay moved. *)
Definition relay_saved (before : bool) sv : server :=
  if Bool.eqb before (device_on (the_plug sv)) then sv else save sv.

(** [None]: an exception, which is answered with 500. *)
Definition run_method (n : draws) (req : json) sv : option (json * server) :=
  match req with
  | JObj kvs =>
      let method := default (JStr "") (assoc "method" kvs) in
      let params := or_empty (default JNull (assoc "params" kvs)) in
      '(result, p) ← dispatch cfg dev n method params (the_plug sv);
      Some (result, relay_saved (device_on (the_plug sv)) (sv <| the_plug := p |>))
  | _ => None
  end.

Definition handle_request (ch : chance) (rq : request) sv : response * server :=
  match extract_cookie_token (rq_cookie rq) ≫= (sessions sv !!.) with
  | None => (reply 403, sv)
  | Some ks =>
      match rq_seq rq with
      | None => (reply 400, sv)
      | Some seq =>
          match verify_and_open ks seq (rq_body rq) with
          | BadRequest => (reply 403, sv)
          | StructError => (reply 500, sv)
          | Plaintext s =>
              match json_loads s with
              | NotJson => (reply 400, sv)
              | NotText => (reply 500, sv)
              | Loaded req =>
                  match run_method (draws_of ch) req sv with
                  | None => (reply 500, sv)
                  | Some (result, sv) =>
                      match seal ks seq (json_dumps result) with
                      | Some body => (mkresponse 200 body None, sv)
                      | None => (reply 500, sv)
                      end
                  end
              end
          end
      end
  end.

(** The callbacks of a tick: a power cycle forgets the sessions. *)
Definition run_callbacks (o : owed) sv : server :=
  let sv := if counter_reset o then save (reset_sessions sv) else sv in
  if daily_reset o then save sv else sv.

Definition advance (ch : chance) sv : server :=
  let '(p, o) := tick cfg (mono ch) (wall ch) (load_noise ch) (the_plug sv) in
  let sv := run_callbacks o (sv <| the_plug := p |>) in
  if device_on (the_plug sv) then save sv else sv.

(** [None]: the connection is dropped. *)
Definition do_POST (ch : chance) (rq : request) sv : option response * server :=
  if (0 <? c_drop_rate cfg)%Z && dropped ch then (None, sv)
  else
    let sv := advance ch sv in
    let '(r, sv) :=
      if String.eqb (rq_path rq) "/app/handshake1" then handshake1 ch (rq_body rq) sv
      else if String.eqb (rq_path rq) "/app/handshake2" then handshake2 (rq_cookie rq) (rq_body rq) sv
      else if String.eqb (rq_path rq) "/app/request" then handle_request ch rq sv
      else if String.eqb (rq_path rq) "/app" then
        (mkresponse 200 (json_dumps (JObj [("error_code", JInt 1003)])) None, sv)
      else (reply 404, sv) in
    (Some r, sv).
End Server.

(** ** klap_probe.py *)

Record probe := mkprobe { pb_session : KlapSession; pb_seq : Z; pb_token : string }.

Section Probe.
Context `{KlapCrypto}.
Implicit Types (email pw local_seed : string) (pb : probe).

Definition auth_hash_v1 email pw : string := md5 (md5 email +:+ md5 pw).

(** The hash of the account and the body of the second handshake; [None]: exit. *)
Definition read_handshake1 email pw local_seed (r : response) : option (string * string * string) :=
  if negb (Z.eqb (status r) 200) || negb (String.length (content r) =? 48)%nat then None
  else
    let remote_seed := String.substring 0 16 (content r) in
    let server_hash := from_byte 16 (content r) in
    let ah2 := auth_hash email pw in
    let ah1 := auth_hash_v1 email pw in
    if String.eqb (sha256 (local_seed +:+ remote_seed +:+ ah2)) server_hash then
      Some (remote_seed, ah2, sha256 (remote_seed +:+ local_seed +:+ ah2))
    else if String.eqb (sha256 (local_seed +:+ ah1)) server_hash then
      Some (remote_seed, ah1, sha256 (remote_seed +:+ ah1))
    else None.

Definition start_probe local_seed remote_seed (auth token : string) : probe :=
  let ks := derive local_seed remote_seed auth in mkprobe ks (seq0 ks) token.

Definition cookie_of (token : string) : option string := Some ("TP_SESSIONID=" +:+ token).

(** [None]: struct.error. *)
Definition klap_encrypt (plaintext : string) pb : option (string * probe) :=
  let pb := mkprobe (pb_session pb) (pb_seq pb + 1) (pb_token pb) in
  body ← seal (pb_session pb) (pb_seq pb) plaintext; Some (body, pb).

Definition klap_decrypt (msg : string) pb : option string :=
  n ← pack_seq (pb_seq pb);
  pkcs7_unpad (aes_cbc_decrypt (key (pb_session pb)) (iv (pb_session pb) +:+ n) (from_byte 32 msg)).

Definition inner (method : string) (params : option json) : json :=
  JObj (("method", JStr method) :: match params with Some p => [("params", p)] | None => [] end).
End Probe.

(** ** Bytes *)

Section Bytes.
Implicit Types (s t : string).

Lemma length_append s t : String.length (s +:+ t) = (String.length s + String.length t)%nat.
Proof. induction s as [|a s IH]; [done|]. rewrite app_cons. simpl. by rewrite IH. Qed.

Lemma substring_length (n m : nat) s : (n + m <= String.length s)%nat → String.length (String.substring n m s) = m.
Proof.
  revert n m. induction s as [|a s IH]; intros [|n] [|m] H; simpl in *; try done; try lia.
  - f_equal. apply (IH 0%nat). lia.
  - apply IH. lia.
  - apply (IH n (S m)). lia.
Qed.

Lemma substring_whole s (k : nat) : (String.length s <= k)%nat → String.substring 0 k s = s.
Proof. revert k. induction s as [|c s IH]; intros [|k] Hk; simpl in *; [done..|lia|]. by rewrite IH by lia. Qed.

Lemma substring_front s t : String.substring 0 (String.length s) (s +:+ t) = s.
Proof. induction s as [|a s IH]; [by destruct t|]. rewrite app_cons. simpl. by rewrite IH. Qed.

Lemma substring_back s t (m : nat) : (String.length t <= m)%nat → String.substring (String.length s) m (s +:+ t) = t.
Proof. intros Hm. induction s as [|a s IH]; [by apply substring_whole|]. rewrite app_cons. simpl. exact IH. Qed.

Lemma from_byte_app s t : from_byte (String.length s) (s +:+ t) = t.
Proof. apply substring_back. rewrite length_append. lia. Qed.

Lemma pack_seq_some n : (- SEQ_LIMIT <= n < SEQ_LIMIT)%Z → ∃ p, pack_seq n = Some p ∧ String.length p = 4%nat.
Proof.
  intros [H1 H2]. unfold pack_seq. rewrite (proj2 (Z.leb_le _ _) H1), (proj2 (Z.ltb_lt _ _) H2). by eexists.
Qed.

Lemma pack_seq_length n p : pack_seq n = Some p → String.length p = 4%nat.
Proof. unfold pack_seq. case_match; [|done]. by intros [= <-]. Qed.

Lemma unpack_pack n p : pack_seq n = Some p → unpack_seq p = n.
Proof.
  unfold pack_seq, SEQ_LIMIT. destruct (_ && _) eqn:Hn; [|done]. intros [= <-]. unfold unpack_seq, SEQ_LIMIT.
  apply andb_true_iff in Hn as [H1%Z.leb_le H2%Z.ltb_lt]. set (m := (n mod 2 ^ 32)%Z).
  assert (Hm : (0 <= m < 2 ^ 32)%Z) by (apply Z.mod_pos_bound; lia).
  assert (Hs : (m / 2 ^ 24 * 2 ^ 24 + m / 2 ^ 16 mod 256 * 2 ^ 16 + m / 2 ^ 8 mod 256 * 2 ^ 8 + m mod 256 = m)%Z).
  { pose proof (Z.div_mod m (2 ^ 8)). pose proof (Z.div_mod (m / 2 ^ 8) (2 ^ 8)). pose proof (Z.div_mod (m / 2 ^ 16) (2 ^ 8)).
    assert (m / 2 ^ 8 / 2 ^ 8 = m / 2 ^ 16 ∧ m / 2 ^ 16 / 2 ^ 8 = m / 2 ^ 24)%Z as [E1 E2] by (rewrite !Z.div_div by lia; done).
    change 256%Z with (2 ^ 8)%Z. lia. }
  rewrite !code_byte; [|apply Z.mod_pos_bound; lia..|split; [apply Z.div_pos; lia|apply Z.div_lt_upper_bound; lia]].
  rewrite Hs. subst m. destruct (Z_lt_dec n 0).
  - assert (n mod 2 ^ 32 = n + 2 ^ 32)%Z as -> by (symmetry; apply Z.mod_unique with (-1)%Z; lia).
    case_match; [rewrite Z.ltb_lt in *; lia|lia].
  - rewrite Z.mod_small by lia. by rewrite (proj2 (Z.ltb_lt _ _)) by lia.
Qed.

Lemma unpack_range s : (- SEQ_LIMIT <= unpack_seq s < SEQ_LIMIT)%Z.
Proof.
  assert (Hc : ∀ c, (0 <= code c < 256)%Z).
  { intros c. unfold code. pose proof (nat_ascii_bounded c). lia. }
  unfold unpack_seq, SEQ_LIMIT. destruct s as [|a [|b [|c [|d s]]]]; try lia.
  pose proof (Hc a). pose proof (Hc b). pose proof (Hc c). pose proof (Hc d).
  case_match; [rewrite Z.ltb_lt in *|rewrite Z.ltb_ge in *]; lia.
Qed.
End Bytes.

(** ** Sessions *)

Section Sessions.
Context `{KlapLaws}.
Implicit Types (ks : KlapSession) (seq : Z).

Record session_wf ks : Prop := {
  sw_key : String.length (key ks) = 16%nat;
  sw_iv : String.length (iv ks) = 12%nat;
  sw_seq : (- SEQ_LIMIT <= seq0 ks < SEQ_LIMIT)%Z }.

Lemma derive_wf local_seed remote_seed auth : session_wf (derive local_seed remote_seed auth).
Proof using Type*. split; simpl; [apply substring_length; rewrite sha256_length; lia..|apply unpack_range]. Qed.

Lemma seal_some ks seq s : (- SEQ_LIMIT <= seq < SEQ_LIMIT)%Z → ∃ b, seal ks seq s = Some b.
Proof. intros Hn. unfold seal. destruct (pack_seq_some seq Hn) as (n & -> & _). by eexists. Qed.

(** What one side seals, the other opens: the signature is checked, the padding
    undone. *)
Lemma open_seal ks seq s b : session_wf ks → seal ks seq s = Some b →
  verify_and_open ks seq b = Plaintext s ∧
  ∀ n, pack_seq seq = Some n → pkcs7_unpad (aes_cbc_decrypt (key ks) (iv ks +:+ n) (from_byte 32 b)) = Some s.
Proof using Type*.
  intros [Hk Hi _] Hs. unfold seal in Hs. destruct (pack_seq seq) as [n|] eqn:Hn; simpl in Hs; [|done].
  set (ct := aes_cbc_encrypt _ _ _) in Hs. injection Hs as <-.
  assert (Hct : (String.length ct mod 16 = 0)%nat) by (unfold ct; rewrite aes_length; apply pad_blocks).
  assert (Hopen : pkcs7_unpad (aes_cbc_decrypt (key ks) (iv ks +:+ n) ct) = Some s).
  { unfold ct. rewrite aes_round_trip; [apply unpad_pad|done| |apply pad_blocks].
    by rewrite length_append, Hi, (pack_seq_length _ _ Hn). }
  clearbody ct. set (sg := sha256 _).
  assert (Hsg : String.length sg = 32%nat) by apply sha256_length.
  assert (Hfront : String.substring 0 32 (sg +:+ ct) = sg) by (rewrite <- Hsg; apply substring_front).
  assert (Hback : from_byte 32 (sg +:+ ct) = ct) by (rewrite <- Hsg; apply from_byte_app).
  split; [|intros n' [= <-]; by rewrite Hback].
  unfold verify_and_open. rewrite Hfront, Hback, length_append, Hsg, Hn.
  replace (32 + String.length ct - 32)%nat with (String.length ct) by lia. rewrite Hct.
  rewrite (proj2 (Nat.ltb_ge _ _)) by lia. fold sg. simpl. by rewrite String.eqb_refl, Hopen.
Qed.

(** A sequence number beyond 32 bits is not refused as a bad request: it raises
    struct.error, which the handler of ValueError lets through. *)
Theorem wide_seq_raises ks seq body : (32 <= String.length body)%nat → ((String.length body - 32) mod 16 = 0)%nat →
  ¬ (- SEQ_LIMIT <= seq < SEQ_LIMIT)%Z → verify_and_open ks seq body = StructError.
Proof.
  intros Hl Hb Hn. unfold verify_and_open. rewrite (proj2 (Nat.ltb_ge _ _)) by done. rewrite Hb. simpl.
  unfold pack_seq. destruct (_ && _) eqn:Hp; [|done]. apply andb_true_iff in Hp as [H1%Z.leb_le H2%Z.ltb_lt]. lia.
Qed.
End Sessions.

(** ** The server and the probe *)

Section Protocol.
Context `{KlapLaws} (cfg : PlugConfig) (dev : device) (auth : string).
Implicit Types (sv : server) (ch : chance) (rq : request) (token : string) (pb : probe).

(** No counter reset is to come: a power cycle would end every session. *)
Definition quiet sv : Prop := reset_deadline (the_plug sv) = None.

Lemma tick_deadline now_mono now_wall noise p : let '(q, o) := tick cfg now_mono now_wall noise p in
  reset_deadline q = reset_deadline p ∧ device_on q = device_on p ∧ (reset_deadline p = None → counter_reset o = false).
Proof.
  unfold tick, reset_daily, reset_counters, integrate. cbn zeta.
  assert (∀ f w, due f None w = false) as Hd by (intros f w; unfold due; apply andb_false_r).
  split_and!; [repeat case_match; done..|]. intros Hn. simpl. match goal with |- context [if ?b then _ else _] => destruct b end; simpl; rewrite Hn; apply Hd.
Qed.

Lemma advance_relay ch sv : device_on (the_plug (advance cfg ch sv)) = device_on (the_plug sv).
Proof.
  unfold advance. pose proof (tick_deadline (mono ch) (wall ch) (load_noise ch) (the_plug sv)) as Ht.
  destruct (tick _ _ _ _ _) as [p o]. destruct Ht as (_ & Ht & _). unfold run_callbacks, save, reset_sessions.
  rewrite <- Ht. destruct (counter_reset o), (daily_reset o); simpl; destruct (device_on p) eqn:E; simpl; congruence.
Qed.

Lemma advance_quiet ch sv : quiet sv → let sv' := advance cfg ch sv in
  quiet sv' ∧ pending sv' = pending sv ∧ sessions sv' = sessions sv.
Proof.
  intros Hq. unfold advance. cbn zeta. pose proof (tick_deadline (mono ch) (wall ch) (load_noise ch) (the_plug sv)) as Ht.
  destruct (tick _ _ _ _ _) as [p o]. destruct Ht as (Ht & _ & Hc). unfold quiet in *.
  unfold run_callbacks, save. rewrite Hc by done. rewrite Hq in Ht. destruct (daily_reset o); simpl; by destruct (device_on p).
Qed.

(** Tokens are hexadecimal, as [secrets.token_hex] makes them. *)
Definition token_ok token : Prop := all_of is_hex token = true ∧ token ≠ "".

Lemma prefix_app (s t : string) : String.prefix s (s +:+ t) = true.
Proof. induction s as [|a s IH]; [by destruct t|]. rewrite app_cons. simpl. rewrite IH. by destruct (ascii_dec a a). Qed.

Lemma after_mark_app (s t : string) : after_mark s (s +:+ t) = Some t.
Proof.
  pose proof (prefix_app s t) as Hp. pose proof (from_byte_app s t) as Hf.
  destruct (s +:+ t) as [|a u]; cbn [after_mark]; by rewrite Hp, Hf.
Qed.

Lemma cookie_token token : token_ok token → extract_cookie_token (cookie_of token) = Some token.
Proof.
  intros [Hh Hne]. unfold extract_cookie_token, cookie_of. simpl default.
  rewrite after_mark_app. simpl.
  assert (Hs : has_char ";" token = false) by by eapply has_char_of.
  rewrite (partition_none _ _ Hs). simpl.
  assert (no_space token) as Ht.
  { eapply all_of_mono; [|exact Hh]. intros c. unfold is_hex, is_digit, between.
    rewrite negb_true_iff, !orb_true_iff, !andb_true_iff, !Z.leb_le. intros Hc. apply not_true_iff_false.
    rewrite is_space_code, orb_true_iff, !andb_true_iff, !Z.leb_le. lia. }
  rewrite strip_id by by apply tight_no_space. by destruct (String.eqb_spec token "").
Qed.

(** A probe and the server hold the same session. *)
Record linked pb sv : Prop := {
  lk_session : sessions sv !! pb_token pb = Some (pb_session pb);
  lk_wf : session_wf (pb_session pb);
  lk_token : token_ok (pb_token pb) }.

Definition answered ch sv : Prop := (0 <? c_drop_rate cfg)%Z && dropped ch = false.

Lemma handshake2_ok token local_seed remote_seed sv : token_ok token → pending sv !! token = Some (local_seed, remote_seed) →
  handshake2 auth (cookie_of token) (handshake2_expected local_seed remote_seed auth) sv =
  (reply 200, sv <| pending ::= delete token |> <| sessions ::= <[token := derive local_seed remote_seed auth]> |>).
Proof using Type*.
  intros Ht Hp. unfold handshake2. rewrite cookie_token, Hp by done. cbv zeta.
  assert (String.length (handshake2_expected local_seed remote_seed auth) = 32%nat) as -> by apply sha256_length.
  rewrite String.eqb_refl. reflexivity.
Qed.

(** With the account's credentials the two handshakes succeed, and both sides hold
    the same keys; a plug of another account is found out at the first. *)
Theorem probe_connects email pw local_seed ch1 ch2 sv :
  auth = auth_hash email pw → quiet sv → answered ch1 sv → answered ch2 sv →
  String.length local_seed = 16%nat → String.length (fresh_seed ch1) = 16%nat → token_ok (fresh_token ch1) →
  let '(r1, sv1) := do_POST cfg dev auth ch1 (mkrequest "/app/handshake1" local_seed None None) sv in
  ∃ resp remote_seed body, r1 = Some resp ∧ set_cookie resp = Some (fresh_token ch1) ∧
    read_handshake1 email pw local_seed resp = Some (remote_seed, auth, body) ∧
  let '(r2, sv2) := do_POST cfg dev auth ch2 (mkrequest "/app/handshake2" body (cookie_of (fresh_token ch1)) None) sv1 in
  r2 = Some (reply 200) ∧ quiet sv2 ∧ linked (start_probe local_seed remote_seed auth (fresh_token ch1)) sv2.
Proof using Type*.
  intros Hauth Hq H1 H2 Hls Hrs Htok. unfold do_POST. rewrite H1. simpl.
  destruct (advance_quiet ch1 sv Hq) as (Hq1 & Hp1 & Hs1). unfold handshake1. rewrite Hls. simpl.
  eexists _, (fresh_seed ch1), (handshake2_expected local_seed (fresh_seed ch1) auth).
  split; [done|]. split; [done|]. split.
  - unfold read_handshake1, handshake1_server_hash. simpl.
    set (h := sha256 _). assert (Hf : String.substring 0 16 (fresh_seed ch1 +:+ h) = fresh_seed ch1)
      by (rewrite <- Hrs; apply substring_front).
    assert (Hb : from_byte 16 (fresh_seed ch1 +:+ h) = h) by (rewrite <- Hrs; apply from_byte_app).
    rewrite Hf, Hb, length_append, Hrs. unfold h at 1. rewrite sha256_length, <- Hauth. fold h. simpl.
    by rewrite String.eqb_refl.
  - rewrite H2. simpl. set (sv1 := (advance cfg ch1 sv) <| pending ::= <[fresh_token ch1 := (local_seed, fresh_seed ch1)]> |>).
    assert (Hq1' : quiet sv1) by exact Hq1.
    assert (Hpend : pending sv1 !! fresh_token ch1 = Some (local_seed, fresh_seed ch1)) by apply lookup_insert_eq.
    clearbody sv1. destruct (advance_quiet ch2 sv1 Hq1') as (Hq2 & Hp2 & Hs2). rewrite <- Hp2 in Hpend.
    clear Hp2 Hs2. revert Hq2 Hpend. generalize (advance cfg ch2 sv1). intros sv2 Hq2 Hpend.
    rewrite (handshake2_ok _ local_seed (fresh_seed ch1)) by done. split; [reflexivity|]. split; [exact Hq2|].
    split; [apply lookup_insert_eq|apply derive_wf|exact Htok].
Qed.

Lemma inner_params method params kvs : inner method params = JObj kvs →
  assoc "method" kvs = Some (JStr method) ∧ default JNull (assoc "params" kvs) = default JNull params.
Proof. intros [= <-]. split; [reflexivity|]. by destruct params. Qed.

Lemma inner_unique method params : unique_keys (default JNull params) = true → unique_keys (inner method params) = true.
Proof. destruct params as [p|]; simpl; [|done]. intros ->. done. Qed.

Lemma request_ok ch pb sv seq b method params : linked pb sv → unique_keys (default JNull params) = true →
  seal (pb_session pb) seq (json_dumps (inner method params)) = Some b →
  handle_request cfg dev ch (mkrequest "/app/request" b (cookie_of (pb_token pb)) (Some seq)) sv =
  match dispatch cfg dev (draws_of ch) (JStr method) (or_empty (default JNull params)) (the_plug sv) with
  | None => (reply 500, sv)
  | Some (result, p) =>
      let sv' := relay_saved cfg (device_on (the_plug sv)) (sv <| the_plug := p |>) in
      match seal (pb_session pb) seq (json_dumps result) with
      | Some body => (mkresponse 200 body None, sv')
      | None => (reply 500, sv')
      end
  end.
Proof using Type*.
  intros [Hs Hwf Htok] Hu Hb. unfold handle_request. cbn [rq_cookie rq_seq rq_body]. rewrite cookie_token by done.
  cbn [mbind option_bind]. rewrite Hs, (proj1 (open_seal _ _ _ _ Hwf Hb)), loads_dumps by by apply inner_unique.
  unfold run_method.
  destruct (inner method params) as [| | | | | |kvs] eqn:Hin; try discriminate Hin.
  destruct (inner_params _ _ _ Hin) as [-> ->]. simpl default. by destruct (dispatch _ _ _ _ _ _) as [[result p]|].
Qed.

(** A request of a probe that is linked gets the plug's answer to it, and the link
    goes on with the next number. *)
Theorem probe_asks ch pb sv method params : linked pb sv → quiet sv → answered ch sv →
  unique_keys (default JNull params) = true → (- SEQ_LIMIT <= pb_seq pb + 1 < SEQ_LIMIT)%Z →
  ∃ body pb', klap_encrypt (json_dumps (inner method params)) pb = Some (body, pb') ∧ pb_seq pb' = (pb_seq pb + 1)%Z ∧
  let '(r, sv') := do_POST cfg dev auth ch (mkrequest "/app/request" body (cookie_of (pb_token pb)) (Some (pb_seq pb'))) sv in
  linked pb' sv' ∧ quiet sv' ∧
  match dispatch cfg dev (draws_of ch) (JStr method) (or_empty (default JNull params)) (the_plug (advance cfg ch sv)) with
  | None => r = Some (reply 500)
  | Some (result, p) => the_plug sv' = p ∧ ∃ resp, r = Some resp ∧ status resp = 200%Z ∧
      klap_decrypt (content resp) pb' = Some (json_dumps result)
  end.
Proof using Type*.
  intros [Hs Hwf Htok] Hq Han Hu Hseq. destruct (seal_some (pb_session pb) _ (json_dumps (inner method params)) Hseq) as [b Hb].
  exists b, (mkprobe (pb_session pb) (pb_seq pb + 1) (pb_token pb)). unfold klap_encrypt. simpl. rewrite Hb. simpl.
  split; [done|]. split; [done|]. unfold do_POST. rewrite Han. destruct (advance_quiet ch sv Hq) as (Hq1 & _ & Hs1).
  rewrite <- Hs1 in Hs. clear Hs1. revert Hq1 Hs. generalize (advance cfg ch sv). intros sv1 Hq1 Hs.
  cbn [rq_path]. cbv [String.eqb Ascii.eqb Bool.eqb]. rewrite (request_ok ch pb sv1 _ b method params) by done.
  destruct (dispatch cfg dev _ _ _ (the_plug sv1)) as [[result p]|] eqn:Hd; [|by split_and!].
  destruct (seal_some (pb_session pb) _ (json_dumps result) Hseq) as [b2 Hb2]. rewrite Hb2. cbv zeta.
  assert (Hp : reset_deadline p = None).
  { destruct (dispatch_relay _ _ _ _ _ _ _ _ Hd) as [->|(_ & v & _ & ->)]; exact Hq1. }
  assert (Hr : ∀ x, the_plug (relay_saved cfg x (sv1 <| the_plug := p |>)) = p ∧
    sessions (relay_saved cfg x (sv1 <| the_plug := p |>)) = sessions sv1).
  { intros x. unfold relay_saved. by case_match. }
  destruct (Hr (device_on (the_plug sv1))) as [Hr1 Hr2].
  split; [by split; [rewrite Hr2|..]|]. split; [unfold quiet; by rewrite Hr1|]. split; [done|].
  eexists. split; [reflexivity|]. split; [done|]. unfold klap_decrypt. cbn [pb_session pb_seq content].
  destruct (pack_seq_some _ Hseq) as (n & Hn & _). rewrite Hn. by apply (proj2 (open_seal _ _ _ _ Hwf Hb2)).
Qed.

Lemma handshake1_same ch local_seed sv : sessions (handshake1 auth ch local_seed sv).2 = sessions sv ∧
  the_plug (handshake1 auth ch local_seed sv).2 = the_plug sv.
Proof. unfold handshake1. by case_match. Qed.

Lemma handshake2_grants cookie body sv token ks : sessions (handshake2 auth cookie body sv).2 !! token = Some ks →
  sessions sv !! token = Some ks ∨
  (extract_cookie_token cookie = Some token ∧ ∃ local_seed remote_seed,
     pending sv !! token = Some (local_seed, remote_seed) ∧
     body = handshake2_expected local_seed remote_seed auth ∧ ks = derive local_seed remote_seed auth).
Proof.
  unfold handshake2. destruct (extract_cookie_token cookie) as [t|]; [|by left].
  destruct (pending sv !! t) as [[ls rs]|] eqn:Hp; [|by left].
  destruct (_ || _) eqn:Hb; [by left|]. apply orb_false_iff in Hb as [_ Hb%negb_false_iff%String.eqb_eq]. simpl.
  destruct (decide (t = token)) as [->|Hne]; [|by rewrite lookup_insert_ne; [left|]].
  rewrite lookup_insert_eq. intros [= <-]. right. split; [done|]. by exists ls, rs.
Qed.

Lemma handshake2_plug cookie body sv : the_plug (handshake2 auth cookie body sv).2 = the_plug sv.
Proof. unfold handshake2. by repeat case_match. Qed.

(** A signed request of a session that is open, and that switches the relay. *)
Definition switches rq sv on : Prop := ∃ token ks seq n s req v,
  extract_cookie_token (rq_cookie rq) = Some token ∧ sessions sv !! token = Some ks ∧
  rq_seq rq = Some seq ∧ pack_seq seq = Some n ∧
  String.substring 0 32 (rq_body rq) = sha256 (sig ks +:+ n +:+ from_byte 32 (rq_body rq)) ∧
  verify_and_open ks seq (rq_body rq) = Plaintext s ∧ json_loads s = Loaded (JObj req) ∧
  jstr_eqb (default (JStr "") (assoc "method" req)) "set_device_info" = true ∧
  lookup_param "device_on" (or_empty (default JNull (assoc "params" req))) = Some (Some v) ∧ truthy v = on.

Lemma opened_signed ks seq body s : verify_and_open ks seq body = Plaintext s →
  ∃ n, pack_seq seq = Some n ∧ String.substring 0 32 body = sha256 (sig ks +:+ n +:+ from_byte 32 body).
Proof.
  unfold verify_and_open. case_match; [done|]. destruct (pack_seq seq) as [n|]; [|done].
  destruct (String.eqb_spec (sha256 (sig ks +:+ n +:+ from_byte 32 body)) (String.substring 0 32 body)) as [E|]; [|done].
  intros _. by exists n.
Qed.

Lemma request_same ch rq sv : sessions (handle_request cfg dev ch rq sv).2 = sessions sv ∧
  (device_on (the_plug (handle_request cfg dev ch rq sv).2) = device_on (the_plug sv) ∨
   switches rq sv (device_on (the_plug (handle_request cfg dev ch rq sv).2))).
Proof.
  unfold handle_request. destruct (extract_cookie_token (rq_cookie rq)) as [token|] eqn:Ht; simpl; [|by split; [|left]].
  destruct (sessions sv !! token) as [ks|] eqn:Hks; [|by split; [|left]].
  destruct (rq_seq rq) as [seq|] eqn:Hseq; [|by split; [|left]].
  destruct (verify_and_open ks seq (rq_body rq)) as [s| |] eqn:Hv; [|by split; [|left]..].
  destruct (json_loads s) as [req| |] eqn:Hj; [|by split; [|left]..].
  destruct (run_method cfg dev (draws_of ch) req sv) as [[result sv']|] eqn:Hm; [|by split; [|left]].
  assert (Hsv : sessions sv' = sessions sv ∧ (device_on (the_plug sv') = device_on (the_plug sv) ∨
    switches rq sv (device_on (the_plug sv')))); [|by destruct (seal ks seq (json_dumps result))].
  destruct req as [| | | | | |kvs]; try discriminate Hm. unfold run_method in Hm.
  destruct (dispatch _ _ _ _ _ _) as [[r p]|] eqn:Hd; [|done]. simpl in Hm. injection Hm as <- <-.
  assert (Hr : ∀ x, the_plug (relay_saved cfg x (sv <| the_plug := p |>)) = p ∧
    sessions (relay_saved cfg x (sv <| the_plug := p |>)) = sessions sv) by (intros x; unfold relay_saved; by case_match).
  destruct (Hr (device_on (the_plug sv))) as [-> ->]. split; [done|].
  destruct (dispatch_relay _ _ _ _ _ _ _ _ Hd) as [->|(Hset & v & Hv' & ->)]; [by left|]. right.
  destruct (opened_signed _ _ _ _ Hv) as (n & Hn & Hsig). exists token, ks, seq, n, s, kvs, v. by split_and!.
Qed.

Lemma advance_grants ch sv : (∀ t k, sessions (advance cfg ch sv) !! t = Some k → sessions sv !! t = Some k) ∧
  (∀ t k, pending (advance cfg ch sv) !! t = Some k → pending sv !! t = Some k).
Proof.
  unfold advance. destruct (tick _ _ _ _ _) as [p o]. unfold run_callbacks, save, reset_sessions.
  destruct (counter_reset o), (daily_reset o); simpl; case_match; simpl; (split; intros t k; [|]); by rewrite ?lookup_empty.
Qed.

(** A session is granted to one who answers the handshake with the hash of both
    seeds and of the plug's account, and to no one else. *)
Theorem session_granted ch rq sv r sv' token ks : do_POST cfg dev auth ch rq sv = (r, sv') →
  sessions sv' !! token = Some ks → sessions sv !! token = Some ks ∨
  (extract_cookie_token (rq_cookie rq) = Some token ∧ ∃ local_seed remote_seed,
     pending sv !! token = Some (local_seed, remote_seed) ∧
     rq_body rq = handshake2_expected local_seed remote_seed auth ∧ ks = derive local_seed remote_seed auth).
Proof.
  unfold do_POST. case_match; [intros [= _ <-]; by left|].
  destruct (advance_grants ch sv) as [Ha Hpd]. revert Ha Hpd. generalize (advance cfg ch sv). intros sv1 Ha Hpd.
  destruct (String.eqb _ "/app/handshake1"); [|destruct (String.eqb _ "/app/handshake2"); [|destruct (String.eqb _ "/app/request");
    [|destruct (String.eqb _ "/app"); intros [= _ <-]; left; by apply Ha]]].
  - pose proof (proj1 (handshake1_same ch (rq_body rq) sv1)) as Hs. destruct (handshake1 _ _ _ sv1) as [r1 sv2].
    intros [= _ <-]. simpl in Hs. rewrite Hs. left. by apply Ha.
  - pose proof (λ H, handshake2_grants (rq_cookie rq) (rq_body rq) sv1 token ks H) as Hs.
    destruct (handshake2 _ _ _ sv1) as [r1 sv2]. intros [= _ <-] Hk. simpl in Hs.
    destruct (Hs Hk) as [?|(? & ls & rs & ? & ?)]; [left; by apply Ha|right]. split; [done|]. exists ls, rs. split; [by apply Hpd|done].
  - pose proof (proj1 (request_same ch rq sv1)) as Hs. destruct (handle_request _ _ _ _ sv1) as [r1 sv2].
    intros [= _ <-]. simpl in Hs. rewrite Hs. left. by apply Ha.
Qed.

(** The relay moves only for a request that is signed under an open session, to
    where its [device_on] says. *)
Theorem relay_guarded ch rq sv r sv' : do_POST cfg dev auth ch rq sv = (r, sv') →
  device_on (the_plug sv') = device_on (the_plug sv) ∨ switches rq sv (device_on (the_plug sv')).
Proof.
  unfold do_POST. case_match; [intros [= _ <-]; by left|].
  pose proof (advance_relay ch sv) as Hrel. destruct (advance_grants ch sv) as [Ha _].
  revert Ha Hrel. generalize (advance cfg ch sv). intros sv1 Ha Hrel. rewrite <- Hrel.
  destruct (String.eqb _ "/app/handshake1"); [|destruct (String.eqb _ "/app/handshake2"); [|destruct (String.eqb _ "/app/request");
    [|destruct (String.eqb _ "/app"); intros [= _ <-]; by left]]].
  - pose proof (proj2 (handshake1_same ch (rq_body rq) sv1)) as Hs. destruct (handshake1 _ _ _ sv1) as [r1 sv2].
    intros [= _ <-]. simpl in Hs. rewrite Hs. by left.
  - pose proof (handshake2_plug (rq_cookie rq) (rq_body rq) sv1) as Hs. destruct (handshake2 _ _ _ sv1) as [r1 sv2].
    intros [= _ <-]. simpl in Hs. rewrite Hs. by left.
  - pose proof (proj2 (request_same ch rq sv1)) as Hs. destruct (handle_request _ _ _ _ sv1) as [r1 sv2].
    intros [= _ <-]. simpl in Hs. destruct Hs as [Hs|(token & ks & seq & n & s & req & v & H2 & H3 & Hrest)]; [by left|].
    right. exists token, ks, seq, n, s, req, v. split; [done|]. split; [by apply Ha|done].
Qed.
End Protocol.
