(* ===== verification/Sessions.v ===== *)
(** * routers/sessions.py: the driver's session endpoints

    The start is split like [begin_active_session]: [start_claim] is everything
    up to the first commit.  Rate limits are in [RateLimit], the rendering of
    responses is left out beyond the values computed here. *)

From S2P Require Import Prelude Rounding PyNum Money Models Slots Config Billing TelemetryStore.
From S2P Require Import World Hoare Wallet Commands Caps Pricing Reservations Lifecycle.
From S2P Require Import Ownership SessionStart Invoices.

Section Sessions.
Context `{cfg : Config}.
Implicit Types (d : db) (uid now : Z) (plug : Plug.t) (s : ChargingSession.t).

(** ** POST /api/sessions/start *)

Definition active_of uid s : bool := (ChargingSession.user_id s =? uid) && is_active s.

(** [plug.group_id and group and not group.is_public] needs a membership. *)
Definition check_access uid plug : M unit :=
  access ← user_can_access_plug uid plug;
  refuse (negb access) 403 "You don't have access to this plug. Join the group first.".

(** The BOOKED window of the plug that contains [now]. *)
Definition covers_now plug_id now (r : Reservation.t) : bool :=
  on_plug plug_id r && is_booked r && (Reservation.start_at r <=? now) &&
  (now <? Reservation.end_at r).

Definition covering_reservation plug_id now d : option (Z * Reservation.t) :=
  head (order_by (λ x, Reservation.start_at x.2)
    (select (λ _ r, covers_now plug_id now r) (reservations d))).

(** The gates before the claim: the plug, its gateway, the caller's own booking. *)
Definition start_gates uid plug_id now : M (Plug.t * Gateway.t * option Z) :=
  u ← query (λ d, users d !! uid);
  _ ← scalar_one u;
  active_count ← query (λ d, count (active_of uid) (sessions d));
  refuse (MAX_ACTIVE_SESSIONS_PER_USER <=? active_count) 409 "active session limit";;
  plug ← query (λ d, plugs d !! plug_id);
  plug ← or_raise plug 404 "Plug not found.";
  check_access uid plug;;
  refuse (bool_decide (Plug.status plug = OCCUPIED)) 409 "This plug is currently in use.";;
  refuse (negb (bool_decide (Plug.status plug = AVAILABLE))) 409 "This plug is out of service.";;
  _ ← expire_lapsed_reservations (on_plug plug_id) now;
  covering ← query (covering_reservation plug_id now);
  refuse (match covering with Some (_, r) => negb (of_user uid r) | None => false end)
    409 "Plug is reserved.";;
  gw ← query (λ d, gateways d !! Plug.gateway_id plug);
  gateway ← scalar_one gw;
  refuse (negb (gateway_is_live gateway now)) 409 "This charger's gateway is offline.";;
  refuse (bool_decide (is_Some (Plug.last_telemetry_at plug)) && negb (plug_is_powered plug now))
    409 "This charger has no power right now.";;
  mret (plug, gateway, fst <$> covering).

Definition start_claim uid plug_id (max_kwh : option float) (max_duration : option Z) now
    : M (Plug.t * option Z * (Z * money)) :=
  '(plug, gateway, covering) ← start_gates uid plug_id now;
  claim ← begin_claim uid plug_id plug gateway max_kwh max_duration covering now;
  mret (plug, covering, claim).

(** Another member's booking ahead of this walk-up session. *)
Definition warn_horizon (max_duration : option Z) : Z :=
  match max_duration with
  | None | Some 0 => RESERVATION_WALKUP_WARN_LOOKAHEAD
  | Some n => seconds n
  end.

Definition warn_reservation_ahead uid plug_id (max_duration : option Z) (sid now : Z) : M unit :=
  catch
    (upcoming ← next_conflicting_reservation plug_id uid (now + warn_horizon max_duration) now;
     when (bool_decide (is_Some upcoming))
       (emit (Notify uid "reservation_ahead" "warning" (Some plug_id) (Some sid))))
    (λ _, mret tt).

Definition start_charging_session uid plug_id (max_kwh : option float) (max_duration : option Z) now
    : M Z :=
  '(plug, covering, (sid, rate)) ← start_claim uid plug_id max_kwh max_duration now;
  sid ← begin_publish sid plug_id plug rate max_kwh max_duration covering now;
  warn_reservation_ahead uid plug_id max_duration sid now;;
  mret sid.

(** ** POST /api/sessions/stop *)

Definition owned_session uid sid d : option ChargingSession.t :=
  s ← sessions d !! sid; if ChargingSession.user_id s =? uid then Some s else None.

Definition stop_charging_session uid sid now : M receipt :=
  result ← finalize_charging_session sid (Some uid) None now;
  match result with
  | Some r => mret r
  | None =>
      check ← query (owned_session uid sid);
      _ ← or_raise check 404 "Session not found.";
      raise (HTTPException 400 "This session is not active.")
  end.

(** ** PATCH /api/sessions/{session_id}/limits *)

Definition with_limits (max_kwh : option float) (max_duration : option Z) s : ChargingSession.t :=
  s <| ChargingSession.max_kwh := match max_kwh with Some k => Some k
                                  | None => ChargingSession.max_kwh s end |>
    <| ChargingSession.max_duration_seconds := match max_duration with Some n => Some n
                                  | None => ChargingSession.max_duration_seconds s end |>.

Definition accrued_cost s : money :=
  to_money_amount (session_cost s (ChargingSession.energy_kwh s)).

(** The re-sized hold, given the worst rate ahead and the available balance. *)
Definition resized_hold s (hold : money) (k : float) (max_rate available : money) : money :=
  let headroom := available + hold in
  let resized := to_money_amount (Z.min headroom (energy_cost k (PDec (dec_of_money max_rate)))) in
  to_money_amount (Z.max (accrued_cost s) resized).

Definition resize_hold uid s plug now : M ChargingSession.t :=
  match ChargingSession.hold_coins s, ChargingSession.max_kwh s with
  | Some hold, Some k =>
      max_rate ← query (λ d, max_rate_over_window d plug now
                               (hold_window (ChargingSession.max_duration_seconds s)));
      available ← available_balance uid;
      mret (s <| ChargingSession.hold_coins := Some (resized_hold s hold k max_rate available) |>)
  | _, _ => mret s
  end.

Definition is_none {A} (o : option A) : bool := match o with None => true | Some _ => false end.

Definition update_session_limits uid sid (max_kwh : option float) (max_duration : option Z) now
    : M ChargingSession.t :=
  refuse (is_none max_kwh && is_none max_duration)
    400 "Provide max_kwh and/or max_duration_seconds to update.";;
  u ← query (λ d, users d !! uid);
  _ ← or_raise u 404 "User not found.";
  session ← query (owned_session uid sid);
  s ← or_raise session 404 "Session not found.";
  refuse (negb (is_active s)) 409 "This session is not active.";;
  refuse (match max_kwh with Some k => k <? ChargingSession.energy_kwh s | None => false end)
    409 "target is below energy already delivered";;
  plug ← query (λ d, plugs d !! ChargingSession.plug_id s);
  plug ← scalar_one plug;
  s' ← resize_hold uid (with_limits max_kwh max_duration s) plug now;
  set_session sid (λ _, s');;
  commit;;
  _ ← send_plug_limits (Plug.gateway_id plug) (ChargingSession.plug_id s')
        (firmware_max_kwh (ChargingSession.max_kwh s'))
        (firmware_duration (ChargingSession.max_duration_seconds s'))
        (Plug.local_ip plug) (Some (effective_plug_cap plug));
  mret s'.

(** ** GET /api/sessions/active, /history *)

Record active_row := mkactive {
  a_session_id : Z;
  a_session : ChargingSession.t;
  a_plug_name : string;
  a_cost_coins : float }.

Definition joined {A} (key : A → Z) d (rows : list (Z * A)) : list (Z * A * string) :=
  omap (λ x, p ← plugs d !! key x.2; Some (x, Plug.name p)) rows.

Definition get_active_session uid : M (list active_row) :=
  query (λ d, map (λ x : Z * ChargingSession.t * string,
      mkactive x.1.1 x.1.2 x.2
        (TelemetryStore.float_of_money
           (session_cost x.1.2 (ChargingSession.energy_kwh x.1.2))))
    (order_by (λ x, - ChargingSession.started_at x.1.2)
      (joined ChargingSession.plug_id d (select (λ _ s, active_of uid s) (sessions d))))).

Definition get_session_history uid (limit offset : Z) : M (Z * list (Z * ChargingSession.t * string)) :=
  let limit := Z.max 1 (Z.min limit 200) in
  let offset := Z.max 0 offset in
  query (λ d, (count (λ s, ChargingSession.user_id s =? uid) (sessions d),
    take (Z.to_nat limit) (drop (Z.to_nat offset)
      (order_by2 (λ x, - ChargingSession.started_at x.1.2) (λ x, - x.1.1)
        (joined ChargingSession.plug_id d
           (select (λ _ s, ChargingSession.user_id s =? uid) (sessions d))))))).

(** ** POST /api/sessions/queue, GET /queued, DELETE /queue/{id} *)

Definition waiting uid (q : QueuedCharge.t) : bool :=
  (QueuedCharge.user_id q =? uid) && bool_decide (QueuedCharge.status q = Q_WAITING).

Definition waiting_on uid plug_id (_ : Z) (q : QueuedCharge.t) : bool :=
  waiting uid q && (QueuedCharge.plug_id q =? plug_id).

(** The partial unique index on (user, plug) of the WAITING rows. *)
Definition insert_queued (q : QueuedCharge.t) : M Z :=
  dup ← query (λ d, exists_row (waiting_on (QueuedCharge.user_id q) (QueuedCharge.plug_id q)) (queued d));
  if dup : bool then raise IntegrityError
  else
    i ← fresh;
    modify (λ d, d <| queued ::= <[i := q]> |>);;
    mret i.

Definition queue_charge uid plug_id (max_kwh : option float) (max_duration : option Z) now : M Z :=
  plug ← query (λ d, plugs d !! plug_id);
  plug ← or_raise plug 404 "Plug not found.";
  check_access uid plug;;
  gw ← query (λ d, gateways d !! Plug.gateway_id plug);
  gateway ← scalar_one gw;
  tenant ← query (λ d, tid ← Gateway.tenant_id gateway; t ← tenants d !! tid; Some (tid, t));
  '(tenant_id, tenant) ← scalar_one tenant;
  refuse (negb (gateway_is_live gateway now)) 409 "gateway_offline";;
  refuse (plug_is_powered plug now) 409 "plug_powered";;
  refuse (negb (queued_charging_enabled tenant (Some plug))) 409 "queue_disabled";;
  available ← available_balance uid;
  refuse (money_lt available MIN_START_BALANCE_COINS) 402 "insufficient_balance";;
  waiting_count ← query (λ d, count (waiting uid) (queued d));
  refuse (MAX_QUEUED_CHARGES_PER_USER <=? waiting_count) 409 "queue_limit";;
  rows ← query (λ d, select (waiting_on uid plug_id) (queued d));
  existing ← one_or_none rows;
  refuse (bool_decide (is_Some existing)) 409 "already_queued";;
  qid ← catch
    (i ← insert_queued (QueuedCharge.mk tenant_id uid plug_id max_kwh max_duration Q_WAITING now
                          (now + minutes (queue_ttl tenant (Some plug))) None);
     commit;; mret i)
    (λ e, match e with
          | IntegrityError => rollback;; raise (HTTPException 409 "already_queued")
          | e => raise e
          end);
  emit (Notify uid "queued" "info" (Some plug_id) None);;
  mret qid.

Definition get_queued_charges uid : M (list (Z * QueuedCharge.t * string)) :=
  query (λ d, order_by (λ x, QueuedCharge.created_at x.1.2)
    (joined QueuedCharge.plug_id d (select (λ _ q, waiting uid q) (queued d)))).

Definition cancel_queued_charge uid qid : M unit :=
  qc ← query (λ d, q ← queued d !! qid; if QueuedCharge.user_id q =? uid then Some q else None);
  qc ← or_raise qc 404 "Queued charge not found.";
  refuse (negb (bool_decide (QueuedCharge.status qc = Q_WAITING))) 409 "no longer waiting";;
  modify (λ d, d <| queued ::= alter (λ q, q <| QueuedCharge.status := Q_CANCELLED |>) qid |>);;
  commit.

(** ** POST /api/sessions/{session_id}/dispute *)

Definition open_dispute_of sid (_ : Z) (x : SessionDispute.t) : bool :=
  (SessionDispute.session_id x =? sid) && bool_decide (SessionDispute.status x = D_OPEN).

(** The partial unique index on the OPEN rows of a session. *)
Definition insert_dispute (x : SessionDispute.t) : M Z :=
  dup ← query (λ d, exists_row (open_dispute_of (SessionDispute.session_id x)) (disputes d));
  if dup : bool then raise IntegrityError
  else
    i ← fresh;
    modify (λ d, d <| disputes ::= <[i := x]> |>);;
    mret i.

Definition dispute_session uid sid (reason : string) now : M Z :=
  session ← query (owned_session uid sid);
  s ← or_raise session 404 "Session not found.";
  refuse (is_active s) 409 "This session is still active.";;
  existing ← query (λ d, exists_row (open_dispute_of sid) (disputes d));
  refuse existing 409 "An open dispute already exists for this session.";;
  catch
    (i ← insert_dispute (SessionDispute.mk sid (ChargingSession.tenant_id s) uid reason D_OPEN
                           None None now None None);
     commit;; mret i)
    (λ e, match e with
          | IntegrityError => rollback;; raise (HTTPException 409 "An open dispute already exists.")
          | e => raise e
          end).

(** ** GET /api/sessions/{session_id}/invoice, /api/me/stats, /disputes/my, /{session_id} *)

Definition check_session_access uid (user : User.t) s : M unit :=
  match User.role user with
  | DRIVER => refuse (negb (ChargingSession.user_id s =? uid)) 404 "Session not found."
  | CPO => refuse (negb (bool_decide (User.tenant_id user = Some (ChargingSession.tenant_id s))))
             404 "Session not found."
  | ADMIN => mret tt
  end.

Definition get_session_invoice uid (user : User.t) sid now : M (Z * Invoice.t) :=
  session ← query (λ d, sessions d !! sid);
  s ← or_raise session 404 "Session not found.";
  check_session_access uid user s;;
  catch (issue_invoice_for_session sid now)
    (λ e, match e with
          | SessionNotInvoiceableError => raise (HTTPException 400 "not invoiceable")
          | e => raise e
          end).

(** Sums run in the rows' order; [SUM] of no rows is 0. *)
Definition fsum (l : list float) : float := foldl fadd 0 l.

Record stats := mkstats { st_energy_kwh : float; st_spend_coins : float; st_sessions : Z }.

Definition stats_of (p : ChargingSession.t → bool) d : stats :=
  let rows := select (λ _ s, p s) (sessions d) in
  mkstats (fround 3 (fsum (map (λ r, ChargingSession.energy_kwh r.2) rows)))
    (fround 2 (TelemetryStore.float_of_money
       (msum (λ s, if p s then ChargingSession.coins_spent s else 0) (sessions d))))
    (Z.of_nat (length rows)).

(** [started_at >= first of now's month, 00:00 UTC]. *)
Definition since_month now t : bool :=
  let '(y0, m0) := civil now in let '(y, m) := civil t in
  (y0 <? y) || ((y0 =? y) && (m0 <=? m)).

Definition get_my_stats uid now : M (stats * stats) :=
  let finished s := (ChargingSession.user_id s =? uid) && negb (is_active s) in
  query (λ d, (stats_of (λ s, finished s && since_month now (ChargingSession.started_at s)) d,
               stats_of finished d)).

Definition get_my_disputes uid (limit offset : Z) : M (list (Z * SessionDispute.t)) :=
  let limit := Z.max 1 (Z.min limit 1000) in
  let offset := Z.max 0 offset in
  query (λ d, take (Z.to_nat limit) (drop (Z.to_nat offset)
    (order_by2 (λ x, - SessionDispute.created_at x.2) (λ x, - x.1)
      (select (λ _ x, SessionDispute.driver_user_id x =? uid) (disputes d))))).

(** The stored receipt; the stop reason is recovered from the ledger row's
    description, which the model does not keep. *)
Record session_detail := mkdetail {
  sd_session : ChargingSession.t;
  sd_plug_name : option string;
  sd_price_per_kwh : float;
  sd_coins_spent : float;
  sd_shortfall_coins : float;
  sd_balance_before : option float;
  sd_balance_remaining : option float;
  sd_duration_sec : option Z }.

Definition debit_row sid (_ : Z) (l : LedgerTransaction.t) : bool :=
  bool_decide (LedgerTransaction.session_id l = Some sid) &&
  bool_decide (LedgerTransaction.transaction_type l = SESSION_DEBIT).

Definition get_session_detail uid (user : User.t) sid : M session_detail :=
  session ← query (λ d, sessions d !! sid);
  s ← or_raise session 404 "Session not found.";
  check_session_access uid user s;;
  ledger ← query (λ d, snd <$> head (order_by (λ x, - x.1) (select (debit_row sid) (ledger d))));
  plug ← query (λ d, plugs d !! ChargingSession.plug_id s);
  let coins_spent := TelemetryStore.float_of_money (ChargingSession.coins_spent s) in
  let shortfall := if is_active s then 0 else
    Z.max (fsub (TelemetryStore.float_of_money (session_cost s (ChargingSession.energy_kwh s)))
             coins_spent) 0 in
  mret (mkdetail s (Plug.name <$> plug)
    (match ChargingSession.rate_coins_per_kwh s with
     | Some rate => TelemetryStore.float_of_money rate
     | None => TelemetryStore.float_of_money default_rate end)
    (fround 2 coins_spent) (fround 2 shortfall)
    ((λ l, fround 2 (TelemetryStore.float_of_money
             (LedgerTransaction.balance_after l - LedgerTransaction.amount l))) <$> ledger)
    ((λ l, fround 2 (TelemetryStore.float_of_money (LedgerTransaction.balance_after l))) <$> ledger)
    ((λ e, ftrunc (total_seconds (e - ChargingSession.started_at s))) <$> ChargingSession.ended_at s)).

(** ** What a start has checked *)

Record startable d uid plug_id now plug (gateway : Gateway.t) (covering : option Z) : Prop := {
  sg_room : count (active_of uid) (sessions d) < MAX_ACTIVE_SESSIONS_PER_USER;
  sg_plug : plugs d !! plug_id = Some plug;
  sg_access : may_access d uid plug;
  sg_free : Plug.status plug = AVAILABLE;
  sg_gateway : gateways d !! Plug.gateway_id plug = Some gateway;
  sg_live : gateway_is_live gateway now = true;
  sg_power : ∀ t, Plug.last_telemetry_at plug = Some t → plug_is_powered plug now = true;
  sg_cover : match covering_reservation plug_id now (expire_in (on_plug plug_id) now d) with
             | None => covering = None
             | Some (rid, r) => covering = Some rid ∧ Reservation.user_id r = uid
             end }.

Lemma wp_check_access uid plug Q w :
  (may_access (cur w) uid plug → Q (Ok tt) w) → (∀ e, Q (Raise e) w) → wp (check_access uid plug) Q w.
Proof.
  intros H1 H2. unfold check_access. wp_step. apply wp_access_spec; [|auto]. intros b Hb.
  wp_step; [auto|]. apply H1, Hb. by destruct b.
Qed.

Lemma wp_start_gates uid plug_id now Q w :
  (∀ e w', com w' = com w → evs w' = evs w → Q (Raise e) w') →
  (∀ plug gateway covering u w', users (cur w) !! uid = Some u →
     startable (cur w) uid plug_id now plug gateway covering →
     w' = w <| cur ::= expire_in (on_plug plug_id) now |> →
     Q (Ok (plug, gateway, covering)) w') →
  wp (start_gates uid plug_id now) Q w.
Proof.
  intros HR HS. unfold start_gates.
  wp_run (first [apply wp_check_access; [intros ?|intros ?] | apply wp_expire; intros ?]);
    try by apply HR.
  eapply HS; [eassumption | | reflexivity]. simpl in *. split; try done.
  - lia.
  - by passed.
  - by passed.
  - intros t Ht. destruct (plug_is_powered _ _); [done|].
    match goal with H : _ && _ = false |- _ => by rewrite Ht, bool_decide_eq_true_2 in H by eauto end.
  - destruct (covering_reservation _ _ _) as [[rid r]|]; [|done]. split; [done|]. passed. by apply Z.eqb_eq.
Qed.

Lemma count_insert_None {A} (p : A → bool) (m : gmap Z A) i x :
  m !! i = None → count p (<[i := x]> m) = (if p x then 1 else 0) + count p m.
Proof. intros Hi. unfold count. by rewrite msum_insert_None. Qed.

(** Nobody else's booking covers [now]: the first one by start time was the
    caller's, and windows of one plug do not overlap. *)
Lemma covering_only d plug_id now uid :
  booked_ok d →
  match covering_reservation plug_id now d with
  | None => True | Some (_, r) => Reservation.user_id r = uid end →
  ∀ i r, reservations d !! i = Some r → covers_now plug_id now r = true →
  Reservation.user_id r = uid ∧ (fst <$> covering_reservation plug_id now d) = Some i.
Proof.
  intros Hok Hc i r Hr Hcov.
  assert (Hin : (i, r) ∈ select (λ _ r, covers_now plug_id now r) (reservations d))
    by (by apply elem_of_select).
  apply (order_by_elem (λ x, Reservation.start_at x.2)) in Hin.
  unfold covering_reservation in *. destruct (order_by _ _) as [|[j x] l] eqn:E;
    [by apply not_elem_of_nil in Hin|]. simpl in *.
  assert (Hj : (j, x) ∈ order_by (λ x : Z * Reservation.t, Reservation.start_at x.2)
      (select (λ _ r, covers_now plug_id now r) (reservations d))) by (rewrite E; left).
  apply order_by_elem, elem_of_select in Hj as [Hj Hcx].
  destruct (decide (i = j)) as [<-|Hij]; [by simplify_eq|].
  unfold covers_now, on_plug in Hcov, Hcx. passed.
  destruct (Hok i j r x Hij Hr Hj) as [?|?]; [done..|congruence| |]; lia.
Qed.

Lemma claimed_booked_ok d s covering : booked_ok d → booked_ok (claimed_db d s covering).
Proof.
  intros Hok. assert (Hr : ∀ i r, reservations (claimed_db d s covering) !! i = Some r →
    is_booked r = true → reservations d !! i = Some r).
  { intros i r. unfold claimed_db, fulfilled_by. simpl. destruct covering as [rid|]; [|done].
    destruct (decide (rid = i)) as [<-|]; [|by rewrite lookup_alter_ne].
    rewrite lookup_alter_eq. by intros (r0 & _ & ->)%fmap_Some. }
  intros i j ri rj Hij Hi Hj Hbi Hbj. apply (Hok i j); auto.
Qed.

Lemma claimed_fulfils d s rid r :
  reservations d !! rid = Some r →
  reservations (claimed_db d s (Some rid)) !! rid =
    Some (r <| Reservation.status := FULFILLED |> <| Reservation.session_id := Some (next_id d) |>).
Proof. intros Hr. unfold claimed_db, fulfilled_by. simpl. by rewrite lookup_alter_eq, Hr. Qed.

(** The gates and the claim. *)
Lemma wp_start uid plug_id max_kwh max_duration now Q w :
  start_env (cur w) max_kwh →
  (∀ e w', com w' = com w → evs w' = evs w → Q (Raise e) w') →
  (∀ plug gateway covering u s w', let d0 := expire_in (on_plug plug_id) now (cur w) in
     users (cur w) !! uid = Some u → startable (cur w) uid plug_id now plug gateway covering →
     claim_of d0 uid plug_id plug u max_kwh max_duration now s →
     com w' = claimed_db d0 s covering →
     Q (Ok (plug, covering, (next_id d0, resolve_rate_for_plug d0 plug now))) w') →
  wp (start_claim uid plug_id max_kwh max_duration now) Q w.
Proof.
  intros Henv HR HS. unfold start_claim. wp_step.
  apply wp_start_gates; [by apply HR|]. intros plug gateway covering u w1 Hu Hst ->. cbv iota.
  wp_step. apply (wp_claim _ _ _ _ _ _ _ _ u);
    [by destruct Henv as [? [] ?] | done | intros e; by apply HR |].
  intros s w' Hs Hc Hcm _. wp_step. eapply HS; eauto. by rewrite Hcm, Hc.
Qed.

(** C37: a start is admitted only when everything allows it: the driver stays
    within the concurrent-session cap and may use the plug (it is in no private
    group that the driver has not joined), the plug was AVAILABLE, its gateway
    live and not known to be without power, and no other member's booking covers
    the moment; the caller's own covering booking becomes FULFILLED by this session.
    The session then runs with its hold (the claim), every money and plug
    invariant and the disjointness of bookings survive, and a refusal commits and
    sends nothing. *)
Theorem start_gated uid plug_id max_kwh max_duration now w :
  com w = cur w → db_ok (cur w) → booked_ok (cur w) → start_env (cur w) max_kwh →
  let '(out, w') := run_request (start_claim uid plug_id max_kwh max_duration now) w in
  db_ok (com w') ∧ booked_ok (com w') ∧
  match out with
  | Raise _ => com w' = com w ∧ evs w' = evs w
  | Ok (plug, covering, (sid, _)) => ∃ gateway,
      startable (cur w) uid plug_id now plug gateway covering ∧
      count (active_of uid) (sessions (com w')) <= MAX_ACTIVE_SESSIONS_PER_USER ∧
      (∀ i r, reservations (cur w) !! i = Some r → covers_now plug_id now r = true →
         lapsed now r = false →
         Reservation.user_id r = uid ∧ reservations (com w') !! i =
           Some (r <| Reservation.status := FULFILLED |> <| Reservation.session_id := Some sid |>))
  end.
Proof.
  intros Hcc Hok Hbk Henv. apply run_request_wp. apply wp_start; [done | |].
  { intros e w' Hc He. simpl. by rewrite Hc, Hcc. }
  intros plug gateway covering u s w' d0 Hu Hst Hs Hc.
  change (com (w' <| cur := com w' |>)) with (com w'). rewrite Hc.
  assert (Hok0 : db_ok d0) by (by apply (db_ok_frame (cur w))).
  assert (Hbk0 : booked_ok d0) by (by apply expire_booked_ok).
  split; [eapply (claimed_db_ok d0); try done; [by destruct Henv as [? [] ?] | apply Hst..]|].
  split; [by apply claimed_booked_ok|]. exists gateway. split; [done|]. split.
  - pose proof (sg_room _ _ _ _ _ _ _ Hst). unfold claimed_db. cbn [sessions set_with].
    simpl sessions. rewrite count_insert_None by (apply (ok_ids _ Hok); simpl; lia).
    change (sessions d0) with (sessions (cur w)). destruct (active_of uid s); lia.
  - intros i r Hr Hcov Hl. pose proof (sg_cover _ _ _ _ _ _ _ Hst) as Hsc. fold d0 in Hsc.
    assert (Hr0 : reservations d0 !! i = Some r)
      by (unfold d0, expire_in; simpl; by rewrite lookup_update_where, Hr; simpl; rewrite Hl).
    destruct (covering_only d0 plug_id now uid Hbk0) with (i := i) (r := r) as [Hu' Hi]; [|done..|].
    { destruct (covering_reservation plug_id now d0) as [[]|]; [by destruct Hsc | done]. }
    split; [done|]. destruct (covering_reservation plug_id now d0) as [[rid x]|]; [|done].
    simpl in Hi. destruct Hsc as [-> _]. injection Hi as ->. by apply claimed_fulfils.
Qed.

(** ** Changing the limits of a running session *)

Lemma with_limits_frame max_kwh max_duration s :
  let s' := with_limits max_kwh max_duration s in
  session_cost s' = session_cost s ∧ (session_wf s → session_wf s') ∧
  ChargingSession.energy_kwh s' = ChargingSession.energy_kwh s ∧
  ChargingSession.hold_coins s' = ChargingSession.hold_coins s.
Proof. split_and!; try done. intros [[? ? ?] ?]. split; [by split | done]. Qed.

(** What an accepted change has checked and leaves. *)
Record relimit_outcome d d' uid sid (max_kwh : option float) (max_duration : option Z) s s' : Prop := {
  rl_old : sessions d !! sid = Some s ∧ ChargingSession.user_id s = uid ∧ is_active s = true;
  rl_new : d' = d <| sessions ::= alter (λ _, s') sid |>;
  rl_limits : ChargingSession.max_kwh s' = ChargingSession.max_kwh (with_limits max_kwh max_duration s) ∧
    ChargingSession.max_duration_seconds s' =
      ChargingSession.max_duration_seconds (with_limits max_kwh max_duration s);
  rl_reached : ∀ k, max_kwh = Some k → ChargingSession.energy_kwh s <= k;
  rl_cost : session_cost s' = session_cost s;
  (* the hold covers what the session has cost so far *)
  rl_covered : requested_debit s' (accrued_cost s') =
    match ChargingSession.max_kwh s' with
    | Some _ => accrued_cost s'
    | None => requested_debit s (accrued_cost s)
    end;
  (* and no more than that and what the wallet has left is held *)
  rl_bound : ∀ u h h', users d !! uid = Some u → ChargingSession.hold_coins s = Some h →
    ChargingSession.hold_coins s' = Some h' →
    h' <= Z.max (accrued_cost s') (Z.max h (User.coin_balance u - held d uid + h)) }.

Lemma accrued_range s : session_wf s → 0 <= accrued_cost s <= MAX_MONEY.
Proof.
  intros [Hb [He H0]]. unfold accrued_cost. rewrite to_money_amount_clamp.
  pose proof (session_cost_nonneg s _ Hb He H0). unfold clamp, MAX_MONEY in *. lia.
Qed.

Lemma resized_hold_bounds s h k max_rate available :
  session_wf s → 0 <= available → 0 <= h →
  (is_float k ∧ 0 <= k) → 0 <= max_rate →
  let h' := resized_hold s h k max_rate available in
  accrued_cost s <= h' <= Z.max (accrued_cost s) (available + h) ∧ 0 <= h'.
Proof.
  intros Hwf Hav Hh [Hk Hk0] Hr h'. pose proof (accrued_range s Hwf).
  pose proof (energy_cost_nonneg k (PDec (dec_of_money max_rate)) Hk Hk0 (to_money_rate_nonneg _ Hr)).
  unfold h', resized_hold. rewrite !to_money_amount_clamp. unfold clamp, MAX_MONEY in *. lia.
Qed.

(** The session after the change. *)
Definition limited max_kwh max_duration s (h max_rate available : money) : ChargingSession.t :=
  let s1 := with_limits max_kwh max_duration s in
  match ChargingSession.max_kwh s1 with
  | None => s1
  | Some k => s1 <| ChargingSession.hold_coins := Some (resized_hold s1 h k max_rate available) |>
  end.

Lemma limited_frame max_kwh max_duration s h rate av :
  relimited s (limited max_kwh max_duration s h rate av) ∧
  session_cost (limited max_kwh max_duration s h rate av) = session_cost s ∧
  accrued_cost (limited max_kwh max_duration s h rate av) = accrued_cost s ∧
  ChargingSession.max_kwh (limited max_kwh max_duration s h rate av) =
    ChargingSession.max_kwh (with_limits max_kwh max_duration s) ∧
  ChargingSession.max_duration_seconds (limited max_kwh max_duration s h rate av) =
    ChargingSession.max_duration_seconds (with_limits max_kwh max_duration s).
Proof.
  assert (Hwf : session_wf s → session_wf (limited max_kwh max_duration s h rate av)).
  { intros [[? ? ?] ?]. unfold limited. destruct (ChargingSession.max_kwh (with_limits _ _ _));
      (split; [by split | done]). }
  split; [split_and!; try done|split_and!]; unfold limited;
    by destruct (ChargingSession.max_kwh (with_limits max_kwh max_duration s)) eqn:E.
Qed.

Section Limited.
Context (d : db) (uid sid : Z) (max_kwh : option float) (max_duration : option Z)
  (s : ChargingSession.t) (u : User.t) (h rate : money).
Context (Hok : db_ok d) (Hs : sessions d !! sid = Some s) (Huid : ChargingSession.user_id s = uid)
  (Ha : is_active s = true) (Hh : ChargingSession.hold_coins s = Some h)
  (Hu : users d !! uid = Some u) (Hrate : 0 <= rate).
Context (Hk : ∀ k, ChargingSession.max_kwh (with_limits max_kwh max_duration s) = Some k →
  is_float k ∧ 0 <= k) (Hr : ∀ k, max_kwh = Some k → ChargingSession.energy_kwh s <= k).
Let s' := limited max_kwh max_duration s h rate (available d uid u).
Let d' := d <| sessions ::= alter (λ _, s') sid |>.

Lemma left_over : 0 <= available d uid u ∧ available d uid u = User.coin_balance u - held d uid ∧ 0 <= h.
Proof using Hok Hs Ha Hh Hu Huid.
  clear Hk Hr Hrate s' d'.
  pose proof (ok_wallet d Hok) as Hw. subst uid.
  pose proof (hold_covered d sid s h u Hw Hs Ha Hh Hu). pose proof (wallet_held d Hw _ u Hu).
  assert (0 <= held d (ChargingSession.user_id s)) by (apply msum_nonneg; intros; by eapply hold_of_nonneg).
  pose proof (ledger_range d (wallet_ledger d Hw) _ u Hu).
  unfold available. rewrite to_money_amount_ok by (unfold money_ok; lia). lia.
Qed.

Lemma new_hold : ∃ h', ChargingSession.hold_coins s' = Some h' ∧ 0 <= h' ∧
  match ChargingSession.max_kwh s' with
  | Some _ => accrued_cost s' <= h' <= Z.max (accrued_cost s') (User.coin_balance u - held d uid + h)
  | None => h' = h
  end.
Proof using Hok Hs Ha Hh Hu Huid Hrate Hk.
  destruct left_over as (Hav & Heq & Hh0).
  destruct (ok_active d Hok sid s Hs Ha) as [Hwf _].
  destruct (with_limits_frame max_kwh max_duration s) as (_ & Hwf1 & _ & Hh1). rewrite Hh in Hh1.
  destruct (limited_frame max_kwh max_duration s h rate (available d uid u)) as (_ & _ & Hac & Hm & _).
  fold s' in Hac, Hm. rewrite Hac, Hm.
  assert (Hh' : ChargingSession.hold_coins s' = match ChargingSession.max_kwh (with_limits max_kwh max_duration s) with
    | Some k => Some (resized_hold (with_limits max_kwh max_duration s) h k rate (available d uid u))
    | None => Some h end) by (unfold s', limited; by destruct (ChargingSession.max_kwh (with_limits _ _ _))).
  destruct (ChargingSession.max_kwh (with_limits max_kwh max_duration s)) as [k|]; [|by exists h].
  destruct (resized_hold_bounds _ h k rate (available d uid u) (Hwf1 Hwf) Hav Hh0 (Hk k eq_refl) Hrate).
  eexists. split; [exact Hh'|]. rewrite <- Heq. done.
Qed.

Lemma limited_outcome : relimit_outcome d d' uid sid max_kwh max_duration s s'.
Proof using Hok Hs Ha Hh Hu Huid Hrate Hk Hr.
  destruct (limited_frame max_kwh max_duration s h rate (available d uid u)) as (_ & Hc & Hac & Hm & Hd).
  fold s' in Hc, Hac, Hm, Hd. destruct new_hold as (h' & Hh' & H0 & Hb). split; try done.
  - unfold requested_debit. rewrite Hh', Hh, Hac in *.
    destruct (ChargingSession.max_kwh s'); [lia | by subst].
  - intros u' hh hh' Hu' Hhh Hhh'. simplify_eq. destruct (ChargingSession.max_kwh s'); lia.
Qed.

Lemma limited_db_ok :
  accrued_cost s' <= User.coin_balance u - held d uid + h → db_ok d'.
Proof using Hok Hs Ha Hh Hu Huid Hrate Hk.
  intros Hcov. destruct new_hold as (h' & Hh' & H0 & Hb). destruct left_over as (Hav & Heq & Hh0).
  eapply (relimited_db_ok d d' sid s s' uid u h h'); try done; [apply limited_frame| |].
  - unfold d'. simpl. by rewrite (alter_alt_Some _ _ _ _ Hs).
  - destruct (ChargingSession.max_kwh s'); lia.
Qed.
End Limited.

Lemma wp_resize uid s plug now u h max_kwh max_duration Q w :
  users (cur w) !! uid = Some u → ChargingSession.hold_coins s = Some h →
  Q (Ok (limited max_kwh max_duration s h (max_rate_over_window (cur w) plug now
           (hold_window (ChargingSession.max_duration_seconds (with_limits max_kwh max_duration s))))
           (available (cur w) uid u))) w →
  wp (resize_hold uid (with_limits max_kwh max_duration s) plug now) Q w.
Proof.
  intros Hu Hh HQ. unfold limited in HQ. unfold resize_hold, available_balance.
  destruct (with_limits_frame max_kwh max_duration s) as (_ & _ & _ & Hh1). rewrite Hh1, Hh.
  destruct (ChargingSession.max_kwh (with_limits max_kwh max_duration s)); wp_run; [by rewrite Hu | done].
Qed.

(** C38: changing the limits of a running session never lets it pay less than it
    has already cost: only its owner can change an ACTIVE session, never to less
    energy than was delivered; a session with an energy limit then holds at least
    its accrued cost, and beyond that at most what the wallet has left; the bill
    so far is unchanged.  As long as the wallet covers the accrued cost, every
    hold stays covered.  A refusal changes nothing. *)
Theorem limits_keep_cover uid sid max_kwh max_duration now w :
  com w = cur w → db_ok (cur w) → start_env (cur w) max_kwh →
  (∀ s k, sessions (cur w) !! sid = Some s → ChargingSession.max_kwh s = Some k → is_float k ∧ 0 <= k) →
  let '(out, w') := run_request (update_session_limits uid sid max_kwh max_duration now) w in
  match out with
  | Raise _ => com w' = com w
  | Ok s' => ∃ s, relimit_outcome (cur w) (com w') uid sid max_kwh max_duration s s' ∧
      ((∀ u h, users (cur w) !! uid = Some u → ChargingSession.hold_coins s = Some h →
         accrued_cost s' <= User.coin_balance u - held (cur w) uid + h) → db_ok (com w'))
  end.
Proof.
  intros Hcc Hok [Hf Hp Hkw] Hsk. apply run_request_wp.
  unfold update_session_limits, owned_session, set_session, send_plug_limits, publish.
  wp_run (fail); try done.
  match goal with H : _ ≫= _ = Some _ |- _ => apply bind_Some in H as (s & Hs & Hif) end.
  destruct (Z.eqb_spec (ChargingSession.user_id s) uid) as [Huid|]; [|done]. injection Hif as <-.
  passed. destruct (wallet_holds _ (ok_wallet _ Hok) sid s Hs) as [(h & Hh & Hh0) _]; [done|].
  assert (Hr : ∀ k, max_kwh = Some k → ChargingSession.energy_kwh s <= k) by (intros k ->; by passed).
  assert (Hk : ∀ k, ChargingSession.max_kwh (with_limits max_kwh max_duration s) = Some k →
    is_float k ∧ 0 <= k) by (intros k Hmk; destruct max_kwh; [by apply Hkw | by apply (Hsk s)]).
  eapply wp_resize; [done..|]. wp_run. exists s. split.
  - eapply limited_outcome; try done. by apply max_rate_nonneg.
  - intros Hcov. eapply limited_db_ok; try done; [by apply max_rate_nonneg | by apply Hcov].
Qed.

(** ** The queue *)

(** At most one WAITING row per driver and plug. *)
Definition queue_ok d : Prop := ∀ i j qi qj,
  queued d !! i = Some qi → queued d !! j = Some qj →
  QueuedCharge.status qi = Q_WAITING → QueuedCharge.status qj = Q_WAITING →
  QueuedCharge.user_id qi = QueuedCharge.user_id qj →
  QueuedCharge.plug_id qi = QueuedCharge.plug_id qj → i = j.

Lemma waiting_on_spec uid plug_id i q :
  waiting_on uid plug_id i q = true ↔
  QueuedCharge.user_id q = uid ∧ QueuedCharge.plug_id q = plug_id ∧
  QueuedCharge.status q = Q_WAITING.
Proof.
  unfold waiting_on, waiting. rewrite !andb_true_iff, !Z.eqb_eq, bool_decide_eq_true. tauto.
Qed.

Lemma insert_queue_ok d q i :
  queue_ok d → queued d !! i = None →
  (∀ j x, queued d !! j = Some x →
     waiting_on (QueuedCharge.user_id q) (QueuedCharge.plug_id q) j x = false) →
  queue_ok (d <| queued ::= <[i := q]> |>).
Proof.
  intros Hok Hi Hno.
  assert (Hx : ∀ j x, queued d !! j = Some x → QueuedCharge.status x = Q_WAITING →
    QueuedCharge.user_id q = QueuedCharge.user_id x →
    QueuedCharge.plug_id q = QueuedCharge.plug_id x → False).
  { intros j x Hj Hw Hu Hp. specialize (Hno j x Hj). apply not_true_iff_false in Hno.
    apply Hno, waiting_on_spec. done. }
  intros j k x y. simpl. intros [[<- <-]|[? Hj]]%lookup_insert_Some [[<- <-]|[? Hk]]%lookup_insert_Some
    ? ? ? ?; [done | exfalso; eauto | exfalso; eauto | by eapply Hok].
Qed.

(** What a queued charge has checked. *)
Record queueable d uid plug_id now q : Prop := {
  qu_row : QueuedCharge.user_id q = uid ∧ QueuedCharge.plug_id q = plug_id ∧
    QueuedCharge.status q = Q_WAITING ∧ QueuedCharge.created_at q = now;
  qu_plug : ∃ plug gateway tenant, plugs d !! plug_id = Some plug ∧
    plug_is_powered plug now = false ∧
    gateways d !! Plug.gateway_id plug = Some gateway ∧ gateway_is_live gateway now = true ∧
    Gateway.tenant_id gateway = Some (QueuedCharge.tenant_id q) ∧
    tenants d !! QueuedCharge.tenant_id q = Some tenant ∧
    queued_charging_enabled tenant (Some plug) = true ∧
    QueuedCharge.expires_at q = now + minutes (queue_ttl tenant (Some plug));
  qu_room : count (waiting uid) (queued d) < MAX_QUEUED_CHARGES_PER_USER;
  qu_new : ∀ i x, queued d !! i = Some x → waiting_on uid plug_id i x = false }.

Lemma wp_queue_charge uid plug_id max_kwh max_duration now Q w :
  com w = cur w →
  (∀ e w', com w' = com w → Q (Raise e) w') →
  (∀ q w', queueable (cur w) uid plug_id now q →
     com w' = (cur w) <| queued ::= <[next_id (cur w) := q]> |> <| next_id ::= Z.succ |> →
     Q (Ok (next_id (cur w))) w') →
  wp (queue_charge uid plug_id max_kwh max_duration now) Q w.
Proof.
  intros Hcc HR HS. unfold queue_charge, insert_queued, available_balance.
  wp_run (apply wp_check_access; [intros ?|intros ?]); try by apply HR.
  2:{ by rewrite bool_decide_eq_true_2 in * by eauto. }
  passed. match goal with H : Gateway.tenant_id _ ≫= _ = _ |- _ => rename H into Hten end.
  apply bind_Some in Hten as (tid & Htid & Hten). apply bind_Some in Hten as (t' & Ht & Hten).
  injection Hten as -> ->.
  match goal with H : exists_row _ _ = false |- _ => rename H into Hno end.
  eapply HS; [|reflexivity]. split; [done | | done | exact (proj1 (exists_row_false _ _) Hno)].
  simpl. eexists _, _, _. by split_and!.
Qed.

(** A charge is queued only where it makes sense and only once: the plug is
    reported without power, its gateway is live and its operator allows queueing;
    the driver stays within the cap of waiting charges and has none waiting on
    this plug, so a driver never has two waiting charges on one plug; the row
    expires after the tenant's time to live.  A refusal changes nothing, and no
    coins are held. *)
Theorem queue_charge_correct uid plug_id max_kwh max_duration now w :
  com w = cur w → db_ok (cur w) → queue_ok (cur w) →
  (∀ i, next_id (cur w) <= i → queued (cur w) !! i = None) →
  let '(out, w') := run_request (queue_charge uid plug_id max_kwh max_duration now) w in
  db_ok (com w') ∧ queue_ok (com w') ∧
  match out with
  | Raise _ => com w' = com w
  | Ok qid => ∃ q, queued (com w') !! qid = Some q ∧ queueable (cur w) uid plug_id now q ∧
      count (waiting uid) (queued (com w')) <= MAX_QUEUED_CHARGES_PER_USER ∧
      ∀ v, held (com w') v = held (cur w) v ∧ balance (com w') v = balance (cur w) v
  end.
Proof.
  intros Hcc Hok Hq Hids. apply run_request_wp. apply wp_queue_charge; [done | |].
  { intros e w' Hc. simpl. by rewrite Hc, Hcc. }
  intros q w' Hqu Hc. change (com (w' <| cur := com w' |>)) with (com w'). rewrite Hc.
  assert (Hfresh : queued (cur w) !! next_id (cur w) = None) by (apply Hids; lia).
  destruct (qu_row _ _ _ _ _ Hqu) as (Hu & Hp & _).
  split; [apply (db_ok_frame (cur w)); [done..|simpl; lia]|].
  split; [apply (insert_queue_ok (cur w)); [done..|]; rewrite Hu, Hp; apply Hqu|].
  exists q. split; [apply lookup_insert_eq|]. split; [done|]. split; [|done].
  simpl. rewrite count_insert_None by done. pose proof (qu_room _ _ _ _ _ Hqu).
  destruct (waiting uid q); lia.
Qed.
End Sessions.
