(* ===== verification/Schemas.v ===== *)
(** * schemas.py: what a request body must be

    A [Schema] reads a body that has the right types and gives the validated
    body, or nothing: the answer is then a 422 and the handler does not run
    ([route]).  Lengths are in characters, as the columns count them.  Defaults
    and types are the reader's business (pydantic); EmailStr is a parameter. *)

From stdpp Require Import strings.
From Stdlib Require Import Ascii.
From S2P Require Import Prelude Rounding PyNum Money Models Config TelemetryStore World Hoare.
From S2P Require Import PyString PyJson Auth Wallet Commands Caps Pricing Lifecycle Accounts.
From S2P Require Import AccountClosure Tariffs Groups Plugs Fleet Admin PushGuard LocalIp.
From S2P Require Import Workspace Disputes Payments Payouts CpoTopups Reservations SessionStart Sessions.

Class Schema (R : Type) := validate : R → option R.

Definition route `{Schema R} {A} (handler : R → M A) (body : R) : M A :=
  match validate body with Some body => handler body | None => raise (HTTPException 422 "") end.

Definition MAX_EMAIL_LEN : Z := 320.
Definition MAX_TOKEN_LEN : Z := 512.
Definition MAX_LOGIN_PASSWORD_LEN : Z := 512.

(** [Field(max_length=n)], [Field(min_length=lo, max_length=hi)], [Field(gt=0, le=hi)]. *)
Definition max_length (n : Z) (s : string) : bool := str_len s <=? n.
Definition length_in (lo hi : Z) (s : string) : bool := in_range lo hi (str_len s).
Definition checked {R} (ok : bool) (r : R) : option R := if ok then Some r else None.

(** ** Accounts *)

(** email-validator behind EmailStr: the address as it writes it. *)
Class EmailValidator := email_str : string → option string.

Record RegisterRequest := mkregister { rg_email : string; rg_password : string; rg_full_name : string }.
#[export] Instance RegisterRequest_schema `{EmailValidator} : Schema RegisterRequest := λ r,
  email ← email_str (rg_email r);
  checked (length_in 8 72 (rg_password r) && max_length 150 (rg_full_name r))
    (mkregister email (rg_password r) (rg_full_name r)).

Record LoginRequest := mklogin { lg_email : string; lg_password : string }.
#[export] Instance LoginRequest_schema : Schema LoginRequest := λ r,
  checked (max_length MAX_EMAIL_LEN (lg_email r) && max_length MAX_LOGIN_PASSWORD_LEN (lg_password r)) r.

Record ForgotPasswordRequest := mkforgot { fp_email : string }.
#[export] Instance ForgotPasswordRequest_schema : Schema ForgotPasswordRequest := λ r,
  checked (max_length MAX_EMAIL_LEN (fp_email r)) r.

Record ResetPasswordRequest := mkreset { rp_token : string; rp_password : string }.
#[export] Instance ResetPasswordRequest_schema : Schema ResetPasswordRequest := λ r,
  checked (max_length MAX_TOKEN_LEN (rp_token r) && length_in 8 72 (rp_password r)) r.

Record VerifyEmailRequest := mkverify { ve_token : string }.
#[export] Instance VerifyEmailRequest_schema : Schema VerifyEmailRequest := λ r,
  checked (max_length MAX_TOKEN_LEN (ve_token r)) r.

Record ResendVerificationRequest := mkresend { rv_email : string }.
#[export] Instance ResendVerificationRequest_schema : Schema ResendVerificationRequest := λ r,
  checked (max_length MAX_EMAIL_LEN (rv_email r)) r.

Record DeleteAccountRequest := mkdelete { da_confirm : string; da_password : option string }.
#[export] Instance DeleteAccountRequest_schema : Schema DeleteAccountRequest := λ r,
  checked (max_length 64 (da_confirm r) && given (max_length MAX_LOGIN_PASSWORD_LEN) (da_password r)) r.

(** ** Sessions *)

Definition duration_valid (n : Z) : bool := in_range 1 86400 n.
Definition kwh_valid (k : float) : bool := (0 <? k) && (k <=? fint 100).

Record SessionStartRequest := mkstart {
  ss_plug_id : Z; ss_max_duration_seconds : option Z; ss_max_kwh : option float }.
#[export] Instance SessionStartRequest_schema : Schema SessionStartRequest := λ r,
  checked (given duration_valid (ss_max_duration_seconds r) && given kwh_valid (ss_max_kwh r)) r.

Record QueueChargeRequest := mkqueue {
  qc_plug_id : Z; qc_max_duration_seconds : option Z; qc_max_kwh : option float }.
#[export] Instance QueueChargeRequest_schema : Schema QueueChargeRequest := λ r,
  checked (given duration_valid (qc_max_duration_seconds r) && given kwh_valid (qc_max_kwh r)) r.

Record SessionLimitsUpdateRequest := mklimits {
  sl_max_duration_seconds : option Z; sl_max_kwh : option float }.
#[export] Instance SessionLimitsUpdateRequest_schema : Schema SessionLimitsUpdateRequest := λ r,
  checked (given duration_valid (sl_max_duration_seconds r) && given kwh_valid (sl_max_kwh r)) r.

Record SessionStopRequest := mkstop { st_session_id : Z }.
#[export] Instance SessionStopRequest_schema : Schema SessionStopRequest := Some.

Record DisputeCreateRequest := mkdispute { dc_reason : string }.
#[export] Instance DisputeCreateRequest_schema : Schema DisputeCreateRequest := λ r,
  checked (length_in 10 1000 (dc_reason r)) r.

Record CpoDisputeResolveRequest := mkresolve {
  dr_action : string; dr_refund_coins : option float; dr_note : option string }.
#[export] Instance CpoDisputeResolveRequest_schema : Schema CpoDisputeResolveRequest := λ r,
  checked (given (Z.ltb 0) (dr_refund_coins r) && given (max_length 1000) (dr_note r)) r.

(** ** Groups, reservations, reports *)

Record JoinGroupRequest := mkjoin { jg_access_code : string }.
#[export] Instance JoinGroupRequest_schema : Schema JoinGroupRequest := λ r,
  checked (max_length 32 (jg_access_code r)) r.

(** A datetime of a body: with an offset to UTC in microseconds, or without. *)
Record timestamp := mktimestamp { wall_time : Z; utc_offset : option Z }.

(** [_coerce_utc]: a naive time is taken for UTC. *)
Definition coerce_utc (t : timestamp) : timestamp :=
  match utc_offset t with
  | None => mktimestamp (wall_time t) (Some 0)
  | Some o => mktimestamp (wall_time t - o) (Some 0)
  end.

Record ReservationCreateRequest := mkreserve { rc_plug_id : Z; rc_start_at : timestamp; rc_end_at : timestamp }.
#[export] Instance ReservationCreateRequest_schema : Schema ReservationCreateRequest := λ r,
  Some (mkreserve (rc_plug_id r) (coerce_utc (rc_start_at r)) (coerce_utc (rc_end_at r))).

Record PlugReportCreateRequest := mkreport { pr_category : string; pr_description : string }.
#[export] Instance PlugReportCreateRequest_schema : Schema PlugReportCreateRequest := λ r,
  checked (bool_decide (pr_category r ∈ PLUG_REPORT_CATEGORIES) && length_in 10 1000 (pr_description r)) r.

Record CpoPlugReportResolveRequest := mkreport_resolve { rr_action : string; rr_note : option string }.
#[export] Instance CpoPlugReportResolveRequest_schema : Schema CpoPlugReportResolveRequest := λ r,
  checked (given (max_length 1000) (rr_note r)) r.

(** ** Money *)

(** [_reject_sub_paise_precision]. *)
Definition whole_paise (v : float) : bool := fround 2 v =? v.

Record CreateOrderRequest := mkorder { co_amount_inr : float }.
#[export] Instance CreateOrderRequest_schema : Schema CreateOrderRequest := λ r,
  checked ((0 <? co_amount_inr r) && (co_amount_inr r <=? fint 10000) && whole_paise (co_amount_inr r)) r.

Record VerifyPaymentRequest := mkverify_payment {
  vp_order_id : string; vp_payment_id : string; vp_signature : string }.
#[export] Instance VerifyPaymentRequest_schema : Schema VerifyPaymentRequest := Some.

Record CpoTopupCreateRequest := mktopup { tc_driver_email : string; tc_amount_coins : float; tc_note : option string }.
#[export] Instance CpoTopupCreateRequest_schema : Schema CpoTopupCreateRequest := λ r,
  checked (max_length MAX_EMAIL_LEN (tc_driver_email r) && (0 <? tc_amount_coins r) &&
           given (max_length 500) (tc_note r)) r.

Record AdminAdjustBalanceRequest := mkadjust { aa_amount_coins : float; aa_reason : string }.
#[export] Instance AdminAdjustBalanceRequest_schema : Schema AdminAdjustBalanceRequest := λ r,
  checked (length_in 3 200 (aa_reason r)) r.

(** ** Push *)

Record PushSubscribeRequest := mkpush { ps_endpoint : string; ps_p256dh : string; ps_auth : string }.
#[export] Instance PushSubscribeRequest_schema : Schema PushSubscribeRequest := λ r,
  checked (subscription_valid (ps_endpoint r) (ps_p256dh r) (ps_auth r)) r.

Record PushUnsubscribeRequest := mkunpush { pn_endpoint : string }.
#[export] Instance PushUnsubscribeRequest_schema : Schema PushUnsubscribeRequest := λ r,
  checked (length_in 1 1024 (pn_endpoint r)) r.

(** ** Operators *)

Record CpoSetupRequest := mksetup { cs_tenant_name : string }.
#[export] Instance CpoSetupRequest_schema : Schema CpoSetupRequest := λ r,
  checked (length_in 1 100 (cs_tenant_name r)) r.

#[export] Instance CpoProfileUpdateRequest_schema : Schema CpoProfileUpdateRequest := λ r,
  checked (given (in_range 0 1440) (pr_auto_start_delay_min r) && given (in_range 1 43200) (pr_queue_ttl_min r) &&
           given (max_length 15) (pr_gstin r) && given (max_length 120) (pr_legal_name r) &&
           given (max_length 12) (pr_invoice_prefix r)) r.

Record CpoGatewayCreateRequest := mkgateway_create { gc_gateway_id : string; gc_name : string; gc_vpn_ip : string }.
#[export] Instance CpoGatewayCreateRequest_schema : Schema CpoGatewayCreateRequest := λ r,
  checked (length_in 1 50 (gc_gateway_id r) && length_in 1 100 (gc_name r) && max_length 45 (gc_vpn_ip r)) r.

Record CpoGatewayClaimRequest := mkclaim { gl_claim_code : string; gl_name : option string }.
#[export] Instance CpoGatewayClaimRequest_schema : Schema CpoGatewayClaimRequest := λ r,
  checked (length_in 1 64 (gl_claim_code r) && given (max_length 100) (gl_name r)) r.

#[export] Instance CpoGatewayOtaRequest_schema : Schema CpoGatewayOtaRequest := λ r, checked (ota_valid r) r.

Definition latitude_valid (x : float) : bool := (fint (-90) <=? x) && (x <=? fint 90).
Definition longitude_valid (x : float) : bool := (fint (-180) <=? x) && (x <=? fint 180).

(** [local_ip] is replaced by what [validate_local_ip] makes of it. *)
Definition with_local_ip (r : CpoPlugCreateRequest) (local_ip : string) : CpoPlugCreateRequest :=
  mkplug_create (pc_gateway_id r) (pc_name r) local_ip (pc_plug_model r) (pc_group_id r) (pc_latitude r)
    (pc_longitude r) (pc_rated_power_w r) (pc_connector_type r).

#[export] Instance CpoPlugCreateRequest_schema : Schema CpoPlugCreateRequest := λ r,
  if length_in 1 50 (pc_gateway_id r) && length_in 1 100 (pc_name r) && length_in 1 45 (pc_local_ip r) &&
     max_length 50 (pc_plug_model r) && given latitude_valid (pc_latitude r) &&
     given longitude_valid (pc_longitude r) && given (Z.leb 0) (pc_rated_power_w r) &&
     given (max_length 32) (pc_connector_type r)
  then local_ip ← validate_local_ip (pc_local_ip r); Some (with_local_ip r local_ip)
  else None.

Definition with_new_ip (r : CpoPlugUpdateRequest) (local_ip : option string) : CpoPlugUpdateRequest :=
  mkplug_update (pu_name r) (pu_group_id r) (pu_status r) local_ip (pu_latitude r) (pu_longitude r)
    (pu_max_current_a r) (pu_queued_charging_enabled r) (pu_auto_start_delay_min r) (pu_rated_power_w r)
    (pu_connector_type r).

#[export] Instance CpoPlugUpdateRequest_schema : Schema CpoPlugUpdateRequest := λ r,
  if given (length_in 1 100) (pu_name r) && given (max_length 32) (pu_status r) &&
     given (length_in 1 45) (pu_local_ip r) && given latitude_valid (pu_latitude r) &&
     given longitude_valid (pu_longitude r) &&
     given (λ a, (0 <=? a) && (a <=? fint 100)) (pu_max_current_a r) &&
     given (in_range 0 1440) (pu_auto_start_delay_min r) && given (Z.leb 0) (pu_rated_power_w r) &&
     given (max_length 32) (pu_connector_type r)
  then match pu_local_ip r with
       | None => Some r
       | Some ip => local_ip ← validate_local_ip ip; Some (with_new_ip r (Some local_ip))
       end
  else None.

Record CpoPlugMaintenanceRequest := mkmaintenance { pm_action : string; pm_note : option string }.
#[export] Instance CpoPlugMaintenanceRequest_schema : Schema CpoPlugMaintenanceRequest := λ r,
  checked (given (max_length 255) (pm_note r)) r.

Record CpoGroupCreateRequest := mkgroup_create { gp_name : string; gp_is_public : bool }.
#[export] Instance CpoGroupCreateRequest_schema : Schema CpoGroupCreateRequest := λ r,
  checked (length_in 1 100 (gp_name r)) r.

#[export] Instance CpoGroupUpdateRequest_schema : Schema CpoGroupUpdateRequest := λ r,
  checked (given (length_in 1 100) (gu_name r) &&
           given (λ a, (0 <=? a) && (a <=? fint 1000)) (gu_max_current_a r)) r.

Record CpoTariffCreateRequest := mktariff { tr_name : string; tr_price_per_kwh : float }.
#[export] Instance CpoTariffCreateRequest_schema : Schema CpoTariffCreateRequest := λ r,
  checked (name_valid (tr_name r) && price_valid (tr_price_per_kwh r)) r.

Record CpoTariffUpdateRequest := mktariff_update { tu_name : option string; tu_price_per_kwh : option float }.
#[export] Instance CpoTariffUpdateRequest_schema : Schema CpoTariffUpdateRequest := λ r,
  checked (given name_valid (tu_name r) && given price_valid (tu_price_per_kwh r)) r.

Record CpoTariffAssignRequest := mkassign { ta_tariff_id : option Z }.
#[export] Instance CpoTariffAssignRequest_schema : Schema CpoTariffAssignRequest := Some.

#[export] Instance CpoTariffSlotCreateRequest_schema : Schema CpoTariffSlotCreateRequest := λ r,
  checked (slot_create_valid r) r.
#[export] Instance CpoTariffSlotUpdateRequest_schema : Schema CpoTariffSlotUpdateRequest := λ r,
  checked (slot_update_valid r) r.

(** ** Administrators *)

Record AdminUserUpdateRequest := mkuser_update { uu_role : option string; uu_is_disabled : option bool }.
#[export] Instance AdminUserUpdateRequest_schema : Schema AdminUserUpdateRequest := Some.

Record AdminGatewayMintRequest := mkmint { gm_gateway_id : string; gm_name : option string }.
#[export] Instance AdminGatewayMintRequest_schema : Schema AdminGatewayMintRequest := λ r,
  checked (length_in 1 50 (gm_gateway_id r) && given (max_length 100) (gm_name r)) r.

Record AdminFirmwareReleaseCreateRequest := mkrelease {
  fr_version : string; fr_url : string; fr_notes : option string }.
#[export] Instance AdminFirmwareReleaseCreateRequest_schema : Schema AdminFirmwareReleaseCreateRequest := λ r,
  checked (release_valid (fr_version r) (fr_url r) (fr_notes r)) r.

(** ** The columns

    The widths of models.py for what the bodies of requests are written to.
    PostgreSQL refuses a longer text, and the request ends in a 500. *)

Definition tenant_fits (t : Tenant.t) : bool :=
  max_length 100 (Tenant.name t) && given (max_length 15) (Tenant.gstin t) &&
  given (max_length 120) (Tenant.legal_name t) && given (max_length 12) (Tenant.invoice_prefix t) &&
  max_length 64 (Tenant.timezone t).
Definition user_fits (u : User.t) : bool :=
  max_length 255 (User.email u) && max_length 255 (User.hashed_password u) &&
  max_length 150 (User.full_name u) && max_length 20 (User.auth_provider u) &&
  given (max_length 255) (User.google_sub u).
Definition gateway_fits (gateway_id : string) (g : Gateway.t) : bool :=
  max_length 50 gateway_id && max_length 100 (Gateway.name g) && max_length 45 (Gateway.vpn_ip g) &&
  given (max_length 32) (Gateway.firmware_version g) && given (max_length 16) (Gateway.claim_code g).
Definition plug_fits (p : Plug.t) : bool :=
  max_length 50 (Plug.gateway_id p) && max_length 100 (Plug.name p) && max_length 45 (Plug.local_ip p) &&
  max_length 50 (Plug.plug_model p) && given (max_length 128) (Plug.unique_id p) &&
  given (max_length 32) (Plug.connector_type p).
Definition group_fits (g : ChargerGroup.t) : bool :=
  max_length 100 (ChargerGroup.name g) && given (max_length 20) (ChargerGroup.access_code g).
Definition tariff_fits (t : Tariff.t) : bool := max_length 100 (Tariff.name t).
Definition release_fits (r : FirmwareRelease.t) : bool :=
  max_length 32 (FirmwareRelease.version r) && max_length 512 (FirmwareRelease.url r) &&
  given (max_length 500) (FirmwareRelease.notes r).
Definition subscription_fits (s : PushSubscription.t) : bool :=
  max_length 1024 (PushSubscription.endpoint s) && max_length 255 (PushSubscription.p256dh s) &&
  max_length 64 (PushSubscription.auth s).

Definition topup_fits (t : OfflineTopup.t) : bool := given (max_length 500) (OfflineTopup.note t).
Definition report_fits (r : PlugReport.t) : bool := max_length 32 (PlugReport.category r).
Definition entry_fits (l : LedgerTransaction.t) : bool :=
  given (max_length 64) (LedgerTransaction.razorpay_payment_id l).

Definition every `{Countable K} {V} (ok : K → V → bool) (m : gmap K V) : Prop := map_Forall (λ i x, ok i x = true) m.

Record columns_ok (d : db) : Prop := {
  fit_tenants : every (λ _, tenant_fits) (tenants d);
  fit_users : every (λ _, user_fits) (users d);
  fit_gateways : every gateway_fits (gateways d);
  fit_plugs : every (λ _, plug_fits) (plugs d);
  fit_groups : every (λ _, group_fits) (groups d);
  fit_tariffs : every (λ _, tariff_fits) (tariffs d);
  fit_releases : every (λ _, release_fits) (releases d);
  fit_subscriptions : every (λ _, subscription_fits) (push_subscriptions d);
  fit_topups : every (λ _, topup_fits) (topups d);
  fit_reports : every (λ _, report_fits) (plug_reports d);
  fit_entries : every (λ _, entry_fits) (ledger d) }.

(** In the transaction, and committed. *)
Definition texts_ok (w : world) : Prop := columns_ok (cur w) ∧ columns_ok (com w).

Section Every.
Context `{Countable K} {V : Type} (ok : K → V → bool).
Implicit Types (m : gmap K V).

Lemma every_insert m i x : ok i x = true → every ok m → every ok (<[i := x]> m).
Proof. intros Hx Hm. by apply map_Forall_insert_2. Qed.

Lemma every_alter f m i : (∀ x, ok i x = true → ok i (f x) = true) → every ok m → every ok (alter f i m).
Proof.
  intros Hf Hm j y Hy. destruct (decide (i = j)) as [<-|Hne].
  - rewrite lookup_alter_eq in Hy. destruct (m !! i) as [x|] eqn:Hx; [|done]. injection Hy as <-. apply Hf, (Hm i x Hx).
  - rewrite lookup_alter_ne in Hy by done. by apply Hm.
Qed.
End Every.

Lemma max_length_le m n s : m <= n → max_length m s = true → max_length n s = true.
Proof. unfold max_length. rewrite !Z.leb_le. lia. Qed.
Lemma length_in_max lo hi s : length_in lo hi s = true → max_length hi s = true.
Proof. unfold length_in, in_range, max_length. intros [_ H]%andb_true_iff. done. Qed.

Lemma given_map {A B} (p : B → bool) (f : A → option B) o : (∀ a, given p (f a) = true) → given p (o ≫= f) = true.
Proof. intros H. destruct o; simpl; auto. Qed.

Section Columns.
Context `{cfg : Config} `{cr : Crypto} `{ev : EmailValidator} `{rz : Razorpay}.
Implicit Types (d : db) (w : world) (user : User.t) (now uid : Z).

Lemma texts_modify f : (∀ d, columns_ok d → columns_ok (f d)) → preserves texts_ok (modify f).
Proof using Type. intros Hf w [H1 H2]. split; [by apply Hf|done]. Qed.
Lemma texts_commit : preserves texts_ok commit.
Proof using Type. intros w [H1 _]. by split. Qed.
Lemma texts_rollback : preserves texts_ok rollback.
Proof using Type. intros w [_ H2]. by split. Qed.
Lemma texts_emit e : preserves texts_ok (emit e).
Proof using Type. by intros w. Qed.
Lemma texts_fresh : preserves texts_ok fresh.
Proof using Type. intros w [H1 H2]. split; [|done]. by destruct H1. Qed.

(** A step that writes no text of these tables. *)
Ltac other_table := let d := fresh "d" in intros d []; by split.

Ltac texts_step :=
  first [ preserve_step
        | apply texts_commit | apply texts_rollback | apply texts_emit | apply texts_fresh
        | apply texts_modify; other_table ].
Ltac texts := repeat texts_step.

Lemma texts_roster gateway_id : preserves texts_ok (publish_gateway_roster gateway_id).
Proof using Type. unfold publish_gateway_roster, publish_roster_for_gateway. texts. Qed.

Lemma texts_capacity gid ex : preserves texts_ok (notify_capacity_available gid ex).
Proof using Type. unfold notify_capacity_available. texts. Qed.

(** A step that puts a row into one of the tables, or changes it there: the row
    has to fit. *)
Ltac text_row :=
  apply texts_modify; intros ? []; split; try done;
  first [ apply every_insert; [|done] | apply every_alter; [intros ? ?|done] ].

(** ** The handlers, on validated bodies *)

Ltac fits :=
  unfold plug_fits, tenant_fits, user_fits, gateway_fits, group_fits, tariff_fits, release_fits,
    subscription_fits, topup_fits, report_fits, entry_fits in *; simpl in *; rewrite ?andb_true_iff in *; destruct_and?; split_and?; try done.

(** What validation guarantees of an optional text. *)
Lemma fits_replaced n o s : given (max_length n) o = true → max_length n s = true → max_length n (replaced o s) = true.
Proof using Type. by destruct o. Qed.
Lemma fits_or_none n o s : given (max_length n) o = true → given (max_length n) s = true →
  given (max_length n) (replaced (str_or_none <$> o) s) = true.
Proof using Type. destruct o as [x|]; simpl; [|done]. unfold str_or_none. by destruct (String.eqb x ""). Qed.
Lemma fits_nonempty n o s : given (max_length n) o = true → max_length n s = true →
  max_length n (default s (o ≫= str_or_none)) = true.
Proof using Type. destruct o as [x|]; simpl; [|done]. unfold str_or_none. by destruct (String.eqb x ""). Qed.
Lemma fits_trimmed n o s : given (max_length n) o = true → given (max_length n) s = true →
  given (max_length n) (replaced (trimmed <$> o) s) = true.
Proof using Type.
  destruct o as [x|]; simpl; [|done]. unfold trimmed, str_or_none, max_length.
  pose proof (str_len_strip x). destruct (String.eqb (strip x) ""); simpl; [done|]. rewrite !Z.leb_le. lia.
Qed.
Lemma given_length lo hi o : given (length_in lo hi) o = true → given (max_length hi) o = true.
Proof using Type. destruct o; simpl; [apply length_in_max|done]. Qed.

Lemma texts_create_plug user req : plug_fits (new_plug_row req) = true → preserves texts_ok (cpo_create_plug user req).
Proof using Type.
  intros Hp. unfold cpo_create_plug, check_plug_group. texts; [text_row; done|apply texts_roster].
Qed.

Lemma texts_update_plug user i req :
  given (max_length 100) (pu_name req) = true → given (max_length 45) (pu_local_ip req) = true →
  given (max_length 32) (pu_connector_type req) = true → preserves texts_ok (cpo_update_plug user i req).
Proof using Type.
  intros Hn Hip Hc. unfold cpo_update_plug, load_tenant_plug, regroup_plug, restatus_plug, set_plug. texts.
  all: try apply texts_roster; text_row; fits; auto using fits_replaced, fits_or_none.
Qed.

Lemma texts_create_gateway user i name vpn_ip now :
  max_length 50 i = true → max_length 100 name = true → max_length 45 vpn_ip = true →
  (vpn_ip = "" → max_length 45 i = true) → preserves texts_ok (cpo_create_gateway user i name vpn_ip now).
Proof using Type.
  intros Hi Hn Hv Hfree. unfold cpo_create_gateway, require_tenant_id, insert_gateway. texts. text_row. fits.
  destruct (String.eqb_spec vpn_ip ""); auto.
Qed.

Lemma texts_claim_gateway user code name now :
  given (max_length 100) name = true → preserves texts_ok (cpo_claim_gateway user code name now).
Proof using Type.
  intros Hn. unfold cpo_claim_gateway, claim_check, claim_store, require_tenant_id. texts. text_row. fits.
  by apply fits_nonempty.
Qed.

Lemma texts_unique_claim_code tries draws : preserves texts_ok (unique_claim_code tries draws).
Proof using Type.
  revert draws. induction tries as [|tries IH]; intros [|code draws]; simpl; texts. apply IH.
Qed.

Lemma unique_claim_code_drawn tries draws w c : (unique_claim_code tries draws w).1 = Ok c → c ∈ draws.
Proof using Type.
  revert draws. induction tries as [|tries IH]; intros [|code draws]; simpl; try done.
  unfold mbind, M_bind, query at 1. simpl. case_bool_decide; simpl; [intros [= <-]; by left|].
  intros Hc. right. by apply IH.
Qed.

(** A call whose result is known to satisfy [P]. *)
Lemma preserves_bind_with {A B} (P : A → Prop) (m : M A) (k : A → M B) :
  (∀ w a, (m w).1 = Ok a → P a) → preserves texts_ok m → (∀ a, P a → preserves texts_ok (k a)) →
  preserves texts_ok (m ≫= k).
Proof using Type.
  intros HP Hm Hk w Hw. specialize (Hm w Hw). specialize (HP w). unfold mbind, M_bind.
  destruct (m w) as [[a|e] w']; [|done]. by apply (Hk a (HP a eq_refl)).
Qed.

Lemma texts_mint i name draws now :
  max_length 45 i = true → given (max_length 100) name = true → Forall (λ c, max_length 16 c = true) draws →
  preserves texts_ok (admin_mint_inventory_gateway i name draws now).
Proof using Type.
  intros Hi Hn Hdraws. unfold admin_mint_inventory_gateway. do 2 (apply preserves_bind; [texts|intros ?]).
  apply (preserves_bind_with (λ c, c ∈ draws)); [intros w c; apply unique_claim_code_drawn|apply texts_unique_claim_code|].
  intros c Hc. rewrite Forall_forall in Hdraws. unfold insert_gateway. texts. text_row. fits.
  - by eapply max_length_le; [|exact Hi].
  - apply fits_nonempty; [done|]. unfold max_length in *. rewrite str_len_app. simpl. rewrite Z.leb_le in *. lia.
  - by apply Hdraws.
Qed.

Lemma access_code_drawn draws w c : (generate_unique_access_code draws w).1 = Ok c → c ∈ draws.
Proof using Type.
  induction draws as [|code draws IH]; simpl; [done|]. unfold mbind, M_bind, query at 1. simpl.
  destruct (exists_row _ _); simpl; [intros Hc; right; by apply IH|intros [= <-]; by left].
Qed.

Lemma texts_access_code draws : preserves texts_ok (generate_unique_access_code draws).
Proof using Type. induction draws as [|code draws IH]; simpl; texts. apply IH. Qed.

Lemma texts_create_group user name is_public draws :
  max_length 100 name = true → Forall (λ c, max_length 20 c = true) draws →
  preserves texts_ok (cpo_create_group user name is_public draws).
Proof using Type.
  intros Hn Hdraws. unfold cpo_create_group, require_tenant_id. apply preserves_bind; [texts|intros ?].
  apply (preserves_bind_with (λ o, given (max_length 20) o = true)).
  - intros w [c|]; [|done]. destruct is_public; [done|]. simpl. unfold mbind, M_bind.
    pose proof (access_code_drawn draws w) as Hd. destruct (generate_unique_access_code draws w) as [[x|e] w']; [|done].
    simpl in *. intros [= <-]. rewrite Forall_forall in Hdraws. by apply Hdraws, Hd.
  - texts; apply texts_access_code.
  - intros o Ho. texts. text_row. fits.
Qed.

Lemma texts_new_code gid draws :
  Forall (λ c, max_length 20 c = true) draws → preserves texts_ok (new_access_code gid draws).
Proof using Type.
  intros Hdraws. unfold new_access_code, set_group.
  apply (preserves_bind_with (λ c, c ∈ draws)); [intros w c; apply access_code_drawn|apply texts_access_code|].
  intros c Hc. rewrite Forall_forall in Hdraws. text_row. fits. by apply Hdraws.
Qed.

Lemma texts_update_group user gid req draws draws' :
  given (max_length 100) (gu_name req) = true → Forall (λ c, max_length 20 c = true) draws →
  Forall (λ c, max_length 20 c = true) draws' → preserves texts_ok (cpo_update_group user gid req draws draws').
Proof using Type.
  intros Hn H1 H2. unfold cpo_update_group, load_tenant_group, set_visibility.
  destruct (gu_name req) as [name|]; simpl in Hn.
  all: texts; first [by apply texts_new_code | apply texts_capacity | unfold set_group; text_row; fits].
Qed.

Lemma texts_setup uid user name : max_length 100 name = true → preserves texts_ok (cpo_setup uid user name).
Proof using Type.
  intros Hn. unfold cpo_setup, setup_check, setup_store, insert_tenant, on_conflict. texts; text_row; fits.
Qed.

Lemma texts_profile user req :
  given (max_length 15) (pr_gstin req) = true → given (max_length 120) (pr_legal_name req) = true →
  given (max_length 12) (pr_invoice_prefix req) = true → preserves texts_ok (cpo_update_profile user req).
Proof using Type.
  intros H1 H2 H3. unfold cpo_update_profile, load_tenant. texts. text_row. fits; by apply fits_trimmed.
Qed.

Lemma texts_create_tariff user name price : preserves texts_ok (cpo_create_tariff user name price).
Proof using Type.
  unfold cpo_create_tariff, require_tenant_id.
  destruct (name_valid name) eqn:Hn; [|by intros w].
  apply (length_in_max 1 100) in Hn. texts. text_row. fits.
Qed.

Lemma texts_update_tariff user tid name price now : preserves texts_ok (cpo_update_tariff user tid name price now).
Proof using Type.
  unfold cpo_update_tariff. destruct (given name_valid name) eqn:Hn; [|by intros w].
  apply (given_length 1 100) in Hn. apply preserves_bind; [texts|intros _]. intros w Hw.
  match goal with |- texts_ok (?m w).2 => change (wp m (λ _, texts_ok) w) end.
  unfold load_tenant_tariff. do 4 wp_step; [|done].
  apply bind_Some in H as (t & Ht & Ha). case_bool_decide; [|done]. injection Ha as ->.
  apply (wp_preserves texts_ok); [|done|done].
  apply preserves_bind; [|intros _; unfold mark_own_sessions, mark_tenant_sessions_for_reprice; texts].
  destruct Hw as [Hcur _]. pose proof (fit_tariffs _ Hcur _ _ Ht) as Hfit.
  text_row. fits. destruct name; simpl in *; [done|]. by destruct Hcur.
Qed.

Lemma texts_release version url notes : preserves texts_ok (admin_create_firmware_release version url notes).
Proof using Type.
  unfold admin_create_firmware_release. destruct (release_valid version url notes) eqn:Hv; [|by intros w].
  unfold release_valid, https_url in Hv. rewrite !andb_true_iff in Hv. destruct_and!.
  unfold check_version_free, store_release. texts; text_row; fits; by destruct notes.
Qed.

Lemma texts_push uid endpoint p256dh auth : preserves texts_ok (serve_push_subscribe uid endpoint p256dh auth).
Proof using Type.
  unfold serve_push_subscribe. destruct (subscription_valid endpoint p256dh auth) eqn:Hv; [|by intros w].
  unfold subscription_valid in Hv. rewrite !andb_true_iff in Hv. destruct_and!.
  unfold push_subscribe, insert_subscription, on_conflict. texts; text_row; fits; by eapply length_in_max.
Qed.

Lemma lower_len s : str_len (lower s) = str_len s.
Proof using Type.
  induction s as [|c s IH]; [done|]. cbn [lower str_len]. rewrite IH.
  assert (continuation (lower_ascii c) = continuation c) as ->; [|done].
  unfold lower_ascii. destruct (_ && _) eqn:Hc; [|done]. apply andb_true_iff in Hc as [H1%Nat.leb_le H2%Nat.leb_le].
  unfold continuation. rewrite Ascii.nat_ascii_embedding by lia.
  assert ((128 <=? Ascii.nat_of_ascii c)%nat = false) as -> by (apply Nat.leb_gt; lia).
  by assert ((128 <=? Ascii.nat_of_ascii c + 32)%nat = false) as -> by (apply Nat.leb_gt; lia).
Qed.

(** What the libraries write fits: an address has at most 254 characters
    (email-validator), a bcrypt hash 60. *)
Class WriterLaws : Prop := {
  email_length : ∀ s e, email_str s = Some e → str_len e <= 254;
  hash_length : ∀ p s h, bcrypt_hashpw p s = Some h → str_len h <= 60 }.

Context `{laws : !WriterLaws}.

Lemma texts_hash {B} password salt (k : string → M B) :
  (∀ h, str_len h <= 60 → preserves texts_ok (k h)) → preserves texts_ok (hash_password password salt ≫= k).
Proof using laws.
  apply (preserves_bind_with (λ h, str_len h <= 60)).
  - intros w h. unfold hash_password. destruct (bcrypt_hashpw _ _) as [x|] eqn:Hx; [|done].
    intros [= <-]. by eapply hash_length.
  - unfold hash_password. texts.
Qed.

Lemma texts_register email password full_name salt token now :
  str_len email <= 254 → max_length 150 full_name = true →
  preserves texts_ok (register email password full_name salt token now).
Proof using laws.
  intros He Hn. unfold register, register_store. cbv zeta. do 3 (apply preserves_bind; [texts|intros ?]).
  apply texts_hash. intros h Hh. unfold insert_user, on_conflict, issue_email_verification, issue_token, insert_token.
  texts. text_row. fits; unfold max_length; rewrite Z.leb_le; [|lia].
  unfold normalize_email. rewrite lower_len. pose proof (str_len_strip email). lia.
Qed.

Lemma texts_reset_password token password salt now : preserves texts_ok (reset_password token password salt now).
Proof using laws.
  unfold reset_password, reset_password_consume, find_token, consume_token. cbv zeta.
  apply preserves_bind; [texts|intros [i t]]. apply preserves_bind; [texts|intros _]. apply texts_hash.
  intros h Hh. unfold set_user. texts. text_row. fits. unfold max_length. rewrite Z.leb_le. lia.
Qed.

(** Wallet writes change no text. *)
Lemma texts_credit uid amount : preserves texts_ok (credit_wallet uid amount).
Proof using Type. unfold credit_wallet, write_balance, set_user. texts; text_row; fits. Qed.

Lemma texts_ledger l : entry_fits l = true → preserves texts_ok (add_ledger l).
Proof using Type. intros Hl. unfold add_ledger. texts. text_row. done. Qed.

Lemma texts_topup actor_id actor email coins note started now :
  given (max_length 500) note = true →
  preserves texts_ok (cpo_create_topup actor_id actor email coins note started now).
Proof using Type.
  intros Hn. unfold cpo_create_topup, require_tenant_id.
  texts; first [apply texts_credit | by apply texts_ledger | text_row; fits].
Qed.

Lemma texts_adjust uid coins : preserves texts_ok (admin_adjust_balance uid coins).
Proof using Type.
  unfold admin_adjust_balance, load_user, write_balance, set_user.
  texts; first [by apply texts_ledger | text_row; fits].
Qed.

Lemma texts_report plug_id uid category description now :
  preserves texts_ok (report_plug_problem plug_id uid category description now).
Proof using Type.
  unfold report_plug_problem, visible_plug, load_plug, ensure_plug_group_access, find_membership.
  destruct (bool_decide_reflect (category ∈ PLUG_REPORT_CATEGORIES)) as [Hc|]; [|by intros w].
  assert (Hw : max_length 32 category = true).
  { revert Hc. unfold PLUG_REPORT_CATEGORIES. rewrite !elem_of_cons, elem_of_nil.
    by intros [->|[->|[->|[->|[]]]]]. }
  texts. text_row. fits.
Qed.

Lemma texts_payment uid order_id payment_id signature :
  max_length 64 payment_id = true → preserves texts_ok (verify_payment uid order_id payment_id signature).
Proof using Type.
  intros Hp. unfold verify_payment, fetch_captured_payment, rupees_of, py_float, jget, already_credited, current_balance, credit_topup,
    commit_ledger.
  texts; first [apply texts_credit | by apply texts_ledger].
Qed.

(** ** The routes *)

Inductive body_request :=
  | PostRegister (body : RegisterRequest) (salt token : string) (now : Z)
  | PostSetup (uid : Z) (body : CpoSetupRequest)
  | PutProfile (body : CpoProfileUpdateRequest)
  | PostGateway (body : CpoGatewayCreateRequest) (now : Z)
  | PostClaim (body : CpoGatewayClaimRequest) (now : Z)
  | PostPlug (body : CpoPlugCreateRequest)
  | PatchPlug (plug_id : Z) (body : CpoPlugUpdateRequest)
  | PostGroup (body : CpoGroupCreateRequest) (draws : list string)
  | PatchGroup (group_id : Z) (body : CpoGroupUpdateRequest) (draws draws' : list string)
  | PostTariff (body : CpoTariffCreateRequest)
  | PatchTariff (tariff_id : Z) (body : CpoTariffUpdateRequest) (now : Z)
  | PostInventory (body : AdminGatewayMintRequest) (draws : list string) (now : Z)
  | PostRelease (body : AdminFirmwareReleaseCreateRequest)
  | PostPush (uid : Z) (body : PushSubscribeRequest)
  | PostReset (body : ResetPasswordRequest) (salt : string) (now : Z)
  | PostTopup (uid : Z) (body : CpoTopupCreateRequest) (started now : Z)
  | PostAdjust (user_id : Z) (body : AdminAdjustBalanceRequest)
  | PostReport (plug_id uid : Z) (body : PlugReportCreateRequest) (now : Z)
  | PostVerify (uid : Z) (body : VerifyPaymentRequest).

Definition quietly {A} (m : M A) : M unit := _ ← m; mret tt.

Definition serve_body user (r : body_request) : M unit :=
  match r with
  | PostRegister b salt token now => route (λ b : RegisterRequest,
      quietly (register (rg_email b) (rg_password b) (rg_full_name b) salt token now)) b
  | PostSetup uid b => route (λ b : CpoSetupRequest, quietly (cpo_setup uid user (cs_tenant_name b))) b
  | PutProfile b => route (cpo_update_profile user) b
  | PostGateway b now => route (λ b : CpoGatewayCreateRequest,
      cpo_create_gateway user (gc_gateway_id b) (gc_name b) (gc_vpn_ip b) now) b
  | PostClaim b now => route (λ b : CpoGatewayClaimRequest,
      quietly (cpo_claim_gateway user (gl_claim_code b) (gl_name b) now)) b
  | PostPlug b => route (λ b, quietly (cpo_create_plug user b)) b
  | PatchPlug i b => route (cpo_update_plug user i) b
  | PostGroup b draws => route (λ b : CpoGroupCreateRequest,
      quietly (cpo_create_group user (gp_name b) (gp_is_public b) draws)) b
  | PatchGroup gid b draws draws' => route (λ b, quietly (cpo_update_group user gid b draws draws')) b
  | PostTariff b => route (λ b : CpoTariffCreateRequest,
      quietly (cpo_create_tariff user (tr_name b) (tr_price_per_kwh b))) b
  | PatchTariff tid b now => route (λ b : CpoTariffUpdateRequest,
      cpo_update_tariff user tid (tu_name b) (tu_price_per_kwh b) now) b
  | PostInventory b draws now => route (λ b : AdminGatewayMintRequest,
      quietly (admin_mint_inventory_gateway (gm_gateway_id b) (gm_name b) draws now)) b
  | PostRelease b => route (λ b : AdminFirmwareReleaseCreateRequest,
      quietly (admin_create_firmware_release (fr_version b) (fr_url b) (fr_notes b))) b
  | PostPush uid b => route (λ b : PushSubscribeRequest,
      serve_push_subscribe uid (ps_endpoint b) (ps_p256dh b) (ps_auth b)) b
  | PostReset b salt now => route (λ b : ResetPasswordRequest,
      reset_password (rp_token b) (rp_password b) salt now) b
  | PostTopup uid b started now => route (λ b : CpoTopupCreateRequest,
      quietly (cpo_create_topup uid user (tc_driver_email b) (PFloat (tc_amount_coins b)) (tc_note b)
                 started now)) b
  | PostAdjust i b => route (λ b : AdminAdjustBalanceRequest,
      quietly (admin_adjust_balance i (aa_amount_coins b))) b
  | PostReport i uid b now => route (λ b : PlugReportCreateRequest,
      quietly (report_plug_problem i uid (pr_category b) (pr_description b) now)) b
  | PostVerify uid b => route (λ b : VerifyPaymentRequest,
      quietly (verify_payment uid (vp_order_id b) (vp_payment_id b) (vp_signature b))) b
  end.

(** What goes to columns that the rows do not keep, with the widths: descriptions
    of the ledger and the detail of an event.  A payment's description holds two
    figures besides, for which 40 characters are kept. *)
Definition adjust_description (reason : string) : string := "Admin balance adjustment: " +:+ reason.
Definition report_detail (category description : string) : string :=
  category +:+ ": " +:+ str_take 200 description.

Definition payment_description (inr coins payment_id : string) : string :=
  "Charging credit added: ₹" +:+ inr +:+ " → " +:+ coins +:+ " credit (Razorpay: " +:+ payment_id +:+ ")".

Definition accepted `{Schema R} {A} (f : R → list A) (b : R) : list A :=
  match validate b with Some b => f b | None => [] end.

Definition loose_texts user (r : body_request) : list (Z * string) :=
  match r with
  | PostTopup _ b _ _ => accepted (λ b, [(255, topup_description user (tc_note b))]) b
  | PostAdjust _ b => accepted (λ b, [(255, adjust_description (aa_reason b))]) b
  | PostReport _ _ b _ => accepted (λ b, [(255, report_detail (pr_category b) (pr_description b))]) b
  | PostVerify _ b => accepted (λ b, [(255 - 40, payment_description "" "" (vp_payment_id b))]) b
  | _ => []
  end.
Definition loose_ok (x : Z * string) : Prop := max_length x.1 x.2 = true.

(** Codes as they are drawn: six characters for a group, ten for a gateway. *)
Definition drawn (r : body_request) : Prop :=
  match r with
  | PostGroup _ draws => Forall (λ c, max_length 20 c = true) draws
  | PatchGroup _ _ draws draws' => Forall (λ c, max_length 20 c = true) (draws ++ draws')
  | PostInventory _ draws _ => Forall (λ c, max_length 16 c = true) draws
  | _ => True
  end.

(** What the schemas leave open: an id of 46 to 50 characters that also becomes
    [vpn_ip]; an address with a scope; the note of a cash top-up, which goes behind
    the operator's address into the 255 characters of a description; and the length
    of a payment's id, which is Razorpay's. *)
Definition narrow user (r : body_request) : Prop :=
  match r with
  | PostGateway b _ => gc_vpn_ip b = "" → str_len (gc_gateway_id b) <= 45
  | PostInventory b _ _ => str_len (gm_gateway_id b) <= 45
  | PostPlug b => has_char "%"%char (pc_local_ip b) = false
  | PatchPlug _ b => match pu_local_ip b with Some ip => has_char "%"%char ip = false | None => True end
  | PostTopup _ b _ _ => str_len (User.email user) + str_len (default "" (tc_note b)) <= 229
  | PostVerify _ b => str_len (vp_payment_id b) <= 64
  | _ => True
  end.

Lemma texts_route `{Schema R} {A} (h : R → M A) b :
  (∀ b', validate b = Some b' → preserves texts_ok (h b')) → preserves texts_ok (route h b).
Proof using Type. intros Hh. unfold route. destruct (validate b) as [b'|]; [by apply Hh|by intros w]. Qed.

Lemma texts_quietly {A} (m : M A) : preserves texts_ok m → preserves texts_ok (quietly m).
Proof using Type. intros Hm. unfold quietly. texts. done. Qed.

Lemma checked_Some {R} ok (r r' : R) : checked ok r = Some r' → ok = true ∧ r' = r.
Proof using Type. unfold checked. destruct ok; [|done]. by intros [= ->]. Qed.

Lemma texts_typed_ip b : has_char "%"%char (pc_local_ip b) = false → ∀ b', validate b = Some b' → plug_fits (new_plug_row b') = true.
Proof using Type.
  intros Hip b'. unfold validate, CpoPlugCreateRequest_schema. destruct (_ && _) eqn:Hv; [|done].
  rewrite !andb_true_iff in Hv. destruct_and!.
  destruct (validate_local_ip (pc_local_ip b)) as [c|] eqn:Hc; [|done]. intros [= <-].
  pose proof (unscoped_fits _ _ Hc Hip). pose proof (str_len_bytes c).
  fits; try (by eapply length_in_max). unfold max_length. rewrite Z.leb_le. lia.
Qed.

Lemma typed_new_ip b b' : validate b = Some b' →
  match pu_local_ip b with Some ip => has_char "%"%char ip = false | None => True end →
  given (max_length 100) (pu_name b') = true ∧ given (max_length 45) (pu_local_ip b') = true ∧
  given (max_length 32) (pu_connector_type b') = true.
Proof using Type.
  unfold validate, CpoPlugUpdateRequest_schema. destruct (_ && _) eqn:Hv; [|done].
  rewrite !andb_true_iff in Hv. destruct_and!. destruct (pu_local_ip b) as [ip|] eqn:Hip.
  - destruct (validate_local_ip ip) as [c|] eqn:Hc; [|done]. intros [= <-] Hper. simpl.
    pose proof (unscoped_fits _ _ Hc Hper). pose proof (str_len_bytes c).
    split_and!; [by eapply given_length| |done]. unfold max_length. rewrite Z.leb_le. lia.
  - intros [= <-] _. rewrite Hip. split_and!; [by eapply given_length|done|done].
Qed.

Lemma accepted_ok `{Schema R} (f : R → list (Z * string)) b :
  (∀ b', validate b = Some b' → Forall loose_ok (f b')) → Forall loose_ok (accepted f b).
Proof using Type. intros Hf. unfold accepted. destruct (validate b); auto. Qed.

Lemma loose_fit user r : narrow user r → Forall loose_ok (loose_texts user r).
Proof using Type.
  intros Hn. destruct r; simpl in Hn |- *; try done; apply accepted_ok; intros b' Hb';
    try (apply checked_Some in Hb' as [Hok ->]; rewrite ?andb_true_iff in Hok; destruct_and?);
    (apply Forall_cons; split; [|done]); unfold loose_ok, max_length; cbn [fst snd]; rewrite Z.leb_le.
  - unfold topup_description. rewrite !str_len_app.
    change (str_len "Cash top-up credited by ") with 24.
    destruct (tc_note body) as [[|c n]|]; simpl default in Hn; [|rewrite str_len_app; change (str_len ": ") with 2|];
      change (str_len "") with 0 in *; lia.
  - unfold adjust_description. rewrite str_len_app. change (str_len "Admin balance adjustment: ") with 26.
    apply length_in_max, Z.leb_le in Hok. lia.
  - unfold report_detail. rewrite !str_len_app. change (str_len ": ") with 2.
    pose proof (str_len_take 200 (pr_description body)).
    assert (str_len (pr_category body) <= 32); [|lia].
    match goal with H : bool_decide _ = true |- _ => apply bool_decide_eq_true_1 in H; revert H end.
    unfold PLUG_REPORT_CATEGORIES. rewrite !elem_of_cons, elem_of_nil.
    by intros [->|[->|[->|[->|[]]]]].
  - injection Hb' as <-. unfold payment_description. rewrite !str_len_app.
    change (str_len "Charging credit added: ₹") with 24. change (str_len " → ") with 3.
    change (str_len " credit (Razorpay: ") with 19. change (str_len ")") with 1. change (str_len "") with 0. lia.
Qed.

(** C30: a request with a body that its schema accepts puts no text into a column
    that is too narrow for it, and the database is never asked to cut one, whatever
    its handler does and wherever it stops, apart from the gaps of [narrow].  The
    requests are those whose bodies reach the columns of [columns_ok] or the texts
    of [loose_texts]. *)
Theorem columns_fit user r w :
  texts_ok w → drawn r → narrow user r →
  texts_ok (serve_body user r w).2 ∧ Forall loose_ok (loose_texts user r).
Proof using laws.
  intros Hw Hd Hn. split; [|by apply loose_fit]. revert w Hw. change (preserves texts_ok (serve_body user r)).
  destruct r; simpl in Hd, Hn; unfold serve_body; apply texts_route; intros b' Hb'; try apply texts_quietly.
  all: try (unfold validate in Hb'; simpl in Hb';
            first [apply checked_Some in Hb' as [Hok ->]; rewrite ?andb_true_iff in Hok; destruct_and?|idtac]).
  - unfold RegisterRequest_schema in Hb'. destruct (email_str _) as [e|] eqn:He; [|done].
    apply checked_Some in Hb' as [[_ Hfn]%andb_true_iff ->]. apply texts_register; [by eapply email_length|done].
  - apply texts_setup. by eapply length_in_max.
  - by apply texts_profile.
  - apply texts_create_gateway; [by eapply length_in_max..|done|].
    intros He. unfold max_length. rewrite Z.leb_le. auto.
  - by apply texts_claim_gateway.
  - apply texts_create_plug. by apply (texts_typed_ip body).
  - destruct (typed_new_ip body b' Hb' Hn) as (? & ? & ?). by apply texts_update_plug.
  - apply texts_create_group; [by eapply length_in_max|done].
  - apply Forall_app in Hd as [? ?]. apply texts_update_group; [by eapply given_length|done..].
  - apply texts_create_tariff.
  - apply texts_update_tariff.
  - apply texts_mint; [unfold max_length; by rewrite Z.leb_le|done..].
  - apply texts_release.
  - apply texts_push.
  - apply texts_reset_password.
  - by apply texts_topup.
  - apply texts_adjust.
  - apply texts_report.
  - injection Hb' as <-. apply texts_payment. unfold max_length. by rewrite Z.leb_le.
Qed.

(** ** Orders *)

Lemma paise_of_hundredths n : 0 <= n <= 10 ^ 12 → rne_red (fmul (flit n 100) (fint 100)) FU = n.
Proof using Type.
  intros Hn. pose proof FU_pos. rewrite rne_red_eq by done.
  pose proof (flit_hundredths_bounds n Hn) as [Hlo Hhi]. pose proof KU_pos as HK. div_facts (n * 1024) 100.
  unfold fmul. rewrite fint_exact by lia.
  rewrite (frnd_eq _ FU (flit n 100 * 100) 1) by (lia || ring).
  assert (Hx : (n * 1024 - 100) * KU <= flit n 100 * 100 <= (n * 1024 + 100) * KU) by nia.
  clear Hlo Hhi. generalize dependent (flit n 100 * 100). intros x Hx.
  assert (Hb : (n * 1024 - 100) * KU <= frnd x 1 <= (n * 1024 + 100) * KU).
  { rewrite <- !flit_1024 by lia. unfold flit.
    split; apply frnd_mono; [lia|lia| |lia|lia|]; rewrite FU_KU; lia. }
  apply rne_near; [done|]. rewrite FU_KU. lia.
Qed.

(** An accepted order is for a whole number of paise: it is what Razorpay is asked
    to bill, what the amount reads as in coins, and what its capture credits at
    the default of one coin per rupee. *)
Theorem order_exact (b b' : CreateOrderRequest) :
  validate b = Some b' →
  ∃ n, 0 <= n <= 1000000 ∧ co_amount_inr b' = flit n 100 ∧ to_money (PFloat (co_amount_inr b')) = n ∧
  (∀ uid order paise, create_order (co_amount_inr b') uid = Some (order, paise) → paise = n) ∧
  (COINS_PER_RUPEE = fint 1 → to_money (PFloat (calculate_coins (fdiv (fint n) (fint 100)))) = n).
Proof using Type.
  unfold validate, CreateOrderRequest_schema. intros [Hok ->]%checked_Some. rewrite !andb_true_iff in Hok.
  destruct Hok as [[Hpos%Z.ltb_lt Hmax%Z.leb_le] Hr%Z.eqb_eq]. unfold fround in Hr.
  set (n := rne_red (co_amount_inr b * 10 ^ 2) FU) in *. change (10 ^ 2) with 100 in Hr.
  pose proof FU_pos. rewrite fint_exact in Hmax by lia.
  assert (Hn : 0 <= n <= 1000000).
  { unfold n. rewrite rne_red_eq by done. split; [apply rne_ge | apply rne_le]; lia. }
  exists n. split; [done|]. split; [done|]. split; [rewrite <- Hr; apply to_money_hundredths; unfold MAX_MONEY; lia|].
  split; [|intros Hc; apply paise_roundtrip; [done|unfold MAX_MONEY; lia]].
  intros uid order paise. unfold create_order. destruct client_configured; [|done].
  rewrite <- Hr, paise_of_hundredths by lia. by destruct (order_create _ _); intros [= _ <-].
Qed.

End Columns.
