(* ===== verification/Reaper.v ===== *)
(** * services/session_reaper.py: the periodic sweeps

    Each sweep reads its candidates, then handles them one by one, each in a
    database session of its own; a candidate that fails is logged and skipped.
    A queued start is split at the commit of the claim: [queued_claim] is the
    transaction up to it, [queued_publish] the rest.  One [now] serves a whole
    sweep. *)

From S2P Require Import Prelude Rounding PyNum Money Models Slots Config Billing TelemetryStore.
From S2P Require Import World Hoare Wallet Commands Caps Pricing Reservations Lifecycle.
From S2P Require Import Ownership SessionStart Sessions.

Section Reaper.
Context `{cfg : Config}.
Implicit Types (d : db) (now sid : Z) (s : ChargingSession.t) (q : QueuedCharge.t).

Definition REAP_REASON : string := "auto-stopped: telemetry lost".
Definition TIME_LIMIT_REAP_REASON : string := "auto-stopped: time limit reached".
Definition RESERVATION_REAP_REASON : string := "auto-stopped: plug reserved".

(** [1] for a session this call finalized. *)
Definition reap sid (reason : string) now : M Z :=
  outcome ← scope (finalize_charging_session sid None (Some reason) now);
  mret (if bool_decide (is_Some outcome) then 1 else 0).

(** ** Stale sessions *)

(** [COALESCE(last_telemetry_at, started_at) < cutoff] *)
Definition stale now s : bool :=
  is_active s &&
  (default (ChargingSession.started_at s) (ChargingSession.last_telemetry_at s)
     <? now - STALE_TIMEOUT).

Definition ids {A} (l : list (Z * A)) : list Z := map fst l.

Definition reap_once now : M Z :=
  stale_ids ← scope (query (λ d, ids (select (λ _ s, stale now s) (sessions d))));
  sweep stale_ids (λ sid, reap sid REAP_REASON now).

(** ** Sessions past their duration limit *)

(** [(now - started_at).total_seconds() >= max_duration_seconds] *)
Definition outlived now s : bool :=
  is_active s &&
  match ChargingSession.max_duration_seconds s with
  | None => false
  | Some n => n * FU <=? total_seconds (now - ChargingSession.started_at s)
  end.

Definition reap_time_limited_once now : M Z :=
  if AUTO_STOP_ON_LIMITS then
    overdue_ids ← scope (query (λ d, ids (select (λ _ s, outlived now s) (sessions d))));
    sweep overdue_ids (λ sid, reap sid TIME_LIMIT_REAP_REASON now)
  else mret 0.

(** ** Repricing behind silent telemetry *)

Definition reprice_due now s : bool :=
  is_active s &&
  match ChargingSession.rate_valid_until s with Some v => v <? now | None => false end.

(** The driver to notify, when the rate changed. *)
Definition reprice_one sid now : M (option Z) :=
  session ← lock_active_session sid None;
  match session with
  | None => mret None
  | Some s =>
      plug ← query (λ d, plugs d !! ChargingSession.plug_id s);
      match plug with
      | None => commit;; mret None
      | Some plug =>
          '(s', change) ← query (λ d, reprice_session_if_due d s plug now);
          set_session sid (λ _, s');;
          commit;;
          mret (match change with Some _ => Some (ChargingSession.user_id s) | None => None end)
      end
  end.

Definition reap_reprice_once now : M Z :=
  due_ids ← scope (query (λ d, ids (select (λ _ s, reprice_due now s) (sessions d))));
  sweep due_ids (λ sid,
    changed ← scope (reprice_one sid now);
    match changed with
    | None => mret 0
    | Some uid => emit (Notify uid "rate_changed" "info" None (Some sid));; mret 1
    end).

(** ** Reservations whose window opens *)

Definition opened now (r : Reservation.t) : bool :=
  is_booked r && is_none (Reservation.started_notified_at r) &&
  (Reservation.start_at r <=? now) && (now <? Reservation.end_at r).

(** Stamps the reservation; the session of somebody else on its plug, if any.
    [None] when the reservation is no longer to be processed. *)
Definition claim_opened rid (plug_id holder_id now : Z) : M (option (option Z)) :=
  r ← query (λ d, reservations d !! rid);
  match r with
  | None => mret None
  | Some r =>
      if is_booked r && is_none (Reservation.started_notified_at r) then
        modify (λ d, d <| reservations ::=
          alter (λ r, r <| Reservation.started_notified_at := Some now |>) rid |>);;
        other ← query (λ d, head (select (λ _ s, (ChargingSession.plug_id s =? plug_id) &&
          is_active s && negb (ChargingSession.user_id s =? holder_id)) (sessions d)));
        commit;;
        mret (Some (fst <$> other))
      else mret None
  end.

Fixpoint open_windows (candidates : list (Z * Reservation.t)) now : M Z :=
  match candidates with
  | [] => mret 0
  | (rid, r) :: candidates =>
      let plug_id := Reservation.plug_id r in
      overrun ← scope (claim_opened rid plug_id (Reservation.user_id r) now);
      match overrun with
      | None => open_windows candidates now
      | Some overrun =>
          match overrun with
          | Some sid => when FORCE_STOP_WALKUP_ON_RESERVATION
              (catch (_ ← reap sid RESERVATION_REAP_REASON now; mret tt) (λ _, mret tt))
          | None => mret tt
          end;;
          emit (Notify (Reservation.user_id r) "reservation_started" "info" (Some plug_id) None);;
          n ← open_windows candidates now;
          mret (1 + n)
      end
  end.

Definition reap_reservation_starts_once now : M Z :=
  candidates ← scope (query (λ d,
    List.filter (λ x, bool_decide (is_Some (plugs d !! Reservation.plug_id x.2)))
      (select (λ _ r, opened now r) (reservations d))));
  open_windows candidates now.

(** ** Queued charges *)

Definition set_queued qid (st : QueuedChargeStatus) : M unit :=
  modify (λ d, d <| queued ::= alter (λ q, q <| QueuedCharge.status := st |>) qid |>).

(** Terminal: the status is stored and the driver told. *)
Definition settle_queued qid q (st : QueuedChargeStatus) (type : string) (plug_id : option Z) : M unit :=
  set_queued qid st;;
  commit;;
  emit (Notify (QueuedCharge.user_id q) type "warning" plug_id None).

(** Powered for the operator's debounce: not [(now - powered_since) < delay]. *)
Definition debounced now (tenant : Tenant.t) (plug : Plug.t) : bool :=
  match Plug.powered_since plug with
  | None => false
  | Some since => plug_is_powered plug now && (minutes (auto_start_delay tenant (Some plug)) <=? now - since)
  end.

(** What the queued charge is ready for: nothing yet, or a start on its plug. *)
Definition queued_gates qid q now : M (option (Plug.t * Gateway.t)) :=
  let uid := QueuedCharge.user_id q in
  let plug_id := QueuedCharge.plug_id q in
  user ← query (λ d, users d !! uid);
  match user with
  | None => set_queued qid Q_FAILED;; commit;; mret None
  | Some _ =>
      active_count ← query (λ d, count (active_of uid) (sessions d));
      if MAX_ACTIVE_SESSIONS_PER_USER <=? active_count then commit;; mret None
      else
        plug ← query (λ d, plugs d !! plug_id);
        match plug with
        | None => settle_queued qid q Q_FAILED "queued_charge_failed" None;; mret None
        | Some plug =>
            if negb (plug_is_powered plug now) || is_none (Plug.powered_since plug)
            then commit;; mret None
            else
              tenant ← query (λ d, tenants d !! QueuedCharge.tenant_id q);
              tenant ← scalar_one tenant;
              if negb (debounced now tenant plug) then commit;; mret None
              else if bool_decide (Plug.status plug = OCCUPIED) then commit;; mret None
              else if negb (bool_decide (Plug.status plug = AVAILABLE)) then
                settle_queued qid q Q_FAILED "queued_charge_failed" (Some plug_id);; mret None
              else
                _ ← expire_lapsed_reservations (on_plug plug_id) now;
                covering ← query (covering_reservation plug_id now);
                if match covering with Some (_, r) => negb (of_user uid r) | None => false end
                then commit;; mret None
                else
                  gw ← query (λ d, gateways d !! Plug.gateway_id plug);
                  gateway ← scalar_one gw;
                  mret (Some (plug, gateway))
        end
  end.

(** A start that was refused or could not be published. *)
Definition fail_queued {A} qid q (e : exn) : M (option A) :=
  match e with
  | HTTPException status _ =>
      let plug_id := Some (QueuedCharge.plug_id q) in
      (if status =? 402 then settle_queued qid q Q_EXPIRED "queued_charge_expired" plug_id
       else settle_queued qid q Q_FAILED "queued_charge_failed" plug_id);;
      mret None
  | e => raise e
  end.

(** Up to the commit of the claim. *)
Definition queued_claim qid now : M (option (QueuedCharge.t * Plug.t * (Z * money))) :=
  qc ← query (λ d, queued d !! qid);
  match qc with
  | None => mret None
  | Some q =>
      if negb (bool_decide (QueuedCharge.status q = Q_WAITING)) then mret None
      else if QueuedCharge.expires_at q <=? now then
        settle_queued qid q Q_EXPIRED "queued_charge_expired" (Some (QueuedCharge.plug_id q));;
        mret None
      else
        ready ← queued_gates qid q now;
        match ready with
        | None => mret None
        | Some (plug, gateway) =>
            catch
              (claim ← begin_claim (QueuedCharge.user_id q) (QueuedCharge.plug_id q) plug gateway
                         (QueuedCharge.max_kwh q) (QueuedCharge.max_duration_seconds q) None now;
               mret (Some (q, plug, claim)))
              (fail_queued qid q)
        end
  end.

(** From the claim's commit on: the ON command, then the row's final state. *)
Definition queued_publish qid q (plug : Plug.t) (sid : Z) (rate : money) now : M Z :=
  started ← catch
    (sid ← begin_publish sid (QueuedCharge.plug_id q) plug rate (QueuedCharge.max_kwh q)
             (QueuedCharge.max_duration_seconds q) None now;
     mret (Some sid))
    (fail_queued qid q);
  match started with
  | None => mret 0
  | Some sid =>
      modify (λ d, d <| queued ::= alter (λ q, q <| QueuedCharge.status := Q_STARTED |>
                <| QueuedCharge.started_session_id := Some sid |>) qid |>);;
      commit;;
      emit (Notify (QueuedCharge.user_id q) "queued_charge_started" "info"
              (Some (QueuedCharge.plug_id q)) (Some sid));;
      mret 1
  end.

Definition process_queued qid now : M Z :=
  claim ← queued_claim qid now;
  match claim with
  | None => mret 0
  | Some (q, plug, (sid, rate)) => queued_publish qid q plug sid rate now
  end.

Definition is_waiting q : bool := bool_decide (QueuedCharge.status q = Q_WAITING).

Definition reap_queued_starts_once now : M Z :=
  waiting_ids ← scope (query (λ d, ids (select (λ _ q, is_waiting q) (queued d))));
  sweep waiting_ids (λ qid, scope (process_queued qid now)).

(** ** Silent gateways, old log lines, one tick *)

Definition emit_connectivity (gateway_id : string) (online : bool) : M unit :=
  rows ← query (λ d, ids (select (λ _ p, bool_decide (Plug.gateway_id p = gateway_id)) (plugs d)));
  for_each rows (λ plug_id, emit (EmitPlugConnectivity plug_id online)).

Definition flag_gateway (flag : bool) (gateway_id : string) : M Z :=
  emit_connectivity gateway_id (negb flag);;
  with_mem (λ m, m <| silence_pushed ::=
    λ p, if flag then {[gateway_id]} ∪ p else p ∖ {[gateway_id]} |>);;
  mret 1.

Definition online_gateways d : list (string * Gateway.t) :=
  List.filter (λ g, bool_decide (Gateway.status g.2 = ONLINE)) (map_to_list (gateways d)).

Definition reap_gateway_silence_once now : M Z :=
  pushed ← read_mem silence_pushed;
  gws ← query online_gateways;
  let is_pushed := λ g, bool_decide (g ∈ pushed) in
  let to_flag := map fst (List.filter (λ g, negb (gateway_is_live g.2 now) && negb (is_pushed g.1)) gws) in
  let to_clear := map fst (List.filter (λ g, gateway_is_live g.2 now && is_pushed g.1) gws) in
  n ← scope (sweep to_flag (flag_gateway true));
  m ← scope (sweep to_clear (flag_gateway false));
  mret (n + m).

Definition GATEWAY_LOGS_RETENTION : Z := days 14.

Definition reap_gateway_logs_once now : M Z :=
  let old := λ l, GatewayLog.created_at l <? now - GATEWAY_LOGS_RETENTION in
  scope (
    n ← query (λ d, count old (gateway_logs d));
    modify (λ d, d <| gateway_logs ::= delete_where (λ _ l, old l) |>);;
    commit;;
    mret n).

Definition GATEWAY_LOGS_PRUNE_EVERY_N_TICKS : Z := 60.

(** One iteration of [_run] that is the [tick]th. *)
Definition run_tick tick now : M unit :=
  let guarded m := catch (_ ← m; mret tt) (λ _, mret tt) in
  guarded (reap_once now);;
  guarded (reap_time_limited_once now);;
  guarded (reap_reservation_starts_once now);;
  guarded (reap_queued_starts_once now);;
  guarded (reap_reprice_once now);;
  guarded (reap_gateway_silence_once now);;
  when (tick mod GATEWAY_LOGS_PRUNE_EVERY_N_TICKS =? 0) (guarded (reap_gateway_logs_once now)).

(** ** A finalizing sweep *)

(** Finalizing one session, as a candidate of a sweep. *)
Lemma wp_reap sid reason now Q w :
  com w = cur w → db_ok (cur w) →
  ((∀ s, ¬ may_finalize (cur w) sid None s) → Q (Ok 0) w) →
  (∀ s s' w', may_finalize (cur w) sid None s → is_active s' = false →
     sessions (com w') = <[sid := s']> (sessions (cur w)) → com w' = cur w' → db_ok (cur w') →
     Q (Ok 1) w') →
  wp (reap sid reason now) Q w.
Proof.
  intros Hcc Hok HN HS. unfold reap. wp_step. apply wp_scope_finalize; [done | done | |].
  - intros Hno. wp_step. by apply HN.
  - intros s actual b rc w' Hmay Hc Hcc' Hok'. wp_step. pose proof (f_equal sessions Hc) as Hs.
    simpl in Hs. eapply HS; [exact Hmay | | exact Hs | done | done]. done.
Qed.

Lemma sweep_reap l reason now : ∀ w,
  com w = cur w → db_ok (cur w) → NoDup l →
  (∀ sid, sid ∈ l → ∃ s, sessions (cur w) !! sid = Some s ∧ is_active s = true) →
  wp (sweep l (λ sid, reap sid reason now)) (λ out w',
    out = Ok (Z.of_nat (length l)) ∧ com w' = cur w' ∧ db_ok (cur w') ∧
    (∀ sid, sid ∈ l → ∃ s, sessions (cur w') !! sid = Some s ∧ is_active s = false) ∧
    (∀ sid, sid ∉ l → sessions (cur w') !! sid = sessions (cur w) !! sid)) w.
Proof.
  induction l as [|sid l IH]; intros w Hcc Hok Hnd Hl; simpl.
  { wp_step. split_and!; try done. by intros sid ?%not_elem_of_nil. }
  apply NoDup_cons in Hnd as [Hsid Hnd]. destruct (Hl sid) as (s0 & Hs0 & Ha0); [left|].
  wp_step. wp_step. apply wp_reap; [done | done | intros Hno; by destruct (Hno s0) |].
  intros s s' w1 _ Hs' Hsess Hcc1 Hok1. wp_step. rewrite Hcc1 in Hsess.
  eapply wp_mono; [|apply (IH w1); try done].
  - intros out w' (-> & Hcc' & Hok' & Hin & Hout). cbv beta iota. wp_step.
    split; [f_equal; lia|]. split; [done|]. split; [done|]. split.
    + intros i [->|Hi]%elem_of_cons; [|by apply Hin]. exists s'.
      by rewrite Hout, Hsess, lookup_insert_eq.
    + intros i [Hne Hi]%not_elem_of_cons. by rewrite Hout, Hsess, lookup_insert_ne.
  - intros i Hi. rewrite Hsess. rewrite lookup_insert_ne by (intros ->; done).
    apply Hl. by right.
Qed.

Lemma ids_select {A} (p : A → bool) (m : gmap Z A) i :
  i ∈ ids (select (λ _ x, p x) m) ↔ ∃ x, m !! i = Some x ∧ p x = true.
Proof.
  unfold ids. rewrite list_elem_of_fmap. split.
  - intros ([j x] & -> & Hx%elem_of_select). by exists x.
  - intros (x & Hx). exists (i, x). split; [done|]. by apply elem_of_select.
Qed.

Lemma ids_NoDup {A} (p : Z → A → bool) (m : gmap Z A) : NoDup (ids (select p m)).
Proof.
  unfold ids. assert (Hfst : ∀ l : list (Z * A), (∀ i x y, (i, x) ∈ l → (i, y) ∈ l → x = y) →
    NoDup l → NoDup (map fst l)).
  { induction l as [|[i x] l IH]; intros Hf Hnd; [constructor|].
    apply NoDup_cons in Hnd as [Hx Hnd]. simpl. apply NoDup_cons. split.
    - intros ([j y] & Hij & Hy)%list_elem_of_fmap. simpl in Hij. subst j. apply Hx.
      rewrite (Hf i x y); [done | left | by right].
    - apply IH; [|done]. intros. eapply Hf; by right. }
  apply Hfst; [|apply select_NoDup]. intros i x y [Hx _]%elem_of_select [Hy _]%elem_of_select.
  congruence.
Qed.

(** What a finalizing sweep leaves: the selected sessions, and only those, are
    over; how many they were. *)
Record swept (p : ChargingSession.t → bool) d d' (n : Z) : Prop := {
  sw_ok : db_ok d';
  sw_count : n = Z.of_nat (length (select (λ _ s, p s) (sessions d)));
  sw_done : ∀ sid s, sessions d !! sid = Some s → p s = true →
    ∃ s', sessions d' !! sid = Some s' ∧ is_active s' = false;
  sw_rest : ∀ sid s, sessions d !! sid = Some s → p s = false → sessions d' !! sid = Some s;
  sw_none : ∀ sid s, sessions d' !! sid = Some s → p s = false ∨ is_active s = false }.

Lemma finalizing_sweep p reason now w :
  (∀ s, p s = true → is_active s = true) → com w = cur w → db_ok (cur w) →
  wp (sel ← scope (query (λ d, ids (select (λ _ s, p s) (sessions d))));
      sweep sel (λ sid, reap sid reason now))
    (λ out w', ∃ n, out = Ok n ∧ swept p (cur w) (com w') n) w.
Proof.
  intros Hp Hcc Hok. wp_step. apply wp_scope. wp_step. rewrite Hcc.
  assert (w <| cur := cur w |> = w) as -> by (by destruct w).
  eapply wp_mono; [|apply sweep_reap; [done | done | apply ids_NoDup |]].
  2:{ intros sid (s & Hs & Hps)%ids_select. exists s. auto. }
  intros out w' (-> & Hcc' & Hok' & Hin & Hout). eexists. split; [done|]. rewrite Hcc'. split.
  - done.
  - unfold ids. by rewrite length_map.
  - intros sid s Hs Hps. apply Hin, ids_select. eauto.
  - intros sid s Hs Hps. rewrite Hout; [done|]. intros (s' & Hs' & Hps')%ids_select. congruence.
  - intros sid s Hs. destruct (decide (sid ∈ ids (select (λ _ s, p s) (sessions (cur w))))) as [Hi|Hi].
    + destruct (Hin sid Hi) as (s' & Hs' & Ha). right. congruence.
    + left. rewrite Hout in Hs by done. apply not_true_iff_false. intros Hps.
      apply Hi, ids_select. eauto.
Qed.

Lemma run_finalizing_sweep p reason now w :
  (∀ s, p s = true → is_active s = true) → com w = cur w → db_ok (cur w) →
  ∃ n w', run_request (sel ← scope (query (λ d, ids (select (λ _ s, p s) (sessions d))));
                       sweep sel (λ sid, reap sid reason now)) w = (Ok n, w') ∧
    swept p (cur w) (com w') n ∧
    ∀ sid s, sessions (com w') !! sid = Some s → p s = false.
Proof.
  intros Hp Hcc Hok. apply (run_request_ok _ (λ n d', swept p (cur w) d' n ∧
    ∀ sid s, sessions d' !! sid = Some s → p s = false)).
  eapply wp_mono; [|by apply finalizing_sweep]. intros out w' (n & -> & Hs). exists n.
  split_and!; [done..|]. intros sid s Hs'. destruct (sw_none _ _ _ _ Hs sid s Hs') as [|Ha]; [done|].
  apply not_true_iff_false. intros Hps%Hp. congruence.
Qed.

(** C39: no session survives a silent charger: a sweep finalizes every ACTIVE
    session whose last sign of life is older than the timeout, each exactly
    once, and touches no other session; afterwards none is stale.  The sweep
    itself always completes. *)
Theorem reap_once_clears now w :
  com w = cur w → db_ok (cur w) →
  ∃ n w', run_request (reap_once now) w = (Ok n, w') ∧
    swept (stale now) (cur w) (com w') n ∧
    ∀ sid s, sessions (com w') !! sid = Some s → stale now s = false.
Proof.
  intros Hcc Hok. unfold reap_once. apply (run_finalizing_sweep (stale now)); [|done..].
  intros s Hs. by apply andb_prop in Hs as [? _].
Qed.

(** C40: a session does not outlive its duration limit by more than a sweep: with
    the limits enforced, a sweep finalizes every ACTIVE session that has lasted
    its own [max_duration_seconds] and touches no other. *)
Theorem reap_time_limited_clears now w :
  AUTO_STOP_ON_LIMITS = true → com w = cur w → db_ok (cur w) →
  ∃ n w', run_request (reap_time_limited_once now) w = (Ok n, w') ∧
    swept (outlived now) (cur w) (com w') n ∧
    ∀ sid s, sessions (com w') !! sid = Some s → outlived now s = false.
Proof.
  intros Hon Hcc Hok. unfold reap_time_limited_once. rewrite Hon. apply (run_finalizing_sweep (outlived now)); [|done..].
  intros s Hs. by apply andb_prop in Hs as [? _].
Qed.

(** ** Queued charges *)

(** A queued row, as the transaction and as everybody else sees it. *)
Definition queued_row qid (r : option QueuedCharge.t) (w : world) : Prop :=
  queued (cur w) !! qid = r ∧ queued (com w) !! qid = r.

Lemma preserves_scope {A} (I : world → Prop) (m : M A) :
  (∀ w, I w → I (w <| cur := com w |>)) → preserves I m → preserves I (scope m).
Proof.
  intros HI Hm w Hw. unfold scope, run_request. specialize (Hm w Hw). destruct (m w) as [r w'].
  by apply HI.
Qed.

Ltac keep_row :=
  repeat first
    [ preserve_step
    | match goal with |- preserves _ (if ?b then _ else _) => destruct b end ];
  try (intros ? []; split; simpl; done).

Lemma keep_admission j r plug_id plug : preserves (queued_row j r) (check_circuit_admission plug_id plug).
Proof. unfold check_circuit_admission. keep_row. Qed.
Lemma keep_interval j r plug_id ms : preserves (queued_row j r) (set_plug_telemetry_interval plug_id ms).
Proof. unfold set_plug_telemetry_interval, send_plug_interval, publish. keep_row. Qed.
Lemma keep_claim j r uid plug_id plug gw max_kwh max_duration covering now :
  preserves (queued_row j r) (begin_claim uid plug_id plug gw max_kwh max_duration covering now).
Proof.
  unfold begin_claim, available_balance, fulfil, set_plug_status. keep_row. apply keep_admission.
Qed.
Lemma keep_publish j r sid plug_id plug rate max_kwh max_duration covering now :
  preserves (queued_row j r) (begin_publish sid plug_id plug rate max_kwh max_duration covering now).
Proof.
  unfold begin_publish, send_plug_command, publish, undo_claim, set_session, set_plug_status, rebook.
  keep_row. apply keep_interval.
Qed.

Section OtherRow.
Context (j qid : Z) (r : option QueuedCharge.t) (Hne : qid ≠ j).

Lemma keep_settle q st ty plug_id : preserves (queued_row j r) (settle_queued qid q st ty plug_id).
Proof using Hne.
  unfold settle_queued, set_queued. keep_row.
  intros w [H1 H2]. split; simpl; [by rewrite lookup_alter_ne | done].
Qed.

Lemma keep_fail {A} q e : preserves (queued_row j r) (@fail_queued A qid q e).
Proof using Hne. unfold fail_queued. keep_row; apply keep_settle. Qed.

Lemma keep_process now : preserves (queued_row j r) (process_queued qid now).
Proof using Hne.
  unfold process_queued, queued_claim, queued_gates, queued_publish, expire_lapsed_reservations.
  keep_row; try first [apply keep_settle | apply keep_fail | apply keep_claim | apply keep_publish].
  all: intros w [H1 H2]; split; simpl; [by rewrite lookup_alter_ne | done].
Qed.
End OtherRow.

(** A waiting row past its expiry is settled by its own step. *)
Lemma wp_expired qid q now w :
  queued_row qid (Some q) w → is_waiting q = true → QueuedCharge.expires_at q <= now →
  wp (scope (process_queued qid now)) (λ out w',
    out = Ok 0 ∧ queued_row qid (Some (q <| QueuedCharge.status := Q_EXPIRED |>)) w') w.
Proof.
  intros [Hq _] Hw He. apply wp_scope. unfold process_queued, queued_claim, settle_queued, set_queued.
  do 3 wp_step. rewrite Hq. cbv iota.
  unfold is_waiting in Hw. rewrite Hw. simpl negb. cbv iota. rewrite (proj2 (Z.leb_le _ _) He).
  repeat wp_step. split; [done|]. split; simpl; by rewrite lookup_alter_eq, Hq.
Qed.

Lemma keep_row_scope j r qid now :
  qid ≠ j → preserves (queued_row j r) (scope (process_queued qid now)).
Proof. intros Hne. apply preserves_scope; [by intros w [_ H] | by apply keep_process]. Qed.

Lemma sweep_queued j now l : ∀ q w,
  NoDup l → queued_row j (Some q) w → is_waiting q = true → QueuedCharge.expires_at q <= now →
  j ∈ l →
  wp (sweep l (λ qid, scope (process_queued qid now))) (λ _ w',
    queued_row j (Some (q <| QueuedCharge.status := Q_EXPIRED |>)) w') w.
Proof.
  assert (Hkeep : ∀ l r, j ∉ l →
    preserves (queued_row j r) (sweep l (λ qid, scope (process_queued qid now)))).
  { clear. induction l as [|x l IH]; intros r Hj; simpl; [apply preserves_ret|].
    apply not_elem_of_cons in Hj as [Hne Hj].
    apply preserves_bind;
      [apply preserves_catch; [by apply keep_row_scope | intros e; apply preserves_ret]|]. intros n.
    apply preserves_bind; [by apply IH | intros k; apply preserves_ret]. }
  induction l as [|x l IH]; intros q w Hnd Hq Hw He Hj; [by apply not_elem_of_nil in Hj|]. simpl.
  apply NoDup_cons in Hnd as [Hx Hnd]. destruct (decide (x = j)) as [->|Hne].
  - wp_step. wp_step. eapply wp_mono; [|by eapply wp_expired]. intros out w1 [-> Hq1]. cbv iota. wp_step.
    apply (wp_preserves _ _ _ _ (Hkeep l _ Hx) Hq1). intros [k|e] w2 Hq2; [by wp_step | done].
  - apply elem_of_cons in Hj as [->|Hj]; [done|]. wp_step. wp_step.
    apply (wp_preserves _ _ _ _ (keep_row_scope j (Some q) x now Hne) Hq). intros out w1 Hq1.
    assert (Hrest : wp (sweep l (λ qid, scope (process_queued qid now)))
      (λ _ w', queued_row j (Some (q <| QueuedCharge.status := Q_EXPIRED |>)) w') w1)
      by (by apply IH).
    destruct out as [n|e]; cbv iota; repeat wp_step;
      (eapply wp_mono; [|exact Hrest]; intros [k|e'] w2 Hq2; [by wp_step | done]).
Qed.

(** A queued charge never waits forever: a sweep settles every charge still
    WAITING past its time to live as EXPIRED, whatever happens to the other
    rows: starts, refusals, publish failures, errors. *)
Theorem queued_expiry now w qid q :
  com w = cur w → queued (cur w) !! qid = Some q → is_waiting q = true →
  QueuedCharge.expires_at q <= now →
  queued (com (run_request (reap_queued_starts_once now) w).2) !! qid =
    Some (q <| QueuedCharge.status := Q_EXPIRED |>).
Proof.
  intros Hcc Hq Hw He.
  assert (H : wp (reap_queued_starts_once now) (λ _ w',
    queued_row qid (Some (q <| QueuedCharge.status := Q_EXPIRED |>)) w') w).
  { unfold reap_queued_starts_once. wp_step. apply wp_scope. wp_step. rewrite Hcc.
    assert (w <| cur := cur w |> = w) as -> by (by destruct w).
    apply sweep_queued; [apply ids_NoDup | split; congruence | done | done |].
    apply (ids_select is_waiting). eauto. }
  unfold wp, run_request in *. by destruct (reap_queued_starts_once now w) as [out w'], H as [_ H].
Qed.
End Reaper.
