(* ===== verification/Alarms.v ===== *)
(** * services/mqtt/alarms.py: safety cutoffs and other gateway events

    [handle_gateway_alarm] reads the payload; [persist_gateway_event] stores the
    event in a transaction of its own, then finalizes the session a cutoff has
    stopped and takes a faulty plug out of service, each in its own
    transaction.  The human-readable [detail] is not kept. *)

From S2P Require Import Prelude Rounding PyNum Money Models Config Billing TelemetryStore.
From S2P Require Import World Hoare PyString PyJson Wallet Caps Lifecycle Ownership.

(** [_EVENT_SEVERITY.get(event_type, "warning")] *)
Definition event_severity (event_type : string) : string :=
  let named s := String.eqb event_type s in
  if named "THERMAL_CUTOFF" || named "OVERCURRENT_CUTOFF" || named "UNAUTHORIZED_ON" then "critical"
  else if named "LOCAL_LIMIT_CUTOFF" || named "OTA_STARTED" || named "OTA_OK_REBOOTING" ||
          named "OTA_REFUSED_SESSION_ACTIVE" || named "GATEWAY_BOOT" || named "PLUG_RECOVERED" then "info"
  else "warning".

(** [_PRE_ACKED_EVENT_TYPES] *)
Definition pre_acked (event_type : string) : bool :=
  String.eqb event_type "GATEWAY_BOOT" || String.eqb event_type "PLUG_RECOVERED".

(** [_FINALIZE_ALARM_REASONS] *)
Definition finalize_reason (event_type : string) : option string :=
  let named s := String.eqb event_type s in
  if named "THERMAL_CUTOFF" then Some "safety cutoff: plug reported overheat"%string
  else if named "OVERCURRENT_CUTOFF" then Some "safety cutoff: plug reported over-current"%string
  else if named "OVERCURRENT_CAP" then Some "current cap exceeded: plug drew over its configured limit"%string
  else if named "LOCAL_LIMIT_CUTOFF"
       then Some "limit reached: session hit its energy/duration limit"%string
  else None.

(** [_MAINTENANCE_ALARM_REASONS] *)
Definition maintenance_alarm (event_type : string) : bool :=
  String.eqb event_type "THERMAL_CUTOFF" || String.eqb event_type "OVERCURRENT_CUTOFF".

Section Alarms.
Context `{cfg : Config} `{pystr : PyStr}.
Implicit Types (d : db) (plug_id now : Z) (gateway_id : string).

(** The claimed plug, when it is one of the gateway's own. *)
Definition owned_plug gateway_id (plug_id : option Z) d : option Z :=
  pid ← plug_id; p ← plugs d !! pid;
  if bool_decide (Plug.gateway_id p = gateway_id) then Some pid else None.

(** The query for it: a stored id fits its column, a claimed one may not. *)
Definition claimed_plug gateway_id (plug_id : option Z) : M (option Z) :=
  found ← query (λ d, pid ← plug_id; plugs d !! pid);
  match plug_id, found with
  | Some pid, None => if int4 pid then mret None else raise DataError
  | _, _ => query (owned_plug gateway_id plug_id)
  end.

(** [gateway_events.tenant_id] is NOT NULL. *)
Definition insert_event gateway_id (tenant_id plug_id : option Z) (event_type severity : string)
    : M Z :=
  match tenant_id with
  | None => raise IntegrityError
  | Some tid =>
      i ← fresh;
      modify (λ d, d <| gateway_events ::= <[i :=
        GatewayEvent.mk tid gateway_id plug_id event_type severity (pre_acked event_type)]> |>);;
      mret tid
  end.

(** The transaction: the event's tenant and the plug it is about. *)
Definition store_event gateway_id (plug_id : option Z) (event_type severity : string)
    : M (option (Z * option Z)) :=
  gw ← query (λ d, gateways d !! gateway_id);
  match gw with
  | None => mret None
  | Some gw =>
      plug_id ← claimed_plug gateway_id plug_id;
      tid ← insert_event gateway_id (Gateway.tenant_id gw) plug_id event_type severity;
      commit;;
      mret (Some (tid, plug_id))
  end.

Definition running_on plug_id (_ : Z) (s : ChargingSession.t) : bool :=
  (ChargingSession.plug_id s =? plug_id) && is_active s.

Definition finalize_session_after_cutoff plug_id (reason : string) now : M unit :=
  catch
    (sid ← scope (rows ← query (λ d, map fst (select (running_on plug_id) (sessions d)));
                  one_or_none rows);
     match sid with
     | None => mret tt
     | Some sid => _ ← scope (finalize_charging_session sid None (Some reason) now); mret tt
     end)
    (λ _, mret tt).

Definition auto_enter_maintenance plug_id : M unit :=
  changed ← catch
    (scope (
       plug ← query (λ d, plugs d !! plug_id);
       match plug with
       | None => mret false
       | Some plug =>
           if bool_decide (Plug.status plug = MAINTENANCE) then mret false
           else set_plug_status plug_id MAINTENANCE;; commit;; mret true
       end))
    (λ _, mret false);
  when changed (emit (EmitPlugStatus plug_id MAINTENANCE)).

Definition is_cpo_of (tenant_id : Z) (_ : Z) (u : User.t) : bool :=
  bool_decide (User.tenant_id u = Some tenant_id) && bool_decide (User.role u = CPO).

Definition notify_cpos_unmetered_consumption (tenant_id plug_id : Z) : M unit :=
  cpos ← scope (query (λ d, map fst (select (is_cpo_of tenant_id) (users d))));
  for_each cpos (λ cpo, emit (Notify cpo "unmetered_consumption" "warning" (Some plug_id) None)).

Definition persist_gateway_event gateway_id (plug_id : option Z) (event_type severity : string) now
    : M unit :=
  stored ← catch (scope (store_event gateway_id plug_id event_type severity)) (λ _, mret None);
  match stored with
  | None => mret tt
  | Some (tid, plug_id) =>
      emit (EmitGatewayAlarm gateway_id plug_id event_type severity);;
      match plug_id with
      | None => mret tt
      | Some pid =>
          when (String.eqb event_type "UNMETERED_CONSUMPTION")
            (notify_cpos_unmetered_consumption tid pid);;
          match finalize_reason event_type with
          | Some reason => finalize_session_after_cutoff pid reason now
          | None => mret tt
          end;;
          when (AUTO_MAINTENANCE_ON_CRITICAL_ALARM && maintenance_alarm event_type)
            (auto_enter_maintenance pid)
      end
  end.

(** The event's type and the plug it names; [None] drops the message. *)
Definition parse_alarm (p : payload) : option (string * option Z) :=
  let raw := vor (vget_none "error" p) (vget_none "event" p) in
  if negb (vtruthy raw) then None
  else
    let v := vget_none "plug_id" p in
    let plug_id := if vnull v then None
                   else match vint v with Ok n => Some n | Raise _ => None end in
    Some (str_take 48 (py_str raw), plug_id).

Definition handle_gateway_alarm gateway_id (p : payload) now : M unit :=
  match parse_alarm p with
  | None => mret tt
  | Some (event_type, plug_id) =>
      persist_gateway_event gateway_id plug_id event_type (event_severity event_type) now
  end.

(** ** Cutoffs *)

(** No session runs on the plug. *)
Definition idle d plug_id : Prop :=
  ∀ sid s, sessions d !! sid = Some s → is_active s = true → ChargingSession.plug_id s ≠ plug_id.

Lemma owned_plug_spec gateway_id claimed d pid :
  owned_plug gateway_id claimed d = Some pid ↔ claimed = Some pid ∧ owned gateway_id d pid.
Proof.
  unfold owned_plug, owned. destruct claimed as [i|]; simpl; [|by split; [|intros [? _]]].
  destruct (plugs d !! i) as [p|] eqn:Hp; simpl.
  - case_bool_decide as Hg.
    + split; [intros [= <-]; eauto | intros [[= <-] _]; done].
    + split; [done | intros [[= <-] (q & Hq & ?)]; congruence].
  - split; [done | intros [[= <-] (q & Hq & ?)]; congruence].
Qed.

Lemma running_rows d pid :
  db_ok d → select (running_on pid) (sessions d) = [] ∧ idle d pid ∨
  ∃ sid s, select (running_on pid) (sessions d) = [(sid, s)] ∧ sessions d !! sid = Some s ∧
    is_active s = true ∧ ChargingSession.plug_id s = pid.
Proof.
  intros Hok. destruct (select_unique (running_on pid) (sessions d)) as [Hn|(i & s & Hsel & Hi & Hp)].
  - unfold running_on. intros i j x y Hx Hy [Hx1 Hx2]%andb_true_iff [Hy1 Hy2]%andb_true_iff.
    passed. apply (ok_one d Hok i j x y); congruence.
  - left. split; [done|]. intros sid s Hs Ha Hpid.
    assert (H : (sid, s) ∈ select (running_on pid) (sessions d)).
    { apply elem_of_select. split; [done|]. unfold running_on. by rewrite Ha, Hpid, Z.eqb_refl. }
    rewrite Hn in H. by apply not_elem_of_nil in H.
  - right. exists i, s. unfold running_on in Hp. apply andb_true_iff in Hp as [? ?]. passed. done.
Qed.

(** Reading in a session of its own leaves the world as it was. *)
Lemma clean_world w : com w = cur w → w <| cur := com w |> = w.
Proof. intros ->. by destruct w. Qed.

Lemma wp_cutoff gateway_id pid reason now Q w :
  com w = cur w → db_ok (cur w) → owned gateway_id (cur w) pid →
  (∀ w', com w' = cur w' → db_ok (cur w') → within_gateway gateway_id (cur w) (cur w') →
     idle (cur w') pid → Q (Ok tt) w') →
  wp (finalize_session_after_cutoff pid reason now) Q w.
Proof.
  intros Hcc Hok (p & Hp & Hg) HQ. unfold finalize_session_after_cutoff. do 2 wp_step.
  apply wp_scope. do 2 wp_step.
  destruct (running_rows (cur w) pid Hok) as [[-> Hidle]|(sid & s & -> & Hs & Ha & Hpid)]; simpl;
    wp_step; rewrite (clean_world w Hcc).
  - wp_step. by apply HQ.
  - wp_step. apply wp_scope_finalize; [done | done | intros Hno; by destruct (Hno s) |].
    intros s0 actual b rc w' (Hs0 & _) Hc Hcc' Hok'. cbv beta iota. wp_step.
    assert (s0 = s) as -> by congruence. rewrite Hcc' in Hc.
    assert (Hr : runs_at gateway_id (cur w) s)
      by (apply owned_runs_at; [done|]; rewrite Hpid; by exists p).
    apply HQ; try done; [by eapply within_settled|].
    intros i x Hi Hx Hxp. pose proof (f_equal sessions Hc) as Hss. simpl in Hss. rewrite Hss in Hi.
    destruct (decide (sid = i)) as [<-|Hne].
    + rewrite lookup_insert_eq in Hi. by apply (inj Some) in Hi as <-.
    + rewrite lookup_insert_ne in Hi by done. apply Hne. eapply (ok_one _ Hok); eauto; congruence.
Qed.

Lemma wp_maintenance gateway_id pid Q w :
  com w = cur w → db_ok (cur w) → owned gateway_id (cur w) pid →
  (∀ w', com w' = cur w' → db_ok (cur w') → within_gateway gateway_id (cur w) (cur w') →
     sessions (cur w') = sessions (cur w) →
     (∃ p, plugs (cur w') !! pid = Some p ∧ Plug.status p = MAINTENANCE) → Q (Ok tt) w') →
  wp (auto_enter_maintenance pid) Q w.
Proof.
  intros Hcc Hok (p & Hp & Hg) HQ. unfold auto_enter_maintenance, set_plug_status. do 2 wp_step.
  apply wp_scope. do 2 wp_step. rewrite Hp. case_bool_decide as Hst.
  - repeat wp_step; rewrite ?(clean_world w Hcc); [done|]. apply HQ; try done; eauto.
  - repeat wp_step; [|done]. apply HQ; simpl; try done.
    + by apply (db_ok_plug (cur w) _ pid (λ p, p <| Plug.status := MAINTENANCE |>)).
    + by apply (within_plug gateway_id _ _ pid p (λ p, p <| Plug.status := MAINTENANCE |>)).
    + rewrite lookup_alter_eq, Hp. by eexists.
Qed.

(** The event's own transaction: dropped for an unknown gateway, else stored;
    the plug it claims survives only when it is the gateway's. *)
Lemma wp_claimed_plug gateway_id claimed (Q : result (option Z) → world → Prop) w :
  Q (Ok (owned_plug gateway_id claimed (cur w))) w →
  (owned_plug gateway_id claimed (cur w) = None → Q (Raise DataError) w) →
  wp (claimed_plug gateway_id claimed) Q w.
Proof.
  unfold claimed_plug. intros HO HE. do 2 wp_step. destruct claimed as [pid|]; [|by wp_step].
  destruct (plugs (cur w) !! pid) as [p|] eqn:Hp; [by cbn; rewrite Hp; wp_step|].
  assert (Hn : owned_plug gateway_id (Some pid) (cur w) = None) by (cbn; by rewrite Hp).
  rewrite Hn in *. cbn. rewrite Hp. destruct (int4 pid); wp_step; auto.
Qed.

Lemma wp_store_event gateway_id claimed event_type severity Q w :
  com w = cur w → db_ok (cur w) →
  ((∀ gw, gateways (cur w) !! gateway_id = Some gw → Gateway.tenant_id gw = None) ∨
   owned_plug gateway_id claimed (cur w) = None → Q (Ok None) w) →
  (∀ tid w', com w' = cur w' → db_ok (cur w') → within_gateway gateway_id (cur w) (cur w') →
     sessions (cur w') = sessions (cur w) → plugs (cur w') = plugs (cur w) →
     Q (Ok (Some (tid, owned_plug gateway_id claimed (cur w)))) w') →
  wp (catch (scope (store_event gateway_id claimed event_type severity)) (λ _, mret None)) Q w.
Proof.
  intros Hcc Hok HN HS. wp_step. apply wp_scope. unfold store_event, insert_event. do 2 wp_step.
  destruct (gateways (cur w) !! gateway_id) as [gw|] eqn:Hgw.
  - wp_step. apply wp_claimed_plug; [|by intros; wp_step; rewrite (clean_world w Hcc); apply HN; right].
    repeat wp_step; rewrite ?(clean_world w Hcc).
    + apply HS; simpl; try done; [|by apply within_frame].
      apply (db_ok_frame (cur w)); simpl; try done. lia.
    + apply HN. left. by intros ? [= <-].
  - wp_step. rewrite (clean_world w Hcc). apply HN. by left.
Qed.

Lemma wp_notify_cpos tid pid Q w :
  com w = cur w → (∀ w', com w' = cur w' → cur w' = cur w → Q (Ok tt) w') →
  wp (notify_cpos_unmetered_consumption tid pid) Q w.
Proof.
  intros Hcc HQ. unfold notify_cpos_unmetered_consumption. wp_step. apply wp_scope. wp_step.
  rewrite (clean_world w Hcc). generalize (map fst (select (is_cpo_of tid) (users (cur w)))). intros l.
  assert (H : ∀ w0, com w0 = cur w0 → cur w0 = cur w →
    wp (for_each l (λ cpo, emit (Notify cpo "unmetered_consumption" "warning" (Some pid) None))) Q w0);
    [|by apply H].
  clear Hcc. induction l as [|u l IH]; intros w0 Hcc0 Hc0; simpl.
  - wp_step. by apply HQ.
  - do 2 wp_step. by apply IH.
Qed.

(** What a stored event leads to. *)
Record alarm_effect gateway_id d d' (plug_id : option Z) (event_type : string) : Prop := {
  al_ok : db_ok d';
  al_within : within_gateway gateway_id d d';
  al_quiet : finalize_reason event_type = None → sessions d' = sessions d;
  al_idle : ∀ pid, plug_id = Some pid → is_Some (finalize_reason event_type) → idle d' pid;
  al_out : ∀ pid, plug_id = Some pid → AUTO_MAINTENANCE_ON_CRITICAL_ALARM = true →
    maintenance_alarm event_type = true →
    ∃ p, plugs d' !! pid = Some p ∧ Plug.status p = MAINTENANCE }.

Lemma wp_gateway_event gateway_id claimed event_type severity now Q w :
  com w = cur w → db_ok (cur w) →
  (∀ w' target, com w' = cur w' → alarm_effect gateway_id (cur w) (cur w') target event_type →
     (∀ gw tid, gateways (cur w) !! gateway_id = Some gw → Gateway.tenant_id gw = Some tid →
        target = owned_plug gateway_id claimed (cur w)) → Q (Ok tt) w') →
  wp (persist_gateway_event gateway_id claimed event_type severity now) Q w.
Proof.
  intros Hcc Hok HQ. unfold persist_gateway_event. wp_step. apply wp_store_event; [done | done | |].
  { intros Hno. wp_step. apply (HQ w None); [done | by split | intros gw tid Hg Ht].
    destruct Hno as [Hno|Hno]; [|done]. rewrite (Hno gw Hg) in Ht. done. }
  intros tid w1 Hcc1 Hok1 Hw1 Hs1 Hp1. do 2 wp_step.
  destruct (owned_plug gateway_id claimed (cur w)) as [pid|] eqn:Hown.
  2:{ wp_step. apply (HQ _ None); [done | by split | done]. }
  apply owned_plug_spec in Hown as [-> Hown].
  assert (Hown1 : owned gateway_id (cur w1) pid) by (unfold owned; by rewrite Hp1).
  set (w2 := w1 <| evs ::= _ |>). assert (Hw2 : within_gateway gateway_id (cur w) (cur w2)) by done.
  assert (Hcc2 : com w2 = cur w2) by done. assert (Hok2 : db_ok (cur w2)) by done.
  assert (Hown2 : owned gateway_id (cur w2) pid) by done.
  assert (Hs2 : sessions (cur w2) = sessions (cur w)) by done. clearbody w2. clear w1 Hcc1 Hok1 Hw1 Hs1 Hp1 Hown1.
  wp_step.
  assert (Hrest : ∀ w3, com w3 = cur w3 → cur w3 = cur w2 →
    wp (match finalize_reason event_type with
        | Some reason => finalize_session_after_cutoff pid reason now | None => mret tt end;;
        when (AUTO_MAINTENANCE_ON_CRITICAL_ALARM && maintenance_alarm event_type)
          (auto_enter_maintenance pid)) Q w3).
  2:{ wp_step; [apply wp_notify_cpos; [done|]; intros w3 Hcc3 Hc3 |]; by apply Hrest. }
  intros w3 Hcc3 Hc3. rewrite <- Hc3 in *. clear w2 Hcc2 Hc3. wp_step.
  assert (Hmaint : ∀ w4, com w4 = cur w4 → db_ok (cur w4) →
    within_gateway gateway_id (cur w3) (cur w4) →
    (finalize_reason event_type = None → sessions (cur w4) = sessions (cur w3)) →
    (is_Some (finalize_reason event_type) → idle (cur w4) pid) →
    wp (when (AUTO_MAINTENANCE_ON_CRITICAL_ALARM && maintenance_alarm event_type)
          (auto_enter_maintenance pid)) Q w4).
  { intros w4 Hcc4 Hok4 Hw4 Hq4 Hi4.
    assert (Hown4 : owned gateway_id (cur w4) pid).
    { by eapply within_owned. }
    wp_step.
    - apply (wp_maintenance gateway_id); [done..|]. intros w5 Hcc5 Hok5 Hw5 Hs5 Hp5.
      apply (HQ _ (Some pid)); [done | split; try done | done].
      + by transitivity (cur w3); [|transitivity (cur w4)].
      + intros Hn. rewrite Hs5, Hq4; done.
      + intros ? [= <-] Hf. unfold idle. rewrite Hs5. by apply Hi4.
      + by intros ? [= <-].
    - apply (HQ _ (Some pid)); [done | split; try done | done].
      + by transitivity (cur w3).
      + intros Hn. rewrite Hq4; done.
      + by intros ? [= <-].
      + intros ? _ Hon Hm. rewrite Hon, Hm in *. done. }
  destruct (finalize_reason event_type) as [reason|] eqn:Hr.
  - apply (wp_cutoff gateway_id); [done..|]. intros w4 Hcc4 Hok4 Hw4 Hi4. by apply Hmaint.
  - wp_step. by apply Hmaint.
Qed.

(** C10: whatever a gateway sends as an alarm, only its own plugs, the sessions
    running on them and their drivers' wallets can be affected, and every
    invariant survives; and a safety cutoff of one of its plugs leaves no session
    running on that plug and, when a hardware fault, leaves the plug out of
    service. *)
Theorem alarm_correct gateway_id p now w :
  com w = cur w → db_ok (cur w) →
  let d := cur w in
  let d' := com (run_request (handle_gateway_alarm gateway_id p now) w).2 in
  db_ok d' ∧ within_gateway gateway_id d d' ∧
  ∀ event_type pid gw tid, parse_alarm p = Some (event_type, Some pid) →
    gateways d !! gateway_id = Some gw → Gateway.tenant_id gw = Some tid →
    owned gateway_id d pid →
    (is_Some (finalize_reason event_type) → idle d' pid) ∧
    (AUTO_MAINTENANCE_ON_CRITICAL_ALARM = true → maintenance_alarm event_type = true →
     ∃ plug, plugs d' !! pid = Some plug ∧ Plug.status plug = MAINTENANCE).
Proof.
  intros Hcc Hok d. unfold handle_gateway_alarm. destruct (parse_alarm p) as [[et claimed]|].
  2:{ unfold run_request. simpl. rewrite Hcc. by split_and!. }
  assert (H : wp (persist_gateway_event gateway_id claimed et (event_severity et) now) (λ _ w',
    ∃ target, alarm_effect gateway_id d (com w') target et ∧
      ∀ gw tid, gateways d !! gateway_id = Some gw → Gateway.tenant_id gw = Some tid →
        target = owned_plug gateway_id claimed d) w).
  { apply wp_gateway_event; [done | done |]. intros w' target Hcc' Heff Ht. exists target.
    rewrite Hcc'. done. }
  unfold wp, run_request in *. destruct (persist_gateway_event _ _ _ _ _ w) as [out w']. simpl in *.
  destruct H as (target & [H1 H2 _ H3 H4] & Ht). split_and!; [done..|].
  intros et' pid gw tid [= <- ->] Hgw Htid Hown.
  assert (target = Some pid) as -> by (rewrite (Ht gw tid Hgw Htid); by apply owned_plug_spec).
  split; intros; [by apply H3 | by apply H4].
Qed.
End Alarms.
