(* ===== verification/Persistence.v ===== *)
(** * services/telemetry_persistence.py: the buffered time series

    Samples wait in a bounded deque and are inserted in batches.  A flush is
    split into [drain], the transaction [insert_batch], and [rebuffer] when it
    fails: samples may be enqueued while the transaction runs. *)

From S2P Require Import Prelude Rounding PyNum Money Models Config Billing TelemetryStore.
From S2P Require Import World Hoare PyJson Wallet Caps Lifecycle Ownership Alarms.

Section Persistence.
Context `{cfg : Config}.
Implicit Types (d : db) (now : Z) (r : Sample.t) (b : list Sample.t).

(** ** [collections.deque(maxlen=BUFFER_MAX)] *)

(** [append]: a full deque loses its oldest sample. *)
Definition deque_append b r : list Sample.t :=
  drop (S (length b) - Z.to_nat BUFFER_MAX) (b ++ [r]).
(** [appendleft]: a full deque loses its newest sample. *)
Definition deque_appendleft b r : list Sample.t := take (Z.to_nat BUFFER_MAX) (r :: b).

Definition enqueue r : M unit := with_mem (λ m, m <| buffer ::= λ b, deque_append b r |>).

(** ** One flush *)

Definition drain : M (list Sample.t) :=
  batch ← read_mem buffer;
  with_mem (λ m, m <| buffer := [] |>);;
  mret batch.

Definition tenant_by_plug d (plug_id : Z) : option Z :=
  p ← plugs d !! plug_id; g ← gateways d !! Plug.gateway_id p; Gateway.tenant_id g.

Definition session_by_plug d (plug_id : Z) : option Z :=
  last (map fst (select (running_on plug_id) (sessions d))).

(** [None] for an unknown plug: the sample is skipped. *)
Definition enrich d r : option TelemetryReading.t :=
  tid ← tenant_by_plug d (Sample.plug_id r);
  Some (TelemetryReading.mk tid (session_by_plug d (Sample.plug_id r)) r).

Fixpoint no_nul (s : string) : bool :=
  match s with
  | EmptyString => true
  | String c s => negb (Ascii.eqb c Ascii.zero) && no_nul s
  end.

(** What the column [status VARCHAR(20)] takes. *)
Definition storable (st : Sample.raw_status) : bool :=
  match st with
  | Sample.SNull => true
  | Sample.SText s => (Z.of_nat (String.length s) <=? 20) && no_nul s
  | Sample.SOther => false
  end.

Fixpoint add_readings (rows : list TelemetryReading.t) (i : Z) (m : gmap Z TelemetryReading.t)
    : gmap Z TelemetryReading.t :=
  match rows with
  | [] => m
  | x :: rows => add_readings rows (i + 1) (<[i := x]> m)
  end.

(** The bulk INSERT: one bad row fails the statement. *)
Definition insert_rows (rows : list TelemetryReading.t) : M unit :=
  if forallb (λ x, storable (Sample.status (TelemetryReading.sample x))) rows then
    modify (λ d, d <| readings := add_readings rows (next_id d) (readings d) |>
                   <| next_id ::= λ i, i + Z.of_nat (length rows) |>)
  else raise DataError.

Definition insert_batch b : M unit :=
  scope (
    rows ← query (λ d, omap (enrich d) b);
    match rows with
    | [] => mret tt
    | rows => insert_rows rows;; commit
    end).

(** [for r in reversed(batch): buffer.appendleft(r)] *)
Definition rebuffer b : M unit :=
  with_mem (λ m, m <| buffer ::= λ buf, foldl deque_appendleft buf (rev b) |>).

Definition flush_once : M unit :=
  batch ← drain;
  match batch with
  | [] => mret tt
  | batch => catch (insert_batch batch) (λ _, rebuffer batch)
  end.

(** ** Retention, and one turn of the flush loop ([flush_count] so far) *)

Definition prune_old now : M unit :=
  catch (scope (
    modify (λ d, d <| readings ::= delete_where (λ _ x,
      Sample.recorded_at (TelemetryReading.sample x) <? now - days RETENTION_DAYS) |>);;
    commit)) (λ _, mret tt).

Definition flush_turn (flush_count now : Z) : M unit :=
  flush_once;;
  when ((0 <? RETENTION_DAYS) && ((flush_count + 1) mod PRUNE_EVERY_N_FLUSHES =? 0)) (prune_old now).

(** ** The deque *)

Lemma deque_append_bound b r : 0 <= BUFFER_MAX →
  Z.of_nat (length b) <= BUFFER_MAX → Z.of_nat (length (deque_append b r)) <= BUFFER_MAX.
Proof. intros H0 Hb. unfold deque_append. rewrite length_drop, length_app.
  change (length [r]) with 1%nat. lia.
Qed.

(** Appended samples keep their order, and only the oldest are lost. *)
Lemma deque_append_suffix b r : 0 < BUFFER_MAX → ∃ lost, b ++ [r] = lost ++ deque_append b r ∧
  (Z.of_nat (length b) < BUFFER_MAX → lost = []).
Proof.
  intros H0. exists (take (S (length b) - Z.to_nat BUFFER_MAX) (b ++ [r])).
  unfold deque_append. rewrite take_drop. split; [done|]. intros Hb.
  by replace (S (length b) - Z.to_nat BUFFER_MAX)%nat with 0%nat by lia.
Qed.

(** Putting a batch back before what arrived meanwhile: what exceeds the bound is
    cut from the newest end. *)
Lemma rebuffer_spec b arrived : Z.of_nat (length arrived) <= BUFFER_MAX →
  foldl deque_appendleft arrived (rev b) = take (Z.to_nat BUFFER_MAX) (b ++ arrived).
Proof.
  assert (H : ∀ l acc, Z.of_nat (length acc) <= BUFFER_MAX →
    foldl deque_appendleft acc l = take (Z.to_nat BUFFER_MAX) (rev l ++ acc)).
  { induction l as [|x l IH]; intros acc Hl; simpl; [rewrite take_ge; [done | lia]|].
    unfold deque_appendleft at 2. rewrite IH by (rewrite length_take; lia).
    rewrite <- app_assoc. simpl. rewrite !take_app, take_take. do 2 f_equal. lia. }
  intros Hl. by rewrite H, rev_involutive.
Qed.

Lemma rebuffer_all b : Z.of_nat (length b) <= BUFFER_MAX →
  foldl deque_appendleft [] (rev b) = b.
Proof.
  intros Hb. rewrite rebuffer_spec by (simpl; lia). rewrite app_nil_r, take_ge; [done | lia].
Qed.

Lemma add_readings_lookup rows : ∀ i m j,
  add_readings rows i m !! j =
    if (i <=? j) && (j <? i + Z.of_nat (length rows)) then rows !! Z.to_nat (j - i) else m !! j.
Proof.
  induction rows as [|x rows IH]; intros i m j; simpl.
  - replace (i + Z.of_nat 0) with i by lia.
    destruct (Z.leb_spec i j), (Z.ltb_spec j i); simpl; done || lia.
  - rewrite IH. destruct (decide (i = j)) as [->|Hne].
    + rewrite lookup_insert_eq, Z.sub_diag.
      destruct (Z.leb_spec (j + 1) j), (Z.leb_spec j j), (Z.ltb_spec j (j + Z.of_nat (S (length rows))));
        simpl; done || lia.
    + rewrite lookup_insert_ne by done.
      destruct (Z.leb_spec (i + 1) j), (Z.ltb_spec j (i + 1 + Z.of_nat (length rows))),
        (Z.leb_spec i j), (Z.ltb_spec j (i + Z.of_nat (S (length rows)))); simpl; try lia; try done.
      replace (Z.to_nat (j - i)) with (S (Z.to_nat (j - (i + 1)))) by lia. done.
Qed.

(** What becomes of a batch: stored whole, in order, under fresh ids, or not at
    all. *)
Definition batch_rows d b : list TelemetryReading.t := omap (enrich d) b.
Definition batch_storable d b : bool :=
  forallb (λ x, storable (Sample.status (TelemetryReading.sample x))) (batch_rows d b).

Definition stored_after d rows : db :=
  d <| readings := add_readings rows (next_id d) (readings d) |>
    <| next_id ::= λ i, i + Z.of_nat (length rows) |>.

Lemma add_nothing d : stored_after d [] = d.
Proof. unfold stored_after. destruct d; unfold set_with; simpl. by rewrite Z.add_0_r. Qed.

Lemma wp_insert_batch b Q w :
  com w = cur w →
  (batch_storable (cur w) b = true → Q (Ok tt)
     (w <| cur := stored_after (cur w) (batch_rows (cur w) b) |>
        <| com := stored_after (cur w) (batch_rows (cur w) b) |>)) →
  (batch_storable (cur w) b = false → Q (Raise DataError) w) →
  wp (insert_batch b) Q w.
Proof.
  intros Hcc HS HF. apply wp_scope. do 2 wp_step. change (omap (enrich (cur w)) b) with (batch_rows (cur w) b).
  unfold batch_storable in *. destruct (batch_rows (cur w) b) as [|row rows].
  - wp_step. specialize (HS eq_refl). rewrite add_nothing in HS. rewrite (clean_world w Hcc).
    destruct w as [c1 c2 st me ev]. simpl in *. by subst c2.
  - unfold insert_rows. repeat wp_step; rewrite ?(clean_world w Hcc); [by apply HS | by apply HF].
Qed.

Lemma wp_store_batch b w :
  com w = cur w → Z.of_nat (length b) <= BUFFER_MAX → buffer (mem w) = [] →
  wp (match b with [] => mret tt | b => catch (insert_batch b) (λ _, rebuffer b) end)
    (λ out w', out = Ok tt ∧
       if batch_storable (cur w) b then
         buffer (mem w') = [] ∧ com w' = stored_after (cur w) (batch_rows (cur w) b)
       else buffer (mem w') = b ∧ com w' = com w) w.
Proof.
  intros Hcc Hb Hbuf. destruct b as [|r b'].
  { wp_step. split_and!; [done..|]. change (batch_rows _ []) with (@nil TelemetryReading.t).
    by rewrite add_nothing. }
  set (b := r :: b') in *. clearbody b. clear r b'. wp_step. apply wp_insert_batch; [done | |].
  - by intros ->.
  - intros ->. unfold rebuffer. wp_step. split; [done|]. split; [|done]. simpl. rewrite Hbuf.
    by apply rebuffer_all.
Qed.

Lemma flush_result w :
  com w = cur w → Z.of_nat (length (buffer (mem w))) <= BUFFER_MAX →
  let '(out, w') := run_request flush_once w in
  out = Ok tt ∧ com w' = cur w' ∧
  if batch_storable (cur w) (buffer (mem w)) then
    buffer (mem w') = [] ∧ com w' = stored_after (cur w) (batch_rows (cur w) (buffer (mem w)))
  else buffer (mem w') = buffer (mem w) ∧ com w' = com w.
Proof.
  intros Hcc Hb.
  assert (H : wp flush_once (λ out w', out = Ok tt ∧
    if batch_storable (cur w) (buffer (mem w)) then
      buffer (mem w') = [] ∧ com w' = stored_after (cur w) (batch_rows (cur w) (buffer (mem w)))
    else buffer (mem w') = buffer (mem w) ∧ com w' = com w) w).
  { unfold flush_once, drain. do 6 wp_step.
    set (w0 := w <| mem ::= _ |>). change (cur w) with (cur w0). change (com w) with (com w0).
    by apply wp_store_batch. }
  unfold wp, run_request in *. destruct (flush_once w) as [out w']. simpl in *.
  destruct H as [-> H]. by destruct (batch_storable _ _).
Qed.

Lemma flush_blocked w :
  com w = cur w → Z.of_nat (length (buffer (mem w))) <= BUFFER_MAX →
  batch_storable (cur w) (buffer (mem w)) = false →
  let w' := (run_request flush_once w).2 in
  com w' = cur w' ∧ com w' = com w ∧ buffer (mem w') = buffer (mem w).
Proof.
  intros Hcc Hb Hst. pose proof (flush_result w Hcc Hb) as H. rewrite Hst in H.
  destruct (run_request flush_once w) as [out w']. destruct H as (_ & ? & ? & ?). done.
Qed.

(** A flush is all or nothing: either every buffered sample of a known plug
    becomes one reading, in the order received and under fresh ids, and the
    buffer is empty; or, as soon as one of them cannot be stored, nothing is
    stored and the buffer is exactly as before.  So one sample whose status is
    not a short string (a gateway may send any JSON there) blocks the time
    series of every plug. *)
Theorem flush_all_or_nothing w :
  com w = cur w → Z.of_nat (length (buffer (mem w))) <= BUFFER_MAX →
  let rows := batch_rows (cur w) (buffer (mem w)) in
  let '(out, w') := run_request flush_once w in
  out = Ok tt ∧
  if batch_storable (cur w) (buffer (mem w)) then
    buffer (mem w') = [] ∧
    ∀ j, readings (com w') !! j =
      if (next_id (cur w) <=? j) && (j <? next_id (cur w) + Z.of_nat (length rows))
      then rows !! Z.to_nat (j - next_id (cur w)) else readings (cur w) !! j
  else buffer (mem w') = buffer (mem w) ∧ com w' = com w.
Proof.
  intros Hcc Hb rows. pose proof (flush_result w Hcc Hb) as H.
  destruct (run_request flush_once w) as [out w']. destruct H as (-> & _ & H). split; [done|].
  destruct (batch_storable _ _); [|done]. destruct H as [-> ->]. split; [done|].
  intros j. simpl. apply add_readings_lookup.
Qed.
End Persistence.
