(* ===== verification/Telemetry.v ===== *)
(** * services/mqtt/telemetry.py: inbound telemetry

    [parse_frame] is the guarding of the payload; [persist_telemetry] the
    transaction of one frame followed by the auto-stops it may trigger, each in
    its own transaction.  [mono] is [time.monotonic()].  The manager is bound to
    a database and an event loop, as in the running server; the standalone
    branches are left out. *)

From S2P Require Import Prelude Rounding PyNum Money Models Config Billing TelemetryStore.
From S2P Require Import World Hoare PyJson Wallet Commands Caps Pricing Lifecycle Ownership.
From S2P Require Import SessionStart Alarms Persistence.

(** The result monad of the parser. *)
#[export] Instance result_bind : MBind result := λ A B k r,
  match r with Ok a => k a | Raise e => Raise e end.

(** [try: ... except (TypeError, ValueError)]: [None] when it is caught. *)
Definition caught {A} (r : result A) : result (option A) :=
  match r with
  | Ok a => Ok (Some a)
  | Raise TypeError | Raise ValueError => Ok None
  | Raise e => Raise e
  end.

(** [services/mqtt_manager.py] *)
Definition GATEWAY_SEEN_BUMP_INTERVAL_SEC : float := fint 60.

(** What the handler takes out of a payload. *)
Record frame := mkframe {
  f_plug_id : Z;
  f_watts : float;
  f_kwh : float;
  f_voltage : float;
  f_current : float;
  f_status : value;
  f_relay_on : bool;
  f_session_id : option Z;
  f_offline : bool;
  f_today_kwh : option float;
  f_month_kwh : option float }.

Section Parse.
Context `{cfg : Config}.
Implicit Types (p : payload) (v : value).

Definition parse_optional_nonneg_float v : result (option float) :=
  if vnull v then Ok None
  else
    f ← caught (vfloat v);
    Ok (f ← f; x ← finite f; if 0 <=? x then Some x else None).

Definition parse_session_id v : result (option Z) :=
  if vnull v || vstr_eqb v "" then Ok None
  else
    sid ← caught (vint v);
    Ok (sid ← sid; if 0 <? sid then Some sid else None).

(** [float(payload.get("watts", 0.0))] and the others. *)
Definition parse_numbers p : result (option (pynum * pynum * pynum * pynum)) :=
  caught (
    watts ← vfloat (vget "watts" (J (JFloat 0)) p);
    kwh ← vfloat (vget "kwh" (J (JFloat 0)) p);
    voltage ← vfloat (vget "voltage" (J (JFloat (fint 230))) p);
    current ← vfloat (vget "current" (J (JFloat 0)) p);
    Ok (watts, kwh, voltage, current)).

Definition all_finite (n : pynum * pynum * pynum * pynum) : option (float * float * float * float) :=
  let '(watts, kwh, voltage, current) := n in
  watts ← finite watts; kwh ← finite kwh; voltage ← finite voltage; current ← finite current;
  Some (watts, kwh, voltage, current).

(** [kwh < 0 or kwh > MAX_PLAUSIBLE_KWH] drops the frame. *)
Definition plausible (kwh : float) : bool := (0 <=? kwh) && (kwh <=? MAX_PLAUSIBLE_KWH).

(** [Ok None]: the frame is ignored. *)
Definition parse_frame p : result (option frame) :=
  let raw_plug := vget_none "plug_id" p in
  if vnull raw_plug then Ok None
  else
    plug_id ← caught (vint raw_plug);
    match plug_id with
    | None => Ok None
    | Some plug_id =>
        numbers ← parse_numbers p;
        match numbers ≫= all_finite with
        | None => Ok None
        | Some (watts, kwh, voltage, current) =>
            if negb (plausible kwh) then Ok None
            else
              let status := vget "status" (J (JStr "occupied")) p in
              let relay := vget "relay" (J (JBool (vstr_eqb status "occupied"))) p in
              session_id ← parse_session_id (vget_none "session_id" p);
              today_kwh ← parse_optional_nonneg_float (vget_none "today_kwh" p);
              month_kwh ← parse_optional_nonneg_float (vget_none "month_kwh" p);
              Ok (Some (mkframe plug_id watts kwh voltage current status (vtruthy relay) session_id
                          (vtruthy (vget "offline" (J (JBool false)) p)) today_kwh month_kwh))
        end
    end.
End Parse.

Definition raw_status (v : value) : Sample.raw_status :=
  match v with
  | J JNull => Sample.SNull
  | J (JStr s) => Sample.SText s
  | _ => Sample.SOther
  end.

Definition sample_of (f : frame) (now : Z) : Sample.t :=
  Sample.mk (f_plug_id f) now (f_watts f) (f_kwh f) (f_voltage f) (f_current f)
    (raw_status (f_status f)).

Section Telemetry.
Context `{cfg : Config}.
Implicit Types (d : db) (now : Z) (mono : float) (f : frame) (gateway_id : string).
Implicit Types (s : ChargingSession.t) (plug : Plug.t).

(** ** Cooldowns *)

Definition cooled (last : option float) mono (interval : float) : bool :=
  match last with Some t => negb (fsub mono t <? interval) | None => true end.

Definition should_bump_gateway_seen gateway_id mono : M bool :=
  last ← read_mem (λ m, gateway_seen_bumped m !! gateway_id);
  if cooled last mono GATEWAY_SEEN_BUMP_INTERVAL_SEC then
    with_mem (λ m, m <| gateway_seen_bumped ::= <[gateway_id := mono]> |>);; mret true
  else mret false.

Definition should_alert_unmetered (plug_id : Z) mono : M bool :=
  last ← read_mem (λ m, unmetered_alert_cooldown m !! plug_id);
  if cooled last mono UNMETERED_ALERT_COOLDOWN_SEC then
    with_mem (λ m, m <| unmetered_alert_cooldown ::= <[plug_id := mono]> |>);; mret true
  else mret false.

Definition persist_gateway_seen gateway_id now : M unit :=
  catch (scope (
    gateway ← query (λ d, gateways d !! gateway_id);
    match gateway with
    | None => mret tt
    | Some _ =>
        modify (λ d, d <| gateways ::= alter (λ g, g <| Gateway.status := ONLINE |>
                            <| Gateway.last_seen_at := Some now |>) gateway_id |>);;
        commit
    end)) (λ _, mret tt).

(** ** The frame's transaction *)

(** The power clock, for a live frame. *)
Definition stamp_power f now plug : Plug.t :=
  if f_offline f then plug
  else
    let resumed := match Plug.last_telemetry_at plug with
      | None => true
      | Some prev => PLUG_POWER_STALE_SEC * FU <? total_seconds (now - prev)
      end in
    plug <| Plug.powered_since := if resumed then Some now else Plug.powered_since plug |>
         <| Plug.last_telemetry_at := Some now |>.

Definition stamp_plug f now plug : Plug.t :=
  stamp_power f now plug <| Plug.current_power_w := f_watts f |>.

(** The ACTIVE session the frame is for. *)
Definition targets f (sid : Z) s : bool :=
  running_on (f_plug_id f) sid s &&
  match f_session_id f with Some i => sid =? i | None => true end.

(** A lower reading than the last live one, beyond jitter, banks the drop. *)
Definition rebaseline (kwh : float) s : ChargingSession.t :=
  let s := match ChargingSession.energy_counter_last_raw_kwh s with
    | Some last_raw =>
        if kwh <? fsub last_raw ENERGY_COUNTER_RESET_DROP_KWH then
          s <| ChargingSession.energy_reset_offset_kwh ::= λ offset, fadd offset (fsub last_raw kwh) |>
        else s
    | None => s
    end in
  s <| ChargingSession.energy_counter_last_raw_kwh := Some kwh |>.

Definition record_reading f now s : ChargingSession.t :=
  let s := if f_offline f then s else rebaseline (f_kwh f) s in
  s <| ChargingSession.energy_kwh := Z.max (ChargingSession.energy_kwh s)
         (fadd (ChargingSession.energy_reset_offset_kwh s) (f_kwh f)) |>
    <| ChargingSession.peak_power_w := Z.max (ChargingSession.peak_power_w s) (f_watts f) |>
    <| ChargingSession.last_telemetry_at := Some now |>.

Definition frame_is_idle f : bool :=
  match f_session_id f with None => negb (f_relay_on f) | Some _ => false end.

(** What the transaction leaves for the checks that follow the commit. *)
Record captured := mkcaptured {
  c_session_id : Z;
  c_session : ChargingSession.t;
  c_reprice : option money }.

Definition update_session f (sid : Z) s plug now : M captured :=
  '(s', change) ← query (λ d, reprice_session_if_due d (record_reading f now s) plug now);
  set_session sid (λ _, s');;
  mret (mkcaptured sid s' (fst <$> change)).

(** An OFF for a relay that is on without a session. *)
Definition reconcile_off f plug : M unit :=
  others ← query (λ d, select (running_on (f_plug_id f)) (sessions d));
  other ← one_or_none others;
  when (bool_decide (other = None)) (_ ← send_off (f_plug_id f) plug; mret tt).

(** The energy a plug's own counters gained, unless both were reset. *)
Definition unmetered_candidate (prev_today prev_month today month : float) : option float :=
  let delta_today := fsub today prev_today in
  let delta_month := fsub month prev_month in
  let reset_today := delta_today <? - UNMETERED_CONSUMPTION_RESET_EPS_KWH in
  let reset_month := delta_month <? - UNMETERED_CONSUMPTION_RESET_EPS_KWH in
  match reset_today, reset_month with
  | false, false => Some (Z.max delta_today delta_month)
  | true, false => Some delta_month
  | false, true => Some delta_today
  | true, true => None
  end.

Definition remember_counters f plug : Plug.t :=
  plug <| Plug.last_today_energy_kwh := match f_today_kwh f with
            | Some t => Some t | None => Plug.last_today_energy_kwh plug end |>
       <| Plug.last_month_energy_kwh := match f_month_kwh f with
            | Some m => Some m | None => Plug.last_month_energy_kwh plug end |>.

(** [plug] is the row before the frame. *)
Definition check_unmetered f plug (has_session : bool) mono : M bool :=
  match Plug.last_today_energy_kwh plug, Plug.last_month_energy_kwh plug,
        f_today_kwh f, f_month_kwh f with
  | Some prev_today, Some prev_month, Some today, Some month =>
      match unmetered_candidate prev_today prev_month today month with
      | Some candidate =>
          if negb has_session && (UNMETERED_CONSUMPTION_THRESHOLD_KWH <=? candidate)
          then should_alert_unmetered (f_plug_id f) mono
          else mret false
      | None => mret false
      end
  | _, _, _, _ => mret false
  end.

Definition store_status f : string :=
  if vstr_eqb (f_status f) "occupied" then "charging" else "idle".

(** [None]: the plug is not the gateway's.  Else whether unmetered consumption is
    to be reported, and the session's captured state. *)
Definition persist_frame gateway_id f now mono : M (option (bool * option captured)) :=
  let plug_id := f_plug_id f in
  plug ← query (λ d, plugs d !! plug_id);
  match plug with
  | None => mret None
  | Some plug =>
    if negb (bool_decide (Plug.gateway_id plug = gateway_id)) then mret None
    else
      with_store (λ st, TelemetryStore.update st (total_seconds now) plug_id (f_watts f) (f_current f)
                          (f_kwh f) (store_status f) None (f_voltage f) (f_relay_on f));;
      enqueue (sample_of f now);;
      let plug' := stamp_plug f now plug in
      rows ← query (λ d, select (targets f) (sessions d));
      active ← one_or_none rows;
      captured ←
        match active with
        | Some (sid, s) =>
            if frame_is_idle f then mret None
            else c ← update_session f sid s plug' now; mret (Some c)
        | None =>
            when (f_relay_on f && negb (f_offline f)) (reconcile_off f plug');; mret None
        end;
      unmetered ← check_unmetered f plug (bool_decide (is_Some active)) mono;
      modify (λ d, d <| plugs ::= alter (λ _, remember_counters f plug') plug_id |>);;
      commit;;
      mret (Some (unmetered, captured))
  end.

(** ** The auto-stops *)

Definition hold_reason s : string :=
  if bool_decide (is_Some (ChargingSession.hold_coins s))
  then "auto-stopped: session hold exhausted" else "auto-stopped: wallet balance exhausted".

Definition exhaustion_threshold s : M (option money) :=
  match ChargingSession.hold_coins s with
  | Some hold => mret (Some hold)
  | None => scope (query (λ d, User.coin_balance <$> users d !! ChargingSession.user_id s))
  end.

Definition warn_low_balance sid s (accrued threshold : money) : M unit :=
  warned ← read_mem low_balance_warned;
  when ((0 <? LOW_BALANCE_WARN_FRACTION) &&
        (fmul (TelemetryStore.float_of_money threshold) LOW_BALANCE_WARN_FRACTION
           <=? TelemetryStore.float_of_money accrued) &&
        negb (bool_decide (sid ∈ warned)))
    (with_mem (λ m, m <| low_balance_warned ::=
       λ ws, {[sid]} ∪ (if (1000 <? Z.of_nat (size ws)) then ∅ else ws) |>);;
     emit (Notify (ChargingSession.user_id s) "low_balance" "warning" None (Some sid))).

Definition maybe_auto_stop_on_exhaustion sid s now : M unit :=
  when AUTO_STOP_ON_BALANCE_EXHAUSTED
    (let accrued := session_cost s (ChargingSession.energy_kwh s) in
     if accrued <=? 0 then mret tt
     else catch
       (threshold ← exhaustion_threshold s;
        match threshold with
        | None => mret tt
        | Some threshold =>
            if accrued <? threshold then warn_low_balance sid s accrued threshold
            else
              _ ← scope (finalize_charging_session sid None (Some (hold_reason s)) now);
              with_mem (λ m, m <| low_balance_warned ::= λ ws, ws ∖ {[sid]} |>)
        end)
       (λ _, mret tt)).

(** The limit that is reached: energy first, then time. *)
Definition limit_reached s now : option string :=
  let energy := match ChargingSession.max_kwh s with
    | Some k => k <=? ChargingSession.energy_kwh s | None => false end in
  let time := match ChargingSession.max_duration_seconds s with
    | Some n => n * FU <=? total_seconds (now - ChargingSession.started_at s) | None => false end in
  if energy then Some "auto-stopped: energy limit reached"%string
  else if time then Some "auto-stopped: time limit reached"%string
  else None.

Definition maybe_auto_stop_on_limits sid s now : M unit :=
  when AUTO_STOP_ON_LIMITS
    match limit_reached s now with
    | None => mret tt
    | Some reason =>
        catch (_ ← scope (finalize_charging_session sid None (Some reason) now); mret tt)
          (λ _, mret tt)
    end.

Definition rate_of (m : option money) : option pynum := (λ r, PDec (dec_of_money r)) <$> m.

(** The live-cost mirror and the rate notice of a captured session. *)
Definition mirror_session f (c : captured) : M unit :=
  let s := c_session c in
  with_store (λ st, TelemetryStore.hydrate_session st (f_plug_id f)
    (rate_of (ChargingSession.rate_coins_per_kwh s)) (ChargingSession.settled_cost_coins s)
    (ChargingSession.rate_segment_start_kwh s) (Some (ChargingSession.started_at s)));;
  match c_reprice c with
  | None => mret tt
  | Some new_rate =>
      with_store (λ st, TelemetryStore.set_segment_state st (f_plug_id f)
        (ChargingSession.settled_cost_coins s) (ChargingSession.rate_segment_start_kwh s)
        (rate_of (Some new_rate)));;
      emit (Notify (ChargingSession.user_id s) "rate_changed" "info" (Some (f_plug_id f))
              (Some (c_session_id c)))
  end.

Definition persist_telemetry gateway_id f now mono : M unit :=
  persisted ← catch (scope (persist_frame gateway_id f now mono)) (λ _, mret None);
  match persisted with
  | None => mret tt
  | Some (unmetered, captured) =>
      when unmetered
        (persist_gateway_event gateway_id (Some (f_plug_id f)) "UNMETERED_CONSUMPTION" "warning" now);;
      match captured with
      | None => mret tt
      | Some c =>
          mirror_session f c;;
          maybe_auto_stop_on_exhaustion (c_session_id c) (c_session c) now;;
          maybe_auto_stop_on_limits (c_session_id c) (c_session c) now
      end
  end.

Definition handle_gateway_telemetry gateway_id (p : payload) now mono : M unit :=
  match parse_frame p with
  | Raise e => raise e
  | Ok None => mret tt
  | Ok (Some f) =>
      persist_telemetry gateway_id f now mono;;
      bump ← should_bump_gateway_seen gateway_id mono;
      when bump (persist_gateway_seen gateway_id now)
  end.

(** ** Frames *)

Definition frame_wf f : Prop := is_float (f_kwh f) ∧ 0 <= f_kwh f <= MAX_PLAUSIBLE_KWH.

Lemma bind_ok {A B} (r : result A) (k : A → result B) b :
  r ≫= k = Ok b → ∃ a, r = Ok a ∧ k a = Ok b.
Proof. destruct r; simpl; [eauto | done]. Qed.

Lemma caught_ok {A} (r : result A) a : caught r = Ok (Some a) → r = Ok a.
Proof. destruct r as [x|[]]; simpl; congruence. Qed.

(** Whatever is let through has a plausible energy reading. *)
Lemma parse_frame_wf p f : payload_wf p → parse_frame p = Ok (Some f) → frame_wf f.
Proof.
  intros Hp. unfold parse_frame. destruct (vnull _); [done|].
  intros (pid & _ & H)%bind_ok. destruct pid as [pid|]; [|done].
  apply bind_ok in H as (nums & Hn & H).
  destruct nums as [[[[w k] v] c]|]; [|done]. simpl in H.
  apply caught_ok in Hn. unfold parse_numbers in Hn.
  apply bind_ok in Hn as (w' & _ & Hn). apply bind_ok in Hn as (k' & Hk & Hn).
  apply bind_ok in Hn as (v' & _ & Hn). apply bind_ok in Hn as (c' & _ & Hn).
  injection Hn as -> -> -> ->.
  destruct w as [|w1| | |]; simpl in H; try done. destruct k as [|x| | |]; simpl in H; try done.
  destruct v; simpl in H; try done. destruct c; simpl in H; try done.
  destruct (plausible x) eqn:Hpl; [|done]. simpl in H.
  apply bind_ok in H as (sid & _ & H). apply bind_ok in H as (t & _ & H).
  apply bind_ok in H as (m & _ & H). injection H as <-. unfold frame_wf. simpl.
  unfold plausible in Hpl. passed. split; [|lia].
  eapply vfloat_float; [|exact Hk]. apply vget_wf; [done|]. simpl. apply is_float_0.
Qed.

(** ** One reading *)

Lemma record_reading_wf f now s :
  frame_wf f → session_wf s →
  session_wf (record_reading f now s) ∧
  ChargingSession.energy_kwh s <= ChargingSession.energy_kwh (record_reading f now s).
Proof.
  intros [Hk _] [[Hr Hst Hset] [He H0]]. unfold record_reading.
  destruct (f_offline f); [|unfold rebaseline; destruct (ChargingSession.energy_counter_last_raw_kwh s) as [r|]; [destruct (_ <? _)|]];
    (split; [split; [by split|]|]; simpl; [split; [|lia]; apply fmax_is_float; [done | apply fadd_is_float] | lia]).
Qed.

(** The rest of the row. *)
Definition same_terms s s' : Prop :=
  is_active s' = is_active s ∧ ChargingSession.user_id s' = ChargingSession.user_id s ∧
  ChargingSession.plug_id s' = ChargingSession.plug_id s ∧
  ChargingSession.hold_coins s' = ChargingSession.hold_coins s ∧
  ChargingSession.max_kwh s' = ChargingSession.max_kwh s ∧
  ChargingSession.max_duration_seconds s' = ChargingSession.max_duration_seconds s ∧
  ChargingSession.started_at s' = ChargingSession.started_at s.

Lemma record_reading_terms f now s : same_terms s (record_reading f now s).
Proof.
  unfold record_reading.
  destruct (f_offline f); [|unfold rebaseline; destruct (ChargingSession.energy_counter_last_raw_kwh s) as [r|]; [destruct (_ <? _)|]]; done.
Qed.

Lemma record_reading_cost f now s e : session_cost (record_reading f now s) e = session_cost s e.
Proof.
  unfold record_reading.
  destruct (f_offline f); [|unfold rebaseline; destruct (ChargingSession.energy_counter_last_raw_kwh s) as [r|]; [destruct (_ <? _)|]]; done.
Qed.

Lemma reprice_wf d s plug now :
  is_float COINS_PER_KWH → prices_ok d → session_wf s →
  let s' := (reprice_session_if_due d s plug now).1 in
  session_wf s' ∧ same_terms s s' ∧
  ChargingSession.energy_kwh s' = ChargingSession.energy_kwh s ∧
  session_cost s' (ChargingSession.energy_kwh s) = session_cost s (ChargingSession.energy_kwh s).
Proof.
  intros Hf Hp Hwf. unfold reprice_session_if_due.
  destruct (ChargingSession.rate_valid_until s) as [v|]; [|done].
  destruct (now <? v); [done|]. pose proof (resolve_rate_nonneg d plug now Hf Hp) as Hr.
  destruct (resolve_rate_window d plug now) as [rate b]. simpl in Hr.
  destruct Hwf as [[H1 H2 H3] [He H0]]. case_bool_decide; simpl.
  - by split_and!.
  - split_and!; [| | |].
    + split; [by apply billing_wf_close|]. unfold close_out_segment. by case_match.
    + unfold close_out_segment. by case_match.
    + unfold close_out_segment. by case_match.
    + by apply close_out_cost.
Qed.

(** ** One frame *)

(** A running session that has moved on: dearer or equal, on the same terms. *)
Record advanced s s' : Prop := {
  ad_terms : same_terms s s';
  ad_wf : session_wf s';
  ad_energy : ChargingSession.energy_kwh s <= ChargingSession.energy_kwh s';
  ad_cost : session_cost s (ChargingSession.energy_kwh s) <=
            session_cost s' (ChargingSession.energy_kwh s') }.

(** The environment of the sweep of prices a reprice may do. *)
Record price_env d : Prop := {
  pe_float : is_float COINS_PER_KWH;
  pe_prices : prices_ok d }.

Lemma frame_advances d f s plug now :
  price_env d → frame_wf f → session_wf s →
  advanced s (reprice_session_if_due d (record_reading f now s) plug now).1.
Proof.
  intros [Hf Hp] Hfw Hwf. destruct (record_reading_wf f now s Hfw Hwf) as [Hwf1 He1].
  pose proof (record_reading_terms f now s) as (T1 & T2 & T3 & T4 & T5 & T6 & T7).
  destruct (reprice_wf d (record_reading f now s) plug now Hf Hp Hwf1)
    as (Hwf2 & (U1 & U2 & U3 & U4 & U5 & U6 & U7) & He2 & Hc).
  split; [split_and!; congruence | done | by rewrite He2 |].
  rewrite He2, Hc, record_reading_cost. destruct Hwf as [Hb [Hx H0]].
  apply session_cost_mono; try done. by apply wf_energy in Hwf1 as [? _].
Qed.

Lemma stamped_gateway f now plug : Plug.gateway_id (remember_counters f (stamp_plug f now plug)) = Plug.gateway_id plug.
Proof. unfold remember_counters, stamp_plug, stamp_power. by destruct (f_offline f). Qed.
Lemma stamped_status f now plug : Plug.status (remember_counters f (stamp_plug f now plug)) = Plug.status plug.
Proof. unfold remember_counters, stamp_plug, stamp_power. by destruct (f_offline f). Qed.

Lemma wp_check_unmetered f plug has mono Q w :
  (∀ w' b, com w' = com w → cur w' = cur w → (b = true → has = false) → Q (Ok b) w') →
  wp (check_unmetered f plug has mono) Q w.
Proof.
  intros HQ. unfold check_unmetered, should_alert_unmetered.
  repeat first [wp_step | progress destruct has]; by apply HQ.
Qed.

(** What a frame that is let through leaves. *)
Record frame_effect gateway_id f d d' (c : option captured) : Prop := {
  fe_ok : db_ok d';
  fe_within : within_gateway gateway_id d d';
  fe_tariffs : tariffs d' = tariffs d ∧ slots d' = slots d;
  fe_sessions :
    match c with
    | None => sessions d' = sessions d
    | Some c => ∃ s, sessions d !! c_session_id c = Some s ∧ runs_at gateway_id d s ∧
        ChargingSession.plug_id s = f_plug_id f ∧ advanced s (c_session c) ∧
        sessions d' = <[c_session_id c := c_session c]> (sessions d)
    end }.

(** The session's part, then the plug's. *)
Lemma frame_effects gateway_id f d d1 d' c plug now :
  db_ok d1 → within_gateway gateway_id d d1 → tariffs d1 = tariffs d → slots d1 = slots d →
  plugs d1 = plugs d → plugs d !! f_plug_id f = Some plug → Plug.gateway_id plug = gateway_id →
  match c with
  | None => sessions d1 = sessions d
  | Some c => ∃ s, sessions d !! c_session_id c = Some s ∧ runs_at gateway_id d s ∧
      ChargingSession.plug_id s = f_plug_id f ∧ advanced s (c_session c) ∧
      sessions d1 = <[c_session_id c := c_session c]> (sessions d)
  end →
  d' = d1 <| plugs ::= alter (λ _, remember_counters f (stamp_plug f now plug)) (f_plug_id f) |> →
  frame_effect gateway_id f d d' c.
Proof.
  intros Hok Hw Ht Hsl Hp Hplug Hg Hs ->. split; try done.
  - eapply (db_ok_plug d1 _ (f_plug_id f) (λ _, remember_counters f (stamp_plug f now plug)));
      try done.
    intros p. rewrite Hp, Hplug. intros [= <-]. by rewrite stamped_status.
  - transitivity d1; [done|].
    eapply (within_plug gateway_id d1 _ (f_plug_id f) plug (λ _, remember_counters f (stamp_plug f now plug)));
      try done; [congruence|]. by rewrite stamped_gateway.
Qed.

Lemma targets_spec f sid s :
  targets f sid s = true → is_active s = true ∧ ChargingSession.plug_id s = f_plug_id f.
Proof. unfold targets, running_on. intros H. passed. done. Qed.

Lemma wp_update_session f sid s plug now Q w :
  sessions (cur w) !! sid = Some s →
  (∀ change w', let s' := (reprice_session_if_due (cur w) (record_reading f now s) plug now).1 in
     com w' = com w → cur w' = (cur w) <| sessions ::= <[sid := s']> |> →
     Q (Ok (mkcaptured sid s' change)) w') →
  wp (update_session f sid s plug now) Q w.
Proof.
  intros Hs HQ. unfold update_session, set_session. do 2 wp_step.
  destruct (reprice_session_if_due _ _ _ _) as [s' change] eqn:Hr. simpl in HQ.
  do 3 wp_step. apply HQ; [done|]. simpl. destruct (cur w); simpl in *. unfold set_with. f_equal.
  apply map_eq. intros i. destruct (decide (sid = i)) as [<-|Hne].
  - by rewrite lookup_alter_eq, lookup_insert_eq, Hs.
  - by rewrite lookup_alter_ne, lookup_insert_ne.
Qed.

Lemma wp_reconcile f plug Q w :
  (∀ w', com w' = com w → cur w' = cur w → Q (Ok tt) w') →
  Q (Raise MultipleResultsFound) w →
  wp (reconcile_off f plug) Q w.
Proof.
  intros HQ HR. unfold reconcile_off, send_off, send_plug_command, publish.
  repeat wp_step; try done; by apply HQ.
Qed.

(** The transaction of a frame: dropped for a plug that is not the gateway's,
    else stored; an ambiguous session lookup drops it too. *)
Lemma wp_persist_frame gateway_id f now mono Q w :
  com w = cur w → db_ok (cur w) → price_env (cur w) → frame_wf f →
  (∀ w', com w' = cur w' → cur w' = cur w → Q (Ok None) w') →
  (∀ w' u c, com w' = cur w' → frame_effect gateway_id f (cur w) (cur w') c →
     (u = true → c = None) → Q (Ok (Some (u, c))) w') →
  wp (catch (scope (persist_frame gateway_id f now mono)) (λ _, mret None)) Q w.
Proof.
  intros Hcc Hok Henv Hf HN HS. wp_step. apply wp_scope. unfold persist_frame, enqueue. do 2 wp_step.
  assert (Hdrop : ∀ w1 : world, com w1 = com w → Q (Ok None) (w1 <| cur := com w1 |>)).
  { intros w1 H1. apply HN; simpl; congruence. }
  destruct (plugs (cur w) !! f_plug_id f) as [plug|] eqn:Hplug; [|wp_step; by apply Hdrop].
  case_bool_decide as Hg; simpl; [|wp_step; by apply Hdrop].
  do 6 wp_step. set (w1 := w <| store ::= _ |> <| mem ::= _ |>).
  assert (Hc1 : cur w1 = cur w) by done. assert (Hm1 : com w1 = com w) by done. clearbody w1.
  assert (Hend : ∀ w2 b c, com w2 = com w → db_ok (cur w2) →
    within_gateway gateway_id (cur w) (cur w2) → tariffs (cur w2) = tariffs (cur w) →
    slots (cur w2) = slots (cur w) → plugs (cur w2) = plugs (cur w) →
    (c = None ∨ b = true) →
    match c with
    | None => sessions (cur w2) = sessions (cur w)
    | Some c => ∃ s, sessions (cur w) !! c_session_id c = Some s ∧ runs_at gateway_id (cur w) s ∧
        ChargingSession.plug_id s = f_plug_id f ∧ advanced s (c_session c) ∧
        sessions (cur w2) = <[c_session_id c := c_session c]> (sessions (cur w))
    end →
    wp (unmetered ← check_unmetered f plug b mono;
        modify (λ d, d <| plugs ::= alter (λ _, remember_counters f (stamp_plug f now plug))
                                      (f_plug_id f) |>);;
        commit;; mret (Some (unmetered, c)))
      (λ out w', match out with
                 | Ok a => Q (Ok a) (w' <| cur := com w' |>)
                 | Raise e => wp (mret None) Q (w' <| cur := com w' |>)
                 end) w2).
  { intros w2 b c Hm2 Hok2 Hw2 Ht2 Hsl2 Hp2 Hbc Hs2. wp_step. apply wp_check_unmetered.
    intros w3 u Hm3 Hc3 Hu. repeat wp_step. simpl. apply HS; simpl; [done | |].
    - rewrite Hc3. by eapply (frame_effects gateway_id f (cur w) (cur w2)).
    - intros Hut. destruct Hbc as [|Hb]; [done|]. specialize (Hu Hut). congruence. }
  assert (Hsame : ∀ w2 b, com w2 = com w → cur w2 = cur w →
    wp (unmetered ← check_unmetered f plug b mono;
        modify (λ d, d <| plugs ::= alter (λ _, remember_counters f (stamp_plug f now plug))
                                      (f_plug_id f) |>);;
        commit;; mret (Some (unmetered, None)))
      (λ out w', match out with
                 | Ok a => Q (Ok a) (w' <| cur := com w' |>)
                 | Raise e => wp (mret None) Q (w' <| cur := com w' |>)
                 end) w2).
  { intros w2 b Hm2 Hc2. apply Hend; rewrite ?Hc2; try done. by left. }
  rewrite Hc1. wp_step. apply wp_one_or_none.
  - intros _. do 3 wp_step.
    + apply wp_reconcile; [|wp_step; apply Hdrop; congruence].
      intros w2 Hm2 Hc2. wp_step. apply Hsame; congruence.
    + wp_step. by apply Hsame.
  - intros [sid s] Hsel. apply select_one in Hsel as [Hs [Ha Hpid]%targets_spec].
    wp_step. destruct (frame_is_idle f); [wp_step; by apply Hsame|].
    wp_step. apply wp_update_session; [by rewrite Hc1|]. intros change w2 s' Hm2 Hc2.
    wp_step. rewrite Hc1 in Hc2.
    assert (Hadv : advanced s s') by (unfold s'; rewrite Hc1; apply frame_advances; try done;
      by apply (ok_active _ Hok) in Hs as [? _]).
    assert (Hruns : runs_at gateway_id (cur w) s)
      by (apply owned_runs_at; [done|]; rewrite Hpid; by exists plug).
    pose proof (ad_terms _ _ Hadv) as (T1 & T2 & T3 & T4 & _).
    apply Hend; rewrite ?Hc2; simpl; try done; [congruence | | | by right |].
    + eapply (updated_db_ok (cur w) _ sid s s'); try done. split_and!; try done. intros _. apply Hadv.
    + by eapply (within_session gateway_id _ _ sid s s').
    + by exists s.
  - wp_step. by apply Hdrop.
Qed.

(** ** The auto-stops *)

(** From [d] to [d'], at most the session [sid] has been finalized. *)
Record stopped_only gateway_id sid d d' : Prop := {
  so_ok : db_ok d';
  so_within : within_gateway gateway_id d d';
  so_sessions : sessions d' = sessions d ∨
    ∃ s', sessions d' = <[sid := s']> (sessions d) ∧ is_active s' = false }.

Lemma stopped_only_refl gateway_id sid d : db_ok d → stopped_only gateway_id sid d d.
Proof. intros Hok. split; [done | reflexivity | by left]. Qed.

Lemma stopped_only_trans gateway_id sid d1 d2 d3 :
  stopped_only gateway_id sid d1 d2 → stopped_only gateway_id sid d2 d3 →
  stopped_only gateway_id sid d1 d3.
Proof.
  intros [_ W1 S1] [H2 W2 S2]. split; [done | by transitivity d2 |].
  destruct S2 as [S2|(s2 & S2 & A2)]; rewrite S2.
  - done.
  - right. exists s2. split; [|done]. destruct S1 as [->|(s1 & -> & _)]; [done|].
    by rewrite insert_insert_eq.
Qed.

(** The session is over, or was nobody's to stop. *)
Lemma wp_stop gateway_id sid s reason now Q w :
  com w = cur w → db_ok (cur w) → sessions (cur w) !! sid = Some s →
  (is_active s = true → runs_at gateway_id (cur w) s) →
  (∀ out w', com w' = cur w' → stopped_only gateway_id sid (cur w) (cur w') →
     (∃ s', sessions (cur w') !! sid = Some s' ∧ is_active s' = false) → Q (Ok out) w') →
  wp (scope (finalize_charging_session sid None reason now)) Q w.
Proof.
  intros Hcc Hok Hs Hr HQ. apply wp_scope_finalize; [done | done | |].
  - intros Hno. apply HQ; [done | by apply stopped_only_refl |]. exists s. split; [done|].
    apply not_true_iff_false. intros Ha. by apply (Hno s).
  - intros s0 actual b rc w' (Hs0 & Ha & _) Hc Hcc' Hok'.
    assert (s0 = s) as -> by congruence. rewrite Hcc' in Hc.
    pose proof (f_equal sessions Hc) as Hss. simpl in Hss. apply HQ; [done | |].
    + split; [done | by eapply within_settled; [| apply Hr |] |]. right. by eexists.
    + rewrite Hss, lookup_insert_eq. by eexists.
Qed.

(** A session that still runs after the check has not used up its hold. *)
Definition within_hold s : Prop :=
  session_cost s (ChargingSession.energy_kwh s) <= 0 ∨
  ∀ h, ChargingSession.hold_coins s = Some h → session_cost s (ChargingSession.energy_kwh s) < h.

Lemma wp_exhaustion gateway_id sid s now Q w :
  com w = cur w → db_ok (cur w) → sessions (cur w) !! sid = Some s →
  runs_at gateway_id (cur w) s →
  (∀ w', com w' = cur w' → stopped_only gateway_id sid (cur w) (cur w') →
     (AUTO_STOP_ON_BALANCE_EXHAUSTED = true → within_hold s ∨
        ∃ s', sessions (cur w') !! sid = Some s' ∧ is_active s' = false) → Q (Ok tt) w') →
  wp (maybe_auto_stop_on_exhaustion sid s now) Q w.
Proof.
  intros Hcc Hok Hs Hr HQ. unfold maybe_auto_stop_on_exhaustion. wp_step.
  2:{ apply HQ; [done | by apply stopped_only_refl | congruence]. }
  pose proof Hr as (Ha & _).
  destruct (wallet_holds _ (ok_wallet _ Hok) sid s Hs Ha) as [(h & Hh & _) _].
  destruct (Z.leb_spec (session_cost s (ChargingSession.energy_kwh s)) 0) as [Hle|Hgt].
  { wp_step. apply HQ; [done | by apply stopped_only_refl | left; by left]. }
  unfold exhaustion_threshold. rewrite Hh. do 3 wp_step.
  destruct (Z.ltb_spec (session_cost s (ChargingSession.energy_kwh s)) h) as [Hlt|Hge].
  - assert (Hin : within_hold s) by (right; intros h' Hh'; rewrite Hh in Hh'; by injection Hh' as <-).
    unfold warn_low_balance. repeat wp_step; apply HQ; try done; (by apply stopped_only_refl || (left; done)).
  - wp_step. eapply wp_stop; [done.. | done |]. intros out w' Hcc' Hso Hend. repeat wp_step.
    apply HQ; [done | done |]. intros _. by right.
Qed.

Lemma wp_limits gateway_id sid s s0 now Q w :
  com w = cur w → db_ok (cur w) → sessions (cur w) !! sid = Some s0 →
  (is_active s0 = true → runs_at gateway_id (cur w) s0) →
  (∀ w', com w' = cur w' → stopped_only gateway_id sid (cur w) (cur w') →
     (AUTO_STOP_ON_LIMITS = true → limit_reached s now = None ∨
        ∃ s', sessions (cur w') !! sid = Some s' ∧ is_active s' = false) → Q (Ok tt) w') →
  wp (maybe_auto_stop_on_limits sid s now) Q w.
Proof.
  intros Hcc Hok Hs Hr HQ. unfold maybe_auto_stop_on_limits. wp_step.
  2:{ apply HQ; [done | by apply stopped_only_refl | congruence]. }
  destruct (limit_reached s now) as [reason|].
  - do 2 wp_step. eapply wp_stop; [done.. |]. intros out w' Hcc' Hso Hend. repeat wp_step.
    apply HQ; [done | done |]. intros _. by right.
  - wp_step. apply HQ; [done | by apply stopped_only_refl | by left].
Qed.

(** ** The handler *)

(** A running session after a message: as before, or moved on by this frame and
    still inside its hold and its limits. *)
Definition kept_running now s s' : Prop :=
  s' = s ∨
  (advanced s s' ∧ (AUTO_STOP_ON_BALANCE_EXHAUSTED = true → within_hold s') ∧
   (AUTO_STOP_ON_LIMITS = true → limit_reached s' now = None)).

Record telemetry_effect gateway_id now d d' : Prop := {
  te_ok : db_ok d';
  te_within : within_gateway gateway_id d d';
  te_running : ∀ sid s', sessions d' !! sid = Some s' → is_active s' = true →
    ∃ s, sessions d !! sid = Some s ∧ kept_running now s s' }.

Lemma quiet_effect gateway_id now d d' :
  db_ok d' → within_gateway gateway_id d d' → sessions d' = sessions d →
  telemetry_effect gateway_id now d d'.
Proof.
  intros Hok Hw Hs. split; [done..|]. intros sid s'. rewrite Hs. intros Hsid _.
  exists s'. split; [done | by left].
Qed.

(** The recorded session and what the two checks did to it. *)
Lemma stopped_effect gateway_id now d d1 d2 d3 sid s s1 :
  within_gateway gateway_id d d1 → sessions d !! sid = Some s → advanced s s1 →
  sessions d1 = <[sid := s1]> (sessions d) →
  stopped_only gateway_id sid d1 d2 → stopped_only gateway_id sid d2 d3 →
  (AUTO_STOP_ON_BALANCE_EXHAUSTED = true → within_hold s1 ∨
     ∃ s', sessions d2 !! sid = Some s' ∧ is_active s' = false) →
  (AUTO_STOP_ON_LIMITS = true → limit_reached s1 now = None ∨
     ∃ s', sessions d3 !! sid = Some s' ∧ is_active s' = false) →
  telemetry_effect gateway_id now d d3.
Proof.
  intros Hw Hs Hadv Hs1 H12 H23 Hex Hlim. pose proof (stopped_only_trans _ _ _ _ _ H12 H23) as H13.
  split; [apply H23 | by transitivity d1; [|apply H13] |].
  intros i s' Hi Ha. destruct (decide (sid = i)) as [<-|Hne].
  2:{ assert (Hold : sessions d1 !! i = Some s').
      { destruct (so_sessions _ _ _ _ H13) as [Hss|(x & Hss & _)]; rewrite Hss in Hi; [done|].
        by rewrite lookup_insert_ne in Hi. }
      rewrite Hs1, lookup_insert_ne in Hold by done. exists s'. split; [done | by left]. }
  assert (Hrun : ∀ d4, stopped_only gateway_id sid d4 d3 → sessions d4 !! sid = Some s').
  { intros d4 [_ _ [Hss|(x & Hss & Hx)]]; rewrite Hss in Hi; [done|].
    rewrite lookup_insert_eq in Hi. apply (inj Some) in Hi as ->. congruence. }
  assert (s' = s1) as ->.
  { pose proof (Hrun d1 H13) as Hr. rewrite Hs1, lookup_insert_eq in Hr. by apply (inj Some) in Hr. }
  exists s. split; [done|]. right. split; [done|]. split; intros Hon.
  - destruct (Hex Hon) as [|(x & Hx & Hxa)]; [done|]. rewrite (Hrun d2 H23) in Hx.
    apply (inj Some) in Hx as ->. congruence.
  - destruct (Hlim Hon) as [|(x & Hx & Hxa)]; [done|]. rewrite Hi in Hx.
    apply (inj Some) in Hx as ->. congruence.
Qed.

Lemma wp_mirror f c Q w :
  (∀ w', com w' = com w → cur w' = cur w → Q (Ok tt) w') → wp (mirror_session f c) Q w.
Proof. intros HQ. unfold mirror_session. repeat wp_step; by apply HQ. Qed.

Lemma wp_persist_telemetry gateway_id f now mono Q w :
  com w = cur w → db_ok (cur w) → price_env (cur w) → frame_wf f →
  (∀ w', com w' = cur w' → telemetry_effect gateway_id now (cur w) (cur w') → Q (Ok tt) w') →
  wp (persist_telemetry gateway_id f now mono) Q w.
Proof.
  intros Hcc Hok Henv Hf HQ. unfold persist_telemetry. wp_step. apply wp_persist_frame; [done..| |].
  { intros w' Hcc' Hc'. wp_step. apply HQ; [done|]. rewrite Hc'. by apply quiet_effect. }
  intros w1 u c Hcc1 [Hok1 Hw1 _ Hs1] Huc. do 2 wp_step.
  { rewrite Huc in * by done. apply wp_gateway_event; [done | done |].
    intros w2 target Hcc2 [Hok2 Hw2 Hq2 _ _] _. cbv beta iota. wp_step. apply HQ; [done|].
    apply quiet_effect; [done | by transitivity (cur w1) |]. by rewrite Hq2. }
  destruct c as [c|]; [|wp_step; apply HQ; [done | by apply quiet_effect]].
  destruct Hs1 as (s & Hs & Hr & Hpid & Hadv & Hs1). wp_step. apply wp_mirror.
  intros w2 Hm2 Hc2. assert (Hcc2 : com w2 = cur w2) by congruence. rewrite <- Hc2 in *. wp_step.
  set (sid := c_session_id c) in *. set (s1 := c_session c) in *.
  assert (Hsid : sessions (cur w2) !! sid = Some s1) by (by rewrite Hs1, lookup_insert_eq).
  assert (Hr1 : runs_at gateway_id (cur w2) s1).
  { pose proof Hr as (Ha & _). pose proof (ad_terms _ _ Hadv) as (T1 & _ & T3 & _).
    apply owned_runs_at; [congruence|]. rewrite T3. apply (within_owned gateway_id _ (cur w)); [done|].
    by apply (running_owned _ _ sid). }
  eapply wp_exhaustion; [done.. |]. intros w3 Hcc3 Hso Hex. cbv beta iota.
  assert (Hs3 : ∃ s3, sessions (cur w3) !! sid = Some s3 ∧
    (is_active s3 = true → runs_at gateway_id (cur w3) s3)).
  { destruct (so_sessions _ _ _ _ Hso) as [Hss|(x & Hss & Hx)].
    - exists s1. rewrite Hss. split; [done|]. intros _. pose proof Hr1 as (Ha & _).
      apply owned_runs_at; [done|]. apply (within_owned gateway_id _ (cur w2)); [apply Hso|].
      by apply (running_owned _ _ sid).
    - exists x. rewrite Hss, lookup_insert_eq. split; [done | congruence]. }
  destruct Hs3 as (s3 & Hs3 & Hr3).
  eapply wp_limits; [done | apply Hso | done | done |]. intros w4 Hcc4 Hso4 Hlim. apply HQ; [done|].
  eapply stopped_effect; eauto.
Qed.

Lemma wp_gateway_seen gateway_id now Q w :
  com w = cur w →
  (∀ w', com w' = cur w' → cur w' = (cur w) <| gateways := gateways (cur w') |> → Q (Ok tt) w') →
  wp (persist_gateway_seen gateway_id now) Q w.
Proof.
  intros Hcc HQ. unfold persist_gateway_seen. wp_step. apply wp_scope. do 2 wp_step.
  destruct (gateways (cur w) !! gateway_id); repeat wp_step.
  - by apply HQ.
  - rewrite (clean_world w Hcc). apply HQ; [done|]. by destruct (cur w).
Qed.

Lemma telemetry_effect_gateways gateway_id now d d1 d2 :
  telemetry_effect gateway_id now d d1 → d2 = d1 <| gateways := gateways d2 |> →
  telemetry_effect gateway_id now d d2.
Proof.
  intros [Hok Hw Hr] ->. split.
  - by apply (db_ok_frame d1).
  - transitivity d1; [done|]. by apply within_frame.
  - exact Hr.
Qed.

Lemma wp_handle_telemetry gateway_id p now mono Q w :
  com w = cur w → db_ok (cur w) → price_env (cur w) → payload_wf p →
  (∀ out w', com w' = cur w' → telemetry_effect gateway_id now (cur w) (cur w') → Q out w') →
  wp (handle_gateway_telemetry gateway_id p now mono) Q w.
Proof.
  intros Hcc Hok Henv Hp HQ. unfold handle_gateway_telemetry.
  destruct (parse_frame p) as [[f|]|e] eqn:Hf; [|wp_step; apply HQ; [done | by apply quiet_effect]..].
  apply (parse_frame_wf p f Hp) in Hf.
  wp_step. apply wp_persist_telemetry; [done..|]. intros w1 Hcc1 Heff. cbv beta iota.
  unfold should_bump_gateway_seen. repeat wp_step; try (by apply HQ).
  all: apply wp_gateway_seen; [done|]; intros w2 Hcc2 Hc2; apply HQ; [done|];
    by eapply telemetry_effect_gateways.
Qed.

(** C6: telemetry is safe whatever a gateway sends: any payload, from any
    gateway, leaves every invariant intact and touches only that gateway's
    plugs, the sessions running on them and their drivers' wallets.  A session
    it leaves running has either not changed or has only moved forward: its
    energy and what it owes never go down, its terms stay, and (with the
    auto-stops on) it has neither used up its hold nor reached a limit. *)
Theorem telemetry_correct gateway_id p now mono w :
  com w = cur w → db_ok (cur w) → price_env (cur w) → payload_wf p →
  telemetry_effect gateway_id now (cur w)
    (com (run_request (handle_gateway_telemetry gateway_id p now mono) w).2).
Proof.
  intros Hcc Hok Henv Hp.
  assert (H : wp (handle_gateway_telemetry gateway_id p now mono)
    (λ _ w', telemetry_effect gateway_id now (cur w) (com w')) w).
  { apply wp_handle_telemetry; [done..|]. by intros out w' ->. }
  unfold wp, run_request in *. by destruct (handle_gateway_telemetry _ _ _ _ w).
Qed.
End Telemetry.
