(* ===== verification/GatewayStatus.v ===== *)
(** * services/mqtt/status.py: gateways going on and off line

    [persist_gateway_status] stores the status and reacts to a transition: a
    reconnect re-sends OFF to the plugs no session runs on and pushes the
    roster; a loss arms the delayed notice of [deferred_offline_notice], which
    any [online] message disarms.  The set [pending_offline] is the map of
    waiting tasks. *)

From S2P Require Import Prelude Rounding PyNum Money Models Config Billing TelemetryStore.
From S2P Require Import World Hoare PyString PyJson Wallet Commands Caps Pricing Lifecycle Ownership.
From S2P Require Import SessionStart Sessions Reaper Alarms.

Section GatewayStatus.
Context `{cfg : Config} `{pystr : PyStr}.
Implicit Types (d : db) (now : Z) (gateway_id : string).

(** ** What an outage tells *)

Definition plugs_of gateway_id d : list (Z * Plug.t) :=
  select (λ _ p, bool_decide (Plug.gateway_id p = gateway_id)) (plugs d).

(** The sessions running on the gateway's plugs. *)
Definition sessions_at gateway_id d : list (Z * ChargingSession.t) :=
  select (λ _ s, is_active s &&
    match plugs d !! ChargingSession.plug_id s with
    | Some p => bool_decide (Plug.gateway_id p = gateway_id)
    | None => false
    end) (sessions d).

Definition notify_drivers_gateway_offline gateway_id : M unit :=
  rows ← scope (query (sessions_at gateway_id));
  for_each rows (λ r, emit (Notify (ChargingSession.user_id r.2) "charger_offline" "warning"
                              (Some (ChargingSession.plug_id r.2)) (Some r.1))).

Definition broadcast_plug_connectivity gateway_id (gateway_online : bool) : M unit :=
  rows ← scope (query (plugs_of gateway_id));
  for_each rows (λ r, emit (EmitPlugConnectivity r.1 gateway_online)).

(** ** The delayed notice *)

Definition cancel_offline_notice gateway_id : M unit :=
  with_mem (λ m, m <| pending_offline ::= λ p, p ∖ {[gateway_id]} |>).
Definition schedule_offline_notice gateway_id : M unit :=
  with_mem (λ m, m <| pending_offline ::= λ p, {[gateway_id]} ∪ p |>).

Definition is_offline gateway_id d : bool :=
  match gateways d !! gateway_id with
  | Some g => bool_decide (Gateway.status g = GW_OFFLINE)
  | None => false
  end.

(** The task of a notice that comes due; a cancelled task does not run. *)
Definition deferred_offline_notice gateway_id : M unit :=
  pending ← read_mem (λ m, bool_decide (gateway_id ∈ pending_offline m));
  when pending
    (still_offline ← scope (query (is_offline gateway_id));
     cancel_offline_notice gateway_id;;
     when still_offline
       (notify_drivers_gateway_offline gateway_id;;
        broadcast_plug_connectivity gateway_id false)).

(** ** A reconnect *)

(** A charge waits on the plug and its power has not been back long enough. *)
Definition queue_holds d now (plug_id : Z) (plug : Plug.t) : bool :=
  exists_row (λ _ q, (QueuedCharge.plug_id q =? plug_id) && is_waiting q &&
    match tenants d !! QueuedCharge.tenant_id q with
    | Some tenant => negb (debounced now tenant plug)
    | None => false
    end) (queued d).

(** No session runs on the plug and no queued start is about to power it. *)
Definition orphaned d now (r : Z * Plug.t) : bool :=
  negb (exists_row (running_on r.1) (sessions d)) && negb (queue_holds d now r.1 r.2).

Definition cpos_of_gateway gateway_id d : list Z :=
  match gateways d !! gateway_id with
  | Some g => match Gateway.tenant_id g with
              | Some tid => map fst (select (is_cpo_of tid) (users d))
              | None => []
              end
  | None => []
  end.

Definition orphan_notice (plug_id cpo : Z) : M unit :=
  emit (Notify cpo "orphan_off" "warning" (Some plug_id) None).

Definition republish_off_for_orphaned_plugs gateway_id (alert_operators : bool) now : M unit :=
  '(alerts, cpos) ← scope (
    rows ← query (plugs_of gateway_id);
    orphans ← query (λ d, List.filter (orphaned d now) rows);
    for_each orphans (λ r, _ ← send_off r.1 r.2; mret tt);;
    let alerts := List.filter (λ r, ORPHAN_ALERT_MIN_POWER_W <=? Plug.current_power_w r.2) orphans in
    cpos ← query (cpos_of_gateway gateway_id);
    mret (alerts, if alert_operators && negb (bool_decide (alerts = [])) then cpos else []));
  for_each alerts (λ r, for_each cpos (orphan_notice r.1)).

(** ** The status message *)

Definition store_status gateway_id (online : bool) (fw : option string) : M (bool * bool) :=
  gateway ← query (λ d, gateways d !! gateway_id);
  match gateway with
  | None => mret (false, false)
  | Some g =>
      let was_offline := bool_decide (Gateway.status g = GW_OFFLINE) in
      modify (λ d, d <| gateways ::= alter (λ g,
        g <| Gateway.status := if online then ONLINE else GW_OFFLINE |>
          <| Gateway.firmware_version := match fw with
               | Some v => Some v | None => Gateway.firmware_version g end |>) gateway_id |>);;
      commit;;
      mret (online && was_offline, negb online && negb was_offline)
  end.

Definition persist_gateway_status gateway_id (online : bool) (fw : option string) now : M unit :=
  '(became_online, became_offline) ← scope (store_status gateway_id online fw);
  if online then
    cancel_offline_notice gateway_id;;
    republish_off_for_orphaned_plugs gateway_id became_online now;;
    _ ← publish_roster_for_gateway gateway_id;
    when became_online (broadcast_plug_connectivity gateway_id true)
  else
    when became_offline
      (if 0 <? GATEWAY_OFFLINE_NOTIFY_DELAY_SEC then schedule_offline_notice gateway_id
       else
         notify_drivers_gateway_offline gateway_id;;
         broadcast_plug_connectivity gateway_id false).

(** [str(fw)[:32] if fw else None]; an empty text counts as absent. *)
Definition reported_firmware (fw : value) : option string :=
  if vtruthy fw then Some (str_take 32 (py_str fw)) else None.

Definition handle_gateway_status gateway_id (p : payload) now : M unit :=
  persist_gateway_status gateway_id (vstr_eqb (vget "status" (J (JStr "offline")) p) "online")
    (reported_firmware (vget_none "fw" p)) now.

(** ** The delayed notice fires for lasting outages only *)

Lemma for_each_emit {A} (l : list A) (e : A → effect) w :
  for_each l (λ x, emit (e x)) w = (Ok tt, w <| evs ::= λ es, es ++ map e l |>).
Proof.
  revert w. induction l as [|x l IH]; intros w; simpl.
  - destruct w. unfold set_with. simpl. by rewrite app_nil_r.
  - unfold mbind, M_bind, emit. rewrite IH. destruct w. unfold set_with. simpl. by rewrite <- app_assoc.
Qed.

(** ** What a reconnect commands *)

Definition off_command (plug_id : Z) (plug : Plug.t) : mqtt_command :=
  CmdPlug (Plug.gateway_id plug) plug_id OFF default_max_duration default_max_kwh None
    (nonempty (Plug.local_ip plug)) None.
Definition off_sent (r : Z * Plug.t) : effect :=
  Publish (off_command r.1 r.2) (mqtt_ack (off_command r.1 r.2)).

Lemma for_each_off l w :
  for_each l (λ r, _ ← send_off r.1 r.2; mret tt) w =
  (Ok tt, w <| evs ::= λ es, es ++ map off_sent l |>).
Proof.
  revert w. induction l as [|r l IH]; intros w; simpl.
  - destruct w. unfold set_with. simpl. by rewrite app_nil_r.
  - unfold send_off, send_plug_command, publish, mbind, M_bind, emit, mret, M_ret in *. rewrite IH.
    destruct w. unfold set_with. simpl. by rewrite <- app_assoc.
Qed.

Lemma for_each_notices (alerts : list (Z * Plug.t)) cpos w :
  for_each alerts (λ r, for_each cpos (orphan_notice r.1)) w =
  (Ok tt, w <| evs ::= λ es, es ++ flat_map (λ r, map (λ cpo,
     Notify cpo "orphan_off" "warning" (Some r.1) None) cpos) alerts |>).
Proof.
  revert w. induction alerts as [|r l IH]; intros w; simpl.
  - destruct w. unfold set_with. simpl. by rewrite app_nil_r.
  - unfold mbind, M_bind. unfold orphan_notice at 1. rewrite for_each_emit, IH.
    destruct w. unfold set_with. simpl. by rewrite <- app_assoc.
Qed.

(** The plugs a reconnect switches off. *)
Definition orphans gateway_id d now : list (Z * Plug.t) :=
  List.filter (orphaned d now) (plugs_of gateway_id d).

Lemma orphans_spec gateway_id d now pid p :
  (pid, p) ∈ orphans gateway_id d now ↔
  plugs d !! pid = Some p ∧ Plug.gateway_id p = gateway_id ∧ idle d pid ∧
  queue_holds d now pid p = false.
Proof.
  unfold orphans. rewrite list_elem_of_In, filter_In, <- list_elem_of_In.
  unfold plugs_of, orphaned. rewrite elem_of_select, bool_decide_eq_true, andb_true_iff, !negb_true_iff.
  simpl. rewrite exists_row_false. unfold idle, running_on. split.
  - intros [[Hp Hg] [Hr Hq]]. split_and!; try done. intros sid s Hs Ha Hpid.
    specialize (Hr sid s Hs). rewrite Hpid, Z.eqb_refl, Ha in Hr. done.
  - intros (Hp & Hg & Hi & Hq). split_and!; try done. intros sid s Hs.
    destruct (is_active s) eqn:Ha; [|by rewrite andb_false_r].
    rewrite andb_true_r. apply Z.eqb_neq. by eapply Hi.
Qed.

(** A reconnecting gateway is told to switch off exactly its plugs that no
    session runs on and no queued start is about to power: never a plug in use,
    and every orphan.  Nothing is stored, and operators are told of nothing
    unless asked to be. *)
Theorem reconnect_off_exact gateway_id alert_operators now w :
  com w = cur w →
  let '(out, w') := run_request (republish_off_for_orphaned_plugs gateway_id alert_operators now) w in
  out = Ok tt ∧ com w' = com w ∧ ∃ sent, evs w' = evs w ++ sent ∧
  (∀ c accepted, Publish c accepted ∈ sent ↔ ∃ pid p, plugs (cur w) !! pid = Some p ∧
     Plug.gateway_id p = gateway_id ∧ idle (cur w) pid ∧ queue_holds (cur w) now pid p = false ∧
     c = off_command pid p ∧ accepted = mqtt_ack c) ∧
  (alert_operators = false → ∀ e, e ∈ sent → ∃ c accepted, e = Publish c accepted).
Proof.
  intros Hcc. unfold republish_off_for_orphaned_plugs, run_request, scope, mbind, M_bind, query.
  unfold run_request. rewrite for_each_off. cbv zeta.
  change (List.filter (orphaned (cur w) now) (plugs_of gateway_id (cur w)))
    with (orphans gateway_id (cur w) now).
  set (os := orphans gateway_id (cur w) now).
  set (alerts := List.filter _ os). cbv beta iota delta [mret M_ret].
  set (cpos := if alert_operators && _ then _ else _).
  rewrite for_each_notices. simpl. split; [done|]. split; [done|].
  set (notices := flat_map _ alerts). exists (map off_sent os ++ notices). split; [by rewrite app_assoc|].
  assert (Hn : ∀ c a, Publish c a ∉ notices).
  { intros c a. unfold notices. rewrite list_elem_of_In, in_flat_map. intros (r & _ & H).
    apply in_map_iff in H as (u & Hu & _). done. }
  split.
  - intros c a. rewrite elem_of_app. split.
    + intros [H|H]; [|by apply Hn in H]. apply list_elem_of_fmap in H as ([pid p] & He & Hin).
      apply orphans_spec in Hin as (? & ? & ? & ?). unfold off_sent in He. simpl in He.
      injection He as -> ->. exists pid, p. by split_and!.
    + intros (pid & p & Hp & Hg & Hi & Hq & -> & ->). left.
      apply list_elem_of_fmap. exists (pid, p). split; [done|]. by apply orphans_spec.
  - intros Hal e. unfold notices, cpos. rewrite Hal. simpl.
    rewrite elem_of_app. intros [H|H].
    + apply list_elem_of_fmap in H as (r & -> & _). unfold off_sent. eauto.
    + exfalso. apply list_elem_of_In, in_flat_map in H as (r & _ & H). done.
Qed.
End GatewayStatus.
