(* ===== verification/Mqtt.v ===== *)
(** * services/mqtt/router.py, logs.py, discovery.py: every inbound message

    [on_message] is the broker client's callback: it drops what is too long,
    finds the gateway and the kind of message in the topic, parses the payload
    and hands it to the handler of that kind, here together with the task the
    handler schedules.  [json.loads] is a parameter: the theorems hold for any
    parser whose numbers are binary64 values. *)

From Stdlib Require Import Ascii.
From S2P Require Import Prelude Rounding PyNum Money Models Config Billing TelemetryStore.
From S2P Require Import PyString World Hoare PyJson Wallet Commands Caps Pricing Lifecycle Ownership.
From S2P Require Import SessionStart Sessions Reaper Alarms Telemetry GatewayStatus.

(** ** Bytes to text: [decode("utf-8", errors="ignore")]

    Well-formed sequences stay, every other byte is dropped. *)

Definition byte_in (lo hi : nat) (c : ascii) : bool :=
  let n := Ascii.nat_of_ascii c in (lo <=? n)%nat && (n <=? hi)%nat.
Definition tail_byte : ascii → bool := byte_in 128 191.

(** The second byte of a three- and of a four-byte sequence. *)
Definition second_of_3 (c c1 : ascii) : bool :=
  byte_in 225 236 c && tail_byte c1 || byte_in 238 239 c && tail_byte c1 ||
  byte_in 224 224 c && byte_in 160 191 c1 || byte_in 237 237 c && byte_in 128 159 c1.
Definition second_of_4 (c c1 : ascii) : bool :=
  byte_in 241 243 c && tail_byte c1 || byte_in 240 240 c && byte_in 144 191 c1 ||
  byte_in 244 244 c && byte_in 128 143 c1.

Fixpoint decode_utf8 (s : string) : string :=
  match s with
  | EmptyString => EmptyString
  | String c s1 =>
      if byte_in 0 127 c then String c (decode_utf8 s1)
      else
        match s1 with
        | String c1 s2 =>
            if byte_in 194 223 c && tail_byte c1 then String c (String c1 (decode_utf8 s2))
            else
              match s2 with
              | String c2 s3 =>
                  if second_of_3 c c1 && tail_byte c2
                  then String c (String c1 (String c2 (decode_utf8 s3)))
                  else
                    match s3 with
                    | String c3 s4 =>
                        if second_of_4 c c1 && tail_byte c2 && tail_byte c3
                        then String c (String c1 (String c2 (String c3 (decode_utf8 s4))))
                        else decode_utf8 s1
                    | EmptyString => decode_utf8 s1
                    end
              | EmptyString => decode_utf8 s1
              end
        | EmptyString => decode_utf8 s1
        end
  end.

(** ** Topics *)

Fixpoint strip_prefix (p s : string) : option string :=
  match p, s with
  | EmptyString, _ => Some s
  | String c p, String c' s => if Ascii.eqb c c' then strip_prefix p s else None
  | _, EmptyString => None
  end.

(** Up to the first slash, and what follows it. *)
Fixpoint up_to_slash (s : string) : option (string * string) :=
  match s with
  | EmptyString => None
  | String c s =>
      if Ascii.eqb c "/" then Some (EmptyString, s)
      else '(l, r) ← up_to_slash s; Some (String c l, r)
  end.

Inductive topic_kind := Logs | Status | Telemetry | Discovery | Alarms.
#[export] Instance topic_kind_eq_dec : EqDecision topic_kind.
Proof. solve_decision. Defined.

Definition topic_name (k : topic_kind) : string :=
  match k with
  | Logs => "logs" | Status => "status" | Telemetry => "telemetry"
  | Discovery => "discovery" | Alarms => "alarms"
  end.

(** [^amphive/gateways/([^/]+)/KIND$]; [$] also matches before a final newline. *)
Definition newline : string := String "010"%char EmptyString.
Definition match_topic (k : topic_kind) (topic : string) : option string :=
  rest ← strip_prefix "amphive/gateways/" topic;
  '(gateway_id, name) ← up_to_slash rest;
  if negb (String.eqb gateway_id "") &&
     (String.eqb name (topic_name k) || String.eqb name (topic_name k +:+ newline))
  then Some gateway_id else None.

Inductive parsed := Invalid | NonObject | Object (p : payload).

(** [json.loads], and the test for a dict. *)
Class JsonLoads := json_loads : string → parsed.

Section Mqtt.
Context `{cfg : Config} `{pystr : PyStr} `{json : JsonLoads}.
Implicit Types (d : db) (now mono : Z) (gateway_id : string).

(** ** Firmware log lines *)

Definition LOG_LINE_MAX : nat := 200.
Definition OFFLINE_REPLAY_PREFIX : string := "[offline] ".

Definition rstrip (s : string) : string := String.rev (lstrip (String.rev s)).

(** [s[s.find(c) + 1:]], when [c] occurs. *)
Fixpoint after_char (c : ascii) (s : string) : option string :=
  match s with
  | EmptyString => None
  | String c' s => if Ascii.eqb c c' then Some s else after_char c s
  end.

Definition log_line_level (s : string) : string :=
  let s := default s (strip_prefix OFFLINE_REPLAY_PREFIX s) in
  let s := match strip_prefix (String "027"%char "[") s with
           | Some _ => default s (after_char "m" s)
           | None => s
           end in
  str_take 1 s.

Definition log_severity (line : string) : string :=
  let level := log_line_level line in
  if String.eqb level "E" then "error" else if String.eqb level "W" then "warning" else "info".

(** [gateway_logs.tenant_id] is NOT NULL. *)
Definition persist_gateway_log gateway_id (level message : string) now : M unit :=
  catch (scope (
    gw ← query (λ d, gateways d !! gateway_id);
    match gw with
    | None => mret tt
    | Some gw =>
        match Gateway.tenant_id gw with
        | None => raise IntegrityError
        | Some tid =>
            i ← fresh;
            modify (λ d, d <| gateway_logs ::= <[i :=
              GatewayLog.mk tid gateway_id level (str_take 220 message) now]> |>);;
            commit
        end
    end)) (λ _, mret tt).

Definition handle_gateway_log gateway_id (raw : string) now : M unit :=
  let line := rstrip raw in
  if String.eqb line "" then mret tt
  else
    let line := str_take LOG_LINE_MAX line in
    persist_gateway_log gateway_id (log_severity line) line now.

(** ** Plug discovery *)

Definition discovered gateway_id (unique_id : string) d : list Z :=
  map fst (select (λ _ p, bool_decide (Plug.gateway_id p = gateway_id) &&
                          bool_decide (Plug.unique_id p = Some unique_id)) (plugs d)).

(** A dict: of the plugs with one [unique_id] the last row read counts. *)
Definition assignments gateway_id d : list (string * Z) :=
  let rows := omap (λ r, (λ uid, (uid, r.1)) <$> Plug.unique_id r.2) (plugs_of gateway_id d) in
  map_to_list (list_to_map (reverse rows) : gmap string Z).

Definition new_plug gateway_id (alias local_ip model unique_id : string) : Plug.t :=
  Plug.mk gateway_id alias local_ip model (Some unique_id) OFFLINE 0 None None None None None
    None None None None None None None None.

(** [Some] of the map to publish, [None] when the announcement is dropped. *)
Definition store_discovery gateway_id (unique_id alias model local_ip : string)
    : M (option (list (string * Z))) :=
  gateway ← query (λ d, gateways d !! gateway_id);
  match gateway with
  | None => mret None
  | Some _ =>
      rows ← query (discovered gateway_id unique_id);
      existing ← one_or_none rows;
      stored ← match existing with
        | None =>
            plug_count ← query (λ d, count (λ p, bool_decide (Plug.gateway_id p = gateway_id)) (plugs d));
            if MAX_PLUGS_PER_GATEWAY <=? plug_count then mret false
            else
              i ← fresh;
              modify (λ d, d <| plugs ::= <[i := new_plug gateway_id alias local_ip model unique_id]> |>);;
              mret true
        | Some pid =>
            modify (λ d, d <| plugs ::= alter (λ p,
              p <| Plug.name := alias |> <| Plug.plug_model := model |>) pid |>);;
            mret true
        end;
      if negb stored then mret None
      else commit;; l ← query (assignments gateway_id); mret (Some l)
  end.

Definition persist_plug_discovery gateway_id (p : payload) : M unit :=
  let unique_id := str_take 128 (py_str (vget_none "unique_id" p)) in
  let field k dflt n := str_take n (py_str (vor (vget_none k p) (J (JStr dflt)))) in
  stored ← catch (scope (store_discovery gateway_id unique_id (field "alias" unique_id 100%nat)
                           (field "model" "agent" 50%nat) (field "ip" "agent" 45%nat)))
             (λ _, mret None);
  match stored with
  | None => mret tt
  | Some l =>
      emit (PublishAssign gateway_id l);;
      _ ← publish_roster_for_gateway gateway_id;
      mret tt
  end.

Definition handle_gateway_plug_discovery gateway_id (p : payload) : M unit :=
  when (vtruthy (vget_none "unique_id" p)) (persist_plug_discovery gateway_id p).

(** ** Routing *)

Definition MAX_MQTT_PAYLOAD_BYTES : Z := 16384.

Definition dispatch_object (topic : string) (p : payload) now mono : M unit :=
  match match_topic Status topic with
  | Some gateway_id => handle_gateway_status gateway_id p now
  | None =>
  match match_topic Telemetry topic with
  | Some gateway_id => handle_gateway_telemetry gateway_id p now mono
  | None =>
  match match_topic Discovery topic with
  | Some gateway_id => handle_gateway_plug_discovery gateway_id p
  | None =>
  match match_topic Alarms topic with
  | Some gateway_id => handle_gateway_alarm gateway_id p now
  | None => mret tt
  end end end end.

Definition on_message (topic bytes : string) now mono : M unit :=
  if MAX_MQTT_PAYLOAD_BYTES <? Z.of_nat (String.length bytes) then mret tt
  else
    catch
      (let text := decode_utf8 bytes in
       match match_topic Logs topic with
       | Some gateway_id => handle_gateway_log gateway_id text now
       | None =>
           match json_loads text with
           | Invalid | NonObject => mret tt
           | Object p => dispatch_object topic p now mono
           end
       end)
      (λ _, mret tt).

(** ** Topics name one gateway *)

Fixpoint no_slash (s : string) : Prop :=
  match s with EmptyString => True | String c s => c ≠ "/"%char ∧ no_slash s end.

Lemma append_cons c l r : String c l +:+ r = String c (l +:+ r).
Proof. done. Qed.
Lemma append_nil r : "" +:+ r = r.
Proof. done. Qed.

Lemma append_nil_r s : s +:+ "" = s.
Proof. induction s as [|c s IH]; [done|]. by rewrite append_cons, IH. Qed.

Lemma strip_prefix_spec p s r : strip_prefix p s = Some r ↔ s = p +:+ r.
Proof.
  revert s. induction p as [|c p IH]; intros s; simpl.
  - rewrite append_nil. split; congruence.
  - rewrite append_cons. destruct s as [|c' s]; [done|]. destruct (Ascii.eqb_spec c c') as [->|Hne].
    + rewrite IH. split; [by intros -> | by intros [=]].
    + split; [done | by intros [=]].
Qed.

Lemma up_to_slash_spec s l r :
  up_to_slash s = Some (l, r) ↔ s = l +:+ String "/" r ∧ no_slash l.
Proof.
  revert l. induction s as [|c s IH]; intros l; simpl.
  - split; [done | by destruct l; intros [? _]].
  - destruct (Ascii.eqb_spec c "/") as [->|Hne].
    + split; [by intros [= <- <-] | intros [Hs Hl]].
      destruct l as [|c l]; rewrite ?append_nil, ?append_cons in Hs.
      * by injection Hs as <-.
      * destruct Hl as [Hc _]. injection Hs as <- _. done.
    + rewrite bind_Some. split.
      * intros ([l' r'] & Hl & [= <- ->]). apply IH in Hl as [-> Hl]. done.
      * intros [Hs Hl]. destruct l as [|c' l]; rewrite ?append_nil, ?append_cons in Hs.
        { injection Hs as -> _. done. }
        injection Hs as <- Hs. exists (l, r). split; [by apply IH; destruct Hl | done].
Qed.

(** The topics of a gateway, exactly; [$] lets a final newline through. *)
Lemma match_topic_spec k topic gateway_id :
  match_topic k topic = Some gateway_id ↔
  gateway_id ≠ ""%string ∧ no_slash gateway_id ∧
  ∃ eol, (eol = ""%string ∨ eol = newline) ∧
    topic = "amphive/gateways/" +:+ gateway_id +:+ "/" +:+ topic_name k +:+ eol.
Proof.
  unfold match_topic. split.
  - intros (rest & Hrest & H)%bind_Some. apply bind_Some in H as ([g name] & Hup & H).
    apply strip_prefix_spec in Hrest. apply up_to_slash_spec in Hup as [-> Hno].
    destruct (_ && _) eqn:Hb; [|done]. injection H as <-.
    apply andb_true_iff in Hb as [Hne%negb_true_iff Hn%orb_true_iff].
    apply String.eqb_neq in Hne. split_and!; [done..|].
    destruct Hn as [->%String.eqb_eq| ->%String.eqb_eq].
    + exists ""%string. split; [by left|]. by rewrite Hrest, append_nil_r.
    + exists newline. split; [by right | done].
  - intros (Hne & Hno & eol & Heol & ->). apply bind_Some.
    exists (gateway_id +:+ String "/" (topic_name k +:+ eol)). split; [by apply strip_prefix_spec|].
    apply bind_Some. exists (gateway_id, topic_name k +:+ eol). split; [by apply up_to_slash_spec|].
    apply String.eqb_neq in Hne. rewrite Hne. simpl.
    destruct Heol as [-> | ->]; [rewrite append_nil_r|]; by rewrite String.eqb_refl, ?orb_true_r.
Qed.

Lemma match_topic_sender k k' topic g g' :
  match_topic k topic = Some g → match_topic k' topic = Some g' → g = g'.
Proof.
  unfold match_topic. intros (r & Hr & H)%bind_Some (r' & Hr' & H')%bind_Some.
  apply bind_Some in H as ([l n] & Hl & H), H' as ([l' n'] & Hl' & H').
  assert (r = r') as -> by congruence. assert (l = l') as -> by congruence.
  repeat case_match; congruence.
Qed.

(** ** What a message may do to the rows *)

(** Nothing is pending and [d] is stored. *)
Definition still d (w : world) : Prop := com w = d ∧ cur w = d.

Lemma safe_scope {A} d (m : M A) : safe (still d) m → safe (still d) (scope m).
Proof.
  intros Hm w Hw. unfold scope, run_request. destruct (Hm w Hw) as [Hok [H1 H2]].
  destruct (m w). simpl in *. by split.
Qed.

Ltac safe_still :=
  repeat first [safe_step | apply safe_scope | apply safe_effect; [by intros ? [? ?]; split | done]].

Lemma notify_drivers_still d gateway_id : safe (still d) (notify_drivers_gateway_offline gateway_id).
Proof. unfold notify_drivers_gateway_offline. safe_still. Qed.
Lemma broadcast_still d gateway_id online : safe (still d) (broadcast_plug_connectivity gateway_id online).
Proof. unfold broadcast_plug_connectivity. safe_still. Qed.
Lemma send_off_still d pid plug : safe (still d) (send_off pid plug).
Proof. unfold send_off, send_plug_command, publish. safe_still. Qed.
Lemma roster_still d gateway_id : safe (still d) (publish_roster_for_gateway gateway_id).
Proof. unfold publish_roster_for_gateway, publish. safe_still. Qed.

Lemma republish_still d gateway_id alert now :
  safe (still d) (republish_off_for_orphaned_plugs gateway_id alert now).
Proof.
  unfold republish_off_for_orphaned_plugs. safe_still. apply send_off_still.
Qed.

(** A message's effect on the rows, for the gateway that sent it. *)
Definition confined gateway_id d d' : Prop := db_ok d' ∧ within_gateway gateway_id d d'.

Lemma wp_status gateway_id online fw now Q w :
  com w = cur w → db_ok (cur w) →
  (∀ w', com w' = cur w' → confined gateway_id (cur w) (cur w') → Q (Ok tt) w') →
  wp (persist_gateway_status gateway_id online fw now) Q w.
Proof.
  intros Hcc Hok HQ. unfold persist_gateway_status. wp_step.
  assert (Hrest : ∀ w1 (went : bool * bool), com w1 = cur w1 → confined gateway_id (cur w) (cur w1) →
    wp (if online then cancel_offline_notice gateway_id;;
          republish_off_for_orphaned_plugs gateway_id went.1 now;;
          _ ← publish_roster_for_gateway gateway_id;
          when went.1 (broadcast_plug_connectivity gateway_id true)
        else when went.2
          (if 0 <? GATEWAY_OFFLINE_NOTIFY_DELAY_SEC then schedule_offline_notice gateway_id
           else notify_drivers_gateway_offline gateway_id;;
                broadcast_plug_connectivity gateway_id false)) Q w1).
  { intros w1 went Hcc1 Hc1. apply (wp_safe (still (cur w1))); [|by split|].
    - unfold cancel_offline_notice, schedule_offline_notice. safe_still;
        auto using republish_still, roster_still, broadcast_still, notify_drivers_still.
    - intros [] w' [H1 H2]. apply HQ; congruence. }
  apply wp_scope. unfold store_status. do 2 wp_step. destruct (gateways (cur w) !! gateway_id) as [g|].
  - do 2 wp_step. cbv beta iota. do 2 wp_step. apply (Hrest _ (_, _)); [done|]. split; simpl.
    + by apply (db_ok_frame (cur w)).
    + by apply within_frame.
  - wp_step. rewrite (clean_world w Hcc). apply (Hrest _ (_, _)); [done|]. by split.
Qed.

Lemma wp_log gateway_id raw now Q w :
  com w = cur w → db_ok (cur w) →
  (∀ w', com w' = cur w' → confined gateway_id (cur w) (cur w') → Q (Ok tt) w') →
  wp (handle_gateway_log gateway_id raw now) Q w.
Proof.
  intros Hcc Hok HQ. unfold handle_gateway_log, persist_gateway_log.
  case_match; [wp_step; by apply HQ|]. wp_step. apply wp_scope. do 2 wp_step.
  repeat wp_step; rewrite ?(clean_world w Hcc); try (by apply HQ).
  apply HQ; [done|]. split; simpl; [|by apply within_frame].
  apply (db_ok_frame (cur w)); simpl; try done. lia.
Qed.

(** The sequence numbers the plugs too. *)
Definition plugs_numbered d : Prop := ∀ i, next_id d <= i → plugs d !! i = None.

Lemma added_plug gateway_id d d' i p :
  db_ok d → plugs d !! i = None → Plug.gateway_id p = gateway_id → Plug.status p ≠ AVAILABLE →
  users d' = users d → ledger d' = ledger d → sessions d' = sessions d →
  plugs d' = <[i := p]> (plugs d) → next_id d <= next_id d' → confined gateway_id d d'.
Proof.
  intros Hok Hi Hg Hst Hu Hl Hs Hp Hn. split.
  - destruct Hok as [[Hw Hheld Hholds] Hact Hids Hfree Hone].
    split; [split|..]; unfold held in *; rewrite ?Hu, ?Hs, ?Hp; try done.
    + by apply (ledger_ok_frame d).
    + intros j x Hj Hx. destruct (Hact j x Hj Hx) as [? [q Hq]]. split; [done|]. exists q.
      rewrite lookup_insert_ne; [done | congruence].
    + intros j Hj. apply Hids. lia.
    + intros j q [[-> <-]|[_ Hj]]%lookup_insert_Some Hq; [done | by eapply Hfree].
  - split; rewrite ?Hs, ?Hu, ?Hp; try done; try (intros; eauto; fail).
    + intros j q Hj Hq. rewrite lookup_insert_ne; [done | congruence].
    + intros j q Hj. exists q. split; [|done]. rewrite lookup_insert_ne; [done | congruence].
    + intros j q [[-> <-]|[_ Hj]]%lookup_insert_Some Hq; [done | congruence].
Qed.

Lemma discovered_spec gateway_id uid d pid :
  pid ∈ discovered gateway_id uid d → owned gateway_id d pid.
Proof.
  unfold discovered. intros ([i p] & -> & H)%list_elem_of_fmap.
  apply elem_of_select in H as [Hp [Hg _]%andb_true_iff]. exists p. split; [done|].
  by apply bool_decide_eq_true in Hg.
Qed.

Lemma wp_store_discovery gateway_id uid alias model ip Q w :
  com w = cur w → db_ok (cur w) → plugs_numbered (cur w) →
  (∀ out w', com w' = cur w' → confined gateway_id (cur w) (cur w') → Q out w') →
  wp (scope (store_discovery gateway_id uid alias model ip)) Q w.
Proof.
  intros Hcc Hok Hnum HQ. apply wp_scope. unfold store_discovery.
  assert (Hdrop : ∀ out w', com w' = cur w → Q out (w' <| cur := com w' |>)).
  { intros out w' H. apply HQ; [done|]. simpl. rewrite H. by split. }
  do 2 wp_step. destruct (gateways (cur w) !! gateway_id); [|wp_step; by apply Hdrop].
  do 4 wp_step.
  - repeat wp_step; try done; try (by apply Hdrop). cbv beta iota. simpl. repeat wp_step.
    apply HQ; [done|]. simpl.
    apply (added_plug _ _ _ (next_id (cur w)) (new_plug gateway_id alias ip model uid)); simpl; try done.
    + apply Hnum. lia.
    + lia.
  - repeat wp_step; try done. apply HQ; [done|]. simpl.
    assert (Hown : owned gateway_id (cur w) x)
      by (eapply discovered_spec; rewrite H; left). destruct Hown as (q & Hq & Hg).
    set (f := λ p : Plug.t, p <| Plug.name := alias |> <| Plug.plug_model := model |>). split.
    + by apply (db_ok_plug (cur w) _ x f).
    + by apply (within_plug _ _ _ x q f).
  - by apply Hdrop.
Qed.

Lemma wp_discovery gateway_id p Q w :
  com w = cur w → db_ok (cur w) → plugs_numbered (cur w) →
  (∀ w', com w' = cur w' → confined gateway_id (cur w) (cur w') → Q (Ok tt) w') →
  wp (handle_gateway_plug_discovery gateway_id p) Q w.
Proof.
  intros Hcc Hok Hnum HQ. unfold handle_gateway_plug_discovery, persist_plug_discovery.
  wp_step; [|apply HQ; [done | by split]]. do 2 wp_step.
  apply wp_store_discovery; [done..|]. intros out w1 Hcc1 Hc1.
  assert (Hrest : ∀ stored, wp (match stored with
    | Some l => emit (PublishAssign gateway_id l);; _ ← publish_roster_for_gateway gateway_id; mret tt
    | None => mret tt end) Q w1).
  { intros stored. apply (wp_safe (still (cur w1))); [|by split|].
    - safe_still. apply roster_still.
    - intros [] w' [H1 H2]. apply HQ; congruence. }
  destruct out as [stored|]; [apply (Hrest stored) | wp_step; apply (Hrest None)].
Qed.

(** The message is read at all. *)
Definition accepted (topic bytes : string) : Prop :=
  Z.of_nat (String.length bytes) <= MAX_MQTT_PAYLOAD_BYTES ∧ ∃ k, is_Some (match_topic k topic).

Definition message_effect (topic bytes : string) (w w' : world) : Prop :=
  com w' = cur w' ∧ db_ok (cur w') ∧
  (∀ k g, match_topic k topic = Some g → within_gateway g (cur w) (cur w')) ∧
  (w' = w ∨ accepted topic bytes).

Lemma message_unread topic bytes w :
  com w = cur w → db_ok (cur w) → message_effect topic bytes w w.
Proof. intros Hcc Hok. split_and!; [done..|by left]. Qed.

Lemma message_read k g topic bytes w w' :
  Z.of_nat (String.length bytes) <= MAX_MQTT_PAYLOAD_BYTES → match_topic k topic = Some g →
  com w' = cur w' → confined g (cur w) (cur w') → message_effect topic bytes w w'.
Proof.
  intros Hlen Hk Hcc [Hok Hw]. split_and!; [done..| |].
  - intros k' g' Hk'. by rewrite (match_topic_sender k' k topic g' g).
  - right. split; [done|]. exists k. by rewrite Hk.
Qed.

Lemma wp_object topic bytes p now mono Q w :
  Z.of_nat (String.length bytes) <= MAX_MQTT_PAYLOAD_BYTES →
  com w = cur w → db_ok (cur w) → price_env (cur w) → plugs_numbered (cur w) → payload_wf p →
  (∀ out w', message_effect topic bytes w w' → Q out w') →
  wp (dispatch_object topic p now mono) Q w.
Proof.
  intros Hlen Hcc Hok Henv Hnum Hp HQ.
  unfold dispatch_object, handle_gateway_status, handle_gateway_alarm.
  assert (Hsame : ∀ out, Q out w) by (intros; by apply HQ, message_unread).
  repeat wp_step; try done.
  - apply wp_status; [done..|]. intros w' ? ?. by eapply HQ, message_read.
  - apply wp_handle_telemetry; [done..|]. intros out w' ? [? ? _]. by eapply HQ, message_read.
  - apply wp_discovery; [done..|]. intros w' ? ?. by eapply HQ, message_read.
  - apply wp_gateway_event; [done..|]. intros w' target ? [? ? _ _ _] _. by eapply HQ, message_read.
Qed.

(** C5: the device edge.  Whatever bytes arrive on whatever topic, the callback
    returns (the network thread survives) and every invariant holds; a message on
    a gateway's topic touches that gateway's plugs, the sessions running on them
    and their drivers' wallets, and nothing else; and a message that is too long
    or on no gateway's topic changes nothing at all. *)
Theorem message_confined topic bytes now mono w :
  com w = cur w → db_ok (cur w) → price_env (cur w) → plugs_numbered (cur w) →
  (∀ s p, json_loads s = Object p → payload_wf p) →
  let '(out, w') := run_request (on_message topic bytes now mono) w in
  out = Ok tt ∧ message_effect topic bytes w w'.
Proof.
  intros Hcc Hok Henv Hnum Hjson. apply run_request_wp. unfold on_message.
  assert (HQ : ∀ w', message_effect topic bytes w w' →
    message_effect topic bytes w (w' <| cur := com w' |>)).
  { intros w' (Hcc' & H). by rewrite (clean_world w' Hcc'). }
  assert (Hsame : message_effect topic bytes w (w <| cur := com w |>)) by (by apply HQ, message_unread).
  wp_step; [by wp_step|]. apply Z.ltb_ge in Heqb. do 2 wp_step.
  - apply wp_log; [done..|]. intros w' Hcc' Hc. split; [done|]. by eapply HQ, message_read.
  - wp_step; [by wp_step..|]. apply (wp_object topic bytes); [done..|by eapply Hjson|].
    intros out w' Heff. destruct out; [|wp_step]; (split; [by destruct a || done | by apply HQ]).
Qed.
End Mqtt.
