(* ===== verification/Agent.v ===== *)
(** * agent/amphive_agent: the software gateway

    The agent drives the plugs of a LAN, enforces each session's limits by itself
    and speaks the gateway protocol.  [agent] is its state: the persistent store
    (assignments, sessions), the devices in use, and the relays of the plugs.
    What a device answers is an argument of each step: [None] or [false] when the
    call raised.  A poll that trips a limit awaits the device, and other steps can
    come in between: it is the two steps [poll_begin] and [poll_end].  A duration
    that is no float raises in the poll loop, which ends ([halted]) and takes the
    process with it; commands can still come in before it is gone. *)

From Stdlib Require Import Ascii.
From S2P Require Import Prelude Rounding PyNum Money Models Config TelemetryStore World Hoare PyJson.
From S2P Require Import Billing Wallet Caps Lifecycle Ownership Alarms Telemetry.

(** ** model.py *)

Definition NOMINAL_VOLTAGE : float := fint 230.

Record PlugState := mkstate {
  st_on : bool;
  st_watts : float;
  st_energy_kwh : float;
  st_voltage : float;
  st_current : float }.

Definition effective_current (st : PlugState) : float :=
  if 0 <? st_current st then st_current st
  else fdiv (st_watts st) (if 0 <? st_voltage st then st_voltage st else NOMINAL_VOLTAGE).

(** ** The session kept per plug *)

Record session := mksession {
  s_on : bool;
  s_baseline_kwh : float;
  s_last_kwh : float;
  s_session_id : string;
  s_max_kwh : option pynum;
  s_max_duration_s : option Z;
  s_start_ts : option float;
  s_last_poll_ts : option float;
  s_integrated_kwh : float;
  s_has_meter : bool }.

#[export] Instance eta_session : Eta session := fun r =>
  mksession (s_on r) (s_baseline_kwh r) (s_last_kwh r) (s_session_id r) (s_max_kwh r)
    (s_max_duration_s r) (s_start_ts r) (s_last_poll_ts r) (s_integrated_kwh r) (s_has_meter r).

Definition KWH_EPSILON : float := flit 1 10000.
Definition DEFAULT_MAX_KWH : value := J (JFloat (fint 30)).
Definition DEFAULT_MAX_DURATION_S : value := J (JInt 14400).
Definition INTEGRATION_MAX_GAP_POLLS : float := fint 3.

(** The updated session and its energy. *)
Definition monotonic_session_kwh (s : session) (energy_kwh : float) : session * float :=
  let baseline := if energy_kwh <? fsub (s_baseline_kwh s) KWH_EPSILON
                  then energy_kwh else s_baseline_kwh s in
  let raw := fsub energy_kwh baseline in
  let session_kwh := if s_last_kwh s <? raw then raw else s_last_kwh s in
  (s <| s_baseline_kwh := baseline |> <| s_last_kwh := session_kwh |>, session_kwh).

Inductive reason := ENERGY_LIMIT | DURATION_LIMIT.

(** [x >= float(m)] *)
Definition reaches (x : float) (m : pynum) : bool :=
  match m with
  | PFloat y => y <=? x
  | PInf negative => negative
  | _ => false
  end.

(** [float(max_dur)] of an int beyond the floats is an OverflowError. *)
Definition limit_exceeded (s : session) (session_kwh now_ts : float) : result (option reason) :=
  timed_out ← match s_max_duration_s s, s_start_ts s with
    | Some d, Some t => limit ← float_of_int d; Ok (limit <=? fsub now_ts t)
    | _, _ => Ok false
    end;
  Ok (if timed_out : bool then Some DURATION_LIMIT
      else match s_max_kwh s with
           | Some m => if reaches session_kwh m then Some ENERGY_LIMIT else None
           | None => None
           end).

(** ** The agent *)

Inductive out :=
  | OutTelemetry (p : payload)
  | OutAlarm (p : payload)
  | OutDiscovery (unique_id : string).

Record agent := mkagent {
  assigned : gmap string Z;
  sessions_of : gmap Z session;
  devices : gmap Z string;
  pending : gset string;
  poll_s : float;
  relays : gmap Z bool;
  tripped : option (Z * PlugState * reason);
  sent : list out;
  halted : bool }.

#[export] Instance eta_agent : Eta agent := fun r =>
  mkagent (assigned r) (sessions_of r) (devices r) (pending r) (poll_s r) (relays r)
    (tripped r) (sent r) (halted r).

(** An empty store; [config.poll_s]. *)
Definition fresh_agent (poll : float) : agent := mkagent ∅ ∅ ∅ ∅ poll ∅ None [] false.

Definition send (o : out) (a : agent) : agent := a <| sent ::= λ l, l ++ [o] |>.
Definition set_session (plug_id : Z) (s : session) (a : agent) : agent :=
  a <| sessions_of ::= <[plug_id := s]> |>.
Definition clear_session (plug_id : Z) (a : agent) : agent := a <| sessions_of ::= delete plug_id |>.
(** [dev.set_power(on)], which [ok] says whether the device obeyed. *)
Definition set_power (plug_id : Z) (on ok : bool) (a : agent) : agent :=
  if ok then a <| relays ::= <[plug_id := on]> |> else a.

(** The session of the plug, when it is on. *)
Definition running (plug_id : Z) (a : agent) : option session :=
  s ← sessions_of a !! plug_id; if s_on s then Some s else None.

(** [str.upper], ASCII. *)
Definition upper_ascii (c : ascii) : ascii :=
  let n := Ascii.nat_of_ascii c in
  if (97 <=? n)%nat && (n <=? 122)%nat then Ascii.ascii_of_nat (n - 32) else c.
Fixpoint upper (s : string) : string :=
  match s with EmptyString => EmptyString | String c s => String (upper_ascii c) (upper s) end.

Section Agent.
Context `{pystr : PyStr}.
Implicit Types (a : agent) (plug_id : Z) (st : PlugState) (now : float) (cmd : payload).

(** ** Commands *)

Definition limits_of cmd : result (pynum * Z) :=
  max_kwh ← vfloat (vget "max_kwh" DEFAULT_MAX_KWH cmd);
  max_duration ← vint (vget "max_duration_seconds" DEFAULT_MAX_DURATION_S cmd);
  Ok (max_kwh, max_duration).

(** The limits are parsed after the relay is on and read: a call that raises
    leaves the relay on and records nothing. *)
Definition command_on plug_id cmd (power_ok : bool) (read : option PlugState) now a : agent :=
  let a := set_power plug_id true power_ok a in
  match power_ok, read, limits_of cmd with
  | true, Some st, Ok (max_kwh, max_duration) =>
      set_session plug_id
        (mksession true (st_energy_kwh st) 0 (py_str (vget "session_id" (J (JStr "")) cmd))
           (Some max_kwh) (Some max_duration) (Some now) (Some now) 0 (0 <? st_energy_kwh st)) a
  | _, _, _ => a
  end.

Definition command_off plug_id (power_ok : bool) a : agent :=
  if power_ok then clear_session plug_id (set_power plug_id false true a) else a.

(** The first bad number ends the command; what was changed before it stays. *)
Definition relimit cmd (s : session) : session :=
  let dur s := match vget_none "max_duration_seconds" cmd with
    | J JNull => s
    | v => match vint v with Ok d => s <| s_max_duration_s := Some d |> | Raise _ => s end
    end in
  match vget_none "max_kwh" cmd with
  | J JNull => dur s
  | v => match vfloat v with Ok k => dur (s <| s_max_kwh := Some k |>) | Raise _ => s end
  end.

Definition command_set_limits plug_id cmd a : agent :=
  match running plug_id a with
  | None => a
  | Some s => set_session plug_id (relimit cmd s) a
  end.

(** [min(60.0, max(0.5, ms / 1000.0))]; an [ms] beyond the floats raises. *)
Definition command_set_interval cmd a : agent :=
  match (ms ← vint (vget "interval_ms" (J (JFloat (fmul (poll_s a) (fint 1000)))) cmd);
         float_of_int ms) with
  | Ok ms => a <| poll_s := Z.min (fint 60) (Z.max (flit 1 2) (fdiv ms (fint 1000))) |>
  | Raise _ => a
  end.

Definition ota_refused : payload := [("event", J (JStr "OTA_REFUSED_NOT_APPLICABLE"))]%string.

Definition handle_command plug_id cmd (power_ok : bool) (read : option PlugState) now a : agent :=
  let action := upper (py_str (vget "action" (J (JStr "")) cmd)) in
  let is_action s := String.eqb action s in
  if is_action "SET_INTERVAL"%string then command_set_interval cmd a
  else if negb (bool_decide (is_Some (devices a !! plug_id))) then a
  else if is_action "ON"%string then command_on plug_id cmd power_ok read now a
  else if is_action "OFF"%string then command_off plug_id power_ok a
  else if is_action "SET_LIMITS"%string then command_set_limits plug_id cmd a
  else if is_action "OTA"%string then send (OutAlarm ota_refused) a
  else a.

(** ** Discovery and assignment *)

Definition adopt (unique_id : string) plug_id a : agent :=
  match devices a !! plug_id with
  | None => a <| devices ::= <[plug_id := unique_id]> |>
  | Some _ => a
  end.

(** One entry of the map; an entry that is no integer is skipped. *)
Definition assign_one (unique_id : string) (v : value) a : agent :=
  match vint v with
  | Ok plug_id =>
      let a := a <| assigned ::= <[unique_id := plug_id]> |> in
      if bool_decide (unique_id ∈ pending a)
      then adopt unique_id plug_id (a <| pending ::= λ p, p ∖ {[unique_id]} |>) else a
  | Raise _ => a
  end.

(** An infinite id is an OverflowError, which nothing catches: the rest is lost. *)
Fixpoint handle_assignment (l : payload) a : agent :=
  match l with
  | [] => a
  | (unique_id, v) :: l =>
      match v with
      | VInf _ => a
      | v => handle_assignment l (assign_one unique_id v a)
      end
  end.

Definition discover_one (unique_id : string) a : agent :=
  match assigned a !! unique_id with
  | Some plug_id => (adopt unique_id plug_id a) <| pending ::= λ p, p ∖ {[unique_id]} |>
  | None => send (OutDiscovery unique_id) (a <| pending ::= λ p, {[unique_id]} ∪ p |>)
  end.

Definition discover (found : list string) a : agent := foldl (λ a u, discover_one u a) a found.

(** ** Polling *)

(** The energy that is published and that the limits see. *)
Definition effective_kwh (s : session) (session_kwh : float) : float :=
  Z.max session_kwh (s_integrated_kwh s).

Definition telemetry_frame plug_id st (kwh : float) (status session_id : string) : payload :=
  [("plug_id", J (JInt plug_id)); ("watts", J (JFloat (fround 1 (st_watts st))));
   ("kwh", J (JFloat (fround 4 kwh))); ("voltage", J (JFloat (fround 1 (st_voltage st))));
   ("current", J (JFloat (fround 2 (effective_current st)))); ("status", J (JStr status));
   ("session_id", J (JStr session_id))]%string.

Definition publish_telemetry plug_id st a : agent :=
  match running plug_id a with
  | Some s =>
      let '(s, session_kwh) := monotonic_session_kwh s (st_energy_kwh st) in
      send (OutTelemetry (telemetry_frame plug_id st (effective_kwh s session_kwh) "occupied"
                            (s_session_id s))) (set_session plug_id s a)
  | None => send (OutTelemetry (telemetry_frame plug_id st 0 "available" "")) a
  end.

Definition latch_meter st (s : session) : session :=
  if 0 <? st_energy_kwh st then s <| s_has_meter := true |> else s.

(** watts * dt, for a plug without a meter, over gaps of at most three polls. *)
Definition integrate st now (poll : float) (s : session) : session :=
  if negb (s_has_meter s) && (0 <? st_watts st) then
    let last := match s_last_poll_ts s with
                | Some t => if t =? 0 then now else t
                | None => now
                end in
    let dt := fsub now last in
    if (0 <? dt) && (dt <=? fmul INTEGRATION_MAX_GAP_POLLS poll) then
      s <| s_integrated_kwh := fadd (s_integrated_kwh s)
             (fmul (fdiv (st_watts st) (fint 1000)) (fdiv dt (fint 3600))) |>
    else s
  else s.

(** What a poll makes of the session, and whether a limit is reached.  The dict is
    the store's own: what was written to it stays when the comparison raises. *)
Definition observe st now (poll : float) (s : session) : session * result (option reason) :=
  let '(s, session_kwh) := monotonic_session_kwh s (st_energy_kwh st) in
  let s := (integrate st now poll (latch_meter st s)) <| s_last_poll_ts := Some now |> in
  (s, limit_exceeded s (effective_kwh s session_kwh) now).

Definition poll_begin plug_id st (power_ok : bool) now a : agent :=
  match running plug_id a with
  | None => publish_telemetry plug_id st a
  | Some s =>
      let '(s, reason) := observe st now (poll_s a) s in
      let a := set_session plug_id s a in
      match reason with
      | Raise _ => a <| halted := true |>
      | Ok None => publish_telemetry plug_id st a
      | Ok (Some r) => (set_power plug_id false power_ok a) <| tripped := Some (plug_id, st, r) |>
      end
  end.

Definition reason_text (r : reason) : string :=
  match r with ENERGY_LIMIT => "ENERGY_LIMIT" | DURATION_LIMIT => "DURATION_LIMIT" end.

Definition cutoff_alarm plug_id (r : reason) : payload :=
  [("event", J (JStr "LOCAL_LIMIT_CUTOFF")); ("reason", J (JStr (reason_text r)));
   ("plug_id", J (JInt plug_id))]%string.

Definition poll_end a : agent :=
  match tripped a with
  | None => a
  | Some (plug_id, st, r) =>
      (send (OutAlarm (cutoff_alarm plug_id r))
         (clear_session plug_id (publish_telemetry plug_id st a))) <| tripped := None |>
  end.

(** A poll that nothing interrupts. *)
Definition watchdog_and_publish plug_id st (power_ok : bool) now a : agent :=
  poll_end (poll_begin plug_id st power_ok now a).

(** ** Runs *)

Inductive event :=
  | Command (plug_id : Z) (cmd : payload) (power_ok : bool) (read : option PlugState) (now : float)
  | Assignment (l : payload)
  | Discovered (found : list string)
  | PollBegin (plug_id : Z) (st : PlugState) (power_ok : bool) (now : float)
  | PollEnd.

(** One poll loop: a poll does not begin while another one awaits its plug, and
    none begins after one has raised. *)
Definition step (e : event) a : agent :=
  match e with
  | Command p cmd ok read now => handle_command p cmd ok read now a
  | Assignment l => handle_assignment l a
  | Discovered l => discover l a
  | PollBegin p st ok now =>
      match tripped a, devices a !! p with
      | None, Some _ => if halted a then a else poll_begin p st ok now a
      | _, _ => a
      end
  | PollEnd => poll_end a
  end.

Inductive reachable : agent → Prop :=
  | reachable_init poll : 0 <= poll → reachable (fresh_agent poll)
  | reachable_step e a : reachable a → reachable (step e a).

(** ** Invariants of the agent's runs *)

(** A kept session is on and has its limits; the integrator holds a float. *)
Definition limited (s : session) : Prop :=
  s_on s = true ∧ is_float (s_integrated_kwh s) ∧
  ∃ m d t, s_max_kwh s = Some m ∧ s_max_duration_s s = Some d ∧ s_start_ts s = Some t.

Definition agent_ok a : Prop :=
  0 <= poll_s a ∧ ∀ plug_id s, sessions_of a !! plug_id = Some s → limited s.

Lemma running_ok plug_id a s :
  agent_ok a → running plug_id a = Some s ↔ sessions_of a !! plug_id = Some s.
Proof.
  intros [_ Hok]. unfold running. destruct (sessions_of a !! plug_id) as [x|] eqn:Hx; simpl; [|done].
  by rewrite (proj1 (Hok _ _ Hx)).
Qed.

(** The limits, the identity and the start of the session. *)
Definition same_session (s s' : session) : Prop :=
  s_on s' = s_on s ∧ s_session_id s' = s_session_id s ∧ s_max_kwh s' = s_max_kwh s ∧
  s_max_duration_s s' = s_max_duration_s s ∧ s_start_ts s' = s_start_ts s.

Lemma monotonic_same s e : same_session s (monotonic_session_kwh s e).1.
Proof. done. Qed.

Lemma observe_same st now poll s : same_session s (observe st now poll s).1.
Proof.
  unfold observe, integrate, latch_meter. simpl. repeat case_match; by destruct s.
Qed.

(** The energy reported so far. *)
Definition energy (s : session) : float := effective_kwh s (s_last_kwh s).

Lemma monotonic_value s e : s_last_kwh (monotonic_session_kwh s e).1 = (monotonic_session_kwh s e).2.
Proof. done. Qed.

Lemma integrated_grows st now poll s :
  is_float (s_integrated_kwh s) →
  s_integrated_kwh s <= s_integrated_kwh (integrate st now poll s) ∧
  is_float (s_integrated_kwh (integrate st now poll s)).
Proof.
  intros Hf. unfold integrate. cbv zeta.
  destruct (negb (s_has_meter s) && (0 <? st_watts st)) eqn:Hm; [|done].
  set (dt := fsub now _). destruct ((0 <? dt) && _) eqn:Hd; [|done]. passed.
  simpl. split; [|apply fadd_is_float]. apply fadd_ge_l; [done|].
  unfold fmul, fdiv. apply frnd_nonneg; [apply FU_pos|]. apply Z.mul_nonneg_nonneg.
  - apply frnd_nonneg; [by vm_compute|]. pose proof FU_pos. lia.
  - apply frnd_nonneg; [by vm_compute|]. pose proof FU_pos. lia.
Qed.

Lemma last_grows s e : s_last_kwh s <= s_last_kwh (monotonic_session_kwh s e).1.
Proof. simpl. destruct (Z.ltb_spec (s_last_kwh s) (fsub e (if e <? fsub (s_baseline_kwh s) KWH_EPSILON
    then e else s_baseline_kwh s))); lia. Qed.

Lemma latch_integrated st s : s_integrated_kwh (latch_meter st s) = s_integrated_kwh s.
Proof. unfold latch_meter. by case_match. Qed.

Lemma observe_energy st now poll s :
  is_float (s_integrated_kwh s) →
  energy s <= energy (observe st now poll s).1 ∧ is_float (s_integrated_kwh (observe st now poll s).1).
Proof.
  intros Hf. unfold observe. pose proof (last_grows s (st_energy_kwh st)) as Hl.
  destruct (monotonic_session_kwh s (st_energy_kwh st)) as [s1 k] eqn:Hm. simpl in Hl.
  assert (Hi1 : s_integrated_kwh s1 = s_integrated_kwh s) by (injection Hm as <- <-; done).
  destruct (integrated_grows st now poll (latch_meter st s1)) as [Hi Hif].
  { by rewrite latch_integrated, Hi1. }
  rewrite latch_integrated, Hi1 in Hi. simpl. split; [|done].
  assert (Hlast : s_last_kwh (integrate st now poll (latch_meter st s1)) = s_last_kwh s1).
  { unfold integrate, latch_meter. repeat case_match; done. }
  unfold energy, effective_kwh. simpl. rewrite Hlast. lia.
Qed.

(** A session later on: same identity, no less energy. *)
Record grown (s s' : session) : Prop := {
  gr_energy : energy s <= energy s';
  gr_id : s_session_id s' = s_session_id s;
  gr_start : s_start_ts s' = s_start_ts s;
  gr_ok : limited s → limited s' }.

#[local] Instance grown_preorder : PreOrder grown.
Proof.
  split; [intros s; by split|]. intros s1 s2 s3 [E1 I1 T1 L1] [E2 I2 T2 L2]. split; try congruence; auto; lia.
Qed.

(** Every session of [a'] was one of [a]. *)
Definition evolves a a' : Prop :=
  ∀ p s', sessions_of a' !! p = Some s' → ∃ s, sessions_of a !! p = Some s ∧ grown s s'.

#[local] Instance evolves_preorder : PreOrder evolves.
Proof.
  split; [intros a p s' Hs; by exists s'|]. intros a1 a2 a3 H12 H23 p s3 H3.
  destruct (H23 p s3 H3) as (s2 & H2 & G23). destruct (H12 p s2 H2) as (s1 & H1 & G12).
  exists s1. split; [done | by transitivity s2].
Qed.

Lemma evolves_frame a a' : sessions_of a' = sessions_of a → evolves a a'.
Proof. intros H p s'. rewrite H. intros Hs. by exists s'. Qed.

Lemma evolves_clear p a : evolves a (clear_session p a).
Proof. intros q s'. simpl. intros [_ Hs]%lookup_delete_Some. by exists s'. Qed.

Lemma evolves_set p s s' a : sessions_of a !! p = Some s → grown s s' → evolves a (set_session p s' a).
Proof.
  intros Hs Hg q x. simpl. intros [[<- <-]|[_ Hx]]%lookup_insert_Some; [by exists s | by exists x].
Qed.

Lemma running_lookup p a s : running p a = Some s → sessions_of a !! p = Some s.
Proof. unfold running. intros (x & Hx & H)%bind_Some. by destruct (s_on x); simplify_eq. Qed.

Lemma limited_same s s' :
  same_session s s' → is_float (s_integrated_kwh s') → limited s → limited s'.
Proof.
  intros (H1 & _ & H2 & H3 & H4) Hf (Hon & _ & m & d & t & ? & ? & ?).
  split_and!; [congruence | done |]. exists m, d, t. split_and!; congruence.
Qed.

Lemma monotonic_grown s e : grown s (monotonic_session_kwh s e).1.
Proof.
  split; try done. pose proof (last_grows s e). unfold energy, effective_kwh. simpl in *. lia.
Qed.

Lemma publish_evolves p st a : evolves a (publish_telemetry p st a).
Proof.
  unfold publish_telemetry. destruct (running p a) as [s|] eqn:Hs; [|by apply evolves_frame].
  pose proof (monotonic_grown s (st_energy_kwh st)) as Hg. destruct (monotonic_session_kwh s _) as [s' k].
  transitivity (set_session p s' a); [|by apply evolves_frame].
  apply (evolves_set _ s); [by apply running_lookup | done].
Qed.

Lemma observe_grown st now poll s : limited s → grown s (observe st now poll s).1.
Proof.
  intros Hl. destruct (observe_energy st now poll s) as [He Hf]; [apply Hl|].
  destruct (observe_same st now poll s) as (H1 & H2 & H3 & H4 & H5).
  split; try done. intros _. by apply (limited_same s).
Qed.

Lemma poll_begin_evolves p st ok now a : agent_ok a → evolves a (poll_begin p st ok now a).
Proof.
  intros Hok. unfold poll_begin. destruct (running p a) as [s|] eqn:Hs; [|apply publish_evolves].
  apply running_lookup in Hs.
  pose proof (observe_grown st now (poll_s a) s (proj2 Hok _ _ Hs)) as Hg.
  destruct (observe st now (poll_s a) s) as [s' r]. simpl in Hg.
  transitivity (set_session p s' a); [by apply (evolves_set _ s)|].
  destruct r as [[r|]|]; [|apply publish_evolves|by apply evolves_frame].
  apply evolves_frame. by destruct ok.
Qed.

Lemma poll_end_evolves a : evolves a (poll_end a).
Proof.
  unfold poll_end. destruct (tripped a) as [[[p st] r]|]; [|done].
  transitivity (publish_telemetry p st a); [apply publish_evolves|].
  transitivity (clear_session p (publish_telemetry p st a)); [apply evolves_clear | by apply evolves_frame].
Qed.

Lemma relimit_grown cmd s : grown s (relimit cmd s).
Proof.
  assert (Hm : ∀ m s, grown s (s <| s_max_kwh := Some m |>)).
  { intros m x. split; try done. intros (? & ? & m' & d & t & ? & ? & ?). split_and!; try done.
    by exists m, d, t. }
  assert (Hd : ∀ d s, grown s (s <| s_max_duration_s := Some d |>)).
  { intros d x. split; try done. intros (? & ? & m & d' & t & ? & ? & ?). split_and!; try done.
    by exists m, d, t. }
  unfold relimit. repeat case_match; try done; try apply Hd; try apply Hm;
    (etrans; [apply Hm | apply Hd]).
Qed.

Lemma assign_one_frame u v a :
  sessions_of (assign_one u v a) = sessions_of a ∧ poll_s (assign_one u v a) = poll_s a.
Proof. unfold assign_one, adopt. repeat case_match; done. Qed.

Lemma handle_assignment_frame l a :
  sessions_of (handle_assignment l a) = sessions_of a ∧ poll_s (handle_assignment l a) = poll_s a.
Proof.
  revert a. induction l as [|[u v] l IH]; intros a; [done|]. simpl.
  pose proof (assign_one_frame u v a) as [H1 H2].
  pose proof (IH (assign_one u v a)) as [H3 H4].
  destruct v as [j| |]; [|done|]; split; congruence.
Qed.

Lemma discover_one_frame u a :
  sessions_of (discover_one u a) = sessions_of a ∧ poll_s (discover_one u a) = poll_s a.
Proof. unfold discover_one, adopt. repeat case_match; done. Qed.

Lemma discover_frame l a : sessions_of (discover l a) = sessions_of a ∧ poll_s (discover l a) = poll_s a.
Proof.
  unfold discover. revert a. induction l as [|u l IH]; intros a; [done|]. simpl.
  destruct (IH (discover_one u a)) as [-> ->]. apply discover_one_frame.
Qed.

Definition action_of cmd : string := upper (py_str (vget "action" (J (JStr "")) cmd)).

(** The event starts a session of the plug. *)
Definition switches_on (e : event) plug_id : Prop :=
  match e with
  | Command p cmd _ _ _ => p = plug_id ∧ action_of cmd = "ON"%string
  | _ => False
  end.

Lemma command_evolves p cmd ok read now a :
  action_of cmd ≠ "ON"%string → evolves a (handle_command p cmd ok read now a).
Proof.
  intros Hne. unfold handle_command. fold (action_of cmd). apply String.eqb_neq in Hne. rewrite Hne.
  case_match; [apply evolves_frame; unfold command_set_interval; by case_match|].
  case_match; [done|]. case_match.
  { unfold command_off. destruct ok; [|done]. etrans; [|apply evolves_clear]. by apply evolves_frame. }
  case_match; [|case_match; [by apply evolves_frame | done]].
  unfold command_set_limits. destruct (running p a) as [s|] eqn:Hs; [|done].
  apply (evolves_set _ s); [by apply running_lookup | apply relimit_grown].
Qed.

Lemma command_on_fresh p cmd ok read now a q s' :
  sessions_of (command_on p cmd ok read now a) !! q = Some s' →
  sessions_of a !! q = Some s' ∨ p = q ∧ limited s'.
Proof.
  assert (Hp : sessions_of (set_power p true ok a) = sessions_of a) by (by destruct ok).
  unfold command_on. rewrite <- Hp. repeat case_match; try (intros; by left).
  simpl. intros [[<- <-]|[_ H']]%lookup_insert_Some; [right | by left].
  split; [done|]. split_and!; [done | apply is_float_0 |]. eexists _, _, _. by split_and!.
Qed.

Lemma step_evolves e a p s' :
  agent_ok a → ¬ switches_on e p → sessions_of (step e a) !! p = Some s' →
  ∃ s, sessions_of a !! p = Some s ∧ grown s s'.
Proof.
  intros Hok Hno. assert (Hev : evolves a (step e a) → sessions_of (step e a) !! p = Some s' →
    ∃ s, sessions_of a !! p = Some s ∧ grown s s') by (intros H; apply H).
  destruct e as [q cmd ok read now|l|l|q st ok now|]; simpl in *.
  - destruct (String.eqb_spec (action_of cmd) "ON") as [Hon|Hon]; [|by apply Hev, command_evolves].
    assert (Hq : q ≠ p) by tauto. unfold handle_command. fold (action_of cmd). rewrite Hon. simpl.
    case_match; [by apply evolves_frame|]. intros [Hs|[? _]]%command_on_fresh; [by exists s' | done].
  - apply Hev, evolves_frame, handle_assignment_frame.
  - apply Hev, evolves_frame, discover_frame.
  - destruct (tripped a); [by apply evolves_frame|].
    destruct (devices a !! q); [|by apply evolves_frame].
    destruct (halted a); [by apply evolves_frame | by apply Hev, poll_begin_evolves].
  - apply Hev, poll_end_evolves.
Qed.

Lemma publish_poll p st a : poll_s (publish_telemetry p st a) = poll_s a.
Proof. unfold publish_telemetry. case_match; [|done]. by destruct (monotonic_session_kwh _ _). Qed.

Lemma step_poll e a : 0 <= poll_s a → 0 <= poll_s (step e a).
Proof.
  intros H0. destruct e as [q cmd ok read now|l|l|q st ok now|]; simpl.
  - unfold handle_command. fold (action_of cmd). case_match.
    + unfold command_set_interval. case_match; [|done]. simpl.
      assert (0 <= flit 1 2 ∧ 0 <= fint 60) by (split; by apply flit_nonneg). lia.
    + unfold command_on, command_off, command_set_limits, set_power. repeat case_match; done.
  - by rewrite (proj2 (handle_assignment_frame l a)).
  - by rewrite (proj2 (discover_frame l a)).
  - case_match; [done|]. case_match; [|done]. case_match; [done|]. unfold poll_begin.
    case_match; [|by rewrite publish_poll]. destruct (observe _ _ _ _) as [s' [[r|]|]].
    + by destruct ok.
    + by rewrite publish_poll.
    + done.
  - unfold poll_end. destruct (tripped a) as [[[p st] r]|]; [|done].
    change (0 <= poll_s (publish_telemetry p st a)). by rewrite publish_poll.
Qed.

Lemma reachable_ok a : reachable a → agent_ok a.
Proof.
  induction 1 as [poll H0|e a _ IH].
  - split; [done|]. simpl. intros p s. by rewrite lookup_empty.
  - split; [apply step_poll, IH|]. intros p s' Hs'.
    assert (Hdec : switches_on e p ∨ ¬ switches_on e p).
    { destruct e as [q cmd ok read now| | | |]; simpl; try tauto.
      destruct (decide (q = p)), (decide (action_of cmd = "ON"%string)); tauto. }
    destruct Hdec as [Hon|Hno].
    + destruct e as [q cmd ok read now| | | |]; try done. destruct Hon as [-> Hon]. simpl in Hs'.
      unfold handle_command in Hs'. fold (action_of cmd) in Hs'. rewrite Hon in Hs'. simpl in Hs'.
      case_match; [by apply (proj2 IH p)|].
      apply command_on_fresh in Hs' as [Hs'|[_ ?]]; [by apply (proj2 IH p) | done].
    + destruct (step_evolves e a p s' IH Hno Hs') as (s & Hs & Hg). apply Hg. by apply (proj2 IH p).
Qed.

(** C8: whatever commands, assignments, discoveries and polls reach the agent,
    in whatever order, a session only begins with an ON for its plug; until the
    next one it keeps its id and its start, and the energy it reports never goes
    down, whatever the plug's meter does. *)
Theorem agent_energy_forward a e plug_id s' :
  reachable a → ¬ switches_on e plug_id → running plug_id (step e a) = Some s' →
  ∃ s, running plug_id a = Some s ∧ energy s <= energy s' ∧
    s_session_id s' = s_session_id s ∧ s_start_ts s' = s_start_ts s.
Proof.
  intros Hr Hno Hs'. pose proof (reachable_ok a Hr) as Hok. apply running_lookup in Hs'.
  destruct (step_evolves e a plug_id s' Hok Hno Hs') as (s & Hs & [He Hi Ht _]).
  exists s. split; [by apply running_ok | done].
Qed.

(** ** The watchdog *)

(** Reading the same meter value again changes nothing. *)
Lemma monotonic_idempotent s e :
  is_float e → let '(s1, k) := monotonic_session_kwh s e in
  ∀ s2, s_baseline_kwh s2 = s_baseline_kwh s1 → s_last_kwh s2 = s_last_kwh s1 →
  monotonic_session_kwh s2 e = (s2, k).
Proof.
  intros Hf. unfold monotonic_session_kwh.
  set (b := if e <? fsub (s_baseline_kwh s) KWH_EPSILON then e else s_baseline_kwh s).
  assert (Hb : (e <? fsub b KWH_EPSILON) = false).
  { unfold b. destruct (Z.ltb_spec e (fsub (s_baseline_kwh s) KWH_EPSILON)); [|by apply Z.ltb_ge].
    apply Z.ltb_ge. rewrite <- (fsub_0_r e Hf) at 2. apply fsub_mono; [lia|].
    unfold KWH_EPSILON. by apply flit_nonneg. }
  clearbody b. intros s2 H1 H2. simpl in H1, H2. rewrite H1, Hb, H2.
  destruct (Z.ltb_spec (s_last_kwh s) (fsub e b)) as [Hlt|Hge].
  - rewrite Z.ltb_irrefl. f_equal. destruct s2; simpl in *; by subst.
  - rewrite (proj2 (Z.ltb_ge _ _)) by lia. f_equal. destruct s2; simpl in *; by subst.
Qed.

Lemma running_of p a s : sessions_of a !! p = Some s → s_on s = true → running p a = Some s.
Proof. unfold running. intros -> Hon. simpl. by rewrite Hon. Qed.

(** Publishing after the check reports the energy the check has seen. *)
Lemma observe_publish p st now poll s a :
  is_float (st_energy_kwh st) → s_on s = true →
  let s' := (observe st now poll s).1 in
  sessions_of a !! p = Some s' →
  publish_telemetry p st a =
  send (OutTelemetry (telemetry_frame p st (energy s') "occupied" (s_session_id s))) (set_session p s' a).
Proof.
  intros Hf Hon s' Hs'. destruct (observe_same st now poll s) as (H1 & H2 & _). fold s' in H1, H2.
  unfold publish_telemetry. rewrite (running_of p a s') by congruence.
  pose proof (monotonic_idempotent s _ Hf) as Hi. destruct (monotonic_session_kwh s _) as [s1 k] eqn:Hm.
  assert (Hb : s_baseline_kwh s' = s_baseline_kwh s1 ∧ s_last_kwh s' = s_last_kwh s1 ∧ s_last_kwh s1 = k).
  { unfold s', observe. rewrite Hm. injection Hm as <- <-. simpl. unfold integrate, latch_meter.
    repeat case_match; done. }
  destruct Hb as (Hb & Hl & Hk). rewrite (Hi s' Hb Hl), H2. unfold energy. by rewrite Hl, Hk.
Qed.

Lemma observe_reason st now poll s :
  (observe st now poll s).2 =
  limit_exceeded (observe st now poll s).1 (energy (observe st now poll s).1) now.
Proof.
  unfold observe. destruct (monotonic_session_kwh s _) as [s1 k] eqn:E. simpl. f_equal.
  unfold energy. f_equal. injection E as <- <-. unfold integrate, latch_meter. repeat case_match; done.
Qed.

(** The relay goes off, when the plug obeys, and the session is over. *)
Lemma cutoff_spec p st r s frame a1 :
  sessions_of a1 !! p = Some s → publish_telemetry p st a1 = send frame (set_session p s a1) →
  tripped a1 = Some (p, st, r) →
  let a' := poll_end a1 in
  running p a' = None ∧ relays a' = relays a1 ∧ halted a' = halted a1 ∧
  sent a' = sent a1 ++ [frame; OutAlarm (cutoff_alarm p r)].
Proof.
  intros Hs Hp Ht. unfold poll_end. rewrite Ht, Hp. simpl. rewrite <- app_assoc. split_and!; try done.
  unfold running. simpl. by rewrite lookup_delete_eq.
Qed.

(** A poll that nothing interrupts, by what it sees. *)
Lemma poll_outcome a p st ok now s :
  running p a = Some s → is_float (st_energy_kwh st) → s_on s = true → tripped a = None →
  let s' := (observe st now (poll_s a) s).1 in
  let frame := OutTelemetry (telemetry_frame p st (energy s') "occupied" (s_session_id s)) in
  let a' := watchdog_and_publish p st ok now a in
  match (observe st now (poll_s a) s).2 with
  | Raise _ => halted a' = true ∧ running p a' = Some s' ∧ relays a' = relays a ∧ sent a' = sent a
  | Ok None => halted a' = halted a ∧ running p a' = Some s' ∧ relays a' = relays a ∧ sent a' = sent a ++ [frame]
  | Ok (Some r) => halted a' = halted a ∧ running p a' = None ∧ (ok = true → relays a' !! p = Some false) ∧
      sent a' = sent a ++ [frame; OutAlarm (cutoff_alarm p r)]
  end.
Proof.
  intros Hs Hf Hon Hnt s' frame a'.
  assert (Hpub : ∀ a1, sessions_of a1 !! p = Some s' →
    publish_telemetry p st a1 = send frame (set_session p s' a1)) by (intros a1; by apply observe_publish).
  assert (Hon' : s_on s' = true) by (destruct (observe_same st now (poll_s a) s); unfold s'; congruence).
  unfold a', watchdog_and_publish, poll_begin. rewrite Hs.
  rewrite (surjective_pairing (observe st now (poll_s a) s)). fold s'.
  destruct (observe st now (poll_s a) s).2 as [[r|]|].
  - destruct (cutoff_spec p st r s' frame
      ((set_power p false ok (set_session p s' a)) <| tripped := Some (p, st, r) |>)) as (H1 & H2 & H3 & H4).
    + destruct ok; apply lookup_insert_eq.
    + apply Hpub. destruct ok; apply lookup_insert_eq.
    + done.
    + rewrite H2, H3, H4. split_and!; [by destruct ok | done | | by destruct ok].
      intros ->. apply lookup_insert_eq.
  - rewrite Hpub by apply lookup_insert_eq. unfold poll_end. simpl. rewrite Hnt.
    split_and!; [done | | done..]. apply running_of; [apply lookup_insert_eq | done].
  - unfold poll_end. simpl. rewrite Hnt. split_and!; [done | | done..].
    apply running_of; [apply lookup_insert_eq | done].
Qed.

(** C7: the local watchdog.  In any state the agent can reach, a poll of a plug
    with a session compares the energy it is about to report and the time since
    the start with the session's own limits.  Within both, it reports that energy
    and the session goes on; at or past one, the relay is switched off (when the
    plug obeys), the last energy is reported, the session is over and the backend
    is told which limit it was.  A duration that is beyond the floats (only a
    number of more than 53 bits can be) stops the polling with an OverflowError
    instead, and nothing is switched off or sent. *)
Theorem watchdog_enforces a plug_id st ok now s :
  reachable a → running plug_id a = Some s → is_float (st_energy_kwh st) →
  is_Some (devices a !! plug_id) → tripped a = None → halted a = false →
  ∃ max_kwh max_duration start,
    s_max_kwh s = Some max_kwh ∧ s_max_duration_s s = Some max_duration ∧ s_start_ts s = Some start ∧
  let s' := (observe st now (poll_s a) s).1 in
  let frame := OutTelemetry (telemetry_frame plug_id st (energy s') "occupied" (s_session_id s)) in
  let a' := step PollEnd (step (PollBegin plug_id st ok now) a) in
  match float_of_int max_duration with
  | Ok limit =>
      halted a' = false ∧
      let timed_out := limit <=? fsub now start in
      if timed_out || reaches (energy s') max_kwh then
        running plug_id a' = None ∧ (ok = true → relays a' !! plug_id = Some false) ∧
        sent a' = sent a ++
          [frame; OutAlarm (cutoff_alarm plug_id (if timed_out then DURATION_LIMIT else ENERGY_LIMIT))]
      else running plug_id a' = Some s' ∧ relays a' = relays a ∧ sent a' = sent a ++ [frame]
  | Raise _ =>
      2 ^ 53 < Z.abs max_duration ∧ halted a' = true ∧
      running plug_id a' = Some s' ∧ relays a' = relays a ∧ sent a' = sent a
  end.
Proof.
  intros Hr Hs Hf [u Hu] Hnt Hh. pose proof (reachable_ok a Hr) as Hok.
  destruct (proj2 Hok _ _ (running_lookup _ _ _ Hs)) as (Hon & _ & m & d & t & Hm & Hd & Ht).
  exists m, d, t. split_and!; [done..|]. intros s' frame a'.
  assert (Ha' : a' = watchdog_and_publish plug_id st ok now a).
  { unfold a'. simpl. by rewrite Hnt, Hu, Hh. }
  pose proof (poll_outcome a plug_id st ok now s Hs Hf Hon Hnt) as H.
  pose proof (observe_reason st now (poll_s a) s) as Hreason.
  destruct (observe_same st now (poll_s a) s) as (_ & _ & S3 & S4 & S5). cbv zeta in H. fold s' frame in H, Hreason.
  unfold limit_exceeded in Hreason. fold s' in S3, S4, S5. rewrite S3, S4, S5, Hm, Hd, Ht in Hreason.
  rewrite Hreason, <- Ha' in H. clear Hreason. destruct (float_of_int d) as [limit|e] eqn:Hlim; simpl in H |- *.
  - destruct (limit <=? fsub now t); [|destruct (reaches _ _)]; rewrite Hh in H; exact H.
  - split; [|done]. apply Z.nle_gt. intros Hsmall. by rewrite float_of_int_small in Hlim.
Qed.

(** Nothing polls again: the plugs are only what commands make of them. *)
Lemma halted_step a e :
  halted a = true → halted (step e a) = true ∧
  match e with PollBegin _ _ _ _ => step e a = a | _ => True end.
Proof.
  intros Hh. destruct e as [q cmd ok read now|l|l|q st ok now|]; simpl.
  - split; [|done]. unfold handle_command, command_set_interval, command_on, command_off, command_set_limits,
      set_power. repeat case_match; done.
  - split; [|done]. revert a Hh. induction l as [|[u v] l IH]; intros a Hh; [done|]. simpl.
    assert (Ho : halted (assign_one u v a) = true) by (unfold assign_one, adopt; repeat case_match; done).
    destruct v; [by apply IH | done | by apply IH].
  - split; [|done]. unfold discover. revert a Hh. induction l as [|u l IH]; intros a Hh; [done|]. simpl.
    apply IH. unfold discover_one, adopt. repeat case_match; done.
  - rewrite Hh. by repeat case_match.
  - split; [|done]. unfold poll_end, publish_telemetry. repeat case_match; done.
Qed.
End Agent.

(** ** What the backend makes of the agent's messages *)

Section Contract.
Context `{cfg : Config} `{pystr : PyStr}.

(** The frame the backend reads. *)
Definition read_frame (plug_id : Z) st (kwh : float) (status session_id : string) : frame :=
  mkframe plug_id (fround 1 (st_watts st)) (fround 4 kwh) (fround 1 (st_voltage st))
    (fround 2 (effective_current st)) (J (JStr status)) (String.eqb status "occupied")
    (match int_of_str session_id with Some n => if 0 <? n then Some n else None | None => None end)
    false None None.

Lemma parse_agent_frame plug_id st kwh status session_id :
  plausible (fround 4 kwh) = true →
  parse_frame (telemetry_frame plug_id st kwh status session_id) =
  Ok (Some (read_frame plug_id st kwh status session_id)).
Proof.
  intros Hk. unfold parse_frame, telemetry_frame, read_frame. cbn -[fround int_of_str plausible].
  rewrite Hk. unfold parse_session_id. simpl.
  destruct (String.eqb_spec session_id "") as [->|Hne]; [by destruct (String.eqb status _)|].
  destruct (int_of_str session_id); simpl; by destruct (String.eqb status _).
Qed.

(** C9: agent and backend agree.  A frame the agent publishes reaches the backend
    with the plug, the rounded figures, the relay state and the session id it was
    given by the ON command; and when the agent cuts a session off by itself, its
    alarm makes the backend end the session of that plug: afterwards no session
    runs there, every invariant holds, and nothing outside the gateway has
    changed. *)
Theorem agent_protocol gateway_id gw tid plug_id st kwh status session_id r now w :
  com w = cur w → db_ok (cur w) → owned gateway_id (cur w) plug_id →
  gateways (cur w) !! gateway_id = Some gw → Gateway.tenant_id gw = Some tid →
  plausible (fround 4 kwh) = true →
  let d' := com (run_request (handle_gateway_alarm gateway_id (cutoff_alarm plug_id r) now) w).2 in
  parse_frame (telemetry_frame plug_id st kwh status session_id) =
    Ok (Some (read_frame plug_id st kwh status session_id)) ∧
  idle d' plug_id ∧ db_ok d' ∧ within_gateway gateway_id (cur w) d'.
Proof.
  intros Hcc Hok Hown Hg Ht Hk d'. split; [by apply parse_agent_frame|].
  assert (H : wp (handle_gateway_alarm gateway_id (cutoff_alarm plug_id r) now) (λ _ w',
    idle (com w') plug_id ∧ db_ok (com w') ∧ within_gateway gateway_id (cur w) (com w')) w).
  { unfold handle_gateway_alarm. simpl. apply wp_gateway_event; [done..|].
    intros w' target Hcc' [E1 E2 _ E3 _] Htarget. rewrite Hcc'. split_and!; [|done..].
    apply E3; [|by eexists]. rewrite (Htarget gw tid Hg Ht). by apply owned_plug_spec. }
  unfold wp, d', run_request in *. by destruct (handle_gateway_alarm _ _ _ w).
Qed.
End Contract.
