(* ===== verification/Providers.v ===== *)
(** * agent/amphive_agent/providers, config.py: the devices of the agent

    A provider turns what a library or a device answers into the [PlugState] that the
    agent polls.  [PlugDevice] is the protocol of model.py: [Answer] is what the
    outside gives in a call, [None] for a call that raises.  Devices report finite
    numbers.  Sessions of HTTP and of the libraries are left. *)

From stdpp Require Import pretty.
From Stdlib Require Import Ascii Sorted.
From S2P Require Import Prelude Rounding PyNum Money Models Config TelemetryStore World Hoare.
From S2P Require Import PyString PyJson PushGuard RateRules Agent.

(** ** model.py: PlugDevice *)

Class PlugDevice (D Answer : Type) := {
  unique_id : D → string;
  capabilities : D → list string;
  get_state : Answer → D → option PlugState * D;
  set_power : Answer → bool → D → D }.

(** ** providers/sim.py *)

Record SimPlug := mksim {
  sim_index : Z;
  sim_on : bool;
  base_watts : float;
  sim_voltage : float;
  sim_energy_wh : float;
  sim_last : float }.

#[export] Instance eta_sim : Eta SimPlug := fun r =>
  mksim (sim_index r) (sim_on r) (base_watts r) (sim_voltage r) (sim_energy_wh r) (sim_last r).

Definition new_sim (index : Z) (now : float) : SimPlug := mksim index false (fint 1500) (fint 230) 0 now.

Definition sim_integrate (now : float) (p : SimPlug) : SimPlug :=
  let dt := fsub now (sim_last p) in
  let p := p <| sim_last := now |> in
  if sim_on p then
    p <| sim_energy_wh := fadd (sim_energy_wh p) (fdiv (fmul (base_watts p) dt) (fint 3600)) |>
  else p.

Definition sim_state (p : SimPlug) : PlugState :=
  let watts := if sim_on p then base_watts p else 0 in
  mkstate (sim_on p) watts (fdiv (sim_energy_wh p) (fint 1000)) (sim_voltage p)
    (if sim_voltage p =? 0 then 0 else fdiv watts (sim_voltage p)).

(** The answer is the clock. *)
#[export] Instance sim_device : PlugDevice SimPlug float := {
  unique_id := λ p, ("sim:" +:+ pretty (sim_index p))%string;
  capabilities := λ _, ["switch"; "power"; "energy"]%string;
  get_state := λ now p, let p := sim_integrate now p in (Some (sim_state p), p);
  set_power := λ now on p, (sim_integrate now p) <| sim_on := on |> }.

Definition sim_plugs (count : Z) (now : float) : list SimPlug :=
  map (λ i, new_sim (Z.of_nat i + 1) now) (seq 0 (Z.to_nat count)).

(** ** providers/shelly.py *)

Record ShellyPlug := mkshelly { sh_host : string; sh_info : payload }.

(** [float(d.get(key, 0.0) or 0.0)] *)
Definition number (key : string) (d : payload) : option float :=
  match vfloat (vor (vget key (J (JFloat 0)) d) (J (JFloat 0))) with Ok x => finite x | Raise _ => None end.

(** [aenergy = d.get("aenergy") or {}] *)
Definition sub_dict (key : string) (d : payload) : option payload :=
  match vor (vget_none key d) (J (JObj [])) with
  | J (JObj kvs) => Some (map (λ kv, (kv.1, J kv.2)) kvs)
  | _ => None
  end.

Definition shelly_state (d : payload) : option PlugState :=
  aenergy ← sub_dict "aenergy" d;
  watts ← number "apower" d;
  total ← number "total" aenergy;
  voltage ← number "voltage" d;
  current ← number "current" d;
  Some (mkstate (vtruthy (vget "output" (J (JBool false)) d)) watts (fdiv total (fint 1000)) voltage current).

Section ShellyDevice.
Context `{pystr : PyStr}.

(** [f"shelly:{info.get('mac', host)}"] *)
Definition shelly_id (p : ShellyPlug) : string :=
  ("shelly:" +:+ py_str (vget "mac" (J (JStr (sh_host p))) (sh_info p)))%string.

#[export] Instance shelly_device : PlugDevice ShellyPlug (option payload) := {
  unique_id := shelly_id;
  capabilities := λ _, ["switch"; "power"; "energy"]%string;
  get_state := λ d p, (d ≫= shelly_state, p);
  set_power := λ _ _ p, p }.
End ShellyDevice.

(** The hosts that answered, in the order of the configuration. *)
Definition shelly_discover (ask : string → option payload) (hosts : list string) : list ShellyPlug :=
  omap (λ host, info ← ask host; Some (mkshelly host info)) hosts.

(** ** providers/kasa.py *)

(** The energy module of a device, when it has one. *)
Record energy_module := mkenergy {
  current_consumption : option float;
  consumption_total : option float;
  consumption_today : option float;
  em_voltage : option float;
  em_current : option float }.

Record kasa_reading := mkreading { is_on : bool; em : option energy_module }.
Record KasaPlug := mkkasa { kp_mac : string; kp_metered : bool }.

Definition kasa_state (r : kasa_reading) : PlugState :=
  match em r with
  | None => mkstate (is_on r) 0 0 0 0
  | Some em =>
      let kwh := match consumption_total em with Some x => Some x | None => consumption_today em end in
      mkstate (is_on r) (default 0 (current_consumption em)) (default 0 kwh)
        (default 0 (em_voltage em)) (default 0 (em_current em))
  end.

#[export] Instance kasa_device : PlugDevice KasaPlug (option kasa_reading) := {
  unique_id := λ p, ("kasa:" +:+ kp_mac p)%string;
  capabilities := λ p, ("switch" :: if kp_metered p then ["power"; "energy"] else [])%string;
  get_state := λ r p, (kasa_state <$> r, p);
  set_power := λ _ _ p, p }.

(** Devices that answer the first update. *)
Definition kasa_discover (found : list (string * option kasa_reading)) : list KasaPlug :=
  omap (λ x, r ← x.2; Some (mkkasa x.1 (bool_decide (is_Some (em r))))) found.

(** ** providers/__init__.py, config.py *)

Inductive provider := Kasa | Shelly | Sim.

(** [starts name]: the import and the constructor succeed. *)
Definition build_providers (starts : provider → bool) (names : list string) : list provider :=
  omap (λ name,
    p ← (if String.eqb name "kasa" then Some Kasa else if String.eqb name "shelly" then Some Shelly
         else if String.eqb name "sim" then Some Sim else None);
    if starts p : bool then Some p else None) names.

Record AgentConfig := mkagent_config {
  ac_gateway_id : string;
  ac_broker_host : string;
  ac_broker_port : Z;
  ac_mqtt_user : string;
  ac_mqtt_pass : string;
  ac_use_tls : bool;
  ac_ca_file : option string;
  ac_poll_s : pynum;
  ac_providers : list string;
  ac_state_path : string;
  ac_tplink_user : option string;
  ac_tplink_pass : option string;
  ac_shelly_hosts : list string;
  ac_sim_count : Z }.

Inductive startup_error := SystemExit | NotANumber.

Section FromEnv.
Context `{env : Environment}.

Definition env_bool (raw : option string) (dflt : bool) : bool :=
  match raw with
  | None => dflt
  | Some s => bool_decide (lower (strip s) ∈ ["1"; "true"; "yes"; "on"]%string)
  end.

(** [[p.strip() for p in raw.split(",") if p.strip()]] *)
Definition comma_list (raw : string) : list string :=
  filter (λ s, s ≠ ""%string) (map strip (split "," raw)).

Definition given_or_none (o : option string) : option string := match o with Some "" => None | o => o end%string.

Definition from_env : startup_error + AgentConfig :=
  match given_or_none (getenv "AMPHIVE_GATEWAY_ID") with
  | None => inl SystemExit
  | Some gateway_id =>
      let use_tls := env_bool (getenv "AMPHIVE_USE_TLS") true in
      let default_port := if use_tls then "8883"%string else "1883"%string in
      match int_of_str (getenv_or "AMPHIVE_BROKER_PORT" default_port),
            float_of_string (getenv_or "AMPHIVE_POLL_S" "10"),
            int_of_str (getenv_or "AMPHIVE_SIM_COUNT" "2") with
      | Some port, Some poll_s, Some sim_count =>
          inr (mkagent_config gateway_id (getenv_or "AMPHIVE_BROKER" "mqtt.amphive.io") port
                 (getenv_or "AMPHIVE_MQTT_USER" "") (getenv_or "AMPHIVE_MQTT_PASS" "") use_tls
                 (given_or_none (getenv "AMPHIVE_CA_FILE")) poll_s
                 (comma_list (getenv_or "AMPHIVE_PROVIDERS" "kasa"))
                 (getenv_or "AMPHIVE_STATE" "amphive_agent_state.json")
                 (getenv "TPLINK_USER") (getenv "TPLINK_PASS")
                 (comma_list (getenv_or "AMPHIVE_SHELLY_HOSTS" "")) sim_count)
      | _, _, _ => inl NotANumber
      end
  end.
End FromEnv.

(** ** Meters *)

Section Meters.
Implicit Types (p : SimPlug) (now : float) (s : session).

Record sim_ok p : Prop := {
  so_watts : 0 <= base_watts p;
  so_float : is_float (sim_energy_wh p);
  so_energy : 0 <= sim_energy_wh p }.

Lemma fint_pos n : 0 < n <= 2 ^ 53 → 0 < fint n.
Proof. intros Hn. pose proof FU_pos. rewrite fint_exact by lia. nia. Qed.

Lemma fdiv_mono a b n : 0 < n <= 2 ^ 53 → a <= b → fdiv a (fint n) <= fdiv b (fint n).
Proof. intros Hn Hab. pose proof (fint_pos n Hn). pose proof FU_pos. apply frnd_mono; [done..|].
  apply Z.mul_le_mono_nonneg_r; [lia|]. apply Z.mul_le_mono_nonneg_r; lia.
Qed.

Lemma sim_integrate_forward now p : sim_ok p → sim_last p <= now →
  let q := sim_integrate now p in
  sim_ok q ∧ sim_energy_wh p <= sim_energy_wh q ∧ sim_last q = now ∧ sim_on q = sim_on p.
Proof.
  intros [H1 H2 H3] Hnow. unfold sim_integrate. simpl. destruct (sim_on p) eqn:Ho; [|simpl; by split_and!].
  set (wh := fdiv _ _). assert (0 <= wh).
  { unfold wh. apply frnd_nonneg; [apply fint_pos; lia|]. pose proof FU_pos. apply Z.mul_nonneg_nonneg; [|lia].
    apply frnd_nonneg; [done|]. pose proof (fsub_nonneg now (sim_last p) Hnow). nia. }
  pose proof (fadd_ge_l _ _ H2 H). simpl. split_and!; try done. split; simpl; [done|apply fadd_is_float|lia].
Qed.

(** What a poll ([None]) or a switch does at a time, and the meter that is read. *)
Definition sim_op : Type := float * option bool.
Fixpoint sim_run (ops : list sim_op) p : list float :=
  match ops with
  | [] => []
  | (now, Some on) :: ops => sim_run ops (set_power now on p)
  | (now, None) :: ops =>
      let '(st, p) := get_state now p in
      match st with Some st => st_energy_kwh st :: sim_run ops p | None => sim_run ops p end
  end.

Lemma sim_run_above ops p : sim_ok p → StronglySorted Z.le (sim_last p :: map fst ops) →
  StronglySorted Z.le (fdiv (sim_energy_wh p) (fint 1000) :: sim_run ops p).
Proof.
  revert p. induction ops as [|[now op] ops IH]; intros p Hp Hs; [by repeat constructor|].
  apply StronglySorted_inv in Hs as [Hs Hall]. apply Forall_cons in Hall as [Hnow Hall].
  destruct (sim_integrate_forward now p Hp Hnow) as (Hq & He & Hl & _).
  pose proof (fdiv_mono _ _ 1000 ltac:(lia) He) as Hd.
  assert (Hrun : ∀ q, sim_energy_wh q = sim_energy_wh (sim_integrate now p) → sim_last q = now → sim_ok q →
    StronglySorted Z.le (fdiv (sim_energy_wh (sim_integrate now p)) (fint 1000) :: sim_run ops q)).
  { intros q Hqe Hql Hqok. rewrite <- Hqe. apply IH; [done|]. by rewrite Hql. }
  revert Hq He Hl Hd Hrun. destruct op as [on|]; cbn [sim_run].
  - change (set_power now on p) with ((sim_integrate now p) <| sim_on := on |>).
    generalize (sim_integrate now p). intros q Hq He Hl Hd Hrun.
    assert (Hq' : sim_ok (q <| sim_on := on |>)) by (by destruct Hq). pose proof (λ h1 h2, Hrun _ h1 h2 Hq') as Hr0.
    specialize (Hr0 eq_refl Hl). clear Hrun. rename Hr0 into Hrun.
    apply StronglySorted_inv in Hrun as [Hr Hf]. constructor; [done|]. eapply Forall_impl; [exact Hf|]. simpl. lia.
  - change (get_state now p) with (Some (sim_state (sim_integrate now p)), sim_integrate now p).
    generalize (sim_integrate now p). intros q Hq He Hl Hd Hrun. specialize (Hrun q eq_refl Hl Hq).
    constructor; [exact Hrun|]. apply StronglySorted_inv in Hrun as [_ Hf].
    constructor; [done|]. eapply Forall_impl; [exact Hf|]. simpl. lia.
Qed.

(** Whenever it is polled and switched, a simulated plug's meter only goes forward. *)
Theorem sim_meter_forward ops p : sim_ok p → StronglySorted Z.le (sim_last p :: map fst ops) →
  StronglySorted Z.le (sim_run ops p).
Proof. intros Hp Hs. by apply StronglySorted_inv in Hs as Hs'; pose proof (sim_run_above ops p Hp Hs) as [? _]%StronglySorted_inv. Qed.

(** On a meter that goes forward the agent keeps a session's baseline, and the session
    has what the meter has moved since. *)
Theorem forward_meter_session s e : is_float (s_baseline_kwh s) → s_baseline_kwh s <= e →
  let '(s', kwh) := monotonic_session_kwh s e in
  s_baseline_kwh s' = s_baseline_kwh s ∧ kwh = Z.max (s_last_kwh s) (fsub e (s_baseline_kwh s)) ∧ s_last_kwh s' = kwh.
Proof.
  intros Hf He. unfold monotonic_session_kwh.
  assert (fsub (s_baseline_kwh s) KWH_EPSILON <= s_baseline_kwh s) as Hle.
  { rewrite <- (fsub_0_r _ Hf) at 2. apply fsub_mono; [done|]. by apply flit_nonneg. }
  rewrite (proj2 (Z.ltb_ge e (fsub (s_baseline_kwh s) KWH_EPSILON))) by lia. simpl. split_and!; [done| |done].
  destruct (Z.ltb_spec (s_last_kwh s) (fsub e (s_baseline_kwh s))); lia.
Qed.

(** A counter that starts again, as a device's counter of the day does at midnight:
    what is used next is not told until it exceeds what the session had. *)
Theorem counter_of_the_day s e0 e : e0 < fsub (s_baseline_kwh s) KWH_EPSILON → is_float e0 → e0 <= e →
  0 <= s_last_kwh s → fsub e e0 <= s_last_kwh s →
  let s1 := (monotonic_session_kwh s e0).1 in
  s_baseline_kwh s1 = e0 ∧ (monotonic_session_kwh s1 e).2 = s_last_kwh s.
Proof.
  intros Hd Hf He Hl Hle. unfold monotonic_session_kwh. simpl. rewrite (proj2 (Z.ltb_lt e0 _)) by done.
  rewrite fsub_diag, (proj2 (Z.ltb_ge (s_last_kwh s) 0)) by lia. simpl. split; [done|].
  assert (fsub e0 KWH_EPSILON <= e0).
  { rewrite <- (fsub_0_r _ Hf) at 2. apply fsub_mono; [done|]. by apply flit_nonneg. }
  rewrite (proj2 (Z.ltb_ge e (fsub e0 KWH_EPSILON))) by lia.
  by rewrite (proj2 (Z.ltb_ge (s_last_kwh s) _)) by lia.
Qed.
End Meters.

(** ** Identities *)

(** A device that tells its address is the same wherever it answers; one that does
    not is known by its host. *)
Theorem shelly_identity `{PyStr} host info :
  match vassoc "mac" info with
  | Some mac => ∀ host', unique_id (mkshelly host info) = unique_id (mkshelly host' info)
  | None => unique_id (mkshelly host info) = ("shelly:" +:+ host)%string
  end.
Proof.
  simpl. unfold shelly_id, vget. simpl. destruct (vassoc "mac" info) as [mac|] eqn:Hm; [done|]. by rewrite ?Hm.
Qed.

Lemma sim_ids count now : NoDup (map unique_id (sim_plugs count now)).
Proof.
  unfold sim_plugs. rewrite map_map. apply NoDup_fmap_2; [|apply NoDup_seq]. intros i j H. simpl in H.
  apply (inj (String.append "sim:")) in H. apply (inj pretty) in H. lia.
Qed.

(** Every provider that is enabled was named and started, in the order of the names. *)
Lemma build_providers_spec starts names p : p ∈ build_providers starts names →
  starts p = true ∧ match p with Kasa => "kasa" | Shelly => "shelly" | Sim => "sim" end%string ∈ names.
Proof.
  unfold build_providers. rewrite list_elem_of_omap. intros (name & Hin & Hp).
  destruct (String.eqb_spec name "kasa") as [->|]; [|destruct (String.eqb_spec name "shelly") as [->|];
    [|destruct (String.eqb_spec name "sim") as [->|]; [|done]]]; simpl in Hp; by destruct (starts _) eqn:Hs; simplify_eq.
Qed.

(** Nothing but the gateway's id is needed; and a broker is spoken to over TLS unless
    the environment says otherwise. *)
Example only_an_id : let env : Environment := λ name, if String.eqb name "AMPHIVE_GATEWAY_ID" then Some "gw-1"%string else None in
  match from_env with
  | inr c => ac_use_tls c = true ∧ ac_broker_port c = 8883 ∧ ac_providers c = ["kasa"%string] ∧ ac_sim_count c = 2 ∧
      ac_poll_s c = PFloat (fint 10)
  | inl _ => False
  end.
Proof. by vm_compute. Qed.
