(* ===== verification/Simulator.v ===== *)
(** * tools/fake_plug.py: a whole gateway in software

    The bench's stand-in for the firmware: a slot for each plug of the roster, a
    load that ramps up, a watchdog of its own, and the frames the backend reads.
    [plugsim] is a PlugSim, [gateway] the FakeGateway with what it has published.
    A handler is a [Py]: an exception ends it and keeps what was assigned before.
    The lock makes each handler, and each plug's turn in the loop, one step; the
    clocks, the load noise and the parsed payload are arguments.  A power factor
    is not 0, and a roster's numbers are finite.  Registration through the API, the
    self-test and the command line are left. *)

From stdpp Require Import pretty sorting.
From Stdlib Require Import Ascii.
From S2P Require Import Prelude Rounding PyNum Money Models Config TelemetryStore World Hoare.
From S2P Require Import PyString PyJson PushGuard Caps Lifecycle Ownership Alarms Telemetry Agent.

(** ** Handlers with an attribute state *)

Definition Py (S A : Type) : Type := S → result A * S.
#[export] Instance Py_ret {S} : MRet (Py S) := λ A a s, (Ok a, s).
#[export] Instance Py_bind {S} : MBind (Py S) := λ A B k m s,
  match m s with (Ok a, s) => k a s | (Raise e, s) => (Raise e, s) end.

Definition assign {S} (f : S → S) : Py S unit := λ s, (Ok tt, f s).
Definition attr {S A} (f : S → A) : Py S A := λ s, (Ok (f s), s).
Definition try_ {S A} (r : result A) : Py S A := λ s, (r, s).

(** ** PlugSim *)

Record plugsim := mkplugsim {
  local_ip : string;
  watts : float;
  voltage : float;
  jitter : float;
  power_factor : float;
  ramp_seconds : float;
  max_current_a : pynum;
  session_active : bool;
  session_id : string;
  session_kwh : float;
  max_kwh : pynum;
  max_duration_s : Z;
  pending_remove : bool;
  session_start : float;
  last_tick : float;
  reset_deadline : option float;
  reset_value_kwh : float;
  reset_fired : bool }.

#[export] Instance eta_plugsim : Eta plugsim := fun r =>
  mkplugsim (local_ip r) (watts r) (voltage r) (jitter r) (power_factor r) (ramp_seconds r) (max_current_a r)
    (session_active r) (session_id r) (session_kwh r) (max_kwh r) (max_duration_s r) (pending_remove r)
    (session_start r) (last_tick r) (reset_deadline r) (reset_value_kwh r) (reset_fired r).

Definition DEFAULT_PLUG_CAP_A : pynum := PFloat (fint 16).
Definition MIN_INTERVAL_MS : Z := 500.
Definition MAX_INTERVAL_MS : Z := 60000.
Definition MAX_PLUGS : nat := 4.

(** [isinstance(v, (int, float)) and v > 0]; a bool is an int. *)
Definition positive_number (v : value) : bool :=
  match v with
  | J (JInt n) => 0 <? n
  | J (JBool b) => b
  | J (JFloat x) => 0 <? x
  | VInf negative => negb negative
  | _ => false
  end.

(** [float(cap) if ... else old] *)
Definition cap_or (old : pynum) (cap : value) : result pynum :=
  if positive_number cap then vfloat cap else Ok old.

Section PlugSim.
Context `{pystr : PyStr}.
Implicit Types (p : plugsim) (cmd : payload) (now : float).

Definition schedule_reset (after_s value_kwh start_wall : float) p : plugsim :=
  p <| reset_deadline := Some (fadd start_wall after_s) |> <| reset_value_kwh := value_kwh |>
    <| reset_fired := false |>.

Definition sim_on cmd now : Py plugsim unit :=
  assign (λ p, p <| session_active := true |>);;
  assign (λ p, p <| session_id := py_str (vor (vget "session_id" (J (JStr "")) cmd) (J (JStr ""))) |>);;
  k ← try_ (vfloat (vget "max_kwh" (J (JFloat (fint 30))) cmd));
  assign (λ p, p <| max_kwh := k |>);;
  n ← try_ (vint (vget "max_duration_seconds" (J (JInt 14400)) cmd));
  assign (λ p, p <| max_duration_s := n |>);;
  cap ← try_ (cap_or DEFAULT_PLUG_CAP_A (vget_none "max_current_a" cmd));
  assign (λ p, p <| max_current_a := cap |>);;
  assign (λ p, p <| session_kwh := 0 |> <| session_start := now |> <| last_tick := now |>).

Definition sim_off p : plugsim := p <| session_active := false |>.

Definition sim_set_limits cmd : Py plugsim bool :=
  active ← attr session_active;
  if active : bool then
    n ← try_ (vint (vget "max_duration_seconds" (J (JInt 14400)) cmd));
    assign (λ p, p <| max_duration_s := n |>);;
    k ← try_ (vfloat (vget "max_kwh" (J (JFloat (fint 30))) cmd));
    assign (λ p, p <| max_kwh := k |>);;
    old ← attr max_current_a;
    cap ← try_ (cap_or old (vget_none "max_current_a" cmd));
    assign (λ p, p <| max_current_a := cap |>);;
    mret true
  else mret false.

(** [noise] is [random.uniform(-jitter, jitter)]. *)
Definition ramped_watts now (noise : float) p : float :=
  let target := watts p in
  let target :=
    if 0 <? ramp_seconds p then
      let elapsed := fsub now (session_start p) in
      fmul target (Z.min (fint 1) (Z.max 0 (fdiv elapsed (ramp_seconds p))))
    else target in
  let target := if 0 <? jitter p then fmul target (fadd (fint 1) noise) else target in
  Z.max 0 target.

Definition measured_current (w : float) p : float :=
  if (voltage p <=? 0) || (w <=? 0) then 0 else fdiv w (fmul (voltage p) (power_factor p)).

Inductive trip := DurationExceeded | EnergyReached.

(** The limit that is reached: an int compares with a float exactly. *)
Definition limit_reached now p : option trip :=
  if max_duration_s p * FU <=? fsub now (session_start p) then Some DurationExceeded
  else if reaches (session_kwh p) (max_kwh p) then Some EnergyReached
  else None.

Definition maybe_trip_watchdog now p : plugsim * option trip :=
  match limit_reached now p with
  | Some t => (p <| session_active := false |>, Some t)
  | None => (p, None)
  end.

Definition reset_due now_wall p : bool :=
  match reset_deadline p with
  | Some deadline => negb (reset_fired p) && (deadline <=? now_wall)
  | None => false
  end.

(** What a tick may log: the scheduled reset hides the watchdog, which is not even
    asked then. *)
Inductive tick_line := ResetFired | Tripped (t : trip).

Definition reset_or_trip now_mono now_wall p : plugsim * option tick_line :=
  if reset_due now_wall p then
    (p <| reset_fired := true |> <| session_kwh := reset_value_kwh p |>, Some ResetFired)
  else let '(p, t) := maybe_trip_watchdog now_mono p in (p, Tripped <$> t).

Definition integrated (w dt : float) p : plugsim :=
  if 0 <? dt then
    p <| session_kwh := fadd (session_kwh p) (fmul (fdiv w (fint 1000)) (fdiv dt (fint 3600))) |>
  else p.

Definition sim_frame (plug_id : Z) (w current kwh volts : float) (active : bool) (sid : string) : payload :=
  [("plug_id", J (JInt plug_id)); ("watts", J (JFloat (fround 1 w)));
   ("kwh", J (JFloat (if active then fround 4 kwh else 0))); ("voltage", J (JFloat (fround 1 volts)));
   ("current", J (JFloat (fround 2 current))); ("relay", J (JBool active));
   ("status", J (JStr (if active then "occupied" else "available")));
   ("session_id", J (JStr (if active then sid else "")))]%string.

(** The frame tells the state before the watchdog. *)
Definition tick_and_build_telemetry (plug_id : Z) (now_mono now_wall noise : float) p
    : plugsim * (payload * option tick_line) :=
  let dt := fsub now_mono (last_tick p) in
  let p := p <| last_tick := now_mono |> in
  let active := session_active p in
  let sid := session_id p in
  if active then
    let w := ramped_watts now_mono noise p in
    let '(p, line) := reset_or_trip now_mono now_wall (integrated w dt p) in
    (p, (sim_frame plug_id w (measured_current w p) (session_kwh p) (voltage p) active sid, line))
  else
    (p, (sim_frame plug_id 0 (measured_current 0 p) (session_kwh p) (voltage p) active sid, None)).
End PlugSim.

(** ** FakeGateway *)

Record GatewayConfig := mkgateway_config {
  g_interval : float;
  g_default_watts : float;
  g_voltage : float;
  g_jitter : float;
  g_power_factor : float;
  g_ramp_seconds : float;
  g_watts_map : gmap Z float;
  g_reset_specs : gmap Z (float * float);
  g_bootstrap : option (Z * string);
  g_fw_version : string;
  g_start_wall : float }.

(** What a log line tells, without its level and its time since the boot. *)
Inductive log_text :=
  | ParseFailed
  | TableFull (plug_id : Z)
  | OtaRefused
  | FromTick (plug_id : Z) (l : tick_line).

(** What is published: the retained status, frames, log lines and alarms. *)
Inductive message :=
  | Status (p : payload)
  | Frame (p : payload)
  | LogLine (level : string) (text : log_text)
  | AlarmEvent (event : string).

Record gateway := mkgateway {
  interval : float;
  slots : gmap Z plugsim;
  connected : bool;
  published : list message }.

#[export] Instance eta_gateway : Eta gateway := fun r =>
  mkgateway (interval r) (slots r) (connected r) (published r).

Definition post (m : message) : Py gateway unit := assign (λ g, g <| published ::= λ l, l ++ [m] |>).

(** [_publish_log], [_publish_alarm_event]: silent when offline. *)
Definition when_connected (m : message) : Py gateway unit :=
  online ← attr connected; if online : bool then post m else mret tt.

Definition new_slot (cfg : GatewayConfig) (plug_id : Z) (ip : string) (now : float) : plugsim :=
  let p := mkplugsim ip (default (g_default_watts cfg) (g_watts_map cfg !! plug_id)) (g_voltage cfg)
             (g_jitter cfg) (g_power_factor cfg) (g_ramp_seconds cfg) DEFAULT_PLUG_CAP_A
             false "" 0 (PFloat (fint 30)) 14400 false now now None 0 false in
  match g_reset_specs cfg !! plug_id with
  | Some (after_s, value_kwh) => schedule_reset after_s value_kwh (g_start_wall cfg) p
  | None => p
  end.

(** A step of the slot's own, inside a step of the gateway. *)
Definition in_slot {A} (plug_id : Z) (dflt : A) (m : Py plugsim A) : Py gateway A := λ g,
  match slots g !! plug_id with
  | None => (Ok dflt, g)
  | Some p => let '(r, p) := m p in (r, g <| slots ::= <[plug_id := p]> |>)
  end.

(** The digits between [/plugs/] and a [/commands] at the end of the topic. *)
Definition command_suffix (s : string) : option Z :=
  if String.prefix "/plugs/" s then
    let rest := String.substring 7 (String.length s) s in
    let n := (String.length rest - 9)%nat in
    let digits := String.substring 0 n rest in
    if String.eqb (String.substring n (String.length rest) rest) "/commands" &&
       negb (String.eqb digits "") && PushGuard.all_of PushGuard.is_digit digits
    then int_of_str digits else None
  else None.

Fixpoint parse_plug_id_from_topic (topic : string) : option Z :=
  match command_suffix topic with
  | Some n => Some n
  | None => match topic with String _ topic => parse_plug_id_from_topic topic | EmptyString => None end
  end.

Section Gateway.
Context `{pystr : PyStr} (cfg : GatewayConfig).
Implicit Types (g : gateway) (plug_id : Z) (cmd : payload) (now : float) (ip : option string).

Definition given_ip ip : option string := match ip with Some "" | None => None | Some s => Some s end.

(** Whether there is a slot afterwards. *)
Definition get_or_create_plug plug_id ip now : Py gateway bool :=
  existing ← attr (λ g, slots g !! plug_id);
  match existing, given_ip ip with
  | Some p, ip =>
      assign (λ g, g <| slots ::= <[plug_id :=
        p <| local_ip := default (local_ip p) ip |> <| pending_remove := false |>]> |>);;
      mret true
  | None, None => mret false
  | None, Some ip =>
      full ← attr (λ g, (MAX_PLUGS <=? size (slots g))%nat);
      if full : bool then
        when_connected (LogLine "W" (TableFull plug_id));; mret false
      else
        assign (λ g, g <| slots ::= <[plug_id := new_slot cfg plug_id ip now]> |>);; mret true
  end.

(** An entry of the roster: its id, address and cap, when they are well formed. *)
Definition roster_entry (entry : json) : option (Z * string * value) :=
  match entry with
  | JObj kvs =>
      match assoc "plug_id" kvs, assoc "local_ip" kvs with
      | Some raw, Some (JStr (String _ _ as ip)) =>
          match raw with
          | JInt _ | JBool _ | JFloat _ =>
              plug_id ← py_int raw; Some (plug_id, ip, J (default JNull (assoc "max_current_a" kvs)))
          | _ => None
          end
      | _, _ => None
      end
  | _ => None
  end.

(** A session keeps the cap that it was switched on with. *)
Definition roster_cap (cap : value) : Py plugsim unit :=
  active ← attr session_active;
  if negb active && positive_number cap then
    cap ← try_ (vfloat cap); assign (λ p, p <| max_current_a := cap |>)
  else mret tt.

(** The entry's id, when it has a slot. *)
Definition apply_entry now (entry : json) : Py gateway (list Z) :=
  match roster_entry entry with
  | None => mret []
  | Some (plug_id, ip, cap) =>
      slot ← get_or_create_plug plug_id (Some ip) now;
      if slot : bool then
        in_slot plug_id tt (roster_cap cap);;
        mret [plug_id]
      else mret []
  end.

Fixpoint apply_entries now (entries : list json) : Py gateway (list Z) :=
  match entries with
  | [] => mret []
  | e :: entries => seen ← apply_entry now e; more ← apply_entries now entries; mret (seen ++ more)
  end.

(** Flagged, and freed only later: an active session keeps its slot. *)
Definition flag_dropped (seen : list Z) (plug_id : Z) (p : plugsim) : plugsim :=
  if session_active p || pending_remove p || bool_decide (plug_id ∈ seen) then p
  else p <| pending_remove := true |>.

Definition apply_roster cmd now : Py gateway unit :=
  match vget_none "plugs" cmd with
  | J (JArr entries) =>
      seen ← apply_entries now entries;
      assign (λ g, g <| slots ::= map_imap (λ i p, Some (flag_dropped seen i p)) |>)
  | _ => mret tt
  end.

Definition reapable (p : plugsim) : bool := pending_remove p && negb (session_active p).

Definition reap_pending g : gateway :=
  g <| slots ::= omap (λ p, if reapable p then None else Some p) |>.

Definition handle_on plug_id ip cmd now : Py gateway unit :=
  slot ← get_or_create_plug plug_id ip now;
  if slot : bool then in_slot plug_id tt (sim_on cmd now) else mret tt.

Definition handle_off plug_id ip now : Py gateway unit :=
  slot ← get_or_create_plug plug_id ip now;
  if slot : bool then in_slot plug_id tt (assign sim_off) else mret tt.

Definition handle_set_limits plug_id ip cmd now : Py gateway unit :=
  slot ← get_or_create_plug plug_id ip now;
  if slot : bool then _ ← in_slot plug_id false (sim_set_limits cmd); mret tt else mret tt.

(** [except (TypeError, ValueError)] only: an infinite interval is raised. *)
Definition handle_set_interval cmd : Py gateway unit :=
  match vint (vget "interval_ms" (J (JInt 0)) cmd) with
  | Ok ms => assign (λ g, g <| interval :=
               fdiv (fint (Z.max MIN_INTERVAL_MS (Z.min MAX_INTERVAL_MS ms))) (fint 1000) |>)
  | Raise OverflowError => try_ (Raise OverflowError)
  | Raise _ => mret tt
  end.

Definition handle_ota cmd : Py gateway unit :=
  any_active ← attr (λ g, negb (bool_decide (map_Forall (λ _ p, session_active p = false) (slots g))));
  if negb (vtruthy (vget_none "url" cmd)) then mret tt
  else if any_active : bool then
    when_connected (LogLine "W" OtaRefused);;
    when_connected (AlarmEvent "OTA_REFUSED_SESSION_ACTIVE")
  else mret tt.

Definition ip_of cmd : option string :=
  match vget_none "local_ip" cmd with J (JStr (String _ _ as s)) => Some s | _ => None end.

(** A parsed payload that is an object; [None] when it did not parse. *)
Definition on_message (topic : string) (body : option payload) now : Py gateway unit :=
  match body with
  | None => when_connected (LogLine "W" ParseFailed)
  | Some cmd =>
      if PushGuard.suffix_of "/config" topic then apply_roster cmd now
      else
        let action := PyString.upper (py_str (vget "action" (J (JStr "")) cmd)) in
        let is_action s := String.eqb action s in
        match parse_plug_id_from_topic topic with
        | Some plug_id =>
            if is_action "ON"%string then handle_on plug_id (ip_of cmd) cmd now
            else if is_action "OFF"%string then handle_off plug_id (ip_of cmd) now
            else if is_action "SET_LIMITS"%string then handle_set_limits plug_id (ip_of cmd) cmd now
            else if is_action "SET_INTERVAL"%string then handle_set_interval cmd
            else if is_action "OTA"%string then handle_ota cmd else mret tt
        | None =>
            if is_action "SET_INTERVAL"%string then handle_set_interval cmd
            else if is_action "OTA"%string then handle_ota cmd else mret tt
        end
  end.

Definition on_connect g : gateway :=
  g <| connected := true |>
    <| published ::= λ l, l ++ [Status [("status", J (JStr "online")); ("fw", J (JStr (g_fw_version cfg)))]%string] |>.
Definition on_disconnect g : gateway := g <| connected := false |>.

(** A plug's turn in the loop; a plug that is gone is passed over. *)
Definition publish_turn plug_id (now_mono now_wall noise : float) g : gateway :=
  match slots g !! plug_id with
  | None => g
  | Some p =>
      let '(p, (frame, line)) := tick_and_build_telemetry plug_id now_mono now_wall noise p in
      let g := g <| slots ::= <[plug_id := p]> |> in
      if connected g then
        g <| published ::= λ l, l ++ Frame frame ::
               match line with Some l => [LogLine "E" (FromTick plug_id l)] | None => [] end |>
      else g
  end.

(** One round of [run] that nothing interrupts: the plugs in the order of their ids. *)
Definition sweep (now_mono now_wall noise : float) g : gateway :=
  let g := reap_pending g in
  foldl (λ g i, publish_turn i now_mono now_wall noise g) g (merge_sort Z.le (map_to_list (slots g)).*1).

Definition boot now : gateway :=
  let g := mkgateway (g_interval cfg) ∅ false [] in
  match g_bootstrap cfg with
  | Some (plug_id, ip) => (get_or_create_plug plug_id (Some ip) now g).2
  | None => g
  end.

Inductive event :=
  | Connected
  | Disconnected
  | Message (topic : string) (body : option payload) (now : float)
  | Reap
  | Turn (plug_id : Z) (now_mono now_wall noise : float).

Definition step (e : event) g : gateway :=
  match e with
  | Connected => on_connect g
  | Disconnected => on_disconnect g
  | Message topic body now => (on_message topic body now g).2
  | Reap => reap_pending g
  | Turn i mono wall noise => publish_turn i mono wall noise g
  end.

Inductive reachable : gateway → Prop :=
  | reachable_boot now : reachable (boot now)
  | reachable_step e g : reachable g → reachable (step e g).
End Gateway.

(** ** Invariants of handlers *)

Definition stays {S A} (I : S → Prop) (m : Py S A) : Prop := ∀ s, I s → I (m s).2.

Section Stays.
Context {S : Type} (I : S → Prop).
Lemma stays_bind {A B} (m : Py S A) (k : A → Py S B) : stays I m → (∀ a, stays I (k a)) → stays I (m ≫= k).
Proof. intros Hm Hk s Hs. specialize (Hm s Hs). unfold mbind, Py_bind. destruct (m s) as [[a|e] s']; [by apply Hk|done]. Qed.
Lemma stays_ret {A} (a : A) : stays I (mret a). Proof. by intros s. Qed.
Lemma stays_attr {A} (f : S → A) : stays I (attr f). Proof. by intros s. Qed.
Lemma stays_try {A} (r : result A) : stays I (try_ r). Proof. by intros s. Qed.
Lemma stays_assign f : (∀ s, I s → I (f s)) → stays I (assign f). Proof. intros H s. apply H. Qed.
End Stays.

Ltac stays_step :=
  lazymatch goal with
  | |- stays _ (mbind _ _) => apply stays_bind; [|intros ?]
  | |- stays _ (mret _) => apply stays_ret
  | |- stays _ (attr _) => apply stays_attr
  | |- stays _ (try_ _) => apply stays_try
  | |- stays _ (match ?x with _ => _ end) => destruct x eqn:?
  | |- stays _ (assign _) => apply stays_assign; intros ? ?
  end.
Ltac stay := repeat stays_step.

Section Invariants.
Context `{pystr : PyStr} (cfg : GatewayConfig).
Implicit Types (g : gateway) (p : plugsim) (plug_id : Z) (now : float).

(** Scheduled resets go to a counter that a plug can have. *)
Hypothesis resets_ok : ∀ i t v, g_reset_specs cfg !! i = Some (t, v) → is_float v ∧ 0 <= v.

Record slot_ok p : Prop := {
  sk_ip : local_ip p ≠ "";
  sk_float : is_float (session_kwh p);
  sk_kwh : 0 <= session_kwh p;
  sk_reset : is_float (reset_value_kwh p) ∧ 0 <= reset_value_kwh p }.

Record gateway_ok g : Prop := {
  gk_size : (size (slots g) <= MAX_PLUGS)%nat;
  gk_slots : map_Forall (λ _, slot_ok) (slots g);
  gk_interval : interval g = g_interval cfg ∨ flit 1 2 <= interval g <= fint 60 }.

Lemma slot_set p f : slot_ok p → local_ip (f p) = local_ip p → session_kwh (f p) = session_kwh p →
  reset_value_kwh (f p) = reset_value_kwh p → slot_ok (f p).
Proof. intros [] H1 H2 H3. split; by rewrite ?H1, ?H2, ?H3. Qed.

Lemma put_ok g i p q : gateway_ok g → slots g !! i = Some p → slot_ok q → gateway_ok (g <| slots ::= <[i := q]> |>).
Proof.
  intros [H1 H2 H3] Hp Hq. split; simpl; [|by apply map_Forall_insert_2|done].
  by rewrite map_size_insert_Some by (by eexists).
Qed.

Lemma new_slot_ok i ip now : ip ≠ "" → slot_ok (new_slot cfg i ip now).
Proof using resets_ok.
  intros Hip. unfold new_slot. destruct (g_reset_specs cfg !! i) as [[t v]|] eqn:Hr.
  - destruct (resets_ok i t v Hr). split; simpl; try done; try apply is_float_0.
  - split; simpl; try done; repeat split; try done; apply is_float_0.
Qed.

Lemma given_ip_some ip s : given_ip ip = Some s → s ≠ "".
Proof. destruct ip as [[|a b]|]; simpl; [done| |done]. by intros [= <-]. Qed.

Lemma stays_post m : stays gateway_ok (post m).
Proof. unfold post. stay. by destruct H. Qed.
Lemma stays_when m : stays gateway_ok (when_connected m).
Proof. unfold when_connected. stay. apply stays_post. Qed.

Lemma get_or_create_ok i ip now : stays gateway_ok (get_or_create_plug cfg i ip now).
Proof using resets_ok.
  intros g Hg. unfold get_or_create_plug, mbind, Py_bind, attr.
  destruct (slots g !! i) as [p|] eqn:Hp.
  - simpl. destruct Hg as [H1 H2 H3]. apply put_ok with p; [by split|done|].
    destruct (H2 i p Hp) as [K1 K2 K3 K4]. split; try done. simpl.
    destruct (given_ip ip) as [s|] eqn:Hs; [by eapply given_ip_some|done].
  - destruct (given_ip ip) as [s|] eqn:Hs; [|done]. destruct (Nat.leb_spec MAX_PLUGS (size (slots g))) as [|Hlt].
    + pose proof (stays_when (LogLine "W" (TableFull i)) g Hg) as Hw.
      by destruct (when_connected _ g) as [[]].
    + simpl. destruct Hg as [H1 H2 H3]. split; simpl; [|apply map_Forall_insert_2; [|done]|done].
      * rewrite map_size_insert_None by done. lia.
      * apply new_slot_ok. by eapply given_ip_some.
Qed.

Lemma in_slot_ok {A} i (dflt : A) m : stays slot_ok m → stays gateway_ok (in_slot i dflt m).
Proof.
  intros Hm g Hg. unfold in_slot. destruct (slots g !! i) as [p|] eqn:Hp; [|done].
  pose proof (Hm p (gk_slots _ Hg i p Hp)) as Hq. destruct (m p) as [r q]. by eapply put_ok.
Qed.

Ltac slot_leaf := match goal with H : slot_ok ?p |- slot_ok _ => by destruct H end.

Lemma sim_on_ok cmd now : stays slot_ok (sim_on cmd now).
Proof.
  unfold sim_on. stay; slot_leaf.
Qed.
Lemma sim_set_limits_ok cmd : stays slot_ok (sim_set_limits cmd).
Proof. unfold sim_set_limits. stay; try slot_leaf. Qed.

Lemma apply_entry_ok now e : stays gateway_ok (apply_entry cfg now e).
Proof using resets_ok.
  unfold apply_entry. stay; try apply get_or_create_ok.
  apply in_slot_ok. unfold roster_cap. stay; slot_leaf.
Qed.

Lemma apply_entries_ok now l : stays gateway_ok (apply_entries cfg now l).
Proof using resets_ok. induction l as [|e l IH]; simpl; stay; [apply apply_entry_ok|apply IH]. Qed.

Lemma imap_dom (f : Z → plugsim → plugsim) (m : gmap Z plugsim) : dom (map_imap (λ i p, Some (f i p)) m) = dom m.
Proof.
  apply set_eq. intros i. rewrite !elem_of_dom, map_lookup_imap. destruct (m !! i); simpl; [|done].
  by split; eexists.
Qed.

Lemma apply_roster_ok cmd now : stays gateway_ok (apply_roster cfg cmd now).
Proof using resets_ok.
  unfold apply_roster. stay; [apply apply_entries_ok|]. destruct H as [H1 H2 H3]. split; simpl; [|..|done].
  - by rewrite <- size_dom, imap_dom, size_dom.
  - intros i q Hq. rewrite map_lookup_imap in Hq. destruct (slots s !! i) as [p|] eqn:Hp; [|done].
    injection Hq as <-. unfold flag_dropped. case_match; [by eapply H2|].
    by apply (slot_set p (λ p, p <| pending_remove := true |>)); [eapply H2|..].
Qed.


Lemma interval_ms (m : Z) : 500 <= m <= 60000 → fdiv (fint m) (fint 1000) = flit m 1000.
Proof.
  intros Hm. pose proof FU_pos. unfold fdiv. rewrite !fint_exact by lia. apply frnd_eq; [nia..|ring].
Qed.

Lemma interval_bounds (m : Z) : 500 <= m <= 60000 → flit 1 2 <= fdiv (fint m) (fint 1000) <= fint 60.
Proof. intros Hm. rewrite interval_ms by done. split; apply flit_mono; lia. Qed.

Lemma on_message_ok topic body now : stays gateway_ok (on_message cfg topic body now).
Proof using resets_ok.
  unfold on_message, handle_on, handle_off, handle_set_limits, handle_set_interval, handle_ota.
  stay; try apply stays_when; try apply apply_roster_ok; try apply get_or_create_ok;
    try (apply in_slot_ok; try apply sim_on_ok; try apply sim_set_limits_ok; stay; slot_leaf).
  all: match goal with H : gateway_ok ?s |- _ => destruct H as [H1 H2 H3] end; split; simpl; [done|done|].
  all: right; apply interval_bounds; unfold MIN_INTERVAL_MS, MAX_INTERVAL_MS; lia.
Qed.

Lemma reap_ok g : gateway_ok g → gateway_ok (reap_pending g).
Proof.
  intros [H1 H2 H3]. split; simpl; [|intros i p Hp; rewrite lookup_omap in Hp|done].
  - etransitivity; [|exact H1]. rewrite <- !size_dom. apply subseteq_size, dom_omap_subseteq.
  - destruct (slots g !! i) as [q|] eqn:Hq; simpl in Hp; [|done]. case_match; [done|].
    injection Hp as <-. by eapply H2.
Qed.

Lemma ramped_nonneg now noise p : 0 <= ramped_watts now noise p.
Proof. unfold ramped_watts. lia. Qed.

Lemma integrated_ok w dt p : 0 <= w → slot_ok p → slot_ok (integrated w dt p).
Proof.
  intros Hw Hp. unfold integrated. destruct (Z.ltb_spec 0 dt); [|done].
  destruct Hp as [H1 H2 H3 H4]. split; simpl; [done|by apply frnd_is_float, FU_pos| |done].
  apply fadd_nonneg; [done|]. pose proof FU_pos. assert (0 < fint 1000 ∧ 0 < fint 3600) as [K1 K2].
  { split; (rewrite fint_exact; [nia|lia]). }
  apply frnd_nonneg; [done|]. apply Z.mul_nonneg_nonneg; (apply frnd_nonneg; [done|nia]).
Qed.

Lemma reset_or_trip_ok mono wall p : slot_ok p → slot_ok (reset_or_trip mono wall p).1.
Proof.
  intros Hp. unfold reset_or_trip, maybe_trip_watchdog. destruct Hp as [H1 H2 H3 [H4 H5]].
  destruct (reset_due wall p); [by split|]. by destruct (limit_reached mono p); split.
Qed.

Lemma tick_ok i mono wall noise p : slot_ok p → slot_ok (tick_and_build_telemetry i mono wall noise p).1.
Proof.
  intros Hp. unfold tick_and_build_telemetry.
  assert (Hp' : slot_ok (p <| last_tick := mono |>)) by (by destruct Hp). simpl. case_match; [|done].
  pose proof (ramped_nonneg mono noise (p <| last_tick := mono |>)) as Hw.
  pose proof (reset_or_trip_ok mono wall _ (integrated_ok _ (fsub mono (last_tick p)) _ Hw Hp')) as Hq.
  by destruct (reset_or_trip _ _ _) as [q l].
Qed.

Lemma turn_ok i mono wall noise g : gateway_ok g → gateway_ok (publish_turn i mono wall noise g).
Proof.
  intros Hg. unfold publish_turn. destruct (slots g !! i) as [p|] eqn:Hp; [|done].
  pose proof (tick_ok i mono wall noise p (gk_slots _ Hg i p Hp)) as Hq.
  destruct (tick_and_build_telemetry _ _ _ _ p) as [q [f l]].
  pose proof (put_ok g i p q Hg Hp Hq) as Hg'. case_match; [by destruct Hg'|done].
Qed.

Lemma boot_ok now : gateway_ok (boot cfg now).
Proof using resets_ok.
  assert (H : gateway_ok (mkgateway (g_interval cfg) ∅ false [])).
  { split; simpl; [unfold MAX_PLUGS; rewrite map_size_empty; lia|done|by left]. }
  unfold boot. destruct (g_bootstrap cfg) as [[i ip]|]; [by apply get_or_create_ok|done].
Qed.

Lemma step_ok e g : gateway_ok g → gateway_ok (step cfg e g).
Proof using resets_ok.
  intros Hg. destruct e; simpl; [by destruct Hg|by destruct Hg|by apply on_message_ok|by apply reap_ok|by apply turn_ok].
Qed.

(** Whatever it is sent, a gateway keeps within the firmware's table, its sessions
    count a usage that a meter can show, and it publishes every half a second to
    every minute once an interval was set. *)
Theorem gateway_within_firmware g : reachable cfg g → gateway_ok g.
Proof using resets_ok. induction 1; [apply boot_ok|by apply step_ok]. Qed.
End Invariants.

(** ** Sessions *)

Section PlugSessions.
Context `{pystr : PyStr} (cfg : GatewayConfig).
Implicit Types (g : gateway) (p : plugsim) (i plug_id : Z) (now : float).

(** [p] charges still, in the session that [p0] charges in. *)
Record same_session p0 p : Prop := {
  ss_active : session_active p = true;
  ss_id : session_id p = session_id p0;
  ss_kwh : session_kwh p = session_kwh p0;
  ss_start : session_start p = session_start p0 }.

Definition charging i p0 g : Prop := ∃ p, slots g !! i = Some p ∧ same_session p0 p.

Lemma put_charging i p0 j p q g : slots g !! j = Some p → charging i p0 g →
  (j = i → same_session p0 p → same_session p0 q) → charging i p0 (g <| slots ::= <[j := q]> |>).
Proof.
  intros Hp (r & Hr & Hs) Hq. unfold charging. simpl. destruct (decide (j = i)) as [->|Hne].
  - rewrite lookup_insert_eq. eexists. split; [done|]. apply Hq; [done|]. by simplify_eq.
  - rewrite lookup_insert_ne by done. by exists r.
Qed.

Lemma charging_post i p0 m : stays (charging i p0) (post m).
Proof. unfold post. stay. done. Qed.
Lemma charging_when i p0 m : stays (charging i p0) (when_connected m).
Proof. unfold when_connected. stay. apply charging_post. Qed.

Lemma charging_slot i p0 j ip now : stays (charging i p0) (get_or_create_plug cfg j ip now).
Proof.
  intros g Hg. unfold get_or_create_plug, mbind, Py_bind, attr.
  destruct (slots g !! j) as [p|] eqn:Hp.
  - simpl. eapply put_charging; [done..|]. intros _ Hs. by destruct Hs.
  - destruct (given_ip ip) as [s|]; [|done]. destruct (_ <=? _)%nat.
    + pose proof (charging_when i p0 (LogLine "W" (TableFull j)) g Hg) as Hw.
      by destruct (when_connected _ g) as [[]].
    + destruct Hg as (p & Hi & Hs). exists p. simpl. split; [|done].
      by rewrite lookup_insert_ne by congruence.
Qed.

Lemma charging_in {A} i p0 j (dflt : A) m : (j = i → stays (same_session p0) m) →
  stays (charging i p0) (in_slot j dflt m).
Proof.
  intros Hm g Hg. unfold in_slot. destruct (slots g !! j) as [p|] eqn:Hp; [|done].
  pose proof (λ H, Hm H p) as Hq. destruct (m p) as [r q]. by eapply put_charging.
Qed.

Ltac same_leaf := match goal with H : same_session _ ?p |- same_session _ _ => by destruct H end.

Lemma charging_entries i p0 now l : stays (charging i p0) (apply_entries cfg now l).
Proof.
  induction l as [|e l IH]; simpl; stay; [|apply IH]. unfold apply_entry. stay; [apply charging_slot|].
  apply charging_in. intros _. unfold roster_cap. stay. same_leaf.
Qed.

Lemma charging_roster i p0 cmd now : stays (charging i p0) (apply_roster cfg cmd now).
Proof.
  unfold apply_roster. stay; [apply charging_entries|]. destruct H as (p & Hp & Hs). exists p. split; [|done].
  simpl. rewrite map_lookup_imap, Hp. simpl. unfold flag_dropped. by rewrite (ss_active _ _ Hs).
Qed.

(** What ends a session: the plug's own ON (which begins the next one) and OFF, and
    its turn in the loop. *)
Definition commands i (e : event) : bool :=
  match e with
  | Message topic (Some cmd) _ =>
      negb (PushGuard.suffix_of "/config" topic) && bool_decide (parse_plug_id_from_topic topic = Some i) &&
      let action := PyString.upper (py_str (vget "action" (J (JStr "")) cmd)) in
      String.eqb action "ON" || String.eqb action "OFF"
  | Turn j _ _ _ => j =? i
  | _ => false
  end.

(** A session goes on through anything else: another plug's commands, new limits, a
    roster without its plug, the reaper, a lost connection. *)
Theorem session_goes_on i p e g : slots g !! i = Some p → session_active p = true → commands i e = false →
  charging i p (step cfg e g).
Proof.
  intros Hp Ha He. assert (Hg : charging i p g) by (by exists p).
  destruct e as [| |topic body now| |j mono wall noise]; simpl in *; [done|done| | |].
  - cut (stays (charging i p) (on_message cfg topic body now)); [auto|]. unfold on_message.
    destruct body as [cmd|]; [|by apply charging_when].
    destruct (PushGuard.suffix_of "/config" topic); simpl in He; [by apply charging_roster|].
    unfold handle_on, handle_off, handle_set_limits, handle_set_interval, handle_ota, sim_set_limits.
    stay; try apply charging_slot; try apply charging_when;
      try (apply charging_in; intros ->; simplify_eq; try (rewrite bool_decide_true in He by done);
           simplify_option_eq; stay; same_leaf).
    all: done.
  - destruct Hg as (q & Hq & Hs). exists q. split; [|done]. simpl. rewrite lookup_omap, Hq. simpl.
    unfold reapable. by rewrite (ss_active _ _ Hs), andb_false_r.
  - apply Z.eqb_neq in He. unfold publish_turn. destruct (slots g !! j) as [q|] eqn:Hq; [|done].
    destruct (tick_and_build_telemetry _ _ _ _ q) as [q' [f l]].
    assert (Hg' : charging i p (g <| slots ::= <[j := q']> |>)) by (by eapply put_charging).
    by case_match.
Qed.
End PlugSessions.

(** ** The watchdog and the frames *)

Section Watchdog.
Context `{cfg : Config} `{pystr : PyStr}.
Implicit Types (p : plugsim) (i plug_id : Z) (mono wall noise : float).

(** The state a tick's limits are held against. *)
Definition ticked mono noise p : plugsim :=
  let q := p <| last_tick := mono |> in integrated (ramped_watts mono noise q) (fsub mono (last_tick p)) q.

Lemma ticked_active mono noise p : session_active (ticked mono noise p) = session_active p.
Proof. unfold ticked, integrated. by case_match. Qed.

Lemma tick_active i mono wall noise p : session_active p = true →
  tick_and_build_telemetry i mono wall noise p =
  let w := ramped_watts mono noise (p <| last_tick := mono |>) in
  let '(q, line) := reset_or_trip mono wall (ticked mono noise p) in
  (q, (sim_frame i w (measured_current w q) (session_kwh q) (voltage q) true (session_id p), line)).
Proof. intros Ha. unfold tick_and_build_telemetry. simpl. by rewrite Ha. Qed.

Lemma tick_idle i mono wall noise p : session_active p = false →
  tick_and_build_telemetry i mono wall noise p =
  (p <| last_tick := mono |>, (sim_frame i 0 (measured_current 0 p) (session_kwh p) (voltage p) false (session_id p), None)).
Proof. intros Ha. unfold tick_and_build_telemetry. simpl. by rewrite Ha. Qed.

(** A tick ends the session exactly when a limit is reached, and tells which: the
    duration first.  The frame still shows the plug occupied, with the energy of
    this tick; the next one shows it free. *)
Theorem watchdog_trips i mono wall noise p : session_active p = true → reset_due wall (ticked mono noise p) = false →
  let '(q, (frame, line)) := tick_and_build_telemetry i mono wall noise p in
  line = Tripped <$> limit_reached mono (ticked mono noise p) ∧
  (session_active q = true ↔ line = None) ∧ session_kwh q = session_kwh (ticked mono noise p) ∧
  vget_none "status" frame = J (JStr "occupied") ∧
  vget_none "kwh" frame = J (JFloat (fround 4 (session_kwh q))) ∧
  (session_active q = false → ∀ mono' wall' noise',
     vget_none "status" (tick_and_build_telemetry i mono' wall' noise' q).2.1 = J (JStr "available") ∧
     vget_none "kwh" (tick_and_build_telemetry i mono' wall' noise' q).2.1 = J (JFloat 0)).
Proof.
  intros Ha Hr. rewrite tick_active by done. unfold reset_or_trip, maybe_trip_watchdog. rewrite Hr.
  pose proof (ticked_active mono noise p) as Hk. rewrite Ha in Hk.
  destruct (limit_reached mono (ticked mono noise p)); simpl; split_and!; try done.
  by rewrite Hk.
Qed.

(** A scheduled reset hides the watchdog: in the tick it falls in, no limit is looked
    at, whatever the session has used. *)
Theorem reset_hides_watchdog i mono wall noise p : session_active p = true → reset_due wall (ticked mono noise p) = true →
  let '(q, (frame, line)) := tick_and_build_telemetry i mono wall noise p in
  session_active q = true ∧ line = Some ResetFired ∧ session_kwh q = reset_value_kwh q ∧ ∀ later, reset_due later q = false.
Proof.
  intros Ha Hr. rewrite tick_active by done. unfold reset_or_trip. rewrite Hr.
  pose proof (ticked_active mono noise p) as Hk. rewrite Ha in Hk. split_and!; [done..|].
  intros later. unfold reset_due. simpl. by case_match.
Qed.

(** The backend reads a frame of the simulator as it was meant. *)
Theorem frame_understood i mono wall noise p :
  let '(q, (frame, line)) := tick_and_build_telemetry i mono wall noise p in
  let active := session_active p in
  let w := if active then ramped_watts mono noise (p <| last_tick := mono |>) else 0 in
  let kwh := if active then fround 4 (session_kwh q) else 0 in
  plausible kwh = true →
  parse_frame frame = Ok (Some (mkframe i (fround 1 w) kwh (fround 1 (voltage p)) (fround 2 (measured_current w p))
    (J (JStr (if active then "occupied" else "available"))) active
    (if active then match int_of_str (session_id p) with Some n => if 0 <? n then Some n else None | None => None end
     else None) false None None)).
Proof.
  destruct (session_active p) eqn:Ha; [rewrite tick_active by done|rewrite tick_idle by done].
  - destruct (reset_or_trip mono wall (ticked mono noise p)) as [q line] eqn:Hq.
    assert (voltage q = voltage p ∧ power_factor q = power_factor p) as [Hv Hf].
    { unfold reset_or_trip, maybe_trip_watchdog, ticked, integrated in Hq. repeat case_match; by simplify_eq. }
    cbv zeta beta iota. intros Hk. rewrite Hv.
    replace (measured_current _ q) with (measured_current (ramped_watts mono noise (p <| last_tick := mono |>)) p)
      by (unfold measured_current; by rewrite Hv, Hf).
    unfold parse_frame, sim_frame. cbn -[fround int_of_str plausible]. rewrite Hk. unfold parse_session_id. simpl.
    destruct (String.eqb_spec (session_id p) "") as [->|Hne]; [done|]. by destruct (int_of_str (session_id p)).
  - cbv zeta beta iota. intros Hk. unfold parse_frame, sim_frame. cbn -[fround int_of_str plausible].
    by rewrite Hk.
Qed.
End Watchdog.

(** ** The roster *)

Section Roster.
Context `{pystr : PyStr} (cfg : GatewayConfig).
Implicit Types (g : gateway) (p : plugsim) (i : Z) (now : float) (row : Z * string * option float).

(** services/mqtt/commands.py: what the backend retains for the gateway. *)
Definition roster_row row : json :=
  JObj [("plug_id", JInt row.1.1); ("local_ip", JStr row.1.2);
        ("max_current_a", match row.2 with Some x => JFloat x | None => JNull end)]%string.
Definition roster_payload (rows : list (Z * string * option float)) : payload :=
  [("v", J (JInt 1)); ("plugs", J (JArr (map roster_row rows)))]%string.

Definition ids (rows : list (Z * string * option float)) : list Z := (rows.*1).*1.
Definition all_idle g : Prop := map_Forall (λ _ p, session_active p = false) (slots g).

(** The slot that a row asks for. *)
Definition slot_of row p : Prop := local_ip p = row.1.2 ∧ pending_remove p = false.

Lemma roster_entry_row row : row.1.2 ≠ "" →
  roster_entry (roster_row row) =
  Some (row.1, J (match row.2 with Some x => JFloat x | None => JNull end)).
Proof. destruct row as [[i [|a ip]] c]; [done|]. intros _. by destruct c. Qed.

Lemma when_connected_ok m g : ∃ g', when_connected m g = (Ok tt, g') ∧ slots g' = slots g.
Proof. unfold when_connected, mbind, Py_bind, attr. destruct (connected g); eexists; done. Qed.

(** A named plug has its slot, with the address it was named with, unless it had
    none and the table is full. *)
Lemma create_spec i ip now g : ip ≠ "" → ∃ made g',
  get_or_create_plug cfg i (Some ip) now g = (Ok made, g') ∧
  (if made : bool then ∃ p, slots g' = <[i := p]> (slots g) ∧ local_ip p = ip ∧ pending_remove p = false ∧
     (all_idle g → session_active p = false)
   else slots g' = slots g ∧ slots g !! i = None ∧ (MAX_PLUGS <= size (slots g))%nat).
Proof.
  intros Hip. unfold get_or_create_plug, mbind, Py_bind, attr.
  assert (given_ip (Some ip) = Some ip) as -> by by destruct ip.
  destruct (slots g !! i) as [p|] eqn:Hp.
  - exists true. eexists. split; [done|]. eexists. split_and!; [done..|]. intros Hi. by apply (Hi i p).
  - destruct (Nat.leb_spec MAX_PLUGS (size (slots g))).
    + destruct (when_connected_ok (LogLine "W" (TableFull i)) g) as (g' & -> & Hg'). exists false, g'.
      split_and!; [done..|lia].
    + exists true. eexists. split; [done|]. eexists. split_and!; [done|..]; unfold new_slot;
        by destruct (g_reset_specs cfg !! i) as [[]|].
Qed.

Lemma roster_cap_spec (c : option float) p : ∃ q, roster_cap (J (match c with Some x => JFloat x | None => JNull end)) p = (Ok tt, q) ∧
  local_ip q = local_ip p ∧ pending_remove q = pending_remove p ∧ session_active q = session_active p.
Proof.
  unfold roster_cap, mbind, Py_bind, attr. destruct c as [x|]; simpl.
  - destruct (negb (session_active p) && (0 <? x)); by eexists.
  - rewrite andb_false_r. by eexists.
Qed.

(** A row takes effect on its own slot, unless there is none and the table is full. *)
Lemma apply_row now row g : row.1.2 ≠ "" → ∃ seen g',
  apply_entry cfg now (roster_row row) g = (Ok seen, g') ∧ (all_idle g → all_idle g') ∧
  ((seen = [row.1.1] ∧ ∃ p, slots g' = <[row.1.1 := p]> (slots g) ∧ slot_of row p) ∨
   (seen = [] ∧ slots g' = slots g ∧ slots g !! row.1.1 = None ∧ (MAX_PLUGS <= size (slots g))%nat)).
Proof.
  intros Hip. unfold apply_entry. rewrite roster_entry_row by done. destruct row as [[i ip] c]. simpl in *.
  destruct (create_spec i ip now g Hip) as (made & g1 & Hc & Hm). unfold mbind at 1, Py_bind at 1. rewrite Hc.
  destruct made; [|destruct Hm as (Hs & Hn & Hf); exists [], g1; split_and!; [done|unfold all_idle; by rewrite Hs|by right]].
  - destruct Hm as (p & Hs & Hl & Hpr & Ha). destruct (roster_cap_spec c p) as (q & Hq & K1 & K2 & K3).
    unfold mbind at 1, Py_bind at 1, in_slot. rewrite Hs, lookup_insert_eq, Hq.
    eexists _, _. split_and!; [done|..].
    + intros Hi. unfold all_idle. simpl. rewrite Hs, insert_insert_eq. apply map_Forall_insert_2; [|done].
      rewrite K3. auto.
    + left. split; [done|]. exists q. simpl. rewrite Hs, insert_insert_eq. unfold slot_of. by rewrite K1, K2.
Qed.

Lemma apply_rows_idle now rows g : Forall (λ row, row.1.2 ≠ "") rows → all_idle g → ∃ seen g',
  apply_entries cfg now (map roster_row rows) g = (Ok seen, g') ∧ seen ⊆ ids rows ∧ all_idle g'.
Proof.
  intros Hrows. revert g. induction Hrows as [|row rows Hip _ IH]; intros g Hg; simpl.
  - by exists [], g.
  - destruct (apply_row now row g Hip) as (seen & g1 & H1 & Hi & Hs). destruct (IH g1 (Hi Hg)) as (more & g2 & H2 & Hm & Hg2).
    unfold mbind, Py_bind. rewrite H1, H2. eexists _, _. split_and!; [done| |done].
    unfold ids in *. simpl. destruct Hs as [[-> _]|[-> _]]; set_solver.
Qed.

Lemma apply_rows_fit (R : gset Z) now rows g : (size R <= MAX_PLUGS)%nat → Forall (λ row, row.1.2 ≠ "") rows →
  NoDup (ids rows) → list_to_set (ids rows) ⊆ R → dom (slots g) ⊆ R → ∃ g',
  apply_entries cfg now (map roster_row rows) g = (Ok (ids rows), g') ∧
  (∀ j, j ∉ ids rows → slots g' !! j = slots g !! j) ∧
  Forall (λ row, ∃ p, slots g' !! row.1.1 = Some p ∧ slot_of row p) rows.
Proof.
  intros HR Hrows. revert g. induction Hrows as [|row rows Hip _ IH]; intros g Hnd HrR HgR; simpl; [by eexists|].
  unfold ids in *. simpl in *. apply NoDup_cons in Hnd as [Hnin Hnd].
  destruct (apply_row now row g Hip) as (seen & g1 & H1 & _ & [[-> (p & Hs & Hp)]|(_ & _ & Hn & Hfull)]).
  - destruct (IH g1) as (g2 & H2 & K1 & K2); [done|set_solver|rewrite Hs, dom_insert; set_solver|].
    unfold mbind, Py_bind. rewrite H1, H2. eexists. split_and!; [done|..].
    + intros j Hj. apply not_elem_of_cons in Hj as [Hne Hj]. by rewrite K1, Hs, lookup_insert_ne.
    + apply Forall_cons. split; [|done]. exists p. by rewrite K1, Hs, lookup_insert_eq.
  - exfalso. apply not_elem_of_dom in Hn. assert (size ({[row.1.1]} ∪ dom (slots g)) <= size R)%nat as Hsz.
    { apply subseteq_size. set_solver. }
    rewrite size_union, size_singleton, size_dom in Hsz by set_solver. lia.
Qed.

(** A gateway without a session converges to the backend's roster: after a roster, a
    round of the loop and the same roster again, it has exactly the roster's plugs,
    at their addresses, whatever filled its table before. *)
Theorem roster_converges rows g now now' : (length rows <= MAX_PLUGS)%nat → Forall (λ row, row.1.2 ≠ "") rows →
  NoDup (ids rows) → all_idle g →
  let sent now g := (apply_roster cfg (roster_payload rows) now g).2 in
  let g' := sent now' (reap_pending (sent now g)) in
  dom (slots g') = list_to_set (ids rows) ∧
  Forall (λ row, ∃ p, slots g' !! row.1.1 = Some p ∧ slot_of row p) rows.
Proof.
  intros Hlen Hrows Hnd Hidle sent g'. subst g'. set (g1 := reap_pending (sent now g)).
  assert (H1 : dom (slots g1) ⊆ list_to_set (ids rows)).
  { unfold g1, sent, apply_roster. simpl. unfold mbind, Py_bind.
    destruct (apply_rows_idle now rows g Hrows Hidle) as (seen & g2 & -> & Hseen & Hi). simpl.
    intros i. rewrite elem_of_dom, lookup_omap, map_lookup_imap. intros [p Hp].
    destruct (slots g2 !! i) as [q|] eqn:Hq; simpl in Hp; [|done]. rewrite elem_of_list_to_set.
    specialize (Hi i q Hq). simpl in Hi. destruct (decide (i ∈ seen)) as [Hin|Hnin]; [set_solver|].
    exfalso. unfold flag_dropped, reapable in Hp. rewrite Hi, (bool_decide_false _ Hnin) in Hp. simpl in Hp.
    rewrite orb_false_r in Hp. destruct (pending_remove q) eqn:Hpr; simpl in Hp; by rewrite ?Hpr, ?Hi in Hp. }
  unfold sent, apply_roster. simpl. unfold mbind, Py_bind.
  destruct (apply_rows_fit (list_to_set (ids rows)) now' rows g1) as (g2 & -> & K1 & K2); [|done..|].
  { rewrite size_list_to_set by done. unfold ids. by rewrite !length_fmap. }
  simpl. rewrite imap_dom. split.
  - apply set_eq. intros i. rewrite elem_of_list_to_set. split.
    + intros Hi. destruct (decide (i ∈ ids rows)) as [|Hn]; [done|].
      apply elem_of_dom in Hi. rewrite K1 in Hi by done. apply elem_of_dom in Hi. set_solver.
    + unfold ids. rewrite !list_elem_of_fmap. intros (r & -> & Hr). apply list_elem_of_fmap in Hr as (row & -> & Hr).
      rewrite Forall_forall in K2. destruct (K2 row Hr) as (p & Hp & _). apply elem_of_dom. by exists p.
  - eapply Forall_impl; [apply Forall_and; split; [exact K2|apply Forall_forall; intros row Hr; exact Hr]|].
    intros row [(p & Hp & Hs) Hr]. exists p. rewrite map_lookup_imap, Hp. simpl. split; [|done].
    unfold flag_dropped. assert (row.1.1 ∈ ids rows).
    { unfold ids. rewrite !list_elem_of_fmap. exists row.1. split; [done|]. apply list_elem_of_fmap. by exists row. }
    by rewrite bool_decide_true, orb_true_r by done.
Qed.
End Roster.
