(* ===== verification/Witnesses.v ===== *)
(** * Concrete inputs on which the theorems' hypotheses hold

    A small site: one tenant, one gateway, one plug on a capped circuit, a
    tariff with an evening slot, a driver with 100 coins. *)

From S2P Require Import Prelude Rounding PyNum Money Models Slots Config Billing TelemetryStore.
From S2P Require Import World Hoare Wallet Commands Caps Pricing Reservations Lifecycle.
From S2P Require Import SessionStart.

#[local] Existing Instance default_config.

Definition site_tenant : Tenant.t := Tenant.mk "Society" (Some 4) None None None 1
  "Asia/Kolkata" true 2 720.
Definition site_driver : User.t := User.mk None "d@example.org" "" "Driver" DRIVER 10000 0
  false true "password" None None.
Definition site_gateway : Gateway.t := Gateway.mk (Some 1) "Gateway" "gw" ONLINE None
  (Some (flit 129 10)) (Some (flit 776 10)) None None (Some 0).
Definition site_plug : Plug.t := Plug.mk "gw" "Bay 1" "10.0.0.2" "tapo_p110" None AVAILABLE 0
  None None (Some 0) (Some 0) (Some 6) None None None None None None None None.
Definition site_group : ChargerGroup.t := ChargerGroup.mk 1 "Basement" false (Some "CODE") None
  (Some (flit 32 1)).
Definition site_tariff : Tariff.t := Tariff.mk 1 "Standard" 500.
Definition site_slot : TariffSlot.t := TariffSlot.mk 4 1080 1320 800 127.
Definition site_booking : Reservation.t := Reservation.mk 3 1 1 (minutes 60) (minutes 120) BOOKED None None.

Definition site : db := empty_db
  <| next_id := 100 |>
  <| tenants := {[1 := site_tenant]} |>
  <| users := {[1 := site_driver]} |>
  <| gateways := {["gw" := site_gateway]} |>
  <| plugs := {[3 := site_plug]} |>
  <| ledger := {[2 := LedgerTransaction.mk 1 None 10000 TOPUP None 10000]} |>
  <| groups := {[6 := site_group]} |>
  <| memberships := {[7 := GroupMembership.mk 1 6 0]} |>
  <| tariffs := {[4 := site_tariff]} |>
  <| slots := {[5 := site_slot]} |>
  <| reservations := {[8 := site_booking]} |>.

Ltac site_rows :=
  repeat match goal with
  | H : {[_ := _]} !! _ = Some _ |- _ => apply lookup_singleton_Some in H as [<- <-]
  | H : ∅ !! _ = Some _ |- _ => by rewrite lookup_empty in H
  end.

Lemma site_ok : db_ok site.
Proof.
  split; [split; [split|..]|..]; simpl; intros; site_rows; try done.
  rewrite lookup_singleton_ne; [done | lia].
Qed.

Lemma site_prices : prices_ok site.
Proof. split; simpl; [by apply flit_nonneg | intros; site_rows; simpl; lia..]. Qed.

Lemma site_env max_kwh : (∀ k, max_kwh = Some k → is_float k ∧ 0 <= k) → start_env site max_kwh.
Proof. intros Hk. split; [by apply flit_is_float | apply site_prices | done]. Qed.

Lemma site_pricing : pricing_ok site site_plug.
Proof.
  unfold pricing_ok.
  assert (resolve_tariff_and_tz site site_plug = (Some (4, site_tariff), "Asia/Kolkata"%string))
    as -> by reflexivity.
  split; [apply fixed_zone_offset|]. intros tid t [= <- <-].
  assert (slots_of site 4 = [site_slot]) as -> by (vm_compute; reflexivity).
  apply Forall_singleton. unfold slot_valid. simpl. lia.
Qed.

Lemma rate_window_sound_witness :
  let '(rate, valid_until) := resolve_rate_window site site_plug 0 in
  (∀ b, valid_until = Some b → 0 < b ∧ b <= 0 + days 8) ∧
  (∀ t', 0 <= t' → (∀ b, valid_until = Some b → t' < b) →
         resolve_rate_for_plug site site_plug t' = rate).
Proof. apply rate_window_sound. apply site_pricing. Defined.

Lemma max_rate_is_bound_witness :
  resolve_rate_for_plug site site_plug (seconds 60) <=
  max_rate_over_window site site_plug 0 3600.
Proof. apply max_rate_is_bound; [apply site_pricing | vm_compute; congruence | reflexivity]. Defined.

Lemma slot_rate_order_independent_witness :
  (slot_rate_and_bound [site_slot] 0).1 = (slot_rate_and_bound [site_slot] 0).1.
Proof.
  apply slot_rate_order_independent.
  - apply Forall_singleton. unfold slot_valid. simpl. lia.
  - constructor; constructor.
  - reflexivity.
Defined.

(** The running session of the site's driver, at 5 coins/kWh since instant 0. *)
Definition site_session : ChargingSession.t :=
  new_session 1 1 3 500 10000 (resolve_rate_window site site_plug 0).2 None None 0.

Definition site_charging : db := claimed_db site site_session None.

Lemma site_claim : claim_of site 1 3 site_plug site_driver None None 0 site_session.
Proof.
  split; [reflexivity | reflexivity | reflexivity | vm_compute; reflexivity | reflexivity
         | by split | vm_compute; reflexivity | vm_compute; reflexivity |].
  split; [split|split]; simpl.
  - vm_compute. discriminate.
  - intros x [= <-]. apply is_float_0.
  - unfold ZERO_MONEY, MAX_MONEY. lia.
  - apply is_float_0.
  - lia.
Qed.

Lemma site_charging_ok : db_ok site_charging.
Proof.
  eapply (claimed_db_ok site 1 3 site_plug site_driver None None None 0);
    [apply site_ok | by apply site_env | done.. | apply site_claim].
Qed.

Lemma site_running : sessions site_charging !! 100 = Some site_session.
Proof. reflexivity. Qed.

Lemma reprice_correct_witness :
  let s := site_session <| ChargingSession.rate_valid_until := Some 0 |> in
  let '(s', change) := reprice_session_if_due site s site_plug 0 in
  let due := ∃ v, ChargingSession.rate_valid_until s = Some v ∧ v <= 0 in
  session_cost s' (ChargingSession.energy_kwh s) = session_cost s (ChargingSession.energy_kwh s) ∧
  ChargingSession.energy_kwh s' = ChargingSession.energy_kwh s ∧
  (¬ due → s' = s ∧ change = None) ∧
  (due →
   ChargingSession.rate_coins_per_kwh s' = Some (resolve_rate_for_plug site site_plug 0) ∧
   (∀ b, ChargingSession.rate_valid_until s' = Some b → 0 < b) ∧
   (is_Some change ↔
      ChargingSession.rate_coins_per_kwh s ≠ Some (resolve_rate_for_plug site site_plug 0))).
Proof.
  intros s. apply reprice_correct; [apply site_pricing | | apply is_float_0 | done].
  destruct (wf_billing _ (cl_wf _ _ _ _ _ _ _ _ _ site_claim)) as [H1 H2 H3]. by split.
Defined.

Lemma price_display_batch_correct_witness :
  resolve_price_display_batch site
    [(3, site_plug, group_tariff_id site site_plug, tenant_of site site_plug)] 0 !! 3 =
  Some (resolve_price_display site site_plug 0).
Proof.
  eapply price_display_batch_correct.
  - apply NoDup_singleton.
  - by apply Forall_singleton.
  - left.
Defined.

Lemma admission_exact_witness :
  check_circuit_admission 3 site_plug (world_of site) =
    (if exact_load site 6 (Some 3) + effective_plug_cap site_plug <=? fadd (flit 32 1) epsilon
     then Ok tt else Raise (HTTPException 409 "circuit_full"), world_of site).
Proof.
  assert (Hcap : effective_plug_cap site_plug = 16 * 2 ^ 20 * ampere_unit)
    by (vm_compute; reflexivity).
  pose proof ampere_unit_pos.
  assert (Hload : exact_load site 6 (Some 3) = 0) by reflexivity.
  apply (admission_exact 3 site_plug 6 site_group (flit 32 1) (world_of site)); try reflexivity.
  - split; [intros i s Hs; discriminate Hs|].
    change (exact_load site 6 (Some 3) <= 2 ^ 53 * ampere_unit). rewrite Hload. lia.
  - rewrite Hcap. split; [by exists (16 * 2 ^ 20) | lia].
  - change (exact_load site 6 (Some 3) + effective_plug_cap site_plug <= 2 ^ 53 * ampere_unit).
    rewrite Hload, Hcap. lia.
Defined.


Lemma site_bookings i r : reservations site !! i = Some r → i = 8 ∧ r = site_booking.
Proof. simpl. intros. by site_rows. Qed.

Lemma site_booked_ok : booked_ok site.
Proof.
  by intros i j ri rj Hij [-> _]%site_bookings [-> _]%site_bookings.
Qed.

Lemma booking_exclusive_witness :
  let '(out, w') :=
    run_request (create_reservation 1 3 (minutes 180) (minutes 240) 0) (world_of site) in
  booked_ok (com w') ∧
  match out with
  | Raise _ => com w' = com (world_of site)
  | Ok rid => ∃ tenant, reservations (com w') !! rid =
        Some (Reservation.mk 3 1 tenant (minutes 180) (minutes 240) BOOKED None None) ∧
      minutes 180 + RESERVATION_MIN_LENGTH <= minutes 240 ∧
      minutes 240 - minutes 180 <= RESERVATION_MAX_LENGTH ∧
      0 - RESERVATION_START_GRACE <= minutes 180 <= 0 + RESERVATION_MAX_ADVANCE
  end.
Proof. apply booking_exclusive; [reflexivity | apply site_booked_ok]. Defined.

Lemma booking_cap_witness :
  count (upcoming 1 0) (reservations (com
    (run_request (create_reservation 1 3 (minutes 180) (minutes 240) 0) (world_of site)).2))
  <= MAX_UPCOMING_RESERVATIONS_PER_USER.
Proof.
  apply (booking_cap 1 3 (minutes 180) (minutes 240) 0 (world_of site) 100).
  - reflexivity.
  - intros i Hi. change (({[8 := site_booking]} : gmap Z _) !! i = None). rewrite lookup_singleton_ne; [done|].
    change (100 <= i) in Hi. lia.
  - vm_compute. reflexivity.
Defined.

Lemma cancel_hides_foreign_witness :
  cancel_reservation 2 site_driver 8 (world_of site) =
    (Raise (HTTPException 404 "Reservation not found."), world_of site) ∧
  ∀ rid', reservations (cur (world_of site)) !! rid' = None →
    cancel_reservation 2 site_driver rid' (world_of site) =
    cancel_reservation 2 site_driver 8 (world_of site).
Proof. by apply (cancel_hides_foreign 2 site_driver 8 site_booking). Defined.

Lemma schedule_privacy_witness :
  Reservation.user_id site_booking = 1 ∨
  ∃ gid g, Plug.group_id site_plug = Some gid ∧ groups (cur (world_of site)) !! gid = Some g ∧
           ChargerGroup.is_public g = false.
Proof.
  eapply (schedule_privacy 1 3 0 (world_of site) site_plug
            [(8, site_booking, Some "Driver"%string)] 8).
  - reflexivity.
  - vm_compute. reflexivity.
  - left.
Defined.

Lemma finalize_collects_hold_witness :
  let collected := Z.min (session_cost site_session 0) 10000 in
  ∃ rc w', run_request (finalize_charging_session 100 None None (seconds 60))
             (world_of site_charging) = (Ok (Some rc), w') ∧
    0 <= collected ∧ r_coins_spent rc = collected ∧
    settled_as (cur (world_of site_charging)) (com w') 100 site_session collected (seconds 60) ∧
    db_ok (com w').
Proof.
  apply (finalize_collects_hold 100 None None (seconds 60) (world_of site_charging) site_session).
  - reflexivity.
  - apply site_charging_ok.
  - by split_and!.
  - vm_compute. reflexivity.
Defined.

Lemma finalize_settles_once_witness :
  ∃ rc w', run_request (finalize_charging_session 100 (Some 1) None (seconds 60))
             (world_of site_charging) = (Ok (Some rc), w') ∧
    run_request (finalize_charging_session 100 None (Some "telemetry lost"%string) (seconds 61)) w'
      = (Ok None, w').
Proof.
  eexists _, _. split; [vm_compute; reflexivity|].
  eapply (finalize_settles_once 100 (Some 1) None None (Some "telemetry lost"%string)
            (seconds 60) (seconds 61) (world_of site_charging)).
  - reflexivity.
  - apply site_charging_ok.
  - vm_compute. reflexivity.
Defined.

Lemma start_reserves_witness :
  let '(out, w') :=
    run_request (begin_claim 1 3 site_plug site_gateway None None None 0) (world_of site) in
  db_ok (com w') ∧ (is_ok out = false → evs w' = evs (world_of site)) ∧
  claim_outcome (cur (world_of site)) 1 3 site_plug site_driver None None 0 out (com w').
Proof.
  apply (start_reserves 1 3 site_plug site_gateway None None None 0 site_driver);
    [reflexivity | apply site_ok | by apply site_env | reflexivity..].
Defined.

(** The site with a broker that refuses everything. *)
Definition deaf_config : Config := with_ack default_config (λ _, false).

Lemma failed_start_restores_witness :
  let '(out, w') := run_request
    (@begin_active_session deaf_config 1 3 site_plug site_gateway None None (Some 8) (minutes 60))
    (world_of site) in
  is_ok out = false ∧ @db_ok deaf_config (com w') ∧
  users (com w') = users site ∧ ledger (com w') = ledger site ∧
  plugs (com w') = plugs site ∧ reservations (com w') = reservations site ∧
  (∀ v, held (com w') v = held site v) ∧
  (∀ sid s, sessions (com w') !! sid = Some s →
     sessions site !! sid = Some s ∨ ChargingSession.status s = CANCELLED).
Proof.
  apply (@failed_start_restores deaf_config 1 3 site_plug site_gateway None None (Some 8)
           (minutes 60) site_driver (world_of site)); try reflexivity.
  - destruct site_ok as [Hw Ha Hi Hf Ho]. split; [done | | done..].
    intros sid s Hs Hact. by destruct (Ha sid s Hs Hact).
  - destruct (site_env None) as [Hf [He Ht Hs] Hk]; [done|]. split; [done | by split | done].
  - by intros rid r [= <-] [_ ->]%site_bookings.
Defined.

