(* ===== verification/MoneyWitnesses.v ===== *)
(** * Concrete inputs for the theorems on payments, payouts, disputes, invoices

    The site of [Witnesses] after one charge: a finished session of 30 coins, an
    open dispute about it, the wallet at 70. *)

From S2P Require Import Prelude Rounding PyNum Money Models Config Billing TelemetryStore.
From S2P Require Import World Hoare PyJson Wallet Lifecycle SessionStart Invoices Payouts CpoTopups.
From S2P Require Import Disputes Payments Witnesses.

#[local] Existing Instance default_config.

Definition done_session : ChargingSession.t :=
  site_session <| ChargingSession.status := COMPLETED |> <| ChargingSession.coins_spent := 3000 |>
    <| ChargingSession.ended_at := Some (seconds 600) |>.

Definition site_cpo : User.t := User.mk (Some 1) "cpo@example.org" "" "Operator" CPO 0 0
  false true "password" None None.

Definition open_dispute : SessionDispute.t :=
  SessionDispute.mk 20 1 1 "The car did not charge" D_OPEN None None (seconds 700) None None.

Definition site_done : db := site
  <| users := {[1 := site_driver <| User.coin_balance := 7000 |>]} |>
  <| sessions := {[20 := done_session]} |>
  <| ledger := {[2 := LedgerTransaction.mk 1 None 10000 TOPUP None 10000;
                 9 := LedgerTransaction.mk 1 (Some 20) (-3000) SESSION_DEBIT None 7000]} |>
  <| disputes := {[21 := open_dispute]} |>.

Lemma done_session_id i s : sessions site_done !! i = Some s → i = 20 ∧ s = done_session.
Proof. change (sessions site_done) with ({[20 := done_session]} : gmap Z ChargingSession.t). intros. by site_rows. Qed.

Lemma site_done_ok : db_ok site_done.
Proof.
  split; [split; [split|..]|..]; simpl.
  - intros uid u. site_rows. intros H. apply lookup_singleton_Some in H as [<- <-]. vm_compute. done.
  - intros uid u H. apply lookup_singleton_Some in H as [_ <-]. vm_compute. split; discriminate.
  - intros i Hi. rewrite lookup_insert_ne, lookup_singleton_ne by lia. done.
  - intros uid u H. apply lookup_singleton_Some in H as [<- <-]. vm_compute. discriminate.
  - by intros sid s [_ ->]%done_session_id.
  - by intros sid s [_ ->]%done_session_id.
  - intros i Hi. rewrite lookup_singleton_ne by lia. done.
  - by intros pid p _ _ sid s [_ ->]%done_session_id.
  - by intros i j si sj [_ ->]%done_session_id.
Qed.

Lemma site_done_payouts : payouts_ok site_done.
Proof.
  split.
  - by intros sid s pid [_ ->]%done_session_id.
  - intros pid p. change (payouts site_done) with (∅ : gmap Z Payout.t). by rewrite lookup_empty.
  - intros i j p q. change (payouts site_done) with (∅ : gmap Z Payout.t). by rewrite lookup_empty.
  - done.
Qed.

Lemma site_done_amounts : amounts_ok site_done.
Proof.
  split.
  - intros i s [_ ->]%done_session_id. vm_compute. split; discriminate.
  - intros i x. change (disputes site_done) with ({[21 := open_dispute]} : gmap Z SessionDispute.t).
    by intros [_ <-]%lookup_singleton_Some.
  - done.
Qed.

Lemma site_done_refunds : refunds_ok site_done.
Proof. intros sid s [-> ->]%done_session_id. vm_compute. discriminate. Qed.

Lemma site_done_invoices : invoices_ok site_done.
Proof. by split. Qed.

(** ** Invoices *)

Lemma gst_split_exact_witness :
  let '(taxable_value, gst_amount) := split_gst_inclusive 3000 (mkdec 18 0) in
  taxable_value = rhu (3000 * 10000) (10000 + rate_hundredths (mkdec 18 0)) ∧
  taxable_value + gst_amount = 3000 ∧ 0 <= taxable_value <= 3000.
Proof. apply gst_split_exact; [vm_compute; split; discriminate | vm_compute; discriminate]. Defined.

Lemma issue_invoice_correct_witness :
  let '(out, w') := run_request (issue_invoice_for_session 20 (days 20000)) (world_of site_done) in
  invoices_ok (com w') ∧ users (com w') = users site_done ∧ ledger (com w') = ledger site_done ∧
  sessions (com w') = sessions site_done ∧
  match out with
  | Raise _ => com w' = site_done
  | Ok (i, inv) =>
      invoices (com w') !! i = Some inv ∧ Invoice.session_id inv = 20 ∧
      (com w' = site_done ∨
       ∃ s t, issuable site_done 20 s t ∧
         Invoice.total_inr inv = to_money_amount (ChargingSession.coins_spent s) ∧
         Invoice.invoice_number inv =
           invoice_number_for (ChargingSession.tenant_id s) t (days 20000) ∧
         tenants (com w') !! ChargingSession.tenant_id s =
           Some (t <| Tenant.next_invoice_seq := Tenant.next_invoice_seq t + 1 |>))
  end.
Proof.
  apply (issue_invoice_correct 20 (days 20000) (world_of site_done));
    [reflexivity | apply site_done_invoices | vm_compute; discriminate].
Defined.

(** ** Payouts *)

Lemma request_payout_settles_witness :
  let '(out, w') := run_request (cpo_request_payout 2 site_cpo (days 1)) (world_of site_done) in
  payouts_ok (com w') ∧ users (com w') = users site_done ∧ ledger (com w') = ledger site_done ∧
  match out with
  | Raise _ => com w' = site_done
  | Ok pid => ∃ tid p, User.tenant_id site_cpo = Some tid ∧
      payouts site_done !! pid = None ∧ payouts (com w') !! pid = Some p ∧
      Payout.tenant_id p = tid ∧ Payout.status p = P_REQUESTED ∧
      claimed (com w') pid = unsettled_coins site_done tid ∧ unsettled_coins (com w') tid = 0 ∧
      (∀ q, q ≠ pid → claimed (com w') q = claimed site_done q) ∧
      let preview := tenant_earnings_summary site_done tid (days 1) in
      Payout.gross_coins p = unsettled_gross_coins preview ∧
      Payout.platform_fee_coins p = unsettled_platform_fee_coins preview ∧
      Payout.net_coins p = available_pool_coins preview ∧ 0 < Payout.net_coins p
  end.
Proof.
  apply (request_payout_settles 2 site_cpo (days 1) (world_of site_done));
    [reflexivity | apply site_done_payouts].
Defined.

Definition site_paid : db :=
  requested_db site_done 1 (requested_payout site_done 1 2 (days 1)).

Lemma site_paid_payouts : payouts_ok site_paid.
Proof. apply requested_ok; [apply site_done_payouts | vm_compute; reflexivity]. Qed.

Lemma requested_amounts d tid p : amounts_ok d → amounts_ok (requested_db d tid p).
Proof.
  intros [Hs Hd Ht]. split; [|apply Hd | apply Ht].
  intros i s. unfold requested_db. simpl. rewrite lookup_fmap. intros (s0 & H & ->)%fmap_Some.
  destruct (claim_row_keeps tid (next_id d) s0) as (_ & _ & -> & _). by eapply Hs.
Qed.

Lemma site_paid_amounts : amounts_ok site_paid.
Proof. apply requested_amounts, site_done_amounts. Qed.

Lemma cancel_payout_frees_witness :
  let '(out, w') := run_request (cpo_cancel_payout site_cpo 100) (world_of site_paid) in
  payouts_ok (com w') ∧ users (com w') = users site_paid ∧ ledger (com w') = ledger site_paid ∧
  match out with
  | Raise _ => com w' = site_paid
  | Ok p => ∃ p0, payouts site_paid !! 100 = Some p0 ∧ Payout.status p0 = P_REQUESTED ∧
      (User.role site_cpo = ADMIN ∨ User.tenant_id site_cpo = Some (Payout.tenant_id p0)) ∧
      payouts (com w') !! 100 = Some p ∧ Payout.status p = P_CANCELLED ∧
      unsettled_coins (com w') (Payout.tenant_id p0) =
        unsettled_coins site_paid (Payout.tenant_id p0) + claimed site_paid 100 ∧
      (∀ q, q ≠ 100 → claimed (com w') q = claimed site_paid q ∧
                      payouts (com w') !! q = payouts site_paid !! q)
  end.
Proof.
  apply (cancel_payout_frees site_cpo 100 (world_of site_paid));
    [reflexivity | apply site_paid_payouts].
Defined.

Lemma payouts_never_overpay_witness :
  isum (λ _ p, if effective 1 p then Payout.platform_fee_coins p + Payout.net_coins p else 0)
       (payouts site_paid) <=
  msum (λ s, if earned 1 s && bool_decide (is_Some (ChargingSession.settled_payout_id s))
             then ChargingSession.coins_spent s else 0) (sessions site_paid).
Proof.
  apply payouts_never_overpay; [apply site_paid_payouts | apply site_paid_amounts |].
  vm_compute. split; discriminate.
Defined.

(** A note of 250 characters makes the ledger's description longer than its
    column: the cash is not credited. *)
Theorem long_note_refused :
  let topup note := run_request (cpo_create_topup 2 site_cpo "d@example.org" (PFloat (flit 5 1)) note
                                   (seconds 800) (seconds 801)) (world_of site_done) in
  is_ok (topup None).1 = true ∧
  (topup (Some (Nat.iter 250 (λ s, "n" +:+ s) ""))).1 = Raise DataError ∧
  com (topup (Some (Nat.iter 250 (λ s, "n" +:+ s) ""))).2 = site_done.
Proof. vm_compute. repeat split. Qed.

Lemma topup_within_pool_witness :
  let '(out, w') := run_request
    (cpo_create_topup 2 site_cpo "D@example.org " (PFloat (flit 5 1)) None (seconds 800) (seconds 801))
    (world_of site_done) in
  db_ok (com w') ∧
  match out with
  | Raise _ => com w' = site_done
  | Ok i => ∃ tid uid, let amount := to_money (PFloat (flit 5 1)) in
      User.tenant_id site_cpo = Some tid ∧ 0 < amount <= pool site_done tid (seconds 801) ∧
      balance (com w') uid = balance site_done uid + amount ∧
      booked (com w') uid = booked site_done uid + amount ∧
      (∀ v, v ≠ uid → balance (com w') v = balance site_done v) ∧
      pool (com w') tid (seconds 801) = pool site_done tid (seconds 801) - amount
  end.
Proof.
  apply (topup_within_pool 2 site_cpo "D@example.org " (PFloat (flit 5 1)) None (seconds 800)
           (seconds 801) (world_of site_done));
    [reflexivity | apply site_done_ok | apply site_done_amounts | done | | done].
  intros tid [= <-]. vm_compute. discriminate.
Defined.

(** ** Disputes *)

Lemma resolve_dispute_correct_witness :
  let '(out, w') := run_request
    (cpo_resolve_dispute 2 site_cpo 21 "approve" (Some (PInt 10)) None (seconds 800))
    (world_of site_done) in
  db_ok (com w') ∧ amounts_ok (com w') ∧ refunds_ok (com w') ∧ invoices_ok (com w') ∧
  sessions (com w') = sessions site_done ∧
  match out with
  | Raise _ => com w' = site_done
  | Ok _ => resolution_outcome site_done (com w') 2 site_cpo 21 "approve" (Some (PInt 10)) (seconds 800)
  end.
Proof.
  apply (resolve_dispute_correct 2 site_cpo 21 "approve" (Some (PInt 10)) None (seconds 800)
           (world_of site_done));
    [reflexivity | apply site_done_ok | apply site_done_amounts | apply site_done_refunds
    | apply site_done_invoices].
Defined.

Lemma refund_claws_back_witness : ∃ w',
  run_request (cpo_resolve_dispute 2 site_cpo 21 "approve" (Some (PInt 10)) None (seconds 800))
    (world_of site_done) = (Ok tt, w') ∧
  payouts_ok (com w') ∧ ∃ x s amount,
    disputes site_done !! 21 = Some x ∧ sessions site_done !! SessionDispute.session_id x = Some s ∧
    0 < amount ∧
    (finished s = true →
     tenant_settlement_watermark site_done (ChargingSession.tenant_id s) <= seconds 800 →
     ∀ later, seconds 800 < later →
     sum_unsettled_session_coins (com w') (ChargingSession.tenant_id s) later =
     Z.max (sum_unsettled_session_coins site_done (ChargingSession.tenant_id s) later - amount) 0).
Proof.
  eexists. split; [vm_compute; reflexivity|].
  eapply (refund_claws_back 2 site_cpo 21 (Some (PInt 10)) None (seconds 800) (world_of site_done));
    [reflexivity | apply site_done_ok | apply site_done_amounts | apply site_done_invoices
    | apply site_done_payouts | |].
  - intros pid p. change (payouts (cur (world_of site_done))) with (∅ : gmap Z Payout.t).
    by rewrite lookup_empty.
  - vm_compute. reflexivity.
Defined.

(** ** Payments *)

Lemma paise_roundtrip_witness :
  to_money (PFloat (calculate_coins (fdiv (fint 12345) (fint 100)))) = 12345.
Proof. apply paise_roundtrip; [reflexivity | unfold MAX_MONEY; lia]. Defined.

Lemma site_done_unique : ledger_unique site_done.
Proof.
  intros i j l l' id. change (ledger site_done) with
    (<[2 := LedgerTransaction.mk 1 None 10000 TOPUP None 10000]>
       {[9 := LedgerTransaction.mk 1 (Some 20) (-3000) SESSION_DEBIT None 7000]} : gmap Z _).
  intros [[_ <-]|[_ [_ <-]%lookup_singleton_Some]]%lookup_insert_Some; done.
Qed.

Lemma topup_credited_once_witness :
  let '(out, w') := run_request (credit_topup 1 (flit 50 1) "pay_1") (world_of site_done) in
  db_ok (com w') ∧ ledger_unique (com w') ∧
  match out with
  | Ok (Some b) =>
      let credit := to_money (PFloat (flit 50 1)) in
      has_id site_done "pay_1" = false ∧ has_id (com w') "pay_1" = true ∧
      b = balance site_done 1 + credit ∧ balance (com w') 1 = b ∧
      booked (com w') 1 = booked site_done 1 + credit ∧
      (∀ v, v ≠ 1 → balance (com w') v = balance site_done v)
  | _ => com w' = site_done
  end.
Proof.
  apply (topup_credited_once 1 (flit 50 1) "pay_1" (world_of site_done));
    [reflexivity | apply site_done_ok | apply site_done_unique | by apply flit_is_float
    | by apply flit_nonneg].
Defined.

Lemma refund_claws_once_witness :
  let '(out, w') := run_request (debit_refund 1 (flit 50 1) "rfnd_1") (world_of site_done) in
  ledger_ok (com w') ∧ ledger_unique (com w') ∧
  match out with
  | Ok (Some b) =>
      let actual := Z.min (to_money (PFloat (flit 50 1))) (balance site_done 1) in
      has_id site_done "rfnd_1" = false ∧ has_id (com w') "rfnd_1" = true ∧
      b = balance site_done 1 - actual ∧ 0 <= b ∧ balance (com w') 1 = b ∧
      booked (com w') 1 = booked site_done 1 - actual ∧
      (∀ v, v ≠ 1 → balance (com w') v = balance site_done v) ∧
      (to_money (PFloat (flit 50 1)) <= balance site_done 1 - held site_done 1 → db_ok (com w'))
  | _ => com w' = site_done
  end.
Proof.
  apply (refund_claws_once 1 (flit 50 1) "rfnd_1" (world_of site_done));
    [reflexivity | apply site_done_ok | apply site_done_unique | by apply flit_is_float
    | by apply flit_nonneg].
Defined.

(** Razorpay as the tests use it: every signature verifies, one known payload. *)
Definition test_event : json := JObj
  [("event", JStr "payment.captured");
   ("payload", JObj [("payment", JObj [("entity", JObj
      [("id", JStr "pay_1"); ("amount", JInt 5000);
       ("notes", JObj [("user_id", JStr "1")])])])])]%string.

Definition test_razorpay : Razorpay := {|
  client_configured := true;
  signature_ok := λ _ _ _, true;
  payment_fetch := λ _, None;
  order_create := λ _ _, None;
  webhook_secret := "secret";
  hmac_hex := λ _ _, "digest";
  json_loads := λ _, Some test_event;
  float_of_str := λ _, None |}.

Definition delivered (w : world) : world :=
  (run_request (@razorpay_webhook _ test_razorpay "{}" "digest") w).2.

Lemma webhook_idempotent_witness :
  balance (com (delivered (world_of site_done))) 1 = 12000 ∧
  (com (delivered (world_of site_done)) = com (world_of site_done) ∨
   com (delivered (delivered (world_of site_done))) = com (delivered (world_of site_done))).
Proof.
  split; [vm_compute; reflexivity|].
  refine (@webhook_idempotent _ test_razorpay "{}" "digest" (world_of site_done)
            (delivered (world_of site_done)) _).
  assert (Hcur : ∀ w, cur (delivered w) = com (delivered w))
    by (intros w; unfold delivered, run_request; by destruct (razorpay_webhook _ _ _)).
  by rewrite Hcur.
Defined.
