(* ===== verification/SessionWitnesses.v ===== *)
(** * Concrete inputs for the theorems on the session endpoints

    The site of [Witnesses] with a gateway seen at instant 0. *)

From S2P Require Import Prelude Rounding PyNum Money Models Slots Config Billing.
From S2P Require Import TelemetryStore World Hoare Wallet Commands Caps Pricing Reservations.
From S2P Require Import Lifecycle SessionStart Sessions Reaper Witnesses.

#[local] Existing Instance default_config.

Lemma start_gated_witness :
  let w := world_of site in
  let '(out, w') := run_request (start_claim 1 3 None None (seconds 60)) w in
  db_ok (com w') ∧ booked_ok (com w') ∧
  match out with
  | Raise _ => com w' = com w ∧ evs w' = evs w
  | Ok (plug, covering, (sid, _)) => ∃ gateway,
      startable (cur w) 1 3 (seconds 60) plug gateway covering ∧
      count (active_of 1) (sessions (com w')) <= MAX_ACTIVE_SESSIONS_PER_USER ∧
      (∀ i r, reservations (cur w) !! i = Some r → covers_now 3 (seconds 60) r = true →
         lapsed (seconds 60) r = false →
         Reservation.user_id r = 1 ∧ reservations (com w') !! i =
           Some (r <| Reservation.status := FULFILLED |> <| Reservation.session_id := Some sid |>))
  end.
Proof.
  intros w. apply (start_gated 1 3 None None (seconds 60) w);
    [reflexivity | apply site_ok | apply site_booked_ok | by apply site_env].
Defined.

(** The start goes through. *)
Example site_starts :
  is_ok (run_request (start_claim 1 3 None None (seconds 60)) (world_of site)).1 = true.
Proof. vm_compute. reflexivity. Qed.

(** The same plug in a private group: the driver has to be a member. *)
Definition private_site : db := site
  <| plugs := {[3 := site_plug <| Plug.group_id := Some 5 |>]} |>
  <| groups := {[5 := ChargerGroup.mk 1 "Staff" false (Some "CODE"%string) None None]} |>.

Example members_start :
  (run_request (start_claim 1 3 None None (seconds 60)) (world_of private_site)).1 =
    Raise (HTTPException 403 "You don't have access to this plug. Join the group first.") ∧
  is_ok (run_request (start_claim 1 3 None None (seconds 60))
    (world_of (private_site <| memberships := {[7 := GroupMembership.mk 1 5 0]} |>))).1 = true.
Proof. vm_compute. repeat split. Qed.

Lemma site_charging_session i s : sessions site_charging !! i = Some s → s = site_session.
Proof. unfold site_charging, claimed_db. simpl. by intros [_ <-]%lookup_singleton_Some. Qed.

Lemma claimed_env d s covering max_kwh :
  start_env d max_kwh → start_env (claimed_db d s covering) max_kwh.
Proof. intros [Hf [He Ht Hs] Hk]. by split; [|split|]. Qed.

Lemma site_charging_env max_kwh :
  (∀ k, max_kwh = Some k → is_float k ∧ 0 <= k) → start_env site_charging max_kwh.
Proof. intros Hk. by apply claimed_env, site_env. Qed.

Lemma limits_keep_cover_witness :
  let w := world_of site_charging in
  let '(out, w') := run_request (update_session_limits 1 100 (Some (flit 10 1)) None 0) w in
  match out with
  | Raise _ => com w' = com w
  | Ok s' => ∃ s, relimit_outcome (cur w) (com w') 1 100 (Some (flit 10 1)) None s s' ∧
      ((∀ u h, users (cur w) !! 1 = Some u → ChargingSession.hold_coins s = Some h →
         accrued_cost s' <= User.coin_balance u - held (cur w) 1 + h) → db_ok (com w'))
  end.
Proof.
  intros w. apply (limits_keep_cover 1 100 (Some (flit 10 1)) None 0 w).
  - reflexivity.
  - exact site_charging_ok.
  - apply site_charging_env. intros k Hk. apply (inj Some) in Hk as <-.
    split; [by apply flit_is_float | by apply flit_nonneg].
  - intros s k Hs. by apply site_charging_session in Hs as ->.
Defined.

Lemma queue_charge_correct_witness :
  let w := world_of site in
  let '(out, w') := run_request (queue_charge 1 3 None None (seconds 100)) w in
  db_ok (com w') ∧ queue_ok (com w') ∧
  match out with
  | Raise _ => com w' = com w
  | Ok qid => ∃ q, queued (com w') !! qid = Some q ∧ queueable (cur w) 1 3 (seconds 100) q ∧
      count (waiting 1) (queued (com w')) <= MAX_QUEUED_CHARGES_PER_USER ∧
      ∀ v, held (com w') v = held (cur w) v ∧ balance (com w') v = balance (cur w) v
  end.
Proof.
  intros w. apply (queue_charge_correct 1 3 None None (seconds 100) w); [done | apply site_ok | | done].
  intros i j qi qj. change (queued (cur w)) with (∅ : gmap Z QueuedCharge.t). by rewrite lookup_empty.
Defined.

Example site_queues :
  (run_request (queue_charge 1 3 None None (seconds 100)) (world_of site)).1 = Ok 100.
Proof. vm_compute. reflexivity. Qed.

(** ** The hold after a price drop

    A session that has charged 1 kWh at the evening price of 8 coins and now
    runs at 5.  The driver, who still has 100 coins, asks for 2 kWh in all. *)

Definition cheap_hours : Z := minutes 1050.

Definition evening_session : ChargingSession.t := site_session
  <| ChargingSession.energy_kwh := flit 1 1 |> <| ChargingSession.settled_cost_coins := Some 800 |>
  <| ChargingSession.rate_segment_start_kwh := Some (flit 1 1) |>
  <| ChargingSession.max_kwh := Some (flit 2 1) |> <| ChargingSession.hold_coins := Some 1600 |>.

Definition evening_site : db := site_charging
  <| sessions := {[100 := evening_session]} |>.

(** The change is accepted and shrinks a hold that covered the whole charge to
    one that does not: finishing the 2 kWh costs 13 coins, of which finalize
    collects only the 10 that are held. *)
Theorem limits_forgive :
  let '(out, w') := run_request
    (update_session_limits 1 100 (Some (flit 2 1)) (Some 3600) cheap_hours)
    (world_of evening_site) in
  balance evening_site 1 = 10000 ∧
  match out with
  | Ok s' => let cost := session_cost s' (flit 2 1) in
      ChargingSession.max_kwh s' = Some (flit 2 1) ∧ cost = 1300 ∧
      requested_debit evening_session cost = 1300 ∧ requested_debit s' cost = 1000
  | Raise _ => False
  end.
Proof. vm_compute. repeat split. Qed.

(** ** The sweeps *)

Lemma reap_once_clears_witness :
  ∃ n w', run_request (reap_once (seconds 1000)) (world_of site_charging) = (Ok n, w') ∧
    swept (stale (seconds 1000)) site_charging (com w') n ∧
    ∀ sid s, sessions (com w') !! sid = Some s → stale (seconds 1000) s = false.
Proof. apply (reap_once_clears (seconds 1000) (world_of site_charging)); [done | exact site_charging_ok]. Defined.

Lemma reap_time_limited_clears_witness :
  ∃ n w', run_request (reap_time_limited_once (seconds 1000)) (world_of site_charging) = (Ok n, w') ∧
    swept (outlived (seconds 1000)) site_charging (com w') n ∧
    ∀ sid s, sessions (com w') !! sid = Some s → outlived (seconds 1000) s = false.
Proof.
  apply (reap_time_limited_clears (seconds 1000) (world_of site_charging));
    [reflexivity | done | exact site_charging_ok].
Defined.

(** A charge queued at instant 0 while the plug was dark; power is back since. *)
Definition waiting_charge : QueuedCharge.t :=
  QueuedCharge.mk 1 1 3 None None Q_WAITING 0 (minutes 720) None.
Definition power_back : Z := minutes 10.

Definition queue_site : db := site
  <| plugs := {[3 := site_plug <| Plug.powered_since := Some 0 |>
                              <| Plug.last_telemetry_at := Some power_back |>]} |>
  <| gateways := {["gw" := site_gateway <| Gateway.last_seen_at := Some power_back |>]} |>
  <| queued := {[30 := waiting_charge]} |>.

Lemma queued_expiry_witness :
  queued (com (run_request (reap_queued_starts_once (minutes 720)) (world_of queue_site)).2) !! 30 =
    Some (waiting_charge <| QueuedCharge.status := Q_EXPIRED |>).
Proof.
  apply (queued_expiry (minutes 720) (world_of queue_site) 30 waiting_charge);
    [done | reflexivity | reflexivity | vm_compute; discriminate].
Defined.

Example queued_starts :
  (run_request (reap_queued_starts_once power_back) (world_of queue_site)).1 = Ok 1.
Proof. vm_compute. reflexivity. Qed.

(** Between the commit of the claim and the end of the publish nothing holds the
    queued row: a driver's cancel in that gap is accepted, and the charge
    starts, is billed and is recorded as STARTED all the same. *)
Definition status_of_queued w : option QueuedChargeStatus :=
  QueuedCharge.status <$> queued (com w) !! 30.

Theorem cancel_lost :
  match run_request (queued_claim 30 power_back) (world_of queue_site) with
  | (Ok (Some (q, plug, (sid, rate))), w1) =>
      let '(cancelled, w2) := run_request (cancel_queued_charge 1 30) w1 in
      let '(started, w3) := run_request (queued_publish 30 q plug sid rate power_back) w2 in
      cancelled = Ok tt ∧ status_of_queued w2 = Some Q_CANCELLED ∧
      started = Ok 1 ∧ status_of_queued w3 = Some Q_STARTED ∧
      (is_active <$> sessions (com w3) !! sid) = Some true
  | _ => False
  end.
Proof. vm_compute. repeat split. Qed.

(** ** Interleavings the request handlers do not exclude

    A start commits its claim, then commands the gateway from a worker thread
    without holding any row lock.  When that publish fails, its undo writes the
    session, the plug and the booking as they were at the claim, whatever
    happened to them since.  Two drivers share the plug of [Witnesses]. *)

Module Races.
(** A broker that loses the ON command of session 100. *)
Definition loses_on (c : mqtt_command) : bool :=
  match c with
  | CmdPlug _ _ ON _ _ (Some sid) _ _ => negb (sid =? 100)
  | _ => true
  end.

#[local] Instance lossy_config : Config := with_ack default_config loses_on.

Definition shared_site : db := site
  <| users := {[1 := site_driver; 2 := site_driver]} |>
  <| ledger := {[2 := LedgerTransaction.mk 1 None 10000 TOPUP None 10000;
                 9 := LedgerTransaction.mk 2 None 10000 TOPUP None 10000]} |>
  <| memberships := {[7 := GroupMembership.mk 1 6 0; 10 := GroupMembership.mk 2 6 0]} |>
  <| reservations := ∅ |>.

Lemma shared_site_ok : db_ok shared_site.
Proof.
  split; [split; [split|..]|..]; simpl.
  - intros uid u. intros [[<- <-]|[_ [<- <-]%lookup_singleton_Some]]%lookup_insert_Some; by vm_compute.
  - intros uid u. intros [[_ <-]|[_ [_ <-]%lookup_singleton_Some]]%lookup_insert_Some;
      vm_compute; split; discriminate.
  - intros i Hi. by rewrite lookup_insert_ne, lookup_singleton_ne by lia.
  - intros uid u. intros [[<- <-]|[_ [<- <-]%lookup_singleton_Some]]%lookup_insert_Some;
      vm_compute; discriminate.
  - intros sid s. by rewrite lookup_empty.
  - intros sid s. by rewrite lookup_empty.
  - intros i _. apply lookup_empty.
  - intros pid p _ _ sid s. by rewrite lookup_empty.
  - intros i j si sj. by rewrite lookup_empty.
Qed.

Definition plug_status (w : world) : option PlugStatus := Plug.status <$> plugs (com w) !! 3.
Definition session_status (w : world) sid : option SessionStatus :=
  ChargingSession.status <$> sessions (com w) !! sid.

(** Driver 1 claims, driver 1 stops, driver 2 starts on the freed plug; then the
    first start's publish fails. *)
Definition lost_start (w : world) : option (world * Z) :=
  match run_request (start_claim 1 3 None None (seconds 10)) w with
  | (Ok (plug, covering, (sid, rate)), w1) =>
      let w2 := (run_request (stop_charging_session 1 sid (seconds 11)) w1).2 in
      match run_request (start_charging_session 2 3 None None (seconds 12)) w2 with
      | (Ok sid2, w3) =>
          Some ((run_request (begin_publish sid 3 plug rate None None covering (seconds 13)) w3).2, sid2)
      | _ => None
      end
  | _ => None
  end.

(** The undo rewrites the finished session as CANCELLED and sets the plug
    AVAILABLE under the second driver's running session: the invariant that an
    AVAILABLE plug runs no session is lost. *)
Theorem undo_frees_running_plug :
  match lost_start (world_of shared_site) with
  | Some (w, sid2) => session_status w 100 = Some CANCELLED ∧ session_status w sid2 = Some ACTIVE ∧
      plug_status w = Some AVAILABLE ∧ ¬ db_ok (com w)
  | None => False
  end.
Proof.
  assert (H : ∃ w sid2 p s, lost_start (world_of shared_site) = Some (w, sid2) ∧
    session_status w 100 = Some CANCELLED ∧
    plugs (com w) !! 3 = Some p ∧ Plug.status p = AVAILABLE ∧
    sessions (com w) !! sid2 = Some s ∧ ChargingSession.status s = ACTIVE ∧
    ChargingSession.plug_id s = 3).
  { eexists _, _, _, _. vm_compute. by split_and!. }
  destruct H as (w & sid2 & p & s & -> & Hc & Hp & Hav & Hs & Ha & Hsp).
  unfold plug_status, session_status in *. rewrite Hp, Hs. simpl. rewrite Hav, Ha.
  split_and!; [done..|]. intros Hok.
  apply (ok_free _ Hok 3 p Hp Hav sid2 s Hs); [|done]. unfold is_active. by rewrite Ha.
Qed.
End Races.
