(* ===== verification/MqttWitnesses.v ===== *)
(** * Concrete inputs for the theorems on inbound MQTT messages

    The site of [Witnesses], with the session of its driver running. *)

From Stdlib Require Import Ascii.
From S2P Require Import Prelude Rounding PyNum Money Models Slots Config Billing TelemetryStore.
From S2P Require Import World Hoare PyJson Wallet Commands Caps Pricing Lifecycle Ownership.
From S2P Require Import SessionStart Alarms Persistence Telemetry GatewayStatus Mqtt.
From S2P Require Import Witnesses SessionWitnesses.

#[local] Existing Instance default_config.
#[local] Instance no_str : PyStr := λ _, ""%string.

(** A telemetry message of the site's plug. *)
Definition reading (kwh : float) (offline : bool) : payload :=
  [("plug_id", J (JInt 3)); ("watts", J (JFloat (flit 7000 1))); ("kwh", J (JFloat kwh));
   ("status", J (JStr "occupied")); ("session_id", J (JStr "100"));
   ("offline", J (JBool offline))]%string.

Lemma reading_wf n d offline : 0 < d → payload_wf (reading (flit n d) offline).
Proof.
  intros Hd k v Hv. unfold reading in Hv. rewrite !elem_of_cons, elem_of_nil in Hv.
  destruct_or! Hv; try done; injection Hv as -> ->; try done; by apply flit_is_float.
Qed.

Lemma site_charging_prices : price_env site_charging.
Proof. split; [by apply flit_is_float | apply (site_charging_env None)]. done. Qed.

Lemma telemetry_correct_witness :
  telemetry_effect "gw" (seconds 60) site_charging
    (com (run_request (handle_gateway_telemetry "gw" (reading (flit 1 2) false) (seconds 60) 0)
            (world_of site_charging)).2).
Proof.
  apply (telemetry_correct "gw" (reading (flit 1 2) false) (seconds 60) 0 (world_of site_charging));
    [reflexivity | exact site_charging_ok | exact site_charging_prices | by apply reading_wf].
Defined.

Definition deliver (p : payload) (w : world) : world :=
  (run_request (handle_gateway_telemetry "gw" p (seconds 60) 0) w).2.
Definition energy_of (w : world) : option float := ChargingSession.energy_kwh <$> sessions (com w) !! 100.

(** A frame records the energy; one past the hold's worth of energy ends the session. *)
Example frame_recorded :
  energy_of (deliver (reading (flit 1 2) false) (world_of site_charging)) = Some (flit 1 2).
Proof. vm_compute. reflexivity. Qed.
Example hold_exhausted :
  (let w := deliver (reading (flit 20 1) false) (world_of site_charging) in
   is_active <$> sessions (com w) !! 100) = Some false.
Proof. vm_compute. reflexivity. Qed.

(** ** A replayed reading from before a counter reset

    The meter reaches 5 kWh, restarts, and reports 0.1 kWh: 5.0 kWh stay
    recorded and 4.9 are banked.  When the gateway then drains an older reading
    of 4.8 kWh from its offline buffer, the bank is added to it as well: the
    session is billed 9.7 kWh although the meter has delivered 5.1 at most. *)
Theorem replay_double_counts :
  let w1 := deliver (reading (flit 5 1) false) (world_of site_charging) in
  let w2 := deliver (reading (flit 1 10) false) w1 in
  let w3 := deliver (reading (flit 48 10) true) w2 in
  energy_of w1 = Some (flit 5 1) ∧ energy_of w2 = Some (flit 5 1) ∧
  match sessions (com w3) !! 100 with
  | Some s => let e := ChargingSession.energy_kwh s in
      is_active s = true ∧ (flit 96 10 <? e) = true ∧ (4800 <? session_cost s e) = true
  | None => False
  end.
Proof. vm_compute. repeat split. Qed.

(** ** Alarms *)

Definition overheat : payload :=
  [("error", J (JStr "THERMAL_CUTOFF")); ("plug_id", J (JInt 3))]%string.

Lemma alarm_correct_witness :
  let d := site_charging in
  let d' := com (run_request (handle_gateway_alarm "gw" overheat (seconds 60)) (world_of d)).2 in
  db_ok d' ∧ within_gateway "gw" d d' ∧
  ∀ event_type pid gw tid, parse_alarm overheat = Some (event_type, Some pid) →
    gateways d !! "gw"%string = Some gw → Gateway.tenant_id gw = Some tid →
    owned "gw" d pid →
    (is_Some (finalize_reason event_type) → idle d' pid) ∧
    (AUTO_MAINTENANCE_ON_CRITICAL_ALARM = true → maintenance_alarm event_type = true →
     ∃ plug, plugs d' !! pid = Some plug ∧ Plug.status plug = MAINTENANCE).
Proof.
  apply (alarm_correct "gw" overheat (seconds 60) (world_of site_charging));
    [reflexivity | exact site_charging_ok].
Defined.

Example overheat_parsed : parse_alarm overheat = Some ("THERMAL_CUTOFF"%string, Some 3).
Proof. reflexivity. Qed.

(** ** The time series *)

(** One live frame of the site's plug waits in the buffer. *)
Definition buffered (status : value) : world :=
  deliver (("status"%string, status) :: reading (flit 1 2) false) (world_of site_charging).

Lemma flush_all_or_nothing_witness :
  let w := buffered (J (JStr "occupied")) in
  let rows := batch_rows (cur w) (buffer (mem w)) in
  let '(out, w') := run_request flush_once w in
  out = Ok tt ∧
  if batch_storable (cur w) (buffer (mem w)) then
    buffer (mem w') = [] ∧
    ∀ j, readings (com w') !! j =
      if (next_id (cur w) <=? j) && (j <? next_id (cur w) + Z.of_nat (length rows))
      then rows !! Z.to_nat (j - next_id (cur w)) else readings (cur w) !! j
  else buffer (mem w') = buffer (mem w) ∧ com w' = com w.
Proof.
  apply (flush_all_or_nothing (buffered (J (JStr "occupied"))));
    [vm_compute; reflexivity | vm_compute; discriminate].
Defined.

Example flush_stores :
  let w := (run_request flush_once (buffered (J (JStr "occupied")))).2 in
  length (buffer (mem w)) = 0%nat ∧ size (readings (com w)) = 1%nat.
Proof. vm_compute. split; reflexivity. Qed.

(** A frame whose [status] is a number passes every check of the handler and can
    never be stored: each flush fails and puts the whole batch back, the good
    samples of all other plugs with it. *)
Theorem one_sample_blocks_all (n : nat) :
  let w := deliver (reading (flit 1 1) false) (buffered (J (JInt 5))) in
  let w' := Nat.iter n (λ w, (run_request flush_once w).2) w in
  length (buffer (mem w')) = 2%nat ∧ size (readings (com w')) = 0%nat.
Proof.
  set (w := deliver _ _). assert (Hw : com w = cur w ∧
    batch_storable (cur w) (buffer (mem w)) = false ∧ length (buffer (mem w)) = 2%nat ∧
    size (readings (com w)) = 0%nat) by (vm_compute; repeat split).
  clearbody w. destruct Hw as (Hcc & Hst & Hl & Hr).
  assert (Hn : let w' := Nat.iter n (λ w, (run_request flush_once w).2) w in
    com w' = cur w' ∧ com w' = com w ∧ buffer (mem w') = buffer (mem w)).
  { induction n as [|n (IH1 & IH2 & IH3)]; [done|]. simpl.
    destruct (flush_blocked (Nat.iter n (λ w, (run_request flush_once w).2) w)) as (H1 & H2 & H3).
    - done.
    - rewrite IH3, Hl. vm_compute. discriminate.
    - by rewrite <- IH1, IH2, IH3, Hcc.
    - split_and!; congruence. }
  destruct Hn as (_ & H1 & H2). intros w'. unfold w'. by rewrite H1, H2.
Qed.

(** ** Gateways that reconnect *)

Lemma reconnect_off_exact_witness :
  let w := world_of site in
  let '(out, w') := run_request (republish_off_for_orphaned_plugs "gw" true 0) w in
  out = Ok tt ∧ com w' = com w ∧ ∃ sent, evs w' = evs w ++ sent ∧
  (∀ c accepted, Publish c accepted ∈ sent ↔ ∃ pid p, plugs (cur w) !! pid = Some p ∧
     Plug.gateway_id p = "gw"%string ∧ idle (cur w) pid ∧ queue_holds (cur w) 0 pid p = false ∧
     c = off_command pid p ∧ accepted = mqtt_ack c) ∧
  (true = false → ∀ e, e ∈ sent → ∃ c accepted, e = Publish c accepted).
Proof. apply (reconnect_off_exact "gw" true 0 (world_of site)). reflexivity. Defined.

(** The site's idle plug is switched off; the one in use is not. *)
Example off_when_idle :
  (length (orphans "gw" site 0), length (orphans "gw" site_charging 0)) = (1%nat, 0%nat).
Proof. vm_compute. reflexivity. Qed.

(** ** Messages *)

(** A parser that knows one text. *)
#[local] Instance one_text : JsonLoads := λ s,
  if String.eqb s "{...}" then Object (reading (flit 1 2) false) else Invalid.

Lemma site_charging_numbered : plugs_numbered site_charging.
Proof.
  intros i Hi. assert (H : map_Forall (λ j _, j < next_id site_charging) (plugs site_charging))
    by (apply (bool_decide_unpack _); vm_compute; exact I).
  destruct (plugs site_charging !! i) as [p|] eqn:Hp; [|done]. apply H in Hp. cbv beta in Hp. lia.
Qed.

Lemma message_confined_witness :
  let '(out, w') := run_request (on_message "amphive/gateways/gw/telemetry" "{...}" (seconds 60) 0)
                      (world_of site_charging) in
  out = Ok tt ∧ message_effect "amphive/gateways/gw/telemetry" "{...}" (world_of site_charging) w'.
Proof.
  apply (message_confined "amphive/gateways/gw/telemetry" "{...}" (seconds 60) 0
           (world_of site_charging));
    [reflexivity | exact site_charging_ok | exact site_charging_prices
    | exact site_charging_numbered |].
  intros s p H. unfold json_loads, one_text in H. destruct (String.eqb s "{...}"); [|done].
  injection H as <-. by apply reading_wf.
Defined.

Example topics :
  map (match_topic Status) ["amphive/gateways/gw/status"; "amphive/gateways//status";
    "amphive/gateways/a/b/status"; "amphive/gateways/gw/logs"; "x/amphive/gateways/gw/status"]%string
  = [Some "gw"%string; None; None; None; None].
Proof. vm_compute. reflexivity. Qed.

Definition escape : string := String "027"%char "[0;33m".
Example severities :
  map log_severity ["E (1) x: y"; escape +:+ "W (1) x"; "[offline] " +:+ escape +:+ "W (1)"; "I (1)"; ""]%string
  = ["error"; "warning"; "warning"; "info"; "info"]%string.
Proof. vm_compute. reflexivity. Qed.

(** A stray continuation byte goes, a well-formed pair stays. *)
Example decoded :
  let c n := Ascii.ascii_of_N (Z.to_N n) in
  decode_utf8 (String (c 128) (String (c 195) (String (c 169) (String (c 195) "a"%string))))
  = String (c 195) (String (c 169) "a"%string).
Proof. vm_compute. reflexivity. Qed.

(** A device announced twice keeps its row; a new one gets a row and an id. *)
Definition announce (name : string) : payload := [("unique_id", J (JStr "kasa:1")); ("alias", J (JStr name))]%string.
Example discovery :
  let run name w := (run_request (handle_gateway_plug_discovery "gw" (announce name)) w).2 in
  let w1 := run "Bay 1"%string (world_of site) in
  let w2 := run "Bay 2"%string w1 in
  (size (plugs site), size (plugs (com w1)), size (plugs (com w2)),
   map (λ r, Plug.name r.2) (select (λ _ p, bool_decide (is_Some (Plug.unique_id p))) (plugs (com w2))))
  = (1%nat, 2%nat, 2%nat, ["Bay 2"%string]).
Proof. vm_compute. reflexivity. Qed.
