(* ===== verification/RouterWitnesses.v ===== *)
(** * Concrete inputs for the theorems on the operators' routes

    The operator of the site of [Witnesses]. *)

From S2P Require Import Prelude Rounding PyNum Money Models Slots Config Billing TelemetryStore.
From S2P Require Import World Hoare Wallet Caps Pricing Payouts Tariffs RateLimit Witnesses.

#[local] Existing Instance default_config.

Definition site_operator : User.t := User.mk (Some 1) "o@example.org" "" "Operator" CPO 0 0
  false true "password" None None.

(** ** Tariffs *)

Definition slot_request (start_min end_min price : Z) : CpoTariffSlotCreateRequest :=
  mkslot_create start_min end_min (fint price) 127.
Definition morning : tariff_op := CreateSlot 4 (slot_request 480 720 3).

Lemma site_slots_ok : slots_ok site.
Proof.
  split; simpl.
  - intros i s [<- <-]%lookup_singleton_Some. unfold slot_ok, slot_valid. simpl. lia.
  - intros i j a b [<- <-]%lookup_singleton_Some [<- <-]%lookup_singleton_Some. done.
  - intros i Hi. by rewrite lookup_singleton_ne by lia.
Qed.

Lemma site_tariff_ids i : next_id site <= i → tariffs site !! i = None.
Proof. simpl. intros Hi. by rewrite lookup_singleton_ne by lia. Qed.

Lemma tariff_slots_exclusive_witness :
  let d' := com (run_request (run_op morning site_operator 0) (world_of site)).2 in
  slots_ok d' ∧
  ∀ tid l t, slots_of d' tid ≡ₚ l →
    (slot_rate_and_bound (slots_of d' tid) t).1 = (slot_rate_and_bound l t).1.
Proof.
  apply (tariff_slots_exclusive morning site_operator 0 (world_of site));
    [reflexivity | exact site_slots_ok | exact site_tariff_ids].
Defined.

Lemma tariff_edit_forward_only_witness :
  let d := site in
  let d' := com (run_request (run_op (DeleteTariff 4) site_operator 0) (world_of site)).2 in
  users d' = users d ∧ ledger d' = ledger d ∧
  (∀ sid s, sessions d !! sid = Some s → ∃ s', sessions d' !! sid = Some s' ∧
     (∀ e, session_cost s' e = session_cost s e) ∧
     (s' ≠ s → is_active s = true ∧ Some (ChargingSession.tenant_id s) = User.tenant_id site_operator)) ∧
  (∀ i t, tariffs d !! i = Some t → Some (Tariff.tenant_id t) ≠ User.tenant_id site_operator →
     tariffs d' !! i = Some t ∧
     ∀ j s, slots d !! j = Some s → TariffSlot.tariff_id s = i → slots d' !! j = Some s).
Proof.
  apply (tariff_edit_forward_only (DeleteTariff 4) site_operator 0 (world_of site));
    [reflexivity | exact site_slots_ok | exact site_tariff_ids].
Defined.

(** The window is accepted once; the same window again clashes; deleting the
    tariff takes its slots along and unlinks the tenant's default. *)
Example slot_requests :
  let run op w := run_request (run_op op site_operator 0) w in
  let '(r1, w1) := run morning (world_of site) in
  let '(r2, w2) := run morning w1 in
  let '(r3, w3) := run (DeleteTariff 4) w2 in
  (r1, r2, r3) = (Ok tt, Raise (HTTPException 409 "That window overlaps an existing slot"), Ok tt) ∧
  (size (slots (com w1)), size (slots (com w3))) = (2%nat, 0%nat) ∧
  (Tenant.default_tariff_id <$> tenants (com w3) !! 1) = Some None.
Proof. vm_compute. repeat split. Qed.

(** [validate_slot_window] takes no lock and no constraint backs it: two requests
    that both validate before either inserts leave two slots in force at once, and
    the price at 10:30 then depends on which row is read first. *)
Theorem concurrent_slots_overlap :
  let a := slot_request 480 720 3 in
  let b := slot_request 480 720 9 in
  let w := world_of site in
  let valid r := (validate_slot_window 4 (sc_start_min r) (sc_end_min r) (sc_days_mask r) None w).1 in
  let d' := com ((_ ← insert_slot 4 a; commit;; _ ← insert_slot 4 b; commit) w).2 in
  let at_1030 := (10 * 60 + 30) * MINUTE in
  valid a = Ok tt ∧ valid b = Ok tt ∧
  match slots d' !! 100, slots d' !! 101 with
  | Some sa, Some sb =>
      (slot_rate_and_bound [sa; sb] at_1030).1 ≠ (slot_rate_and_bound [sb; sa] at_1030).1
  | _, _ => False
  end.
Proof. vm_compute. repeat split. discriminate. Qed.

(** ** Rate limits *)

(** Three attempts a minute: the fourth is refused, and allowed a minute after the
    first; another key is not concerned. *)
Definition attempts_of_a_minute : list call :=
  [Check "a" (fint 0); Check "a" (fint 10); Check "a" (fint 20); Check "a" (fint 30);
   Check "b" (fint 30); Check "a" (fint 60); Reset "a"; Check "a" (fint 61)]%string.

Lemma limiter_refines_witness :
  let '(allowed, _) := run_limiter (new_limiter 3 (fint 60) 0) attempts_of_a_minute in
  let '(spec_allowed, g) := run_spec 3 (fint 60) [] attempts_of_a_minute in
  allowed = spec_allowed ∧
  ∀ key now, ends 0 attempts_of_a_minute <= now → attempts (fint 60) key now g <= 3.
Proof. apply (limiter_refines 3 (fint 60) 0 attempts_of_a_minute); vm_compute; repeat split; discriminate. Defined.

Example fourth_refused :
  (run_limiter (new_limiter 3 (fint 60) 0) attempts_of_a_minute).1
  = [true; true; true; false; true; true; true].
Proof. vm_compute. reflexivity. Qed.

Example addresses :
  map (λ f, client_ip_from_forwarded 2 f (Some "10.0.0.1"%string))
    ["6.6.6.6, 1.2.3.4, 172.18.0.2"; "1.2.3.4,172.18.0.2"; "1.2.3.4"; ""]%string
  = ["1.2.3.4"; "1.2.3.4"; "10.0.0.1"; "10.0.0.1"]%string.
Proof. vm_compute. reflexivity. Qed.
