(* ===== verification/AgentWitnesses.v ===== *)
(** * Concrete runs of the software gateway

    One plug, discovered and assigned the id 3. *)

From stdpp Require Import sorting gmap strings pretty countable.
From Stdlib Require Import Ascii.
From S2P Require Import PyString PushGuard PyFormat P110 Klap Simulator.
From S2P Require Import Prelude Rounding PyNum Money Models Slots Config Billing.
From S2P Require Import TelemetryStore World Hoare PyJson Wallet Caps Pricing Lifecycle.
From S2P Require Import Ownership SessionStart Alarms Telemetry Agent Witnesses.
From S2P Require Import SessionWitnesses.

#[local] Existing Instance default_config.
#[local] Instance no_str : PyStr := λ _, ""%string.

Definition after (l : list event) : agent := foldl (λ a e, step e a) (fresh_agent (fint 10)) l.

Lemma reachable_after l : reachable (after l).
Proof.
  unfold after. assert (H0 : reachable (fresh_agent (fint 10))) by (constructor; by apply flit_nonneg).
  revert H0. generalize (fresh_agent (fint 10)). induction l as [|e l IH]; intros a Ha; [done|].
  simpl. apply IH. by constructor.
Qed.

Definition reads (watts kwh : Z) : PlugState := mkstate true (fint watts) (fint kwh) (fint 230) 0.
(** 2 kWh, 1 hour. *)
Definition on_command : payload :=
  [("action", J (JStr "ON")); ("max_kwh", J (JFloat (fint 2)));
   ("max_duration_seconds", J (JInt 3600)); ("session_id", J (JStr "100"))]%string.
Definition begin_run (power_ok : bool) (read : option PlugState) : list event :=
  [Discovered ["kasa:1"]; Assignment [("kasa:1", J (JInt 3))]; Command 3 on_command power_ok read 0]%string.
Definition charging : agent := after (begin_run true (Some (reads 0 100))).

Definition charging_session : session :=
  match running 3 charging with Some s => s | None => mksession false 0 0 "" None None None None 0 false end.

Lemma charging_running : running 3 charging = Some charging_session.
Proof. vm_compute. reflexivity. Qed.

Lemma watchdog_enforces_witness :
  ∃ max_kwh max_duration start,
    s_max_kwh charging_session = Some max_kwh ∧ s_max_duration_s charging_session = Some max_duration ∧
    s_start_ts charging_session = Some start ∧
  let st := reads 7000 103 in
  let s' := (observe st (fint 60) (poll_s charging) charging_session).1 in
  let frame := OutTelemetry (telemetry_frame 3 st (energy s') "occupied" (s_session_id charging_session)) in
  let a' := step PollEnd (step (PollBegin 3 st true (fint 60)) charging) in
  match float_of_int max_duration with
  | Ok limit =>
      halted a' = false ∧
      let timed_out := limit <=? fsub (fint 60) start in
      if timed_out || reaches (energy s') max_kwh then
        running 3 a' = None ∧ (true = true → relays a' !! 3 = Some false) ∧
        sent a' = sent charging ++
          [frame; OutAlarm (cutoff_alarm 3 (if timed_out then DURATION_LIMIT else ENERGY_LIMIT))]
      else running 3 a' = Some s' ∧ relays a' = relays charging ∧ sent a' = sent charging ++ [frame]
  | Raise _ =>
      2 ^ 53 < Z.abs max_duration ∧ halted a' = true ∧
      running 3 a' = Some s' ∧ relays a' = relays charging ∧ sent a' = sent charging
  end.
Proof.
  apply (watchdog_enforces charging 3 (reads 7000 103) true (fint 60) charging_session);
    [apply reachable_after | exact charging_running | by apply flit_is_float
    | exists "kasa:1"%string; vm_compute; reflexivity | vm_compute; reflexivity..].
Defined.

Lemma agent_energy_forward_witness :
  ∃ s, running 3 charging = Some s ∧
    energy s <= energy (observe (reads 7000 101) (fint 60) (poll_s charging) charging_session).1 ∧
    s_session_id (observe (reads 7000 101) (fint 60) (poll_s charging) charging_session).1 = s_session_id s ∧
    s_start_ts (observe (reads 7000 101) (fint 60) (poll_s charging) charging_session).1 = s_start_ts s.
Proof.
  apply (agent_energy_forward charging (PollBegin 3 (reads 7000 101) true (fint 60)) 3);
    [apply reachable_after | intros [] | vm_compute; reflexivity].
Defined.

Lemma agent_protocol_witness :
  let w := world_of site_charging in
  let d' := com (run_request (handle_gateway_alarm "gw" (cutoff_alarm 3 ENERGY_LIMIT) (seconds 60)) w).2 in
  parse_frame (telemetry_frame 3 (reads 7000 103) (fint 3) "occupied" "100") =
    Ok (Some (read_frame 3 (reads 7000 103) (fint 3) "occupied" "100")) ∧
  idle d' 3 ∧ db_ok d' ∧ within_gateway "gw" site_charging d'.
Proof.
  apply (agent_protocol "gw" site_gateway 1 3 (reads 7000 103) (fint 3) "occupied" "100" ENERGY_LIMIT
           (seconds 60) (world_of site_charging));
    [reflexivity | exact site_charging_ok | exists (site_plug <| Plug.status := OCCUPIED |>); split; vm_compute; reflexivity | reflexivity
    | reflexivity | vm_compute; reflexivity].
Defined.

(** ** Where the relay escapes the agent

    A cutoff whose OFF the plug does not obey ends the session all the same: the
    relay stays on, the next polls report a free plug with 0 kWh, and nothing
    switches it off again. *)
Theorem failed_cutoff_forgotten :
  let a := watchdog_and_publish 3 (reads 7000 103) false (fint 60) charging in
  let b := watchdog_and_publish 3 (reads 7000 110) true (fint 600) a in
  (running 3 a, relays a !! 3, running 3 b, relays b !! 3) = (None, Some true, None, Some true) ∧
  last (sent b) = Some (OutTelemetry (telemetry_frame 3 (reads 7000 110) 0 "available" "")).
Proof. vm_compute. split; reflexivity. Qed.

(** An ON whose state cannot be read afterwards, or whose limits are not numbers,
    leaves the relay on without a session: no limit is enforced and every poll
    reports a free plug with 0 kWh. *)
Theorem unread_on_unwatched :
  let a := after (begin_run true None ++ [PollBegin 3 (reads 7000 150) true (fint 99999)]) in
  (running 3 a, relays a !! 3) = (None, Some true) ∧
  last (sent a) = Some (OutTelemetry (telemetry_frame 3 (reads 7000 150) 0 "available" "")).
Proof. vm_compute. split; reflexivity. Qed.

(** A SET_LIMITS with an absurd duration is taken; the next poll dies of it, with
    the plug on and its energy limit passed, and no later poll happens. *)
Theorem absurd_duration_stops_polling :
  let relimit := [("action", J (JStr "SET_LIMITS")); ("max_duration_seconds", J (JInt (10 ^ 400)))]%string in
  let over := PollBegin 3 (reads 7000 150) true (fint 60) in
  let a := after (begin_run true (Some (reads 0 100)) ++ [Command 3 relimit true None 0; over; PollEnd]) in
  (halted a, relays a !! 3, step over a) = (true, Some true, a) ∧ sent a = sent charging.
Proof. vm_compute. split; reflexivity. Qed.

(** After a meter reset the reported energy stands still until the new readings
    have caught up: 3 kWh of 5 are never reported. *)
Example reset_loses_energy :
  let s0 := mksession true (fint 100) 0 "x" None None None None 0 true in
  let s1 := (monotonic_session_kwh s0 (fint 103)).1 in
  let s2 := (monotonic_session_kwh s1 0).1 in
  map (λ s, (monotonic_session_kwh s2 s).2) [fint 1; fint 2; fint 4] = [fint 3; fint 3; fint 4].
Proof. vm_compute. reflexivity. Qed.

(** A restart of the ON, a lower limit, an unknown plug. *)
Example commands :
  let relimit k := [("action", J (JStr "set_limits")); ("max_kwh", J (JInt k))]%string in
  let a := after (begin_run true (Some (reads 0 100)) ++ [Command 3 (relimit 1) true None 0]) in
  let b := step (Command 9 on_command true (Some (reads 0 0)) 0) a in
  (match running 3 a with Some s => s_max_kwh s | None => None end) = Some (PFloat (fint 1)) ∧ b = a.
Proof. vm_compute. split; reflexivity. Qed.

(** ** The software gateway on concrete runs

    A full table that a roster replaces, a session that a watchdog ends, and a
    scheduled reset in the tick of the limit. *)

Module Simulated.
Import Simulator.
#[local] Instance plain_str : PyStr := λ v, match v with J (JStr s) => s | _ => ""%string end.

Definition bench : GatewayConfig :=
  mkgateway_config (fint 5) (fint 7000) (fint 230) 0 (flit 95 100) 0 ∅ {[ 2 := (fint 3600, 0) ]} (Some (2, "192.168.0.9"%string))
    "1.0-sim" 0.

Definition four_rows : list (Z * string * option float) :=
  [(11, "10.0.0.1"%string, Some (fint 10)); (12, "10.0.0.2"%string, None); (13, "10.0.0.3"%string, None);
   (14, "10.0.0.4"%string, Some (fint 6))].

Definition booted : gateway := on_connect bench (boot bench 0).

(** Its own plug of the bench fills the table, and the fourth is refused at first. *)
Example table_full : let g := (apply_roster bench (roster_payload four_rows) 0 booted).2 in
  dom (slots g) = {[ 2; 11; 12; 13 ]} ∧ LogLine "W" (TableFull 14) ∈ published g.
Proof. split; [by vm_compute|]. apply list_elem_of_In. vm_compute. tauto. Qed.

Lemma roster_converges_witness :
  let sent now g := (apply_roster bench (roster_payload four_rows) now g).2 in
  let g := sent (fint 5) (reap_pending (sent 0 booted)) in
  dom (slots g) = {[ 11; 12; 13; 14 ]} ∧
  Forall (λ row, ∃ p, slots g !! row.1.1 = Some p ∧ slot_of row p) four_rows.
Proof.
  destruct (roster_converges bench four_rows booted 0 (fint 5)) as [H1 H2].
  - by vm_compute.
  - repeat (apply Forall_cons_2; [done|]). by apply Forall_nil_2.
  - by apply (bool_decide_unpack _); vm_compute.
  - by apply (bool_decide_unpack _); vm_compute.
  - split; [|exact H2]. etransitivity; [exact H1|by vm_compute].
Defined.

(** Switched on for a hundredth of a unit: at seven kilowatts that lasts six seconds. *)
Definition on_payload : payload :=
  [("action", J (JStr "on")); ("session_id", J (JStr "7")); ("max_kwh", J (JFloat (flit 1 100)))]%string.
Definition charging_plug : gateway :=
  step bench (Message "amphive/gateways/gw/plugs/2/commands" (Some on_payload) (fint 10)) booted.

Definition statuses (g : gateway) : list value :=
  omap (λ m, match m with Frame f => Some (vget_none "status" f) | _ => None end) (published g).
Definition turn (s : Z) : event := Turn 2 (fint s) (fint s) 0.
Definition run_of (g : gateway) (l : list event) : gateway := foldl (λ g e, step bench e g) g l.

Example energy_trips : let g := run_of charging_plug [turn 13; turn 16; turn 18] in
  statuses g = [J (JStr "occupied"); J (JStr "occupied"); J (JStr "available")]%string ∧
  last (published (run_of charging_plug [turn 13; turn 16])) = Some (LogLine "E" (FromTick 2 (Tripped EnergyReached))).
Proof. by vm_compute. Qed.

(** After an hour the scheduled reset falls in the tick of the limit, and hides it. *)
Example reset_in_time : let g := run_of charging_plug [turn 3600] in
  last (published g) = Some (LogLine "E" (FromTick 2 ResetFired)) ∧
  (session_active <$> slots g !! 2) = Some true ∧ (session_kwh <$> slots g !! 2) = Some 0.
Proof. by vm_compute. Qed.

(** New limits do not end it, nor does a roster without it. *)
Example kept : let g := run_of charging_plug [turn 13;
    Message "amphive/gateways/gw/config" (Some (roster_payload [])) (fint 14); Reap;
    Message "amphive/gateways/gw/plugs/2/commands" (Some [("action", J (JStr "set_limits")); ("max_kwh", J (JFloat (fint 1)))]%string) (fint 15);
    turn 16] in
  (session_active <$> slots g !! 2) = Some true ∧ (session_id <$> slots g !! 2) = Some "7"%string.
Proof. by vm_compute. Qed.
End Simulated.

(** ** KLAP on concrete runs

    A crypto that satisfies [KlapLaws] (and hides nothing), a probe that connects and
    switches a plug on, and one that does not know the account. *)

Module Handshakes.
Import World PyString PyJson PushGuard PyFormat P110 Klap.
#[local] Open Scope string_scope.

(** ** A stand-in for the libraries *)

Fixpoint tree_of (j : json) : gen_tree (string + Z) :=
  match j with
  | JNull => GenNode 0 []
  | JBool b => GenNode 1 [GenLeaf (inr (if b then 1%Z else 0%Z))]
  | JInt n => GenNode 2 [GenLeaf (inr n)]
  | JFloat x => GenNode 3 [GenLeaf (inr x)]
  | JStr s => GenNode 4 [GenLeaf (inl s)]
  | JArr l => GenNode 5 (map tree_of l)
  | JObj kvs => GenNode 6 (map (λ kv, GenNode 7 [GenLeaf (inl kv.1); tree_of kv.2]) kvs)
  end.

Fixpoint json_of (t : gen_tree (string + Z)) : json :=
  match t with
  | GenNode 1 [GenLeaf (inr n)] => JBool (Z.eqb n 1)
  | GenNode 2 [GenLeaf (inr n)] => JInt n
  | GenNode 3 [GenLeaf (inr x)] => JFloat x
  | GenNode 4 [GenLeaf (inl s)] => JStr s
  | GenNode 5 l => JArr (map json_of l)
  | GenNode 6 l => JObj (map (λ t, match t with GenNode 7 [GenLeaf (inl k); v] => (k, json_of v) | _ => ("", JNull) end) l)
  | _ => JNull
  end.

Lemma json_of_tree j : json_of (tree_of j) = j.
Proof.
  revert j. fix IH 1. intros [|[]|n|x|s|l|kvs]; simpl; try reflexivity; f_equal.
  - induction l as [|j l IHl]; [reflexivity|]. simpl. by rewrite IH, IHl.
  - induction kvs as [|[k v] kvs IHl]; [reflexivity|]. simpl. by rewrite IH, IHl.
Qed.

Fixpoint copies (c : ascii) (k : nat) : string := match k with O => "" | S k => String c (copies c k) end.

Definition pad_to (s : string) : string :=
  let k := (16 - String.length s mod 16)%nat in s +:+ copies (ascii_of_nat k) k.
Definition unpad (s : string) : option string :=
  let n := String.length s in
  c ← String.get (n - 1) s; Some (String.substring 0 (n - nat_of_ascii c) s).

#[local] Instance toy : KlapCrypto := {
  sha1 := String.rev;
  sha256 := λ s, String.substring 0 32 (String.rev s +:+ zeros 32);
  md5 := λ s, s;
  aes_cbc_encrypt := λ _ _ s, s;
  aes_cbc_decrypt := λ _ _ s, s;
  pkcs7_pad := pad_to;
  pkcs7_unpad := unpad;
  json_dumps := λ j, pretty (Z.pos (encode (tree_of j)));
  json_loads := λ s, match decode (Z.to_pos (digits_value 0 s)) with Some t => Loaded (json_of t) | None => NotJson end }.

Lemma copies_length c (k : nat) : String.length (copies c k) = k.
Proof. induction k as [|k IH]; [done|]. simpl. by rewrite IH. Qed.

Lemma copies_last c s (k : nat) : String.get (String.length s + k) (s +:+ copies c (S k)) = Some c.
Proof.
  induction s as [|a s IH]; [|exact IH]. change ("" +:+ copies c (S k)) with (copies c (S k)). simpl String.length.
  induction k as [|k IH]; [done|]. exact IH.
Qed.

Lemma pad_facts s : (String.length (pad_to s) mod 16 = 0)%nat ∧ unpad (pad_to s) = Some s.
Proof.
  unfold pad_to. pose proof (Nat.mod_upper_bound (String.length s) 16 ltac:(lia)) as Hm.
  pose proof (Nat.div_mod (String.length s) 16 ltac:(lia)) as Hd.
  remember (16 - String.length s mod 16)%nat as k eqn:Hk. split.
  - rewrite length_append, copies_length. replace (String.length s + k)%nat with (0 + (String.length s / 16 + 1) * 16)%nat by lia.
    by rewrite Nat.Div0.mod_add.
  - unfold unpad. rewrite length_append, copies_length. destruct k as [|k]; [lia|].
    replace (String.length s + S k - 1)%nat with (String.length s + k)%nat by lia. rewrite copies_last. simpl.
    rewrite nat_ascii_embedding by lia. replace (String.length s + S k - S k)%nat with (String.length s) by lia.
    by rewrite substring_front.
Qed.

#[local] Instance toy_laws : KlapLaws.
Proof.
  split; simpl.
  - intros s. apply substring_length. rewrite length_append. simpl. lia.
  - intros s. apply pad_facts.
  - intros s. apply pad_facts.
  - done.
  - done.
  - intros j _. destruct (pretty_facts (Z.pos (encode (tree_of j)))) as (_ & -> & _); [lia|].
    simpl. by rewrite decode_encode, json_of_tree.
Qed.

(** ** A run *)

Definition bench_plug : PlugConfig :=
  mkplug_config 1 "127.0.0.1" (fint 1500) 0 (fint 230) (flit 95 100) (fint 2) 0 None 0 None.
Definition a_device : device := mkdevice "0123456789ABCDEF0123456789ABCDEF" "AA:BB:CC:00:00:01" "" "".
Definition account : string := auth_hash "me@example.com" "secret".
Definition fresh_server : server := mkserver (new_plug bench_plug None 0 0) ∅ ∅ ∅.
Definition at_second (t : Z) : chance :=
  mkchance false (fint t) (fint t) 0 (mkdraws 0 0 "") "0123456789abcdef" "c0ffee".

Definition seed : string := "fedcba9876543210".
Definition post (t : Z) (rq : request) (sv : server) : option response * server :=
  do_POST bench_plug a_device account (at_second t) rq sv.

(** The probe's side of a whole exchange: the statuses, and the relay at the end. *)
Definition connect (email pw : string) : option (probe * server) :=
  let '(r1, sv) := post 1 (mkrequest "/app/handshake1" seed None None) fresh_server in
  r1 ← r1; token ← set_cookie r1;
  '(remote, auth, body) ← read_handshake1 email pw seed r1;
  let '(r2, sv) := post 2 (mkrequest "/app/handshake2" body (cookie_of token) None) sv in
  r2 ← r2; if Z.eqb (status r2) 200 then Some (start_probe seed remote auth token, sv) else None.

Definition ask (t : Z) (method : string) (params : option json) (x : probe * server) : option (json * (probe * server)) :=
  '(body, pb) ← klap_encrypt (json_dumps (inner method params)) x.1;
  let '(r, sv) := post t (mkrequest "/app/request" body (cookie_of (pb_token pb)) (Some (pb_seq pb))) x.2 in
  r ← r; s ← klap_decrypt (content r) pb;
  match json_loads s with Loaded j => Some (j, (pb, sv)) | _ => None end.

Definition turn_on : option json := Some (JObj [("device_on", JBool true)]).

(** Switched on for an hour: 1.5 kWh more. *)
Example probe_run : ∃ x y z,
  connect "me@example.com" "secret" = Some x ∧
  ask 3 "set_device_info" turn_on x = Some (answer (JObj [("response", JStr "")]), y) ∧
  device_on (the_plug y.2) = true ∧
  ask 3603 "get_current_power" None y = Some (answer (JObj [("current_power", JInt 1500000)]), z) ∧
  round_int (today_energy_wh (the_plug z.2)) = 3500%Z.
Proof.
  eexists _, _, _. split; [vm_compute; reflexivity|]. split; [vm_compute; reflexivity|]. split; [vm_compute; reflexivity|].
  split; [vm_compute; reflexivity|]. vm_compute; reflexivity.
Qed.

Example wrong_password : connect "me@example.com" "guess" = None.
Proof. vm_compute. reflexivity. Qed.

(** Without a session every request is refused, whatever it says. *)
Example no_session : (post 1 (mkrequest "/app/request" (json_dumps (inner "set_device_info" turn_on)) (Some "TP_SESSIONID=c0ffee") (Some 1%Z))
  fresh_server).1 = Some (reply 403).
Proof. vm_compute. reflexivity. Qed.

Lemma probe_connects_witness :
  let '(r1, sv1) := post 1 (mkrequest "/app/handshake1" seed None None) fresh_server in
  ∃ resp remote_seed body, r1 = Some resp ∧ set_cookie resp = Some "c0ffee" ∧
    read_handshake1 "me@example.com" "secret" seed resp = Some (remote_seed, account, body) ∧
  let '(r2, sv2) := post 2 (mkrequest "/app/handshake2" body (cookie_of "c0ffee") None) sv1 in
  r2 = Some (reply 200) ∧ quiet sv2 ∧ linked (start_probe seed remote_seed account "c0ffee") sv2.
Proof.
  apply (probe_connects bench_plug a_device account "me@example.com" "secret" seed (at_second 1) (at_second 2) fresh_server); try done.
Defined.
End Handshakes.
