(* ===== verification/AccountWitnesses.v ===== *)
(** * Accounts: concrete inputs and two attacks

    A cryptography that is enough to evaluate the routes: a hash that shows its
    password, tokens that are the encoded claims. *)

From stdpp Require Import pretty.
From S2P Require Import Prelude Rounding PyNum Money Models Slots Config RateLimit TelemetryStore.
From S2P Require Import World Hoare PyString PyJson Auth Wallet Caps Pricing Lifecycle Ownership.
From S2P Require Import Accounts AccountClosure AccountSafety SignIn SessionStart Witnesses.

#[local] Existing Instance default_config.

Definition plain_encode (c : claims) : string := pretty (Z.pos (encode (sub c, tv c, exp c))).
Definition plain_decode (now : Z) (token : string) : option token_payload :=
  n ← int_of_str token;
  '(s, v, e) ← @decode (string * Z * Z) _ _ (Z.to_pos n);
  if now <? e then Some (mkpayload (Some s) (Some v)) else None.

#[local] Instance plain_crypto : Crypto := {|
  bcrypt_hashpw := λ password _, Some ("#" +:+ password);
  bcrypt_checkpw := λ password h, Some (String.eqb h ("#" +:+ password));
  sha256_hexdigest := id;
  jwt_encode := plain_encode;
  jwt_decode := plain_decode |}.

Lemma plain_decode_encode now c :
  plain_decode now (plain_encode c) =
  if now <? exp c then Some (mkpayload (Some (sub c)) (Some (tv c))) else None.
Proof.
  unfold plain_decode, plain_encode. rewrite int_of_str_pretty by lia. simpl.
  by rewrite decode_encode.
Qed.

#[local] Instance plain_laws : CryptoLaws.
Proof.
  split.
  - intros password salt h [= <-]. simpl. by rewrite String.eqb_refl.
  - intros now c. simpl. rewrite plain_decode_encode. destruct (now <? exp c); auto.
  - intros now c Hl. simpl. rewrite plain_decode_encode. unfold seconds in Hl.
    by rewrite (proj2 (Z.ltb_lt _ _)) by lia.
Qed.

Definition holder : User.t := site_driver <| User.hashed_password := "#correct horse" |>.
Definition reset_row : PasswordResetToken.t := PasswordResetToken.mk 1 "link" (minutes 30) None.
Definition houses : db :=
  site <| users := {[1 := holder]} |> <| reset_tokens := {[9 := reset_row]} |>.

Lemma houses_accounts : accounts_ok houses.
Proof.
  split; simpl; intros; site_rows; try done; try lia.
  - rewrite lookup_singleton_ne; [done | lia].
  - destruct k; simpl in *; [rewrite lookup_singleton_ne; [done | lia] | by apply lookup_empty].
  - destruct k; simpl in *; site_rows; done.
Qed.

Lemma houses_ok : db_ok houses.
Proof.
  split; [split; [split|..]|..]; simpl; intros; site_rows; try done.
  rewrite lookup_singleton_ne; [done | lia].
Qed.

Lemma houses_sound : sound (world_of houses).
Proof. split; [done | apply houses_accounts | apply houses_ok]. Qed.

Definition bearer : string := issued 1 holder 0.

Lemma bearer_out : handed_out 1 bearer houses.
Proof. split; [by eexists|]. by exists DRIVER, "d@example.org"%string, 0, 0. Qed.

Lemma revocation_final_witness :
  refused bearer (seconds 5) (served (Logout bearer 0) (world_of houses)).
Proof.
  apply (revocation_final 1 bearer (seconds 5) (Logout bearer 0) (world_of houses) (world_of houses)).
  - apply houses_sound.
  - apply bearer_out.
  - constructor.
  - exists holder. vm_compute. reflexivity.
  - vm_compute. reflexivity.
  - constructor.
Defined.

(** From nothing: an account is registered, its email verified, its password
    reset, and it is closed. *)
Definition life : list request := [
  Register "New@example.org" "a password" "N" "" "vtok" 0; VerifyEmail "vtok" (seconds 60);
  ForgotPassword "new@example.org" "rtok" (seconds 70) 0; ResetPassword "rtok" "another password" "" (seconds 80);
  DeleteAccount (create_access_token 1 DRIVER "new@example.org" 2 (seconds 80)) "DELETE MY ACCOUNT"
    (Some "another password"%string) "unguessable" "" (seconds 90)].

Lemma requests_sound_witness :
  let w := serve_all life (world_of empty_db) in
  sound w ∧ grown empty_db (cur w) ∧ User.email <$> users (cur w) !! 1 = Some (tombstone_email 1).
Proof.
  cbv zeta. assert (H0 : sound (world_of empty_db)).
  { split; [done|..]; repeat split; simpl; intros; try destruct k; simplify_map_eq; done. }
  destruct (requests_sound life (world_of empty_db) H0) as [Hs Hg].
  split; [exact Hs|]. split; [exact Hg|]. vm_compute. reflexivity.
Defined.

Lemma login_correct_witness :
  is_ok (login " D@Example.org" "correct horse" 0 0 (world_of houses)).1 = true ∧
  (run_request (login " D@Example.org" "wrong" 0 0) (world_of houses)).1 =
    Raise (HTTPException 401 "Invalid email or password.").
Proof.
  split; [vm_compute; reflexivity|].
  pose proof (login_correct " D@Example.org" "wrong" 0 0 (world_of houses) houses_sound) as H.
  assert (Ha : account_of (normalize_email " D@Example.org") houses = Some (1, holder))
    by (vm_compute; reflexivity).
  cbv zeta in H. simpl cur in H. rewrite Ha in H. destruct (run_request _ _) as [out w'].
  destruct H as (_ & H & _). exact H.
Defined.

Lemma reset_password_once_witness :
  let '(out, w') := run_request (reset_password "link" "a new password" "" 0) (world_of houses) in
  out = Ok tt ∧ is_400 (run_request (reset_password "link" "another one" "" 1) w').1.
Proof.
  pose proof (reset_password_once "link" "a new password" "" 0 (world_of houses) houses_sound) as H.
  assert (Hout : (run_request (reset_password "link" "a new password" "" 0) (world_of houses)).1 = Ok tt)
    by (vm_compute; reflexivity).
  destruct (run_request _ _) as [out w']. simpl in Hout. subst out. split; [done|].
  destruct H as (i & t & h & _ & _ & _ & _ & _ & _ & H). apply H.
Defined.

Lemma link_requests_blind_witness :
  let '(out, w') := run_request (forgot_password "nobody@example.org" "t" 0 0) (world_of houses) in
  let '(out2, w2) := run_request (forgot_password "d@example.org" "t" 0 0) (world_of houses) in
  out = out2 ∧ out = Ok tt.
Proof.
  assert (Hf : fresh_token Reset "t" houses ∧ fresh_token Verification "t" houses).
  { split; intros i t Ht; simpl in Ht; site_rows; done. }
  destruct (link_requests_blind "nobody@example.org" "t" 0 0 (world_of houses) houses_sound
    (proj1 Hf) (proj2 Hf)) as [H1 _].
  destruct (link_requests_blind "d@example.org" "t" 0 0 (world_of houses) houses_sound
    (proj1 Hf) (proj2 Hf)) as [H2 _].
  destruct (run_request (forgot_password "nobody@example.org" "t" 0 0) _) as [out w'].
  destruct (run_request (forgot_password "d@example.org" "t" 0 0) _) as [out2 w2].
  destruct H1 as [-> _], H2 as [-> _]. split; vm_compute; reflexivity.
Defined.

(** The driver signs in with Google for the first time. *)
Definition identity : google_claims := mkgoogle true (Some "D@example.org") (Some "g-42") None.
Definition callback : M google_response :=
  google_callback true (Some "state") (Some "state") (Some "code") (Some (Some "jwt"))
    (λ _, Some identity) "unguessable" "" "nonce" "exchange code" 0 0.

Lemma google_callback_correct_witness :
  ∃ uid u w', run_request callback (world_of houses) = (Ok (GoogleRedirect "exchange code" "nonce"), w') ∧
    users (com w') !! uid = Some u ∧
    google_owner "d@example.org" "g-42" "unguessable" uid (world_of houses) u.
Proof.
  pose proof (google_callback_correct true (Some "state") (Some "state") (Some "code") (Some (Some "jwt"))
    (λ _, Some identity) "unguessable" "" "nonce" "exchange code" 0 0 (world_of houses) houses_sound)%string as H.
  fold callback in H. unfold callback in *.
  destruct (run_request _ _) as [out w'] eqn:Hrun.
  assert (Hout : (out, w').1 = Ok (GoogleRedirect "exchange code" "nonce")) by (rewrite <- Hrun; vm_compute; reflexivity).
  simpl in Hout. subst out. destruct H as (_ & _ & state & id_token & claims & email & sub & uid & u & _ & _ & _ & Hc & _ & He & Hs & Hu & _ & Hown & _).
  injection Hc as <-. unfold given_is in He, Hs. simpl in He, Hs. injection He as <-. injection Hs as <-.
  exists uid, u, w'. split; [done|]. split; [done|]. exact Hown.
Defined.

Lemma close_account_correct_witness :
  let '(out, w') := run_request
    (delete_my_account bearer " DELETE MY ACCOUNT " (Some "correct horse") "unguessable" "" 0) (world_of houses) in
  out = Ok 10000 ∧ nothing_personal 1 (com w') ∧ db_ok (com w').
Proof.
  pose proof (close_account_correct bearer " DELETE MY ACCOUNT " (Some "correct horse"%string) "unguessable" "" 0
    (world_of houses) eq_refl houses_accounts houses_ok) as H.
  destruct (run_request _ _) as [out w'] eqn:Hrun.
  assert (Hout : (out, w').1 = Ok 10000) by (rewrite <- Hrun; vm_compute; reflexivity).
  simpl in Hout. subst out. destruct H as (uid & u & h & Hmay & Hf & _ & _ & _ & _ & Hnp & _ & _ & _ & Hok).
  assert (uid = 1) as ->.
  { destruct Hmay as (_ & Hu & _). simpl in Hu. by site_rows. }
  split; [reflexivity|]. split; [exact Hnp | exact Hok].
Defined.

(** The first link with Google writes an epoch that it counted before other
    requests ran: two logouts in between, and the token that the second one ended
    works again. *)
Theorem link_revives_token :
  let w0 := world_of houses in
  let token := create_access_token 1 DRIVER "d@example.org" 1 (seconds 2) in
  let w2 := served (Logout token (seconds 3)) (served (Logout bearer (seconds 1)) w0) in
  let w3 := (run_request (link_store 1 holder "google-1" "unguessable" "") w2).2 in
  users (cur w0) !! 1 = Some holder ∧ refused token (seconds 4) w2 ∧
  is_ok (run_request (get_current_user token (seconds 4)) w3).1 = true.
Proof.
  cbv zeta. split; [vm_compute; reflexivity|]. split; [|vm_compute; reflexivity].
  eexists. vm_compute. reflexivity.
Qed.

(** ** An account registered by somebody else

    The owner of an email who follows the link of a registration that was not
    theirs makes the account usable with the password of whoever registered. *)

Definition strangers_registration : request :=
  Register "Victim@example.org" "stranger's password" "V" "" "vtok" 0.

Lemma verified_with_strangers_password :
  let w1 := served strangers_registration (world_of houses) in
  let w2 := served (VerifyEmail "vtok" (seconds 60)) w1 in
  (login "victim@example.org" "stranger's password" 0 0 w1).1 =
    Raise (HTTPException 403 "Please verify your email address.") ∧
  is_ok (login "victim@example.org" "stranger's password" (seconds 90) 0 w2).1 = true.
Proof. split; vm_compute; reflexivity. Qed.

(** With Google instead of the link the stranger is locked out. *)
Lemma google_evicts_stranger :
  let w1 := served strangers_registration (world_of houses) in
  let claims := mkgoogle true (Some "victim@example.org") (Some "g-7") None in
  let w2 := served (GoogleCallback true (Some "s") (Some "s") (Some "c") (Some (Some "jwt")) (λ _, Some claims)
    "unguessable" "" "n" "x" 0 0)%string w1 in
  (login "victim@example.org" "stranger's password" (seconds 90) 0 w2).1 =
    Raise (HTTPException 401 "Invalid email or password.").
Proof. vm_compute. reflexivity. Qed.

(** ** A charge started while its driver's account is being closed

    [assert_closable] looks before the row lock and is not repeated under it: a
    start that commits in between keeps running on an empty wallet. *)
Lemma closure_race :
  (assert_closable 1 site_driver (world_of site)).1 = Ok tt ∧
  (λ r, (r.1, balance (com r.2) 1, held (com r.2) 1))
    (run_request (close_locked 1 "unguessable" "" 0) (world_of site_charging)) = (Ok 10000, 0, 10000).
Proof. split; vm_compute; reflexivity. Qed.

(** ** Passwords of at most 72 characters, cut at 72 bytes *)

Definition two_byte (low : Z) : string :=
  String (Ascii.ascii_of_nat 195) (String (Ascii.ascii_of_nat (Z.to_nat low)) EmptyString).
Definition accented (n : nat) (last : string) : string := Nat.iter n (String.append (two_byte 169)) last.

Lemma different_passwords_verify :
  accented 36 (two_byte 169) ≠ accented 36 (two_byte 168) ∧
  verify_password (accented 36 (two_byte 168)) ("#" +:+ password_bytes (accented 36 (two_byte 169))) = true.
Proof. split; [discriminate | vm_compute; reflexivity]. Qed.
