(* ===== verification/FleetWitnesses.v ===== *)
(** * Groups, chargers, gateways and the console: concrete inputs, and races

    The site of [Witnesses] with a second driver, two administrators, a gateway
    in stock and two firmware releases. *)

From stdpp Require Import sorting.
From S2P Require Import Prelude Rounding PyNum Money Models Slots Config Billing TelemetryStore.
From S2P Require Import World Hoare PyString PyJson Auth Wallet Commands Caps Pricing.
From S2P Require Import Reservations Lifecycle Accounts AccountClosure AccountSafety SignIn.
From S2P Require Import SessionStart Groups Plugs Versioning CsvSafe Fleet Admin.
From S2P Require Import Witnesses RouterWitnesses AccountWitnesses.

#[local] Existing Instance default_config.
#[local] Existing Instance plain_crypto.

Definition neighbour : User.t := site_driver <| User.email := "n@example.org" |>.
Definition administrator : User.t := site_driver <| User.role := ADMIN |> <| User.coin_balance := 0 |>.
Definition stock_gateway : Gateway.t := Gateway.mk None "Unclaimed" "stock" GW_OFFLINE None None None
  (Some "ABCD2345"%string) None (Some 0).
Definition old_release : FirmwareRelease.t := FirmwareRelease.mk "1.9.0" "https://fw.example.org/a.bin" None true.
Definition new_release : FirmwareRelease.t := FirmwareRelease.mk "1.10.0" "https://fw.example.org/b.bin" None true.

Definition estate : db := site
  <| users := {[1 := site_driver; 2 := neighbour; 8 := administrator; 9 := administrator]} |>
  <| gateways := {["gw"%string := site_gateway; "stock"%string := stock_gateway]} |>
  <| releases := {[1 := old_release; 2 := new_release]} |>.

Ltac estate_rows :=
  repeat match goal with
  | H : <[_ := _]> _ !! _ = Some _ |- _ => apply lookup_insert_Some in H as [[<- <-]|[? H]]
  | H : {[_ := _]} !! _ = Some _ |- _ => apply lookup_singleton_Some in H as [<- <-]
  | H : ∅ !! _ = Some _ |- _ => by rewrite lookup_empty in H
  end.

Lemma estate_groups : groups_ok estate.
Proof.
  split; simpl; intros; estate_rows; try done; by rewrite lookup_singleton_ne by lia.
Qed.

Lemma estate_listing : listing_ok estate.
Proof.
  split; [apply estate_groups| | | |unfold booked_ok|]; simpl; intros; estate_rows; try done.
  all: injection H0 as <-; by split; [|exists site_group].
Qed.

Lemma estate_fleet : fleet_ok estate.
Proof.
  split; simpl; intros; estate_rows; try done; [by destruct H0 as [[? [=]] _]| |by rewrite lookup_singleton_ne by lia].
  injection H0 as <-. by exists site_group.
Qed.

Lemma estate_catalogue : catalogue_ok estate.
Proof.
  split; simpl; intros; estate_rows; try done.
  rewrite lookup_insert_ne, lookup_singleton_ne by lia. done.
Qed.

(** ** Charger groups *)

Definition welcome : list group_request :=
  [JoinGroup 2 "CODE" 0; JoinGroup 2 "CODE" 1; LeaveGroup 1 6; RemoveMember site_operator 6 2].

Lemma group_access_refines_witness :
  let '(tr, w') := run_groups welcome (world_of estate) in
  let E := foldl grant (members estate) tr in
  Forall justified tr ∧ groups_ok (com w') ∧ members (com w') = E ∧
  ∀ plug uid, match (ensure_plug_group_access plug uid w').1 with
    | Ok _ => open_plug (com w') plug ∨ ∃ gid, Plug.group_id plug = Some gid ∧ (uid, gid) ∈ E
    | Raise e => (∃ c, e = HTTPException 403 c) ∧ ¬ open_plug (com w') plug ∧
        ∀ gid, Plug.group_id plug = Some gid → (uid, gid) ∉ E
    end.
Proof. apply (group_access_refines welcome (world_of estate)); [reflexivity | exact estate_groups]. Defined.

Example welcome_replies :
  let out r := match r with Ok x => inl x | Raise e => inr e end in
  map (λ x, out x.2) (run_groups welcome (world_of estate)).1
  = [inl (Some 6); inr (HTTPException 400 "You are already a member of this group."); inl None; inl None].
Proof. vm_compute. reflexivity. Qed.

(** Two requests to join that both pass their checks before either commits: the
    driver is a member twice, and from then on neither they nor the operator can
    end it, and looking at a plug of the group fails. *)
Theorem joined_twice :
  let w := world_of estate in
  let w' := ((join_store 2 6 0;; join_store 2 6 0) w).2 in
  (is_ok (join_check 2 "CODE" w).1, is_ok (join_check 2 "CODE" w).1) = (true, true) ∧
  (leave_group 2 6 w').1 = Raise MultipleResultsFound ∧
  (cpo_remove_group_member site_operator 6 2 w').1 = Raise MultipleResultsFound ∧
  (ensure_plug_group_access site_plug 2 w').1 = Raise MultipleResultsFound.
Proof. vm_compute. repeat split. Qed.

(** A code is matched as it was typed. *)
Example code_as_typed :
  (join_check 2 "code" (world_of estate)).1 =
  Raise (HTTPException 404 "Invalid access code. No group found.").
Proof. vm_compute. reflexivity. Qed.

(** ** Chargers *)

Lemma lists_agree_witness :
  ∃ l w1 l' w2,
    run_request (get_available_plugs 1 0) (world_of estate) = (Ok l, w1) ∧
    run_request (get_public_plugs 0) (world_of estate) = (Ok l', w2) ∧
    NoDup (map p_id l) ∧
    (∀ r, r ∈ l → (run_request (get_plug (p_id r) 1 0) (world_of estate)).1 = Ok r).
Proof.
  destruct (lists_agree 1 0 (world_of estate)) as (l & w1 & l' & w2 & H1 & H2 & H3 & H4 & _);
    [reflexivity | exact estate_listing | by exists l, w1, l', w2].
Defined.

(** The member sees the bay, the neighbour does not; it is not public. *)
Example who_sees_the_bay :
  let ids uid := match (get_available_plugs uid 0 (world_of estate)).1 with
                 | Ok l => Some (map p_id l) | _ => None end in
  (ids 1, ids 2, match (get_public_plugs 0 (world_of estate)).1 with Ok l => Some (map u_id l) | _ => None end)
  = (Some [3], Some [], Some []).
Proof. vm_compute. reflexivity. Qed.

(** ** Firmware versions *)

Lemma version_order_witness :
  version_sort_key (render 1 10 0 None) = (1, 10, 0, EmptyString) ∧
  (is_newer_version (render 1 10 0 None) (render 1 9 0 (Some "direct"%string)) = true ↔
    1 < 1 ∨ 1 = 1 ∧ (9 < 10 ∨ 9 = 10 ∧ (0 < 0 ∨ 0 = 0 ∧ String.compare EmptyString "direct" = Gt))) ∧
  is_newer_version (render 1 10 0 None) "unknown" = true ∧
  is_newer_version "unknown" (render 1 10 0 None) = false.
Proof. apply (version_order 1 10 0 None 1 9 0 (Some "direct"%string) "unknown"); (lia || vm_compute; done). Defined.

(** ** The operator's fleet *)

Definition claiming : fleet_request := ClaimGateway "abcd-2345" (Some "Roof"%string) 0.
Definition new_status (s : string) : CpoPlugUpdateRequest :=
  mkplug_update None None (Some s) None None None None None None None None.

Lemma tenant_isolation_witness :
  let '(out, w') := run_request (serve_fleet site_operator claiming) (world_of estate) in
  fleet_ok (com w') ∧ within_tenant (User.tenant_id site_operator) estate (com w') ∧
  ∃ l, evs w' = [] ++ l ∧ Forall (own_effect (User.tenant_id site_operator) estate) l.
Proof. apply (tenant_isolation site_operator claiming (world_of estate)); [reflexivity | exact estate_fleet]. Defined.

Lemma claim_final_witness :
  let w2 := run_fleet [(site_operator, Maintenance 3 "enter")]
    (run_request (cpo_claim_gateway site_operator "abcd-2345" None 0) (world_of estate)).2 in
  gateway_owner (com w2) "stock" = Some 1 ∧
  (run_request (cpo_claim_gateway site_operator "ABCD2345" None 1) w2).1 =
    Raise (HTTPException 404 "Claim code not found or already used.").
Proof.
  destruct (claim_final site_operator "abcd-2345" None 0 (world_of estate) "stock"
    (run_request (cpo_claim_gateway site_operator "abcd-2345" None 0) (world_of estate)).2
    [(site_operator, Maintenance 3 "enter")] site_operator "ABCD2345" None 1) as (_ & Ho & Hr);
    [reflexivity | exact estate_fleet | vm_compute; reflexivity |].
  split; [exact Ho | apply Hr; [vm_compute; reflexivity | by eexists]].
Defined.

(** Two operators whose requests both find the code unused: each is told the
    gateway is theirs, and it belongs to the one who wrote last. *)
Theorem claimed_twice :
  let rival := site_operator <| User.tenant_id := Some 2 |> in
  let w := world_of estate in
  let w' := ((claim_store 1 "stock" None 0;; claim_store 2 "stock" None 0) w).2 in
  (claim_check site_operator "ABCD2345" w).1 = Ok (1, "stock"%string) ∧
  (claim_check rival "ABCD2345" w).1 = Ok (2, "stock"%string) ∧
  gateway_owner (com w') "stock" = Some 2.
Proof. vm_compute. repeat split. Qed.

(** The maintenance action does not free a bay in use; the general edit does,
    under the running session. *)
Theorem edit_frees_running_plug :
  let w := world_of site_charging in
  let w' := (cpo_update_plug site_operator 3 (new_status "available") w).2 in
  (Plug.status <$> plugs (com w) !! 3, Plug.status <$> plugs (com w') !! 3) = (Some OCCUPIED, Some AVAILABLE) ∧
  (is_active <$> sessions (com w') !! 100) = Some true ∧
  (cpo_plug_maintenance site_operator 3 "clear" w).1 =
    Raise (HTTPException 409 "Cannot clear maintenance: this plug has an active charging session.").
Proof. vm_compute. repeat split. Qed.

(** ** The platform console *)

Lemma adjust_balance_correct_witness :
  let '(out, w') := run_request (admin_adjust_balance 1 (fint (-125))) (world_of site) in
  ledger_ok (com w') ∧ out = Ok 0 ∧ booked (com w') 1 = 0.
Proof.
  pose proof (adjust_balance_correct 1 (fint (-125)) (world_of site) eq_refl (wallet_ledger _ (ok_wallet _ site_ok))) as H.
  revert H. vm_compute (run_request _ _). intros [H _]. split; [exact H|]. vm_compute. done.
Defined.

(** A debit does not look at the holds: below what the running session has
    reserved, the wallet no longer covers it. *)
Theorem debit_below_hold :
  let w := world_of site_charging in
  let '(out, w') := run_request (admin_adjust_balance 1 (fint (-90))) w in
  (held (com w) 1, balance (com w) 1) = (10000, 10000) ∧
  out = Ok 1000 ∧ (held (com w') 1, balance (com w') 1) = (10000, 1000).
Proof. vm_compute. repeat split. Qed.

Definition admin_bearer (uid : Z) : string := issued uid administrator 0.
Definition demote (actor uid : Z) : admin_update :=
  mkupdate (admin_bearer actor) uid (Some "driver"%string) None 0.

Lemma admins_remain_witness :
  let w' := run_updates [demote 9 8; demote 8 9] (world_of estate) in
  (∃ uid, enabled_admin (com w') uid) ∧ re_roled_db estate (com w').
Proof.
  apply (admins_remain [demote 9 8; demote 8 9] (world_of estate)); [reflexivity|].
  exists 9, administrator. vm_compute. done.
Defined.

(** The role check precedes the handler: two administrators whose requests both
    pass it before either commits demote each other, and nobody is left. *)
Theorem mutual_demotion :
  let w := world_of estate in
  let w' := ((_ ← admin_update_user 9 8 (Some "driver") None; _ ← admin_update_user 8 9 (Some "driver") None; mret tt) w).2 in
  is_ok (require_role [ADMIN] (admin_bearer 9) 0 w).1 = true ∧
  is_ok (require_role [ADMIN] (admin_bearer 8) 0 w).1 = true ∧
  (User.role <$> users (com w) !! 8, User.role <$> users (com w) !! 9) = (Some ADMIN, Some ADMIN) ∧
  List.filter (λ r, bool_decide (User.role r.2 = ADMIN)) (map_to_list (users (com w'))) = [].
Proof. vm_compute. repeat split. Qed.

Definition republish : release_request := Register "2.0.0-direct" "https://fw.example.org/c.bin" None.

Lemma release_catalogue_witness :
  let '(out, w') := run_request (serve_release republish) (world_of estate) in
  catalogue_ok (com w') ∧
  match out with
  | Ok o => release_effect republish o estate (com w')
  | Raise _ => com w' = estate
  end ∧
  ∃ l, (cpo_list_firmware_releases w').1 = Ok l ∧ NoDup l ∧
    (∀ i x, (i, x) ∈ l ↔ releases (com w') !! i = Some x ∧ FirmwareRelease.is_active x = true) ∧
    StronglySorted (λ a b,
      is_newer_version (FirmwareRelease.version b.2) (FirmwareRelease.version a.2) = false) l.
Proof. apply (release_catalogue republish (world_of estate)); [reflexivity | exact estate_catalogue]. Defined.

(** 1.10 goes before 1.9, and a version on offer is refused. *)
Example picker_order :
  let '(out, w') := run_request (serve_release republish) (world_of estate) in
  match (cpo_list_firmware_releases w').1 with
  | Ok l => map (λ r, FirmwareRelease.version r.2) l | _ => [] end
    = ["2.0.0-direct"; "1.10.0"; "1.9.0"]%string ∧
  (run_request (serve_release republish) w').1 =
    Raise (HTTPException 400 "Firmware release is already registered.").
Proof. vm_compute. done. Qed.

Lemma ota_correct_witness :
  let '(out, w') := run_request (serve_ota false site_operator "gw" (mkota (Some 2) None)) (world_of estate) in
  com w' = estate ∧ ∃ l, evs w' = [] ++ l ∧
    update_sent false site_operator "gw" (mkota (Some 2) None) estate (is_ok out) l.
Proof.
  apply (ota_correct false site_operator "gw" (mkota (Some 2) None) (world_of estate));
    [reflexivity | exact estate_catalogue].
Defined.

Example ota_replies :
  let reply by_admin req := (run_request (serve_ota by_admin site_operator "gw" req) (world_of estate)).1 in
  reply false (mkota (Some 2) None) = Ok "https://fw.example.org/b.bin"%string ∧
  reply false (mkota None (Some "https://x.org/y.bin"%string)) =
    Raise (HTTPException 403 "Custom firmware URLs are restricted to admin users") ∧
  reply true (mkota None (Some "http://x.org/y.bin"%string)) = Raise (HTTPException 422 "") ∧
  reply true (mkota (Some 7) None) =
    Raise (HTTPException 404 "Firmware release not found or no longer active.").
Proof. vm_compute. repeat split. Qed.

(** ** CSV cells *)

Example cells :
  map (λ c, sanitize_csv_cell (Some c)) ["=1+1"; "  @x"; "plain"; "-2"]%string = ["'=1+1"; "'  @x"; "plain"; "'-2"]%string.
Proof. vm_compute. reflexivity. Qed.
