(* ===== verification/OperatorWitnesses.v ===== *)
(** * Workspaces, badges and charts: concrete inputs, and what they show

    The estate of [FleetWitnesses]: setups that race, subscriptions past their
    cap, a badge at the edge of its window, charts with gaps. *)

From stdpp Require Import sorting pretty.
From S2P Require Import Prelude Rounding PyNum Money Models Slots Config Billing TelemetryStore.
From S2P Require Import World Hoare Caps Groups Plugs CsvSafe Fleet Admin PushGuard Workspace.
From S2P Require Import Reliability Analytics Console Export.
From S2P Require Import Witnesses RouterWitnesses AccountWitnesses FleetWitnesses.

#[local] Existing Instance default_config.
#[local] Existing Instance plain_crypto.

(** ** An operator's workspace *)

(** The setup sets the role without looking at it: the last administrator who
    asks for a workspace is an operator afterwards, and nobody has the console,
    which [admins_remain] keeps the console itself from doing. *)
Theorem setup_loses_console :
  let w := world_of (estate <| users := {[9 := administrator]} |>) in
  let '(out, w') := run_request (cpo_setup 9 administrator "Society Two") w in
  out = Ok 100 ∧ User.role <$> users (com w) !! 9 = Some ADMIN ∧
  map_to_list (User.role <$> users (com w')) = [(9, CPO)].
Proof. vm_compute. repeat split. Qed.

(** Two requests of one driver that both pass the check: two tenants, one of
    them nobody's. *)
Theorem set_up_twice :
  let w := world_of estate in
  let w' := ((_ ← setup_store 2 "North"; _ ← setup_store 2 "South"; mret tt) w).2 in
  (setup_check neighbour "North" w).1 = Ok tt ∧ (setup_check neighbour "South" w).1 = Ok tt ∧
  (Tenant.name <$> tenants (com w') !! 100) = Some "North"%string ∧
  List.filter (λ r, bool_decide (User.tenant_id r.2 = Some 100)) (map_to_list (users (com w'))) = [].
Proof. vm_compute. repeat split. Qed.

(** Taking over an endpoint is not counted: two accounts that hand theirs back
    and forth hold any number of rows. *)
Definition subscribe_all uid (l : list Z) : M unit :=
  for_each l (λ i, push_subscribe uid (pretty i) "key" "auth").

Theorem cap_bypassed :
  let w' := ((subscribe_all 1 (seqZ 0 20);; subscribe_all 2 (seqZ 0 20);;
              subscribe_all 1 (seqZ 20 20);; subscribe_all 2 (seqZ 20 20)) (world_of estate)).2 in
  subscriptions 2 (com w') = 40 ∧ MAX_PUSH_SUBSCRIPTIONS_PER_USER = 20.
Proof. vm_compute. done. Qed.

Lemma estate_workspace : workspace_ok estate.
Proof.
  split; simpl; intros; estate_rows; try done;
    by rewrite lookup_singleton_ne by lia.
Qed.

Example becomes_operator :
  let w' := (run_request (cpo_setup 2 neighbour "North") (world_of estate)).2 in
  workspace_ok (com w') ∧ (User.tenant_id <$> users (com w') !! 2) = Some (Some 100).
Proof.
  pose proof (setup_correct 2 neighbour "North" (world_of estate) eq_refl estate_workspace eq_refl) as H.
  revert H. destruct (run_request _ _) as [out w'] eqn:Hr. intros [Hok _]. split; [exact Hok|].
  revert Hr. vm_compute. by intros [= _ <-].
Qed.

(** ** The reachability badge *)

Definition reading_at (t : datetime) : TelemetryReading.t :=
  TelemetryReading.mk 1 None (Sample.mk 3 t 0 0 0 0 Sample.SNull).

(** Made at half past, asked about three hours later, heard of in every hour of
    the clock: four, of three that can have passed. *)
Definition badge_start : datetime := minutes 30.
Definition badge_now : datetime := badge_start + 3 * HOUR.
Definition heard_hourly : db := estate
  <| readings := list_to_map (imap (λ i h, (Z.of_nat i, reading_at (badge_start + h * HOUR)))
       [0; 1; 2; 3]) |>.

Theorem edge_exceeds :
  let b := Z.of_nat (length (reading_hours heard_hourly 3 badge_start)) in
  b = 4 ∧ possible_buckets (elapsed_hours_of (badge_now - badge_start)) = 3 ∧
  (fint 100 <? raw_pct b (elapsed_hours_of (badge_now - badge_start))) = true ∧
  uptime_pct b (elapsed_hours_of (badge_now - badge_start)) = fint 100.
Proof. vm_compute. repeat split. Qed.

Lemma heard_listing : listing_ok heard_hourly.
Proof.
  pose proof estate_listing as H. revert H. unfold heard_hourly. generalize estate (list_to_map (M := gmap Z TelemetryReading.t)
    (imap (λ i h, (Z.of_nat i, reading_at (badge_start + h * HOUR))) [0; 1; 2; 3])).
  intros d m [[] ? ? ? ? ?]. by split.
Qed.

Lemma reliability_correct_witness :
  let '(out, w') := run_request (get_plug_reliability 3 1 (Some badge_start) badge_now)
    (world_of heard_hourly) in
  com w' = heard_hourly ∧ out = Ok (Some (fint 100), flit 125 1000, Plug.last_telemetry_at site_plug).
Proof.
  pose proof (reliability_correct 3 1 (Some badge_start) badge_now (world_of heard_hourly)
    eq_refl heard_listing ltac:(by vm_compute)) as H.
  revert H. destruct (run_request _ _) as [out w'] eqn:Hr. intros [Hc _]. split; [exact Hc|].
  revert Hr. vm_compute. by intros [= <- _].
Defined.

(** ** Charts *)

Definition charge_at (t : datetime) : ChargingSession.t :=
  site_session <| ChargingSession.status := COMPLETED |> <| ChargingSession.started_at := t |>
    <| ChargingSession.coins_spent := 3000 |> <| ChargingSession.energy_kwh := flit 25 10 |>.

Definition busy_days : db := estate
  <| sessions := {[20 := charge_at (days 100); 21 := charge_at (days 100 + 5); 22 := charge_at (days 103)]} |>.

Lemma busy_past : ∀ i s, sessions busy_days !! i = Some s → ChargingSession.started_at s <= days 103.
Proof. simpl. intros i s H. estate_rows; vm_compute; discriminate. Qed.

Example charts_agree_witness :
  ∃ g, grouping start_date (select (λ _, earned_since site_operator (lookback (days 103) 30))
                             (sessions busy_days)) g ∧
    (cpo_analytics_revenue site_operator 30 (days 103) (world_of busy_days)).1 =
      Ok [(100, fint 60, 2); (103, fint 30, 1)] ∧ length g = 2%nat.
Proof.
  destruct (charts_agree site_operator 30 (days 103) (world_of busy_days) busy_past)
    as (g & Hg & Hr & _ & _ & _).
  exists g. split; [exact Hg|]. rewrite Hr.
  assert (Hrun : (cpo_analytics_revenue site_operator 30 (days 103) (world_of busy_days)).1 =
    Ok [(100, fint 60, 2); (103, fint 30, 1)]) by (vm_compute; reflexivity).
  rewrite Hr in Hrun. split; [exact Hrun|]. injection Hrun as Hmap.
  rewrite <- (length_map (λ x, (x.1, to_coins (cents_of x.2), Z.of_nat (length x.2)))), Hmap. reflexivity.
Qed.

(** The range has thirty days and the chart two: a day without a session is not
    in it. *)
Theorem days_left_out :
  match (cpo_analytics_revenue site_operator 30 (days 103) (world_of busy_days)).1 with
  | Ok l => map (λ x, x.1.1) l = [100; 103]
  | Raise _ => False
  end.
Proof. vm_compute. reflexivity. Qed.

(** A session that ends and one that begins in the same hour: the greatest
    reading is the end of the first, not where the hour ended. *)
Definition metered (t : datetime) (kwh : float) : TelemetryReading.t :=
  TelemetryReading.mk 1 None (Sample.mk 3 t 0 kwh 0 0 Sample.SNull).

Theorem bucket_not_its_end :
  let d := estate <| readings := {[1 := metered (minutes 10) (fint 5); 2 := metered (minutes 50) (flit 1 10)]} |> in
  match (cpo_analytics_telemetry site_operator (Some 3) 1 "hour" (minutes 59) (world_of d)).1 with
  | Ok [b] => b_energy_kwh b = fint 5 ∧ b_sample_count b = 2
  | _ => False
  end.
Proof. vm_compute. done. Qed.

(** Both filters, pages of one, and the export. *)
Example history_pages :
  let run A (m : M A) := (m (world_of busy_days)).1 in
  run _ (cpo_analytics_sessions site_operator None (Some "bogus"%string) 30 1 0 (days 103)) =
    Raise (HTTPException 400 "Invalid status filter") ∧
  match run _ (cpo_analytics_sessions site_operator (Some 0) (Some "completed"%string) 30 1 1 (days 103)),
        run _ (cpo_export_sessions_csv site_operator None None 30 (days 103)) with
  | Ok (totals, [item]), Ok [l1; l2; l3] =>
      totals = mktotals 3 (flit 75 10) (fint 90) ∧ si_id item = 21 ∧
      map sl_id [l1; l2; l3] = [22; 21; 20]
  | _, _ => False
  end.
Proof. vm_compute. repeat split. Qed.

(** ** The platform console *)

Lemma estate_references : references_ok estate.
Proof.
  split; simpl; intros; estate_rows; try done;
    injection H0 as <-; vm_compute; by eexists.
Qed.

(** The number above the list of gateways counts those nobody has claimed, which
    the list leaves out: the console never reaches the last page it announces. *)
Theorem inventory_counted :
  match (admin_list_gateways None 50 0 0 (world_of estate)).1 with
  | Ok (total, items) => total = 2 ∧ map (λ r, r.1.1.1.1) items = ["gw"%string]
  | Raise _ => False
  end.
Proof. vm_compute. done. Qed.

(** ** The export *)

Definition subscribed : db := estate
  <| push_subscriptions := {[5 := PushSubscription.mk 1 "https://push.example.org/secret" "k" "a"]} |>.

Example exported :
  match (build_export 1 site_driver (λ i, i) (world_of subscribed)).1 with
  | Ok doc => push_devices doc = ["push.example.org"%string] ∧ truncated_collections doc = [] ∧
      ac_email (account doc) = User.email site_driver
  | Raise _ => False
  end.
Proof. vm_compute. done. Qed.
