(* ===== verification/EdgeWitnesses.v ===== *)
(** * The edge: concrete requests and connections, and what they show

    A server of rooms that is enough to evaluate the handlers, a CORS middleware
    that adds one header, and a lobby with two drivers of one charger: the first
    has finished a session there, the second is charging. *)

From stdpp Require Import pretty strings gmap sets.
From S2P Require Import Prelude Rounding PyNum Money Models Slots Config PyString RateLimit.
From S2P Require Import TelemetryStore World Hoare PyJson Auth Lifecycle Tariffs Groups Plugs.
From S2P Require Import Fleet Admin PushGuard LocalIp Workspace RateRules Http Sockets.
From S2P Require Import SocketSafety Notifications Payments Schemas Witnesses MoneyWitnesses.
From S2P Require Import RouterWitnesses AccountWitnesses.

#[local] Existing Instance default_config.
#[local] Existing Instance plain_crypto.
#[local] Existing Instance no_environment.

(** ** A server of rooms *)

Record book := mkbook { b_rooms : list (string * string); b_sessions : gmap string saved }.

Definition same_place (sid room : string) (r : string * string) : bool :=
  String.eqb r.1 sid && String.eqb r.2 room.

#[local] Instance book_server : SocketIO := {|
  server := book;
  save_session := λ sid v b, mkbook (b_rooms b) (<[sid := v]> (b_sessions b));
  get_session := λ sid b, b_sessions b !! sid;
  enter_room := λ sid room b, mkbook ((sid, room) :: b_rooms b) (b_sessions b);
  leave_room := λ sid room b,
    mkbook (List.filter (λ r, negb (same_place sid room r)) (b_rooms b)) (b_sessions b);
  disconnect := λ sid b,
    mkbook (List.filter (λ r, negb (String.eqb r.1 sid)) (b_rooms b)) (delete sid (b_sessions b));
  participants := λ room b, map fst (List.filter (λ r, String.eqb r.2 room) (b_rooms b));
  everyone := λ b, map fst (map_to_list (b_sessions b));
  nobody := mkbook [] ∅ |}.

Lemma elem_participants sid room (b : book) : sid ∈ participants room b ↔ (sid, room) ∈ b_rooms b.
Proof.
  simpl. rewrite list_elem_of_In, in_map_iff. setoid_rewrite filter_In. split.
  - intros ([s r] & <- & Hin & Hr%String.eqb_eq). simpl in *. subst. by apply list_elem_of_In.
  - intros Hin%list_elem_of_In. exists (sid, room). simpl. by rewrite String.eqb_refl.
Qed.

#[local] Instance book_laws : SocketIOLaws.
Proof.
  split; intros; rewrite ?elem_participants; simpl.
  - destruct (String.eqb_spec sid sid') as [->|]; [apply lookup_insert_eq | by apply lookup_insert_ne].
  - done.
  - done.
  - by apply lookup_delete_ne.
  - done.
  - rewrite elem_of_cons. split; (intros [H|H]; [left | by right]); [by injection H | by destruct H as [-> ->]].
  - rewrite !list_elem_of_In, filter_In. unfold same_place. simpl. rewrite negb_true_iff, andb_false_iff, !String.eqb_neq.
    split; [intros [? Hn]; split; [|done]; intros [-> ->]; by destruct Hn|].
    intros [Hn ?]. split; [done|]. destruct (decide (sid' = sid)); [|by left]. right. intros ->. by apply Hn.
  - rewrite !list_elem_of_In, filter_In. simpl. rewrite negb_true_iff, String.eqb_neq. tauto.
  - simpl. apply not_elem_of_nil.
Qed.

(** ** The lobby *)

Definition second_driver : User.t := site_driver <| User.email := "e@example.org" |>.
Definition finished : ChargingSession.t := site_session <| ChargingSession.status := COMPLETED |>.
Definition next_session : ChargingSession.t := site_session <| ChargingSession.user_id := 2 |>.
Definition lobby : db := site
  <| users := {[1 := site_driver; 2 := second_driver]} |>
  <| sessions := {[21 := finished; 22 := next_session]} |>.

(** The charger has reported 3 kWh of the second driver's. *)
Definition reported : TelemetryStore.t :=
  TelemetryStore.update TelemetryStore.empty (fint 60) 3 (fint 1500) (fint 7) (fint 3) "charging"
    (Some (fint 15)) (fint 230) true.
Definition lobby_world : world := (world_of lobby) <| store := reported |>.

Definition token_of (uid tv : Z) : string := create_access_token uid DRIVER "" tv 0.
Definition somewhere : environ := mkenviron None (Some "203.0.113.9"%string) (Some "10.0.0.1"%string).
Definition handshake (sid : string) (uid : Z) : event :=
  Connect sid somewhere (Some (token_of uid 0)) (fint 1) 0.
Definition about (n : Z) : option payload := Some [("session_id"%string, J (JInt n))].

Definition opened : live := boot (new_limiter 60 (fint 60) 0) lobby.
Definition opened_with_store : live := opened <| wld := lobby_world |>.
Definition run (es : list event) (l : live) : live := foldl (λ l e, react e l) l es.


(** The first driver, in the room of the own finished session. *)
Definition watching : live := run [handshake "a" 1; Subscribe "a" (about 21)] opened_with_store.



(** What the charger reports of the next driver goes to the driver of a session
    that is over: a subscription does not ask whether its session still runs. *)
Theorem watches_next_driver :
  let l := run [Turn 21 (fint 61); Turn 21 (fint 61)] watching in
  ChargingSession.status finished = COMPLETED ∧ ChargingSession.user_id next_session = 2 ∧
  match sent l with
  | [_; (rs, Room room, MTelemetry 3 snapshot false)] =>
      rs = ["a"%string] ∧ room = session_room 21 ∧
      TelemetryStore.energy_kwh snapshot = fint 3 ∧ TelemetryStore.cost_coins snapshot = fint 15
  | _ => False
  end.
Proof. vm_compute. repeat split. Qed.

(** A task whose room has emptied is on its way out when its driver comes back: the
    subscription is acknowledged, and nothing is sent for it. *)
Theorem subscriber_left_out :
  let l := run [handshake "b" 2; Subscribe "b" (about 22); Turn 22 (fint 61);
                Unsubscribe "b" (about 22); Turn 22 (fint 61); Subscribe "b" (about 22);
                Turn 22 (fint 62); Turn 22 (fint 62); Turn 22 (fint 63)] opened_with_store in
  participants (session_room 22) (io l) = ["b"%string] ∧ active_streams l = ∅ ∧
  map snd (sent l) = [MSubscribed 22; MSubscribed 22].
Proof. vm_compute. repeat split. Qed.

(** Without a snapshot the task outlives its room, and its plug stays at the fast
    cadence. *)
Theorem stream_outlives_room :
  let l := run [handshake "b" 2; Subscribe "b" (about 22); Turn 22 (fint 61);
                Disconnected "b"] opened in
  participants (session_room 22) (io l) = [] ∧
  active_streams l !! 22 = Some (mktask 3 Streaming) ∧
  TelemetryStore.get_interval (store (wld l)) 3 = 1000 ∧
  react (Turn 22 (fint 62)) l = l.
Proof. cbv zeta. split_and!; vm_compute; reflexivity. Qed.

(** A token of an earlier epoch, none, and the sixty-first attempt of a minute. *)
Example handshakes :
  let outcome l e := match react e l with l' => participants (user_room 1) (io l') end in
  outcome opened (handshake "a" 1) = ["a"%string] ∧
  outcome opened (Connect "a" somewhere (Some (token_of 1 7)) (fint 1) 0) = [] ∧
  outcome opened (Connect "a" somewhere None (fint 1) 0) = [] ∧
  outcome (run (repeat (Connect "x" somewhere None (fint 1) 0) 60) opened) (handshake "a" 1) = [].
Proof. vm_compute. repeat split. Qed.

(** An account that is disabled after the handshake. *)
Definition disabled (uid : Z) (w : world) : world :=
  let d := (com w) <| users ::= alter (λ u, u <| User.is_disabled := true |>) uid |> in
  w <| cur := d |> <| com := d |>.

Lemma disabled_elsewhere uid w : elsewhere w (disabled uid w).
Proof. split; [done | | done]. intros n s Hn. by exists s. Qed.

Definition shaken : live := run [handshake "a" 1] opened.
Definition then_disabled : live := shaken <| wld := disabled 1 (wld shaken) |>.

Lemma then_disabled_reachable : reachable then_disabled.
Proof.
  exists (new_limiter 60 (fint 60) 0), lobby.
  eapply rtc_l; [apply (step_event _ (handshake "a" 1)); intros room; apply not_elem_of_nil|].
  apply rtc_once, (step_elsewhere shaken), disabled_elsewhere.
Qed.

Lemma then_disabled_out : ¬ in_order "a" then_disabled.
Proof.
  intros (s & u & Hg & _ & Hu & Hd & _).
  assert (Hs : get_session "a" (io then_disabled) = Some (mksaved 1 0)) by (vm_compute; reflexivity).
  assert (H : User.is_disabled <$> users (com (wld then_disabled)) !! 1 = Some true)
    by (vm_compute; reflexivity).
  assert (s = mksaved 1 0) as -> by congruence. cbn [saved_user_id] in Hu. rewrite Hu in H.
  injection H as H. congruence.
Qed.

Lemma revoked_booted_witness :
  ∀ room, "a"%string ∉ participants room (io (react (Subscribe "a" (about 21)) then_disabled)).
Proof.
  exact (proj1 (revoked_booted "a" (about 21) (Subscribe "a" (about 21)) then_disabled
    then_disabled_reachable then_disabled_out (or_introl eq_refl))).
Defined.

(** ** The layers *)

(** A CORS middleware of one header. *)
Definition one_header : gmap string string := {["access-control-allow-credentials"%string := "true"%string]}.
Definition simple_cors {rest} (inner : app rest) : app rest := λ r s,
  if is_preflight r then (Some (mkresponse 200 one_header "OK"), s)
  else (with_headers one_header <$> (inner r s).1, (inner r s).2).

#[local] Instance simple_cors_laws rest : CorsLaws (rest := rest) simple_cors.
Proof.
  split; intros inner r s Hp; unfold simple_cors; rewrite Hp; [done|].
  exists one_header. split; [|done]. intros k v Hk. unfold one_header in Hk.
  apply lookup_singleton_Some in Hk as [<- _]. reflexivity.
Qed.

(** Routes that count their calls: a page, and JSON under [/api/]. *)
Definition counting : app Z := λ r s,
  (Some (mkresponse 200 {["content-type"%string :=
     if prefix_of "/api/" (path r) then "application/json"%string else "text/html; charset=utf-8"%string]} ""),
   mkstate (api_rate_limiter s) (correlation_id s) (others s + 1)).

Definition MiB : Z := 1024 * 1024.
Definition service : app Z := stack MiB (4 * MiB) simple_cors counting.
Definition fresh_state : state Z := mkstate (Some (new_limiter 2 (fint 60) 0)) "" 0.
Definition get (p : string) (h : gmap string string) : request :=
  mkrequest "GET" p h (Some "10.0.0.1"%string) (fint 1) "0123456789ab".

(** [serve n r]: what the [n]th such request is answered, and how many reached a
    route. *)
Definition serve (n : nat) (r : request) : option (Z * option string * option string) * Z :=
  let '(a, s) := service r (Nat.iter n (λ s, (service r s).2) fresh_state) in
  ((λ a, (status_code a, response_headers a !! "content-security-policy"%string,
          response_headers a !! "retry-after"%string)) <$> a, others s).

Definition json_csp : option string := header_of "content-security-policy" SECURITY_HEADERS.

Example layers :
  let declared n : gmap string string := {["content-length"%string := n]} in
  serve 2 (get "/api/plugs" ∅) = (Some (429, json_csp, Some "61"%string), 2) ∧
  serve 9 (get "/api/health" ∅) = (Some (200, json_csp, None), 10) ∧
  serve 9 (get "/" ∅) = (Some (200, Some HTML_CSP, None), 10) ∧
  serve 2 (get "/api/plugs" (declared "1048577"%string)) = (Some (413, json_csp, None), 0) ∧
  serve 1 (get "/api/plugs" (declared "about a million"%string)) = (Some (200, json_csp, None), 2) ∧
  serve 1 (get FIRMWARE_UPLOAD_PATH (declared "4194304"%string)) = (Some (200, json_csp, None), 2).
Proof. vm_compute. repeat split. Qed.

Lemma answers_guarded_witness :
  ∀ a, (service (get "/" ∅) fresh_state).1 = Some a →
  response_headers a !! "x-request-id"%string = Some "0123456789ab"%string ∧
  (∀ name value, (name, value) ∈ SECURITY_HEADERS → is_Some (response_headers a !! name)) ∧
  (is_html a = true → response_headers a !! "content-security-policy"%string = Some HTML_CSP).
Proof. intros a Ha. exact (answers_guarded MiB (4 * MiB) simple_cors counting (get "/" ∅) fresh_state a Ha). Defined.

(** A window that is not a number passes the check of the rules; so does an endless
    one, and what is told to wait is then no number of seconds either. *)
Theorem endless_rules :
  let named raw : Environment := λ name, if String.eqb name "LOGIN_RATE_LIMIT" then Some raw else None in
  rule_from_env (env := named "10/nan"%string) "LOGIN_RATE_LIMIT" "10/60" = Ok (10, PNaN) ∧
  rule_from_env (env := named "10/inf"%string) "LOGIN_RATE_LIMIT" "10/60" = Ok (10, PInf false) ∧
  rule_from_env (env := named "10/0"%string) "LOGIN_RATE_LIMIT" "10/60" = Ok (10, PFloat (fint 60)) ∧
  rule_from_env (env := named "0/60"%string) "LOGIN_RATE_LIMIT" "10/60" = Ok (10, PFloat (fint 60)).
Proof. vm_compute. repeat split. Qed.

(** Ten attempts at second 1; the next at second 5 is told 57, and is let in at
    second 62. *)
Definition ten_hits : limiter :=
  Nat.iter 10 (λ l, (check "ip" (fint 1) l).2) (new_limiter 10 (fint 60) 0).

Lemma retry_after_honest_witness :
  ∃ r l', check "ip" (fint 5) ten_hits = (Blocked r, l') ∧ retry_seconds r = 57 ∧
    (check "ip" (fint 62) l').1 = Allowed.
Proof.
  assert (Hb : tidy (fint 1) ten_hits).
  { unfold ten_hits. assert (Hn : ∀ n, tidy (fint 1) (Nat.iter n (λ l, (check "ip" (fint 1) l).2)
      (new_limiter 10 (fint 60) 0))); [|apply Hn].
    induction n as [|n IH]; [by apply new_limiter_tidy|].
    apply (tidy_check (fint 1)); [exact IH | done | by apply flit_is_float]. }
  exists (fint 56), (check "ip" (fint 5) ten_hits).2.
  assert (Hc : check "ip" (fint 5) ten_hits = (Blocked (fint 56), (check "ip" (fint 5) ten_hits).2))
    by (vm_compute; reflexivity).
  split; [exact Hc|]. split; [vm_compute; reflexivity|].
  refine (proj2 (retry_after_honest (fint 1) "ip" (fint 5) (fint 62) ten_hits _ (fint 56) _ Hb _ _ _ Hc _ _)).
  - vm_compute. congruence.
  - vm_compute. congruence.
  - by apply flit_is_float.
  - by apply flit_is_float.
  - vm_compute. reflexivity.
  - vm_compute. congruence.
Defined.

(** ** Notifications *)

Definition push_keys : Environment := λ name, if String.eqb name "VAPID_PRIVATE_KEY" then Some "key"%string else None.
Definition gone_devices : WebPush := λ s _,
  if String.eqb (PushSubscription.auth s) "gone" then PushGone else PushTaken.

Definition devices : gmap Z PushSubscription.t := {[
  51 := PushSubscription.mk 1 "https://push.example.org/1" "k" "here";
  52 := PushSubscription.mk 1 "https://push.example.org/2" "k" "gone";
  53 := PushSubscription.mk 1 "https://10.0.0.1/" "k" "gone";
  54 := PushSubscription.mk 2 "https://push.example.org/4" "k" "gone" ]}.

Definition front_desk : desk :=
  mkdesk (run [handshake "a" 1; handshake "b" 2]
    (boot (new_limiter 60 (fint 60) 0) (lobby <| push_subscriptions := devices |>))) [].

(** The device that is gone is forgotten; the unsafe row is neither posted to nor
    forgotten; the other driver hears nothing. *)
Example notified :
  let '(out, k) := notify (env := push_keys) (wp := gone_devices) 1 "session_stopped" "t" "b" "info"
    (Some 3) (Some 21) 0 front_desk in
  out = Some 100 ∧
  posted k = [("https://push.example.org/1"%string, 100); ("https://push.example.org/2"%string, 100)] ∧
  map fst (map_to_list (push_subscriptions (com (office k)))) = [51; 53; 54] ∧
  map (λ m, m.1.1) (sent (clients k)) = [["a"%string]] ∧
  (list_notifications 2 false 50 k).2 = 0 ∧ (list_notifications 1 false 50 k).2 = 1.
Proof. vm_compute. repeat split. Qed.

Lemma deliver_complete_witness :
  let words (e : effect) := ("t"%string, "b"%string) in
  let es := [Notify 1 "session_stopped" "info" (Some 3) (Some 21); EmitPlugStatus 3 AVAILABLE;
             Notify 9 "low_balance" "warning" None None; Notify 2 "low_balance" "warning" None None] in
  let k := deliver (env := push_keys) (wp := gone_devices) words 0 es front_desk in
  feed k = number 100 (omap (stored_note words (com (office front_desk)) 0) es) ∅ ∧ next_note k = 102.
Proof.
  cbv zeta. refine (deliver_complete (env := push_keys) (wp := gone_devices) _ 0 _ front_desk _).
  split; [|vm_compute; reflexivity]. intros i x Hi. change (feed front_desk) with (∅ : gmap Z Notification.t) in Hi.
  by rewrite lookup_empty in Hi.
Defined.

(** An oversized request and one over the limit. *)
Lemma stack_correct_witness :
  let r := get "/api/plugs" {["content-length"%string := "1048577"%string]} in
  let s := Nat.iter 2 (λ s, (service (get "/api/plugs" ∅) s).2) fresh_state in
  (status_code <$> (service r s).1) = Some 413 ∧ (service r s).2 = carries_id r s ∧
  (status_code <$> (service (get "/api/plugs" ∅) s).1) = Some 429.
Proof.
  cbv zeta. set (s := Nat.iter 2 _ _).
  pose proof (stack_correct MiB (4 * MiB) simple_cors counting
    (get "/api/plugs" {["content-length"%string := "1048577"%string]}) s) as H1.
  fold service in H1. destruct (service (get "/api/plugs" {["content-length"%string := "1048577"%string]}) s) as [a t].
  destruct H1 as (_ & H1 & _). destruct H1 as [Ha Ht]; [vm_compute; reflexivity..|].
  split; [exact Ha|]. split; [exact Ht|]. vm_compute. reflexivity.
Defined.

(** ** Concrete bodies for the theorems on request schemas

    An operator of the site of [Witnesses] types addresses and names; hashes are
    constant, and an address is taken as it is when it has few characters. *)

Module Bodies.
#[local] Existing Instance default_config.
#[local] Existing Instance test_razorpay.

#[local] Instance short_crypto : Crypto := {|
  bcrypt_hashpw := λ _ _, Some "$2b$12$"%string;
  bcrypt_checkpw := λ _ _, Some true;
  sha256_hexdigest := id;
  jwt_encode := λ _, ""%string;
  jwt_decode := λ _ _, None |}.
#[local] Instance short_emails : EmailValidator := λ s, if str_len s <=? 254 then Some s else None.

#[local] Instance short_writers : WriterLaws.
Proof.
  split.
  - intros s e. unfold email_str, short_emails. destruct (Z.leb_spec (str_len s) 254); [|done]. by intros [= <-].
  - intros p s h [= <-]. vm_compute. done.
Qed.

Lemma local_ip_correct_witness :
  let typed := "  FE80:0::0a1%eth0 "%string in
  validate_local_ip typed = Some "fe80::a1%eth0"%string ∧
  validate_local_ip "fe80::a1%eth0" = Some "fe80::a1%eth0"%string ∧
  validate_local_ip " 10.0.0.7" = Some "10.0.0.7"%string ∧ (String.length "10.0.0.7" <= 45)%nat.
Proof.
  assert (H1 : validate_local_ip "  FE80:0::0a1%eth0 " = Some "fe80::a1%eth0"%string) by (vm_compute; reflexivity).
  assert (H2 : validate_local_ip " 10.0.0.7" = Some "10.0.0.7"%string) by (vm_compute; reflexivity).
  split; [exact H1|]. split; [apply (local_ip_correct _ _ H1)|]. split; [exact H2|].
  apply (local_ip_correct _ _ H2). reflexivity.
Defined.

(** ** Columns *)

Lemma site_columns : columns_ok site.
Proof. split; apply (bool_decide_unpack _); vm_compute; exact I. Qed.

Definition new_bay : CpoPlugCreateRequest :=
  mkplug_create "gw" "Bay 2" " 10.0.0.3 " "tapo_p110" None None None (Some 3000) None.

Lemma columns_fit_witness :
  texts_ok (serve_body site_operator (PostPlug new_bay) (world_of site)).2 ∧
  (serve_body site_operator (PostPlug new_bay) (world_of site)).1 = Ok tt ∧
  (let r := PostTopup 2 (mktopup "d@example.org" (fint 5) (Some "paid in cash"%string)) 0 0 in
   texts_ok (serve_body site_operator r (world_of site)).2 ∧
   Forall loose_ok (loose_texts site_operator r) ∧ length (loose_texts site_operator r) = 1%nat).
Proof.
  split; [|split; [vm_compute; reflexivity|]].
  - apply (columns_fit site_operator (PostPlug new_bay)); [split; exact site_columns|exact I|vm_compute; reflexivity].
  - cbv zeta. set (r := PostTopup _ _ _ _).
    destruct (columns_fit site_operator r (world_of site)) as [H1 H2];
      [split; exact site_columns|exact I|by vm_compute|].
    split; [exact H1|]. split; [exact H2|]. vm_compute. reflexivity.
Defined.

(** A note that the schema accepts and the column of the note takes makes a
    description that is too long: the driver is not credited. *)
Definition long_note : string := Nat.iter 250 (λ s, "n" +:+ s) "".

Theorem topup_note_refused :
  let body := mktopup "d@example.org" (fint 5) (Some long_note) in
  validate body = Some body ∧ ¬ Forall loose_ok (loose_texts site_operator (PostTopup 2 body 0 0)).
Proof.
  cbv zeta. split; [vm_compute; reflexivity|]. intros H. apply Forall_inv in H. vm_compute in H. discriminate.
Qed.

(** The stored address is the one without the spaces. *)
Example stored_trimmed :
  map (Plug.local_ip ∘ snd) (map_to_list (plugs (com (serve_body site_operator (PostPlug new_bay) (world_of site)).2)))
  = ["10.0.0.2"; "10.0.0.3"]%string ∨
  map (Plug.local_ip ∘ snd) (map_to_list (plugs (com (serve_body site_operator (PostPlug new_bay) (world_of site)).2)))
  = ["10.0.0.3"; "10.0.0.2"]%string.
Proof. vm_compute. by left + by right. Qed.

(** An id of 46 characters passes the schema and is stored as the legacy address
    too, whose column has 45: the insert fails in the database. *)
Definition long_id : string := "aa:bb:cc:dd:ee:ff-charger-cabinet-basement-007".

Theorem wide_gateway :
  let body := mkgateway_create long_id "Basement" "" in
  let w := (serve_body site_operator (PostGateway body 0) (world_of site)).2 in
  str_len long_id = 46 ∧ validate body = Some body ∧
  (Gateway.vpn_ip <$> gateways (com w) !! long_id) = Some long_id ∧ ¬ columns_ok (com w).
Proof.
  cbv zeta. split; [vm_compute; reflexivity|]. split; [vm_compute; reflexivity|].
  assert (Hg : Gateway.vpn_ip <$> gateways (com (serve_body site_operator
    (PostGateway (mkgateway_create long_id "Basement" "") 0) (world_of site)).2) !! long_id = Some long_id)
    by (vm_compute; reflexivity).
  split; [exact Hg|]. intros Hok. destruct (gateways _ !! long_id) as [g|] eqn:Hl; [|discriminate].
  injection Hg as Hv. pose proof (fit_gateways _ Hok _ _ Hl) as Hfit. simpl in Hfit. unfold gateway_fits in Hfit.
  rewrite Hv in Hfit. rewrite !andb_true_iff in Hfit. destruct Hfit as [[[[_ _] Hw] _] _]. vm_compute in Hw. discriminate.
Qed.

(** ** Orders *)

Lemma order_exact_witness :
  validate (mkorder (flit 12345 100)) = Some (mkorder (flit 12345 100)) ∧
  (∃ n, 0 <= n <= 1000000 ∧ flit 12345 100 = flit n 100) ∧ validate (mkorder (flit 123455 1000)) = None.
Proof.
  assert (H : validate (mkorder (flit 12345 100)) = Some (mkorder (flit 12345 100))) by (vm_compute; reflexivity).
  split; [exact H|]. split; [|vm_compute; reflexivity].
  destruct (order_exact _ _ H) as (n & Hn & Ha & _). exists n. split; [exact Hn|exact Ha].
Defined.
End Bodies.
